(* ===== verification/_CoqProject ===== *)
-Q . S2P
Prelude.v
Core.v
Text.v
Jobs.v
Notifications.v
Polls.v
PollsInvariant.v
Relations.v
RelationsInvariant.v
Statuses.v
NotificationRequests.v
RequestsInvariant.v
Interactions.v
InteractionsInvariant.v
OAuth.v
OAuthInvariant.v
Session.v
Registration.v
RegistrationInvariant.v
Pagination.v
PaginationWalk.v
DomainPolicy.v
DomainPolicyInvariant.v
Threads.v
ThreadsInvariant.v
Dispatch.v
Delivery.v
DeliveryInvariant.v
Inbox.v
InboxFrames.v
InboxInvariant.v
Scheduled.v
ScheduledInvariant.v
Markup.v
MarkupInvariant.v
ClientAddress.v
TagUsage.v
TagUsageInvariant.v
Pins.v
PinsInvariant.v
Timelines.v
StatusActions.v
TimelinesInvariant.v
StatusActionsInvariant.v
Quotes.v
QuotesInvariant.v
QuotesOutcomes.v
