(* ===== verification/Prelude.v ===== *)
(** Roosty, a federated social server in Rust: a verification library.

    The server keeps its state in PostgreSQL ([crates/db/src/lib.rs]), answers the
    Mastodon client API and the ActivityPub protocol ([crates/server/src/]), and does
    everything that may wait in durable jobs that any process can claim
    ([crates/server/src/main.rs]).  Here the tables of a component are finite maps,
    its operations are functions in a state-and-error monad, its handlers are the
    same composition of operations as in the source, and histories of requests are
    step relations over the store.

    * Files and what they model

    - This file: the world (clock, UUIDs and random tokens as arbitrary sequences),
      the monad [M], transactions with commit and rollback, [zoom] from a store to a
      part of it, the frame predicate [keeps], the invariant predicate [stays], ordered
      selection over tables.  [Core.v]: the errors and identifiers of
      [crates/core/src/lib.rs].  [Text.v]: Rust strings and the functions on them.
    - [Jobs.v]: the queue (enqueue with deduplication, lease, completion, retry,
      cleanup) and one iteration of the worker.  [Dispatch.v]: the handlers of the
      merge, cleanup and poll jobs, and that every queued payload is one that its
      handler reads.
    - [Notifications.v], [NotificationRequests.v], [RequestsInvariant.v]: insertion
      hooks with rolling groups, the policy that accepts, filters or drops a
      notification, and the requests that collect the filtered ones.
    - [Relations.v], [RelationsInvariant.v]: follows, blocks, mutes, shared follows
      with remote actors, moves, suspension, private lists.
    - [Statuses.v], [Threads.v], [ThreadsInvariant.v]: stored statuses, who may see
      them, ancestors and descendants of a thread.
    - [Interactions.v], [InteractionsInvariant.v]: favourites, bookmarks, boosts and
      the counters behind trends.
    - [Polls.v], [PollsInvariant.v]: validation, votes, edits, refreshes, expiry.
    - [OAuth.v], [OAuthInvariant.v], [Session.v]: applications, codes, tokens, scopes,
      browser sessions, password login.
    - [Registration.v], [RegistrationInvariant.v]: the registration endpoint and its
      rate limiter.
    - [Pagination.v], [PaginationWalk.v]: cursors, pages, Link headers, merged pages.
    - [DomainPolicy.v], [DomainPolicyInvariant.v]: rules for remote domains, the
      administrator endpoints that change them, the purge of suspended domains.
    - [Delivery.v], [DeliveryInvariant.v]: recipients of an activity, inbox groups,
      delivery jobs and their handlers, signed requests and their outcomes.
    - [Inbox.v], [InboxFrames.v], [InboxInvariant.v]: the shared inbox, from an
      authenticated request to the ledger of processed activities, with the handlers of
      follows and their answers, blocks, likes, boosts and the undoing of each.
    - [Scheduled.v], [ScheduledInvariant.v]: creation of statuses with idempotency keys,
      edits, attachments, schedules and their limits, publication by a job.
    - [Markup.v], [MarkupInvariant.v]: the scanners for mentions, remote handles,
      hashtags and URLs, and the HTML that a status is rendered to.
    - [TagUsage.v], [TagUsageInvariant.v]: hashtags of statuses and the counters per
      author and day that the history of a hashtag is read from.
    - [Pins.v], [PinsInvariant.v]: statuses an account pins, the collection it
      federates of them, and the bounded cache of the pins of remote accounts.
    - [Timelines.v], [TimelinesInvariant.v]: the queries of home, list, public, hashtag
      and profile timelines, their pages and links, and the checks that the responses
      make on every entry.
    - [StatusActions.v], [StatusActionsInvariant.v]: favouriting, bookmarking and
      boosting by a client, from the visibility check to the activity that is queued,
      the streams that are told and the notifications.
    - [Quotes.v], [QuotesInvariant.v], [QuotesOutcomes.v]: the table of quotes, quoting
      by clients and by remote notes, requests and their answers, authorizations and
      revocations, and what responses show of quotes.
    - [ClientAddress.v]: the address of a client behind trusted proxies.

    * What the theorems show

    - Invariants over histories: the job table ([reachable_table_ok]), relationships
      and lists ([reachable_relations_ok]), poll tallies ([reachable_tally_ok]),
      notification requests ([reachable_requests_ok]), trend counters
      ([reachable_trends_ok]), payloads of queued jobs
      ([queued_payloads_fit_their_handlers]).
    - Refinement and equivalence: the limiter refines a log without cleanup, the
      policy of a domain is its strongest covering rule, a page merged from two
      queries is the page of the union, queueing an activity refines one delivery per
      reached inbox.
    - Safety: leases are exclusive and fenced, codes are single-use, revoked tokens
      stay dead, blocks are mutual, threads and deliveries reach only whom they may.
    - Termination and bounds: thread searches, collection walks, retry delays, rolling
      windows (for requests in the order of their clock readings).  Round trips: session cookies, likes and their undoing, payloads.
    - Where the code does not do what it means to, a theorem states what it does.
    - The inbox: an activity that the handlers written here answer (follows, answers to
      them, blocks, likes, boosts and their undoing) has its effects once
      ([inbox_effects_happen_once]) and only on what its signer owns
      ([inbox_acts_for_its_signer]).
    - Schedules and attachments: one owner each in every interleaving of creations,
      publications and edits ([attachments_follow_their_owner]), limits, what is read
      back when due, and the end of a schedule with its publication.
    - Markup: the HTML of a status shows its text and nothing else
      ([status_html_shows_its_text]), and the scanners find exactly the names that a
      declarative description of them names.
    - Hashtags: the history counts exactly the public statuses
      ([history_shows_what_is_public]), except after purges and concurrent deletions.
    - Pins: an account features at most five statuses, each its own and public enough to
      be shown ([featured_is_what_is_pinned]), and a remote account's pins cost a bounded
      number of requests.
    - Timelines: the walk over a home timeline reads the feed of its owner, entry by entry
      ([home_timeline_walk_reads_the_feed]), shows only what the owner may read
      ([home_timeline_shows_what_may_be_read]), and the public timeline follows the rules
      for domains.  A boosted direct message is the exception: it reaches the followers
      of the booster ([boosted_direct_message_reaches_home_timelines]).
    - Quotes: the consent to a quote that a local status makes only moves forward, until
      its author's data is purged ([consent_moves_forward]); the author of a remote status
      alone accepts such a quote of it ([remote_authors_accept_their_quotes]); a response
      shows as quoted only what passes the visibility check for its viewer, and the
      announced policy is the decision on statuses that are not direct.  Requests and
      edits of remote notes escape that discipline ([requests_decide_on_any_note]), and
      the list of quotes shows private statuses.

    * Bounds and fuel

    A search of a thread stops after 40 ancestors, 60 descendants or 20 levels without
    an account, and after 4096 with one; the fuel is that limit.  The walk up a reply
    chain has the depth 100 that the SQL query has.  Maintenance of trends takes
    [BATCH_SIZE] = 100 rows and cleanup of notifications 100 per run, as in the source.
    Walks over a collection have more fuel than rows, and the theorems say that this
    is enough.  [show_int] prints 20 digits, enough for 64 bits.  Widths matter where
    columns are narrow: attempts of a job and versions are checked against [i32_max]
    and [i64_max]; counters that no reachable table can overflow are unbounded.

    * Not modelled, and why

    Library code is a parameter of the section that uses it: the network, URL parsing,
    signatures, hashes, text forms of identifiers.  Row locks and advisory locks make
    the transactions on one row serial and have no other effect; where the code reads
    in one transaction and writes in another, the steps are separate and theorems
    interleave them.  Web pages and assets, configuration and start-up, the DDL of
    migrations (their constraints are in the operations, and the cascades of a purged
    account in [Quotes]), media processing, HTTP
    signatures, discovery, streaming and search are left out: they are I/O, glue or
    calls of libraries.  Direct conversations, reports, profile
    updates and the content of remote statuses are not modelled yet.

    * This file

    Shared vocabulary: the world (clock, UUID and token sources), the
    state-and-error monad in which every store operation is written, database
    transactions, lenses between a component's tables and a larger store,
    ordered selection over tables, and the lemmas and tactics that the
    component files use. *)
From Stdlib Require Export ZArith Lia.
From stdpp Require Export base tactics option list sorting gmap strings.

#[global] Open Scope Z_scope.

(** UUIDs are 128-bit identifiers, compared as unsigned numbers.
    [OffsetDateTime] values are nanoseconds since the Unix epoch and
    [Duration] values are nanoseconds. *)
Abbreviation uuid := N.
Abbreviation time := Z.
Abbreviation duration := Z.

Definition seconds (n : Z) : duration := n * 1000000000.
Definition minutes (n : Z) : duration := seconds (60 * n).

Definition i32_max : Z := 2147483647.
Definition i64_max : Z := 9223372036854775807.
Definition u32_max : Z := 4294967295.
Definition u64_modulus : Z := 18446744073709551616.

(** * Results *)

Inductive result (A E : Type) : Type :=
| Ok (a : A)
| Err (e : E).
Arguments Ok {A E} _.
Arguments Err {A E} _.

(** * The world

    A Rust program reads the clock, draws UUIDs and draws random tokens.  Each
    source is an arbitrary sequence together with the number of values already
    taken from it; no reading is assumed to be larger than the previous one. *)
Record World := mkWorld {
  w_clock : nat -> time;
  w_ticks : nat;
  w_uuid_source : nat -> uuid;
  w_uuids : nat;
  w_token_source : nat -> string;
  w_tokens : nat;
}.

(** A world for concrete histories: the clock advances by a hundred seconds at
    every reading and identifiers count up from 100; and the same world seven
    hundred seconds later. *)
Definition sample_world : World :=
  mkWorld (fun n => seconds (100 * Z.of_nat n)) 0 (fun n => 100 + N.of_nat n)%N 0
    (fun n => "token"%string) 0.
Definition later_world (w : World) : World :=
  mkWorld (w_clock w) (7 + w_ticks w) (w_uuid_source w) (w_uuids w) (w_token_source w) (w_tokens w).

(** An operation over a store [S] that fails with [E] and returns [A].  A
    failure keeps the effects that precede it, as autocommitted statements do;
    [transaction] below takes them back. *)
Definition M (S E A : Type) : Type := World -> S -> result A E * World * S.

Section Monad.
Context {S E : Type}.

#[global] Instance M_ret : MRet (M S E) := fun A a w s => (Ok a, w, s).

#[global] Instance M_bind : MBind (M S E) := fun A B k m w s =>
  match m w s with
  | (Ok a, w', s') => k a w' s'
  | (Err e, w', s') => (Err e, w', s')
  end.

Definition throw {A} (e : E) : M S E A := fun w s => (Err e, w, s).
Definition gets {A} (f : S -> A) : M S E A := fun w s => (Ok (f s), w, s).
Definition modify (f : S -> S) : M S E unit := fun w s => (Ok tt, w, f s).

(** [OffsetDateTime::now_utc()], and SQL [now()] in an autocommitted
    statement: the next clock reading. *)
Definition now_utc : M S E time := fun w s =>
  (Ok (w_clock w (w_ticks w)),
   mkWorld (w_clock w) (1 + w_ticks w) (w_uuid_source w) (w_uuids w)
           (w_token_source w) (w_tokens w), s).

(** [Uuid::now_v7()]. *)
Definition uuid_now_v7 : M S E uuid := fun w s =>
  (Ok (w_uuid_source w (w_uuids w)),
   mkWorld (w_clock w) (w_ticks w) (w_uuid_source w) (1 + w_uuids w)
           (w_token_source w) (w_tokens w), s).

(** 32 bytes of [OsRng] in URL-safe base64. *)
Definition next_token : M S E string := fun w s =>
  (Ok (w_token_source w (w_tokens w)),
   mkWorld (w_clock w) (w_ticks w) (w_uuid_source w) (w_uuids w)
           (w_token_source w) (1 + w_tokens w), s).

Definition lift_option {A} (e : E) (o : option A) : M S E A :=
  match o with Some a => mret a | None => throw e end.

Definition lift_result {A} (r : result A E) : M S E A :=
  match r with Ok a => mret a | Err e => throw e end.

Definition when (b : bool) (m : M S E unit) : M S E unit :=
  if b then m else mret tt.

(** [for x in xs { body }] with an early exit on the first error. *)
Fixpoint for_each {A} (xs : list A) (body : A -> M S E unit) : M S E unit :=
  match xs with
  | [] => mret tt
  | x :: xs => body x ≫= fun _ => for_each xs body
  end.

(** A loop that collects one value per element. *)
Fixpoint collect {A B} (xs : list A) (body : A -> M S E B) : M S E (list B) :=
  match xs with
  | [] => mret []
  | x :: xs => body x ≫= fun y => collect xs body ≫= fun ys => mret (y :: ys)
  end.
End Monad.

Arguments throw {S E A} _ _ _ /.
Arguments gets {S E A} _ _ _ /.
Arguments modify {S E} _ _ _ /.
Arguments now_utc {S E} _ _ /.
Arguments uuid_now_v7 {S E} _ _ /.
Arguments next_token {S E} _ _ /.

(** [map_err]: the same computation with another error type ([From] in Rust). *)
Definition map_err {S E1 E2 A} (f : E1 -> E2) (m : M S E1 A) : M S E2 A :=
  fun w s => match m w s with
             | (Ok a, w', s') => (Ok a, w', s')
             | (Err e, w', s') => (Err (f e), w', s')
             end.

(** * Transactions

    The body of a transaction says whether it reaches [commit()]; returning
    without a commit, or with an error, drops the transaction and the store is
    what it was at [begin()]. *)
Inductive txn (A : Type) : Type :=
| Commit (a : A)
| Rollback (a : A).
Arguments Commit {A} _.
Arguments Rollback {A} _.

Definition transaction {S E A} (body : M S E (txn A)) : M S E A :=
  fun w s => match body w s with
             | (Ok (Commit a), w', s') => (Ok a, w', s')
             | (Ok (Rollback a), w', _) => (Ok a, w', s)
             | (Err e, w', _) => (Err e, w', s)
             end.

(** * Stores made of parts

    A component's operations act on its own tables; a store that contains
    those tables runs them through a lens. *)
Class Part (T S : Type) := {
  get_part : S -> T;
  put_part : T -> S -> S;
  get_put_part : forall t s, get_part (put_part t s) = t;
  put_get_part : forall s, put_part (get_part s) s = s;
  put_put_part : forall t u s, put_part t (put_part u s) = put_part t s;
}.

Definition zoom {T S E A} `{Part T S} (m : M T E A) : M S E A :=
  fun w s => let '(r, w', t) := m w (get_part s) in (r, w', put_part t s).

#[export, refine] Instance part_self (S : Type) : Part S S | 10 :=
  {| get_part := fun s => s; put_part := fun t _ => t |}.
Proof. all: reflexivity. Defined.

(** * Running an operation *)

Definition value_of {S E A} (m : M S E A) (w : World) (s : S) : result A E :=
  fst (fst (m w s)).
Definition world_of {S E A} (m : M S E A) (w : World) (s : S) : World :=
  snd (fst (m w s)).
Definition store_of {S E A} (m : M S E A) (w : World) (s : S) : S :=
  snd (m w s).

(** A run that is known to succeed, with its final world and store. *)
Definition is_ok {A E} (r : result A E) : bool :=
  match r with Ok _ => true | Err _ => false end.

Lemma run_ok {S E A} (m : M S E A) w s :
  is_ok (value_of m w s) = true ->
  exists a, value_of m w s = Ok a /\ m w s = (Ok a, world_of m w s, store_of m w s).
Proof.
  unfold value_of, world_of, store_of. destruct (m w s) as [[[a|e] w'] s']; [|done].
  intros _. by exists a.
Qed.

(** * Frames

    [keeps f m]: running [m], to a result or an error, leaves the part [f] of
    the store as it was. *)
Definition keeps {S E A B} (f : S -> B) (m : M S E A) : Prop :=
  forall w s, f (store_of m w s) = f s.

Lemma keeps_ret {S E A B} (f : S -> B) (a : A) : keeps f (mret a : M S E A).
Proof. done. Qed.

Lemma keeps_throw {S E A B} (f : S -> B) (e : E) : keeps f (throw e : M S E A).
Proof. done. Qed.

Lemma keeps_gets {S E A B} (f : S -> B) (g : S -> A) : keeps f (gets g : M S E A).
Proof. done. Qed.

Lemma keeps_now_utc {S E B} (f : S -> B) : keeps f (now_utc : M S E time).
Proof. done. Qed.

Lemma keeps_uuid {S E B} (f : S -> B) : keeps f (uuid_now_v7 : M S E uuid).
Proof. done. Qed.

Lemma keeps_token {S E B} (f : S -> B) : keeps f (next_token : M S E string).
Proof. done. Qed.

Lemma keeps_modify {S E B} (f : S -> B) (g : S -> S) :
  (forall s, f (g s) = f s) -> keeps f (modify g : M S E unit).
Proof. intros Hg w s. apply Hg. Qed.

Lemma keeps_bind {S E A B C} (f : S -> C) (m : M S E A) (k : A -> M S E B) :
  keeps f m -> (forall a, keeps f (k a)) -> keeps f (m ≫= k).
Proof.
  intros Hm Hk w s. specialize (Hm w s). unfold store_of, mbind, M_bind in *.
  destruct (m w s) as [[[a|e] w'] s']; simpl in *; [|done].
  rewrite <- Hm. apply (Hk a w' s').
Qed.

Lemma keeps_lift_option {S E A B} (f : S -> B) (e : E) (o : option A) :
  keeps f (lift_option e o : M S E A).
Proof. by destruct o. Qed.

Lemma keeps_lift_result {S E A B} (f : S -> B) (r : result A E) :
  keeps f (lift_result r : M S E A).
Proof. by destruct r. Qed.

Lemma keeps_for_each {S E A B} (f : S -> B) (xs : list A) (body : A -> M S E unit) :
  (forall x, keeps f (body x)) -> keeps f (for_each xs body).
Proof.
  intros Hb. induction xs as [|x xs IH]; simpl; [done|]. by apply keeps_bind.
Qed.

Lemma keeps_collect {S E A B C} (f : S -> C) (xs : list A) (body : A -> M S E B) :
  (forall x, keeps f (body x)) -> keeps f (collect xs body).
Proof.
  intros Hb. induction xs as [|x xs IH]; simpl; [done|].
  apply keeps_bind; [done|]. intros y. by apply keeps_bind.
Qed.

Lemma keeps_zoom {T S E A B} `{Part T S} (f : S -> B) (m : M T E A) :
  (forall t s, f (put_part t s) = f s) -> keeps f (zoom m : M S E A).
Proof.
  intros Hf w s. unfold store_of, zoom.
  destruct (m w (get_part s)) as [[r w'] t]. apply Hf.
Qed.

(** A frame of a part is a frame of the store. *)
Lemma keeps_zoom_part {T S E A B C} `{Part T S} (f : S -> C) (g : T -> B) (m : M T E A) :
  (forall s t, g t = g (get_part s) -> f (put_part t s) = f s) -> keeps g m ->
  keeps f (zoom m : M S E A).
Proof.
  intros Hf Hm w s. specialize (Hm w (get_part s)). unfold store_of, zoom in *.
  destruct (m w (get_part s)) as [[r w'] t]. by apply Hf.
Qed.

Lemma keeps_map_err {S E1 E2 A B} (f : S -> B) (g : E1 -> E2) (m : M S E1 A) :
  keeps f m -> keeps f (map_err g m).
Proof.
  intros Hm w s. specialize (Hm w s). unfold store_of, map_err in *.
  by destruct (m w s) as [[[a|e] w'] s'].
Qed.

Lemma keeps_transaction {S E A B} (f : S -> B) (m : M S E (txn A)) :
  keeps f m -> keeps f (transaction m).
Proof.
  intros Hm w s. specialize (Hm w s). unfold store_of, transaction in *.
  by destruct (m w s) as [[[[a|a]|e] w'] s'].
Qed.

(** Using a frame on a run. *)
Lemma keeps_run {S E A B} (f : S -> B) (m : M S E A) w s r w' s' :
  keeps f m -> m w s = (r, w', s') -> f s' = f s.
Proof. intros Hm Hrun. specialize (Hm w s). unfold store_of in Hm. by rewrite Hrun in Hm. Qed.

Ltac solve_keeps :=
  repeat first
    [ done
    | match goal with |- forall _, _ => intro end
    | apply keeps_bind
    | apply keeps_lift_option
    | apply keeps_lift_result
    | apply keeps_for_each
    | apply keeps_collect
    | apply keeps_map_err
    | apply keeps_transaction
    | apply keeps_modify
    | apply keeps_zoom
    | match goal with |- keeps _ (let x := ?v in _) => cbv zeta end
    | match goal with |- keeps _ (match ?x with _ => _ end) => destruct x end
    | match goal with |- keeps _ (match ?x with _ => _ end ≫= _) => destruct x end ].

(** * Invariants of one operation

    [stays P m]: a run of [m], to a result or an error, leaves [P] true of the
    store when it was true before. *)
Definition stays {S E A} (P : S -> Prop) (m : M S E A) : Prop :=
  forall w s, P s -> P (store_of m w s).

Lemma stays_keeps {S E A B} (f : S -> B) (P : B -> Prop) (m : M S E A) :
  keeps f m -> stays (fun s => P (f s)) m.
Proof. intros Hm w s. by rewrite (Hm w s). Qed.

Lemma stays_ret {S E A} (P : S -> Prop) (a : A) : stays P (mret a : M S E A).
Proof. by intros w s. Qed.

Lemma stays_throw {S E A} (P : S -> Prop) (e : E) : stays P (throw e : M S E A).
Proof. by intros w s. Qed.

Lemma stays_gets {S E A} (P : S -> Prop) (g : S -> A) : stays P (gets g : M S E A).
Proof. by intros w s. Qed.

Lemma stays_now_utc {S E} (P : S -> Prop) : stays P (now_utc : M S E time).
Proof. by intros w s. Qed.

Lemma stays_uuid {S E} (P : S -> Prop) : stays P (uuid_now_v7 : M S E uuid).
Proof. by intros w s. Qed.

Lemma stays_modify {S E} (P : S -> Prop) (g : S -> S) :
  (forall s, P s -> P (g s)) -> stays P (modify g : M S E unit).
Proof. intros Hg w s. apply Hg. Qed.

Lemma stays_bind {S E A B} (P : S -> Prop) (m : M S E A) (k : A -> M S E B) :
  stays P m -> (forall a, stays P (k a)) -> stays P (m ≫= k).
Proof.
  intros Hm Hk w s HP. specialize (Hm w s HP). unfold store_of, mbind, M_bind in *.
  destruct (m w s) as [[[a|e] w'] s']; simpl in *; [|done]. by apply (Hk a w' s').
Qed.

Lemma stays_lift_option {S E A} (P : S -> Prop) (e : E) (o : option A) :
  stays P (lift_option e o : M S E A).
Proof. by destruct o; intros w s. Qed.

Lemma stays_lift_result {S E A} (P : S -> Prop) (r : result A E) :
  stays P (lift_result r : M S E A).
Proof. by destruct r; intros w s. Qed.

Lemma stays_for_each {S E A} (P : S -> Prop) (xs : list A) (body : A -> M S E unit) :
  (forall x, stays P (body x)) -> stays P (for_each xs body).
Proof. intros Hb. induction xs; simpl; [apply stays_ret|]. by apply stays_bind. Qed.

Lemma stays_collect {S E A B} (P : S -> Prop) (xs : list A) (body : A -> M S E B) :
  (forall x, stays P (body x)) -> stays P (collect xs body).
Proof.
  intros Hb. induction xs; simpl; [apply stays_ret|].
  apply stays_bind; [done|]. intros y. apply stays_bind; [done|]. intros ys. apply stays_ret.
Qed.

Lemma stays_zoom {T S E A} `{Part T S} (P : T -> Prop) (Q : S -> Prop) (m : M T E A) :
  (forall s, Q s -> P (get_part s)) -> (forall s t, Q s -> P t -> Q (put_part t s)) ->
  stays P m -> stays Q (zoom m).
Proof.
  intros Hget Hput Hm w s HQ. unfold store_of, zoom.
  specialize (Hm w (get_part s) (Hget s HQ)). unfold store_of in Hm.
  destruct (m w (get_part s)) as [[r w'] t]. by apply Hput.
Qed.

Lemma stays_map_err {S E1 E2 A} (P : S -> Prop) (g : E1 -> E2) (m : M S E1 A) :
  stays P m -> stays P (map_err g m).
Proof.
  intros Hm w s HP. specialize (Hm w s HP). unfold store_of, map_err in *.
  by destruct (m w s) as [[[a|e] w'] s'].
Qed.

Lemma stays_transaction {S E A} (P : S -> Prop) (m : M S E (txn A)) :
  stays P m -> stays P (transaction m).
Proof.
  intros Hm w s HP. specialize (Hm w s HP). unfold store_of, transaction in *.
  by destruct (m w s) as [[[[a|a]|e] w'] s'].
Qed.

(** [hook] proves the operations that need an argument of their own.  The goal
    picks the rule, so that no operation is unfolded to see which one it is. *)
Ltac solve_stays hook :=
  repeat lazymatch goal with
    | |- forall _, _ => intro
    | |- stays _ (mret _) => apply stays_ret
    | |- stays _ (throw _) => apply stays_throw
    | |- stays _ (gets _) => apply stays_gets
    | |- stays _ now_utc => apply stays_now_utc
    | |- stays _ uuid_now_v7 => apply stays_uuid
    | |- stays _ (match ?x with _ => _ end ≫= _) => destruct x
    | |- stays _ (_ ≫= _) => apply stays_bind
    | |- stays _ (lift_option _ _) => apply stays_lift_option
    | |- stays _ (lift_result _) => apply stays_lift_result
    | |- stays _ (for_each _ _) => apply stays_for_each
    | |- stays _ (collect _ _) => apply stays_collect
    | |- stays _ (map_err _ _) => apply stays_map_err
    | |- stays _ (transaction _) => apply stays_transaction
    | |- stays _ (when ?x _) => destruct x; cbn [when]
    | |- stays _ (let x := ?v in _) => cbv zeta
    | |- stays _ (match ?x with _ => _ end) => destruct x
    | |- stays _ (modify _) => first [apply stays_modify; by intros [] | hook]
    | |- _ => hook
    end.

(** Successful runs, statement by statement. *)
Lemma transaction_Commit {S E A} (m : M S E (txn A)) w s a w' s' :
  m w s = (Ok (Commit a), w', s') -> transaction m w s = (Ok a, w', s').
Proof. intros H. unfold transaction. by rewrite H. Qed.

Lemma transaction_Ok {S E A} (m : M S E (txn A)) w s a w' s' :
  transaction m w s = (Ok a, w', s') ->
  m w s = (Ok (Commit a), w', s') \/ s' = s /\ exists s1, m w s = (Ok (Rollback a), w', s1).
Proof.
  unfold transaction. destruct (m w s) as [[[[b|b]|e] w1] s1]; intros [= <- <- <-]; [by left|right; eauto].
Qed.

Lemma bind_Ok {S E A B} (m : M S E A) (k : A -> M S E B) w s b w' s' :
  (m ≫= k) w s = (Ok b, w', s') <->
  exists a w1 s1, m w s = (Ok a, w1, s1) /\ k a w1 s1 = (Ok b, w', s').
Proof.
  unfold mbind, M_bind. destruct (m w s) as [[[a|e] w1] s1]; naive_solver.
Qed.

Lemma lift_option_Ok {S E A} (e : E) (o : option A) (w : World) (s : S) a w' s' :
  lift_option e o w s = (Ok a, w', s') <-> o = Some a /\ w' = w /\ s' = s.
Proof. destruct o; unfold lift_option; unfold mret, M_ret, throw; naive_solver. Qed.

Lemma lift_result_Ok {S E A} (r : result A E) (w : World) (s : S) a w' s' :
  lift_result r w s = (Ok a, w', s') <-> r = Ok a /\ w' = w /\ s' = s.
Proof. destruct r; unfold lift_result; unfold mret, M_ret, throw; naive_solver. Qed.

(** Invert one bind of a successful run. *)
Ltac inv_bind H a w s Ha :=
  apply bind_Ok in H as (a & w & s & Ha & H).

(** * Tables

    A table is a finite map from primary keys to rows; a SELECT without ORDER
    BY returns the matching rows in some order. *)
Section Tables.
Context `{Countable K} {V : Type}.

Definition rows (t : gmap K V) : list V := snd <$> map_to_list t.

Definition rows_where (p : V -> bool) (t : gmap K V) : list V :=
  List.filter p (rows t).

Definition delete_where (p : V -> bool) (t : gmap K V) : gmap K V :=
  filter (fun kv => p (snd kv) = false) t.

Definition update_where (p : V -> bool) (f : V -> V) (t : gmap K V) : gmap K V :=
  (fun v => if p v then f v else v) <$> t.

Definition count_where (p : V -> bool) (t : gmap K V) : nat :=
  length (rows_where p t).

Lemma elem_of_rows (t : gmap K V) v :
  v ∈ rows t <-> exists k, t !! k = Some v.
Proof.
  unfold rows. rewrite list_elem_of_fmap. split.
  - intros [[k v'] [-> Hin]]. exists k. by apply elem_of_map_to_list.
  - intros [k Hk]. exists (k, v). split; [done|]. by apply elem_of_map_to_list.
Qed.

Lemma elem_of_rows_where p (t : gmap K V) v :
  v ∈ rows_where p t <-> (exists k, t !! k = Some v) /\ p v = true.
Proof.
  unfold rows_where. rewrite list_elem_of_In, filter_In, <- list_elem_of_In.
  by rewrite elem_of_rows.
Qed.

Lemma rows_where_nil p (t : gmap K V) :
  rows_where p t = [] <-> forall k v, t !! k = Some v -> p v = false.
Proof.
  split.
  - intros Hnil k v Hk. destruct (p v) eqn:Hp; [|done]. exfalso.
    assert (v ∈ rows_where p t) as Hin by (apply elem_of_rows_where; eauto).
    rewrite Hnil in Hin. by apply not_elem_of_nil in Hin.
  - intros Hall. destruct (rows_where p t) as [|v l] eqn:Hr; [done|].
    assert (v ∈ rows_where p t) as Hin by (rewrite Hr; left).
    apply elem_of_rows_where in Hin as [[k Hk] Hp].
    specialize (Hall k v Hk). congruence.
Qed.

Lemma lookup_delete_where p (t : gmap K V) k :
  delete_where p t !! k =
  match t !! k with Some v => if p v then None else Some v | None => None end.
Proof.
  unfold delete_where. destruct (t !! k) as [v|] eqn:Hk.
  - destruct (p v) eqn:Hp.
    + apply map_lookup_filter_None. right. intros x Hx. simplify_eq. simpl. congruence.
    + apply map_lookup_filter_Some. done.
  - apply map_lookup_filter_None. by left.
Qed.

Lemma lookup_update_where p f (t : gmap K V) k :
  update_where p f t !! k = (fun v => if p v then f v else v) <$> t !! k.
Proof. unfold update_where. apply lookup_fmap. Qed.

Lemma rows_insert_fresh (t : gmap K V) k v :
  t !! k = None -> rows (<[k := v]> t) ≡ₚ v :: rows t.
Proof. intros Hk. unfold rows. by rewrite map_to_list_insert. Qed.

Lemma filter_Permutation (p : V -> bool) (l l' : list V) :
  l ≡ₚ l' -> List.filter p l ≡ₚ List.filter p l'.
Proof.
  induction 1 as [|x l l' _ IH|x y l|l1 l2 l3 _ IH1 _ IH2]; simpl; [done| | |by etrans].
  - destruct (p x); by rewrite IH.
  - destruct (p x), (p y); try done. apply Permutation_swap.
Qed.

Lemma rows_where_insert_fresh p (t : gmap K V) k v :
  t !! k = None ->
  rows_where p (<[k := v]> t) ≡ₚ (if p v then v :: rows_where p t else rows_where p t).
Proof.
  intros Hk. unfold rows_where.
  etrans; [apply filter_Permutation, rows_insert_fresh, Hk|]. simpl. by destruct (p v).
Qed.

Lemma count_where_insert_fresh p (t : gmap K V) k v :
  t !! k = None ->
  count_where p (<[k := v]> t) = ((if p v then 1 else 0) + count_where p t)%nat.
Proof.
  intros Hk. unfold count_where. rewrite rows_where_insert_fresh by done.
  by destruct (p v).
Qed.

Lemma delete_where_insert q (t : gmap K V) k v :
  t !! k = None ->
  delete_where q (<[k := v]> t) =
  if q v then delete_where q t else <[k := v]> (delete_where q t).
Proof.
  intros Hk. apply map_eq. intros i. rewrite lookup_delete_where, lookup_insert.
  destruct (q v) eqn:Hq; rewrite ?lookup_insert, ?lookup_delete_where;
    case_decide; subst; by rewrite ?Hq, ?Hk.
Qed.

Lemma delete_where_empty q : delete_where q (∅ : gmap K V) = ∅.
Proof. unfold delete_where. apply map_filter_empty. Qed.

Lemma rows_where_delete_where_disjoint p q (t : gmap K V) :
  (forall v, v ∈ rows t -> p v = true -> q v = false) ->
  rows_where p (delete_where q t) ≡ₚ rows_where p t.
Proof.
  induction t as [|k v t Hk IH] using map_ind; intros Hdisj.
  { by rewrite delete_where_empty. }
  assert (Hin : forall u, u ∈ rows (<[k := v]> t) <-> u = v \/ u ∈ rows t).
  { intros u. by rewrite (rows_insert_fresh t k v Hk), elem_of_cons. }
  assert (IH' : rows_where p (delete_where q t) ≡ₚ rows_where p t)
    by (apply IH; intros u Hu; apply Hdisj, Hin; by right).
  rewrite delete_where_insert, (rows_where_insert_fresh p t k v Hk) by done.
  destruct (q v) eqn:Hq.
  - destruct (p v) eqn:Hp; [|done]. apply Hdisj in Hp; [congruence|]. apply Hin. by left.
  - rewrite (rows_where_insert_fresh p (delete_where q t) k v)
      by (by rewrite lookup_delete_where, Hk). by destruct (p v); rewrite IH'.
Qed.

Lemma count_where_delete_where p q (t : gmap K V) :
  (count_where p (delete_where q t) <= count_where p t)%nat.
Proof.
  induction t as [|k v t Hk IH] using map_ind; [by rewrite delete_where_empty|].
  rewrite delete_where_insert, (count_where_insert_fresh p t k v Hk) by done.
  destruct (q v) eqn:Hq; [lia|].
  rewrite (count_where_insert_fresh p (delete_where q t) k v)
    by (by rewrite lookup_delete_where, Hk). lia.
Qed.

Lemma count_where_delete_where_disjoint p q (t : gmap K V) :
  (forall v, v ∈ rows t -> p v = true -> q v = false) ->
  count_where p (delete_where q t) = count_where p t.
Proof. intros Hdisj. unfold count_where. by rewrite rows_where_delete_where_disjoint. Qed.

Lemma rows_where_delete_where_covered p q (t : gmap K V) :
  (forall v, p v = true -> q v = true) -> rows_where p (delete_where q t) = [].
Proof.
  intros Hcov. apply rows_where_nil. intros k v. rewrite lookup_delete_where.
  destruct (t !! k) as [v'|]; [|done]. destruct (q v') eqn:Hq; [done|].
  intros [= ->]. destruct (p v) eqn:Hp; [|done]. apply Hcov in Hp. congruence.
Qed.

Lemma count_where_nil p (t : gmap K V) : rows_where p t = [] -> count_where p t = 0%nat.
Proof. unfold count_where. by intros ->. Qed.

Lemma count_where_ext (p q : V -> bool) (t : gmap K V) :
  (forall k v, t !! k = Some v -> p v = q v) -> count_where p t = count_where q t.
Proof.
  intros Hpq. unfold count_where, rows_where. f_equal. apply List.filter_ext_in. intros v Hv.
  apply list_elem_of_In, elem_of_rows in Hv as [k Hk]. by eapply Hpq.
Qed.

Lemma count_where_insert (p : V -> bool) (t : gmap K V) k v :
  count_where p (<[k := v]> t) = ((if p v then 1 else 0) + count_where p (delete k t))%nat.
Proof. rewrite <- insert_delete_eq. by rewrite count_where_insert_fresh by apply lookup_delete_eq. Qed.

Lemma count_where_lookup (p : V -> bool) (t : gmap K V) k v :
  t !! k = Some v -> count_where p t = ((if p v then 1 else 0) + count_where p (delete k t))%nat.
Proof. intros Hk. rewrite <- count_where_insert. by rewrite insert_id. Qed.

Lemma count_where_delete (p : V -> bool) (t : gmap K V) k :
  (count_where p (delete k t) <= count_where p t)%nat.
Proof.
  destruct (t !! k) as [v|] eqn:Hk; [rewrite (count_where_lookup p t k v Hk); lia|].
  by rewrite delete_id.
Qed.
End Tables.

(** Filters of lists. *)
Lemma filter_filter {X} (p q : X -> bool) l : List.filter p (List.filter q l) = List.filter (fun x => q x && p x) l.
Proof. induction l as [|x l IH]; cbn; [done|]. destruct (q x) eqn:E; cbn; by rewrite IH. Qed.

Lemma filter_fmap {X Y} (p : Y -> bool) (f : X -> Y) l : List.filter p (f <$> l) = f <$> List.filter (fun x => p (f x)) l.
Proof. induction l as [|x l IH]; cbn; [done|]. destruct (p (f x)); cbn; by rewrite <- IH. Qed.

Lemma filter_false {X} (p : X -> bool) l : (forall x, p x = false) -> List.filter p l = [].
Proof. intros Hp. induction l as [|x l IH]; cbn; [done|]. by rewrite Hp. Qed.

Lemma omap_all {X Y} (f : X -> option Y) (g : X -> Y) (l : list X) :
  (forall x, x ∈ l -> f x = Some (g x)) -> omap f l = g <$> l.
Proof.
  induction l as [|x l IH]; intros Hf; [done|]. csimpl. rewrite (Hf x) by set_solver. rewrite IH; [done|set_solver].
Qed.

Lemma count_where_none {K V} `{Countable K} (p : V -> bool) (t : gmap K V) :
  (forall k v, t !! k = Some v -> p v = false) -> count_where p t = 0%nat.
Proof. intros Hp. apply count_where_nil, rows_where_nil. exact Hp. Qed.

(** A row found by a query, under its key. *)
Lemma head_row_keyed {V} (p : V -> bool) (t : gmap uuid V) (rid : V -> uuid) v :
  (forall k u, t !! k = Some u -> rid u = k) ->
  head (rows_where p t) = Some v -> t !! rid v = Some v /\ p v = true.
Proof.
  intros Hkeys Hh. assert (v ∈ rows_where p t) as Hin.
  { destruct (rows_where p t); [done|]. injection Hh as ->. left. }
  apply elem_of_rows_where in Hin as [[k Hk] Hp]. by rewrite (Hkeys k v Hk).
Qed.

Lemma rows_where_fresh_insert {V} (p : V -> bool) (t : gmap uuid V) k v :
  t !! k = None -> p v = true -> rows_where p t = [] -> rows_where p (<[k := v]> t) = [v].
Proof.
  intros Hk Hp Hnil. apply Permutation_singleton_r. rewrite rows_where_insert_fresh by done.
  by rewrite Hp, Hnil.
Qed.

(** [ORDER BY key LIMIT 1] with a comparison on rows: a least row. *)
Section Least.
Context {V : Type} (le : V -> V -> bool).

Fixpoint least (l : list V) : option V :=
  match l with
  | [] => None
  | x :: l =>
      match least l with
      | None => Some x
      | Some y => if le x y then Some x else Some y
      end
  end.

Lemma least_None l : least l = None <-> l = [].
Proof.
  destruct l as [|x l]; simpl; [done|].
  destruct (least l) as [y|]; [destruct (le x y)|]; naive_solver.
Qed.

Lemma least_elem_of l x : least l = Some x -> x ∈ l.
Proof.
  revert x; induction l as [|y l IH]; simpl; [done|]. intros x.
  destruct (least l) as [z|].
  - destruct (le y z); intros [= <-]; [left|right; by apply IH].
  - intros [= <-]. left.
Qed.

Context (le_total : forall x y, le x y = true \/ le y x = true)
        (le_trans : forall x y z, le x y = true -> le y z = true -> le x z = true).

Lemma least_minimal l x y : least l = Some x -> y ∈ l -> le x y = true.
Proof using le_total le_trans.
  revert x; induction l as [|z l IH]; simpl; intros x Hx Hy;
    [by apply not_elem_of_nil in Hy|].
  apply elem_of_cons in Hy.
  destruct (least l) as [u|] eqn:Hl.
  - destruct (le z u) eqn:Hzu; injection Hx as <-.
    + destruct Hy as [->|Hy]; [by destruct (le_total z z)|eauto].
    + destruct Hy as [->|Hy]; [by destruct (le_total u z); congruence|eauto].
  - injection Hx as <-. apply least_None in Hl as ->.
    destruct Hy as [->|Hy]; [by destruct (le_total z z)|by apply not_elem_of_nil in Hy].
Qed.
End Least.

(** [ORDER BY key LIMIT n] over a list of selected rows. *)
Section OrderBy.
Context {V : Type} (le : V -> V -> bool).

Fixpoint insert_ordered (x : V) (l : list V) : list V :=
  match l with
  | [] => [x]
  | y :: l' => if le x y then x :: l else y :: insert_ordered x l'
  end.

Fixpoint order_by (l : list V) : list V :=
  match l with
  | [] => []
  | x :: l => insert_ordered x (order_by l)
  end.

Lemma insert_ordered_Permutation x l : insert_ordered x l ≡ₚ x :: l.
Proof.
  induction l as [|y l IH]; simpl; [done|].
  destruct (le x y); [done|]. rewrite IH. apply Permutation_swap.
Qed.

Lemma order_by_Permutation l : order_by l ≡ₚ l.
Proof.
  induction l as [|x l IH]; simpl; [done|].
  by rewrite insert_ordered_Permutation, IH.
Qed.

Context (le_total : forall x y, le x y = true \/ le y x = true)
        (le_trans : forall x y z, le x y = true -> le y z = true -> le x z = true).

Lemma insert_ordered_sorted x l :
  StronglySorted (fun a b => le a b = true) l ->
  StronglySorted (fun a b => le a b = true) (insert_ordered x l).
Proof using le_total le_trans.
  induction 1 as [|y l Hs IH Hall]; simpl; [by repeat constructor|].
  destruct (le x y) eqn:Hxy.
  - constructor; [by constructor|]. constructor; [done|].
    eapply Forall_impl; [exact Hall|]. intros z Hyz. by eapply le_trans.
  - constructor; [done|]. rewrite insert_ordered_Permutation.
    constructor; [by destruct (le_total x y); congruence|done].
Qed.

Lemma order_by_sorted l :
  StronglySorted (fun a b => le a b = true) (order_by l).
Proof using le_total le_trans.
  induction l; simpl; [constructor|by apply insert_ordered_sorted].
Qed.
End OrderBy.

(** [Vec::dedup]: drop elements equal to their predecessor. *)
Section Dedup.
Context {V : Type} `{EqDecision V}.

Fixpoint dedup (l : list V) : list V :=
  match l with
  | [] => []
  | x :: l' =>
      match l' with
      | y :: _ => if decide (x = y) then dedup l' else x :: dedup l'
      | [] => [x]
      end
  end.

Lemma elem_of_dedup x l : x ∈ dedup l <-> x ∈ l.
Proof.
  induction l as [|y [|z l] IH]; [done|done|].
  change (dedup (y :: z :: l)) with
    (if decide (y = z) then dedup (z :: l) else y :: dedup (z :: l)).
  case_decide; subst; rewrite ?elem_of_cons in *; rewrite IH; tauto.
Qed.

Lemma dedup_length l : (length (dedup l) <= length l)%nat.
Proof.
  induction l as [|y [|z l] IH]; simpl in *; [lia|lia|]. case_decide; simpl in *; lia.
Qed.

Context (le : V -> V -> bool).
Context (le_total : forall x y, le x y = true \/ le y x = true)
        (le_trans : forall x y z, le x y = true -> le y z = true -> le x z = true)
        (le_antisym : forall x y, le x y = true -> le y x = true -> x = y).

Lemma dedup_NoDup l :
  StronglySorted (fun a b => le a b = true) l -> NoDup (dedup l).
Proof using le_antisym.
  induction 1 as [|x l Hs IH Hall]; [constructor|].
  destruct l as [|y l]; [apply NoDup_singleton|].
  change (dedup (x :: y :: l)) with
    (if decide (x = y) then dedup (y :: l) else x :: dedup (y :: l)).
  case_decide as Hne; [done|]. constructor; [|done].
  rewrite elem_of_dedup. intros Hin. apply Hne.
  inversion Hs as [|? ? _ Hy]; subst. inversion Hall as [|? ? Hxy _]; subst.
  apply elem_of_cons in Hin as [->|Hin]; [done|].
  apply le_antisym; [done|]. rewrite Forall_forall in Hy. by apply Hy.
Qed.

Lemma sorted_dedup_NoDup l : NoDup (dedup (order_by le l)).
Proof using le_antisym le_total le_trans. apply dedup_NoDup, order_by_sorted; done. Qed.

Lemma elem_of_sorted_dedup x l : x ∈ dedup (order_by le l) <-> x ∈ l.
Proof using Type. by rewrite elem_of_dedup, order_by_Permutation. Qed.

Lemma dedup_id l : NoDup l -> dedup l = l.
Proof using Type.
  induction l as [|x [|y l] IH]; [done|done|]. intros Hnd.
  change (dedup (x :: y :: l)) with
    (if decide (x = y) then dedup (y :: l) else x :: dedup (y :: l)).
  inversion Hnd as [|? ? Hx Hnd']; subst. rewrite decide_False.
  - by rewrite (IH Hnd').
  - intros ->. apply Hx. left.
Qed.

(** Sorting and dropping neighbours shortens a list exactly when it repeats. *)
Lemma sorted_dedup_length l :
  length (dedup (order_by le l)) = length l <-> NoDup l.
Proof using le_antisym le_total le_trans.
  split.
  - intros Hlen.
    assert (length l = length (order_by le l)) as Hl by (by rewrite order_by_Permutation).
    rewrite Hl in Hlen. rewrite <- (order_by_Permutation le l).
    assert (Heq : forall l', length (dedup l') = length l' -> dedup l' = l').
    { induction l' as [|y [|z l'] IH]; [done|done|].
      change (dedup (y :: z :: l')) with
        (if decide (y = z) then dedup (z :: l') else y :: dedup (z :: l')).
      pose proof (dedup_length (z :: l')) as Hle.
      case_decide; simpl in *; intros Hl'; [lia|]. rewrite IH; [done|lia]. }
    rewrite <- (Heq _ Hlen). apply sorted_dedup_NoDup.
  - intros Hnd. rewrite dedup_id; [by rewrite order_by_Permutation|].
    by rewrite order_by_Permutation.
Qed.
End Dedup.

(** * Tactics *)

(** Expose the run of a monadic operation. *)
Ltac run_unfold :=
  unfold value_of, world_of, store_of in *;
  repeat (progress cbv beta iota delta
    [mbind M_bind mret M_ret throw gets modify now_utc uuid_now_v7 next_token
     lift_option lift_result when map_err transaction fst snd] in *).

(** Split on the first match or conditional that blocks a run. *)
Ltac run_case :=
  match goal with
  | |- context [match ?x with _ => _ end] =>
      lazymatch x with
      | context [match _ with _ => _ end] => fail
      | _ => destruct x eqn:?
      end
  | H : context [match ?x with _ => _ end] |- _ =>
      lazymatch x with
      | context [match _ with _ => _ end] => fail
      | _ => destruct x eqn:?
      end
  end.

Ltac boolp :=
  repeat match goal with
  | H : (_ && _)%bool = true |- _ => apply andb_true_iff in H as [? ?]
  | H : (_ || _)%bool = false |- _ => apply orb_false_iff in H as [? ?]
  | H : negb _ = true |- _ => apply negb_true_iff in H
  | H : negb _ = false |- _ => apply negb_false_iff in H
  | H : (_ <=? _) = true |- _ => apply Z.leb_le in H
  | H : (_ <=? _) = false |- _ => apply Z.leb_gt in H
  | H : (_ <? _) = true |- _ => apply Z.ltb_lt in H
  | H : (_ <? _) = false |- _ => apply Z.ltb_ge in H
  | H : (_ =? _) = true |- _ => apply Z.eqb_eq in H
  | H : (_ =? _) = false |- _ => apply Z.eqb_neq in H
  | H : bool_decide _ = true |- _ => apply bool_decide_eq_true in H
  | H : bool_decide _ = false |- _ => apply bool_decide_eq_false in H
  end.

Create HintDb roosty discriminated.
