(* ===== verification/Core.v ===== *)
(** The shared error and identifier types of [crates/core/src/lib.rs], with the
    database failures the store operations can observe. *)
From S2P Require Import Prelude.

(** Failures a statement reports: a violated key, foreign-key or check
    constraint of the schema, a result that is missing or has the wrong type,
    an update of a row that is not there, an integer column overflow. *)
Inductive DbErr : Type :=
| UniqueViolation (index : string)
| ForeignKeyViolation (constraint : string)
| CheckViolation (constraint : string)
| RecordNotFound (what : string)
| RecordNotUpdated
| TypeError (what : string)
| IntegerOutOfRange.

#[export] Instance DbErr_eq_dec : EqDecision DbErr.
Proof. solve_decision. Defined.

Inductive FederationDiscoveryError : Type :=
| PolicyRejected (domain : string).

Inductive AccountRelationshipError : Type :=
| SelfFollow
| FollowTargetNotFound
| FollowBlocked
| SelfModeration
| ModerationTargetNotFound.

Inductive RoostyError : Type :=
| Configuration (message : string)
| Database (error : DbErr)
| FederationDiscovery (error : FederationDiscoveryError)
| AccountRelationship (error : AccountRelationshipError)
| InvalidInput (message : string)
| StatusVisibilityError (message : string)
| Io (message : string)
| Serialization (message : string)
| NotImplemented (what : string).

#[export] Instance FederationDiscoveryError_eq_dec : EqDecision FederationDiscoveryError.
Proof. solve_decision. Defined.
#[export] Instance AccountRelationshipError_eq_dec : EqDecision AccountRelationshipError.
Proof. solve_decision. Defined.
#[export] Instance RoostyError_eq_dec : EqDecision RoostyError.
Proof. solve_decision. Defined.

(** Newtypes over [Uuid]; a record per identifier keeps them apart. *)
Record AccountId := mkAccountId { account_uuid : uuid }.
Record StatusId := mkStatusId { status_uuid : uuid }.
Record JobId := mkJobId { job_uuid : uuid }.
Record JobClaimId := mkJobClaimId { claim_uuid : uuid }.

#[export] Instance AccountId_eq_dec : EqDecision AccountId.
Proof. solve_decision. Defined.
#[export] Instance StatusId_eq_dec : EqDecision StatusId.
Proof. solve_decision. Defined.
#[export] Instance JobId_eq_dec : EqDecision JobId.
Proof. solve_decision. Defined.
#[export] Instance JobClaimId_eq_dec : EqDecision JobClaimId.
Proof. solve_decision. Defined.

(** JSON values built with [serde_json::json!] and kept as documents. *)
Inductive JsonValue : Type :=
| JNull
| JBool (b : bool)
| JNumber (n : Z)
| JUuid (u : uuid)
| JString (s : string)
| JArray (items : list JsonValue)
| JObject (members : list (string * JsonValue)).

(** The error-returning operations of a store. *)
Abbreviation Op S := (M S RoostyError).
