(* ===== verification/Text.v ===== *)
(** Text.  A Rust [str] is a list of Unicode scalar values; this file holds the
    standard-library string functions the components use. *)
From S2P Require Import Prelude.
From Stdlib Require Import Ascii String.

Abbreviation text := (list Z).

(** The text of an ASCII literal. *)
Fixpoint lit (s : string) : text :=
  match s with
  | EmptyString => []
  | String c s => Z.of_N (N_of_ascii c) :: lit s
  end.

(** [char::is_whitespace]: the Unicode White_Space property. *)
Definition is_whitespace (c : Z) : bool :=
  (9 <=? c) && (c <=? 13) || (c =? 32) || (c =? 133) || (c =? 160) || (c =? 5760)
  || (8192 <=? c) && (c <=? 8202) || (c =? 8232) || (c =? 8233) || (c =? 8239)
  || (c =? 8287) || (c =? 12288).

Definition is_ascii_digit (c : Z) : bool := (48 <=? c) && (c <=? 57).
Definition is_ascii_lowercase (c : Z) : bool := (97 <=? c) && (c <=? 122).
Definition is_ascii_uppercase (c : Z) : bool := (65 <=? c) && (c <=? 90).
Definition is_ascii_alphanumeric (c : Z) : bool :=
  is_ascii_digit c || is_ascii_lowercase c || is_ascii_uppercase c.
Definition to_ascii_lowercase_char (c : Z) : Z :=
  if is_ascii_uppercase c then c + 32 else c.
Definition to_ascii_lowercase (s : text) : text := to_ascii_lowercase_char <$> s.

(** [trim_start_matches], [trim_end_matches], [trim]. *)
Fixpoint trim_start_matches (p : Z -> bool) (s : text) : text :=
  match s with
  | [] => []
  | c :: s' => if p c then trim_start_matches p s' else s
  end.

Definition trim_end_matches (p : Z -> bool) (s : text) : text :=
  reverse (trim_start_matches p (reverse s)).

Definition trim (s : text) : text :=
  trim_end_matches is_whitespace (trim_start_matches is_whitespace s).

(** [str::starts_with], [str::strip_prefix]. *)
Fixpoint strip_prefix (p s : text) : option text :=
  match p, s with
  | [], _ => Some s
  | x :: p, y :: s => if x =? y then strip_prefix p s else None
  | _ :: _, [] => None
  end.

Lemma strip_prefix_Some p s r : strip_prefix p s = Some r <-> s = p ++ r.
Proof.
  revert s; induction p as [|x p IH]; intros s; simpl; [naive_solver|].
  destruct s as [|y s]; [done|]. destruct (Z.eqb_spec x y) as [->|Hne]; [|naive_solver].
  rewrite IH. naive_solver.
Qed.

Lemma strip_prefix_app p r : strip_prefix p (p ++ r) = Some r.
Proof. by apply strip_prefix_Some. Qed.

Definition starts_with (p s : text) : bool :=
  match strip_prefix p s with Some _ => true | None => false end.

Definition ends_with (p s : text) : bool := starts_with (reverse p) (reverse s).

(** [str::contains] for one character and for a pattern. *)
Definition contains_char (c : Z) (s : text) : bool := existsb (Z.eqb c) s.

(** [str::find] of a pattern: the prefix before its first occurrence. *)
Fixpoint find (p s : text) : option text :=
  if starts_with p s then Some []
  else match s with
       | [] => None
       | c :: s => (fun before => c :: before) <$> find p s
       end.

Definition contains (p s : text) : bool :=
  match find p s with Some _ => true | None => false end.

(** [str::split(c)]: the pieces between separators, never empty. *)
Fixpoint split_on (c : Z) (s : text) : list text :=
  match s with
  | [] => [[]]
  | x :: s =>
      if x =? c then [] :: split_on c s
      else match split_on c s with
           | piece :: rest => (x :: piece) :: rest
           | [] => [[x]]
           end
  end.

(** The non-empty pieces between separators. *)
Definition split_where (p : Z -> bool) (s : text) : list text :=
  List.filter (fun piece => negb (bool_decide (piece = [])))
    (foldr (fun c acc =>
       if p c then [] :: acc
       else match acc with piece :: rest => (c :: piece) :: rest | [] => [[c]] end) [[]] s).

(** [char::is_ascii_whitespace]: no vertical tab. *)
Definition is_ascii_whitespace (c : Z) : bool :=
  (c =? 9) || (c =? 10) || (c =? 12) || (c =? 13) || (c =? 32).

(** [str::split_whitespace], [str::split_ascii_whitespace]. *)
Definition split_whitespace : text -> list text := split_where is_whitespace.
Definition split_ascii_whitespace : text -> list text := split_where is_ascii_whitespace.

(** [str::split_once(c)]. *)
Fixpoint split_once (c : Z) (s : text) : option (text * text) :=
  match s with
  | [] => None
  | x :: s =>
      if x =? c then Some ([], s)
      else (fun ab => (x :: fst ab, snd ab)) <$> split_once c s
  end.

(** [str::lines]: a terminated line loses its carriage return, and a text that
    ends with a newline has no further line. *)
Definition strip_carriage_return (line : text) : text :=
  match reverse line with
  | c :: rest => if c =? 13 then reverse rest else line
  | [] => line
  end.

Fixpoint lines_of (pieces : list text) : list text :=
  match pieces with
  | [] => []
  | [last] => if bool_decide (last = []) then [] else [last]
  | piece :: rest => strip_carriage_return piece :: lines_of rest
  end.

Definition lines (s : text) : list text := lines_of (split_on 10 s).

(** [slice::join]. *)
Fixpoint join (sep : text) (pieces : list text) : text :=
  match pieces with
  | [] => []
  | [piece] => piece
  | piece :: rest => piece ++ sep ++ join sep rest
  end.

(** [str] ordering: UTF-8 bytes order as the scalar values do. *)
Fixpoint text_le (a b : text) : bool :=
  match a, b with
  | [], _ => true
  | _ :: _, [] => false
  | x :: a, y :: b => (x <? y) || (x =? y) && text_le a b
  end.

(** UTF-8 length of a scalar value and of a text ([str::len]). *)
Definition char_len (c : Z) : Z :=
  if c <=? 127 then 1 else if c <=? 2047 then 2 else if c <=? 65535 then 3 else 4.
Definition byte_len (s : text) : Z := foldr (fun c n => char_len c + n) 0 s.

(** [i64] in decimal: [Display] and [str::parse]. *)
Fixpoint digits (fuel : nat) (n : Z) (acc : text) : text :=
  match fuel with
  | O => acc
  | S fuel => if n <? 10 then (48 + n) :: acc else digits fuel (n / 10) (48 + n mod 10 :: acc)
  end.

(** Twenty digits hold every 64-bit magnitude. *)
Definition show_int (n : Z) : text :=
  if n <? 0 then 45 :: digits 20 (- n) [] else digits 20 n [].

Fixpoint parse_digits (s : text) (acc : Z) : option Z :=
  match s with
  | [] => Some acc
  | c :: s => if is_ascii_digit c then parse_digits s (10 * acc + (c - 48)) else None
  end.

Definition parse_i64 (s : text) : option Z :=
  let '(negative, magnitude) :=
    match s with
    | [] => (false, [])
    | c :: rest => if c =? 45 then (true, rest) else (false, if c =? 43 then rest else s)
    end in
  match magnitude with
  | [] => None
  | _ =>
      match parse_digits magnitude 0 with
      | Some n =>
          let n := if negative then - n else n in
          if (- i64_max - 1 <=? n) && (n <=? i64_max) then Some n else None
      | None => None
      end
  end.

(** * Lemmas *)

Lemma text_le_total a b : text_le a b = true \/ text_le b a = true.
Proof.
  revert b; induction a as [|x a IH]; intros [|y b]; simpl; auto.
  destruct (Z.lt_trichotomy x y) as [H|[H|H]].
  - left. by apply Z.ltb_lt in H as ->.
  - subst. rewrite Z.eqb_refl, Z.ltb_irrefl. simpl. apply IH.
  - right. by apply Z.ltb_lt in H as ->.
Qed.

Lemma text_le_trans a b c :
  text_le a b = true -> text_le b c = true -> text_le a c = true.
Proof.
  revert b c; induction a as [|x a IH]; intros [|y b] [|z c]; simpl; try done.
  rewrite !orb_true_iff, !andb_true_iff, !Z.ltb_lt, !Z.eqb_eq.
  intros [?|[? ?]] [?|[? ?]]; [left; lia..|]. right. split; [lia|eauto].
Qed.

Lemma text_le_antisym a b : text_le a b = true -> text_le b a = true -> a = b.
Proof.
  revert b; induction a as [|x a IH]; intros [|y b]; simpl; try done.
  rewrite !orb_true_iff, !andb_true_iff, !Z.ltb_lt, !Z.eqb_eq.
  intros [?|[? ?]] [?|[? ?]]; try lia. f_equal; eauto.
Qed.

#[export] Hint Resolve text_le_total text_le_trans text_le_antisym : roosty.

Lemma trim_start_matches_head p s c s' :
  trim_start_matches p s = c :: s' -> p c = false.
Proof. induction s as [|x s IH]; simpl; [done|]. destruct (p x) eqn:E; naive_solver. Qed.

Lemma trim_start_matches_id p s :
  (forall c s', s = c :: s' -> p c = false) -> trim_start_matches p s = s.
Proof. destruct s as [|c s]; [done|]. intros H. simpl. by rewrite (H c s). Qed.

Lemma trim_start_matches_idemp p s :
  trim_start_matches p (trim_start_matches p s) = trim_start_matches p s.
Proof. apply trim_start_matches_id. intros c s'. apply trim_start_matches_head. Qed.

Lemma trim_start_matches_suffix p s :
  exists pre, s = pre ++ trim_start_matches p s /\ Forall (fun c => p c = true) pre.
Proof.
  induction s as [|c s (pre & Heq & Hall)]; simpl; [by exists []|].
  destruct (p c) eqn:E.
  - exists (c :: pre). simpl. split; [by f_equal|by constructor].
  - by exists [].
Qed.

Lemma trim_end_matches_head p s c s' :
  trim_end_matches p s = c :: s' -> exists s'', s = c :: s''.
Proof.
  unfold trim_end_matches. intros H.
  destruct (trim_start_matches_suffix p (reverse s)) as (pre & Heq & _).
  apply (f_equal reverse) in Heq. rewrite reverse_involutive, reverse_app, H in Heq.
  simpl in Heq. eauto.
Qed.

(** [trim] is idempotent. *)
Lemma trim_idemp s : trim (trim s) = trim s.
Proof.
  unfold trim.
  rewrite (trim_start_matches_id _ (trim_end_matches _ _)).
  - unfold trim_end_matches. by rewrite reverse_involutive, trim_start_matches_idemp.
  - intros c s' H. apply trim_end_matches_head in H as [s'' H].
    by eapply trim_start_matches_head.
Qed.

#[export] Hint Rewrite trim_idemp : roosty.

(** ** Pieces *)

Section Pieces.
Context (p : Z -> bool).

Definition raw_pieces (s : text) : list text :=
  foldr (fun c acc =>
    if p c then [] :: acc
    else match acc with piece :: rest => (c :: piece) :: rest | [] => [[c]] end) [[]] s.

Lemma raw_pieces_app piece s x rest :
  Forall (fun c => p c = false) piece -> raw_pieces s = x :: rest ->
  raw_pieces (piece ++ s) = (piece ++ x) :: rest.
Proof using Type.
  intros Hp Hs. induction Hp as [|c piece Hc _ IH]; simpl; [done|]. by rewrite Hc, IH.
Qed.

Lemma raw_pieces_cons s : exists x rest, raw_pieces s = x :: rest.
Proof using Type.
  induction s as [|c s (x & rest & IH)]; simpl; [by eexists _, _|].
  rewrite IH. destruct (p c); by eexists _, _.
Qed.

Lemma raw_pieces_free s : Forall (Forall (fun c => p c = false)) (raw_pieces s).
Proof using Type.
  induction s as [|c s IH]; simpl; [by repeat constructor|].
  destruct (p c) eqn:Hc; [by constructor|].
  destruct (raw_pieces s) as [|piece rest]; [by repeat constructor|].
  inversion IH; subst. constructor; [by constructor|done].
Qed.

(** Pieces joined by a separator come apart again. *)
Lemma split_where_join (sep : Z) pieces :
  p sep = true ->
  Forall (fun piece => piece <> [] /\ Forall (fun c => p c = false) piece) pieces ->
  split_where p (join [sep] pieces) = pieces.
Proof using Type.
  intros Hsep Hall.
  change (split_where p ?s) with
    (List.filter (fun piece : text => negb (bool_decide (piece = []))) (raw_pieces s)).
  induction Hall as [|piece [|next rest] [Hne Hfree] Hall IH]; [done| |].
  - change (join [sep] [piece]) with piece. rewrite <- (app_nil_r piece), (raw_pieces_app piece [] [] []) by done. simpl.
    rewrite app_nil_r. by rewrite bool_decide_false.
  - change (join [sep] (piece :: next :: rest)) with (piece ++ [sep] ++ join [sep] (next :: rest)).
    rewrite (raw_pieces_app piece ([sep] ++ join [sep] (next :: rest)) []
      (raw_pieces (join [sep] (next :: rest)))) by (done || (simpl; by rewrite Hsep)).
    simpl List.filter. rewrite app_nil_r, bool_decide_false by done. simpl negb. cbv iota.
    f_equal. exact IH.
Qed.

Lemma split_where_pieces s :
  Forall (fun piece => piece <> [] /\ Forall (fun c => p c = false) piece) (split_where p s).
Proof using Type.
  apply List.Forall_forall. intros piece Hin. apply filter_In in Hin as [Hin Hne].
  split; [by apply negb_true_iff, bool_decide_eq_false in Hne|].
  pose proof (raw_pieces_free s) as Hfree. rewrite List.Forall_forall in Hfree. by apply Hfree.
Qed.
End Pieces.

(** Normalising the separators keeps the pieces. *)
Lemma split_whitespace_join s :
  split_whitespace (join (lit " ") (split_whitespace s)) = split_whitespace s.
Proof. apply split_where_join; [done|apply split_where_pieces]. Qed.

(** ** Splitting at one character *)

Definition free (c : Z) (s : text) : Prop := Forall (fun x => x <> c) s.

Lemma split_on_cons c s : exists piece rest, split_on c s = piece :: rest.
Proof.
  induction s as [|x s (piece & rest & IH)]; simpl; [by eexists _, _|].
  destruct (x =? c); [by eexists _, _|]. rewrite IH. by eexists _, _.
Qed.

Lemma split_on_free c s : free c s -> split_on c s = [s].
Proof.
  induction 1 as [|x s Hx _ IH]; simpl; [done|]. apply Z.eqb_neq in Hx. by rewrite Hx, IH.
Qed.

Lemma split_on_app c a b : split_on c (a ++ c :: b) = split_on c a ++ split_on c b.
Proof.
  induction a as [|x a IH]; simpl; [by rewrite Z.eqb_refl|].
  destruct (x =? c); [by rewrite IH|]. rewrite IH.
  by destruct (split_on_cons c a) as (piece & rest & ->).
Qed.

Lemma split_on_join c s : join [c] (split_on c s) = s.
Proof.
  induction s as [|x s IH]; simpl; [done|]. destruct (Z.eqb_spec x c) as [->|Hne].
  - destruct (split_on_cons c s) as (piece & rest & Heq). rewrite Heq in *. simpl in *. by f_equal.
  - destruct (split_on_cons c s) as (piece & rest & Heq). rewrite Heq in *.
    destruct rest; simpl in *; by f_equal.
Qed.

Lemma split_once_free c a b : free c a -> split_once c (a ++ c :: b) = Some (a, b).
Proof.
  induction 1 as [|x a Hx _ IH]; simpl; [by rewrite Z.eqb_refl|].
  apply Z.eqb_neq in Hx. by rewrite Hx, IH.
Qed.

(** Text without whitespace is not trimmed. *)
Lemma trim_free s : Forall (fun c => is_whitespace c = false) s -> trim s = s.
Proof.
  intros Hs. unfold trim, trim_end_matches.
  rewrite !trim_start_matches_id; [by rewrite reverse_involutive| |].
  - intros c s' ->. by inversion Hs.
  - intros c s' Heq. rewrite (trim_start_matches_id _ s) in Heq.
    + apply Forall_reverse in Hs. rewrite Heq in Hs. by inversion Hs.
    + intros x s'' ->. by inversion Hs.
Qed.

Lemma trim_space s : trim (32 :: s) = trim s.
Proof. done. Qed.

(** ** Decimal numbers *)

Lemma digits_acc fuel n acc : digits fuel n acc = digits fuel n [] ++ acc.
Proof.
  revert n acc; induction fuel as [|fuel IH]; intros n acc; simpl; [done|].
  destruct (n <? 10); [done|].
  rewrite (IH (n / 10) (_ :: acc)), (IH (n / 10) [_]), <- app_assoc. done.
Qed.

Lemma parse_digits_app a b acc :
  Forall (fun c => is_ascii_digit c = true) a ->
  parse_digits (a ++ b) acc = match parse_digits a acc with Some n => parse_digits b n | None => None end.
Proof.
  intros Ha. revert acc; induction Ha as [|c a Hc _ IH]; intros acc; simpl; [done|]. by rewrite Hc.
Qed.

Lemma digit_char n : 0 <= n < 10 -> is_ascii_digit (48 + n) = true.
Proof. intros Hn. unfold is_ascii_digit. lia. Qed.

Lemma digits_ok fuel n :
  0 <= n < 10 ^ Z.of_nat fuel -> (0 < fuel)%nat ->
  Forall (fun c => is_ascii_digit c = true) (digits fuel n []) /\ digits fuel n [] <> [] /\
  parse_digits (digits fuel n []) 0 = Some n.
Proof.
  revert n; induction fuel as [|fuel IH]; intros n Hn Hf; [lia|]. simpl.
  destruct (Z.ltb_spec n 10) as [Hlt|Hge].
  - split; [constructor; [apply digit_char; lia|constructor]|]. split; [done|].
    simpl. rewrite digit_char by lia. f_equal. lia.
  - rewrite Nat2Z.inj_succ, Z.pow_succ_r in Hn by lia.
    assert (Hd : 0 <= n / 10 < 10 ^ Z.of_nat fuel).
    { split; [apply Z.div_pos; lia|]. apply Z.div_lt_upper_bound; lia. }
    destruct fuel as [|fuel]; [simpl in Hn; lia|].
    destruct (IH (n / 10) Hd ltac:(lia)) as (H1 & H2 & H3).
    pose proof (Z.mod_pos_bound n 10 ltac:(lia)) as Hm.
    rewrite digits_acc. split; [apply Forall_app; split; [done|]; constructor; [apply digit_char; lia|constructor]|].
    split; [by destruct (digits (S fuel) (n / 10) [])|].
    rewrite parse_digits_app by done. rewrite H3. cbn [parse_digits].
    rewrite digit_char by done. f_equal. pose proof (Z.div_mod n 10 ltac:(lia)). lia.
Qed.

Lemma show_int_ok n :
  - i64_max - 1 <= n <= i64_max ->
  parse_i64 (show_int n) = Some n /\
  Forall (fun c => c = 45 \/ is_ascii_digit c = true) (show_int n).
Proof.
  unfold i64_max. intros Hn. unfold show_int. destruct (Z.ltb_spec n 0) as [Hneg|Hpos].
  - destruct (digits_ok 20 (- n)) as (H1 & H2 & H3); [simpl; lia|lia|]. split.
    + unfold parse_i64. rewrite Z.eqb_refl. destruct (digits 20 (- n) []) as [|c s]; [done|]. rewrite H3.
      rewrite Z.opp_involutive. unfold i64_max. destruct (_ && _) eqn:Hb; [done|lia].
    + constructor; [by left|]. eapply Forall_impl; [exact H1|]. by right.
  - destruct (digits_ok 20 n) as (H1 & H2 & H3); [simpl; lia|lia|]. split.
    + destruct (digits 20 n []) as [|c s]; [done|]. unfold parse_i64.
      assert (is_ascii_digit c = true) as Hc by (by inversion H1).
      rewrite (proj2 (Z.eqb_neq c 45)), (proj2 (Z.eqb_neq c 43))
        by (unfold is_ascii_digit in Hc; lia).
      rewrite H3. unfold i64_max. destruct (_ && _) eqn:Hb; [done|lia].
    + eapply Forall_impl; [exact H1|]. by right.
Qed.
