(* ===== verification/Jobs.v ===== *)
(** The durable job queue of [crates/db/src/lib.rs] (enqueue, lease, outcome,
    retention cleanup, administrator summary) and the worker that drains it
    ([crates/server/src/main.rs]).

    The state is the [job] table.  Each operation is one SQL statement.  Rows
    that concurrent transactions hold locked are an explicit argument of the
    statements that use SKIP LOCKED. *)
From S2P Require Import Prelude Core.

Inductive JobKind : Type :=
| FederationFollowResponse
| FederationStatusDelivery
| FederationQuoteDelivery
| FederationFollowDelivery
| FederationFavouriteDelivery
| FederationReblogDelivery
| FederationActorUpdateDelivery
| FederationModerationDelivery
| FederationRemoteMediaFetch
| FederationFeaturedRefresh
| FederationFeaturedTagsRefresh
| FederationThreadResolve
| FederationRepliesFetch
| FederationReplyFetch
| WebPushDelivery
| NotificationRequestMerge
| NotificationRequestCleanup
| AccountPurge
| DomainModerationReconcile
| ScheduledStatusPublish
| PollExpiration
| PollUpdate
| FederationPollVoteDelivery
| TrendMaintenance
| AccountSuggestionMaintenance
| PreviewCardFetch
| PreviewCardBackfill
| ActorKeyMaintenance
| RemoteActorMigration.

#[export] Instance JobKind_eq_dec : EqDecision JobKind.
Proof. solve_decision. Defined.

(** [JobKind::as_str]: the snake-case name strum derives. *)
Definition as_str (kind : JobKind) : string :=
  match kind with
  | FederationFollowResponse => "federation_follow_response"
  | FederationStatusDelivery => "federation_status_delivery"
  | FederationQuoteDelivery => "federation_quote_delivery"
  | FederationFollowDelivery => "federation_follow_delivery"
  | FederationFavouriteDelivery => "federation_favourite_delivery"
  | FederationReblogDelivery => "federation_reblog_delivery"
  | FederationActorUpdateDelivery => "federation_actor_update_delivery"
  | FederationModerationDelivery => "federation_moderation_delivery"
  | FederationRemoteMediaFetch => "federation_remote_media_fetch"
  | FederationFeaturedRefresh => "federation_featured_refresh"
  | FederationFeaturedTagsRefresh => "federation_featured_tags_refresh"
  | FederationThreadResolve => "federation_thread_resolve"
  | FederationRepliesFetch => "federation_replies_fetch"
  | FederationReplyFetch => "federation_reply_fetch"
  | WebPushDelivery => "web_push_delivery"
  | NotificationRequestMerge => "notification_request_merge"
  | NotificationRequestCleanup => "notification_request_cleanup"
  | AccountPurge => "account_purge"
  | DomainModerationReconcile => "domain_moderation_reconcile"
  | ScheduledStatusPublish => "scheduled_status_publish"
  | PollExpiration => "poll_expiration"
  | PollUpdate => "poll_update"
  | FederationPollVoteDelivery => "federation_poll_vote_delivery"
  | TrendMaintenance => "trend_maintenance"
  | AccountSuggestionMaintenance => "account_suggestion_maintenance"
  | PreviewCardFetch => "preview_card_fetch"
  | PreviewCardBackfill => "preview_card_backfill"
  | ActorKeyMaintenance => "actor_key_maintenance"
  | RemoteActorMigration => "remote_actor_migration"
  end%string.

(** A row of the [job] table ([entity/job.rs]). *)
Record Job := mkJob {
  id : uuid;
  kind : JobKind;
  payload : JsonValue;
  deduplication_key : option string;
  run_after : time;
  attempts : Z;
  locked_at : option time;
  locked_by : option string;
  claim_id : option uuid;
  last_error : option string;
  created_at : time;
  completed_at : option time;
  permanently_failed_at : option time;
}.

Abbreviation table := (gmap uuid Job).

Record NewJob := mkNewJob {
  new_kind : JobKind;
  new_payload : JsonValue;
  new_deduplication_key : option string;
  new_run_after : time;
}.

Record ClaimedJob := mkClaimedJob {
  claimed_id : JobId;
  claimed_claim_id : JobClaimId;
  claimed_kind : JobKind;
  claimed_payload : JsonValue;
  claimed_attempts : Z;
  claimed_created_at : time;
}.

Record AdminJobSummary := mkAdminJobSummary {
  due : Z;
  in_progress : Z;
  scheduled_retries : Z;
  permanently_failed_jobs : Z;
  oldest_due_at : option time;
}.

Record JobCleanupOutcome := mkJobCleanupOutcome {
  successful : Z;
  permanently_failed : Z;
}.

(** [JobCleanupOutcome::total]. *)
Definition total (outcome : JobCleanupOutcome) : Z :=
  successful outcome + permanently_failed outcome.

(** * Enqueueing *)

(** Membership in the partial unique index [job_deduplication_key_idx]. *)
Definition active_duplicate (k : JobKind) (key : option string) (j : Job) : bool :=
  match key, deduplication_key j, completed_at j with
  | Some s, Some s', None => bool_decide (k = kind j) && bool_decide (s = s')
  | _, _, _ => false
  end.

Definition enqueue_job_on_connection (job : NewJob) : Op table JobId :=
  job_id ← uuid_now_v7;
  now ← now_utc;
  t ← gets (fun t => t);
  match rows_where (active_duplicate (new_kind job) (new_deduplication_key job)) t with
  | existing :: _ => mret (mkJobId (id existing))
  | [] =>
      match t !! job_id with
      | Some _ => throw (Database (UniqueViolation "job_pkey"))
      | None =>
          modify (<[job_id := mkJob job_id (new_kind job) (new_payload job)
                                (new_deduplication_key job) (new_run_after job)
                                0 None None None None now None None]>);;
          mret (mkJobId job_id)
      end
  end.

Definition enqueue_job_in_transaction (job : NewJob) : Op table JobId :=
  enqueue_job_on_connection job.

Definition enqueue_job (k : JobKind) (p : JsonValue) (key : option string)
    (after : time) : Op table JobId :=
  enqueue_job_on_connection (mkNewJob k p key after).

(** * Leases *)

Definition lease_free (expired_before : time) (j : Job) : bool :=
  match locked_at j with
  | None => true
  | Some at_ => at_ <? expired_before
  end.

Definition due_at (now expired_before : time) (locked : gset uuid) (j : Job) : bool :=
  bool_decide (completed_at j = None) && (run_after j <=? now)
  && lease_free expired_before j && bool_decide (id j ∉ locked).

(** ORDER BY run_after, created_at. *)
Definition job_order (a b : Job) : bool :=
  (run_after a <? run_after b)
  || (run_after a =? run_after b) && (created_at a <=? created_at b).

Definition lease (now : time) (worker_id : string) (claim : uuid) (j : Job) : Job :=
  mkJob (id j) (kind j) (payload j) (deduplication_key j) (run_after j) (attempts j)
        (Some now) (Some worker_id) (Some claim) (last_error j) (created_at j)
        (completed_at j) (permanently_failed_at j).

(** The RETURNING row decoded into a claim; a negative stored counter does not
    fit [u32]. *)
Definition claimed_of_row (j : Job) (claim : uuid) : result ClaimedJob RoostyError :=
  if 0 <=? attempts j then
    Ok (mkClaimedJob (mkJobId (id j)) (mkJobClaimId claim) (kind j) (payload j)
                     (attempts j) (created_at j))
  else Err (InvalidInput "stored job attempts must not be negative").

Definition claim_selected (worker_id : string) (claim : uuid) (now : time)
    (selected : option Job) : Op table (option ClaimedJob) :=
  match selected with
  | None => mret None
  | Some j =>
      modify (<[id j := lease now worker_id claim j]>);;
      row ← lift_result (claimed_of_row j claim);
      mret (Some row)
  end.

Definition claim_due_job (locked : gset uuid) (worker_id : string)
    (claim_ttl : duration) : Op table (option ClaimedJob) :=
  now_app ← now_utc;
  let expired_before := now_app - claim_ttl in
  claim ← uuid_now_v7;
  now ← now_utc;
  t ← gets (fun t => t);
  claim_selected worker_id claim now
    (least job_order (rows_where (due_at now expired_before locked) t)).

Definition keyed (k : JobKind) (key : string) (j : Job) : bool :=
  bool_decide (kind j = k) && bool_decide (deduplication_key j = Some key).

Definition claim_due_job_by_key (locked : gset uuid) (worker_id : string)
    (k : JobKind) (key : string) (claim_ttl : duration) : Op table (option ClaimedJob) :=
  now_app ← now_utc;
  let expired_before := now_app - claim_ttl in
  claim ← uuid_now_v7;
  now ← now_utc;
  t ← gets (fun t => t);
  claim_selected worker_id claim now
    (head (rows_where (fun j => due_at now expired_before locked j && keyed k key j) t)).

(** * Outcomes *)

Definition holds_claim (job : ClaimedJob) (j : Job) : bool :=
  bool_decide (id j = job_uuid (claimed_id job))
  && bool_decide (claim_id j = Some (claim_uuid (claimed_claim_id job))).

Definition completed (now : time) (j : Job) : Job :=
  mkJob (id j) (kind j) (payload j) (deduplication_key j) (run_after j) (attempts j)
        None None None (last_error j) (created_at j) (Some now) (permanently_failed_at j).

Definition retried (after : time) (error : string) (j : Job) : Job :=
  mkJob (id j) (kind j) (payload j) (deduplication_key j) after (attempts j + 1)
        None None None (Some error) (created_at j) (completed_at j)
        (permanently_failed_at j).

Definition failed_permanently (now : time) (error : string) (j : Job) : Job :=
  mkJob (id j) (kind j) (payload j) (deduplication_key j) (run_after j) (attempts j)
        None None None (Some error) (created_at j) (Some now) (Some now).

(** [UPDATE job SET .. WHERE id = $1 AND claim_id = $2]: whether one row changed. *)
Definition update_claimed (job : ClaimedJob) (f : Job -> Job) : Op table bool :=
  t ← gets (fun t => t);
  match t !! job_uuid (claimed_id job) with
  | Some j =>
      if holds_claim job j
      then modify (<[job_uuid (claimed_id job) := f j]>);; mret true
      else mret false
  | None => mret false
  end.

Definition mark_job_completed (job : ClaimedJob) : Op table bool :=
  now ← now_utc;
  update_claimed job (completed now).

Definition next_retry_at (attempts : Z) : Op table time :=
  let exponent := Z.min attempts 12 in
  let secs := Z.min (2 ^ exponent) 3600 in
  now ← now_utc;
  mret (now + seconds secs).

(** The new counter must fit PostgreSQL's [integer]. *)
Definition attempts_overflow (job : ClaimedJob) (t : table) : bool :=
  match t !! job_uuid (claimed_id job) with
  | Some j => holds_claim job j && (i32_max <=? attempts j)
  | None => false
  end.

Definition mark_job_failed (job : ClaimedJob) (error : string) :
    Op table (option time) :=
  after ← next_retry_at (claimed_attempts job);
  t ← gets (fun t => t);
  if attempts_overflow job t then throw (Database IntegerOutOfRange) else
  updated ← update_claimed job (retried after error);
  mret (if (updated : bool) then Some after else None).

Definition mark_job_permanently_failed (job : ClaimedJob) (error : string) :
    Op table bool :=
  now ← now_utc;
  update_claimed job (failed_permanently now error).

Definition job_has_exceeded_max_age (created : time) (max_age : duration) : Op table bool :=
  now ← now_utc;
  mret (max_age <=? now - created).

(** * Retention *)

(** The WHERE clause of the cleanup candidates. *)
Definition expired (successful_before permanently_failed_before : time) (j : Job) : bool :=
  (match permanently_failed_at j, completed_at j with
   | None, Some at_ => at_ <=? successful_before
   | _, _ => false
   end)
  || (match permanently_failed_at j with
      | Some at_ => at_ <=? permanently_failed_before
      | None => false
      end).

(** COALESCE(permanently_failed_at, completed_at); a null sorts last. *)
Definition finished_at (j : Job) : option time :=
  match permanently_failed_at j with Some at_ => Some at_ | None => completed_at j end.

Definition cleanup_order (a b : Job) : bool :=
  match finished_at a, finished_at b with
  | Some x, Some y => (x <? y) || (x =? y) && (id a <=? id b)%N
  | Some _, None => true
  | None, Some _ => false
  | None, None => (id a <=? id b)%N
  end.

Definition cleanup_candidates (successful_before permanently_failed_before : time)
    (locked : gset uuid) (batch_size : Z) (t : table) : list Job :=
  take (Z.to_nat batch_size)
    (order_by cleanup_order
       (rows_where (fun j => expired successful_before permanently_failed_before j
                             && bool_decide (id j ∉ locked)) t)).

Definition ids_of (js : list Job) : gset uuid := list_to_set (id <$> js).

Definition is_permanently_failed (j : Job) : bool :=
  match permanently_failed_at j with Some _ => true | None => false end.

Definition delete_jobs (doomed : list Job) (t : table) : table :=
  delete_where (fun j => bool_decide (id j ∈ ids_of doomed)) t.

Definition cleanup_expired_jobs (locked : gset uuid)
    (successful_retention permanently_failed_retention : duration)
    (batch_size : Z) : Op table JobCleanupOutcome :=
  if (successful_retention <=? 0) || (permanently_failed_retention <=? 0) then
    throw (InvalidInput "job retention durations must be positive")
  else if (i64_max <? batch_size) || (batch_size <=? 0) then
    throw (InvalidInput "job cleanup batch size must be positive")
  else
    now ← now_utc;
    t ← gets (fun t => t);
    let doomed := cleanup_candidates (now - successful_retention)
                    (now - permanently_failed_retention) locked batch_size t in
    modify (delete_jobs doomed);;
    mret (mkJobCleanupOutcome
            (Z.of_nat (length (List.filter (fun j => negb (is_permanently_failed j)) doomed)))
            (Z.of_nat (length (List.filter is_permanently_failed doomed)))).

Definition JOB_CLEANUP_BATCH_SIZE : Z := 1000.

(** The inner loop of [job_cleanup_loop]: delete full batches until one is
    short or fails.  [fuel] bounds the number of statements; [shutdown] is what
    the shutdown channel shows before each one.  The result is the two totals,
    or [None] when the loop returned because of a shutdown or ran out of fuel. *)
Fixpoint cleanup_drain (fuel : nat) (shutdown : nat -> bool) (locked : gset uuid)
    (successful_retention permanently_failed_retention : duration)
    (batch_size : Z) (acc : JobCleanupOutcome) : Op table (option JobCleanupOutcome) :=
  match fuel with
  | O => mret None
  | S fuel =>
      if shutdown fuel then mret None else
      fun w s =>
        match cleanup_expired_jobs locked successful_retention
                permanently_failed_retention batch_size w s with
        | (Ok outcome, w', s') =>
            let acc := mkJobCleanupOutcome (successful acc + successful outcome)
                         (permanently_failed acc + permanently_failed outcome) in
            if total outcome <? batch_size then (Ok (Some acc), w', s')
            else cleanup_drain fuel shutdown locked successful_retention
                   permanently_failed_retention batch_size acc w' s'
        | (Err _, w', s') => (Ok (Some acc), w', s')
        end
  end.

(** * Administrator views *)

Definition admin_job_summary : Op table AdminJobSummary :=
  now ← now_utc;
  t ← gets (fun t => t);
  let unfinished j := bool_decide (completed_at j = None) in
  let unlocked j := bool_decide (locked_at j = None) in
  let is_due j := unfinished j && unlocked j && (run_after j <=? now) in
  mret (mkAdminJobSummary
    (Z.of_nat (count_where is_due t))
    (Z.of_nat (count_where (fun j => unfinished j && negb (unlocked j)) t))
    (Z.of_nat (count_where (fun j => unfinished j && unlocked j && (0 <? attempts j)
                                     && (now <? run_after j)) t))
    (Z.of_nat (count_where is_permanently_failed t))
    (run_after <$> least (fun a b => run_after a <=? run_after b) (rows_where is_due t))).

(** * The worker *)

Section Worker.
(** The handlers of the job kinds.  A handler either reports the [result] the
    worker records, or leaves [worker_iteration] with an error through [?]
    (the outer error), as the account purge, domain reconciliation, trend and
    preview-card arms do.  [media_job] is
    [media::execute_claimed_remote_media_job], which records its own outcome. *)
Context (execute : JobKind -> JsonValue -> Op table (result unit RoostyError))
        (media_job : ClaimedJob -> Op table unit)
        (error_text : RoostyError -> string)
        (federation_delivery_max_age : duration).

Definition starts_with (p s : string) : bool := String.prefix p s.

(** Which failures end a job: federation jobs that are too old, or whose
    error is marked permanent. *)
Definition is_permanent (job : ClaimedJob) (error : RoostyError) : Op table bool :=
  if starts_with "federation_" (as_str (claimed_kind job)) then
    aged ← job_has_exceeded_max_age (claimed_created_at job) federation_delivery_max_age;
    mret ((aged : bool)
          || starts_with "permanent federation delivery failure:" (error_text error)
          || starts_with "permanent federation fetch failure:" (error_text error))
  else mret false.

Definition record_outcome (job : ClaimedJob) (outcome : result unit RoostyError) :
    Op table unit :=
  match outcome with
  | Ok _ => mark_job_completed job ≫= fun _ => mret tt
  | Err error =>
      permanent ← is_permanent job error;
      if (permanent : bool)
      then mark_job_permanently_failed job (error_text error) ≫= fun _ => mret tt
      else mark_job_failed job (error_text error) ≫= fun _ => mret tt
  end.

(** [worker_iteration]: whether work was found. *)
Definition worker_iteration (locked : gset uuid) (worker_id : string) : Op table bool :=
  claimed ← claim_due_job locked worker_id (minutes 5);
  match claimed with
  | None => mret false
  | Some job =>
      if decide (claimed_kind job = FederationRemoteMediaFetch)
      then media_job job;; mret true
      else
        outcome ← execute (claimed_kind job) (claimed_payload job);
        record_outcome job outcome;;
        mret true
  end.
End Worker.

(** * Well-formed queues *)

(** The columns of a row agree: the key is the id, the counter fits [integer],
    a lease has a time, an owner and a claim or none of them, and a finished
    job holds no lease. *)
Record row_ok (k : uuid) (j : Job) : Prop := {
  ok_id : id j = k;
  ok_attempts : 0 <= attempts j <= i32_max;
  ok_owner : is_Some (claim_id j) <-> is_Some (locked_by j);
  ok_lease : is_Some (claim_id j) <-> is_Some (locked_at j);
  ok_done : is_Some (completed_at j) -> claim_id j = None;
  ok_failed : is_Some (permanently_failed_at j) -> is_Some (completed_at j);
}.

Record table_ok (t : table) : Prop := {
  ok_rows : forall k j, t !! k = Some j -> row_ok k j;
  ok_unique : forall k1 k2 j1 j2 s,
    t !! k1 = Some j1 -> t !! k2 = Some j2 ->
    active_duplicate (kind j1) (Some s) j1 = true ->
    active_duplicate (kind j1) (Some s) j2 = true -> k1 = k2;
}.

(** One statement of any process against the queue. *)
Inductive step (t : table) : table -> Prop :=
| step_enqueue w job : step t (store_of (enqueue_job_on_connection job) w t)
| step_claim w locked worker ttl :
    step t (store_of (claim_due_job locked worker ttl) w t)
| step_claim_by_key w locked worker k key ttl :
    step t (store_of (claim_due_job_by_key locked worker k key ttl) w t)
| step_completed w job : step t (store_of (mark_job_completed job) w t)
| step_failed w job error : step t (store_of (mark_job_failed job error) w t)
| step_permanent w job error :
    step t (store_of (mark_job_permanently_failed job error) w t)
| step_cleanup w locked sr fr batch :
    step t (store_of (cleanup_expired_jobs locked sr fr batch) w t).

Inductive reachable : table -> Prop :=
| reachable_empty : reachable ∅
| reachable_step t t' : reachable t -> step t t' -> reachable t'.

Lemma active_duplicate_spec k s j :
  active_duplicate k (Some s) j = true <->
  k = kind j /\ deduplication_key j = Some s /\ completed_at j = None.
Proof.
  unfold active_duplicate.
  destruct (deduplication_key j) as [s'|], (completed_at j); try naive_solver.
  rewrite andb_true_iff, !bool_decide_eq_true. naive_solver.
Qed.

Lemma active_duplicate_None k j : active_duplicate k None j = false.
Proof. done. Qed.

Lemma table_ok_empty : table_ok ∅.
Proof. split; intros *; rewrite lookup_empty; done. Qed.

(** Replacing a row keeps the queue well formed when the new row does not
    become active again under its key. *)
Lemma table_ok_update t k j j' :
  table_ok t -> t !! k = Some j -> row_ok k j' ->
  kind j' = kind j -> deduplication_key j' = deduplication_key j ->
  (completed_at j' = None -> completed_at j = None) ->
  table_ok (<[k := j']> t).
Proof.
  intros [Hrows Huniq] Hk Hok Hkind Hkey Hdone. split.
  - intros k' j''. rewrite lookup_insert. case_decide; naive_solver.
  - assert (Hact : forall q s, active_duplicate q (Some s) j' = true ->
                               active_duplicate q (Some s) j = true).
    { intros q s. rewrite !active_duplicate_spec, Hkind, Hkey. naive_solver. }
    intros k1 k2 j1 j2 s. rewrite !lookup_insert.
    do 2 case_decide; subst; intros H1 H2 A1 A2; simplify_eq; try done.
    + rewrite Hkind in *. apply Hact in A1. eapply (Huniq k1 k2 j j2 s); eauto.
    + apply Hact in A2. eapply (Huniq k1 k2 j1 j s); eauto.
    + eauto.
Qed.

Lemma table_ok_insert t k j :
  table_ok t -> row_ok k j -> t !! k = None ->
  (forall s, deduplication_key j = Some s ->
     rows_where (active_duplicate (kind j) (Some s)) t = []) ->
  table_ok (<[k := j]> t).
Proof.
  intros [Hrows Huniq] Hok Hk Hnew.
  assert (Hfresh : forall k' j' s, t !! k' = Some j' ->
    active_duplicate (kind j) (Some s) j = true ->
    active_duplicate (kind j) (Some s) j' = true -> False).
  { intros k' j' s Hk' A A'. apply active_duplicate_spec in A as (_ & Hs & _).
    apply Hnew in Hs. rewrite rows_where_nil in Hs. specialize (Hs _ _ Hk'). congruence. }
  split.
  - intros k' j''. rewrite lookup_insert. case_decide; naive_solver.
  - intros k1 k2 j1 j2 s. rewrite !lookup_insert.
    do 2 case_decide; subst; intros H1 H2 A1 A2; simplify_eq; try done.
    + exfalso. eauto.
    + exfalso.
      pose proof (proj1 (active_duplicate_spec _ _ _) A2) as (Hkk & _). rewrite Hkk in *.
      eauto.
    + eauto.
Qed.

Lemma table_ok_delete_where p t : table_ok t -> table_ok (delete_where p t).
Proof.
  intros [Hrows Huniq].
  assert (Hsub : forall k j, delete_where p t !! k = Some j -> t !! k = Some j).
  { intros k j. rewrite lookup_delete_where.
    destruct (t !! k) as [v|]; [destruct (p v)|]; naive_solver. }
  split; eauto.
Qed.

Lemma row_ok_lease k j now worker claim :
  row_ok k j -> completed_at j = None -> row_ok k (lease now worker claim j).
Proof.
  intros [] Hd. split; simpl; try done; try (split; by eauto).
  rewrite Hd. by intros [? [=]].
Qed.

Lemma due_at_spec now eb locked j :
  due_at now eb locked j = true <->
  completed_at j = None /\ run_after j <= now /\ lease_free eb j = true /\ id j ∉ locked.
Proof.
  unfold due_at. rewrite !andb_true_iff, !bool_decide_eq_true, Z.leb_le. tauto.
Qed.

Lemma rows_where_wf t p j :
  table_ok t -> j ∈ rows_where p t -> t !! id j = Some j /\ p j = true.
Proof.
  intros Hok [[k Hk] Hp]%elem_of_rows_where.
  by rewrite (ok_id _ _ (ok_rows _ Hok _ _ Hk)).
Qed.

Lemma claim_selected_ok t worker claim now sel w :
  table_ok t ->
  (forall j, sel = Some j -> t !! id j = Some j /\ completed_at j = None) ->
  table_ok (store_of (claim_selected worker claim now sel) w t).
Proof.
  intros Hok Hsel. unfold claim_selected. destruct sel as [j|]; [|done].
  destruct (Hsel j eq_refl) as [Hj Hdone].
  run_unfold. unfold claimed_of_row.
  destruct (0 <=? attempts j); simpl;
    (eapply table_ok_update; [done|exact Hj| |done..]);
    (apply row_ok_lease; [by apply (ok_rows _ Hok)|done]).
Qed.

Lemma update_claimed_ok t job f w :
  table_ok t ->
  (forall j, t !! job_uuid (claimed_id job) = Some j -> is_Some (claim_id j) ->
     row_ok (job_uuid (claimed_id job)) (f j) /\ kind (f j) = kind j /\
     deduplication_key (f j) = deduplication_key j) ->
  table_ok (store_of (update_claimed job f) w t).
Proof.
  intros Hok Hf. unfold update_claimed. run_unfold.
  destruct (t !! _) as [j|] eqn:Hj; [|done].
  destruct (holds_claim job j) eqn:Hc; [|done]. simpl.
  unfold holds_claim in Hc. boolp.
  destruct (Hf j eq_refl) as (Hr & Hk & Hd); [by eauto|].
  eapply table_ok_update; eauto. intros _.
  pose proof (ok_done _ _ (ok_rows _ Hok _ _ Hj)) as Hdone.
  destruct (completed_at j); [|done]. rewrite Hdone in *; [done|eauto].
Qed.

#[export] Hint Resolve table_ok_delete_where claim_selected_ok : roosty.

Lemma row_ok_finish k j now error perm :
  row_ok k j ->
  row_ok k (mkJob (id j) (kind j) (payload j) (deduplication_key j) (run_after j)
              (attempts j) None None None error (created_at j) (Some now) perm).
Proof. intros []. split; simpl; try done; by intros [? [=]]. Qed.

Lemma row_ok_retry k j after error :
  row_ok k j -> is_Some (claim_id j) -> attempts j < i32_max ->
  row_ok k (retried after error j).
Proof.
  intros [] Hc Ha. split; simpl; try done; try (split; by intros [? [=]]); try lia.
Qed.

Lemma attempts_overflow_false t job j :
  attempts_overflow job t = false -> t !! job_uuid (claimed_id job) = Some j ->
  is_Some (claim_id j) -> holds_claim job j = true -> attempts j < i32_max.
Proof. unfold attempts_overflow. intros H Hj _ Hh. rewrite Hj, Hh in H. simpl in H. boolp. lia. Qed.

(** An update that touches the row only under its claim keeps the queue well
    formed; the claim may be assumed held. *)
Lemma update_claimed_ok_held t job f w :
  table_ok t ->
  (forall j, t !! job_uuid (claimed_id job) = Some j -> is_Some (claim_id j) ->
     holds_claim job j = true ->
     row_ok (job_uuid (claimed_id job)) (f j) /\ kind (f j) = kind j /\
     deduplication_key (f j) = deduplication_key j) ->
  table_ok (store_of (update_claimed job f) w t).
Proof.
  intros Hok Hf.
  destruct (t !! job_uuid (claimed_id job)) as [j|] eqn:Hj.
  - destruct (holds_claim job j) eqn:Hh.
    + apply update_claimed_ok; naive_solver.
    + unfold update_claimed. run_unfold. by rewrite Hj, Hh.
  - unfold update_claimed. run_unfold. by rewrite Hj.
Qed.

Lemma enqueue_ok job w t :
  table_ok t -> table_ok (store_of (enqueue_job_on_connection job) w t).
Proof.
  intros Hok. unfold enqueue_job_on_connection. run_unfold.
  destruct (rows_where _ t) as [|j js] eqn:Hr; [|done].
  destruct (t !! _) eqn:Hk; [done|]. simpl.
  apply table_ok_insert; [done| |done|].
  - split; simpl; try done; try (split; by intros [? [=]]); by intros [? [=]].
  - simpl. intros s Hs. by rewrite Hs in Hr.
Qed.

Lemma claim_due_job_ok locked worker ttl w t :
  table_ok t -> table_ok (store_of (claim_due_job locked worker ttl) w t).
Proof.
  intros Hok. unfold claim_due_job. run_unfold. apply claim_selected_ok; [done|].
  intros j Hj%least_elem_of. apply (rows_where_wf _ _ _ Hok) in Hj as [Hj Hd].
  apply due_at_spec in Hd. naive_solver.
Qed.

Lemma claim_due_job_by_key_ok locked worker k key ttl w t :
  table_ok t -> table_ok (store_of (claim_due_job_by_key locked worker k key ttl) w t).
Proof.
  intros Hok. unfold claim_due_job_by_key. run_unfold. apply claim_selected_ok; [done|].
  intros j Hj%head_Some_elem_of. apply (rows_where_wf _ _ _ Hok) in Hj as [Hj Hd].
  boolp. split; [done|]. by apply due_at_spec in H as [? _].
Qed.

Lemma outcome_ok t job f w :
  table_ok t ->
  (forall j, exists now error perm,
     f j = mkJob (id j) (kind j) (payload j) (deduplication_key j) (run_after j)
             (attempts j) None None None error (created_at j) (Some now) perm) ->
  table_ok (store_of (update_claimed job f) w t).
Proof.
  intros Hok Hf. apply update_claimed_ok_held; [done|]. intros j Hj _ _.
  destruct (Hf j) as (now & error & perm & ->). split; [|done].
  apply row_ok_finish. by apply (ok_rows _ Hok).
Qed.

Lemma mark_job_failed_ok job error w t :
  table_ok t -> table_ok (store_of (mark_job_failed job error) w t).
Proof.
  intros Hok. unfold mark_job_failed, next_retry_at. run_unfold. simpl.
  destruct (attempts_overflow job t) eqn:Ho; [done|].
  match goal with |- context [update_claimed job ?f ?w' t] =>
    pose proof (update_claimed_ok_held t job f w' Hok) as Hu;
    destruct (update_claimed job f w' t) as [[[b|e] w''] t''] eqn:Hrun end;
    unfold store_of in Hu; simpl in *; rewrite ?Hrun in Hu; simpl in Hu; apply Hu;
    intros j Hj Hc Hh; (split; [|done]); apply row_ok_retry;
    eauto using attempts_overflow_false; by apply (ok_rows _ Hok).
Qed.

Lemma cleanup_ok locked sr fr batch w t :
  table_ok t -> table_ok (store_of (cleanup_expired_jobs locked sr fr batch) w t).
Proof.
  intros Hok. unfold cleanup_expired_jobs. run_unfold. repeat run_case; try done.
  by apply table_ok_delete_where.
Qed.

#[export] Hint Resolve enqueue_ok claim_due_job_ok claim_due_job_by_key_ok
  mark_job_failed_ok cleanup_ok : roosty.

Lemma step_ok t t' : step t t' -> table_ok t -> table_ok t'.
Proof.
  destruct 1; intros Hok; eauto with roosty.
  - apply outcome_ok; [done|]. intros j. by exists (w_clock w (w_ticks w)), (last_error j), (permanently_failed_at j).
  - unfold mark_job_permanently_failed. run_unfold. apply (outcome_ok _ _ _ _ Hok).
    intros j. by eexists _, _, _.
Qed.



(** * Claiming *)

Lemma job_order_total a b : job_order a b = true \/ job_order b a = true.
Proof.
  unfold job_order. rewrite !orb_true_iff, !andb_true_iff, !Z.ltb_lt, !Z.eqb_eq, !Z.leb_le. lia.
Qed.

Lemma job_order_trans a b c :
  job_order a b = true -> job_order b c = true -> job_order a c = true.
Proof.
  unfold job_order. rewrite !orb_true_iff, !andb_true_iff, !Z.ltb_lt, !Z.eqb_eq, !Z.leb_le. lia.
Qed.

Lemma claimed_of_row_ok k j claim :
  row_ok k j ->
  claimed_of_row j claim =
  Ok (mkClaimedJob (mkJobId (id j)) (mkJobClaimId claim) (kind j) (payload j)
        (attempts j) (created_at j)).
Proof.
  intros [_ [Ha _] _ _ _ _]. unfold claimed_of_row. by apply Z.leb_le in Ha as ->.
Qed.

(** The claim statement after its two clock readings. *)
Definition claim_now (w : World) : time := w_clock w (1 + w_ticks w).
Definition claim_horizon (w : World) (ttl : duration) : time := w_clock w (w_ticks w) - ttl.
Definition claim_token (w : World) : uuid := w_uuid_source w (w_uuids w).

(** What a claim of [claim_due_job] does, shared by the theorems below. *)
Lemma claim_due_job_effect t w locked worker ttl :
  table_ok t ->
  (value_of (claim_due_job locked worker ttl) w t = Ok None /\
   store_of (claim_due_job locked worker ttl) w t = t /\
   forall k j, t !! k = Some j -> due_at (claim_now w) (claim_horizon w ttl) locked j = false)
  \/
  (exists j,
     t !! id j = Some j /\
     due_at (claim_now w) (claim_horizon w ttl) locked j = true /\
     (forall k j', t !! k = Some j' ->
        due_at (claim_now w) (claim_horizon w ttl) locked j' = true -> job_order j j' = true) /\
     value_of (claim_due_job locked worker ttl) w t =
       Ok (Some (mkClaimedJob (mkJobId (id j)) (mkJobClaimId (claim_token w)) (kind j)
                   (payload j) (attempts j) (created_at j))) /\
     store_of (claim_due_job locked worker ttl) w t =
       <[id j := lease (claim_now w) worker (claim_token w) j]> t).
Proof.
  intros Hok. unfold claim_due_job, claim_selected. run_unfold. simpl.
  fold (claim_now w) (claim_horizon w ttl) (claim_token w).
  destruct (least _ _) as [j|] eqn:Hl; simpl.
  - right. exists j.
    pose proof (least_elem_of _ _ _ Hl) as Hin.
    apply (rows_where_wf _ _ _ Hok) in Hin as [Hj Hd].
    rewrite (claimed_of_row_ok (id j)) by by apply (ok_rows _ Hok).
    split_and!; try done. intros k j' Hk Hd'.
    eapply least_minimal; eauto using job_order_total, job_order_trans.
    apply elem_of_rows_where. eauto.
  - left. apply least_None in Hl. rewrite rows_where_nil in Hl. done.
Qed.


Definition sample_job (k : uuid) (after : time) : Job :=
  mkJob k PollUpdate JNull None after 0 None None None None 5 None None.
Definition sample_world : World :=
  mkWorld (fun n => 100 + Z.of_nat n) 0 (fun n => N.of_nat (40 + n)) 0 (fun _ => "t"%string) 0.
Definition sample_table : table :=
  <[7%N := sample_job 7 10]> (<[8%N := sample_job 8 20]> ∅).

Lemma sample_job_ok k after : row_ok k (sample_job k after).
Proof. split; simpl; try done; try (split; by intros [? [=]]); by intros [? [=]]. Qed.

Lemma sample_table_ok : table_ok sample_table.
Proof.
  apply table_ok_insert; [|apply sample_job_ok|done|done].
  apply table_ok_insert; [apply table_ok_empty|apply sample_job_ok|done|done].
Qed.


Lemma lease_free_lease now worker claim j eb :
  lease_free eb (lease now worker claim j) = (now <? eb).
Proof. done. Qed.

(** The two claim statements: the worker's, and the one for the job of a key. *)
Inductive claims (ttl : duration) : Op table (option ClaimedJob) -> Prop :=
| claims_any locked worker : claims ttl (claim_due_job locked worker ttl)
| claims_keyed locked worker k key : claims ttl (claim_due_job_by_key locked worker k key ttl).

Lemma claims_effect ttl m t w :
  table_ok t -> claims ttl m ->
  value_of m w t = Ok None \/
  exists j locked worker, t !! id j = Some j /\
    due_at (claim_now w) (claim_horizon w ttl) locked j = true /\
    value_of m w t =
      Ok (Some (mkClaimedJob (mkJobId (id j)) (mkJobClaimId (claim_token w)) (kind j)
                  (payload j) (attempts j) (created_at j))) /\
    store_of m w t = <[id j := lease (claim_now w) worker (claim_token w) j]> t.
Proof.
  intros Hok [locked worker|locked worker k key].
  - destruct (claim_due_job_effect t w locked worker ttl Hok)
      as [(Hv & _)|(j & ? & ? & _ & ? & ?)]; [by left|right; by exists j, locked, worker].
  - unfold claim_due_job_by_key, claim_selected. run_unfold. simpl.
    fold (claim_now w) (claim_horizon w ttl) (claim_token w).
    destruct (head _) as [j|] eqn:Hl; simpl; [right|by left].
    exists j, locked, worker.
    pose proof (head_Some_elem_of _ _ Hl) as Hin.
    apply (rows_where_wf _ _ _ Hok) in Hin as [Hj Hd]. boolp.
    rewrite (claimed_of_row_ok (id j)) by by apply (ok_rows _ Hok). done.
Qed.

(** C16. Leases exclude each other: while a lease is younger than the time to
    live, no further claim, by [claim_due_job] or by [claim_due_job_by_key], by
    any worker, over any later changes to other rows, obtains the leased job. *)
Theorem lease_is_exclusive t t2 ttl m w job w1 t1 ttl2 m2 w2 job2 :
  table_ok t -> table_ok t2 -> claims ttl m -> claims ttl2 m2 ->
  m w t = (Ok (Some job), w1, t1) ->
  t2 !! job_uuid (claimed_id job) = t1 !! job_uuid (claimed_id job) ->
  claim_horizon w2 ttl2 <= claim_now w ->
  value_of m2 w2 t2 = Ok (Some job2) ->
  claimed_id job2 <> claimed_id job.
Proof.
  intros Hok Hok2 Hm Hm2 Hrun Hsame Hyoung Hrun2.
  destruct (claims_effect ttl m t w Hok Hm) as [Hv|(j & locked & worker & Hj & _ & Hv & Hs)];
    unfold value_of, store_of in *; rewrite Hrun in *; simpl in *; [done|].
  injection Hv as ->. subst t1.
  destruct (claims_effect ttl2 m2 t2 w2 Hok2 Hm2)
    as [Hv2|(j2 & locked2 & worker2 & Hj2 & Hd2 & Hv2 & _)]; unfold value_of in *;
    rewrite Hv2 in Hrun2; [done|]. injection Hrun2 as <-. simpl in *.
  intros [= Heq]. rewrite Heq, Hsame, lookup_insert_eq in Hj2. injection Hj2 as <-.
  apply due_at_spec in Hd2 as (_ & _ & Hf & _). rewrite lease_free_lease in Hf. boolp. lia.
Qed.

Example lease_is_exclusive_witness :
  mkJobId 8 <> mkJobId 7.
Proof.
  pose (t1 := <[7%N := lease 101 "w" 40 (sample_job 7 10)]> sample_table).
  refine (lease_is_exclusive sample_table t1 (minutes 5)
    (claim_due_job ∅ "w" (minutes 5)) sample_world
    (mkClaimedJob (mkJobId 7) (mkJobClaimId 40) PollUpdate JNull 0 5) _
    t1 (minutes 5) (claim_due_job ∅ "x" (minutes 5)) sample_world
    (mkClaimedJob (mkJobId 8) (mkJobClaimId 40) PollUpdate JNull 0 5)
    sample_table_ok _ (claims_any _ _ _) (claims_any _ _ _) _ eq_refl _ _).
  - refine (table_ok_update _ 7 (sample_job 7 10) (lease 101 "w" 40 (sample_job 7 10))
              sample_table_ok _ _ eq_refl eq_refl (fun _ => eq_refl)).
    + reflexivity.
    + apply row_ok_lease; [apply sample_job_ok|reflexivity].
  - vm_compute. reflexivity.
  - vm_compute. discriminate.
  - vm_compute. reflexivity.
Defined.

(** * Outcomes *)

Lemma update_claimed_stale t job f w :
  (forall j, t !! job_uuid (claimed_id job) = Some j ->
     claim_id j <> Some (claim_uuid (claimed_claim_id job))) ->
  update_claimed job f w t = (Ok false, w, t).
Proof.
  intros Hstale. unfold update_claimed. run_unfold.
  destruct (t !! _) as [j|] eqn:Hj; [|done].
  unfold holds_claim. rewrite (bool_decide_eq_false_2 (claim_id j = _)) by by apply Hstale.
  by rewrite andb_false_r.
Qed.

Lemma update_claimed_held t job f w j :
  table_ok t -> t !! job_uuid (claimed_id job) = Some j ->
  claim_id j = Some (claim_uuid (claimed_claim_id job)) ->
  update_claimed job f w t = (Ok true, w, <[job_uuid (claimed_id job) := f j]> t).
Proof.
  intros Hok Hj Hc. unfold update_claimed. run_unfold. rewrite Hj.
  unfold holds_claim. rewrite Hc, (ok_id _ _ (ok_rows _ Hok _ _ Hj)).
  by rewrite !bool_decide_eq_true_2.
Qed.

Lemma attempts_overflow_stale t job :
  (forall j, t !! job_uuid (claimed_id job) = Some j ->
     claim_id j <> Some (claim_uuid (claimed_claim_id job))) ->
  attempts_overflow job t = false.
Proof.
  intros Hstale. unfold attempts_overflow. destruct (t !! _) as [j|] eqn:Hj; [|done].
  unfold holds_claim. rewrite (bool_decide_eq_false_2 (claim_id j = _)) by by apply Hstale.
  by rewrite andb_false_r.
Qed.

(** C20. A worker whose lease was taken over cannot record an outcome.  Once
    another claim of the same job has succeeded with a different lease identity,
    completion, retry and permanent failure under the old identity all report
    that they changed nothing and leave the queue as it is, while the new holder
    completes the job. *)
Theorem stale_lease_is_fenced t locked worker ttl w job w1 t1 old error w2 :
  table_ok t ->
  claim_due_job locked worker ttl w t = (Ok (Some job), w1, t1) ->
  claimed_id old = claimed_id job ->
  claimed_claim_id old <> claimed_claim_id job ->
  value_of (mark_job_completed old) w2 t1 = Ok false /\
  store_of (mark_job_completed old) w2 t1 = t1 /\
  value_of (mark_job_failed old error) w2 t1 = Ok None /\
  store_of (mark_job_failed old error) w2 t1 = t1 /\
  value_of (mark_job_permanently_failed old error) w2 t1 = Ok false /\
  store_of (mark_job_permanently_failed old error) w2 t1 = t1 /\
  value_of (mark_job_completed job) w2 t1 = Ok true.
Proof.
  intros Hok Hrun Hid Hne.
  destruct (claim_due_job_effect t w locked worker ttl Hok)
    as [(Hv & _)|(j & Hj & _ & _ & Hv & Hs)]; unfold value_of, store_of in *;
    rewrite Hrun in *; simpl in *; [done|]. injection Hv as ->. subst t1. simpl in *.
  assert (Hstale : forall j', <[id j := lease (claim_now w) worker (claim_token w) j]> t
      !! job_uuid (claimed_id old) = Some j' ->
      claim_id j' <> Some (claim_uuid (claimed_claim_id old))).
  { intros j'. rewrite Hid, lookup_insert_eq. intros [= <-] [= Heq].
    apply Hne. destruct (claimed_claim_id old); simpl in *; by subst. }
  assert (Hok1 : table_ok (<[id j := lease (claim_now w) worker (claim_token w) j]> t)).
  { pose proof (claim_due_job_ok locked worker ttl w t Hok) as H.
    unfold store_of in H. by rewrite Hrun in H. }
  unfold mark_job_failed, mark_job_completed, mark_job_permanently_failed, next_retry_at.
  run_unfold. simpl.
  rewrite (attempts_overflow_stale _ _ Hstale), !(update_claimed_stale _ _ _ _ Hstale).
  erewrite update_claimed_held; [done..|simpl; apply lookup_insert_eq|done]; done.
Qed.

Example stale_lease_is_fenced_witness :
  let t1 := <[7%N := lease 101 "w" 40 (sample_job 7 10)]> sample_table in
  let old := mkClaimedJob (mkJobId 7) (mkJobClaimId 39) PollUpdate JNull 0 5 in
  value_of (mark_job_completed old) sample_world t1 = Ok false.
Proof.
  intros t1 old.
  refine (proj1 (stale_lease_is_fenced sample_table ∅ "w" (minutes 5) sample_world
    (mkClaimedJob (mkJobId 7) (mkJobClaimId 40) PollUpdate JNull 0 5) _ t1 old "e"
    sample_world sample_table_ok eq_refl eq_refl _)).
  vm_compute. discriminate.
Defined.

Definition backoff_seconds (attempts : Z) : Z := Z.min (2 ^ Z.min attempts 12) 3600.

Lemma backoff_bounds n : 0 <= n -> 1 <= backoff_seconds n <= 3600.
Proof.
  intros Hn. unfold backoff_seconds.
  assert (0 < 2 ^ Z.min n 12) by (apply Z.pow_pos_nonneg; lia). lia.
Qed.

Lemma backoff_mono n m : 0 <= n <= m -> backoff_seconds n <= backoff_seconds m.
Proof.
  intros Hn. unfold backoff_seconds.
  assert (2 ^ Z.min n 12 <= 2 ^ Z.min m 12) by (apply Z.pow_le_mono_r; lia). lia.
Qed.

(** A failed attempt by the lease holder counts one attempt, records the
    error, releases the lease and postpones the job by [2^attempts] seconds
    capped at one hour; until then no claim can obtain the job.  The delay is
    between one second and one hour and never decreases with the attempts. *)
Theorem mark_job_failed_backs_off t w job error j :
  table_ok t ->
  t !! job_uuid (claimed_id job) = Some j ->
  claim_id j = Some (claim_uuid (claimed_claim_id job)) ->
  claimed_attempts job = attempts j ->
  attempts j < i32_max ->
  let now := w_clock w (w_ticks w) in
  let after := now + seconds (backoff_seconds (attempts j)) in
  let t' := store_of (mark_job_failed job error) w t in
  value_of (mark_job_failed job error) w t = Ok (Some after) /\
  t' = <[job_uuid (claimed_id job) := retried after error j]> t /\
  now + seconds 1 <= after <= now + seconds 3600 /\
  (forall m, attempts j <= m -> backoff_seconds (attempts j) <= backoff_seconds m) /\
  (forall w2 locked worker ttl job2,
     claim_now w2 < after ->
     value_of (claim_due_job locked worker ttl) w2 t' = Ok (Some job2) ->
     claimed_id job2 <> claimed_id job).
Proof.
  intros Hok Hj Hc Ha Hmax now after t'.
  pose proof (ok_attempts _ _ (ok_rows _ Hok _ _ Hj)) as Hbound.
  assert (Hov : attempts_overflow job t = false).
  { unfold attempts_overflow. rewrite Hj. destruct (holds_claim job j); [|done].
    simpl. apply Z.leb_gt. lia. }
  assert (Hrun : mark_job_failed job error w t =
    (Ok (Some after), snd (fst (mark_job_failed job error w t)),
     <[job_uuid (claimed_id job) := retried after error j]> t)).
  { unfold mark_job_failed, next_retry_at. run_unfold. simpl. rewrite Hov.
    erewrite update_claimed_held by eauto. rewrite Ha. done. }
  assert (Ht' : t' = <[job_uuid (claimed_id job) := retried after error j]> t).
  { unfold t', store_of. by rewrite Hrun. }
  split_and!; [unfold value_of; by rewrite Hrun|done| | | |].
  - pose proof (backoff_bounds (attempts j)). unfold after, seconds. lia.
  - pose proof (backoff_bounds (attempts j)). unfold after, seconds. lia.
  - intros m Hm. apply backoff_mono. lia.
  - intros w2 locked worker ttl job2 Hlt Hv Heq.
    assert (Hok' : table_ok t') by (apply mark_job_failed_ok; done).
    destruct (claim_due_job_effect t' w2 locked worker ttl Hok')
      as [(Hv2 & _)|(j2 & Hj2 & Hd2 & _ & Hv2 & _)]; rewrite Hv2 in Hv; [done|].
    injection Hv as <-. simpl in Heq.
    rewrite Ht', <- Heq in Hj2. simpl in Hj2. rewrite lookup_insert_eq in Hj2.
    injection Hj2 as Hj2. apply due_at_spec in Hd2 as (_ & Hr & _).
    rewrite <- Hj2 in Hr. simpl in Hr. lia.
Qed.

Example mark_job_failed_backs_off_witness :
  let t1 := <[7%N := lease 101 "w" 40 (sample_job 7 10)]> sample_table in
  value_of (mark_job_failed (mkClaimedJob (mkJobId 7) (mkJobClaimId 40) PollUpdate JNull 0 5) "e")
    sample_world t1 = Ok (Some (100 + seconds 1)).
Proof.
  intros t1.
  refine (proj1 (mark_job_failed_backs_off t1 sample_world
    (mkClaimedJob (mkJobId 7) (mkJobClaimId 40) PollUpdate JNull 0 5) "e"
    (lease 101 "w" 40 (sample_job 7 10)) _ eq_refl eq_refl eq_refl _)).
  - refine (table_ok_update _ 7 (sample_job 7 10) (lease 101 "w" 40 (sample_job 7 10))
              sample_table_ok _ _ eq_refl eq_refl (fun _ => eq_refl)).
    + reflexivity.
    + apply row_ok_lease; [apply sample_job_ok|reflexivity].
  - vm_compute. reflexivity.
Defined.

(** Enqueueing under a key that an active job of the same kind carries
    returns that job and changes nothing; otherwise it adds exactly one pending
    job under the fresh identifier, so a repeated enqueue of one key always
    answers with the first identifier. *)
Theorem enqueue_job_deduplicates t w job jid w1 t1 w2 :
  table_ok t ->
  enqueue_job_on_connection job w t = (Ok jid, w1, t1) ->
  ((t1 = t /\ exists j, t !! job_uuid jid = Some j /\
      active_duplicate (new_kind job) (new_deduplication_key job) j = true)
   \/
   (t !! job_uuid jid = None /\
    t1 = <[job_uuid jid := mkJob (job_uuid jid) (new_kind job) (new_payload job)
             (new_deduplication_key job) (new_run_after job) 0 None None None None
             (w_clock w (w_ticks w)) None None]> t /\
    forall k j, t !! k = Some j ->
      active_duplicate (new_kind job) (new_deduplication_key job) j = false)) /\
  (is_Some (new_deduplication_key job) ->
   value_of (enqueue_job_on_connection job) w2 t1 = Ok jid /\
   store_of (enqueue_job_on_connection job) w2 t1 = t1).
Proof.
  intros Hok Hrun.
  assert (Hok1 : table_ok t1).
  { pose proof (enqueue_ok job w t Hok) as H. unfold store_of in H. by rewrite Hrun in H. }
  assert (Hfirst : (t1 = t /\ exists j, t !! job_uuid jid = Some j /\
      active_duplicate (new_kind job) (new_deduplication_key job) j = true)
   \/
   (t !! job_uuid jid = None /\
    t1 = <[job_uuid jid := mkJob (job_uuid jid) (new_kind job) (new_payload job)
             (new_deduplication_key job) (new_run_after job) 0 None None None None
             (w_clock w (w_ticks w)) None None]> t /\
    forall k j, t !! k = Some j ->
      active_duplicate (new_kind job) (new_deduplication_key job) j = false)).
  { revert Hrun. unfold enqueue_job_on_connection. run_unfold. simpl.
    destruct (rows_where _ t) as [|j js] eqn:Hr.
    - destruct (t !! w_uuid_source w (w_uuids w)) eqn:Hf; [done|].
      intros [= <- _ <-]. right. split_and!; [done|done|].
      by apply rows_where_nil.
    - intros [= <- _ <-]. left. split; [done|]. exists j. simpl.
      apply (rows_where_wf _ _ _ Hok). rewrite Hr. left. }
  split; [exact Hfirst|]. intros [s Hs].
  assert (Hact : exists j, t1 !! job_uuid jid = Some j /\
      active_duplicate (new_kind job) (new_deduplication_key job) j = true).
  { destruct Hfirst as [(-> & Hj)|(_ & -> & _)]; [done|].
    eexists. split; [apply lookup_insert_eq|]. rewrite Hs. by apply active_duplicate_spec. }
  destruct Hact as (j & Hj & Ha). unfold enqueue_job_on_connection. run_unfold. simpl.
  destruct (rows_where _ t1) as [|j2 js] eqn:Hr.
  - rewrite rows_where_nil in Hr. rewrite (Hr _ _ Hj) in Ha. done.
  - assert (t1 !! id j2 = Some j2 /\
      active_duplicate (new_kind job) (new_deduplication_key job) j2 = true) as [Hj2 Ha2].
    { apply (rows_where_wf _ _ _ Hok1). rewrite Hr. left. }
    rewrite Hs in Ha, Ha2.
    pose proof (proj1 (active_duplicate_spec _ _ _) Ha) as (Hk & _). rewrite Hk in Ha, Ha2.
    rewrite <- (ok_unique _ Hok1 _ _ _ _ s Hj Hj2 Ha Ha2). by destruct jid.
Qed.

Example enqueue_job_deduplicates_witness :
  let job := mkNewJob PollUpdate JNull (Some "p"%string) 0 in
  let t1 := store_of (enqueue_job_on_connection job) sample_world sample_table in
  value_of (enqueue_job_on_connection job) sample_world t1 = Ok (mkJobId 40).
Proof.
  intros job t1.
  refine (proj1 (proj2 (enqueue_job_deduplicates sample_table sample_world job (mkJobId 40)
    (world_of (enqueue_job_on_connection job) sample_world sample_table) t1 sample_world
    sample_table_ok _) _)).
  - vm_compute. reflexivity.
  - eexists. reflexivity.
Defined.

(** * Retention cleanup *)

Section Cleanup.
Context (t : table) (Hok : table_ok t).

Lemma rows_ids_NoDup : NoDup (id <$> rows t).
Proof using Hok.
  unfold rows. rewrite <- list_fmap_compose.
  rewrite (list_fmap_ext _ fst).
  - apply NoDup_fst_map_to_list.
  - intros i [k j] Hi. apply list_elem_of_lookup_2, elem_of_map_to_list in Hi.
    exact (ok_id _ _ (ok_rows _ Hok _ _ Hi)).
Qed.

Lemma rows_where_ids_NoDup p : NoDup (id <$> rows_where p t).
Proof using Hok.
  pose proof rows_ids_NoDup as Hnd. unfold rows_where.
  induction (rows t) as [|j l IH]; simpl; [constructor|].
  rewrite fmap_cons in Hnd. apply NoDup_cons in Hnd as [Hj Hnd].
  destruct (p j); simpl; [|by auto]. constructor; [|by auto].
  intros (j' & Heq & Hin)%list_elem_of_fmap. apply Hj.
  apply list_elem_of_In, filter_In in Hin as [Hin _]. apply list_elem_of_In in Hin.
  apply list_elem_of_fmap. eauto.
Qed.

Context (sb fb : time) (locked : gset uuid) (batch : Z).
Let doomed := cleanup_candidates sb fb locked batch t.

Lemma candidates_elem j :
  j ∈ doomed -> t !! id j = Some j /\ expired sb fb j = true /\ id j ∉ locked.
Proof using Hok.
  unfold doomed, cleanup_candidates. intros Hj%elem_of_take.
  destruct Hj as (i & Hi & _). apply list_elem_of_lookup_2 in Hi.
  rewrite order_by_Permutation in Hi.
  apply (rows_where_wf _ _ _ Hok) in Hi as [Hj Hp]. boolp. done.
Qed.

Lemma candidates_ids_NoDup : NoDup (id <$> doomed).
Proof using Hok.
  unfold doomed, cleanup_candidates. rewrite fmap_take.
  match goal with |- NoDup (take ?n ?l) =>
    assert (NoDup l) as Hnd by (rewrite order_by_Permutation; apply rows_where_ids_NoDup);
    rewrite <- (take_drop n l) in Hnd; by apply NoDup_app in Hnd as [? _] end.
Qed.

Lemma candidates_length : (length doomed <= Z.to_nat batch)%nat.
Proof using Type. unfold doomed, cleanup_candidates. rewrite length_take. lia. Qed.

Lemma candidates_complete k j :
  (length doomed < Z.to_nat batch)%nat -> t !! k = Some j ->
  expired sb fb j && bool_decide (id j ∉ locked) = true -> j ∈ doomed.
Proof using Type.
  unfold doomed, cleanup_candidates. rewrite length_take. intros Hlen Hk Hj.
  rewrite take_ge by lia. rewrite order_by_Permutation. apply elem_of_rows_where. eauto.
Qed.

Lemma elem_of_ids_of k js : k ∈ ids_of js <-> exists j, j ∈ js /\ id j = k.
Proof using Type.
  unfold ids_of. rewrite elem_of_list_to_set, list_elem_of_fmap. naive_solver.
Qed.

Lemma lookup_delete_jobs k :
  delete_jobs doomed t !! k =
  match t !! k with
  | Some j => if bool_decide (k ∈ ids_of doomed) then None else Some j
  | None => None
  end.
Proof using Hok.
  unfold delete_jobs. rewrite lookup_delete_where. destruct (t !! k) as [j|] eqn:Hk; [|done].
  by rewrite (ok_id _ _ (ok_rows _ Hok _ _ Hk)).
Qed.

Lemma delete_jobs_size :
  (size (delete_jobs doomed t) + length doomed = size t)%nat.
Proof using Hok.
  assert (Hdom : dom (delete_jobs doomed t) = dom t ∖ ids_of doomed).
  { apply set_eq. intros k. rewrite elem_of_difference, !elem_of_dom, lookup_delete_jobs.
    destruct (t !! k) as [j|].
    - case_bool_decide; split; [by intros [? [=]]|naive_solver|naive_solver|by eauto].
    - split; [by intros [? [=]]|by intros [[? [=]] _]]. }
  assert (Hsub : ids_of doomed ⊆ dom t).
  { intros k (j & Hj & <-)%elem_of_ids_of. apply elem_of_dom.
    apply candidates_elem in Hj as [-> _]. by eauto. }
  pose proof (subseteq_size _ _ Hsub) as Hle.
  rewrite <- !size_dom, Hdom, size_difference by done. unfold ids_of in *.
  rewrite size_list_to_set in * by apply candidates_ids_NoDup.
  rewrite length_fmap in *. lia.
Qed.
End Cleanup.

Lemma filter_split_length {A} (p : A -> bool) (l : list A) :
  (length (List.filter (fun x => negb (p x)) l) + length (List.filter p l) = length l)%nat.
Proof. induction l as [|x l IH]; simpl; [done|]. destruct (p x); simpl; lia. Qed.

(** Cleanup with positive retentions and a positive batch size removes only
    finished jobs whose retention has elapsed and that no other transaction
    holds, at most [batch_size] of them, keeps every other row as it was, and
    reports as many removals as rows disappeared; a short batch means that
    nothing eligible is left.  Pending, scheduled, retrying and leased jobs are
    never removed. *)
Theorem cleanup_expired_jobs_spec t w locked sr fr batch :
  table_ok t -> 0 < sr -> 0 < fr -> 0 < batch <= i64_max ->
  let now := w_clock w (w_ticks w) in
  exists outcome t',
    cleanup_expired_jobs locked sr fr batch w t =
      (Ok outcome, world_of (cleanup_expired_jobs locked sr fr batch) w t, t') /\
    0 <= successful outcome /\ 0 <= permanently_failed outcome /\
    total outcome <= batch /\
    Z.of_nat (size t) = Z.of_nat (size t') + total outcome /\
    (forall k j, t' !! k = Some j -> t !! k = Some j) /\
    (forall k j, t !! k = Some j -> t' !! k = None ->
       expired (now - sr) (now - fr) j = true /\ is_Some (completed_at j) /\
       claim_id j = None /\ k ∉ locked) /\
    (total outcome < batch -> forall k j, t' !! k = Some j ->
       expired (now - sr) (now - fr) j = true -> k ∈ locked).
Proof.
  intros Hok Hsr Hfr [Hb1 Hb2] now.
  set (doomed := cleanup_candidates (now - sr) (now - fr) locked batch t).
  eexists (mkJobCleanupOutcome _ _), (delete_jobs doomed t). split.
  { unfold cleanup_expired_jobs, world_of. run_unfold.
    apply Z.leb_gt in Hsr as ->, Hfr as ->. apply Z.leb_gt in Hb1 as ->.
    apply Z.ltb_ge in Hb2 as ->. simpl. reflexivity. }
  unfold total; simpl.
  pose proof (filter_split_length is_permanently_failed doomed) as Hsplit.
  pose proof (candidates_length t (now - sr) (now - fr) locked batch) as Hlen.
  pose proof (delete_jobs_size t Hok (now - sr) (now - fr) locked batch) as Hsize.
  fold now doomed in Hlen, Hsize |- *.
  split_and!; try lia.
  - intros k j. unfold doomed. rewrite lookup_delete_jobs by done.
    destruct (t !! k); [case_bool_decide|]; naive_solver.
  - intros k j Hk. unfold doomed. rewrite lookup_delete_jobs, Hk by done.
    case_bool_decide as Hin; [|done]. intros _.
    apply elem_of_ids_of in Hin as (j' & Hin & Hid).
    apply candidates_elem in Hin as (Hj' & He & Hl); [|done].
    assert (j' = j) as -> by congruence.
    pose proof (ok_rows _ Hok _ _ Hk) as Hrow.
    assert (Hdone : is_Some (completed_at j)).
    { unfold expired in He. destruct (permanently_failed_at j) eqn:Hp.
      - apply (ok_failed _ _ Hrow). by rewrite Hp.
      - destruct (completed_at j); [by eauto|done]. }
    split_and!; try done; [by apply (ok_done _ _ Hrow)|congruence].
  - intros Hshort k j. unfold doomed. rewrite lookup_delete_jobs by done.
    destruct (t !! k) as [j'|] eqn:Hk; [|done]. case_bool_decide as Hin; [done|].
    intros [= ->] He. destruct (decide (k ∈ locked)) as [|Hl]; [done|]. exfalso. apply Hin.
    pose proof (ok_id _ _ (ok_rows _ Hok _ _ Hk)) as Hid.
    apply elem_of_ids_of. exists j. split; [|done].
    eapply candidates_complete; [|done|]; [fold doomed; lia|].
    rewrite He, Hid. by apply bool_decide_eq_true_2.
Qed.

Definition finished_job (k : uuid) (at_ : time) : Job :=
  mkJob k PollUpdate JNull None 0 0 None None None None 0 (Some at_) None.

Lemma finished_job_ok k at_ : row_ok k (finished_job k at_).
Proof. split; simpl; try done; try (split; by intros [? [=]]); by intros [? [=]]. Qed.

Lemma finished_table_ok : table_ok (<[3%N := finished_job 3 20]> sample_table).
Proof. apply table_ok_insert; [apply sample_table_ok|apply finished_job_ok|done|done]. Qed.

Example cleanup_expired_jobs_spec_witness :
  exists outcome t',
    cleanup_expired_jobs ∅ 50 60 10 sample_world (<[3%N := finished_job 3 20]> sample_table) =
      (Ok outcome, world_of (cleanup_expired_jobs ∅ 50 60 10) sample_world
                     (<[3%N := finished_job 3 20]> sample_table), t') /\
    total outcome = 1.
Proof.
  destruct (cleanup_expired_jobs_spec (<[3%N := finished_job 3 20]> sample_table) sample_world
    ∅ 50 60 10 finished_table_ok) as (outcome & t' & Hrun & _);
    [reflexivity..|split; [reflexivity|discriminate]|].
  exists outcome, t'. split; [exact Hrun|].
  vm_compute in Hrun. injection Hrun as <- _. reflexivity.
Defined.

(** The cleanup loop terminates: without a shutdown, a number of statements
    larger than the number of rows is enough, for every batch size, clock and
    set of locked rows; it ends with a well-formed queue contained in the
    original one, and its totals count exactly the rows that disappeared. *)
Theorem cleanup_drain_terminates fuel locked sr fr batch :
  0 < sr -> 0 < fr -> 0 < batch <= i64_max ->
  forall t w acc,
  table_ok t -> (size t < fuel)%nat ->
  exists acc' w' t',
    cleanup_drain fuel (fun _ => false) locked sr fr batch acc w t = (Ok (Some acc'), w', t') /\
    table_ok t' /\
    (forall k j, t' !! k = Some j -> t !! k = Some j) /\
    total acc' - total acc = Z.of_nat (size t) - Z.of_nat (size t').
Proof.
  intros Hsr Hfr Hb. induction fuel as [|fuel IH]; intros t w acc Hok Hfuel; [lia|].
  destruct (cleanup_expired_jobs_spec t w locked sr fr batch Hok Hsr Hfr Hb)
    as (outcome & t1 & Hrun & Hs & Hp & Hle & Hsize & Hsub & _).
  assert (Hok1 : table_ok t1).
  { pose proof (cleanup_ok locked sr fr batch w t Hok) as H. unfold store_of in H.
    by rewrite Hrun in H. }
  simpl. rewrite Hrun. destruct (Z.ltb_spec (total outcome) batch) as [Hlt|Hge].
  - eexists _, _, t1. split; [reflexivity|]. split_and!; [done|done|].
    unfold total in *; simpl. lia.
  - edestruct (IH t1) as (acc' & w' & t' & Hrun' & Hok' & Hsub' & Htot); [done|lia|].
    exists acc', w', t'. split; [exact Hrun'|]. split_and!; [done|by auto|].
    unfold total in *; simpl in *. lia.
Qed.

Example cleanup_drain_terminates_witness :
  exists acc' w' t',
    cleanup_drain 5 (fun _ => false) ∅ 50 60 1 (mkJobCleanupOutcome 0 0) sample_world
      (<[3%N := finished_job 3 20]> sample_table) = (Ok (Some acc'), w', t') /\
    total acc' = 1.
Proof.
  destruct (cleanup_drain_terminates 5 ∅ 50 60 1 eq_refl eq_refl
    ltac:(split; [reflexivity|discriminate])
    (<[3%N := finished_job 3 20]> sample_table) sample_world (mkJobCleanupOutcome 0 0)
    finished_table_ok ltac:(vm_compute; lia)) as (acc' & w' & t' & Hrun & _).
  exists acc', w', t'. split; [exact Hrun|].
  vm_compute in Hrun. injection Hrun as <- _ _. reflexivity.
Defined.

(** * The worker *)

Section WorkerProofs.
Context (execute : JobKind -> JsonValue -> Op table (result unit RoostyError))
        (media_job : ClaimedJob -> Op table unit)
        (error_text : RoostyError -> string)
        (max_age : duration).

(** A handler works on other tables and on other jobs: it keeps the queue
    well formed and leaves the row of the job it runs for alone. *)
Definition respects_lease (jid : uuid) : Prop := forall k p w t,
  table_ok t ->
  table_ok (store_of (execute k p) w t) /\
  store_of (execute k p) w t !! jid = t !! jid.

Lemma record_outcome_spec job outcome w t j :
  table_ok t -> t !! job_uuid (claimed_id job) = Some j ->
  claim_id j = Some (claim_uuid (claimed_claim_id job)) ->
  claimed_attempts job = attempts j -> attempts j < i32_max ->
  completed_at j = None ->
  exists f,
    value_of (record_outcome error_text max_age job outcome) w t = Ok tt /\
    store_of (record_outcome error_text max_age job outcome) w t =
      <[job_uuid (claimed_id job) := f]> t /\
    claim_id f = None /\
    match outcome with
    | Ok _ => is_Some (completed_at f) /\ attempts f = attempts j /\
              permanently_failed_at f = permanently_failed_at j
    | Err e =>
        last_error f = Some (error_text e) /\
        ((is_Some (permanently_failed_at f) /\
          String.prefix "federation_" (as_str (claimed_kind job)) = true) \/
         (completed_at f = None /\ attempts f = attempts j + 1))
    end.
Proof using Type.
  intros Hok Hj Hc Ha Hmax Hdone.
  assert (Hov : attempts_overflow job t = false).
  { unfold attempts_overflow. rewrite Hj. destruct (holds_claim job j); [|done].
    simpl. apply Z.leb_gt. lia. }
  destruct outcome as [[]|e].
  - eexists. unfold record_outcome, mark_job_completed. run_unfold.
    erewrite update_claimed_held by eauto. simpl. by eauto.
  - unfold record_outcome, is_permanent, job_has_exceeded_max_age, mark_job_failed,
      next_retry_at, mark_job_permanently_failed, starts_with.
    destruct (String.prefix _ (as_str _)) eqn:Hp; run_unfold; simpl;
      [match goal with |- context [if ?b then _ else _] => destruct b end|];
      rewrite ?Hov; erewrite update_claimed_held by eauto;
      (eexists; split; [reflexivity|]; split; [reflexivity|]); simpl; by eauto 6.
Qed.

(** An iteration that claims a job whose handler reports a result records
    an outcome for it: the lease is gone, a success completes the job without
    counting an attempt, and a failure stores the error and either ends a
    federation job for good or schedules one more attempt. *)
Theorem worker_iteration_records_outcome t w locked worker job w1 t1 outcome w2 t2 :
  table_ok t -> respects_lease (job_uuid (claimed_id job)) ->
  claim_due_job locked worker (minutes 5) w t = (Ok (Some job), w1, t1) ->
  claimed_kind job <> FederationRemoteMediaFetch ->
  claimed_attempts job < i32_max ->
  execute (claimed_kind job) (claimed_payload job) w1 t1 = (Ok outcome, w2, t2) ->
  exists f,
    value_of (worker_iteration execute media_job error_text max_age locked worker) w t =
      Ok true /\
    store_of (worker_iteration execute media_job error_text max_age locked worker) w t
      !! job_uuid (claimed_id job) = Some f /\
    claim_id f = None /\
    match outcome with
    | Ok _ => is_Some (completed_at f) /\ attempts f = claimed_attempts job
    | Err e =>
        last_error f = Some (error_text e) /\
        ((is_Some (permanently_failed_at f) /\
          String.prefix "federation_" (as_str (claimed_kind job)) = true) \/
         (completed_at f = None /\ attempts f = claimed_attempts job + 1))
    end.
Proof using Type.
  intros Hok Hresp Hclaim Hkind Hmax Hexec.
  pose proof (claim_due_job_ok locked worker (minutes 5) w t Hok) as Hok1.
  pose proof (claim_due_job_effect t w locked worker (minutes 5) Hok) as Hspec.
  unfold value_of, store_of in Hok1, Hspec. rewrite Hclaim in Hok1, Hspec. simpl in *.
  destruct Hspec as [(Hv & _)|(j & _ & Hd & _ & Hv & Hs)]; [done|].
  injection Hv as ->. subst t1. apply due_at_spec in Hd as (Hdone & _).
  destruct (Hresp (kind j) (payload j) w1 _ Hok1) as [Hok2 Hsame].
  unfold store_of in Hok2, Hsame. simpl in *. rewrite Hexec in Hok2, Hsame. simpl in *.
  rewrite lookup_insert_eq in Hsame.
  edestruct (record_outcome_spec (mkClaimedJob (mkJobId (id j)) (mkJobClaimId (claim_token w))
    (kind j) (payload j) (attempts j) (created_at j)) outcome w2 t2)
    as (f & Hrv & Hrs & Hf & Hout); [done|exact Hsame|done..|].
  unfold worker_iteration. run_unfold. rewrite Hclaim. simpl.
  rewrite decide_False by done. rewrite Hexec.
  destruct (record_outcome _ _ _ outcome w2 t2) as [[r w3] t3] eqn:Hrec.
  simpl in Hrv, Hrs. subst r t3.
  exists f. simpl. rewrite lookup_insert_eq. split_and!; try done.
  destruct outcome; naive_solver.
Qed.

(** A handler error that leaves [worker_iteration] through [?] is not
    recorded: the iteration fails, and the row keeps its lease, its attempt
    count and its previous diagnostic, so the job neither backs off nor ever
    becomes permanently failed and is claimed again when the lease expires. *)
Theorem worker_iteration_escape_keeps_lease t w locked worker job w1 t1 e w2 t2 :
  table_ok t -> respects_lease (job_uuid (claimed_id job)) ->
  claim_due_job locked worker (minutes 5) w t = (Ok (Some job), w1, t1) ->
  claimed_kind job <> FederationRemoteMediaFetch ->
  execute (claimed_kind job) (claimed_payload job) w1 t1 = (Err e, w2, t2) ->
  exists f,
    value_of (worker_iteration execute media_job error_text max_age locked worker) w t =
      Err e /\
    store_of (worker_iteration execute media_job error_text max_age locked worker) w t
      !! job_uuid (claimed_id job) = Some f /\
    claim_id f = Some (claim_uuid (claimed_claim_id job)) /\
    attempts f = claimed_attempts job /\ completed_at f = None /\
    (forall horizon now, run_after f <= now -> claim_now w < horizon ->
       due_at now horizon ∅ f = true).
Proof using Type.
  intros Hok Hresp Hclaim Hkind Hexec.
  pose proof (claim_due_job_ok locked worker (minutes 5) w t Hok) as Hok1.
  pose proof (claim_due_job_effect t w locked worker (minutes 5) Hok) as Hspec.
  unfold value_of, store_of in Hok1, Hspec. rewrite Hclaim in Hok1, Hspec. simpl in *.
  destruct Hspec as [(Hv & _)|(j & _ & Hd & _ & Hv & Hs)]; [done|].
  injection Hv as ->. subst t1. apply due_at_spec in Hd as (Hdone & _).
  destruct (Hresp (kind j) (payload j) w1 _ Hok1) as [_ Hsame].
  unfold store_of in Hsame. simpl in *. rewrite Hexec in Hsame. simpl in *.
  rewrite lookup_insert_eq in Hsame.
  exists (lease (claim_now w) worker (claim_token w) j).
  unfold worker_iteration. run_unfold. rewrite Hclaim. simpl.
  rewrite decide_False by done. rewrite Hexec. simpl. split_and!; try done.
  intros horizon now Hrun Hlt. apply due_at_spec. split_and!; try done.
  rewrite lease_free_lease. by apply Z.ltb_lt.
Qed.
End WorkerProofs.

Lemma sample_claim :
  claim_due_job ∅ "w" (minutes 5) sample_world sample_table =
  (Ok (Some (mkClaimedJob (mkJobId 7) (mkJobClaimId 40) PollUpdate JNull 0 5)),
   world_of (claim_due_job ∅ "w" (minutes 5)) sample_world sample_table,
   store_of (claim_due_job ∅ "w" (minutes 5)) sample_world sample_table).
Proof. vm_compute. reflexivity. Qed.

Definition failing_handler (_ : JobKind) (_ : JsonValue) :
    Op table (result unit RoostyError) := mret (Err (InvalidInput "boom")).
Definition escaping_handler (_ : JobKind) (_ : JsonValue) :
    Op table (result unit RoostyError) := throw (InvalidInput "boom").

Lemma failing_handler_respects jid : respects_lease failing_handler jid.
Proof. intros k p w t Hok. done. Qed.
Lemma escaping_handler_respects jid : respects_lease escaping_handler jid.
Proof. intros k p w t Hok. done. Qed.

Example worker_iteration_records_outcome_witness :
  exists f,
    store_of (worker_iteration failing_handler (fun _ => mret tt) (fun _ => "boom"%string) 0
      ∅ "w") sample_world sample_table !! 7%N = Some f /\ claim_id f = None.
Proof.
  destruct (worker_iteration_records_outcome failing_handler (fun _ => mret tt)
    (fun _ => "boom"%string) 0 sample_table sample_world ∅ "w"
    (mkClaimedJob (mkJobId 7) (mkJobClaimId 40) PollUpdate JNull 0 5)
    (world_of (claim_due_job ∅ "w" (minutes 5)) sample_world sample_table)
    (store_of (claim_due_job ∅ "w" (minutes 5)) sample_world sample_table)
    (Err (InvalidInput "boom"))
    (world_of (claim_due_job ∅ "w" (minutes 5)) sample_world sample_table)
    (store_of (claim_due_job ∅ "w" (minutes 5)) sample_world sample_table)
    sample_table_ok (failing_handler_respects 7) sample_claim) as (f & _ & Hf & Hc & _);
    [discriminate|reflexivity|reflexivity|].
  exists f. exact (conj Hf Hc).
Defined.

Example worker_iteration_escape_keeps_lease_witness :
  value_of (worker_iteration escaping_handler (fun _ => mret tt) (fun _ => "boom"%string) 0
      ∅ "w") sample_world sample_table = Err (InvalidInput "boom").
Proof.
  destruct (worker_iteration_escape_keeps_lease escaping_handler (fun _ => mret tt)
    (fun _ => "boom"%string) 0 sample_table sample_world ∅ "w"
    (mkClaimedJob (mkJobId 7) (mkJobClaimId 40) PollUpdate JNull 0 5)
    (world_of (claim_due_job ∅ "w" (minutes 5)) sample_world sample_table)
    (store_of (claim_due_job ∅ "w" (minutes 5)) sample_world sample_table)
    (InvalidInput "boom")
    (world_of (claim_due_job ∅ "w" (minutes 5)) sample_world sample_table)
    (store_of (claim_due_job ∅ "w" (minutes 5)) sample_world sample_table)
    sample_table_ok (escaping_handler_respects 7) sample_claim) as (f & Hv & _);
    [discriminate|reflexivity|exact Hv].
Defined.
