(* ===== verification/Notifications.v ===== *)
(** Stored notifications: the insertion hooks of
    [crates/db/src/entity/local_notification.rs] (rolling groups before the row
    is saved, Web Push jobs after it), the unique indexes of the schema, and the
    notification policy of [crates/db/src/lib.rs]. *)
From S2P Require Import Prelude Core.
From S2P Require Jobs.

Inductive LocalNotificationType : Type :=
| Mention | Favourite | Follow | FollowRequest | Reblog | Status | Update
| Quote | QuotedUpdate | Poll | AdminReport.

#[export] Instance LocalNotificationType_eq_dec : EqDecision LocalNotificationType.
Proof. solve_decision. Defined.

Definition as_str (t : LocalNotificationType) : string :=
  match t with
  | Mention => "mention" | Favourite => "favourite" | Follow => "follow"
  | FollowRequest => "follow_request" | Reblog => "reblog" | Status => "status"
  | Update => "update" | Quote => "quote" | QuotedUpdate => "quoted_update"
  | Poll => "poll" | AdminReport => "admin.report"
  end%string.

Record LocalNotification := mkNotification {
  id : uuid;
  account_id : uuid;
  notification_type : LocalNotificationType;
  actor_account_id : option uuid;
  remote_actor_id : option uuid;
  status_id : option uuid;
  remote_status_id : option uuid;
  group_id : option uuid;
  filtered : bool;
  notification_request_id : option uuid;
  report_id : option uuid;
  created_at : time;
  dismissed_at : option time;
}.

(** A row of [local_notification_group_state]. *)
Record GroupState := mkGroupState {
  state_group_id : uuid;
  started_at : time;
  updated_at : time;
}.

(** (account_id, notification_type, target_kind, target_id). *)
Abbreviation group_key_columns := (uuid * string * string * uuid)%type.

Record Db := mkDb {
  notifications : gmap uuid LocalNotification;
  group_states : gmap group_key_columns GroupState;
  push_subscriptions : gmap uuid uuid;
  jobs : Jobs.table;
}.

#[export, refine] Instance jobs_part : Part Jobs.table Db :=
  {| get_part := jobs;
     put_part := fun j d => mkDb (notifications d) (group_states d) (push_subscriptions d) j |}.
Proof. all: by intros *; try destruct s. Defined.

Definition with_notifications (f : gmap uuid LocalNotification -> gmap uuid LocalNotification)
    (d : Db) : Db := mkDb (f (notifications d)) (group_states d) (push_subscriptions d) (jobs d).
Definition with_group_states (f : gmap group_key_columns GroupState -> gmap group_key_columns GroupState)
    (d : Db) : Db := mkDb (notifications d) (f (group_states d)) (push_subscriptions d) (jobs d).

(** * Insertion *)

(** What a notification of a groupable type is grouped by. *)
Definition group_target (n : LocalNotification) : option (string * uuid) :=
  match notification_type n with
  | Follow => Some ("account"%string, account_id n)
  | Favourite | Reblog =>
      match status_id n with
      | Some s => Some ("local_status"%string, s)
      | None => (fun s => ("remote_status"%string, s)) <$> remote_status_id n
      end
  | _ => None
  end.

Definition group_window : duration := seconds (12 * 60 * 60).

(** INSERT .. ON CONFLICT DO UPDATE .. RETURNING group_id: a group that started
    less than twelve hours ago is continued, an older one is replaced. *)
Definition upsert_group_state (key : group_key_columns) (candidate : uuid) (now : time) :
    Op Db uuid :=
  d ← gets (fun d => d);
  let row := match group_states d !! key with
             | Some g =>
                 if now - group_window <? started_at g
                 then mkGroupState (state_group_id g) (started_at g) now
                 else mkGroupState candidate now now
             | None => mkGroupState candidate now now
             end in
  modify (with_group_states <[key := row]>);;
  mret (state_group_id row).

Definition with_group_id (g : option uuid) (n : LocalNotification) : LocalNotification :=
  mkNotification (id n) (account_id n) (notification_type n) (actor_account_id n)
    (remote_actor_id n) (status_id n) (remote_status_id n) g (filtered n)
    (notification_request_id n) (report_id n) (created_at n) (dismissed_at n).

Definition before_save (n : LocalNotification) : Op Db LocalNotification :=
  match group_target n with
  | None => mret n
  | Some (kind, target) =>
      candidate ← uuid_now_v7;
      now ← now_utc;
      g ← upsert_group_state (account_id n, as_str (notification_type n), kind, target)
            candidate now;
      mret (with_group_id (Some g) n)
  end.

Section Insert.
Context (uuid_text : uuid -> string).

(** One [web_push_delivery] job per subscription of the recipient, unless the
    policy filtered the notification; a duplicate active job is left alone. *)
Definition enqueue_push (n : LocalNotification) (subscription : uuid) : Op Db unit :=
  job_id ← uuid_now_v7;
  now ← now_utc;
  d ← gets (fun d => d);
  let key := (uuid_text (id n) +:+ ":" +:+ uuid_text subscription)%string in
  match rows_where (Jobs.active_duplicate Jobs.WebPushDelivery (Some key)) (jobs d) with
  | _ :: _ => mret tt
  | [] =>
      match jobs d !! job_id with
      | Some _ => throw (Database (UniqueViolation "job_pkey"))
      | None =>
          modify (put_part (<[job_id := Jobs.mkJob job_id Jobs.WebPushDelivery
            (JObject [("notification_id"%string, JUuid (id n));
                      ("subscription_id"%string, JUuid subscription)])
            (Some key) now 0 None None None None now None None]> (jobs d)))
      end
  end.

Definition subscriptions_of (account : uuid) (d : Db) : list uuid :=
  fst <$> List.filter (fun kv => (kv.2 =? account)%N) (map_to_list (push_subscriptions d)).

Definition after_save (n : LocalNotification) : Op Db unit :=
  if filtered n then mret tt
  else
    subscriptions ← gets (subscriptions_of (account_id n));
    for_each subscriptions (enqueue_push n).

(** The unique indexes on events; a null column never conflicts. *)
Definition null_conflict (a b : option uuid) : bool :=
  match a, b with Some x, Some y => (x =? y)%N | _, _ => false end.

Definition same_event (n m : LocalNotification) : bool :=
  (account_id n =? account_id m)%N
  && bool_decide (notification_type n = notification_type m)
  && negb (bool_decide (notification_type n = AdminReport))
  && null_conflict (actor_account_id n) (actor_account_id m)
  && (default 0%N (status_id n) =? default 0%N (status_id m))%N.

Definition same_remote_event (n m : LocalNotification) : bool :=
  (account_id n =? account_id m)%N
  && bool_decide (notification_type n = notification_type m)
  && null_conflict (remote_actor_id n) (remote_actor_id m)
  && (null_conflict (remote_status_id n) (remote_status_id m)
      || bool_decide (status_id n = None /\ remote_status_id n = None /\
                      status_id m = None /\ remote_status_id m = None)
         && negb (bool_decide (notification_type n = AdminReport))).

Definition violated_index (n : LocalNotification) (t : gmap uuid LocalNotification) :
    option string :=
  if bool_decide (is_Some (t !! id n)) then Some "local_notification_pkey"%string
  else if negb (bool_decide (rows_where (same_event n) t = []))
  then Some "local_notification_unique_event_idx"%string
  else if negb (bool_decide (rows_where (same_remote_event n) t = []))
  then Some "local_notification_remote_actor_event_idx"%string
  else None.

(** [ActiveModel::insert]: the hooks around the INSERT. *)
Definition insert (n : LocalNotification) : Op Db LocalNotification :=
  n ← before_save n;
  d ← gets (fun d => d);
  match violated_index n (notifications d) with
  | Some index => throw (Database (UniqueViolation index))
  | None =>
      modify (with_notifications <[id n := n]>);;
      after_save n;;
      mret n
  end.
End Insert.

(** * Lemmas *)

Definition unique_error (e : RoostyError) : Prop :=
  exists index, e = Database (UniqueViolation index).

Section InsertLemmas.
Context (uuid_text : uuid -> string).

Lemma keeps_notifications_push n s : keeps notifications (enqueue_push uuid_text n s).
Proof.
  unfold enqueue_push. solve_keeps.
Qed.

Lemma keeps_notifications_after_save n : keeps notifications (after_save uuid_text n).
Proof. unfold after_save. solve_keeps. Qed.

Lemma enqueue_push_error n s w d e :
  value_of (enqueue_push uuid_text n s) w d = Err e -> unique_error e.
Proof.
  unfold enqueue_push. run_unfold. simpl.
  destruct (rows_where _ _); [|done]. destruct (_ !! _); [|done].
  intros [= <-]. by eexists.
Qed.

Lemma after_save_error n w d e :
  value_of (after_save uuid_text n) w d = Err e -> unique_error e.
Proof.
  unfold after_save. destruct (filtered n); [done|]. run_unfold. simpl.
  generalize (subscriptions_of (account_id n) d). intros subs. revert w d.
  induction subs as [|s subs IH]; intros w d; simpl; [done|]. run_unfold.
  pose proof (enqueue_push_error n s w d) as Hp. unfold value_of in Hp.
  destruct (enqueue_push uuid_text n s w d) as [[[u|e'] w'] d'] eqn:Hrun; simpl in *.
  - apply IH.
  - intros [= <-]. by apply Hp.
Qed.

(** Inserting a notification of an ungrouped type either violates a unique
    index or stores exactly the row that was passed. *)
Lemma insert_ungrouped n w d :
  group_target n = None ->
  match insert uuid_text n w d with
  | (Err e, _, _) => unique_error e
  | (Ok n', _, d') =>
      n' = n /\ violated_index n (notifications d) = None /\
      notifications d' = <[id n := n]> (notifications d)
  end.
Proof.
  intros Ht. unfold insert, before_save. rewrite Ht. run_unfold.
  destruct (violated_index n (notifications d)) eqn:Hv; [by eexists|]. simpl.
  pose proof (after_save_error n w (with_notifications <[id n:=n]> d)) as He.
  pose proof (keeps_notifications_after_save n w (with_notifications <[id n:=n]> d)) as Hk.
  unfold value_of, store_of in *.
  destruct (after_save uuid_text n w _) as [[[u|e] w'] d']; simpl in *; [done|by apply He].
Qed.
End InsertLemmas.

Lemma violated_index_same_event n m t k :
  t !! k = Some m -> same_event n m = true -> is_Some (violated_index n t).
Proof.
  intros Hk Hs. unfold violated_index.
  case_bool_decide; [by eexists|].
  rewrite (bool_decide_eq_false_2 (rows_where (same_event n) t = [])); [by eexists|].
  rewrite rows_where_nil. intros Hall. specialize (Hall _ _ Hk). congruence.
Qed.
