(* ===== verification/Polls.v ===== *)
(** Polls ([crates/db/src/polls.rs] and the response projection of
    [crates/server/src/polls.rs]): validation, creation, voting under the poll
    lock, edits, remote refreshes and expiry.

    Every operation runs inside the caller's transaction, which the exclusive
    row lock makes serial per poll.  The tables carry the foreign keys of
    [m20260701_000077_create_polls.rs]: deleting a poll deletes its options, and
    deleting an option deletes the votes for it.  [votes_count] and
    [voters_count] are bigints that no reachable tally overflows. *)
From stdpp Require Import pretty.
From S2P Require Import Prelude Core Text.
From S2P Require Jobs Notifications.

Definition MIN_POLL_EXPIRATION_SECONDS : Z := 300.
Definition MAX_POLL_EXPIRATION_SECONDS : Z := 2629746.
Definition MAX_POLL_OPTIONS : nat := 4.
Definition MAX_POLL_OPTION_GRAPHEMES : Z := 50.

Inductive PollStatus : Type :=
| Local (id : StatusId)
| Remote (id : StatusId).

Record PollOption := mkPollOption {
  position : Z;
  title : text;
  votes_count : Z;
}.

Record StatusPoll := mkStatusPoll {
  poll_uuid : uuid;
  status : PollStatus;
  multiple : bool;
  hide_totals : bool;
  expires_at : option time;
  closed_at : option time;
  voters_count : option Z;
  options : list PollOption;
  updated_at : time;
}.

Record NewStatusPoll := mkNewStatusPoll {
  new_options : list text;
  expires_in : Z;
  new_multiple : bool;
  new_hide_totals : bool;
}.

Record RemoteStatusPoll := mkRemoteStatusPoll {
  remote_options : list (text * Z);
  remote_multiple : bool;
  remote_expires_at : option time;
  remote_closed_at : option time;
  remote_voters_count : option Z;
}.

Record PollViewerState := mkPollViewerState {
  voted : bool;
  own_votes : list Z;
}.

Inductive PollVoteError : Type :=
| NotFound
| Expired
| AlreadyVoted
| InvalidChoice
| MultipleChoices
| VoteDatabase (error : RoostyError)
| VoteSeaOrm (error : DbErr).

(** * Tables *)

Record PollRow := mkPollRow {
  row_id : uuid;
  local_status_id : option uuid;
  remote_status_id : option uuid;
  row_multiple : bool;
  row_hide_totals : bool;
  row_expires_at : option time;
  row_closed_at : option time;
  notifications_sent_at : option time;
  row_voters_count : option Z;
  row_created_at : time;
  row_updated_at : time;
}.

Record OptionRow := mkOptionRow {
  option_poll : uuid;
  option_position : Z;
  option_title : text;
  option_votes : Z;
}.

Record VoteRow := mkVoteRow {
  vote_id : uuid;
  vote_poll : uuid;
  choice_position : Z;
  vote_local_account : option uuid;
  vote_remote_actor : option uuid;
  activitypub_id : option string;
  vote_created_at : time;
}.

Record ScheduledPollRow := mkScheduledPollRow {
  scheduled_multiple : bool;
  scheduled_hide_totals : bool;
  scheduled_expires_in : Z;
}.

(** The statuses are kept by author; only their existence and author matter. *)
Record Db := mkDb {
  polls : gmap uuid PollRow;
  poll_options : gmap (uuid * Z) OptionRow;
  votes : gmap uuid VoteRow;
  scheduled_polls : gmap uuid ScheduledPollRow;
  scheduled_options : gmap (uuid * Z) text;
  local_statuses : gmap uuid uuid;
  remote_statuses : gmap uuid uuid;
  notification_db : Notifications.Db;
}.

#[export, refine] Instance notifications_part : Part Notifications.Db Db :=
  {| get_part := notification_db;
     put_part := fun n d => mkDb (polls d) (poll_options d) (votes d) (scheduled_polls d)
       (scheduled_options d) (local_statuses d) (remote_statuses d) n |}.
Proof. all: by intros *; try destruct s. Defined.

#[export, refine] Instance jobs_part : Part Jobs.table Db :=
  {| get_part := fun d => Notifications.jobs (notification_db d);
     put_part := fun j d =>
       put_part (put_part (Part := Notifications.jobs_part) j (notification_db d)) d |}.
Proof. all: intros; try destruct s as [? ? ? ? ? ? ? []]; reflexivity. Defined.

Definition with_polls (f : gmap uuid PollRow -> gmap uuid PollRow) (d : Db) : Db :=
  mkDb (f (polls d)) (poll_options d) (votes d) (scheduled_polls d) (scheduled_options d)
    (local_statuses d) (remote_statuses d) (notification_db d).
Definition with_options (f : gmap (uuid * Z) OptionRow -> gmap (uuid * Z) OptionRow)
    (d : Db) : Db :=
  mkDb (polls d) (f (poll_options d)) (votes d) (scheduled_polls d) (scheduled_options d)
    (local_statuses d) (remote_statuses d) (notification_db d).
Definition with_votes (f : gmap uuid VoteRow -> gmap uuid VoteRow) (d : Db) : Db :=
  mkDb (polls d) (poll_options d) (f (votes d)) (scheduled_polls d) (scheduled_options d)
    (local_statuses d) (remote_statuses d) (notification_db d).
Definition with_scheduled
    (f : gmap uuid ScheduledPollRow -> gmap uuid ScheduledPollRow)
    (g : gmap (uuid * Z) text -> gmap (uuid * Z) text) (d : Db) : Db :=
  mkDb (polls d) (poll_options d) (votes d) (f (scheduled_polls d)) (g (scheduled_options d))
    (local_statuses d) (remote_statuses d) (notification_db d).

Definition of_poll (poll : uuid) (v : VoteRow) : bool := (vote_poll v =? poll)%N.
Definition option_of_poll (poll : uuid) (o : OptionRow) : bool := (option_poll o =? poll)%N.

(** DELETE FROM status_poll_vote WHERE poll_id = $1. *)
Definition delete_votes (poll : uuid) (d : Db) : Db :=
  with_votes (delete_where (of_poll poll)) d.

(** DELETE FROM status_poll_option WHERE poll_id = $1, which deletes the votes
    that reference those options. *)
Definition delete_options (poll : uuid) (d : Db) : Db :=
  with_votes (delete_where (fun v => of_poll poll v
                && bool_decide (is_Some (poll_options d !! (poll, choice_position v)))))
    (with_options (delete_where (option_of_poll poll)) d).

(** [Model::delete] on a poll, with its cascades. *)
Definition delete_poll (poll : uuid) (d : Db) : Db :=
  with_polls (delete poll) (delete_votes poll (delete_options poll d)).

(** [poll.expired(now)], [poll.votes_count()]. *)
Definition expired (poll : StatusPoll) (now : time) : bool :=
  match closed_at poll with Some _ => true | None => false end
  || match expires_at poll with Some at_ => at_ <=? now | None => false end.

Definition total_votes_count (poll : StatusPoll) : Z :=
  foldr (fun o n => votes_count o + n) 0 (options poll).

(** * Operations *)

Definition to_i32 (n : Z) : Z := if n <? 2147483648 then n else n - 4294967296.

Section Operations.
(** Grapheme segmentation and UUID formatting are library functions. *)
Context (graphemes : text -> Z) (uuid_text : uuid -> string).

Definition validate_poll (input : NewStatusPoll) : result unit RoostyError :=
  let n := length (new_options input) in
  if negb ((2 <=? n)%nat && (n <=? MAX_POLL_OPTIONS)%nat) then
    Err (InvalidInput "polls require between 2 and 4 options")
  else if negb ((MIN_POLL_EXPIRATION_SECONDS <=? expires_in input)
                && (expires_in input <=? MAX_POLL_EXPIRATION_SECONDS)) then
    Err (InvalidInput "poll expiration must be between 300 and 2629746 seconds")
  else
    let normalized := trim <$> new_options input in
    if existsb (fun o => bool_decide (o = []) || (MAX_POLL_OPTION_GRAPHEMES <? graphemes o))
         normalized then
      Err (InvalidInput "poll options must contain between 1 and 50 characters")
    else
      let unique := dedup (order_by text_le normalized) in
      if negb (length unique =? length normalized)%nat then
        Err (InvalidInput "poll options must be unique")
      else Ok tt.

Definition insert_option (poll : uuid) (o : nat * (text * Z)) : Op Db unit :=
  let '(position, (title, votes)) := o in
  d ← gets (fun d => d);
  match poll_options d !! (poll, Z.of_nat position) with
  | Some _ => throw (Database (UniqueViolation "status_poll_option_pkey"))
  | None =>
      modify (with_options <[(poll, Z.of_nat position) :=
                mkOptionRow poll (Z.of_nat position) (trim title) votes]>)
  end.

Definition replace_options (poll : uuid) (opts : list (text * Z)) : Op Db unit :=
  modify (delete_options poll);;
  for_each (imap (fun i o => (i, o)) opts) (insert_option poll).

Definition enqueue_poll_expiration (poll : uuid) (run_after : time) : Op Db unit :=
  zoom (Jobs.enqueue_job_in_transaction
    (Jobs.mkNewJob Jobs.PollExpiration (JObject [("poll_id"%string, JUuid poll)])
       (Some (uuid_text poll +:+ ":" +:+ pretty run_after)%string) run_after));;
  mret tt.

(** The second statement is [UPDATE job SET run_after = LEAST(run_after, $1)]
    on the active job of the key. *)
Definition bring_forward (key : string) (run_after : time) (j : Jobs.Job) : Jobs.Job :=
  Jobs.mkJob (Jobs.id j) (Jobs.kind j) (Jobs.payload j) (Jobs.deduplication_key j)
    (Z.min (Jobs.run_after j) run_after) (Jobs.attempts j) (Jobs.locked_at j)
    (Jobs.locked_by j) (Jobs.claim_id j) (Jobs.last_error j) (Jobs.created_at j)
    (Jobs.completed_at j) (Jobs.permanently_failed_at j).

Definition enqueue_poll_update (poll : uuid) (run_after : time) : Op Db unit :=
  let key := uuid_text poll in
  zoom (Jobs.enqueue_job_in_transaction
    (Jobs.mkNewJob Jobs.PollUpdate (JObject [("poll_id"%string, JUuid poll)])
       (Some key) run_after));;
  zoom (modify (update_where (Jobs.active_duplicate Jobs.PollUpdate (Some key))
                  (bring_forward key run_after)) : Op Jobs.table unit).

(** ORDER BY position. *)
Definition options_in_order (poll : uuid) (d : Db) : list OptionRow :=
  order_by (fun a b => option_position a <=? option_position b)
    (rows_where (option_of_poll poll) (poll_options d)).

Definition hydrate_poll (model : PollRow) : Op Db StatusPoll :=
  d ← gets (fun d => d);
  let opts := (fun o => mkPollOption (option_position o) (option_title o) (option_votes o))
                <$> options_in_order (row_id model) d in
  st ← (match local_status_id model, remote_status_id model with
        | Some id, None => mret (Local (mkStatusId id))
        | None, Some id => mret (Remote (mkStatusId id))
        | _, _ => throw (InvalidInput "stored poll status reference is invalid")
        end);
  mret (mkStatusPoll (row_id model) st (row_multiple model) (row_hide_totals model)
          (row_expires_at model) (row_closed_at model) (row_voters_count model)
          opts (row_updated_at model)).

Definition find_poll_by_id (poll : uuid) : Op Db (option StatusPoll) :=
  d ← gets (fun d => d);
  match polls d !! poll with
  | None => mret None
  | Some model => hydrate_poll model ≫= fun p => mret (Some p)
  end.

Definition has_status (st : PollStatus) (p : PollRow) : bool :=
  match st with
  | Local s => bool_decide (local_status_id p = Some (status_uuid s))
  | Remote s => bool_decide (remote_status_id p = Some (status_uuid s))
  end.

Definition find_poll_for_status (st : PollStatus) : Op Db (option StatusPoll) :=
  d ← gets (fun d => d);
  match rows_where (has_status st) (polls d) with
  | [] => mret None
  | model :: _ => hydrate_poll model ≫= fun p => mret (Some p)
  end.

(** INSERT INTO status_poll with the keys, references and checks of its table. *)
Definition insert_poll (p : PollRow) : Op Db unit :=
  d ← gets (fun d => d);
  if bool_decide (is_Some (polls d !! row_id p)) then
    throw (Database (UniqueViolation "status_poll_pkey"))
  else
    match local_status_id p, remote_status_id p with
    | Some s, None =>
        if bool_decide (local_statuses d !! s = None) then
          throw (Database (ForeignKeyViolation "status_poll_local_status_id_fkey"))
        else if negb (bool_decide (rows_where (has_status (Local (mkStatusId s))) (polls d) = [])) then
          throw (Database (UniqueViolation "status_poll_local_status_id_key"))
        else if bool_decide (row_expires_at p = None) then
          throw (Database (CheckViolation "status_poll_check1"))
        else modify (with_polls <[row_id p := p]>)
    | None, Some s =>
        if bool_decide (remote_statuses d !! s = None) then
          throw (Database (ForeignKeyViolation "status_poll_remote_status_id_fkey"))
        else if negb (bool_decide (rows_where (has_status (Remote (mkStatusId s))) (polls d) = [])) then
          throw (Database (UniqueViolation "status_poll_remote_status_id_key"))
        else modify (with_polls <[row_id p := p]>)
    | _, _ => throw (Database (CheckViolation "status_poll_check"))
    end.

Definition create_local_poll (status_id : StatusId) (input : NewStatusPoll) :
    Op Db StatusPoll :=
  lift_result (validate_poll input);;
  now ← now_utc;
  let expires := now + seconds (expires_in input) in
  poll_id ← uuid_now_v7;
  insert_poll (mkPollRow poll_id (Some (status_uuid status_id)) None (new_multiple input)
                 (new_hide_totals input) (Some expires) None None (Some 0) now now);;
  replace_options poll_id ((fun title => (title, 0)) <$> new_options input);;
  enqueue_poll_expiration poll_id expires;;
  found ← find_poll_by_id poll_id;
  lift_option (InvalidInput "created poll was not found") found.

Definition insert_scheduled_option (scheduled : uuid) (o : nat * text) : Op Db unit :=
  d ← gets (fun d => d);
  match scheduled_options d !! (scheduled, Z.of_nat o.1) with
  | Some _ => throw (Database (UniqueViolation "scheduled_status_poll_option_pkey"))
  | None => modify (with_scheduled (fun t => t) <[(scheduled, Z.of_nat o.1) := trim o.2]>)
  end.

Definition create_scheduled_poll (scheduled : uuid) (input : NewStatusPoll) : Op Db unit :=
  lift_result (validate_poll input);;
  d ← gets (fun d => d);
  match scheduled_polls d !! scheduled with
  | Some _ => throw (Database (UniqueViolation "scheduled_status_poll_pkey"))
  | None =>
      modify (with_scheduled <[scheduled := mkScheduledPollRow (new_multiple input)
                (new_hide_totals input) (expires_in input)]> (fun t => t));;
      for_each (imap (fun i title => (i, title)) (new_options input))
        (insert_scheduled_option scheduled)
  end.

Definition scheduled_poll (scheduled : uuid) : Op Db (option NewStatusPoll) :=
  d ← gets (fun d => d);
  match scheduled_polls d !! scheduled with
  | None => mret None
  | Some poll =>
      let rows := List.filter (fun kv : (uuid * Z) * text => (kv.1.1 =? scheduled)%N)
                    (map_to_list (scheduled_options d)) in
      let titles := snd <$> order_by (fun a b => a.1.2 <=? b.1.2) rows in
      mret (Some (mkNewStatusPoll titles (scheduled_expires_in poll)
                    (scheduled_multiple poll) (scheduled_hide_totals poll)))
  end.

(** * Voting *)

Definition vote_of (poll : uuid) (local remote : option AccountId) (v : VoteRow) : bool :=
  of_poll poll v
  && match local, remote with
     | Some a, _ => bool_decide (vote_local_account v = Some (account_uuid a))
     | None, Some a => bool_decide (vote_remote_actor v = Some (account_uuid a))
     | None, None => false
     end.

(** The unique indexes of [status_poll_vote] and its option reference. *)
Definition vote_conflict (v w : VoteRow) : bool :=
  (of_poll (vote_poll v) w && (choice_position w =? choice_position v)
   && (Notifications.null_conflict (vote_local_account v) (vote_local_account w)
       || Notifications.null_conflict (vote_remote_actor v) (vote_remote_actor w)))
  || match activitypub_id v, activitypub_id w with
     | Some a, Some b => bool_decide (a = b)
     | _, _ => false
     end.

Definition insert_vote (v : VoteRow) : M Db PollVoteError unit :=
  d ← gets (fun d => d);
  if bool_decide (is_Some (votes d !! vote_id v)) then
    throw (VoteSeaOrm (UniqueViolation "status_poll_vote_pkey"))
  else if negb (bool_decide (rows_where (vote_conflict v) (votes d) = [])) then
    throw (VoteSeaOrm (UniqueViolation "status_poll_vote_choice_idx"))
  else if bool_decide (poll_options d !! (vote_poll v, choice_position v) = None) then
    throw (VoteSeaOrm (ForeignKeyViolation "status_poll_vote_poll_id_choice_position_fkey"))
  else modify (with_votes <[vote_id v := v]>).

Definition count_vote (o : OptionRow) : OptionRow :=
  mkOptionRow (option_poll o) (option_position o) (option_title o) (option_votes o + 1).

(** The body of the loop over the choices. *)
Definition cast_choice (poll : uuid) (local remote : option AccountId)
    (ap_id : option string) (choice : Z) : M Db PollVoteError unit :=
  id ← uuid_now_v7;
  now ← now_utc;
  insert_vote (mkVoteRow id poll (to_i32 choice) (account_uuid <$> local)
                 (account_uuid <$> remote) ap_id now);;
  d ← gets (fun d => d);
  row ← lift_option InvalidChoice (poll_options d !! (poll, to_i32 choice));
  modify (with_options <[(poll, to_i32 choice) := count_vote row]>).

Definition voted_row (first : bool) (now : time) (p : PollRow) : PollRow :=
  mkPollRow (row_id p) (local_status_id p) (remote_status_id p) (row_multiple p)
    (row_hide_totals p) (row_expires_at p) (row_closed_at p) (notifications_sent_at p)
    (if first then (fun n => n + 1) <$> row_voters_count p else row_voters_count p)
    (row_created_at p) now.

Definition is_closed (now : time) (p : PollRow) : bool :=
  match row_closed_at p with Some _ => true | None => false end
  || match row_expires_at p with Some at_ => at_ <=? now | None => false end.

Definition vote (poll : uuid) (local remote : option AccountId) (choices : list Z)
    (ap_id : option string) : M Db PollVoteError StatusPoll :=
  d ← gets (fun d => d);
  model ← lift_option NotFound (polls d !! poll);
  now ← now_utc;
  if is_closed now model then throw Expired else
  let choices := dedup (order_by Z.leb choices) in
  if bool_decide (choices = []) then throw InvalidChoice else
  if negb (row_multiple model) && negb (length choices =? 1)%nat then throw MultipleChoices else
  match local, remote with
  | None, None | Some _, Some _ =>
      throw (VoteDatabase (InvalidInput "poll voter identity is invalid"))
  | _, _ =>
      let existing := rows_where (vote_of poll local remote) (votes d) in
      if negb (bool_decide (existing = []))
         && (bool_decide (is_Some local) || negb (row_multiple model))
      then throw AlreadyVoted else
      let opts := rows_where (option_of_poll poll) (poll_options d) in
      if existsb (fun c => negb (existsb (fun o => option_position o =? to_i32 c) opts)) choices
      then throw InvalidChoice else
      if existsb (fun c => existsb (fun v => choice_position v =? to_i32 c) existing) choices
      then throw AlreadyVoted else
      for_each choices (cast_choice poll local remote ap_id);;
      now ← now_utc;
      d ← gets (fun d => d);
      (if bool_decide (polls d !! poll = None) then throw (VoteSeaOrm RecordNotUpdated)
       else modify (with_polls <[poll := voted_row (bool_decide (existing = [])) now model]>));;
      found ← map_err VoteDatabase (find_poll_by_id poll);
      lift_option NotFound found
  end.

Definition vote_in_poll (poll : uuid) (account : AccountId) (choices : list Z) :
    M Db PollVoteError StatusPoll := vote poll (Some account) None choices None.

Definition record_remote_poll_vote (poll : uuid) (actor : AccountId) (choice : Z)
    (ap_id : string) : M Db PollVoteError StatusPoll :=
  vote poll None (Some actor) [choice] (Some ap_id).

(** * Edits and remote refreshes *)

(** [active.update(txn)] on the poll row. *)
Definition update_poll (p : PollRow) : Op Db unit :=
  d ← gets (fun d => d);
  if bool_decide (polls d !! row_id p = None) then throw (Database RecordNotUpdated)
  else modify (with_polls <[row_id p := p]>).

Definition reopened_row (input : NewStatusPoll) (expires now : time) (changed : bool)
    (p : PollRow) : PollRow :=
  mkPollRow (row_id p) (local_status_id p) (remote_status_id p) (new_multiple input)
    (new_hide_totals input) (Some expires) None None
    (if changed then Some 0 else row_voters_count p) (row_created_at p) now.

Definition replace_local_poll (status_id : StatusId) (input : option NewStatusPoll) :
    Op Db (option StatusPoll) :=
  d ← gets (fun d => d);
  let existing := head (rows_where (has_status (Local status_id)) (polls d)) in
  match input with
  | None =>
      match existing with
      | Some p => modify (delete_poll (row_id p));; mret None
      | None => mret None
      end
  | Some input =>
      lift_result (validate_poll input);;
      now ← now_utc;
      let expires := now + seconds (expires_in input) in
      match existing with
      | None => created ← create_local_poll status_id input; mret (Some created)
      | Some p =>
          let current := option_title <$> options_in_order (row_id p) d in
          let changed := negb (bool_decide (row_multiple p = new_multiple input))
                         || negb (bool_decide (current = trim <$> new_options input)) in
          (if changed then
             modify (delete_votes (row_id p));;
             replace_options (row_id p) ((fun title => (title, 0)) <$> new_options input)
           else mret tt);;
          update_poll (reopened_row input expires now changed p);;
          enqueue_poll_expiration (row_id p) expires;;
          find_poll_by_id (row_id p)
      end
  end.

Definition refreshed_row (input : RemoteStatusPoll) (now : time) (p : PollRow) : PollRow :=
  mkPollRow (row_id p) (local_status_id p) (remote_status_id p) (remote_multiple input)
    (row_hide_totals p) (remote_expires_at input) (remote_closed_at input)
    (notifications_sent_at p) (remote_voters_count input) (row_created_at p) now.

(** [count as i64]. *)
Definition as_i64 (n : Z) : Z := if n <? 9223372036854775808 then n else n - 18446744073709551616.

(** The CHECKs of [voters_count] and [votes_count] on the cast counts. *)
Definition counts_stored (input : RemoteStatusPoll) : bool :=
  forallb (fun n => 0 <=? as_i64 n)
    (match remote_voters_count input with Some n => [n] | None => [] end ++ (snd <$> remote_options input)).

(** A count of 2^63 or more turns negative in the cast: the statement that
    writes it fails its CHECK, and the transaction with it. *)
Definition upsert_remote_poll (status_id : StatusId) (input : RemoteStatusPoll) :
    Op Db StatusPoll :=
  let n := length (remote_options input) in
  if ((n <? 2)%nat || (500 <? n)%nat) then
    throw (InvalidInput "remote poll option count is invalid")
  else
    now ← now_utc;
    d ← gets (fun d => d);
    when (negb (counts_stored input)) (throw (Database (CheckViolation "status_poll_count_check")));;
    poll_id ← (match head (rows_where (has_status (Remote status_id)) (polls d)) with
      | Some p =>
          let current := option_title <$> options_in_order (row_id p) d in
          let changed := negb (bool_decide (row_multiple p = remote_multiple input))
                         || negb (bool_decide (current = fst <$> remote_options input)) in
          (if changed then modify (delete_votes (row_id p)) else mret tt);;
          replace_options (row_id p) (remote_options input);;
          update_poll (refreshed_row input now p);;
          mret (row_id p)
      | None =>
          id ← uuid_now_v7;
          insert_poll (mkPollRow id None (Some (status_uuid status_id))
            (remote_multiple input) false (remote_expires_at input)
            (remote_closed_at input) None (remote_voters_count input) now now);;
          replace_options id (remote_options input);;
          mret id
      end);
    (match remote_closed_at input, remote_expires_at input with
     | Some at_, _ | None, Some at_ => enqueue_poll_expiration poll_id (at_ + minutes 5)
     | None, None => mret tt
     end);;
    found ← find_poll_by_id poll_id;
    lift_option (InvalidInput "remote poll was not found") found.

(** * Expiry *)

Record PollExpiration := mkPollExpiration {
  expiration_poll : StatusPoll;
  expiration_notifications : list Notifications.LocalNotification;
  newly_expired : bool;
  next_attempt_at : option time;
}.

Definition or_else {A} (a b : option A) : option A :=
  match a with Some x => Some x | None => b end.

Definition due_time (p : PollRow) : option time := or_else (row_closed_at p) (row_expires_at p).

Definition poll_notification (id recipient : uuid)
    (actor remote_actor st remote_st : option uuid) (now : time) :
    Notifications.LocalNotification :=
  Notifications.mkNotification id recipient Notifications.Poll actor remote_actor st
    remote_st None false None None now None.

Definition expired_row (now : time) (p : PollRow) : PollRow :=
  mkPollRow (row_id p) (local_status_id p) (remote_status_id p) (row_multiple p)
    (row_hide_totals p) (row_expires_at p)
    (or_else (or_else (row_closed_at p) (due_time p)) (Some now)) (Some now)
    (row_voters_count p) (row_created_at p) now.

(** The local voters, sorted and without repetition. *)
Definition local_voters (poll : uuid) (d : Db) : list uuid :=
  omap vote_local_account (rows_where (of_poll poll) (votes d)).

(** Who caused the notifications, which status they refer to, and whether the
    author is a recipient. *)
Definition expiry_reference (model : PollRow) :
    Op Db (option uuid * option uuid * option uuid * option uuid * list uuid) :=
  d ← gets (fun d => d);
  match local_status_id model, remote_status_id model with
  | Some s, None =>
      author ← lift_option (InvalidInput "poll status is missing") (local_statuses d !! s);
      mret (Some author, None, Some s, None, [author])
  | None, Some s =>
      actor ← lift_option (InvalidInput "poll status is missing") (remote_statuses d !! s);
      mret (None, Some actor, None, Some s, [])
  | _, _ => throw (InvalidInput "stored poll status reference is invalid")
  end.

(** One stored notification of the loop over the recipients. *)
Definition send_expiry (actor remote_actor st remote_st : option uuid) (now : time)
    (recipient : uuid) : Op Db Notifications.LocalNotification :=
  id ← uuid_now_v7;
  zoom (Notifications.insert uuid_text
          (poll_notification id recipient actor remote_actor st remote_st now)).

Definition expire_due (model : PollRow) (now : time) : Op Db (option PollExpiration) :=
  if bool_decide (is_Some (notifications_sent_at model)) then
    p ← hydrate_poll model;
    mret (Some (mkPollExpiration p [] false None))
  else
    d ← gets (fun d => d);
    '(actor, remote_actor, st, remote_st, author) ← expiry_reference model;
    let recipients := dedup (order_by N.leb (local_voters (row_id model) d ++ author)) in
    sent ← collect recipients (send_expiry actor remote_actor st remote_st now);
    update_poll (expired_row now model);;
    found ← find_poll_by_id (row_id model);
    p ← lift_option (InvalidInput "expired poll was not found") found;
    mret (Some (mkPollExpiration p sent true None)).

Definition expire_poll (poll : uuid) : Op Db (option PollExpiration) :=
  d ← gets (fun d => d);
  match polls d !! poll with
  | None => mret None
  | Some model =>
      now ← now_utc;
      match due_time model with
      | Some due =>
          if now <? due then
            p ← hydrate_poll model;
            mret (Some (mkPollExpiration p [] false (Some due)))
          else expire_due model now
      | None => expire_due model now
      end
  end.

(** * Viewer state and responses *)

Definition poll_author (poll : uuid) (d : Db) : option uuid :=
  polls d !! poll ≫= fun p => local_status_id p ≫= fun s => local_statuses d !! s.

Definition viewer_state (d : Db) (poll : uuid) (account : AccountId) : PollViewerState :=
  let mine v := of_poll poll v
                && bool_decide (vote_local_account v = Some (account_uuid account)) in
  let own := dedup (choice_position <$>
               order_by (fun a b => choice_position a <=? choice_position b)
                 (rows_where mine (votes d))) in
  mkPollViewerState
    (bool_decide (poll_author poll d = Some (account_uuid account))
     || negb (bool_decide (own = []))) own.

Definition poll_viewer_state (poll : uuid) (account : AccountId) : Op Db PollViewerState :=
  gets (fun d => viewer_state d poll account).

Definition local_poll_remote_voter_ids (poll : uuid) : Op Db (list uuid) :=
  gets (fun d => dedup (order_by N.leb
          (omap vote_remote_actor (rows_where (of_poll poll) (votes d))))).

Record PollResponse := mkPollResponse {
  response_expires_at : option time;
  response_expired : bool;
  response_multiple : bool;
  response_votes_count : Z;
  response_voters_count : option Z;
  response_voted : option bool;
  response_own_votes : option (list Z);
  response_options : list (text * option Z);
}.

Definition poll_response_with_viewer (poll : StatusPoll) (viewer : option PollViewerState)
    (now : time) : PollResponse :=
  let over := expired poll now in
  let show_totals := over || negb (hide_totals poll) in
  mkPollResponse (expires_at poll) over (multiple poll) (total_votes_count poll)
    (voters_count poll) (voted <$> viewer) (own_votes <$> viewer)
    ((fun o => (title o, if (show_totals : bool) then Some (votes_count o) else None))
       <$> options poll).

End Operations.

(** * Validation *)

(** A poll is accepted exactly when it has two to four options, expires
    between 300 and 2629746 seconds from now, every trimmed option is non-empty
    and at most 50 graphemes long, and no two trimmed options are equal; the
    sorted and deduplicated copy the code compares lengths with decides that. *)
Theorem validate_poll_spec graphemes input :
  validate_poll graphemes input = Ok tt <->
  (2 <= length (new_options input) <= 4)%nat /\
  300 <= expires_in input <= 2629746 /\
  (forall o, o ∈ new_options input -> trim o <> [] /\ graphemes (trim o) <= 50) /\
  NoDup (trim <$> new_options input).
Proof.
  unfold validate_poll, MAX_POLL_OPTIONS, MIN_POLL_EXPIRATION_SECONDS,
    MAX_POLL_EXPIRATION_SECONDS, MAX_POLL_OPTION_GRAPHEMES.
  destruct (_ && _)%bool eqn:Hn; simpl; [|split; [done|]; intros ([? ?] & _);
    apply andb_false_iff in Hn as [Hn|Hn]; apply Nat.leb_gt in Hn; lia].
  apply andb_true_iff in Hn as [Hn1 Hn2]. apply Nat.leb_le in Hn1, Hn2.
  destruct (_ && _)%bool eqn:He; simpl; [|split; [done|]; intros (_ & [? ?] & _);
    apply andb_false_iff in He as [He|He]; apply Z.leb_gt in He; lia].
  boolp.
  destruct (existsb _ _) eqn:Hx.
  { split; [done|]. intros (_ & _ & Hall & _). apply existsb_exists in Hx as (t & Hin & Hbad).
    apply list_elem_of_In, list_elem_of_fmap in Hin as (o & -> & Hin).
    destruct (Hall o Hin) as [Hne Hle]. apply orb_true_iff in Hbad as [Hb|Hb]; boolp; [done|lia]. }
  assert (Hall : forall o, o ∈ new_options input -> trim o <> [] /\ graphemes (trim o) <= 50).
  { intros o Ho. assert (~ (bool_decide (trim o = []) || (50 <? graphemes (trim o)) = true)) as Hnot.
    { intros Hbad. enough (existsb (fun o => bool_decide (o = []) || (50 <? graphemes o))
        (trim <$> new_options input) = true) by congruence.
      apply existsb_exists. exists (trim o). split; [|done].
      apply list_elem_of_In, list_elem_of_fmap. eauto. }
    apply not_true_is_false in Hnot. boolp. split; [done|lia]. }
  destruct (_ =? _)%nat eqn:Hu; simpl.
  - apply Nat.eqb_eq in Hu.
    apply (sorted_dedup_length text_le text_le_total text_le_trans text_le_antisym) in Hu.
    split; [intros _|done]. split_and!; done || lia.
  - split; [done|]. intros (_ & _ & _ & Hnd). apply Nat.eqb_neq in Hu. exfalso. apply Hu.
    by apply (sorted_dedup_length text_le text_le_total text_le_trans text_le_antisym).
Qed.

(** * Tallies *)

(** Who cast a vote: a local account or a remote actor. *)
Definition voter (v : VoteRow) : option uuid * option uuid :=
  (vote_local_account v, vote_remote_actor v).

Definition votes_for (poll : uuid) (pos : Z) (v : VoteRow) : bool :=
  of_poll poll v && (choice_position v =? pos).

Definition voters (poll : uuid) (d : Db) : gset (option uuid * option uuid) :=
  list_to_set (voter <$> rows_where (of_poll poll) (votes d)).

(** The tables reference each other, and the stored count of every option of a
    local poll is the number of votes for it. *)
Record tables_ok (d : Db) : Prop := {
  poll_keys : forall k p, polls d !! k = Some p -> row_id p = k;
  option_keys : forall k o, poll_options d !! k = Some o ->
    (option_poll o, option_position o) = k;
  option_refs : forall k o, poll_options d !! k = Some o -> is_Some (polls d !! k.1);
  vote_refs : forall k v, votes d !! k = Some v ->
    is_Some (poll_options d !! (vote_poll v, choice_position v));
  vote_identity : forall k v, votes d !! k = Some v ->
    is_Some (vote_local_account v) <-> vote_remote_actor v = None;
  option_counts : forall k p pos o,
    polls d !! k = Some p -> is_Some (local_status_id p) ->
    poll_options d !! (k, pos) = Some o ->
    option_votes o = Z.of_nat (count_where (votes_for k pos) (votes d));
}.

(** The voter count of every local poll is the number of distinct voters. *)
Definition voters_ok (d : Db) : Prop := forall k p,
  polls d !! k = Some p -> is_Some (local_status_id p) ->
  row_voters_count p = Some (Z.of_nat (size (voters k d))).

Definition tally_ok (d : Db) : Prop := tables_ok d /\ voters_ok d.

Lemma voters_insert d k v poll :
  votes d !! k = None ->
  voters poll (with_votes <[k := v]> d) =
  if of_poll poll v then {[voter v]} ∪ voters poll d else voters poll d.
Proof.
  intros Hk. unfold voters. apply set_eq. intros x. simpl.
  rewrite elem_of_list_to_set, list_elem_of_fmap.
  setoid_rewrite (rows_where_insert_fresh (of_poll poll) _ _ v Hk).
  destruct (of_poll poll v);
    rewrite ?elem_of_union, ?elem_of_singleton, elem_of_list_to_set, list_elem_of_fmap;
    [|done].
  setoid_rewrite elem_of_cons. naive_solver.
Qed.

Lemma elem_of_voters x poll d :
  x ∈ voters poll d <->
  exists k v, votes d !! k = Some v /\ vote_poll v = poll /\ voter v = x.
Proof.
  unfold voters. rewrite elem_of_list_to_set, list_elem_of_fmap.
  setoid_rewrite elem_of_rows_where. unfold of_poll. setoid_rewrite N.eqb_eq. naive_solver.
Qed.

(** What a successful [cast_choice] did. *)
Lemma cast_choice_inv poll l r ap c w d w' d' :
  cast_choice poll l r ap c w d = (Ok tt, w', d') ->
  exists k v row,
    votes d !! k = None /\ vote_id v = k /\ vote_poll v = poll /\ choice_position v = to_i32 c /\
    voter v = (account_uuid <$> l, account_uuid <$> r) /\
    poll_options d !! (poll, to_i32 c) = Some row /\
    d' = with_options <[(poll, to_i32 c) := count_vote row]> (with_votes <[k := v]> d).
Proof.
  unfold cast_choice, insert_vote. run_unfold. simpl.
  destruct (bool_decide (is_Some _)) eqn:Hk; [done|]. apply bool_decide_eq_false in Hk.
  destruct (negb _) eqn:Hc; [done|].
  destruct (bool_decide (poll_options d !! _ = None)) eqn:Ho; [done|]. simpl.
  destruct (poll_options d !! (poll, to_i32 c)) as [row|] eqn:Hrow; [|done].
  intros [= _ <-]. apply eq_None_not_Some in Hk.
  exists (w_uuid_source w (w_uuids w)),
    (mkVoteRow (w_uuid_source w (w_uuids w)) poll (to_i32 c) (account_uuid <$> l)
       (account_uuid <$> r) ap (w_clock w (w_ticks w))), row.
  split_and!; done.
Qed.

Lemma cast_choice_tables poll l r ap c w d w' d' :
  (is_Some l <-> r = None) ->
  tables_ok d -> cast_choice poll l r ap c w d = (Ok tt, w', d') ->
  tables_ok d' /\ polls d' = polls d /\
  forall k, voters k d' =
    if (poll =? k)%N then {[(account_uuid <$> l, account_uuid <$> r)]} ∪ voters k d
    else voters k d.
Proof.
  intros Hid Hok Hrun.
  destruct (cast_choice_inv _ _ _ _ _ _ _ _ _ Hrun)
    as (k & v & row & Hk & Hvid & Hvp & Hvc & Hvoter & Hrow & ->).
  split; [|split; [done|]].
  - pose proof (option_keys _ Hok _ _ Hrow) as Hkey. split; simpl.
    + apply (poll_keys _ Hok).
    + intros key o. rewrite lookup_insert. case_decide as He; [|apply (option_keys _ Hok)].
      subst. intros [= <-]. done.
    + intros key o. rewrite lookup_insert. case_decide as He; [|apply (option_refs _ Hok)].
      subst. intros _. by apply (option_refs _ Hok _ _ Hrow).
    + intros k' v'. rewrite lookup_insert, !lookup_insert. case_decide; subst.
      * intros [= <-]. rewrite Hvc. rewrite decide_True by done. by eauto.
      * intros Hv'. case_decide; [by eauto|]. by apply (vote_refs _ Hok _ _ Hv').
    + intros k' v'. rewrite lookup_insert. case_decide; [|apply (vote_identity _ Hok)].
      intros [= <-]. injection Hvoter as -> ->. rewrite fmap_is_Some, fmap_None. done.
    + intros k' p pos o Hp Hl. rewrite lookup_insert, (count_where_insert_fresh _ _ _ _ Hk).
      unfold votes_for at 1, of_poll. rewrite Hvp, Hvc.
      case_decide as He.
      * injection He as <- <-. intros [= <-]. simpl. rewrite N.eqb_refl, Z.eqb_refl. simpl.
        rewrite (option_counts _ Hok _ _ _ _ Hp Hl Hrow). lia.
      * intros Ho. rewrite (option_counts _ Hok _ _ _ _ Hp Hl Ho).
        destruct (N.eqb_spec poll k') as [->|]; [|done].
        destruct (Z.eqb_spec (to_i32 c) pos); [congruence|done].
  - intros k'. simpl. rewrite <- Hvoter.
    change (voters k' (with_options _ ?d)) with (voters k' d).
    rewrite (voters_insert d k v k' Hk). unfold of_poll. by rewrite Hvp.
Qed.

Lemma cast_choices_tables poll l r ap cs w d w' d' :
  (is_Some l <-> r = None) ->
  tables_ok d -> for_each cs (cast_choice poll l r ap) w d = (Ok tt, w', d') ->
  tables_ok d' /\ polls d' = polls d /\
  forall k, voters k d' =
    if (poll =? k)%N && negb (bool_decide (cs = []))
    then {[(account_uuid <$> l, account_uuid <$> r)]} ∪ voters k d else voters k d.
Proof.
  intros Hid. revert w d. induction cs as [|c cs IH]; intros w d Hok.
  - intros [= _ <-]. split_and!; try done. intros k. by rewrite andb_false_r.
  - simpl. run_unfold. destruct (cast_choice poll l r ap c w d) as [[[[]|e] w1] d1] eqn:Hc; [|done].
    intros Hrun. destruct (cast_choice_tables _ _ _ _ _ _ _ _ _ Hid Hok Hc) as (Hok1 & Hp1 & Hv1).
    destruct (IH _ _ Hok1 Hrun) as (Hok2 & Hp2 & Hv2).
    split_and!; [done|congruence|]. intros k. rewrite Hv2, Hv1, andb_true_r.
    destruct (poll =? k)%N; simpl; [|done]. case_bool_decide; simpl; set_solver.
Qed.

(** One identity: a local account or a remote actor. *)
Definition one_identity (l r : option AccountId) : Prop := is_Some l <-> r = None.

Lemma find_poll_by_id_pure poll w d r w' d' :
  find_poll_by_id poll w d = (r, w', d') -> w' = w /\ d' = d.
Proof.
  unfold find_poll_by_id, hydrate_poll. run_unfold. simpl.
  destruct (polls d !! poll) as [p|]; [|naive_solver].
  destruct (local_status_id p), (remote_status_id p); naive_solver.
Qed.

(** What a successful vote went through. *)
Lemma vote_inv poll l r choices ap w d p w' d' :
  vote poll l r choices ap w d = (Ok p, w', d') ->
  exists model cs w0 w1 d1 now,
    polls d !! poll = Some model /\
    is_closed (w_clock w (w_ticks w)) model = false /\
    cs = dedup (order_by Z.leb choices) /\ cs <> [] /\
    (row_multiple model = true \/ length cs = 1%nat) /\
    one_identity l r /\
    (rows_where (vote_of poll l r) (votes d) = [] \/ (l = None /\ row_multiple model = true)) /\
    for_each cs (cast_choice poll l r ap) w0 d = (Ok tt, w1, d1) /\
    d' = with_polls <[poll := voted_row
           (bool_decide (rows_where (vote_of poll l r) (votes d) = [])) now model]> d1.
Proof.
  unfold vote. run_unfold.
  destruct (polls d !! poll) as [model|] eqn:Hp; [|done].
  destruct (is_closed _ model) eqn:Hc; [done|].
  destruct (bool_decide (dedup _ = [])) eqn:Hne; [done|]. apply bool_decide_eq_false in Hne.
  destruct (negb (row_multiple model) && _)%bool eqn:Hm; [done|].
  assert (row_multiple model = true \/ length (dedup (order_by Z.leb choices)) = 1%nat) as Hm'.
  { destruct (row_multiple model); [by left|right]. simpl in Hm.
    by apply negb_false_iff, Nat.eqb_eq in Hm. }
  destruct l as [l|], r as [r|]; try done;
    (destruct (negb (bool_decide _) && _)%bool eqn:He; [done|]);
    (destruct (existsb _ _) eqn:Ho; [done|]);
    (destruct (existsb (fun c => existsb _ (rows_where _ (votes d))) _) eqn:Hx; [done|]);
    (match goal with |- context [for_each ?cs ?b ?w0 d] =>
       destruct (for_each cs b w0 d) as [[[[]|e] w1] d1] eqn:Hrun end; [|done]);
    simpl; (destruct (bool_decide (polls d1 !! poll = None)); [done|]);
    (match goal with |- context [find_poll_by_id poll ?w2 ?d2] =>
       destruct (find_poll_by_id poll w2 d2) as [[[[q|]|e] w3] d3] eqn:Hf end; try done);
    intros [= _ <- <-]; apply find_poll_by_id_pure in Hf as [_ ->];
    eexists model, _, _, w1, d1, _; split_and!; try done; try exact Hrun;
    rewrite ?andb_true_r in He; simpl in He.
  - left. by apply negb_false_iff, bool_decide_eq_true in He.
  - apply andb_false_iff in He as [He|He].
    + left. by apply negb_false_iff, bool_decide_eq_true in He.
    + right. by apply negb_false_iff in He.
Qed.

Lemma vote_of_voter poll l r d v k :
  tables_ok d -> one_identity l r -> votes d !! k = Some v ->
  vote_of poll l r v = true <->
  vote_poll v = poll /\ voter v = (account_uuid <$> l, account_uuid <$> r).
Proof.
  intros Hok Hid Hv. pose proof (vote_identity _ Hok _ _ Hv) as Hi.
  unfold vote_of, of_poll, voter, one_identity in *. rewrite andb_true_iff, N.eqb_eq.
  destruct l as [l|], r as [r|]; simpl; try (by destruct Hid as [H1 H2];
    first [by discriminate H1; eauto|by destruct (H2 eq_refl)]);
    rewrite bool_decide_eq_true.
  - split; [intros [? E]|intros [? [= E _]]; done]. rewrite E in *.
    split; [done|]. f_equal. apply Hi. eauto.
  - split; [intros [? E]|intros [? [= _ E]]; done]. split; [done|]. rewrite E in *. f_equal.
    destruct (vote_local_account v); [|done]. destruct Hi as [Hi _].
    discriminate Hi. eauto.
Qed.

(** Voting keeps every tally: after a successful vote, by a local account or
    a remote actor, in a single- or multiple-choice poll, the count of every
    option of every local poll is again the number of votes for it, and its
    voter count is the number of distinct voters. *)
Lemma vote_tally poll l r choices ap w d p w' d' :
  tally_ok d -> vote poll l r choices ap w d = (Ok p, w', d') -> tally_ok d'.
Proof.
  intros [Hok Hvo] Hrun.
  destruct (vote_inv _ _ _ _ _ _ _ _ _ _ Hrun)
    as (model & cs & w0 & w1 & d1 & now & Hp & _ & _ & Hne & _ & Hid & _ & Hcast & ->).
  destruct (cast_choices_tables _ _ _ _ _ _ _ _ _ Hid Hok Hcast) as (Hok1 & Hpolls & Hvoters).
  split.
  - assert (Hp1 : polls d1 !! poll = Some model) by congruence.
    destruct Hok1 as [K1 K2 K3 K4 K5 K6]. split; simpl; try done.
    + intros k q. rewrite lookup_insert. case_decide; [|apply K1]. subst.
      intros [= <-]. simpl. by apply K1.
    + intros k o Ho. rewrite lookup_insert. case_decide; [by eauto|]. by eapply K3.
    + intros k q pos o. rewrite lookup_insert. case_decide; [|apply K6]. subst.
      intros [= <-]. simpl. apply (K6 _ _ _ _ Hp1).
  - intros k q. simpl. change (voters k (with_polls _ ?d)) with (voters k d).
    rewrite lookup_insert, Hvoters, Hpolls, (bool_decide_eq_false_2 _ Hne), andb_true_r.
    case_decide as Hk; [subst k|intros Hq Hl; rewrite (proj2 (N.eqb_neq _ _) Hk); by apply Hvo].
    intros [= <-] Hl. rewrite N.eqb_refl. simpl in *.
    set (me := (account_uuid <$> l, account_uuid <$> r)).
    specialize (Hvo poll model Hp Hl).
    assert (Hin : me ∈ voters poll d <-> rows_where (vote_of poll l r) (votes d) <> []).
    { rewrite elem_of_voters. split.
      - intros (k & v & Hv & Hvp & Hvt) Hnil. rewrite rows_where_nil in Hnil.
        specialize (Hnil _ _ Hv). by rewrite (proj2 (vote_of_voter poll l r d v k Hok Hid Hv)) in Hnil.
      - intros Hnn. destruct (rows_where _ _) as [|v vs] eqn:Hr; [done|].
        assert (v ∈ rows_where (vote_of poll l r) (votes d)) as Hv by (rewrite Hr; left).
        apply elem_of_rows_where in Hv as [[k Hk] Hv].
        apply (vote_of_voter poll l r d v k Hok Hid Hk) in Hv. by exists k, v. }
    destruct (bool_decide (rows_where _ _ = [])) eqn:He; boolp.
    + rewrite Hvo. simpl. f_equal. rewrite size_union, size_singleton; [lia|].
      apply disjoint_singleton_l. intros Hm. by apply Hin in Hm.
    + rewrite Hvo. do 2 f_equal. f_equal. apply set_eq. intros x.
      rewrite elem_of_union, elem_of_singleton. naive_solver.
Qed.

(** A local account votes once: after its vote succeeded the viewer state
    says so, and every later vote of that account in that poll is rejected,
    whatever the choices and however the clock advances. *)
Theorem local_vote_is_final poll a choices w d p w' d' :
  tables_ok d -> vote_in_poll poll a choices w d = (Ok p, w', d') ->
  voted (viewer_state d' poll a) = true /\
  forall choices2 w2 p2, value_of (vote_in_poll poll a choices2) w2 d' <> Ok p2.
Proof.
  unfold vote_in_poll. intros Hok Hrun.
  destruct (vote_inv _ _ _ _ _ _ _ _ _ _ Hrun)
    as (model & cs & w0 & w1 & d1 & now & Hp & _ & _ & Hne & _ & Hid & _ & Hcast & ->).
  destruct (cast_choices_tables _ _ _ _ _ _ _ _ _ Hid Hok Hcast) as (Hok1 & _ & Hvoters).
  assert (Hme : (Some (account_uuid a), None) ∈ voters poll d1).
  { rewrite Hvoters, N.eqb_refl, (bool_decide_eq_false_2 _ Hne). simpl. set_solver. }
  apply elem_of_voters in Hme as (k & v & Hv & Hvp & Hvt).
  split.
  - simpl. apply orb_true_iff. right. apply negb_true_iff, bool_decide_eq_false.
    intros Hnil. assert (choice_position v ∈ []) as Hin; [|by apply elem_of_nil in Hin].
    rewrite <- Hnil. apply elem_of_dedup, list_elem_of_fmap. exists v. split; [done|].
    rewrite order_by_Permutation. apply elem_of_rows_where. split; [by eauto|].
    injection Hvt as Hl _. unfold of_poll. rewrite Hvp, Hl, N.eqb_refl. simpl.
    by apply bool_decide_eq_true_2.
  - intros choices2 w2 p2 Hv2. unfold value_of in Hv2.
    destruct (vote poll (Some a) None choices2 None w2 _) as [[r w3] d3] eqn:Hrun2. simpl in Hv2. subst r.
    destruct (vote_inv _ _ _ _ _ _ _ _ _ _ Hrun2)
      as (? & ? & ? & ? & ? & ? & _ & _ & _ & _ & _ & _ & [Hnil|[? _]] & _); [|done].
    rewrite rows_where_nil in Hnil. specialize (Hnil _ _ Hv).
    by rewrite (proj2 (vote_of_voter poll (Some a) None d1 v k Hok1 Hid Hv)) in Hnil.
Qed.

(** * Remote refreshes *)

Lemma keeps_votes_insert_option poll o : keeps votes (insert_option poll o).
Proof. unfold insert_option. solve_keeps. Qed.

Lemma keeps_votes_enqueue uuid_text poll at_ :
  keeps votes (enqueue_poll_expiration uuid_text poll at_).
Proof. unfold enqueue_poll_expiration. solve_keeps. Qed.

Lemma keeps_votes_update p : keeps votes (update_poll p).
Proof. unfold update_poll. solve_keeps. Qed.

Lemma keeps_votes_find poll : keeps votes (find_poll_by_id poll).
Proof. unfold find_poll_by_id, hydrate_poll. solve_keeps. Qed.

Lemma keeps_votes_insert_poll p : keeps votes (insert_poll p).
Proof. unfold insert_poll. solve_keeps. Qed.

Lemma delete_options_clears_votes d poll :
  tables_ok d -> rows_where (of_poll poll) (votes (delete_options poll d)) = [].
Proof.
  intros Hok. simpl. apply rows_where_nil. intros k v. rewrite lookup_delete_where.
  destruct (votes d !! k) as [v'|] eqn:Hv; [|done].
  pose proof (vote_refs _ Hok _ _ Hv) as Href. unfold of_poll.
  destruct (N.eqb_spec (vote_poll v') poll) as [<-|Hne]; simpl.
  - by rewrite bool_decide_eq_true_2.
  - intros [= <-]. by apply N.eqb_neq.
Qed.

Lemma replace_options_clears_votes poll opts w d :
  tables_ok d -> rows_where (of_poll poll) (votes (store_of (replace_options poll opts) w d)) = [].
Proof.
  intros Hok. unfold replace_options.
  match goal with |- context [for_each ?xs ?b] =>
    assert (keeps votes (for_each xs b)) as Hk
      by (apply keeps_for_each; intros; apply keeps_votes_insert_option);
    specialize (Hk w (delete_options poll d)) end.
  unfold store_of in *. run_unfold. rewrite Hk. by apply delete_options_clears_votes.
Qed.

(** Every refresh of a cached remote poll forgets the votes of the local
    accounts, even when the choices did not change: [replace_options] deletes
    the option rows, and the reference from votes to options cascades. *)
Theorem remote_refresh_forgets_votes uuid_text s input w d p w' d' k model :
  tables_ok d ->
  head (rows_where (has_status (Remote s)) (polls d)) = Some model -> row_id model = k ->
  row_multiple model = remote_multiple input ->
  (option_title <$> options_in_order k d) = (fst <$> remote_options input) ->
  upsert_remote_poll uuid_text s input w d = (Ok p, w', d') ->
  rows_where (of_poll k) (votes d') = [] /\
  forall a, own_votes (viewer_state d' k a) = [].
Proof.
  intros Hok Hhead Hk Hm Htitles Hrun.
  assert (Hnil : rows_where (of_poll k) (votes d') = []).
  { unfold upsert_remote_poll in Hrun. destruct (_ || _)%bool; [done|].
    inv_bind Hrun now w1 d1 Hnow. injection Hnow as _ <- <-.
    inv_bind Hrun d0 w2 d2 Hd. injection Hd as <- <- <-. rewrite Hhead in Hrun.
    destruct (counts_stored input); [|done].
    inv_bind Hrun uc wc dc Hc. injection Hc as _ <- <-.
    inv_bind Hrun pid w3 d3 Hpid. rewrite Hk, Hm, Htitles in Hpid.
    rewrite !bool_decide_eq_true_2 in Hpid by done.
    inv_bind Hpid u w4 d4 Hu. injection Hu as _ <- <-.
    inv_bind Hpid u2 w5 d5 Hr. inv_bind Hpid u3 w6 d6 Hup. injection Hpid as <- <- <-.
    match type of Hr with ?m ?w0 _ = _ =>
      pose proof (replace_options_clears_votes k (remote_options input) w0 d Hok) as Hclear end.
    unfold store_of in Hclear. rewrite Hr in Hclear. simpl in Hclear.
    apply (keeps_run votes) in Hup; [|apply keeps_votes_update].
    inv_bind Hrun u4 w7 d7 He. apply (keeps_run votes) in He;
      [|destruct (remote_closed_at input), (remote_expires_at input);
        try apply keeps_votes_enqueue; apply keeps_ret].
    inv_bind Hrun o w8 d8 Hf. apply (keeps_run votes) in Hf; [|apply keeps_votes_find].
    apply lift_option_Ok in Hrun as (_ & _ & ->). congruence. }
  split; [done|]. intros a. simpl.
  assert (rows_where (fun v => of_poll k v && bool_decide (vote_local_account v = Some (account_uuid a)))
            (votes d') = []) as ->; [|done].
  rewrite rows_where_nil in Hnil |- *. intros k' v Hv. by rewrite (Hnil _ _ Hv).
Qed.

(** * Expiry *)

Section ExpiryLemmas.
Context (uuid_text : uuid -> string).

Definition notifications (d : Db) : gmap uuid Notifications.LocalNotification :=
  Notifications.notifications (notification_db d).

Lemma send_expiry_spec a ra st rst now recipient w d :
  match send_expiry uuid_text a ra st rst now recipient w d with
  | (Err e, _, _) => Notifications.unique_error e
  | (Ok n, _, d') =>
      (exists id, n = poll_notification id recipient a ra st rst now) /\
      Notifications.violated_index n (notifications d) = None /\
      notifications d' = <[Notifications.id n := n]> (notifications d) /\
      polls d' = polls d /\ votes d' = votes d /\ local_statuses d' = local_statuses d /\
      poll_options d' = poll_options d
  end.
Proof.
  unfold send_expiry. run_unfold. unfold zoom. simpl.
  match goal with |- context [Notifications.insert uuid_text ?n ?w' ?nd] =>
    pose proof (Notifications.insert_ungrouped uuid_text n w' nd eq_refl) as Hi;
    destruct (Notifications.insert uuid_text n w' nd) as [[[n'|e] w2] nd'] end; [|done].
  destruct Hi as (-> & Hv & Hn). unfold notifications. simpl. split_and!; try done. by eexists.
Qed.

Lemma collect_send_expiry a ra st rst now recipients : forall w d,
  match collect recipients (send_expiry uuid_text a ra st rst now) w d with
  | (Err e, _, _) => Notifications.unique_error e
  | (Ok sent, _, d') =>
      Notifications.account_id <$> sent = recipients /\
      (polls d' = polls d /\ votes d' = votes d /\ local_statuses d' = local_statuses d /\
       poll_options d' = poll_options d) /\
      (forall k n, notifications d !! k = Some n -> notifications d' !! k = Some n) /\
      (forall n, n ∈ sent -> exists id recipient,
         n = poll_notification id recipient a ra st rst now /\
         notifications d' !! id = Some n)
  end.
Proof.
  induction recipients as [|r rs IH]; intros w d; simpl.
  { split_and!; try done. intros n Hn. by apply elem_of_nil in Hn. }
  unfold mbind at 1, M_bind at 1. pose proof (send_expiry_spec a ra st rst now r w d) as H1.
  destruct (send_expiry _ _ _ _ _ _ r w d) as [[[n|e] w1] d1]; [|done].
  destruct H1 as ((id & Hn) & Hv & Hn1 & Hp1 & Hv1 & Hl1 & Ho1).
  unfold mbind at 1, M_bind at 1. specialize (IH w1 d1).
  destruct (collect rs _ w1 d1) as [[[sent|e] w2] d2]; [|done].
  destruct IH as (Hacc & (Hp2 & Hv2 & Hl2 & Ho2) & Hold & Hsent). unfold mret, M_ret.
  assert (Hfresh : notifications d !! Notifications.id n = None).
  { unfold Notifications.violated_index in Hv. case_bool_decide as Hs; [done|].
    by apply eq_None_not_Some. }
  split_and!; try congruence.
  - rewrite fmap_cons, Hacc. by subst n.
  - intros k m Hk. apply Hold. rewrite Hn1, lookup_insert_ne; [done|].
    intros <-. congruence.
  - intros m [->|Hm]%elem_of_cons; [|by apply Hsent].
    exists id, r. split; [done|]. apply Hold. rewrite Hn1. subst n. by rewrite lookup_insert_eq.
Qed.

Lemma collect_send_expiry_conflict a ra st rst now recipients r m k : forall w d,
  r ∈ recipients -> notifications d !! k = Some m ->
  Notifications.same_event (poll_notification 0 r a ra st rst now) m = true ->
  exists e, value_of (collect recipients (send_expiry uuid_text a ra st rst now)) w d = Err e /\
    Notifications.unique_error e.
Proof.
  induction recipients as [|r' rs IH]; intros w d Hr Hk Hs; [by apply elem_of_nil in Hr|].
  simpl. unfold value_of. unfold mbind at 1, M_bind at 1.
  pose proof (send_expiry_spec a ra st rst now r' w d) as H1.
  destruct (send_expiry _ _ _ _ _ _ r' w d) as [[[n|e] w1] d1]; [|simpl; by eauto].
  destruct H1 as ((id & Hn) & Hv & Hn1 & _).
  apply elem_of_cons in Hr as [<-|Hr].
  - destruct (Notifications.violated_index_same_event n m (notifications d) k Hk) as [x Hx];
      [by subst n|congruence].
  - assert (notifications d1 !! k = Some m) as Hk1.
    { rewrite Hn1, lookup_insert_ne; [done|]. intros <-.
      unfold Notifications.violated_index in Hv. case_bool_decide as Hss; [done|].
      apply Hss. eauto. }
    destruct (IH w1 d1 Hr Hk1 Hs) as (e & He & Hu). unfold value_of in He.
    unfold mbind at 1, M_bind at 1.
    destruct (collect rs _ w1 d1) as [[[sent|e'] w2] d2]; simpl in *; [done|].
    exists e. by split.
Qed.
End ExpiryLemmas.

Section ExpiryTheorems.
Context (graphemes : text -> Z) (uuid_text : uuid -> string).

(** A successful first expiry, step by step. *)
Lemma expiry_reference_pure model w d r w' d' :
  expiry_reference model w d = (Ok r, w', d') ->
  w' = w /\ d' = d /\ forall w0, expiry_reference model w0 d = (Ok r, w0, d).
Proof using Type.
  unfold expiry_reference. run_unfold.
  destruct (local_status_id model) as [s|], (remote_status_id model) as [s'|]; try done.
  - by destruct (local_statuses d !! s); intros [= <- <- <-].
  - by destruct (remote_statuses d !! s'); intros [= <- <- <-].
Qed.

Lemma expire_poll_inv poll w d x w' d' :
  tables_ok d -> expire_poll uuid_text poll w d = (Ok (Some x), w', d') ->
  newly_expired x = true ->
  exists model actor ra st rst author now d1,
    polls d !! poll = Some model /\ notifications_sent_at model = None /\
    (forall w0, expiry_reference model w0 d = (Ok (actor, ra, st, rst, author), w0, d)) /\
    Notifications.account_id <$> expiration_notifications x =
      dedup (order_by N.leb (local_voters poll d ++ author)) /\
    (forall n, n ∈ expiration_notifications x -> exists id recipient,
       n = poll_notification id recipient actor ra st rst now /\
       notifications d1 !! id = Some n) /\
    (polls d1 = polls d /\ votes d1 = votes d /\ local_statuses d1 = local_statuses d /\
     poll_options d1 = poll_options d) /\
    d' = with_polls <[poll := expired_row now model]> d1 /\
    (exists p, forall w0, hydrate_poll (expired_row now model) w0 d' = (Ok p, w0, d')).
Proof using Type.
  intros Hok Hrun Hnew. unfold expire_poll in Hrun.
  inv_bind Hrun d0 w0 d0' Hd. injection Hd as <- <- <-.
  destruct (polls d !! poll) as [model|] eqn:Hp; [|done].
  pose proof (poll_keys _ Hok _ _ Hp) as Hid.
  inv_bind Hrun now w1 d1 Hnow. injection Hnow as Hnow Hw1 <-.
  assert (Hdue : expire_due uuid_text model now w1 d = (Ok (Some x), w', d')).
  { destruct (due_time model) as [due|]; [|done]. destruct (now <? due); [|done].
    inv_bind Hrun p w2 d2 Hh. injection Hrun as <- <- <-. done. }
  clear Hrun Hnow Hw1. unfold expire_due in Hdue.
  destruct (bool_decide (is_Some (notifications_sent_at model))) eqn:Hs.
  { inv_bind Hdue p w2 d2 Hh. by injection Hdue as <- <- <-. }
  apply bool_decide_eq_false, eq_None_not_Some in Hs.
  inv_bind Hdue d0 w0 d0' Hd. injection Hd as <- <- <-.
  inv_bind Hdue ref w2 d2 Href. destruct ref as [[[[actor ra] st] rst] author].
  apply expiry_reference_pure in Href as (-> & -> & Href).
  inv_bind Hdue sent w3 d3 Hsent.
  pose proof (collect_send_expiry uuid_text actor ra st rst now
    (dedup (order_by N.leb (local_voters (row_id model) d ++ author))) w1 d) as Hc.
  rewrite Hsent in Hc. rewrite Hid in Hc.
  destruct Hc as (Hacc & Hkeep & _ & Hin).
  inv_bind Hdue u w4 d4 Hu. unfold update_poll in Hu. run_unfold. simpl in Hu.
  destruct Hkeep as (Hp3 & Hv3 & Hl3 & Ho3). rewrite Hid, Hp3, Hp in Hu. simpl in Hu.
  injection Hu as _ <- <-.
  unfold find_poll_by_id in Hdue. run_unfold. simpl in Hdue.
  rewrite Hid, lookup_insert_eq in Hdue.
  destruct (hydrate_poll (expired_row now model) w3 _) as [[[p|e] w5] d5] eqn:Hh; [|done].
  simpl in Hdue. injection Hdue as <- <- <-. simpl in *.
  assert (d5 = with_polls <[poll := expired_row now model]> d3 /\
    forall w0, hydrate_poll (expired_row now model) w0
      (with_polls <[poll := expired_row now model]> d3) = (Ok p, w0, d5)) as [-> Hh'].
  { revert Hh. unfold hydrate_poll. run_unfold. simpl.
    destruct (local_status_id model), (remote_status_id model); try done;
      intros [= <- _ <-]; done. }
  exists model, actor, ra, st, rst, author, now, d3. split_and!; try done. by exists p.
Qed.

(** An expiry that reports nothing new leaves the store alone. *)
Lemma hydrate_poll_pure p w d r w' d' :
  hydrate_poll p w d = (r, w', d') -> w' = w /\ d' = d.
Proof using Type.
  unfold hydrate_poll. run_unfold. simpl.
  destruct (local_status_id p), (remote_status_id p); by intros [= _ <- <-].
Qed.

Lemma expire_poll_idle poll w d r w' d' :
  expire_poll uuid_text poll w d = (Ok r, w', d') ->
  (forall x, r = Some x -> newly_expired x = false) -> d' = d.
Proof using Type.
  intros Hrun Hidle. unfold expire_poll in Hrun.
  inv_bind Hrun d0 w0 d0' H0. injection H0 as <- <- <-.
  destruct (polls d !! poll) as [model|]; [|by injection Hrun].
  inv_bind Hrun now w1 d1 H1. injection H1 as _ _ <-.
  assert (Hh : forall y, hydrate_poll model w1 d = (Ok y, w', d') -> d' = d)
    by (intros y Hy; by apply hydrate_poll_pure in Hy as [_ ->]).
  assert (Hdue : forall w2, expire_due uuid_text model now w2 d = (Ok r, w', d') -> d' = d).
  { intros w2 Hd. unfold expire_due in Hd. destruct (bool_decide _).
    - inv_bind Hd y w3 d3 H3. apply hydrate_poll_pure in H3 as [-> ->]. by injection Hd.
    - do 2 (apply bind_Ok in Hd as (? & ? & ? & ? & Hd)).
      match type of Hd with context [match ?x with _ => _ end] => destruct x as [[[[? ?] ?] ?] ?] end.
      do 4 (apply bind_Ok in Hd as (? & ? & ? & ? & Hd)). injection Hd as <- _ _.
      by specialize (Hidle _ eq_refl). }
  destruct (due_time model) as [due|]; [destruct (now <? due)|]; [|by eauto..].
  inv_bind Hrun y w2 d2 H2. apply hydrate_poll_pure in H2 as [-> ->]. by injection Hrun.
Qed.

(** The first expiry of a due poll notifies every local voter and the local
    author exactly once, stores those notifications, and is final: a later
    expiry, at any time, reports nothing new and leaves the store alone. *)
Theorem expire_poll_notifies_once poll w d x w' d' :
  tables_ok d -> expire_poll uuid_text poll w d = (Ok (Some x), w', d') ->
  newly_expired x = true ->
  let notified := Notifications.account_id <$> expiration_notifications x in
  NoDup notified /\
  (forall a, a ∈ notified <->
     poll_author poll d = Some a \/
     exists k v, votes d !! k = Some v /\ vote_poll v = poll /\ vote_local_account v = Some a) /\
  (forall n, n ∈ expiration_notifications x ->
     notifications d' !! Notifications.id n = Some n) /\
  (forall w2, exists y w3, expire_poll uuid_text poll w2 d' = (Ok (Some y), w3, d') /\
     newly_expired y = false /\ expiration_notifications y = []).
Proof using Type.
  intros Hok Hrun Hnew.
  destruct (expire_poll_inv _ _ _ _ _ _ Hok Hrun Hnew)
    as (model & actor & ra & st & rst & author & now & d1 & Hp & Hs & Href & Hacc & Hin &
        (Hp1 & Hv1 & Hl1 & Ho1) & -> & p & Hh).
  simpl. rewrite Hacc. split_and!.
  - apply sorted_dedup_NoDup; intros *; rewrite ?N.leb_le; lia.
  - intros a. rewrite elem_of_sorted_dedup, elem_of_app. unfold local_voters.
    rewrite list_elem_of_omap. setoid_rewrite elem_of_rows_where. unfold of_poll.
    setoid_rewrite N.eqb_eq.
    assert (a ∈ author <-> poll_author poll d = Some a) as ->.
    { specialize (Href w). unfold poll_author. rewrite Hp. simpl. revert Href.
      unfold expiry_reference. run_unfold.
      destruct (local_status_id model) as [s|], (remote_status_id model) as [s'|]; try done; simpl.
      - destruct (local_statuses d !! s) as [au|]; [|done]. intros [= <- <- <- <- <-]. set_solver.
      - destruct (remote_statuses d !! s'); [|done]. intros [= <- <- <- <- <-]. set_solver. }
    naive_solver.
  - intros n Hn. destruct (Hin n Hn) as (id & r & -> & Hk). exact Hk.
  - intros w2. unfold expire_poll. run_unfold. simpl. rewrite lookup_insert_eq.
    unfold expire_due. simpl. run_unfold.
    destruct (due_time _) as [due|]; [destruct (_ <? due)|]; rewrite Hh; by eauto 10.
Qed.
End ExpiryTheorems.
