(* ===== verification/PollsInvariant.v ===== *)
(** The tally invariant of [Polls.v] over whole histories: every sequence of
    committed poll operations (creation, votes, edits, remote refreshes,
    expiry, deletion) keeps the tables consistent and the counts of the local
    polls equal to the votes. *)
From stdpp Require Import pretty.
From S2P Require Import Prelude Core Text Polls.
From S2P Require Jobs Notifications.

(** The tables the invariant reads. *)
Definition core (d : Db) := (polls d, poll_options d, votes d).

Lemma tables_ok_core d1 d2 : core d1 = core d2 -> tables_ok d1 -> tables_ok d2.
Proof.
  unfold core. intros [= Hp Ho Hv] [K1 K2 K3 K4 K5 K6].
  split; rewrite <- ?Hp, <- ?Ho, <- ?Hv; done.
Qed.

Lemma voters_core d1 d2 k : core d1 = core d2 -> voters k d1 = voters k d2.
Proof. unfold core. intros [= _ _ Hv]. unfold voters. by rewrite Hv. Qed.

Lemma tally_ok_core d1 d2 : core d1 = core d2 -> tally_ok d1 -> tally_ok d2.
Proof.
  intros Hc [Hok Hvo]. split; [by eapply tables_ok_core|].
  intros k p Hp Hl. rewrite <- (voters_core _ _ k Hc). apply Hvo; [|done].
  unfold core in Hc. congruence.
Qed.

(** * Frames of the helpers *)

Lemma keeps_core_expiration uuid_text poll at_ : keeps core (enqueue_poll_expiration uuid_text poll at_).
Proof. unfold enqueue_poll_expiration. solve_keeps. Qed.

Lemma keeps_core_find poll : keeps core (find_poll_by_id poll).
Proof. unfold find_poll_by_id, hydrate_poll. solve_keeps. Qed.

Lemma keeps_core_update uuid_text poll at_ : keeps core (enqueue_poll_update uuid_text poll at_).
Proof. unfold enqueue_poll_update. solve_keeps. Qed.

(** * The invariant under each change of the tables *)

Lemma voters_none k d : rows_where (of_poll k) (votes d) = [] <-> voters k d = ∅.
Proof.
  unfold voters. split; [by intros ->|]. intros Hv.
  destruct (rows_where _ _) as [|v l]; [done|]. simpl in Hv. set_solver.
Qed.

(** Changing the columns of a poll row other than its status. *)
Lemma tables_ok_update d k p p' :
  tables_ok d -> polls d !! k = Some p -> row_id p' = k ->
  local_status_id p' = local_status_id p -> tables_ok (with_polls <[k := p']> d).
Proof.
  intros [K1 K2 K3 K4 K5 K6] Hp Hid Hl. split; simpl; try done.
  - intros k' q. rewrite lookup_insert. case_decide; [|by apply K1]. subst. by intros [= <-].
  - intros k' o Ho. rewrite lookup_insert. case_decide; [by eauto|]. by eapply K3.
  - intros k' q pos o. rewrite lookup_insert. case_decide; [|apply K6]. subst k'.
    intros [= <-]. rewrite Hl. apply (K6 _ _ _ _ Hp).
Qed.

(** A fresh poll has no options and no votes. *)
Lemma fresh_poll_no_votes d k :
  tables_ok d -> polls d !! k = None -> rows_where (of_poll k) (votes d) = [].
Proof.
  intros [K1 K2 K3 K4 K5 K6] Hk. apply rows_where_nil. intros k' v Hv.
  destruct (of_poll k v) eqn:Hkv; [|done]. apply N.eqb_eq in Hkv. subst k.
  destruct (K4 _ _ Hv) as [o Ho]. destruct (K3 _ _ Ho) as [q Hq]. simpl in Hq. congruence.
Qed.

Lemma tables_ok_insert_poll d k p :
  tables_ok d -> polls d !! k = None -> row_id p = k -> tables_ok (with_polls <[k := p]> d).
Proof.
  intros [K1 K2 K3 K4 K5 K6] Hk Hid. split; simpl; try done.
  - intros k' q. rewrite lookup_insert. case_decide; [|by apply K1]. subst. by intros [= <-].
  - intros k' o Ho. rewrite lookup_insert. case_decide; [by eauto|]. by eapply K3.
  - intros k' q pos o. rewrite lookup_insert. case_decide; [|apply K6]. subst k'.
    intros _ _ Ho. destruct (K3 _ _ Ho) as [q' Hq]. simpl in Hq. congruence.
Qed.

Lemma tables_ok_delete_options d k : tables_ok d -> tables_ok (delete_options k d).
Proof.
  intros [K1 K2 K3 K4 K5 K6].
  assert (Hv : forall k' v, votes (delete_options k d) !! k' = Some v ->
            votes d !! k' = Some v /\ vote_poll v <> k).
  { intros k' v. simpl. rewrite lookup_delete_where.
    destruct (votes d !! k') as [v'|] eqn:Hv'; [|done].
    destruct (_ && _)%bool eqn:He; [done|]. intros [= <-]. split; [done|].
    intros <-. unfold of_poll in He. rewrite N.eqb_refl in He. simpl in He. boolp.
    apply He. by eapply K4. }
  split; simpl.
  - done.
  - intros k' o. rewrite lookup_delete_where. destruct (poll_options d !! k') as [o'|] eqn:Ho; [|done].
    destruct (option_of_poll k o'); [done|]. intros [= <-]. by apply K2.
  - intros k' o. rewrite lookup_delete_where. destruct (poll_options d !! k') as [o'|] eqn:Ho; [|done].
    intros _. by eapply K3.
  - intros k' v Hv'. destruct (Hv _ _ Hv') as [Hv2 Hne]. destruct (K4 _ _ Hv2) as [o Ho].
    rewrite lookup_delete_where, Ho. unfold option_of_poll.
    pose proof (K2 _ _ Ho) as Hkey. injection Hkey as -> _.
    by rewrite (proj2 (N.eqb_neq _ _) Hne).
  - intros k' v Hv'. destruct (Hv _ _ Hv') as [Hv2 _]. by eapply K5.
  - intros k' q pos o Hq Hl. rewrite lookup_delete_where.
    destruct (poll_options d !! (k', pos)) as [o'|] eqn:Ho; [|done].
    destruct (option_of_poll k o') eqn:Hk; [done|]. intros [= <-].
    pose proof (K2 _ _ Ho) as Hkey. injection Hkey as Hop _. unfold option_of_poll in Hk.
    rewrite Hop in Hk. apply N.eqb_neq in Hk.
    rewrite (K6 _ _ _ _ Hq Hl Ho). f_equal. unfold count_where.
    apply Permutation_length, symmetry, rows_where_delete_where_disjoint.
    intros v _ Hvf. unfold votes_for, of_poll in *. boolp.
    destruct (N.eqb_spec (vote_poll v) k); [|done].
    repeat match goal with H : (_ =? _)%N = true |- _ => apply N.eqb_eq in H end. congruence.
Qed.

(** Deleting the votes of a poll is subsumed by deleting its options. *)
Lemma delete_votes_then_options d k :
  tables_ok d -> delete_options k (delete_votes k d) = delete_options k d.
Proof.
  intros Hok. unfold delete_options, delete_votes, with_votes, with_options. simpl. f_equal.
  apply map_eq. intros i. rewrite !lookup_delete_where.
  destruct (votes d !! i) as [v|] eqn:Hv; [|done].
  destruct (of_poll k v) eqn:Hk; simpl; rewrite ?Hk; [|done].
  pose proof (vote_refs _ Hok _ _ Hv) as Hr. apply N.eqb_eq in Hk. subst k.
  by rewrite bool_decide_eq_true_2.
Qed.

Lemma delete_options_then_votes d k :
  tables_ok d -> delete_votes k (delete_options k d) = delete_options k d.
Proof.
  intros Hok. unfold delete_options, delete_votes, with_votes, with_options. simpl. f_equal.
  apply map_eq. intros i. rewrite !lookup_delete_where.
  destruct (votes d !! i) as [v|] eqn:Hv; [|done].
  destruct (of_poll k v) eqn:Hk; simpl; rewrite ?Hk; [|done].
  pose proof (vote_refs _ Hok _ _ Hv) as Hr. apply N.eqb_eq in Hk. subst k.
  by rewrite bool_decide_eq_true_2.
Qed.

Lemma voters_delete_options d k k' :
  tables_ok d -> voters k' (delete_options k d) = if (k =? k')%N then ∅ else voters k' d.
Proof.
  intros Hok. destruct (N.eqb_spec k k') as [<-|Hne].
  - by apply voters_none, delete_options_clears_votes.
  - apply set_eq. intros x. rewrite !elem_of_voters. simpl. split.
    + intros (i & v & Hv & Hvp & Hx). rewrite lookup_delete_where in Hv.
      destruct (votes d !! i) as [v'|] eqn:Hv'; [|done].
      destruct (_ && _)%bool; [done|]. injection Hv as ->. eauto.
    + intros (i & v & Hv & Hvp & Hx). exists i, v. split_and!; try done.
      rewrite lookup_delete_where, Hv. unfold of_poll. rewrite Hvp.
      by rewrite (proj2 (N.eqb_neq _ _)) by congruence.
Qed.

(** Storing one option of a poll that has no votes. *)
Lemma insert_option_tables poll o w d w' d' p :
  tables_ok d -> polls d !! poll = Some p -> rows_where (of_poll poll) (votes d) = [] ->
  (is_Some (local_status_id p) -> o.2.2 = 0) ->
  insert_option poll o w d = (Ok tt, w', d') ->
  tables_ok d' /\ polls d' = polls d /\ votes d' = votes d.
Proof.
  intros [K1 K2 K3 K4 K5 K6] Hp Hnil Hzero. destruct o as [i [title n]].
  unfold insert_option. run_unfold.
  destruct (poll_options d !! _) eqn:Ho; [done|]. intros [= _ <-]. simpl in *.
  split; [|done]. split; simpl; try done.
  - intros k q. rewrite lookup_insert. case_decide; [|by apply K2]. subst. by intros [= <-].
  - intros k q. rewrite lookup_insert. case_decide; [|by apply K3]. subst. by eauto.
  - intros k v Hv. rewrite lookup_insert. case_decide; [by eauto|by eapply K4].
  - intros k q pos q' Hq Hl. rewrite lookup_insert. case_decide as He; [|by apply (K6 _ _ _ _ Hq)].
    injection He as <- <-. intros [= <-]. simpl. rewrite Hzero by congruence.
    rewrite count_where_nil; [done|]. rewrite rows_where_nil in Hnil |- *.
    intros k v Hv. unfold votes_for. by rewrite (Hnil _ _ Hv).
Qed.

Lemma insert_options_tables poll os w d w' d' p :
  tables_ok d -> polls d !! poll = Some p -> rows_where (of_poll poll) (votes d) = [] ->
  (is_Some (local_status_id p) -> Forall (fun o => o.2.2 = 0) os) ->
  for_each os (insert_option poll) w d = (Ok tt, w', d') ->
  tables_ok d' /\ polls d' = polls d /\ votes d' = votes d.
Proof.
  revert w d. induction os as [|o os IH]; intros w d Hok Hp Hnil Hzero Hrun.
  { by injection Hrun as _ <-. }
  simpl in Hrun. inv_bind Hrun u w1 d1 Ho. destruct u.
  destruct (insert_option_tables _ _ _ _ _ _ p Hok Hp Hnil
    ltac:(intros Hl; by apply Hzero in Hl; inversion Hl) Ho) as (Hok1 & Hp1 & Hv1).
  destruct (IH w1 d1) as (Hok2 & Hp2 & Hv2); [done|congruence|congruence| |done|].
  - intros Hl. apply Hzero in Hl. by inversion Hl.
  - split_and!; [done|congruence|congruence].
Qed.

(** [replace_options] clears the votes and restores the references. *)
Lemma replace_options_tables poll opts w d w' d' p :
  tables_ok d -> polls d !! poll = Some p ->
  (is_Some (local_status_id p) -> Forall (fun o => o.2 = 0) opts) ->
  replace_options poll opts w d = (Ok tt, w', d') ->
  tables_ok d' /\ polls d' = polls d /\
  forall k, voters k d' = if (poll =? k)%N then ∅ else voters k d.
Proof.
  intros Hok Hp Hzero Hrun. unfold replace_options in Hrun.
  inv_bind Hrun u w1 d1 Hd. injection Hd as _ <- <-.
  eapply insert_options_tables in Hrun as (Hok1 & Hp1 & Hv1);
    [|by apply tables_ok_delete_options|done|by apply delete_options_clears_votes|].
  2: { intros Hl. apply Forall_forall. intros o Ho.
    apply elem_of_lookup_imap in Ho as (i & t & -> & Ht). simpl.
    specialize (Hzero Hl). rewrite Forall_forall in Hzero. apply Hzero.
    by eapply list_elem_of_lookup_2. }
  split_and!; [done|done|]. intros k. rewrite <- voters_delete_options by done.
  unfold voters. by rewrite Hv1.
Qed.

(** [delete_poll] with its cascades. *)
Lemma tally_ok_delete_poll d k : tally_ok d -> tally_ok (delete_poll k d).
Proof.
  intros [Hok Hvo]. unfold delete_poll. rewrite delete_options_then_votes by done.
  pose proof (tables_ok_delete_options d k Hok) as Hok1.
  assert (Hno : forall i o, poll_options (delete_options k d) !! i = Some o -> i.1 <> k).
  { intros i o. simpl. rewrite lookup_delete_where.
    destruct (poll_options d !! i) as [o'|] eqn:Ho; [|done].
    destruct (option_of_poll k o') eqn:Hk; [done|]. intros _ Heq.
    unfold option_of_poll in Hk. apply N.eqb_neq in Hk. apply Hk.
    pose proof (option_keys _ Hok _ _ Ho) as Hkey. subst k. by rewrite <- Hkey. }
  destruct Hok1 as [K1 K2 K3 K4 K5 K6]. split.
  - split; simpl; try done.
    + intros k' q [_ Hq]%lookup_delete_Some. by apply K1.
    + intros k' o Ho. rewrite lookup_delete_ne; [by eapply K3|].
      intros ->. by eapply Hno.
    + intros k' q pos o [_ Hq]%lookup_delete_Some. by apply (K6 k' q).
  - intros k' q Hq Hl. simpl in Hq. apply lookup_delete_Some in Hq as [Hne Hq].
    change (voters k' (with_polls _ ?x)) with (voters k' x).
    rewrite voters_delete_options by done. rewrite (proj2 (N.eqb_neq _ _) Hne). by apply Hvo.
Qed.

(** * The operations *)

Section Operations.
Context (graphemes : text -> Z) (uuid_text : uuid -> string).

(** [insert_poll] of a row whose voter count starts at zero. *)
Lemma insert_poll_tally p w d w' d' :
  tally_ok d -> (is_Some (local_status_id p) -> row_voters_count p = Some 0) ->
  insert_poll p w d = (Ok tt, w', d') ->
  tally_ok d' /\ polls d' = <[row_id p := p]> (polls d).
Proof using Type.
  intros [Hok Hvo] Hzero Hrun.
  assert (polls d !! row_id p = None /\ d' = with_polls <[row_id p := p]> d) as [Hk ->].
  { revert Hrun. unfold insert_poll. run_unfold.
    destruct (bool_decide (is_Some _)) eqn:Hk; [done|].
    apply bool_decide_eq_false, eq_None_not_Some in Hk.
    destruct (local_status_id p), (remote_status_id p); try done;
      repeat (destruct (bool_decide _); simpl; try done); by intros [= _ <-]. }
  split; [|done]. split; [by apply tables_ok_insert_poll|].
  intros k q. simpl. change (voters k (with_polls _ ?x)) with (voters k x).
  rewrite lookup_insert. case_decide; [|apply Hvo]. subst k. intros [= <-] Hl.
  rewrite (proj1 (voters_none _ _) (fresh_poll_no_votes _ _ Hok Hk)), size_empty.
  by apply Hzero.
Qed.

Lemma update_poll_inv p w d u w' d' :
  update_poll p w d = (Ok u, w', d') -> d' = with_polls <[row_id p := p]> d.
Proof using Type.
  unfold update_poll. run_unfold. destruct (bool_decide (polls d !! _ = None)); [done|].
  by intros [= _ _ <-].
Qed.

(** Replacing the options of a poll whose voter count is reset. *)
Lemma replace_and_update_tally poll opts p p' w d w1 d1 w2 d2 :
  tally_ok d -> polls d !! poll = Some p -> row_id p' = poll ->
  local_status_id p' = local_status_id p ->
  (is_Some (local_status_id p) -> Forall (fun o => o.2 = 0) opts /\ row_voters_count p' = Some 0) ->
  replace_options poll opts w d = (Ok tt, w1, d1) ->
  update_poll p' w1 d1 = (Ok tt, w2, d2) -> tally_ok d2.
Proof using Type.
  intros [Hok Hvo] Hp Hid Hl Hzero Hrep Hup.
  eapply replace_options_tables in Hrep as (Hok1 & Hp1 & Hv1);
    [|done|done|intros Hs; by apply Hzero].
  apply update_poll_inv in Hup as ->. rewrite Hid.
  split; [eapply tables_ok_update; try done; congruence|].
  intros k q. simpl. change (voters k (with_polls _ ?x)) with (voters k x).
  rewrite lookup_insert, Hv1. case_decide as Hk.
  - subst k. intros [= <-] Hs. rewrite N.eqb_refl, size_empty.
    rewrite Hl in Hs. by apply Hzero.
  - rewrite Hp1, (proj2 (N.eqb_neq _ _) Hk). apply Hvo.
Qed.

(** Updating a poll row without touching options or votes. *)
Lemma update_tally p p' w d w' d' :
  tally_ok d -> polls d !! row_id p' = Some p -> local_status_id p' = local_status_id p ->
  row_voters_count p' = row_voters_count p ->
  update_poll p' w d = (Ok tt, w', d') -> tally_ok d'.
Proof using Type.
  intros [Hok Hvo] Hp Hl Hc Hup.
  apply update_poll_inv in Hup as ->.
  split; [by eapply tables_ok_update|].
  intros k q. simpl. change (voters k (with_polls _ ?x)) with (voters k x).
  rewrite lookup_insert. case_decide; [|apply Hvo]. subst k. intros [= <-].
  rewrite Hl, Hc. by apply Hvo.
Qed.

Lemma head_poll (q : PollRow -> bool) d p :
  tables_ok d -> head (rows_where q (polls d)) = Some p ->
  polls d !! row_id p = Some p /\ q p = true.
Proof using Type.
  intros Hok. apply head_row_keyed, (poll_keys _ Hok).
Qed.

Lemma create_local_poll_tally s input w d p w' d' :
  tally_ok d -> create_local_poll graphemes uuid_text s input w d = (Ok p, w', d') -> tally_ok d'.
Proof using Type.
  intros Hd Hrun. unfold create_local_poll in Hrun.
  inv_bind Hrun u w1 d1 H1. apply lift_result_Ok in H1 as (_ & -> & ->).
  inv_bind Hrun now w2 d2 H2. injection H2 as _ _ <-.
  inv_bind Hrun pid w3 d3 H3. injection H3 as _ _ <-.
  inv_bind Hrun u4 w4 d4 H4. destruct u4.
  apply insert_poll_tally in H4 as [[Hok4 Hvo4] Hp4]; [|done|done]. simpl in Hp4.
  inv_bind Hrun u5 w5 d5 H5. destruct u5.
  eapply replace_options_tables in H5 as (Hok5 & Hp5 & Hv5);
    [|done|rewrite Hp4; apply lookup_insert_eq|intros _; apply Forall_forall;
      intros o Ho; apply list_elem_of_fmap in Ho as (t & -> & _); done].
  inv_bind Hrun u6 w6 d6 H6. apply (keeps_run core) in H6; [|apply keeps_core_expiration].
  inv_bind Hrun f w7 d7 H7. apply (keeps_run core) in H7; [|apply keeps_core_find].
  apply lift_option_Ok in Hrun as (_ & _ & ->).
  apply (tally_ok_core d5); [congruence|]. split; [done|].
  intros k q. rewrite Hp5, Hp4, lookup_insert, Hv5. case_decide as Hk.
  - subst k. intros [= <-] _. by rewrite N.eqb_refl, size_empty.
  - rewrite (proj2 (N.eqb_neq _ _) Hk). intros Hq Hs. apply Hvo4; [|done].
    by rewrite Hp4, lookup_insert_ne.
Qed.
Lemma replace_local_poll_tally s input w d r w' d' :
  tally_ok d -> replace_local_poll graphemes uuid_text s input w d = (Ok r, w', d') -> tally_ok d'.
Proof using Type.
  intros Hd Hrun. unfold replace_local_poll in Hrun.
  inv_bind Hrun d0 w0 d0' H0. injection H0 as <- <- <-.
  destruct (head _) as [p|] eqn:Hh; [apply (head_poll _ _ _ (proj1 Hd)) in Hh as [Hp Hs]|];
    destruct input as [input|].
  - inv_bind Hrun u w1 d1 H1. apply lift_result_Ok in H1 as (_ & -> & ->).
    inv_bind Hrun now w2 d2 H2. injection H2 as _ _ <-.
    set (changed := (_ || _)%bool) in Hrun.
    set (p' := reopened_row _ _ _ _ _) in Hrun.
    inv_bind Hrun u3 w3 d3 H3. destruct u3. inv_bind Hrun u4 w4 d4 H4. destruct u4.
    inv_bind Hrun u5 w5 d5 H5. apply (keeps_run core) in H5; [|apply keeps_core_expiration].
    apply (keeps_run core) in Hrun; [|apply keeps_core_find].
    apply (tally_ok_core d4); [congruence|].
    destruct changed eqn:Hc.
    + inv_bind H3 u6 w6 d6 H6. injection H6 as _ <- <-.
      unfold replace_options in H3. inv_bind H3 u7 w7 d7 H7. injection H7 as _ <- <-.
      rewrite delete_votes_then_options in H3 by apply Hd.
      eapply (replace_and_update_tally (row_id p)
        ((fun title => (title, 0)) <$> new_options input) p p' w2 d); try done.
      intros _. split; [|done]. apply Forall_forall.
      by intros o (t & -> & _)%list_elem_of_fmap.
    + injection H3 as _ <-. by eapply (update_tally p p').
  - inv_bind Hrun u w1 d1 H1. injection H1 as _ <- <-. injection Hrun as _ _ <-.
    by apply tally_ok_delete_poll.
  - inv_bind Hrun u w1 d1 H1. apply lift_result_Ok in H1 as (_ & -> & ->).
    inv_bind Hrun now w2 d2 H2. injection H2 as _ _ <-.
    inv_bind Hrun c w3 d3 H3. injection Hrun as _ _ <-. by eapply create_local_poll_tally.
  - by injection Hrun as _ _ <-.
Qed.

Lemma remote_not_local d p s :
  has_status (Remote s) p = true -> (exists w x w' d', hydrate_poll p w d = (Ok x, w', d')) ->
  ~ is_Some (local_status_id p).
Proof using Type.
  simpl. intros Hs (w & x & w' & d' & Hh) [l Hl]. boolp. revert Hh. unfold hydrate_poll.
  run_unfold. by rewrite Hl, Hs.
Qed.

Lemma find_poll_status k w d p w' d' q :
  find_poll_by_id k w d = (Ok (Some p), w', d') -> polls d !! k = Some q ->
  exists w x w' d', hydrate_poll q w d = (Ok x, w', d').
Proof using Type.
  unfold find_poll_by_id. intros Hrun Hq. inv_bind Hrun d0 w0 d0' H0. injection H0 as <- <- <-.
  rewrite Hq in Hrun. inv_bind Hrun x w1 d1 H1. eauto.
Qed.

Lemma upsert_remote_poll_tally s input w d p w' d' :
  tally_ok d -> upsert_remote_poll uuid_text s input w d = (Ok p, w', d') -> tally_ok d'.
Proof using Type.
  intros Hd Hrun. unfold upsert_remote_poll in Hrun. destruct (_ || _)%bool; [done|].
  inv_bind Hrun now w1 d1 H1. injection H1 as _ _ <-.
  inv_bind Hrun d0 w0 d0' H0. injection H0 as <- <- <-.
  destruct (counts_stored input); [|done].
  inv_bind Hrun uc wc dc Hc. injection Hc as _ <- <-.
  inv_bind Hrun pid w2 d2 H2.
  inv_bind Hrun u3 w3 d3 H3. apply (keeps_run core) in H3;
    [|destruct (remote_closed_at input), (remote_expires_at input);
      try apply keeps_core_expiration; apply keeps_ret].
  inv_bind Hrun f w4 d4 H4. pose proof H4 as Hfind.
  apply (keeps_run core) in H4; [|apply keeps_core_find].
  apply lift_option_Ok in Hrun as (Hf & _ & ->). subst f.
  apply (tally_ok_core d2); [congruence|].
  assert (Hst : forall q, polls d2 !! pid = Some q -> exists w x w' d', hydrate_poll q w d3 = (Ok x, w', d')).
  { intros q Hq. apply (find_poll_status _ _ _ _ _ _ q) in Hfind; [done|].
    unfold core in H3. congruence. }
  clear H3 H4 Hfind. destruct (head _) as [q|] eqn:Hh.
  - apply (head_poll _ _ _ (proj1 Hd)) in Hh as [Hq Hs].
    set (changed := (_ || _)%bool) in H2.
    inv_bind H2 u5 w5 d5 H5. destruct u5. inv_bind H2 u6 w6 d6 H6. destruct u6.
    inv_bind H2 u7 w7 d7 H7. destruct u7. injection H2 as <- <- <-.
    assert (H6' : replace_options (row_id q) (remote_options input) w5 d = (Ok tt, w6, d6)).
    { destruct changed; [|by injection H5 as <- <-]. injection H5 as <- <-.
      revert H6. unfold replace_options. unfold mbind, M_bind, modify.
      by rewrite delete_votes_then_options by apply Hd. }
    assert (Hnl : ~ is_Some (local_status_id q)).
    { assert (polls d7 !! row_id q = Some (refreshed_row input now q)) as Hq7
        by (apply update_poll_inv in H7 as ->; apply lookup_insert_eq).
      apply Hst in Hq7. by apply (remote_not_local d3 (refreshed_row input now q) s) in Hq7. }
    eapply (replace_and_update_tally (row_id q) (remote_options input) q
      (refreshed_row input now q)); try done.
  - inv_bind H2 i w5 d5 H5. injection H5 as _ _ <-.
    inv_bind H2 u6 w6 d6 H6. destruct u6. inv_bind H2 u7 w7 d7 H7. destruct u7.
    injection H2 as <- <- <-.
    apply insert_poll_tally in H6 as [[Hok6 Hvo6] Hp6]; [|done|by intros []]. simpl in Hp6.
    eapply replace_options_tables in H7 as (Hok7 & Hp7 & Hv7);
      [|done|rewrite Hp6; apply lookup_insert_eq|by intros []].
    split; [done|]. intros k q. rewrite Hp7, Hv7. intros Hk Hl.
    destruct (N.eqb_spec i k) as [<-|_]; [|by apply Hvo6].
    rewrite Hp6, lookup_insert_eq in Hk. injection Hk as <-. by destruct Hl.
Qed.

Lemma expire_poll_tally k w d r w' d' :
  tally_ok d -> expire_poll uuid_text k w d = (Ok r, w', d') -> tally_ok d'.
Proof using Type.
  intros Hd Hrun. destruct r as [x|]; [destruct (newly_expired x) eqn:Hx|].
  - apply (expire_poll_inv _ _ _ _ _ _ _ (proj1 Hd)) in Hrun; [|done].
    destruct Hrun as (model & a & ra & st & rst & au & now & d1 & Hp & _ & _ & _ & _ &
      (Hp1 & Hv1 & Hl1 & Ho1) & -> & _).
    assert (tally_ok d1) as [Hok Hvo] by (apply (tally_ok_core d); [unfold core; congruence|done]).
    pose proof (poll_keys _ (proj1 Hd) _ _ Hp) as Hid. rewrite <- Hp1 in Hp.
    split; [by eapply tables_ok_update|].
    intros k' q. simpl. change (voters k' (with_polls _ ?x)) with (voters k' x).
    rewrite lookup_insert. case_decide; [|apply Hvo]. subst k'. intros [= <-]. by apply (Hvo _ model).
  - rewrite (expire_poll_idle _ _ _ _ _ _ _ Hrun); [done|]. by intros ? [= <-].
  - by rewrite (expire_poll_idle _ _ _ _ _ _ _ Hrun).
Qed.

(** Every committed operation on the poll tables. *)
Inductive step (d : Db) : Db -> Prop :=
| step_create s input w p w' d' :
    create_local_poll graphemes uuid_text s input w d = (Ok p, w', d') -> step d d'
| step_vote poll a choices w p w' d' :
    vote_in_poll poll a choices w d = (Ok p, w', d') -> step d d'
| step_remote_vote poll a choice ap w p w' d' :
    record_remote_poll_vote poll a choice ap w d = (Ok p, w', d') -> step d d'
| step_replace s input w r w' d' :
    replace_local_poll graphemes uuid_text s input w d = (Ok r, w', d') -> step d d'
| step_refresh s input w p w' d' :
    upsert_remote_poll uuid_text s input w d = (Ok p, w', d') -> step d d'
| step_expire poll w r w' d' :
    expire_poll uuid_text poll w d = (Ok r, w', d') -> step d d'
| step_delete poll : step d (delete_poll poll d)
| step_update_job poll at_ w :
    step d (store_of (enqueue_poll_update uuid_text poll at_) w d)
| step_outside d' : core d' = core d -> step d d'.

Inductive reachable (d0 : Db) : Db -> Prop :=
| reachable_start : reachable d0 d0
| reachable_step d1 d2 : reachable d0 d1 -> step d1 d2 -> reachable d0 d2.

Lemma step_tally d d' : tally_ok d -> step d d' -> tally_ok d'.
Proof using Type.
  intros Hd Hs. destruct Hs.
  - by eapply create_local_poll_tally.
  - by eapply vote_tally.
  - by eapply vote_tally.
  - by eapply replace_local_poll_tally.
  - by eapply upsert_remote_poll_tally.
  - by eapply expire_poll_tally.
  - by apply tally_ok_delete_poll.
  - by eapply tally_ok_core, Hd; rewrite keeps_core_update.
  - by eapply tally_ok_core, Hd.
Qed.

(** C31. In every history of committed operations (polls created, edited,
    refreshed, expired and deleted, and votes cast by local accounts and remote
    actors) the tables stay consistent and the tallies exact: every vote refers
    to an option of its poll, the stored count of every option of a local poll
    is the number of votes for it, and its voter count is the number of
    distinct voters. *)
Theorem reachable_tally_ok d0 d : tally_ok d0 -> reachable d0 d -> tally_ok d.
Proof using Type. intros H0. induction 1; [done|]. by eapply step_tally. Qed.
(** * Reopening an expired poll *)

Definition surroundings (d : Db) := (notifications d, local_statuses d).

Lemma keeps_surroundings_option poll o : keeps surroundings (insert_option poll o).
Proof using Type. unfold insert_option. solve_keeps. Qed.

Lemma keeps_surroundings_replace s input :
  keeps surroundings (replace_local_poll graphemes uuid_text s input).
Proof using Type.
  unfold replace_local_poll, replace_options, create_local_poll, insert_poll,
    update_poll, enqueue_poll_expiration, find_poll_by_id, hydrate_poll.
  solve_keeps; apply keeps_surroundings_option.
Qed.

(** At most one poll per local status, the unique key of the table. *)
Definition one_poll_per_status (d : Db) : Prop := forall k1 k2 p1 p2 s,
  polls d !! k1 = Some p1 -> polls d !! k2 = Some p2 ->
  local_status_id p1 = Some s -> local_status_id p2 = Some s -> k1 = k2.

Lemma one_poll_update d k p p' :
  one_poll_per_status d -> polls d !! k = Some p -> local_status_id p' = local_status_id p ->
  one_poll_per_status (with_polls <[k := p']> d).
Proof using Type.
  intros Hone Hp Hl.
  assert (Hback : forall k' q s, <[k := p']> (polls d) !! k' = Some q ->
    local_status_id q = Some s -> exists q', polls d !! k' = Some q' /\ local_status_id q' = Some s).
  { intros k' q s. rewrite lookup_insert. case_decide; [|by eauto]. subst k'.
    intros [= <-] Hq. exists p. by rewrite <- Hl. }
  intros k1 k2 p1 p2 s H1 H2 Hs1 Hs2.
  destruct (Hback _ _ _ H1 Hs1) as (q1 & Hq1 & Hl1).
  destruct (Hback _ _ _ H2 Hs2) as (q2 & Hq2 & Hl2). by eapply Hone.
Qed.

Lemma replace_local_poll_reopens s input w d r w' d' k p :
  tables_ok d -> one_poll_per_status d -> polls d !! k = Some p ->
  local_status_id p = Some (status_uuid s) ->
  replace_local_poll graphemes uuid_text s (Some input) w d = (Ok r, w', d') ->
  exists q, polls d' !! k = Some q /\ row_id q = k /\ local_status_id q = local_status_id p /\
    remote_status_id q = remote_status_id p /\ notifications_sent_at q = None.
Proof using Type.
  intros Hok Hone Hp Hs Hrun. unfold replace_local_poll in Hrun.
  inv_bind Hrun d0 w0 d0' H0. injection H0 as <- <- <-.
  inv_bind Hrun u w1 d1 H1. apply lift_result_Ok in H1 as (_ & -> & ->).
  inv_bind Hrun now w2 d2 H2. injection H2 as _ _ <-.
  destruct (head _) as [p2|] eqn:Hh.
  2: { assert (rows_where (has_status (Local s)) (polls d) = []) as Hnil
         by (by destruct (rows_where _ _)).
       rewrite rows_where_nil in Hnil. specialize (Hnil _ _ Hp). simpl in Hnil. boolp. congruence. }
  apply (head_poll _ _ _ Hok) in Hh as [Hp2 Hs2]. simpl in Hs2. boolp.
  assert (row_id p2 = k) as Hk by (by eapply Hone).
  assert (p2 = p) as -> by (rewrite Hk in Hp2; congruence).
  inv_bind Hrun u3 w3 d3 H3. inv_bind Hrun u4 w4 d4 H4.
  apply update_poll_inv in H4 as ->. simpl in Hrun.
  inv_bind Hrun u5 w5 d5 H5. apply (keeps_run core) in H5; [|apply keeps_core_expiration].
  apply (keeps_run core) in Hrun; [|apply keeps_core_find].
  rewrite H5 in Hrun. injection Hrun as -> _ _. simpl.
  eexists. rewrite Hk, lookup_insert_eq. by split_and!.
Qed.

(** The author of a local poll is notified by its first expiry. *)
Lemma first_expiry_notifies_author s k p w d x w1 d1 :
  tables_ok d -> polls d !! k = Some p -> local_status_id p = Some (status_uuid s) ->
  expire_poll uuid_text k w d = (Ok (Some x), w1, d1) -> newly_expired x = true ->
  exists author id now d0,
    local_statuses d !! status_uuid s = Some author /\ remote_status_id p = None /\
    notifications d0 !! id =
      Some (poll_notification id author (Some author) None (Some (status_uuid s)) None now) /\
    core d0 = core d /\ local_statuses d0 = local_statuses d /\
    d1 = with_polls <[k := expired_row now p]> d0.
Proof using Type.
  intros Hok Hp Hs Hexp Hnew.
  destruct (expire_poll_inv _ _ _ _ _ _ _ Hok Hexp Hnew)
    as (model & a & ra & st & rst & au & now & d0 & Hp' & _ & Href & Hacc & Hin &
        (Hp0 & Hv0 & Hl0 & Ho0) & -> & _).
  rewrite Hp in Hp'. injection Hp' as <-.
  assert (exists author, local_statuses d !! status_uuid s = Some author /\
    remote_status_id p = None /\
    (a, ra, st, rst, au) = (Some author, None, Some (status_uuid s), None, [author]))
    as (author & Hau & Hrs & [= -> -> -> -> ->]).
  { specialize (Href w). revert Href. unfold expiry_reference. run_unfold. rewrite Hs.
    destruct (remote_status_id p); [done|].
    destruct (local_statuses d !! status_uuid s) as [author|]; [|done].
    intros [= <- <- <- <- <-]. by eexists. }
  assert (author ∈ Notifications.account_id <$> expiration_notifications x) as Ha.
  { rewrite Hacc. apply elem_of_sorted_dedup, elem_of_app. right. left. }
  apply list_elem_of_fmap in Ha as (m & Hau' & Hm). apply Hin in Hm as (id & rcp & -> & Hm).
  simpl in Hau'. subst rcp. exists author, id, now, d0.
  split_and!; try done. unfold core. congruence.
Qed.

(** A due expiry of an unsent poll fails when the author has been notified of the
    same poll before. *)
Lemma expire_due_conflict q s author id now0 now w d :
  local_status_id q = Some (status_uuid s) -> remote_status_id q = None ->
  notifications_sent_at q = None -> local_statuses d !! status_uuid s = Some author ->
  notifications d !! id =
    Some (poll_notification id author (Some author) None (Some (status_uuid s)) None now0) ->
  exists e, value_of (expire_due uuid_text q now) w d = Err e /\ Notifications.unique_error e.
Proof using Type.
  intros Hql Hqr Hqs Hau Hm. unfold expire_due. rewrite Hqs. simpl. unfold expiry_reference.
  run_unfold. rewrite Hql, Hqr. simpl. rewrite Hau. simpl.
  destruct (collect_send_expiry_conflict uuid_text (Some author) None
    (Some (status_uuid s)) None now
    (dedup (order_by N.leb (local_voters (row_id q) d ++ [author]))) author
    (poll_notification id author (Some author) None (Some (status_uuid s)) None now0) id w d)
    as (e & He & Hu).
  - apply elem_of_sorted_dedup, elem_of_app. right. left.
  - exact Hm.
  - unfold Notifications.same_event. simpl. rewrite !N.eqb_refl. done.
  - unfold value_of in He. exists e. split; [|done].
    match type of He with context [collect ?r ?b ?w ?d] =>
      destruct (collect r b w d) as [[[?|?] ?] ?] eqn:Hc end; simpl in He; [done|].
    by injection He as ->.
Qed.

(** A poll that has expired once cannot expire again after an edit reopens
    it: [replace_local_poll] forgets that the notifications were sent, but the
    author's notification of the first expiry still occupies the unique event
    index, so every later due expiry fails. *)
Theorem reopened_poll_never_expires s input k p w d x w1 d1 w2 r w3 d2 :
  tables_ok d -> one_poll_per_status d ->
  polls d !! k = Some p -> local_status_id p = Some (status_uuid s) ->
  expire_poll uuid_text k w d = (Ok (Some x), w1, d1) -> newly_expired x = true ->
  replace_local_poll graphemes uuid_text s (Some input) w2 d1 = (Ok r, w3, d2) ->
  forall w4,
    (exists q, polls d2 !! k = Some q /\ notifications_sent_at q = None) /\
    match value_of (expire_poll uuid_text k) w4 d2 with
    | Ok (Some y) => newly_expired y = false
    | Ok None => False
    | Err e => Notifications.unique_error e
    end.
Proof using Type.
  intros Hok Hone Hp Hs Hexp Hnew Hrep w4.
  destruct (first_expiry_notifies_author _ _ _ _ _ _ _ _ Hok Hp Hs Hexp Hnew)
    as (author & id & now & d0 & Hau & Hrs & Hm & Hc & Hl0 & ->).
  pose proof (poll_keys _ Hok _ _ Hp) as Hid.
  assert (tables_ok d0) as Hok0 by (by apply (tables_ok_core d)).
  pose proof Hc as Hp0. unfold core in Hp0. injection Hp0 as Hp0 _ _. rewrite <- Hp0 in Hp.
  destruct (replace_local_poll_reopens s input w2 (with_polls <[k := expired_row now p]> d0)
    r w3 d2 k (expired_row now p)) as (q & Hq & Hqid & Hql & Hqr & Hqs); try done.
  { by eapply tables_ok_update. }
  { apply (one_poll_update d0 k p); try done. intros k1 k2 p1 p2 s'. rewrite Hp0. apply Hone. }
  { apply lookup_insert_eq. }
  split; [by eexists|].
  pose proof (keeps_run surroundings _ _ _ _ _ _ (keeps_surroundings_replace _ _) Hrep) as Hsur.
  injection Hsur as Hnot Hloc. change (notifications d2 = notifications d0) in Hnot.
  change (local_statuses d2 = local_statuses d0) in Hloc. simpl in Hql, Hqr.
  assert (Hdue : forall now4 w5, exists e,
    value_of (expire_due uuid_text q now4) w5 d2 = Err e /\ Notifications.unique_error e).
  { intros now4 w5. apply (expire_due_conflict q s author id now); congruence. }
  unfold expire_poll. run_unfold. simpl. rewrite Hq.
  assert (forall w5, exists y, hydrate_poll q w5 d2 = (Ok y, w5, d2)) as Hhyd.
  { intros w5. unfold hydrate_poll. run_unfold. rewrite Hql, Hqr, Hs, Hrs. by eexists. }
  destruct (due_time q) as [due|]; [destruct (_ <? due)|].
  - match goal with |- context [hydrate_poll q ?w5 d2] => destruct (Hhyd w5) as [y ->] end. done.
  - match goal with |- context [expire_due _ q ?n ?w5 d2] => destruct (Hdue n w5) as (e & -> & Hu) end.
    done.
  - match goal with |- context [expire_due _ q ?n ?w5 d2] => destruct (Hdue n w5) as (e & -> & Hu) end.
    done.
Qed.
End Operations.

(** * A concrete history

    Account 7 posts status 10 with a two-option poll, account 3 votes, the poll
    expires, and an edit reopens it; a remote poll is cached, voted in and
    refreshed. *)

Definition sample_graphemes (t : text) : Z := Z.of_nat (length t).

Definition sample_db : Db :=
  mkDb ∅ ∅ ∅ ∅ ∅ {[10%N := 7%N]} {[20%N := 30%N]} (Notifications.mkDb ∅ ∅ ∅ ∅).

Definition sample_poll : NewStatusPoll := mkNewStatusPoll [lit "tea"; lit "coffee"] 300 false true.

Definition sample_created := create_local_poll sample_graphemes pretty (mkStatusId 10) sample_poll.
Definition sample_db1 := store_of sample_created sample_world sample_db.
Definition sample_world1 := world_of sample_created sample_world sample_db.
(** The identifier the poll was given. *)
Definition sample_id : uuid := 100.
Definition sample_vote := vote_in_poll sample_id (mkAccountId 3) [1].
Definition sample_db2 := store_of sample_vote sample_world1 sample_db1.
Definition sample_world2 := later_world (world_of sample_vote sample_world1 sample_db1).

Lemma sample_db_ok : tally_ok sample_db.
Proof. split; [split|]; intros *; unfold sample_db; simpl; by rewrite ?lookup_empty. Qed.

Lemma sample_reachable : reachable sample_graphemes pretty sample_db sample_db2.
Proof.
  eapply reachable_step; [eapply reachable_step; [apply reachable_start|]|].
  - destruct (run_ok sample_created sample_world sample_db) as (p & _ & Hrun);
      [vm_compute; reflexivity|]. by eapply step_create.
  - destruct (run_ok sample_vote sample_world1 sample_db1) as (p & _ & Hrun);
      [vm_compute; reflexivity|]. by eapply step_vote.
Qed.

Lemma reachable_tally_ok_witness :
  tally_ok sample_db2 /\ rows_where (of_poll sample_id) (votes sample_db2) <> [].
Proof.
  split; [|vm_compute; discriminate].
  apply (reachable_tally_ok sample_graphemes pretty sample_db sample_db2);
    [exact sample_db_ok|exact sample_reachable].
Defined.

Lemma sample_db1_ok : tally_ok sample_db1.
Proof.
  destruct (run_ok sample_created sample_world sample_db) as (p & _ & Hrun);
    [vm_compute; reflexivity|].
  eapply create_local_poll_tally; [exact sample_db_ok|exact Hrun].
Qed.

Lemma sample_db2_ok : tally_ok sample_db2.
Proof.
  destruct (run_ok sample_vote sample_world1 sample_db1) as (p & _ & Hrun);
    [vm_compute; reflexivity|].
  eapply (vote_tally sample_id (Some (mkAccountId 3)) None [1] None); [exact sample_db1_ok|exact Hrun].
Qed.

Lemma local_vote_is_final_witness :
  voted (viewer_state sample_db2 sample_id (mkAccountId 3)) = true.
Proof.
  destruct (run_ok sample_vote sample_world1 sample_db1) as (p & _ & Hrun);
    [vm_compute; reflexivity|].
  exact (proj1 (local_vote_is_final sample_id (mkAccountId 3) [1] sample_world1 sample_db1 p
    _ _ (proj1 sample_db1_ok) Hrun)).
Defined.

Definition sample_expiry := expire_poll pretty sample_id.
Definition sample_db3 := store_of sample_expiry sample_world2 sample_db2.
Definition sample_world3 := world_of sample_expiry sample_world2 sample_db2.

(** The value of a run that must be an expiration. *)
Definition expiration_of (r : result (option PollExpiration) RoostyError) : option PollExpiration :=
  match r with Ok o => o | Err _ => None end.

Lemma sample_expires : exists x,
  sample_expiry sample_world2 sample_db2 = (Ok (Some x), sample_world3, sample_db3) /\
  newly_expired x = true /\ length (expiration_notifications x) = 2%nat.
Proof.
  destruct (run_ok sample_expiry sample_world2 sample_db2) as (o & Ho & Hrun);
    [vm_compute; reflexivity|].
  assert (Hc : match expiration_of (value_of sample_expiry sample_world2 sample_db2) with
    | Some x => newly_expired x && (length (expiration_notifications x) =? 2)%nat
    | None => false end = true) by (vm_compute; reflexivity).
  rewrite Ho in Hc. simpl in Hc. destruct o as [x|]; [|discriminate Hc].
  apply andb_true_iff in Hc as [Hx Hl]. apply Nat.eqb_eq in Hl. exists x.
  split; [exact Hrun|split; [exact Hx|exact Hl]].
Qed.

Lemma expire_poll_notifies_once_witness : exists x,
  NoDup (Notifications.account_id <$> expiration_notifications x) /\
  length (expiration_notifications x) = 2%nat.
Proof.
  destruct sample_expires as (x & Hrun & Hx & Hl). exists x. split; [|exact Hl].
  exact (proj1 (expire_poll_notifies_once pretty sample_id sample_world2 sample_db2 x _ _
    (proj1 sample_db2_ok) Hrun Hx)).
Defined.

Definition sample_edit := replace_local_poll sample_graphemes pretty (mkStatusId 10) (Some sample_poll).
Definition sample_db4 := store_of sample_edit sample_world3 sample_db3.

Lemma one_poll_single d k p : polls d = {[k := p]} -> one_poll_per_status d.
Proof.
  intros Hd k1 k2 p1 p2 s. rewrite Hd. intros [<- _]%lookup_singleton_Some [<- _]%lookup_singleton_Some.
  done.
Qed.

Lemma reopened_poll_never_expires_witness : exists q,
  polls sample_db4 !! sample_id = Some q /\ notifications_sent_at q = None.
Proof.
  destruct sample_expires as (x & Hrun & Hx & _).
  destruct (run_ok sample_edit sample_world3 sample_db3) as (r & _ & Hedit);
    [vm_compute; reflexivity|].
  assert (Hp : exists p, polls sample_db2 = {[sample_id := p]} /\
                         local_status_id p = Some (status_uuid (mkStatusId 10))).
  { eexists. split; vm_compute; reflexivity. }
  destruct Hp as (p & Hp & Hs).
  assert (Hl : polls sample_db2 !! sample_id = Some p) by (rewrite Hp; apply lookup_singleton_eq).
  exact (proj1 (reopened_poll_never_expires sample_graphemes pretty (mkStatusId 10) sample_poll
    sample_id p sample_world2 sample_db2 x sample_world3 sample_db3 sample_world3 r _ _
    (proj1 sample_db2_ok) (one_poll_single _ _ _ Hp) Hl Hs Hrun Hx Hedit sample_world)).
Defined.

(** A cached remote poll with the same options before and after a refresh. *)
Definition sample_remote : RemoteStatusPoll :=
  mkRemoteStatusPoll [(lit "yes", 4); (lit "no", 2)] false None None (Some 6).
Definition sample_refresh := upsert_remote_poll pretty (mkStatusId 20) sample_remote.
Definition sample_db5 := store_of sample_refresh sample_world sample_db.
Definition sample_world5 := world_of sample_refresh sample_world sample_db.
Definition sample_db6 := store_of sample_vote sample_world5 sample_db5.
Definition sample_db7 := store_of sample_refresh (later_world sample_world5) sample_db6.

Lemma sample_db6_ok : tally_ok sample_db6.
Proof.
  destruct (run_ok sample_refresh sample_world sample_db) as (p & _ & Hrun);
    [vm_compute; reflexivity|].
  destruct (run_ok sample_vote sample_world5 sample_db5) as (p2 & _ & Hvote);
    [vm_compute; reflexivity|].
  eapply (vote_tally sample_id (Some (mkAccountId 3)) None [1] None); [|exact Hvote].
  eapply upsert_remote_poll_tally; [exact sample_db_ok|exact Hrun].
Qed.

Lemma remote_refresh_forgets_votes_witness :
  own_votes (viewer_state sample_db6 sample_id (mkAccountId 3)) = [1] /\
  own_votes (viewer_state sample_db7 sample_id (mkAccountId 3)) = [].
Proof.
  split; [vm_compute; reflexivity|].
  destruct (run_ok sample_refresh (later_world sample_world5) sample_db6) as (p & _ & Hrun);
    [vm_compute; reflexivity|].
  assert (Hm : exists m, head (rows_where (has_status (Remote (mkStatusId 20))) (polls sample_db6))
            = Some m /\ row_id m = sample_id /\ row_multiple m = remote_multiple sample_remote).
  { eexists. split_and!; vm_compute; reflexivity. }
  destruct Hm as (m & Hh & Hid & Hmul).
  assert (Ht : option_title <$> options_in_order sample_id sample_db6
               = fst <$> remote_options sample_remote) by (vm_compute; reflexivity).
  exact (proj2 (remote_refresh_forgets_votes pretty (mkStatusId 20) sample_remote _ sample_db6 p
    _ _ sample_id m (proj1 sample_db6_ok) Hh Hid Hmul Ht Hrun) (mkAccountId 3)).
Defined.
