(* ===== verification/Relations.v ===== *)
(** Relationships between accounts ([crates/db/src/lib.rs]): local follows,
    blocks and mutes, the follows and blocks shared with remote actors, actor
    moves, domain suspension, and the private lists whose members are followed
    accounts.

    Every operation runs inside its caller's transaction.  The advisory locks of
    [lock_local_remote_relation] and of a list make the operations on one
    relation serial; they have no other effect and are not statements of the
    model.  Identifiers drawn with [Uuid::now_v7()] are fresh, and the account
    that makes a request exists; the other keys and constraints are modelled. *)
From S2P Require Import Prelude Core Text.
From S2P Require Jobs Notifications.

(** * Data *)

Inductive RemoteFollowState : Type := Pending | Accepted.

#[export] Instance RemoteFollowState_eq_dec : EqDecision RemoteFollowState.
Proof. solve_decision. Defined.

(** Rows of [local_follow], keyed by (follower, followed). *)
Record FollowRow := mkFollowRow {
  follow_id : uuid;
  follow_show_reblogs : bool;
  follow_notify : bool;
  follow_created_at : time;
  follow_updated_at : time;
}.

(** Rows of the two mute tables, keyed by (account, target). *)
Record MuteRow := mkMuteRow {
  mute_id : uuid;
  mute_notifications : bool;
  mute_expires_at : option time;
  mute_created_at : time;
  mute_updated_at : time;
}.

(** Rows of [remote_follow], keyed by (remote actor, local account). *)
Record RemoteFollowRow := mkRemoteFollowRow {
  rf_id : uuid;
  rf_remote : uuid;
  rf_local : uuid;
  rf_activity_id : string;
  rf_activity : JsonValue;
  rf_state : RemoteFollowState;
  rf_created_at : time;
  rf_updated_at : time;
}.

(** Rows of [remote_following], keyed by (local account, remote actor). *)
Record FollowingRow := mkFollowingRow {
  fg_id : uuid;
  fg_local : uuid;
  fg_remote : uuid;
  fg_activity_id : string;
  fg_state : RemoteFollowState;
  fg_show_reblogs : bool;
  fg_notify : bool;
  fg_deactivated_at : option time;
  fg_updated_at : time;
}.

(** Rows of the two tables of blocks shared with remote actors. *)
Record RemoteBlockRow := mkRemoteBlockRow {
  rb_id : uuid;
  rb_activity_id : string;
}.

Record RemoteActorRow := mkRemoteActorRow {
  actor_domain : text;
  actor_profile_created_at : option time;
  actor_deleted_at : option time;
  actor_moved_to : option uuid;
  actor_limited_at : option time;
  actor_suspended_at : option time;
  actor_created_at : time;
}.

(** The columns of [local_account] that the operations on other accounts read. *)
Record AccountRow := mkAccountRow {
  account_discoverable : bool;
  account_limited_at : option time;
  account_suspended_at : option time;
  account_created_at : time;
}.

Inductive ListRepliesPolicy : Type := PolicyNone | PolicyList | PolicyFollowed.

Record ListRow := mkListRow {
  list_id : uuid;
  list_owner : uuid;
  list_title : string;
  list_replies_policy : ListRepliesPolicy;
  list_exclusive : bool;
  list_created_at : time;
  list_updated_at : time;
}.

Record Db := mkDb {
  local_accounts : gmap uuid AccountRow;
  local_follows : gmap (uuid * uuid) FollowRow;
  local_blocks : gmap (uuid * uuid) uuid;
  local_mutes : gmap (uuid * uuid) MuteRow;
  remote_actors : gmap uuid RemoteActorRow;
  local_remote_blocks : gmap (uuid * uuid) RemoteBlockRow;
  remote_local_blocks : gmap (uuid * uuid) RemoteBlockRow;
  remote_mutes : gmap (uuid * uuid) MuteRow;
  remote_follows : gmap (uuid * uuid) RemoteFollowRow;
  remote_followings : gmap (uuid * uuid) FollowingRow;
  lists : gmap uuid ListRow;
  list_local_members : gmap (uuid * uuid) uuid;
  list_remote_members : gmap (uuid * uuid) uuid;
  notification_db : Notifications.Db;
}.

Section Updates.
Context (d : Db).

Definition set_local_follows t := mkDb (local_accounts d) t (local_blocks d) (local_mutes d)
  (remote_actors d) (local_remote_blocks d) (remote_local_blocks d) (remote_mutes d)
  (remote_follows d) (remote_followings d) (lists d) (list_local_members d)
  (list_remote_members d) (notification_db d).
Definition set_local_blocks t := mkDb (local_accounts d) (local_follows d) t (local_mutes d)
  (remote_actors d) (local_remote_blocks d) (remote_local_blocks d) (remote_mutes d)
  (remote_follows d) (remote_followings d) (lists d) (list_local_members d)
  (list_remote_members d) (notification_db d).
Definition set_local_mutes t := mkDb (local_accounts d) (local_follows d) (local_blocks d) t
  (remote_actors d) (local_remote_blocks d) (remote_local_blocks d) (remote_mutes d)
  (remote_follows d) (remote_followings d) (lists d) (list_local_members d)
  (list_remote_members d) (notification_db d).
Definition set_local_remote_blocks t := mkDb (local_accounts d) (local_follows d)
  (local_blocks d) (local_mutes d) (remote_actors d) t (remote_local_blocks d)
  (remote_mutes d) (remote_follows d) (remote_followings d) (lists d)
  (list_local_members d) (list_remote_members d) (notification_db d).
Definition set_remote_local_blocks t := mkDb (local_accounts d) (local_follows d)
  (local_blocks d) (local_mutes d) (remote_actors d) (local_remote_blocks d) t
  (remote_mutes d) (remote_follows d) (remote_followings d) (lists d)
  (list_local_members d) (list_remote_members d) (notification_db d).
Definition set_remote_mutes t := mkDb (local_accounts d) (local_follows d) (local_blocks d)
  (local_mutes d) (remote_actors d) (local_remote_blocks d) (remote_local_blocks d) t
  (remote_follows d) (remote_followings d) (lists d) (list_local_members d)
  (list_remote_members d) (notification_db d).
Definition set_remote_follows t := mkDb (local_accounts d) (local_follows d) (local_blocks d)
  (local_mutes d) (remote_actors d) (local_remote_blocks d) (remote_local_blocks d)
  (remote_mutes d) t (remote_followings d) (lists d) (list_local_members d)
  (list_remote_members d) (notification_db d).
Definition set_remote_followings t := mkDb (local_accounts d) (local_follows d)
  (local_blocks d) (local_mutes d) (remote_actors d) (local_remote_blocks d)
  (remote_local_blocks d) (remote_mutes d) (remote_follows d) t (lists d)
  (list_local_members d) (list_remote_members d) (notification_db d).
Definition set_lists l m r := mkDb (local_accounts d) (local_follows d) (local_blocks d)
  (local_mutes d) (remote_actors d) (local_remote_blocks d) (remote_local_blocks d)
  (remote_mutes d) (remote_follows d) (remote_followings d) l m r (notification_db d).
Definition set_notification_db n := mkDb (local_accounts d) (local_follows d) (local_blocks d)
  (local_mutes d) (remote_actors d) (local_remote_blocks d) (remote_local_blocks d)
  (remote_mutes d) (remote_follows d) (remote_followings d) (lists d)
  (list_local_members d) (list_remote_members d) n.
End Updates.

#[export, refine] Instance notifications_part : Part Notifications.Db Db :=
  {| get_part := notification_db; put_part := fun n d => set_notification_db d n |}.
Proof. all: by intros *; try destruct s. Defined.

#[export, refine] Instance jobs_part : Part Jobs.table Db :=
  {| get_part := fun d => Notifications.jobs (notification_db d);
     put_part := fun j d =>
       put_part (put_part (Part := Notifications.jobs_part) j (notification_db d)) d |}.
Proof. all: intros; try destruct s as [? ? ? ? ? ? ? ? ? ? ? ? ? []]; reflexivity. Defined.

(** Enqueueing through the job table of the store. *)
Definition enqueue (job : Jobs.NewJob) : Op Db unit :=
  zoom (Jobs.enqueue_job_on_connection job);; mret tt.

(** * Lists owned by an account *)

Definition owned_by (owner : uuid) (d : Db) (list : uuid) : bool :=
  match lists d !! list with Some l => (list_owner l =? owner)%N | None => false end.

(** DELETE .. WHERE account_id = $member AND list_id IN (owned lists). *)
Definition remove_local_account_from_owned_lists (owner member : AccountId) : Op Db unit :=
  modify (fun d => set_lists d (lists d)
    (filter (fun kv => ~ (kv.1.2 = account_uuid member
                          /\ owned_by (account_uuid owner) d kv.1.1 = true))
       (list_local_members d))
    (list_remote_members d)).

Definition remove_remote_account_from_owned_lists (owner member : AccountId) : Op Db unit :=
  modify (fun d => set_lists d (lists d) (list_local_members d)
    (filter (fun kv => ~ (kv.1.2 = account_uuid member
                          /\ owned_by (account_uuid owner) d kv.1.1 = true))
       (list_remote_members d))).

(** * Local relationships *)

(** A block in either direction. *)
Definition local_pair_blocked (first second : AccountId) (d : Db) : bool :=
  bool_decide (is_Some (local_blocks d !! (account_uuid first, account_uuid second)))
  || bool_decide (is_Some (local_blocks d !! (account_uuid second, account_uuid first))).

Definition local_accounts_are_blocked (first second : AccountId) : Op Db bool :=
  if decide (first = second) then mret false
  else gets (local_pair_blocked first second).

Definition local_account_blocks (account target : AccountId) : Op Db bool :=
  gets (fun d => bool_decide (is_Some (local_blocks d !! (account_uuid account, account_uuid target)))).

(** The guards of [follow_local_account], before its write. *)
Definition follow_checks (follower followed : AccountId) : Op Db unit :=
  if decide (follower = followed) then throw (AccountRelationship SelfFollow)
  else
    d ← gets (fun d => d);
    if negb (bool_decide (account_uuid followed ∈ dom (local_accounts d)))
    then throw (AccountRelationship FollowTargetNotFound)
    else
      blocked ← local_accounts_are_blocked follower followed;
      if (blocked : bool) then throw (AccountRelationship FollowBlocked) else mret tt.

Definition follow_write (follower followed : AccountId) (show_reblogs notify : bool) :
    Op Db FollowRow :=
  now ← now_utc;
  d ← gets (fun d => d);
  let key := (account_uuid follower, account_uuid followed) in
  row ← (match local_follows d !! key with
         | Some m => mret (mkFollowRow (follow_id m) show_reblogs notify (follow_created_at m) now)
         | None => id ← uuid_now_v7; mret (mkFollowRow id show_reblogs notify now now)
         end);
  modify (fun d => set_local_follows d (<[key := row]> (local_follows d)));;
  mret row.

Definition follow_local_account (follower followed : AccountId) (show_reblogs notify : bool) :
    Op Db FollowRow :=
  follow_checks follower followed;; follow_write follower followed show_reblogs notify.

Definition delete_local_follow (follower followed : AccountId) : Op Db unit :=
  modify (fun d => set_local_follows d
    (delete (account_uuid follower, account_uuid followed) (local_follows d))).

Definition unfollow_local_account (follower followed : AccountId) : Op Db unit :=
  remove_local_account_from_owned_lists follower followed;;
  delete_local_follow follower followed.

Definition ensure_local_relation_target (account target : AccountId) : Op Db unit :=
  if decide (account = target) then throw (AccountRelationship SelfModeration)
  else
    d ← gets (fun d => d);
    if negb (bool_decide (account_uuid target ∈ dom (local_accounts d)))
    then throw (AccountRelationship ModerationTargetNotFound)
    else mret tt.

Definition block_local_account (account target : AccountId) : Op Db unit :=
  ensure_local_relation_target account target;;
  d ← gets (fun d => d);
  let key := (account_uuid account, account_uuid target) in
  (match local_blocks d !! key with
   | Some _ => mret tt
   | None =>
       now ← now_utc;
       id ← uuid_now_v7;
       modify (fun d => set_local_blocks d (<[key := id]> (local_blocks d)))
   end);;
  delete_local_follow account target;;
  delete_local_follow target account;;
  remove_local_account_from_owned_lists account target;;
  remove_local_account_from_owned_lists target account.

Definition unblock_local_account (account target : AccountId) : Op Db unit :=
  modify (fun d => set_local_blocks d
    (delete (account_uuid account, account_uuid target) (local_blocks d))).

(** ** Mutes

    [OffsetDateTime + Duration] panics past the last representable instant. *)
Definition offset_date_time_max : time := 253402300800 * 1000000000 - 1.

Inductive MuteFailure : Type :=
| MuteError (error : RoostyError)
| MutePanic.

Definition mute_expiry (now : time) (duration_seconds : Z) : result (option time) MuteFailure :=
  if duration_seconds =? 0 then Ok None
  else if i64_max <? duration_seconds
  then Err (MuteError (InvalidInput "mute duration is too large"))
  else
    let at_ := now + seconds duration_seconds in
    if offset_date_time_max <? at_ then Err MutePanic else Ok (Some at_).

(** The existing row with new settings, or a fresh one. *)
Definition muted_row (old : option MuteRow) (notifications : bool)
    (expires_at : option time) (now : time) : M Db MuteFailure MuteRow :=
  match old with
  | Some m => mret (mkMuteRow (mute_id m) notifications expires_at (mute_created_at m) now)
  | None => id ← uuid_now_v7; mret (mkMuteRow id notifications expires_at now now)
  end.

Definition mute_local_account (account target : AccountId) (notifications : bool)
    (duration_seconds : Z) : M Db MuteFailure MuteRow :=
  map_err MuteError (ensure_local_relation_target account target);;
  now ← now_utc;
  expires_at ← lift_result (mute_expiry now duration_seconds);
  d ← gets (fun d => d);
  let key := (account_uuid account, account_uuid target) in
  row ← muted_row (local_mutes d !! key) notifications expires_at now;
  modify (fun d => set_local_mutes d (<[key := row]> (local_mutes d)));;
  mret row.

Definition unmute_local_account (account target : AccountId) : Op Db unit :=
  modify (fun d => set_local_mutes d
    (delete (account_uuid account, account_uuid target) (local_mutes d))).

(** [expires_at IS NULL OR expires_at > now]. *)
Definition mute_active (now : time) (m : MuteRow) : bool :=
  match mute_expires_at m with None => true | Some at_ => now <? at_ end.

Definition find_active (key : uuid * uuid) (now : time) (t : gmap (uuid * uuid) MuteRow) :
    option MuteRow :=
  match t !! key with
  | Some m => if mute_active now m then Some m else None
  | None => None
  end.

Definition active_local_account_mute (account target : AccountId) : Op Db (option MuteRow) :=
  now ← now_utc;
  gets (fun d => find_active (account_uuid account, account_uuid target) now (local_mutes d)).

Definition local_account_is_hidden_for_viewer (viewer target : AccountId) : Op Db bool :=
  blocked ← local_accounts_are_blocked viewer target;
  if (blocked : bool) then mret true
  else mute ← active_local_account_mute viewer target; mret (bool_decide (is_Some mute)).

Definition local_account_allows_notification (recipient actor : AccountId) : Op Db bool :=
  blocked ← local_accounts_are_blocked recipient actor;
  if (blocked : bool) then mret false
  else
    mute ← active_local_account_mute recipient actor;
    mret (negb (match mute with Some m => mute_notifications m | None => false end)).

Definition blocked_local_account_ids (account : uuid) (d : Db) : list uuid :=
  (fun kv => if (kv.1.1 =? account)%N then kv.1.2 else kv.1.1) <$>
    List.filter (fun kv => (kv.1.1 =? account)%N || (kv.1.2 =? account)%N)
      (map_to_list (local_blocks d)).

Definition active_mute_targets (account : uuid) (now : time) (t : gmap (uuid * uuid) MuteRow) :
    list uuid :=
  (fun kv => kv.1.2) <$>
    List.filter (fun kv => (kv.1.1 =? account)%N && mute_active now kv.2) (map_to_list t).

Definition blocked_local_account_ids_for_account (account : AccountId) : Op Db (list uuid) :=
  gets (blocked_local_account_ids (account_uuid account)).

Definition hidden_local_account_ids_for_account (account : AccountId) : Op Db (list uuid) :=
  blocked ← blocked_local_account_ids_for_account account;
  now ← now_utc;
  d ← gets (fun d => d);
  mret (dedup (order_by N.leb
          (blocked ++ active_mute_targets (account_uuid account) now (local_mutes d)))).

(** * Relationships with remote actors *)

Definition ensure_remote_actor (actor : AccountId) : Op Db unit :=
  d ← gets (fun d => d);
  if bool_decide (remote_actors d !! account_uuid actor = None)
  then throw (AccountRelationship ModerationTargetNotFound) else mret tt.

(** DELETE FROM remote_follow / remote_following for one pair. *)
Definition delete_follow_of (remote local : AccountId) : Op Db unit :=
  modify (fun d => set_remote_follows d
    (delete (account_uuid remote, account_uuid local) (remote_follows d))).
Definition delete_following_of (local remote : AccountId) : Op Db unit :=
  modify (fun d => set_remote_followings d
    (delete (account_uuid local, account_uuid remote) (remote_followings d))).

Definition dismiss (at_ : time) (n : Notifications.LocalNotification) :
    Notifications.LocalNotification :=
  Notifications.mkNotification (Notifications.id n) (Notifications.account_id n)
    (Notifications.notification_type n) (Notifications.actor_account_id n)
    (Notifications.remote_actor_id n) (Notifications.status_id n)
    (Notifications.remote_status_id n) (Notifications.group_id n) (Notifications.filtered n)
    (Notifications.notification_request_id n) (Notifications.report_id n)
    (Notifications.created_at n) (Some at_).

(** UPDATE local_notification SET dismissed_at = $now WHERE .. IS NULL. *)
Definition dismiss_where (p : Notifications.LocalNotification -> bool) (at_ : time) : Op Db unit :=
  zoom (modify (Notifications.with_notifications
    (update_where (fun n => p n && bool_decide (Notifications.dismissed_at n = None))
       (dismiss at_))) : Op Notifications.Db unit).

Definition from_actor (local remote : AccountId) (n : Notifications.LocalNotification) : bool :=
  (Notifications.account_id n =? account_uuid local)%N
  && bool_decide (Notifications.remote_actor_id n = Some (account_uuid remote)).

(** A unique activity identifier carried by another row. *)
Definition activity_taken (key : uuid * uuid) (activity : string)
    (t : gmap (uuid * uuid) RemoteBlockRow) : bool :=
  existsb (fun kv => negb (bool_decide (kv.1 = key))
                     && bool_decide (rb_activity_id kv.2 = activity)) (map_to_list t).

(** INSERT .. ON CONFLICT (local_account_id, remote_actor_id) DO NOTHING: only
    the pair is a conflict target, another pair's activity id is an error. *)
Definition block_remote_account (local remote : AccountId) (activity : string)
    (job : Jobs.NewJob) : Op Db bool :=
  ensure_remote_actor remote;;
  now ← now_utc;
  id ← uuid_now_v7;
  d ← gets (fun d => d);
  let key := (account_uuid local, account_uuid remote) in
  inserted ← (match local_remote_blocks d !! key with
    | Some _ => mret false
    | None =>
        if activity_taken key activity (local_remote_blocks d)
        then throw (Database (UniqueViolation "local_remote_account_block_activity_id_key"))
        else
          modify (fun d => set_local_remote_blocks d
            (<[key := mkRemoteBlockRow id activity]> (local_remote_blocks d)));;
          mret true
    end);
  delete_following_of local remote;;
  remove_remote_account_from_owned_lists local remote;;
  delete_follow_of remote local;;
  dismiss_where (from_actor local remote) now;;
  when inserted (enqueue job);;
  mret inserted.

Definition find_local_remote_account_block (local remote : AccountId) :
    Op Db (option RemoteBlockRow) :=
  gets (fun d => local_remote_blocks d !! (account_uuid local, account_uuid remote)).

Definition unblock_remote_account (local remote : AccountId) (job : Jobs.NewJob) : Op Db bool :=
  d ← gets (fun d => d);
  let key := (account_uuid local, account_uuid remote) in
  match local_remote_blocks d !! key with
  | Some _ =>
      modify (fun d => set_local_remote_blocks d (delete key (local_remote_blocks d)));;
      enqueue job;;
      mret true
  | None => mret false
  end.

Definition mute_remote_account (local remote : AccountId) (notifications : bool)
    (duration_seconds : Z) : M Db MuteFailure MuteRow :=
  map_err MuteError (ensure_remote_actor remote);;
  now ← now_utc;
  expires_at ← lift_result (mute_expiry now duration_seconds);
  d ← gets (fun d => d);
  let key := (account_uuid local, account_uuid remote) in
  row ← muted_row (remote_mutes d !! key) notifications expires_at now;
  modify (fun d => set_remote_mutes d (<[key := row]> (remote_mutes d)));;
  mret row.

Definition unmute_remote_account (local remote : AccountId) : Op Db unit :=
  modify (fun d => set_remote_mutes d
    (delete (account_uuid local, account_uuid remote) (remote_mutes d))).

Definition active_local_remote_account_mute (local remote : AccountId) : Op Db (option MuteRow) :=
  now ← now_utc;
  gets (fun d => find_active (account_uuid local, account_uuid remote) now (remote_mutes d)).

Definition remote_pair_blocked (local remote : uuid) (d : Db) : bool :=
  bool_decide (is_Some (local_remote_blocks d !! (local, remote)))
  || bool_decide (is_Some (remote_local_blocks d !! (remote, local))).

Definition local_remote_accounts_are_blocked (local remote : AccountId) : Op Db bool :=
  gets (remote_pair_blocked (account_uuid local) (account_uuid remote)).

Definition blocked_remote_actor_ids_for_local_account (local : AccountId)
    (remotes : list uuid) : Op Db (gset uuid) :=
  gets (fun d => list_to_set
    (List.filter (fun r => remote_pair_blocked (account_uuid local) r d) remotes)).

Definition remote_actor_blocks_local_account (remote local : AccountId) : Op Db bool :=
  gets (fun d => bool_decide (is_Some (remote_local_blocks d !! (account_uuid remote, account_uuid local)))).

Definition remote_account_is_hidden_for_viewer (viewer actor : AccountId) : Op Db bool :=
  block ← find_local_remote_account_block viewer actor;
  match block with
  | Some _ => mret true
  | None => mute ← active_local_remote_account_mute viewer actor; mret (bool_decide (is_Some mute))
  end.

Definition remote_account_allows_notification (recipient actor : AccountId) : Op Db bool :=
  blocked ← local_remote_accounts_are_blocked recipient actor;
  if (blocked : bool) then mret false
  else
    mute ← active_local_remote_account_mute recipient actor;
    mret (negb (match mute with Some m => mute_notifications m | None => false end)).

Definition hidden_remote_actor_ids_for_account (account : AccountId) : Op Db (list uuid) :=
  now ← now_utc;
  d ← gets (fun d => d);
  let blocks := (fun kv => kv.1.2) <$>
    List.filter (fun kv : (uuid * uuid) * RemoteBlockRow => (kv.1.1 =? account_uuid account)%N)
      (map_to_list (local_remote_blocks d)) in
  mret (dedup (order_by N.leb
          (blocks ++ active_mute_targets (account_uuid account) now (remote_mutes d)))).

(** An inbound Block: ON CONFLICT DO NOTHING on any key of the table. *)
Definition process_remote_block (remote local : AccountId) (activity : string) : Op Db bool :=
  id ← uuid_now_v7;
  d ← gets (fun d => d);
  let key := (account_uuid remote, account_uuid local) in
  inserted ← (if bool_decide (is_Some (remote_local_blocks d !! key))
                 || activity_taken key activity (remote_local_blocks d)
    then mret false
    else
      modify (fun d => set_remote_local_blocks d
        (<[key := mkRemoteBlockRow id activity]> (remote_local_blocks d)));;
      mret true);
  delete_follow_of remote local;;
  delete_following_of local remote;;
  remove_remote_account_from_owned_lists local remote;;
  now ← now_utc;
  dismiss_where (from_actor local remote) now;;
  mret inserted.

Definition process_remote_undo_block (remote local : AccountId) (activity : string) : Op Db bool :=
  d ← gets (fun d => d);
  let key := (account_uuid remote, account_uuid local) in
  match remote_local_blocks d !! key with
  | Some b =>
      if bool_decide (rb_activity_id b = activity) then
        modify (fun d => set_remote_local_blocks d (delete key (remote_local_blocks d)));;
        mret true
      else mret false
  | None => mret false
  end.

Definition find_remote_local_block_by_activity (remote : AccountId) (activity : string) :
    Op Db (option uuid) :=
  gets (fun d => head ((fun kv => kv.1.2) <$>
    List.filter (fun kv : (uuid * uuid) * RemoteBlockRow =>
      (kv.1.1 =? account_uuid remote)%N && bool_decide (rb_activity_id kv.2 = activity))
      (map_to_list (remote_local_blocks d)))).

(** ** Inbound follows *)

Definition follow_activity_taken (key : uuid * uuid) (activity : string)
    (t : gmap (uuid * uuid) RemoteFollowRow) : bool :=
  existsb (fun kv => negb (bool_decide (kv.1 = key))
                     && bool_decide (rf_activity_id kv.2 = activity)) (map_to_list t).

(** INSERT .. ON CONFLICT (remote_actor_id, local_account_id) DO UPDATE: the
    row keeps its identifier and takes the new activity and state. *)
Definition insert_remote_follow (remote local : AccountId) (activity_id : string)
    (activity : JsonValue) (state : RemoteFollowState) : Op Db RemoteFollowRow :=
  id ← uuid_now_v7;
  created ← now_utc;
  now ← now_utc;
  d ← gets (fun d => d);
  let key := (account_uuid remote, account_uuid local) in
  if follow_activity_taken key activity_id (remote_follows d)
  then throw (Database (UniqueViolation "remote_follow_activity_id_key"))
  else
    let row := mkRemoteFollowRow
                 (match remote_follows d !! key with Some f => rf_id f | None => id end)
                 (account_uuid remote) (account_uuid local) activity_id activity state
                 (match remote_follows d !! key with Some f => rf_created_at f | None => created end)
                 now in
    modify (fun d => set_remote_follows d (<[key := row]> (remote_follows d)));;
    mret row.

(** Used by tests only; it does not look at blocks. *)
Definition upsert_remote_follow := insert_remote_follow.

Record RemoteFollowResponseJob := mkResponseJob {
  response_kind : Jobs.JobKind;
  response_payload : JsonValue;
  response_key : string;
}.

Definition insert_response_job (job : RemoteFollowResponseJob) : Op Db unit :=
  now ← now_utc;
  enqueue (Jobs.mkNewJob (response_kind job) (response_payload job) (Some (response_key job)) now).

Definition upsert_processed_remote_follow_with_response_job (remote local : AccountId)
    (activity_id : string) (activity : JsonValue) (job : RemoteFollowResponseJob) : Op Db bool :=
  blocked ← local_remote_accounts_are_blocked local remote;
  if (blocked : bool) then mret false
  else
    insert_remote_follow remote local activity_id activity Accepted;;
    insert_response_job job;;
    mret true.

Definition upsert_processed_pending_remote_follow (remote local : AccountId)
    (activity_id : string) (activity : JsonValue) : Op Db bool :=
  blocked ← local_remote_accounts_are_blocked local remote;
  if (blocked : bool) then mret false
  else insert_remote_follow remote local activity_id activity Pending;; mret true.

(** The pending follow of a pair, if it carries this activity. *)
Definition pending_follow (remote local : AccountId) (activity_id : string) (d : Db) :
    option RemoteFollowRow :=
  match remote_follows d !! (account_uuid remote, account_uuid local) with
  | Some f =>
      if bool_decide (rf_activity_id f = activity_id) && bool_decide (rf_state f = Pending)
      then Some f else None
  | None => None
  end.

Definition accept_remote_follow_with_response_job (local remote : AccountId)
    (activity_id : string) (job : RemoteFollowResponseJob) : Op Db bool :=
  d ← gets (fun d => d);
  match pending_follow remote local activity_id d with
  | None => mret false
  | Some f =>
      now ← now_utc;
      modify (fun d => set_remote_follows d
        (<[(account_uuid remote, account_uuid local) :=
            mkRemoteFollowRow (rf_id f) (rf_remote f) (rf_local f) (rf_activity_id f)
              (rf_activity f) Accepted (rf_created_at f) now]> (remote_follows d)));;
      insert_response_job job;;
      mret true
  end.

Definition delete_remote_follow_with_response_job (local remote : AccountId)
    (activity_id : string) (job : RemoteFollowResponseJob) : Op Db bool :=
  d ← gets (fun d => d);
  match pending_follow remote local activity_id d with
  | None => mret false
  | Some f => delete_follow_of remote local;; insert_response_job job;; mret true
  end.

Definition delete_remote_follow_by_activity (remote : AccountId) (activity_id : string) : Op Db unit :=
  modify (fun d => set_remote_follows d
    (filter (fun kv => ~ (kv.1.1 = account_uuid remote /\ rf_activity_id kv.2 = activity_id))
       (remote_follows d))).

Definition process_remote_undo_follow (remote : AccountId) (activity_id : string) : Op Db bool :=
  delete_remote_follow_by_activity remote activity_id;; mret true.

Definition remote_actor_follows_local_account (remote local : AccountId) : Op Db bool :=
  gets (fun d => match remote_follows d !! (account_uuid remote, account_uuid local) with
                 | Some f => bool_decide (rf_state f = Accepted) | None => false end).

Definition accepted_remote_follower_ids (local : AccountId) : Op Db (list uuid) :=
  gets (fun d => (fun kv => kv.1.1) <$>
    List.filter (fun kv : (uuid * uuid) * RemoteFollowRow =>
      (kv.1.2 =? account_uuid local)%N && bool_decide (rf_state kv.2 = Accepted))
      (map_to_list (remote_follows d))).

(** ** Outbound follows *)

Definition following_activity_taken (key : uuid * uuid) (activity : string)
    (t : gmap (uuid * uuid) FollowingRow) : bool :=
  existsb (fun kv => negb (bool_decide (kv.1 = key))
                     && bool_decide (fg_activity_id kv.2 = activity)) (map_to_list t).

(** INSERT or UPDATE of one row of [remote_following]. *)
Definition write_following (row : FollowingRow) : Op Db unit :=
  d ← gets (fun d => d);
  let key := (fg_local row, fg_remote row) in
  if following_activity_taken key (fg_activity_id row) (remote_followings d)
  then throw (Database (UniqueViolation "remote_following_activity_id_key"))
  else modify (fun d => set_remote_followings d (<[key := row]> (remote_followings d))).

(** INSERT: the pair is unique. *)
Definition insert_following (local remote : AccountId) (activity_id : string)
    (show_reblogs notify : bool) : Op Db FollowingRow :=
  id ← uuid_now_v7;
  now ← now_utc;
  d ← gets (fun d => d);
  if bool_decide (is_Some (remote_followings d !! (account_uuid local, account_uuid remote)))
  then throw (Database (UniqueViolation "remote_following_local_account_id_remote_actor_id_key"))
  else
    let row := mkFollowingRow id (account_uuid local) (account_uuid remote) activity_id
                 Pending show_reblogs notify None now in
    write_following row;;
    mret row.

(** Used by tests only; it does not look at blocks. *)
Definition create_remote_following := insert_following.

Definition create_remote_following_with_job (local remote : AccountId) (activity_id : string)
    (show_reblogs notify : bool) (job : Jobs.NewJob) : Op Db FollowingRow :=
  blocked ← local_remote_accounts_are_blocked local remote;
  if (blocked : bool) then throw (AccountRelationship FollowBlocked)
  else
    d ← gets (fun d => d);
    match remote_followings d !! (account_uuid local, account_uuid remote) with
    | Some f =>
        now ← now_utc;
        match fg_deactivated_at f with
        | None =>
            let row := mkFollowingRow (fg_id f) (fg_local f) (fg_remote f) (fg_activity_id f)
                         (fg_state f) show_reblogs notify (fg_deactivated_at f) now in
            write_following row;;
            mret row
        | Some _ =>
            let row := mkFollowingRow (fg_id f) (fg_local f) (fg_remote f) activity_id
                         Pending show_reblogs notify None now in
            write_following row;;
            enqueue job;;
            mret row
        end
    | None =>
        row ← insert_following local remote activity_id show_reblogs notify;
        enqueue job;;
        mret row
    end.

(** UPDATE .. WHERE remote_actor_id = $1 AND activity_id = $2; activity
    identifiers are unique, so at most one row matches. *)
Definition following_of_activity (remote : AccountId) (activity_id : string) (f : FollowingRow) : bool :=
  (fg_remote f =? account_uuid remote)%N && bool_decide (fg_activity_id f = activity_id).

Definition accept_following (now : time) (f : FollowingRow) : FollowingRow :=
  mkFollowingRow (fg_id f) (fg_local f) (fg_remote f) (fg_activity_id f) Accepted
    (fg_show_reblogs f) (fg_notify f) (fg_deactivated_at f) now.

Definition accept_remote_following (remote : AccountId) (activity_id : string) : Op Db bool :=
  now ← now_utc;
  d ← gets (fun d => d);
  let p := following_of_activity remote activity_id in
  modify (fun d => set_remote_followings d (update_where p (accept_following now) (remote_followings d)));;
  mret (count_where p (remote_followings d) =? 1)%nat.

Definition reject_remote_following (remote : AccountId) (activity_id : string) : Op Db bool :=
  d ← gets (fun d => d);
  let p := following_of_activity remote activity_id in
  modify (fun d => set_remote_followings d (delete_where p (remote_followings d)));;
  mret (count_where p (remote_followings d) =? 1)%nat.

(** Used by tests only. *)
Definition delete_remote_following (local remote : AccountId) : Op Db (option FollowingRow) :=
  d ← gets (fun d => d);
  match remote_followings d !! (account_uuid local, account_uuid remote) with
  | None => mret None
  | Some f =>
      remove_remote_account_from_owned_lists local remote;;
      delete_following_of local remote;;
      mret (Some f)
  end.

Definition delete_remote_following_with_job (local remote : AccountId) (job : Jobs.NewJob) :
    Op Db (option FollowingRow) :=
  d ← gets (fun d => d);
  match remote_followings d !! (account_uuid local, account_uuid remote) with
  | None => mret None
  | Some f =>
      remove_remote_account_from_owned_lists local remote;;
      delete_following_of local remote;;
      enqueue job;;
      mret (Some f)
  end.

Definition find_remote_following (local remote : AccountId) : Op Db (option FollowingRow) :=
  gets (fun d => match remote_followings d !! (account_uuid local, account_uuid remote) with
                 | Some f => if bool_decide (fg_deactivated_at f = None) then Some f else None
                 | None => None end).

(** ** Moves of remote actors *)

Definition move_order (a b : FollowingRow) : bool := (fg_id a <=? fg_id b)%N.

Definition remote_actor_move_following_batch (remote : AccountId) (limit : nat) :
    Op Db (list FollowingRow) :=
  gets (fun d => take limit (order_by move_order
    (rows_where (fun f => (fg_remote f =? account_uuid remote)%N
                          && bool_decide (fg_state f = Accepted)
                          && bool_decide (fg_deactivated_at f = None)) (remote_followings d)))).

(** The lists of the follower that contain the old actor. *)
Definition memberships_of (owner remote : uuid) (d : Db) : list uuid :=
  (fun kv => kv.1.1) <$>
    List.filter (fun kv : (uuid * uuid) * uuid =>
      (kv.1.2 =? remote)%N && owned_by owner d kv.1.1) (map_to_list (list_remote_members d)).

(** INSERT .. ON CONFLICT (list_id, remote_actor_id) DO NOTHING. *)
Definition copy_membership (target : AccountId) (list : uuid) : Op Db unit :=
  id ← uuid_now_v7;
  modify (fun d => set_lists d (lists d) (list_local_members d)
    (match list_remote_members d !! (list, account_uuid target) with
     | Some _ => list_remote_members d
     | None => <[(list, account_uuid target) := id]> (list_remote_members d)
     end)).

Definition deactivate_following (now : time) (f : FollowingRow) : FollowingRow :=
  mkFollowingRow (fg_id f) (fg_local f) (fg_remote f) (fg_activity_id f) (fg_state f)
    (fg_show_reblogs f) (fg_notify f) (Some now) now.

Definition migrate_source (following : FollowingRow) (d : Db) : option FollowingRow :=
  match remote_followings d !! (fg_local following, fg_remote following) with
  | Some f =>
      if bool_decide (fg_activity_id f = fg_activity_id following)
         && bool_decide (fg_state f = Accepted) && bool_decide (fg_deactivated_at f = None)
      then Some f else None
  | None => None
  end.

Definition migrate_remote_following_for_actor_move (following : FollowingRow)
    (target : AccountId) (allow_target : bool) (target_follow : option (string * Jobs.NewJob))
    (undo_job : Jobs.NewJob) : Op Db bool :=
  d ← gets (fun d => d);
  let local := mkAccountId (fg_local following) in
  let remote := mkAccountId (fg_remote following) in
  match migrate_source following d with
  | None => mret false
  | Some source =>
      if negb (bool_decide (remote_actors d !! fg_remote following ≫= actor_moved_to
                            = Some (account_uuid target)))
      then mret false
      else
        existing ← (if allow_target then find_remote_following local target else mret None);
        (if allow_target && bool_decide (existing = None) then
           '(activity_id, job) ← lift_option
             (InvalidInput "remote actor migration Follow is missing") target_follow;
           insert_following local target activity_id (fg_show_reblogs following)
             (fg_notify following);;
           enqueue job
         else mret tt);;
        (if allow_target then
           d ← gets (fun d => d);
           for_each (memberships_of (account_uuid local) (account_uuid remote) d)
             (copy_membership target)
         else mret tt);;
        remove_remote_account_from_owned_lists local remote;;
        now ← now_utc;
        write_following (deactivate_following now source);;
        enqueue undo_job;;
        mret true
  end.

(** ** Suspended domains *)

(** The domain itself or one of its subdomains. *)
Definition domain_covers (blocked domain : text) : bool :=
  bool_decide (domain = blocked)
  || match strip_prefix (reverse blocked) (reverse domain) with
     | Some rest => starts_with (lit ".") rest
     | None => false
     end.

Definition suspended_actors (domains : list text) (d : Db) : list uuid :=
  fst <$> List.filter (fun kv : uuid * RemoteActorRow =>
            existsb (fun b => domain_covers b (actor_domain kv.2)) domains)
            (map_to_list (remote_actors d)).

Section Reconcile.
Context (uuid_text : uuid -> string).

(** [value->>key] compared with text, and the elements of [value->key]. *)
Definition json_is_id (ids : list string) (v : JsonValue) : bool :=
  match v with
  | JUuid u => bool_decide (uuid_text u ∈ ids)
  | JString s => bool_decide (s ∈ ids)
  | _ => false
  end.

Definition json_get (key : string) (v : JsonValue) : option JsonValue :=
  match v with
  | JObject members => snd <$> List.find (fun kv => bool_decide (kv.1 = key)) members
  | _ => None
  end.

Definition targets_actor (ids : list string) (payload : JsonValue) : bool :=
  match json_get "remote_actor_id" payload with Some v => json_is_id ids v | None => false end
  || match json_get "remote_actor_ids" payload with
     | Some (JArray vs) => existsb (json_is_id ids) vs
     | _ => false
     end.

Definition complete_suspended (now : time) (j : Jobs.Job) : Jobs.Job :=
  Jobs.mkJob (Jobs.id j) (Jobs.kind j) (Jobs.payload j) (Jobs.deduplication_key j)
    (Jobs.run_after j) (Jobs.attempts j) None None None (Some "remote domain suspended"%string)
    (Jobs.created_at j) (Some now) (Jobs.permanently_failed_at j).

Definition reconcile_suspended_remote_domains (domains : list text) : Op Db Z :=
  if bool_decide (domains = []) then mret 0
  else
    d ← gets (fun d => d);
    let actor_ids := suspended_actors domains d in
    if bool_decide (actor_ids = []) then mret 0
    else
      now ← now_utc;
      modify (fun d => set_remote_follows d
        (filter (fun kv => kv.1.1 ∉ actor_ids) (remote_follows d)));;
      modify (fun d => set_remote_followings d
        (filter (fun kv => kv.1.2 ∉ actor_ids) (remote_followings d)));;
      modify (fun d => set_lists d (lists d) (list_local_members d)
        (filter (fun kv => kv.1.2 ∉ actor_ids) (list_remote_members d)));;
      dismiss_where (fun n => match Notifications.remote_actor_id n with
                              | Some a => bool_decide (a ∈ actor_ids) | None => false end) now;;
      zoom (modify (update_where
        (fun j => bool_decide (Jobs.completed_at j = None)
                  && targets_actor (uuid_text <$> actor_ids) (Jobs.payload j))
        (complete_suspended now)) : Op Jobs.table unit);;
      mret (Z.of_nat (length actor_ids)).
End Reconcile.

(** * Accounts that go *)

(** The tables of relationships, without the rows of a remote actor. *)
Definition without_actor (a : uuid) (d : Db) : Db :=
  mkDb (local_accounts d) (local_follows d) (local_blocks d)
    (local_mutes d) (remote_actors d)
    (filter (fun kv => kv.1.2 <> a) (local_remote_blocks d))
    (filter (fun kv => kv.1.1 <> a) (remote_local_blocks d))
    (filter (fun kv => kv.1.2 <> a) (remote_mutes d))
    (filter (fun kv => kv.1.1 <> a) (remote_follows d))
    (filter (fun kv => kv.1.2 <> a) (remote_followings d))
    (lists d) (list_local_members d)
    (filter (fun kv => kv.1.2 <> a) (list_remote_members d))
    (notification_db d).

(** What the Delete of a remote actor does to relationships: lists and blocks stay. *)
Definition delete_remote_actor_follows (actor : AccountId) : Op Db unit :=
  modify (fun d => set_remote_follows d
    (filter (fun kv => kv.1.1 <> account_uuid actor) (remote_follows d)));;
  modify (fun d => set_remote_followings d
    (filter (fun kv => kv.1.2 <> account_uuid actor) (remote_followings d))).

(** The DELETE statements of a suspension on the tables of relationships. *)
Definition sever_local_account_relationships (account : AccountId) : Op Db unit :=
  modify (fun d =>
    let a := account_uuid account in
    let kept list := negb (owned_by a d list) in
    mkDb (local_accounts d) (filter (fun kv => kv.1.1 <> a /\ kv.1.2 <> a) (local_follows d))
      (filter (fun kv => kv.1.1 <> a /\ kv.1.2 <> a) (local_blocks d))
      (filter (fun kv => kv.1.1 <> a /\ kv.1.2 <> a) (local_mutes d)) (remote_actors d)
      (filter (fun kv => kv.1.1 <> a) (local_remote_blocks d))
      (filter (fun kv => kv.1.2 <> a) (remote_local_blocks d))
      (filter (fun kv => kv.1.1 <> a) (remote_mutes d))
      (filter (fun kv => kv.1.2 <> a) (remote_follows d))
      (filter (fun kv => kv.1.1 <> a) (remote_followings d))
      (filter (fun kv => list_owner kv.2 <> a) (lists d))
      (filter (fun kv => kv.1.2 <> a /\ kept kv.1.1 = true) (list_local_members d))
      (filter (fun kv => kept kv.1.1 = true) (list_remote_members d))
      (notification_db d)).

(** * Private lists *)

Definition find_owned_local_list (owner : AccountId) (list : uuid) : Op Db (option ListRow) :=
  gets (fun d => match lists d !! list with
                 | Some l => if (list_owner l =? account_uuid owner)%N then Some l else None
                 | None => None end).

Definition list_order (a b : ListRow) : bool :=
  (list_created_at a <? list_created_at b)
  || (list_created_at a =? list_created_at b) && (list_id a <=? list_id b)%N.

Definition local_lists_for_account (account : AccountId) : Op Db (list ListRow) :=
  gets (fun d => order_by list_order
    (rows_where (fun l => (list_owner l =? account_uuid account)%N) (lists d))).

Definition create_local_list (account : AccountId) (title : string)
    (policy : ListRepliesPolicy) (exclusive : bool) : Op Db ListRow :=
  id ← uuid_now_v7;
  now ← now_utc;
  d ← gets (fun d => d);
  let row := mkListRow id (account_uuid account) title policy exclusive now now in
  if bool_decide (is_Some (lists d !! id))
  then throw (Database (UniqueViolation "local_list_pkey"))
  else
    modify (fun d => set_lists d (<[id := row]> (lists d)) (list_local_members d)
                       (list_remote_members d));;
    mret row.

Definition update_local_list (account : AccountId) (list : uuid) (title : string)
    (policy : ListRepliesPolicy) (exclusive : bool) : Op Db (option ListRow) :=
  found ← find_owned_local_list account list;
  match found with
  | None => mret None
  | Some l =>
      now ← now_utc;
      let row := mkListRow (list_id l) (list_owner l) title policy exclusive
                   (list_created_at l) now in
      modify (fun d => set_lists d (<[list := row]> (lists d)) (list_local_members d)
                         (list_remote_members d));;
      mret (Some row)
  end.

(** DELETE FROM local_list; the memberships reference it with ON DELETE CASCADE. *)
Definition delete_local_list (account : AccountId) (list : uuid) : Op Db bool :=
  found ← find_owned_local_list account list;
  match found with
  | None => mret false
  | Some _ =>
      modify (fun d => set_lists d (delete list (lists d))
        (filter (fun kv => kv.1.1 <> list) (list_local_members d))
        (filter (fun kv => kv.1.1 <> list) (list_remote_members d)));;
      mret true
  end.

Definition local_lists_containing_account (owner member : AccountId) : Op Db (list ListRow) :=
  gets (fun d =>
    order_by list_order
      (rows_where (fun l => (list_owner l =? account_uuid owner)%N
         && (bool_decide (is_Some (list_local_members d !! (list_id l, account_uuid member)))
             || bool_decide (is_Some (list_remote_members d !! (list_id l, account_uuid member)))))
         (lists d))).

Inductive AddListAccountsResult : Type :=
| Added | ListNotFound | AccountNotFollowed | AlreadyPresent.

Definition follows_remote (owner remote : uuid) (d : Db) : bool :=
  match remote_followings d !! (owner, remote) with
  | Some f => bool_decide (fg_state f = Accepted) && bool_decide (fg_deactivated_at f = None)
  | None => false
  end.

Definition follows_local (owner account : uuid) (d : Db) : bool :=
  bool_decide (is_Some (local_follows d !! (owner, account))).

Definition add_list_member (owner list : uuid) (followed : Db) (account : uuid) : Op Db unit :=
  id ← uuid_now_v7;
  modify (fun d =>
    if follows_local owner account followed
    then set_lists d (lists d) (<[(list, account) := id]> (list_local_members d))
           (list_remote_members d)
    else set_lists d (lists d) (list_local_members d)
           (<[(list, account) := id]> (list_remote_members d))).

(** The identifiers are a set; a hash set is iterated in some order. *)
Definition add_local_list_accounts (owner : AccountId) (lst : uuid) (accounts : list AccountId) :
    Op Db AddListAccountsResult :=
  found ← find_owned_local_list owner lst;
  match found with
  | None => mret ListNotFound
  | Some _ =>
      let ids := elements (list_to_set (account_uuid <$> accounts) : gset uuid) in
      d ← gets (fun d => d);
      if existsb (fun a => negb (follows_local (account_uuid owner) a d)
                           && negb (follows_remote (account_uuid owner) a d)) ids
      then mret AccountNotFollowed
      else if existsb (fun a => bool_decide (is_Some (list_local_members d !! (lst, a)))
                                || bool_decide (is_Some (list_remote_members d !! (lst, a)))) ids
      then mret AlreadyPresent
      else
        for_each ids (add_list_member (account_uuid owner) lst d);;
        mret Added
  end.

Definition remove_local_list_accounts (owner : AccountId) (lst : uuid)
    (accounts : list AccountId) : Op Db bool :=
  found ← find_owned_local_list owner lst;
  match found with
  | None => mret false
  | Some _ =>
      let ids := account_uuid <$> accounts in
      modify (fun d => set_lists d (lists d)
        (filter (fun kv => ~ (kv.1.1 = lst /\ kv.1.2 ∈ ids)) (list_local_members d))
        (filter (fun kv => ~ (kv.1.1 = lst /\ kv.1.2 ∈ ids)) (list_remote_members d)));;
      mret true
  end.
