(* ===== verification/RelationsInvariant.v ===== *)
(** The invariants of [Relations.v] over whole histories: no follow survives
    between accounts that block each other, and every member of a private list
    is followed by its owner; with the interleavings and operations that break
    them in the code. *)
From S2P Require Import Prelude Core Text Relations.
From S2P Require Jobs Notifications.

(** * The invariants, on the tables they read *)

Definition local_apart (blocks : gmap (uuid * uuid) uuid) (follows : gmap (uuid * uuid) FollowRow) :
    Prop :=
  forall a t i x, blocks !! (a, t) = Some i ->
    follows !! (a, t) = Some x \/ follows !! (t, a) = Some x -> False.

Definition remote_apart (out into : gmap (uuid * uuid) RemoteBlockRow)
    (follows : gmap (uuid * uuid) RemoteFollowRow)
    (followings : gmap (uuid * uuid) FollowingRow) : Prop :=
  forall l r b, out !! (l, r) = Some b \/ into !! (r, l) = Some b ->
    follows !! (r, l) = None /\ followings !! (l, r) = None.

Definition local_members_followed (ls : gmap uuid ListRow) (members : gmap (uuid * uuid) uuid)
    (follows : gmap (uuid * uuid) FollowRow) : Prop :=
  forall lst a i, members !! (lst, a) = Some i ->
    exists row f, ls !! lst = Some row /\ follows !! (list_owner row, a) = Some f.

(** Case analysis of lookups in updated tables. *)
Ltac tables :=
  repeat match goal with
  | H : <[_ := _]> _ !! _ = Some _ |- _ => apply lookup_insert_Some in H as [[? ?]|[? ?]]
  | H : delete _ _ !! _ = Some _ |- _ => apply lookup_delete_Some in H as [? ?]
  | H : filter _ _ !! _ = Some _ |- _ => apply map_lookup_filter_Some in H as [? ?]
  end; simplify_eq/=.

(** The pairs of a local and a remote account whose follow the remote side ended. *)
Section Ended.
Context {ended : uuid -> uuid -> Prop}.

Definition remote_members_followed (ls : gmap uuid ListRow) (members : gmap (uuid * uuid) uuid)
    (followings : gmap (uuid * uuid) FollowingRow) : Prop :=
  forall lst r i, members !! (lst, r) = Some i ->
    exists row, ls !! lst = Some row /\
      (ended (list_owner row) r \/
       exists f, followings !! (list_owner row, r) = Some f /\ fg_deactivated_at f = None).

Definition followings_keyed (followings : gmap (uuid * uuid) FollowingRow) : Prop :=
  forall k f, followings !! k = Some f -> (fg_local f, fg_remote f) = k.

Record relations_ok_but (d : Db) : Prop := {
  ok_local : local_apart (local_blocks d) (local_follows d);
  ok_remote : remote_apart (local_remote_blocks d) (remote_local_blocks d) (remote_follows d)
                (remote_followings d);
  ok_local_members : local_members_followed (lists d) (list_local_members d) (local_follows d);
  ok_remote_members : remote_members_followed (lists d) (list_remote_members d)
                        (remote_followings d);
  ok_keys : followings_keyed (remote_followings d);
}.

#[local] Notation relations_ok := relations_ok_but.

(** The tables the invariants read. *)
Definition core (d : Db) :=
  (local_follows d, local_blocks d, (local_remote_blocks d, remote_local_blocks d),
   (remote_follows d, remote_followings d), (lists d, list_local_members d, list_remote_members d)).

Lemma relations_ok_core d1 d2 : core d1 = core d2 -> relations_ok d1 -> relations_ok d2.
Proof.
  unfold core. intros [= H1 H2 H3 H4 H5 H6 H7 H8 H9] [K1 K2 K3 K4 K5].
  split; by rewrite <- ?H1, <- ?H2, <- ?H3, <- ?H4, <- ?H5, <- ?H6, <- ?H7, <- ?H8, <- ?H9.
Qed.

Lemma keeps_core_enqueue job : keeps core (enqueue job).
Proof. unfold enqueue. solve_keeps. Qed.

Lemma keeps_core_dismiss p at_ : keeps core (dismiss_where p at_).
Proof. unfold dismiss_where. solve_keeps. Qed.

Lemma keeps_core_response job : keeps core (insert_response_job job).
Proof. unfold insert_response_job. solve_keeps. Qed.

(** * Removing accounts from the lists of an owner *)

Lemma owned_by_row owner d lst row :
  lists d !! lst = Some row -> owned_by owner d lst = true <-> list_owner row = owner.
Proof. unfold owned_by. intros ->. by rewrite N.eqb_eq. Qed.

(** Deleting a local follow whose target left the owner's lists. *)
Lemma local_members_unfollow ls members follows (a b : uuid) p :
  local_members_followed ls members follows ->
  (forall lst row, ls !! lst = Some row -> p lst = true <-> list_owner row = a) ->
  local_members_followed ls
    (filter (fun kv => ~ (kv.1.2 = b /\ p kv.1.1 = true)) members) (delete (a, b) follows).
Proof.
  intros Hm Hp lst x i Hx. tables. destruct (Hm _ _ _ H) as (row & f & Hrow & Hf).
  exists row, f. split; [done|]. rewrite lookup_delete_ne; [done|].
  intros [= -> ->]. apply H0. split; [done|]. by apply (Hp _ _ Hrow).
Qed.

Lemma remote_members_unfollow ls members followings (l r : uuid) p :
  remote_members_followed ls members followings ->
  (forall lst row, ls !! lst = Some row -> p lst = true <-> list_owner row = l) ->
  remote_members_followed ls
    (filter (fun kv => ~ (kv.1.2 = r /\ p kv.1.1 = true)) members) (delete (l, r) followings).
Proof.
  intros Hm Hp lst x i Hx. tables. destruct (Hm _ _ _ H) as (row & Hrow & [He|(f & Hf & Hd)]); [by eauto|].
  exists row. split; [done|]. right. exists f. split; [|done]. rewrite lookup_delete_ne; [done|].
  intros [= -> ->]. apply H0. split; [done|]. by apply (Hp _ _ Hrow).
Qed.

Lemma local_members_shrink ls members follows P `{forall x, Decision (P x)} :
  local_members_followed ls members follows ->
  local_members_followed ls (filter P members) follows.
Proof. intros Hm lst x i Hx. tables. by eapply Hm. Qed.

Lemma remote_members_shrink ls members followings P `{forall x, Decision (P x)} :
  remote_members_followed ls members followings ->
  remote_members_followed ls (filter P members) followings.
Proof. intros Hm lst x i Hx. tables. by eapply Hm. Qed.

Lemma local_members_follow ls members follows k f :
  local_members_followed ls members follows ->
  local_members_followed ls members (<[k := f]> follows).
Proof.
  intros Hm lst x i Hx. destruct (Hm _ _ _ Hx) as (row & g & Hrow & Hg).
  destruct (decide (k = (list_owner row, x))) as [->|Hne].
  - exists row, f. split; [done|]. apply lookup_insert_eq.
  - exists row, g. split; [done|]. by rewrite lookup_insert_ne.
Qed.

(** Writing a following that is not deactivated. *)
Lemma remote_members_follow ls members followings k f :
  remote_members_followed ls members followings -> fg_deactivated_at f = None ->
  remote_members_followed ls members (<[k := f]> followings).
Proof.
  intros Hm Hf lst x i Hx. destruct (Hm _ _ _ Hx) as (row & Hrow & [He|(g & Hg & Hd)]); [by eauto|].
  exists row. split; [done|]. right. destruct (decide (k = (list_owner row, x))) as [->|Hne].
  - exists f. by rewrite lookup_insert_eq.
  - exists g. by rewrite lookup_insert_ne.
Qed.

Lemma remote_apart_unfollow out into follows followings k1 k2 :
  remote_apart out into follows followings ->
  remote_apart out into (delete k1 follows) (delete k2 followings).
Proof.
  intros Ha l r b Hb. destruct (Ha l r b Hb) as [H1 H2].
  split; apply lookup_delete_None; auto.
Qed.

Lemma followings_keyed_delete t k : followings_keyed t -> followings_keyed (delete k t).
Proof. intros Hk k' f Hf. tables. by apply Hk. Qed.

Lemma followings_keyed_insert t f :
  followings_keyed t -> followings_keyed (<[(fg_local f, fg_remote f) := f]> t).
Proof. intros Hk k' g Hg. tables; [done|by apply Hk]. Qed.

(** * Local operations *)

Lemma follow_write_ok follower followed sr nt w d row w' d' :
  relations_ok d ->
  (forall i, local_blocks d !! (account_uuid follower, account_uuid followed) = Some i -> False) ->
  (forall i, local_blocks d !! (account_uuid followed, account_uuid follower) = Some i -> False) ->
  follow_write follower followed sr nt w d = (Ok row, w', d') ->
  relations_ok d' /\
  local_follows d' !! (account_uuid follower, account_uuid followed) = Some row.
Proof.
  intros [K1 K2 K3 K4 K5] Hb1 Hb2 Hrun.
  assert (d' = set_local_follows d
    (<[(account_uuid follower, account_uuid followed) := row]> (local_follows d))) as ->.
  { revert Hrun. unfold follow_write. run_unfold. simpl.
    destruct (local_follows d !! _); by intros [= <- _ <-]. }
  split; [split|]; simpl; try done; [|by apply local_members_follow|apply lookup_insert_eq].
  intros a t i x Hi [Hx|Hx]; tables; try (by eauto); eapply K1; eauto.
Qed.

Lemma follow_checks_inv follower followed w d w' d' :
  follow_checks follower followed w d = (Ok tt, w', d') ->
  w' = w /\ d' = d /\ follower <> followed /\ account_uuid followed ∈ dom (local_accounts d) /\
  local_blocks d !! (account_uuid follower, account_uuid followed) = None /\
  local_blocks d !! (account_uuid followed, account_uuid follower) = None.
Proof.
  unfold follow_checks, local_accounts_are_blocked, local_pair_blocked. run_unfold.
  destruct (decide (follower = followed)) as [->|Hne]; [done|].
  destruct (bool_decide (account_uuid followed ∈ _)) eqn:Ht; simpl; [|done].
  destruct (_ || _)%bool eqn:Hb; [done|]. intros [= <- <-]. boolp.
  by rewrite <- !eq_None_not_Some in *.
Qed.

Lemma follow_local_account_ok follower followed sr nt w d row w' d' :
  relations_ok d -> follow_local_account follower followed sr nt w d = (Ok row, w', d') ->
  relations_ok d'.
Proof.
  intros Hd Hrun. unfold follow_local_account in Hrun. inv_bind Hrun u w1 d1 Hc. destruct u.
  apply follow_checks_inv in Hc as (-> & -> & _ & _ & Hb1 & Hb2).
  eapply (follow_write_ok _ _ _ _ w d); try done; congruence.
Qed.

Lemma unfollow_local_account_ok follower followed w d w' d' :
  relations_ok d -> unfollow_local_account follower followed w d = (Ok tt, w', d') ->
  relations_ok d'.
Proof.
  intros [K1 K2 K3 K4 K5]. unfold unfollow_local_account, remove_local_account_from_owned_lists,
    delete_local_follow. run_unfold. intros [= _ <-]. split; simpl; try done.
  - intros a t i x Hi [Hx|Hx]; tables; eapply K1; eauto.
  - apply local_members_unfollow; [done|]. intros. by apply owned_by_row.
Qed.

(** The final store of a block. *)
Definition blocked_store (a t : uuid) (id : uuid) (d : Db) : Db :=
  set_lists
    (set_local_follows
       (match local_blocks d !! (a, t) with
        | Some _ => d | None => set_local_blocks d (<[(a, t) := id]> (local_blocks d)) end)
       (delete (t, a) (delete (a, t) (local_follows d))))
    (lists d)
    (filter (fun kv => ~ (kv.1.2 = a /\ owned_by t d kv.1.1 = true))
       (filter (fun kv => ~ (kv.1.2 = t /\ owned_by a d kv.1.1 = true)) (list_local_members d)))
    (list_remote_members d).

Lemma block_local_account_inv a t w d w' d' :
  block_local_account a t w d = (Ok tt, w', d') ->
  account_uuid t ∈ dom (local_accounts d) /\
  exists id, d' = blocked_store (account_uuid a) (account_uuid t) id d.
Proof.
  unfold block_local_account, ensure_local_relation_target,
    remove_local_account_from_owned_lists, delete_local_follow, blocked_store. run_unfold.
  destruct (decide (a = t)); [done|].
  destruct (bool_decide _) eqn:Ht; simpl; [|done]. boolp.
  destruct (local_blocks d !! _) eqn:Hb; intros [= _ <-]; (split; [done|]); by eexists.
Qed.

Lemma blocked_store_ok a t id d : relations_ok d -> relations_ok (blocked_store a t id d).
Proof.
  intros [K1 K2 K3 K4 K5]. unfold blocked_store.
  split; simpl; try (by destruct (local_blocks d !! (a, t))).
  - intros x y i f Hi Hf.
    destruct (local_blocks d !! (a, t)) as [b|] eqn:Hb; simpl in Hi;
      destruct Hf as [Hf|Hf]; tables; try done; eapply K1; eauto.
  - apply local_members_unfollow; [|intros; by apply owned_by_row].
    apply local_members_unfollow; [|intros; by apply owned_by_row]. done.
Qed.

Lemma block_local_account_ok a t w d w' d' :
  relations_ok d -> block_local_account a t w d = (Ok tt, w', d') -> relations_ok d'.
Proof.
  intros Hd Hrun. apply block_local_account_inv in Hrun as (_ & id & ->).
  by apply blocked_store_ok.
Qed.

Lemma unblock_local_account_ok a t w d :
  relations_ok d -> relations_ok (store_of (unblock_local_account a t) w d).
Proof.
  intros [K1 K2 K3 K4 K5]. split; simpl; try done.
  intros x y i f Hi Hf. tables. by eapply K1.
Qed.

(** * Operations with remote actors *)

(** The tables after severing a pair and recording a block of either side. *)
Definition severed (l r : uuid) (out into : gmap (uuid * uuid) RemoteBlockRow) (d d' : Db) : Prop :=
  core d' = (local_follows d, local_blocks d, (out, into),
    (delete (r, l) (remote_follows d), delete (l, r) (remote_followings d)),
    (lists d, list_local_members d,
     filter (fun kv => ~ (kv.1.2 = r /\ owned_by l d kv.1.1 = true)) (list_remote_members d))).

Lemma severed_ok l r out into d d' :
  relations_ok d -> severed l r out into d d' ->
  (forall k b, out !! k = Some b -> k = (l, r) \/ local_remote_blocks d !! k = Some b) ->
  (forall k b, into !! k = Some b -> k = (r, l) \/ remote_local_blocks d !! k = Some b) ->
  relations_ok d'.
Proof.
  unfold severed, core. intros [K1 K2 K3 K4 K5] [= E1 E2 E3 E4 E5 E6 E7 E8 E9] Hout Hinto.
  split; rewrite ?E1, ?E2, ?E3, ?E4, ?E5, ?E6, ?E7, ?E8, ?E9; try done.
  - intros l' r' b Hb.
    assert ((l', r') = (l, r) \/
      (local_remote_blocks d !! (l', r') = Some b \/ remote_local_blocks d !! (r', l') = Some b))
      as [[= -> ->]|Hold].
    { destruct Hb as [Hb|Hb]; [apply Hout in Hb as [?|?]|apply Hinto in Hb as [[= -> ->]|?]]; auto. }
    + by rewrite !lookup_delete_eq.
    + destruct (K2 _ _ _ Hold) as [H1 H2]. split; apply lookup_delete_None; auto.
  - apply remote_members_unfollow; [done|]. intros. by apply owned_by_row.
  - by apply followings_keyed_delete.
Qed.

Lemma block_remote_account_severs l r activity job w d b w' d' :
  block_remote_account l r activity job w d = (Ok b, w', d') ->
  exists out, severed (account_uuid l) (account_uuid r) out (remote_local_blocks d) d d' /\
    is_Some (out !! (account_uuid l, account_uuid r)) /\
    (forall k x, out !! k = Some x ->
       k = (account_uuid l, account_uuid r) \/ local_remote_blocks d !! k = Some x).
Proof.
  intros Hrun. unfold block_remote_account in Hrun.
  inv_bind Hrun u1 w1 d1 H1.
  assert (d1 = d) as -> by (revert H1; unfold ensure_remote_actor; run_unfold;
    destruct (bool_decide _); [done|by intros [= _ _ <-]]).
  inv_bind Hrun now w2 d2 H2. injection H2 as _ _ <-.
  inv_bind Hrun i w3 d3 H3. injection H3 as _ _ <-.
  inv_bind Hrun d0 w4 d4 H4. injection H4 as <- <- <-.
  inv_bind Hrun ins w5 d5 H5.
  inv_bind Hrun u6 w6 d6 H6. injection H6 as _ _ <-.
  inv_bind Hrun u7 w7 d7 H7. injection H7 as _ _ <-.
  inv_bind Hrun u8 w8 d8 H8. injection H8 as _ _ <-.
  inv_bind Hrun u9 w9 d9 H9. apply (keeps_run core) in H9; [|apply keeps_core_dismiss].
  inv_bind Hrun u10 w10 d10 H10.
  assert (core d10 = core d9) as Hc by
    (destruct ins; [eapply keeps_run; [apply keeps_core_enqueue|exact H10]|by injection H10 as _ _ <-]).
  injection Hrun as _ _ <-.
  destruct (local_remote_blocks d !! _) as [old|] eqn:Hb.
  - injection H5 as _ _ <-. exists (local_remote_blocks d).
    split_and!; [unfold severed; rewrite Hc, H9; reflexivity|by eexists|by right].
  - destruct (activity_taken _ _ _); [done|]. inv_bind H5 u w11 d11 H11.
    injection H11 as _ _ <-. injection H5 as _ _ <-.
    exists (<[(account_uuid l, account_uuid r) := mkRemoteBlockRow i activity]>
              (local_remote_blocks d)).
    split_and!; [unfold severed; rewrite Hc, H9; reflexivity|rewrite lookup_insert_eq; by eexists|].
    intros k x. rewrite lookup_insert. case_decide; [by left|by right].
Qed.

Lemma process_remote_block_severs r l activity w d b w' d' :
  process_remote_block r l activity w d = (Ok b, w', d') ->
  exists into, severed (account_uuid l) (account_uuid r) (local_remote_blocks d) into d d' /\
    (forall k x, into !! k = Some x ->
       k = (account_uuid r, account_uuid l) \/ remote_local_blocks d !! k = Some x).
Proof.
  intros Hrun. unfold process_remote_block in Hrun.
  inv_bind Hrun i w3 d3 H3. injection H3 as _ _ <-.
  inv_bind Hrun d0 w4 d4 H4. injection H4 as <- <- <-.
  inv_bind Hrun ins w5 d5 H5.
  inv_bind Hrun u6 w6 d6 H6. injection H6 as _ _ <-.
  inv_bind Hrun u7 w7 d7 H7. injection H7 as _ _ <-.
  inv_bind Hrun u8 w8 d8 H8. injection H8 as _ _ <-.
  inv_bind Hrun now w2 d2 H2. injection H2 as _ _ <-.
  inv_bind Hrun u9 w9 d9 H9. apply (keeps_run core) in H9; [|apply keeps_core_dismiss].
  injection Hrun as _ _ <-.
  destruct (_ || _)%bool.
  - injection H5 as _ _ <-. exists (remote_local_blocks d).
    split; [unfold severed; rewrite H9; reflexivity|by right].
  - inv_bind H5 u w11 d11 H11. injection H11 as _ _ <-. injection H5 as _ _ <-.
    exists (<[(account_uuid r, account_uuid l) := mkRemoteBlockRow i activity]>
              (remote_local_blocks d)).
    split; [unfold severed; rewrite H9; reflexivity|].
    intros k x. rewrite lookup_insert. case_decide; [by left|by right].
Qed.

Lemma block_remote_account_ok l r activity job w d b w' d' :
  relations_ok d -> block_remote_account l r activity job w d = (Ok b, w', d') -> relations_ok d'.
Proof.
  intros Hd (out & Hs & _ & Hout)%block_remote_account_severs.
  eapply severed_ok; [exact Hd|exact Hs|exact Hout|by right].
Qed.

Lemma process_remote_block_ok r l activity w d b w' d' :
  relations_ok d -> process_remote_block r l activity w d = (Ok b, w', d') -> relations_ok d'.
Proof.
  intros Hd (into & Hs & Hinto)%process_remote_block_severs.
  eapply severed_ok; [exact Hd|exact Hs|by right|exact Hinto].
Qed.

(** Blocks only shrink. *)
Lemma fewer_blocks_ok d d' :
  relations_ok d ->
  local_follows d' = local_follows d -> local_blocks d' = local_blocks d ->
  (forall k b, local_remote_blocks d' !! k = Some b -> local_remote_blocks d !! k = Some b) ->
  (forall k b, remote_local_blocks d' !! k = Some b -> remote_local_blocks d !! k = Some b) ->
  remote_follows d' = remote_follows d -> remote_followings d' = remote_followings d ->
  lists d' = lists d -> list_local_members d' = list_local_members d ->
  list_remote_members d' = list_remote_members d -> relations_ok d'.
Proof.
  intros [K1 K2 K3 K4 K5] E1 E2 Hout Hinto E5 E6 E7 E8 E9.
  split; rewrite ?E1, ?E2, ?E5, ?E6, ?E7, ?E8, ?E9; try done.
  intros l r b Hb. eapply (K2 l r b). destruct Hb; auto.
Qed.

Lemma unblock_remote_account_ok l r job w d b w' d' :
  relations_ok d -> unblock_remote_account l r job w d = (Ok b, w', d') -> relations_ok d'.
Proof.
  intros Hd Hrun. unfold unblock_remote_account in Hrun.
  inv_bind Hrun d0 w0 d0' H0. injection H0 as <- <- <-.
  destruct (local_remote_blocks d !! _); [|by injection Hrun as _ _ <-].
  inv_bind Hrun u w1 d1 H1. injection H1 as _ _ <-.
  inv_bind Hrun u2 w2 d2 H2. apply (keeps_run core) in H2; [|apply keeps_core_enqueue].
  injection Hrun as _ _ <-. eapply relations_ok_core; [symmetry; exact H2|].
  eapply fewer_blocks_ok; [exact Hd|..]; simpl; try done. intros k x Hx. by tables.
Qed.

Lemma process_remote_undo_block_ok r l activity w d b w' d' :
  relations_ok d -> process_remote_undo_block r l activity w d = (Ok b, w', d') -> relations_ok d'.
Proof.
  intros Hd Hrun. unfold process_remote_undo_block in Hrun.
  inv_bind Hrun d0 w0 d0' H0. injection H0 as <- <- <-.
  destruct (remote_local_blocks d !! _); [|by injection Hrun as _ _ <-].
  destruct (bool_decide _); [|by injection Hrun as _ _ <-].
  inv_bind Hrun u w1 d1 H1. injection H1 as _ _ <-. injection Hrun as _ _ <-.
  eapply fewer_blocks_ok; [exact Hd|..]; simpl; try done. intros k x Hx. by tables.
Qed.

Lemma not_blocked l r d b :
  remote_pair_blocked l r d = false ->
  local_remote_blocks d !! (l, r) = Some b \/ remote_local_blocks d !! (r, l) = Some b -> False.
Proof.
  unfold remote_pair_blocked. intros Hno Hb. boolp.
  destruct Hb as [Hb|Hb]; rewrite Hb in *; by eauto.
Qed.

(** Only the inbound follows change, and every new one joins an unblocked pair. *)
Lemma inbound_ok d t :
  relations_ok d ->
  (forall r l f, t !! (r, l) = Some f ->
     is_Some (remote_follows d !! (r, l)) \/ remote_pair_blocked l r d = false) ->
  relations_ok (set_remote_follows d t).
Proof.
  intros [K1 K2 K3 K4 K5] Ht. split; simpl; try done.
  intros l r b Hb. destruct (K2 l r b Hb) as [H1 H2]. split; [|done].
  destruct (t !! (r, l)) as [f|] eqn:Hf; [|done]. exfalso.
  destruct (Ht _ _ _ Hf) as [[g Hg]|Hno]; [congruence|].
  by eapply not_blocked.
Qed.

Lemma insert_remote_follow_inv r l aid act st w d row w' d' :
  insert_remote_follow r l aid act st w d = (Ok row, w', d') ->
  d' = set_remote_follows d (<[(account_uuid r, account_uuid l) := row]> (remote_follows d)).
Proof.
  unfold insert_remote_follow. run_unfold. simpl.
  destruct (follow_activity_taken _ _ _); [done|]. by intros [= <- _ <-].
Qed.

Lemma insert_remote_follow_ok r l aid act st w d row w' d' :
  relations_ok d -> remote_pair_blocked (account_uuid l) (account_uuid r) d = false ->
  insert_remote_follow r l aid act st w d = (Ok row, w', d') -> relations_ok d'.
Proof.
  intros Hd Hb ->%insert_remote_follow_inv. apply inbound_ok; [done|].
  intros r' l' f. rewrite lookup_insert. case_decide as Hk; [|by eauto].
  injection Hk as <- <-. by right.
Qed.

Lemma process_follow_ok r l aid act job w d b w' d' :
  relations_ok d ->
  upsert_processed_remote_follow_with_response_job r l aid act job w d = (Ok b, w', d') ->
  relations_ok d'.
Proof.
  intros Hd Hrun. unfold upsert_processed_remote_follow_with_response_job in Hrun.
  inv_bind Hrun bl w1 d1 H1. injection H1 as Hbl <- <-.
  destruct bl; [by injection Hrun as _ _ <-|].
  inv_bind Hrun row w2 d2 H2. inv_bind Hrun u w3 d3 H3.
  apply (keeps_run core) in H3; [|apply keeps_core_response]. injection Hrun as _ _ <-.
  eapply relations_ok_core; [symmetry; exact H3|]. by eapply insert_remote_follow_ok.
Qed.

Lemma process_pending_follow_ok r l aid act w d b w' d' :
  relations_ok d ->
  upsert_processed_pending_remote_follow r l aid act w d = (Ok b, w', d') -> relations_ok d'.
Proof.
  intros Hd Hrun. unfold upsert_processed_pending_remote_follow in Hrun.
  inv_bind Hrun bl w1 d1 H1. injection H1 as Hbl <- <-.
  destruct bl; [by injection Hrun as _ _ <-|].
  inv_bind Hrun row w2 d2 H2. injection Hrun as _ _ <-. by eapply insert_remote_follow_ok.
Qed.

Lemma pending_follow_Some r l aid d f :
  pending_follow r l aid d = Some f -> remote_follows d !! (account_uuid r, account_uuid l) = Some f.
Proof.
  unfold pending_follow. destruct (remote_follows d !! _); [|done].
  by destruct (_ && _)%bool.
Qed.

Lemma accept_remote_follow_ok l r aid job w d b w' d' :
  relations_ok d -> accept_remote_follow_with_response_job l r aid job w d = (Ok b, w', d') ->
  relations_ok d'.
Proof.
  intros Hd Hrun. unfold accept_remote_follow_with_response_job in Hrun.
  inv_bind Hrun d0 w0 d0' H0. injection H0 as <- <- <-.
  destruct (pending_follow r l aid d) as [f|] eqn:Hf; [|by injection Hrun as _ _ <-].
  apply pending_follow_Some in Hf.
  inv_bind Hrun now w1 d1 H1. injection H1 as _ _ <-.
  inv_bind Hrun u w2 d2 H2. injection H2 as _ _ <-.
  inv_bind Hrun u3 w3 d3 H3. apply (keeps_run core) in H3; [|apply keeps_core_response].
  injection Hrun as _ _ <-. eapply relations_ok_core; [symmetry; exact H3|].
  apply inbound_ok; [done|]. intros r' l' g. rewrite lookup_insert.
  case_decide as Hk; [injection Hk as <- <-; left; by eexists|by eauto].
Qed.

Lemma delete_follow_of_ok r l w d : relations_ok d -> relations_ok (store_of (delete_follow_of r l) w d).
Proof. intros Hd. apply inbound_ok; [done|]. intros r' l' f Hf. tables. eauto. Qed.

Lemma delete_remote_follow_ok l r aid job w d b w' d' :
  relations_ok d -> delete_remote_follow_with_response_job l r aid job w d = (Ok b, w', d') ->
  relations_ok d'.
Proof.
  intros Hd Hrun. unfold delete_remote_follow_with_response_job in Hrun.
  inv_bind Hrun d0 w0 d0' H0. injection H0 as <- <- <-.
  destruct (pending_follow r l aid d) as [f|] eqn:Hf; [|by injection Hrun as _ _ <-].
  inv_bind Hrun u w2 d2 H2. injection H2 as _ <- <-.
  inv_bind Hrun u3 w3 d3 H3. apply (keeps_run core) in H3; [|apply keeps_core_response].
  injection Hrun as _ _ <-. eapply relations_ok_core; [symmetry; exact H3|].
  by apply (delete_follow_of_ok r l w d).
Qed.

Lemma process_remote_undo_follow_ok r aid w d :
  relations_ok d -> relations_ok (store_of (process_remote_undo_follow r aid) w d).
Proof. intros Hd. apply inbound_ok; [done|]. intros r' l' f Hf. tables. eauto. Qed.

(** * Outbound follows *)

Lemma write_following_inv row w d u w' d' :
  write_following row w d = (Ok u, w', d') ->
  d' = set_remote_followings d (<[(fg_local row, fg_remote row) := row]> (remote_followings d)).
Proof.
  unfold write_following. run_unfold. destruct (following_activity_taken _ _ _); [done|].
  by intros [= _ _ <-].
Qed.

(** Writing a following of a pair that is not blocked (or had one). *)
Lemma write_following_ok row d :
  relations_ok d ->
  fg_deactivated_at row = None ->
  is_Some (remote_followings d !! (fg_local row, fg_remote row)) \/
    remote_pair_blocked (fg_local row) (fg_remote row) d = false ->
  relations_ok (set_remote_followings d
    (<[(fg_local row, fg_remote row) := row]> (remote_followings d))).
Proof.
  intros [K1 K2 K3 K4 K5] Hact Hnb. split; simpl; try done.
  - intros l r b Hb. destruct (K2 l r b Hb) as [H1 H2]. split; [done|].
    rewrite lookup_insert. case_decide as Hk; [|done]. injection Hk as <- <-.
    destruct Hnb as [[g Hg]|Hno]; [congruence|].
    exfalso. by eapply not_blocked.
  - by apply remote_members_follow.
  - by apply followings_keyed_insert.
Qed.

Lemma insert_following_inv l r aid sr nt w d row w' d' :
  insert_following l r aid sr nt w d = (Ok row, w', d') ->
  remote_followings d !! (account_uuid l, account_uuid r) = None /\
  fg_local row = account_uuid l /\ fg_remote row = account_uuid r /\
  fg_deactivated_at row = None /\
  d' = set_remote_followings d (<[(fg_local row, fg_remote row) := row]> (remote_followings d)).
Proof.
  intros Hrun. unfold insert_following in Hrun.
  inv_bind Hrun i w1 d1 H1. injection H1 as _ _ <-.
  inv_bind Hrun now w2 d2 H2. injection H2 as _ _ <-.
  inv_bind Hrun d0 w0 d0' H0. injection H0 as <- <- <-.
  destruct (bool_decide _) eqn:Hb; [done|]. boolp. apply eq_None_not_Some in Hb.
  inv_bind Hrun u w3 d3 H3. apply write_following_inv in H3 as ->.
  by injection Hrun as <- _ <-.
Qed.

Lemma create_following_ok l r aid sr nt job w d row w' d' :
  relations_ok d -> create_remote_following_with_job l r aid sr nt job w d = (Ok row, w', d') ->
  relations_ok d'.
Proof.
  intros Hd Hrun. unfold create_remote_following_with_job in Hrun.
  inv_bind Hrun bl w1 d1 H1. injection H1 as Hbl <- <-.
  destruct bl; [done|]. inv_bind Hrun d0 w0 d0' H0. injection H0 as <- <- <-.
  destruct (remote_followings d !! _) as [f|] eqn:Hf.
  - pose proof (ok_keys _ Hd _ _ Hf) as Hk. injection Hk as Hkl Hkr.
    inv_bind Hrun now w2 d2 H2. injection H2 as _ _ <-.
    destruct (fg_deactivated_at f) eqn:Hde.
    + inv_bind Hrun u3 w3 d3 H3. apply write_following_inv in H3 as ->.
      inv_bind Hrun u4 w4 d4 H4. apply (keeps_run core) in H4; [|apply keeps_core_enqueue].
      injection Hrun as _ _ <-. eapply relations_ok_core; [symmetry; exact H4|].
      match goal with |- relations_ok (set_remote_followings _ (<[_ := ?row]> _)) =>
        apply (write_following_ok row d) end; [done|done|]. left. simpl. rewrite Hkl, Hkr. by eexists.
    + inv_bind Hrun u3 w3 d3 H3. apply write_following_inv in H3 as ->.
      injection Hrun as _ _ <-.
      match goal with |- relations_ok (set_remote_followings _ (<[_ := ?row]> _)) =>
        apply (write_following_ok row d) end; [done|done|]. left. simpl. rewrite Hkl, Hkr. by eexists.
  - inv_bind Hrun row' w2 d2 H2. apply insert_following_inv in H2 as (_ & El & Er & Ed & ->).
    inv_bind Hrun u4 w4 d4 H4. apply (keeps_run core) in H4; [|apply keeps_core_enqueue].
    injection Hrun as _ _ <-. eapply relations_ok_core; [symmetry; exact H4|].
    apply write_following_ok; [done|done|]. right. by rewrite El, Er.
Qed.

Lemma accept_remote_following_ok r aid w d b w' d' :
  relations_ok d -> accept_remote_following r aid w d = (Ok b, w', d') -> relations_ok d'.
Proof.
  intros [K1 K2 K3 K4 K5] Hrun. unfold accept_remote_following in Hrun.
  inv_bind Hrun now w1 d1 H1. injection H1 as _ _ <-.
  inv_bind Hrun d0 w0 d0' H0. injection H0 as <- <- <-.
  inv_bind Hrun u w2 d2 H2. injection H2 as _ _ <-. injection Hrun as _ _ <-.
  split; simpl; try done.
  - intros l x y Hb. destruct (K2 _ _ _ Hb) as [H1 H2].
    by rewrite lookup_update_where, H2.
  - intros lst x i Hx. destruct (K4 _ _ _ Hx) as (row & Hrow & [He|(f & Hf & Hde)]); [by eauto|].
    exists row. split; [done|]. right. rewrite lookup_update_where, Hf. simpl.
    destruct (following_of_activity _ _ _); eexists; by split.
  - intros k f. rewrite lookup_update_where. intros (g & Hg & ->)%fmap_Some.
    specialize (K5 _ _ Hg). by destruct (following_of_activity _ _ _).
Qed.

Lemma delete_remote_following_with_job_ok l r job w d o w' d' :
  relations_ok d -> delete_remote_following_with_job l r job w d = (Ok o, w', d') -> relations_ok d'.
Proof.
  intros Hd Hrun. unfold delete_remote_following_with_job in Hrun.
  inv_bind Hrun d0 w0 d0' H0. injection H0 as <- <- <-.
  destruct (remote_followings d !! _) as [f|]; [|by injection Hrun as _ _ <-].
  inv_bind Hrun u1 w1 d1 H1. injection H1 as _ _ <-.
  inv_bind Hrun u2 w2 d2 H2. injection H2 as _ _ <-.
  inv_bind Hrun u3 w3 d3 H3. apply (keeps_run core) in H3; [|apply keeps_core_enqueue].
  injection Hrun as _ _ <-. eapply relations_ok_core; [symmetry; exact H3|].
  destruct Hd as [K1 K2 K3 K4 K5]. split; simpl; try done.
  - intros l' r' b Hb. destruct (K2 _ _ _ Hb) as [H1 H2]. split; [done|].
    apply lookup_delete_None. by right.
  - apply remote_members_unfollow; [done|]. intros. by apply owned_by_row.
  - by apply followings_keyed_delete.
Qed.

(** * Moves *)

Lemma owned_by_spec owner d lst :
  owned_by owner d lst = true <-> exists row, lists d !! lst = Some row /\ list_owner row = owner.
Proof using Type.
  clear ended. unfold owned_by. destruct (lists d !! lst) as [row|]; [|naive_solver].
  rewrite N.eqb_eq. naive_solver.
Qed.

Lemma copy_membership_ok target l lst w d w' d' f :
  relations_ok d -> owned_by l d lst = true ->
  remote_followings d !! (l, account_uuid target) = Some f -> fg_deactivated_at f = None ->
  copy_membership target lst w d = (Ok tt, w', d') ->
  relations_ok d' /\ lists d' = lists d /\ remote_followings d' = remote_followings d /\
  remote_actors d' = remote_actors d.
Proof.
  intros [K1 K2 K3 K4 K5] (row & Hrow & Ho)%owned_by_spec Hf Hde.
  unfold copy_membership. run_unfold. intros [= _ <-]. split; [|done]. split; simpl; try done.
  destruct (list_remote_members d !! _) as [old|]; [done|].
  intros lst' r i Hi. tables; [|by eapply K4].
  exists row. split; [done|]. right. by exists f.
Qed.

Lemma copy_memberships_ok target l lsts w d w' d' f :
  relations_ok d -> Forall (fun lst => owned_by l d lst = true) lsts ->
  remote_followings d !! (l, account_uuid target) = Some f -> fg_deactivated_at f = None ->
  for_each lsts (copy_membership target) w d = (Ok tt, w', d') ->
  relations_ok d' /\ lists d' = lists d /\ remote_followings d' = remote_followings d.
Proof.
  revert w d. induction lsts as [|lst lsts IH]; intros w d Hd Hall Hf Hde Hrun.
  { by injection Hrun as _ <-. }
  simpl in Hrun. inv_bind Hrun u w1 d1 H1. destruct u. inversion Hall as [|? ? Ho Hall']; subst.
  destruct (copy_membership_ok _ _ _ _ _ _ _ _ Hd Ho Hf Hde H1) as (Hd1 & Hl1 & Hf1 & _).
  destruct (IH w1 d1) as (Hd2 & Hl2 & Hf2); try done.
  - eapply Forall_impl; [exact Hall'|]. intros x. unfold owned_by. by rewrite Hl1.
  - by rewrite Hf1.
  - split_and!; [done|congruence|congruence].
Qed.

Lemma remote_members_overwrite ls members followings (l r : uuid) p f :
  remote_members_followed ls members followings ->
  (forall lst row, ls !! lst = Some row -> p lst = true <-> list_owner row = l) ->
  remote_members_followed ls
    (filter (fun kv => ~ (kv.1.2 = r /\ p kv.1.1 = true)) members) (<[(l, r) := f]> followings).
Proof.
  intros Hm Hp lst x i Hx. tables. destruct (Hm _ _ _ H) as (row & Hrow & [He|(g & Hg & Hd)]); [by eauto|].
  exists row. split; [done|]. right. exists g. split; [|done]. rewrite lookup_insert_ne; [done|].
  intros [= -> ->]. apply H0. split; [done|]. by apply (Hp _ _ Hrow).
Qed.

Lemma migrate_source_Some fw d f :
  migrate_source fw d = Some f ->
  remote_followings d !! (fg_local fw, fg_remote fw) = Some f.
Proof.
  unfold migrate_source. destruct (remote_followings d !! _) as [g|] eqn:Hg; [|done].
  destruct (_ && _ && _)%bool; [|done]. by intros [= <-].
Qed.

(** Leaving the source: the last three statements of a move. *)
Lemma leave_source_ok (l r : uuid) f d d' :
  relations_ok d -> is_Some (remote_followings d !! (l, r)) -> (fg_local f, fg_remote f) = (l, r) ->
  core d' = core (set_remote_followings
    (set_lists d (lists d) (list_local_members d)
       (filter (fun kv => ~ (kv.1.2 = r /\ owned_by l d kv.1.1 = true)) (list_remote_members d)))
    (<[(l, r) := f]> (remote_followings d))) ->
  relations_ok d'.
Proof.
  intros [K1 K2 K3 K4 K5] [g Hg] Hk Hc. eapply relations_ok_core; [symmetry; exact Hc|].
  split; simpl; try done.
  - intros l' r' b Hb. destruct (K2 _ _ _ Hb) as [H1 H2]. split; [done|].
    rewrite lookup_insert_ne; [done|]. intros [= <- <-]. congruence.
  - apply remote_members_overwrite; [done|]. intros. by apply owned_by_row.
  - rewrite <- Hk. by apply followings_keyed_insert.
Qed.

Lemma migrate_ok fw target allow tf undo w d b w' d' :
  relations_ok d ->
  (allow = true -> remote_pair_blocked (fg_local fw) (account_uuid target) d = false) ->
  migrate_remote_following_for_actor_move fw target allow tf undo w d = (Ok b, w', d') ->
  relations_ok d'.
Proof.
  intros Hd Hallow Hrun. unfold migrate_remote_following_for_actor_move in Hrun.
  inv_bind Hrun d0 w0 d0' H0. injection H0 as <- <- <-.
  destruct (migrate_source fw d) as [src|] eqn:Hsrc; [|by injection Hrun as _ _ <-].
  apply migrate_source_Some in Hsrc. pose proof (ok_keys _ Hd _ _ Hsrc) as Hkey.
  destruct (negb _); [by injection Hrun as _ _ <-|].
  inv_bind Hrun exi w1 d1 H1. inv_bind Hrun u2 w2 d2 H2. inv_bind Hrun u3 w3 d3 H3.
  inv_bind Hrun u4 w4 d4 H4. injection H4 as _ _ <-.
  inv_bind Hrun now w5 d5 H5. injection H5 as _ _ <-.
  inv_bind Hrun u6 w6 d6 H6. apply write_following_inv in H6.
  inv_bind Hrun u7 w7 d7 H7. apply (keeps_run core) in H7; [|apply keeps_core_enqueue].
  injection Hrun as _ _ <-. destruct u2, u3.
  assert (Hd2 : relations_ok d2 /\
    remote_followings d2 !! (fg_local fw, fg_remote fw) = Some src /\
    (allow = true -> exists g, remote_followings d2 !! (fg_local fw, account_uuid target) = Some g /\
       fg_deactivated_at g = None)).
  { destruct allow; simpl in *; [|by injection H1 as _ <- <-; injection H2 as _ <-].
    injection H1 as Hex <- <-. simpl in Hex. destruct exi as [g|]; simpl in H2.
    - injection H2 as _ <-. split_and!; [done|done|]. intros _.
      destruct (remote_followings d !! (fg_local fw, account_uuid target)) as [g'|]; [|done].
      destruct (bool_decide _) eqn:Hg; [|done]. injection Hex as ->. boolp. eauto.
    - inv_bind H2 tj w8 d8 H8. apply lift_option_Ok in H8 as (_ & -> & ->). destruct tj as [aid job].
      inv_bind H2 row w9 d9 H9. apply insert_following_inv in H9 as (Hnone & El & Er & Ed & ->).
      simpl in El, Er, Hnone. apply (keeps_run core) in H2; [|apply keeps_core_enqueue].
      pose proof H2 as Hfg. unfold core in Hfg. injection Hfg as _ _ _ _ _ Hfg _ _ _.
      split_and!.
      + eapply relations_ok_core; [symmetry; exact H2|]. apply write_following_ok; [done|done|].
        right. rewrite El, Er. by apply Hallow.
      + rewrite Hfg. simpl. rewrite El, Er, lookup_insert_ne; [done|]. intros [= Heq]. congruence.
      + intros _. exists row. rewrite Hfg. simpl. by rewrite El, Er, lookup_insert_eq. }
  destruct Hd2 as (Hd2 & Hsrc2 & Htgt).
  assert (Hd3 : relations_ok d3 /\ remote_followings d3 = remote_followings d2).
  { destruct allow; [|by injection H3 as _ <-].
    destruct (Htgt eq_refl) as (g & Hg & Hde).
    inv_bind H3 d0 w8 d8 H8. injection H8 as <- <- <-.
    eapply copy_memberships_ok in H3 as (Hd3 & Hl3 & Hf3); [split; [exact Hd3|exact Hf3]|exact Hd2| |exact Hg|exact Hde].
    apply Forall_forall. intros lst Hin. unfold memberships_of in Hin.
    apply list_elem_of_fmap in Hin as ([[lst' r'] i] & -> & Hin).
    apply list_elem_of_In, filter_In in Hin as [_ Hin]. by apply andb_true_iff in Hin as [_ Hin]. }
  destruct Hd3 as [Hd3 Hf3].
  eapply (leave_source_ok (fg_local fw) (fg_remote fw) (deactivate_following now src) d3);
    [done|rewrite Hf3; by eexists|done|].
  rewrite H7, H6. simpl. rewrite Hkey. reflexivity.
Qed.

End Ended.

(** * Suspended domains and lists *)

Section Histories.
Context (uuid_text : uuid -> string).

Section Steps.
Context {ended : uuid -> uuid -> Prop}.
#[local] Notation relations_ok := (relations_ok_but (ended := ended)).

Lemma reconcile_inv domains w d n w' d' :
  reconcile_suspended_remote_domains uuid_text domains w d = (Ok n, w', d') ->
  let gone := suspended_actors domains d in
  n = (if bool_decide (domains = []) then 0 else Z.of_nat (length gone)) /\
  ((core d' = core d /\ (domains = [] \/ gone = [])) \/
  core d' = (local_follows d, local_blocks d, (local_remote_blocks d, remote_local_blocks d),
    (filter (fun kv => kv.1.1 ∉ gone) (remote_follows d),
     filter (fun kv => kv.1.2 ∉ gone) (remote_followings d)),
    (lists d, list_local_members d, filter (fun kv => kv.1.2 ∉ gone) (list_remote_members d)))).
Proof using Type.
  intros Hrun. unfold reconcile_suspended_remote_domains in Hrun. simpl.
  destruct (bool_decide (domains = [])) eqn:Hne; [boolp; injection Hrun as <- _ <-; by auto|].
  inv_bind Hrun d0 w0 d0' H0. injection H0 as <- <- <-.
  destruct (bool_decide (suspended_actors domains d = [])) eqn:Hnil.
  { boolp. rewrite Hnil. injection Hrun as <- _ <-. by auto. }
  inv_bind Hrun now w1 d1 H1. injection H1 as _ _ <-.
  inv_bind Hrun u2 w2 d2 H2. injection H2 as _ _ <-.
  inv_bind Hrun u3 w3 d3 H3. injection H3 as _ _ <-.
  inv_bind Hrun u4 w4 d4 H4. injection H4 as _ _ <-.
  inv_bind Hrun u5 w5 d5 H5. apply (keeps_run core) in H5; [|apply keeps_core_dismiss].
  inv_bind Hrun u6 w6 d6 H6. apply (keeps_run core) in H6; [|solve_keeps].
  injection Hrun as <- _ <-. split; [done|]. right. rewrite H6, H5. reflexivity.
Qed.

Lemma reconcile_ok domains w d n w' d' :
  relations_ok d -> reconcile_suspended_remote_domains uuid_text domains w d = (Ok n, w', d') ->
  relations_ok d'.
Proof using Type.
  intros Hd (_ & [[Hc _]|Hc])%reconcile_inv; [by eapply relations_ok_core|].
  unfold core in Hc. injection Hc as E1 E2 E3 E4 E5 E6 E7 E8 E9.
  destruct Hd as [K1 K2 K3 K4 K5].
  split; rewrite ?E1, ?E2, ?E3, ?E4, ?E5, ?E6, ?E7, ?E8, ?E9; try done.
  - intros l r b Hb. destruct (K2 _ _ _ Hb) as [H1 H2].
    split; apply map_lookup_filter_None; by left.
  - intros lst r i Hi. tables. destruct (K4 _ _ _ H) as (row & Hrow & [He|(f & Hf & Hde)]); [by eauto|].
    exists row. split; [done|]. right. exists f. split; [|done]. by apply map_lookup_filter_Some.
  - intros k f Hf. tables. by apply K5.
Qed.

(** List operations leave follows and blocks alone. *)
Lemma lists_only_ok d ls lm rm :
  relations_ok d -> local_members_followed ls lm (local_follows d) ->
  remote_members_followed (ended := ended) ls rm (remote_followings d) -> relations_ok (set_lists d ls lm rm).
Proof using Type. by intros [K1 K2 K3 K4 K5]. Qed.

Lemma find_owned_inv owner lst w d o w' d' :
  find_owned_local_list owner lst w d = (Ok o, w', d') ->
  w' = w /\ d' = d /\
  forall l, o = Some l -> lists d !! lst = Some l /\ list_owner l = account_uuid owner.
Proof using Type.
  intros [= <- <- <-]. split_and!; [done..|]. intros l.
  destruct (lists d !! lst) as [row|]; [|done].
  destruct (N.eqb_spec (list_owner row) (account_uuid owner)); [|done]. by intros [= <-].
Qed.

Lemma create_local_list_ok a title p e w d row w' d' :
  relations_ok d -> create_local_list a title p e w d = (Ok row, w', d') -> relations_ok d'.
Proof using Type.
  intros Hd Hrun. unfold create_local_list in Hrun.
  inv_bind Hrun i w1 d1 H1. injection H1 as _ _ <-.
  inv_bind Hrun now w2 d2 H2. injection H2 as _ _ <-.
  inv_bind Hrun d0 w0 d0' H0. injection H0 as <- <- <-.
  destruct (bool_decide _) eqn:Hb; [done|]. boolp. apply eq_None_not_Some in Hb.
  inv_bind Hrun u w3 d3 H3. injection H3 as _ _ <-. injection Hrun as _ _ <-.
  pose proof Hd as [K1 K2 K3 K4 K5]. apply lists_only_ok; [done|..].
  - intros lst x y Hx. destruct (K3 _ _ _ Hx) as (r & f & Hr & Hf).
    exists r, f. split; [|done]. rewrite lookup_insert_ne; [done|]. intros ->. congruence.
  - intros lst x y Hx. destruct (K4 _ _ _ Hx) as (r & Hr & Hf).
    exists r. split; [|done]. rewrite lookup_insert_ne; [done|]. intros ->. congruence.
Qed.

Lemma update_local_list_ok a lst title p e w d o w' d' :
  relations_ok d -> update_local_list a lst title p e w d = (Ok o, w', d') -> relations_ok d'.
Proof using Type.
  intros Hd Hrun. unfold update_local_list in Hrun.
  inv_bind Hrun found w1 d1 H1. apply find_owned_inv in H1 as (-> & -> & Hfound).
  destruct found as [l|]; [|by injection Hrun as _ _ <-].
  destruct (Hfound l eq_refl) as [Hl Ho].
  inv_bind Hrun now w2 d2 H2. injection H2 as _ _ <-.
  inv_bind Hrun u w3 d3 H3. injection H3 as _ _ <-. injection Hrun as _ _ <-.
  pose proof Hd as [K1 K2 K3 K4 K5]. apply lists_only_ok; [done|..].
  - intros lst' x y Hx. destruct (K3 _ _ _ Hx) as (r & f & Hr & Hf).
    destruct (decide (lst = lst')) as [<-|Hne].
    + eexists _, f. rewrite lookup_insert_eq. split; [done|]. simpl. congruence.
    + exists r, f. by rewrite lookup_insert_ne.
  - intros lst' x y Hx. destruct (K4 _ _ _ Hx) as (r & Hr & Hf).
    destruct (decide (lst = lst')) as [<-|Hne].
    + eexists. rewrite lookup_insert_eq. split; [done|]. simpl. by replace (list_owner l) with (list_owner r) by congruence.
    + exists r. by rewrite lookup_insert_ne.
Qed.

Lemma delete_local_list_ok a lst w d b w' d' :
  relations_ok d -> delete_local_list a lst w d = (Ok b, w', d') -> relations_ok d'.
Proof using Type.
  intros Hd Hrun. unfold delete_local_list in Hrun.
  inv_bind Hrun found w1 d1 H1. apply find_owned_inv in H1 as (-> & -> & Hfound).
  destruct found as [l|]; [|by injection Hrun as _ _ <-].
  inv_bind Hrun u w3 d3 H3. injection H3 as _ _ <-. injection Hrun as _ _ <-.
  pose proof Hd as [K1 K2 K3 K4 K5]. apply lists_only_ok; [done|..].
  - intros lst' x y Hx. tables. destruct (K3 _ _ _ H) as (r & f & Hr & Hf).
    exists r, f. by rewrite lookup_delete_ne.
  - intros lst' x y Hx. tables. destruct (K4 _ _ _ H) as (r & Hr & Hf).
    exists r. by rewrite lookup_delete_ne.
Qed.

Lemma remove_local_list_accounts_ok a lst accounts w d b w' d' :
  relations_ok d -> remove_local_list_accounts a lst accounts w d = (Ok b, w', d') ->
  relations_ok d'.
Proof using Type.
  intros Hd Hrun. unfold remove_local_list_accounts in Hrun.
  inv_bind Hrun found w1 d1 H1. apply find_owned_inv in H1 as (-> & -> & Hfound).
  destruct found as [l|]; [|by injection Hrun as _ _ <-].
  inv_bind Hrun u w3 d3 H3. injection H3 as _ _ <-. injection Hrun as _ _ <-.
  apply lists_only_ok; [done|by apply local_members_shrink, Hd|by apply remote_members_shrink, Hd].
Qed.

(** The loop of [add_local_list_accounts]. *)
Lemma add_members_ok owner lst row base ids w d w' d' :
  relations_ok d -> lists d !! lst = Some row -> list_owner row = owner ->
  local_follows base = local_follows d -> remote_followings base = remote_followings d ->
  Forall (fun a => follows_local owner a base = true \/ follows_remote owner a base = true) ids ->
  for_each ids (add_list_member owner lst base) w d = (Ok tt, w', d') ->
  relations_ok d' /\
  (forall a, a ∈ ids -> is_Some (list_local_members d' !! (lst, a)) \/
                        is_Some (list_remote_members d' !! (lst, a))) /\
  (forall k i, list_local_members d !! k = Some i -> is_Some (list_local_members d' !! k)) /\
  (forall k i, list_remote_members d !! k = Some i -> is_Some (list_remote_members d' !! k)).
Proof using Type.
  revert w d. induction ids as [|a ids IH]; intros w d Hd Hl Ho Hf Hg Hall Hrun.
  { injection Hrun as _ <-. split_and!; [done| |by eauto|by eauto].
    intros a Ha. by apply elem_of_nil in Ha. }
  simpl in Hrun. inv_bind Hrun u w1 d1 H1. destruct u.
  inversion Hall as [|? ? Ha Hall']; subst.
  unfold add_list_member in H1. inv_bind H1 i w2 d2 H2. injection H2 as _ _ <-.
  injection H1 as _ H1. pose proof Hd as [K1 K2 K3 K4 K5].
  assert (relations_ok d1 /\ lists d1 = lists d /\ local_follows d1 = local_follows d /\
    remote_followings d1 = remote_followings d /\
    (is_Some (list_local_members d1 !! (lst, a)) \/ is_Some (list_remote_members d1 !! (lst, a))) /\
    (forall k j, list_local_members d !! k = Some j -> is_Some (list_local_members d1 !! k)) /\
    (forall k j, list_remote_members d !! k = Some j -> is_Some (list_remote_members d1 !! k)))
    as (Hd1 & Hl1 & Hf1 & Hg1 & Hin & Hkl & Hkr).
  { destruct (follows_local (list_owner row) a base) eqn:Hfl; subst d1; simpl.
    - split_and!; try done.
      + apply lists_only_ok; [done| |done]. intros lst' x y Hx. tables; [|by eapply K3].
        unfold follows_local in Hfl. rewrite Hf in Hfl. boolp. destruct Hfl as [f Hfl]. eauto.
      + left. rewrite lookup_insert_eq. by eexists.
      + intros k j Hk. rewrite lookup_insert. case_decide; by eauto.
    - destruct Ha as [Ha|Ha]; [done|]. split_and!; try done.
      + apply lists_only_ok; [done|done|]. intros lst' x y Hx. tables; [|by eapply K4].
        unfold follows_remote in Ha. rewrite Hg in Ha.
        destruct (remote_followings d !! _) as [f|] eqn:Hfg; [|done]. boolp. eauto 10.
      + right. rewrite lookup_insert_eq. by eexists.
      + intros k j Hk. rewrite lookup_insert. case_decide; by eauto. }
  destruct (IH w1 d1) as (Hd' & Hin' & Hkl' & Hkr'); try done; try congruence.
  split_and!; [done|..].
  - intros b [->|Hb]%elem_of_cons; [|by apply Hin'].
    destruct Hin as [[j Hj]|[j Hj]]; [left; by eapply Hkl'|right; by eapply Hkr'].
  - intros k j Hk. destruct (Hkl _ _ Hk) as [x Hx]. by eapply Hkl'.
  - intros k j Hk. destruct (Hkr _ _ Hk) as [x Hx]. by eapply Hkr'.
Qed.

Lemma add_local_list_accounts_inv owner lst accounts w d b w' d' :
  add_local_list_accounts owner lst accounts w d = (Ok b, w', d') ->
  (b <> Added /\ d' = d) \/
  exists row ids, b = Added /\ lists d !! lst = Some row /\ list_owner row = account_uuid owner /\
    (forall x, x ∈ ids <-> x ∈ account_uuid <$> accounts) /\
    Forall (fun a => follows_local (account_uuid owner) a d = true \/
                     follows_remote (account_uuid owner) a d = true) ids /\
    for_each ids (add_list_member (account_uuid owner) lst d) w d = (Ok tt, w', d').
Proof using Type.
  intros Hrun. unfold add_local_list_accounts in Hrun.
  inv_bind Hrun found w1 d1 H1. apply find_owned_inv in H1 as (-> & -> & Hfound).
  destruct found as [l|]; [|injection Hrun as <- _ <-; by left].
  destruct (Hfound l eq_refl) as [Hl Ho].
  inv_bind Hrun d0 w0 d0' H0. injection H0 as <- <- <-.
  destruct (existsb _ _) eqn:Hx; [injection Hrun as <- _ <-; by left|].
  destruct (existsb (fun a => _ || _)%bool _) eqn:Hy; [injection Hrun as <- _ <-; by left|].
  inv_bind Hrun u w2 d2 H2. destruct u. injection Hrun as <- <- <-. right.
  eexists l, _. split_and!; [done|done|done| | |exact H2].
  - intros x. by rewrite elem_of_elements, elem_of_list_to_set.
  - apply Forall_forall. intros a Ha.
    destruct (follows_local (account_uuid owner) a d) eqn:E1; [by left|].
    destruct (follows_remote (account_uuid owner) a d) eqn:E2; [by right|].
    exfalso. apply not_true_iff_false in Hx. apply Hx, existsb_exists. exists a.
    split; [by apply list_elem_of_In|]. by rewrite E1, E2.
Qed.

Lemma add_local_list_accounts_ok owner lst accounts w d b w' d' :
  relations_ok d -> add_local_list_accounts owner lst accounts w d = (Ok b, w', d') ->
  relations_ok d'.
Proof using Type.
  intros Hd [[_ ->]|(row & ids & _ & Hl & Ho & _ & Hall & Hrun)]%add_local_list_accounts_inv; [done|].
  eapply add_members_ok in Hrun as (Hd' & _); done.
Qed.

(** ** Follows that the remote side ends *)

Lemma fewer_followings_ok d p `{!forall kf, Decision (p kf)} :
  relations_ok d ->
  (forall k f, remote_followings d !! k = Some f -> ~ p (k, f) -> ended k.1 k.2) ->
  relations_ok (set_remote_followings d (filter p (remote_followings d))).
Proof using Type.
  intros [K1 K2 K3 K4 K5] Hend. split; simpl; try done.
  - intros l r b Hb. destruct (K2 _ _ _ Hb) as [H1 H2]. split; [done|]. apply map_lookup_filter_None. by left.
  - intros lst r i Hi. destruct (K4 _ _ _ Hi) as (row & Hrow & [He|(f & Hf & Hde)]); [by eauto|].
    exists row. split; [done|]. destruct (decide (p ((list_owner row, r), f))) as [Hp|Hp].
    + right. exists f. split; [|done]. by apply map_lookup_filter_Some.
    + left. by apply (Hend _ _ Hf).
  - intros k f Hf. tables. by apply K5.
Qed.

Lemma reject_remote_following_ok r aid w d b w' d' :
  relations_ok d -> reject_remote_following r aid w d = (Ok b, w', d') ->
  (forall k f, remote_followings d !! k = Some f -> following_of_activity r aid f = true -> ended k.1 k.2) ->
  relations_ok d'.
Proof using Type.
  intros Hd Hrun Hend. unfold reject_remote_following in Hrun.
  inv_bind Hrun d0 w0 d0' H0. injection H0 as <- <- <-.
  inv_bind Hrun u w1 d1 H1. injection H1 as _ _ <-. injection Hrun as _ _ <-.
  unfold delete_where. apply fewer_followings_ok; [done|]. intros k f Hf Hp.
  apply (Hend k f Hf). apply not_false_iff_true. intros Hno. by apply Hp.
Qed.

Lemma delete_remote_actor_follows_ok a w d w' d' :
  relations_ok d -> delete_remote_actor_follows a w d = (Ok tt, w', d') ->
  (forall l f, remote_followings d !! (l, account_uuid a) = Some f -> ended l (account_uuid a)) ->
  relations_ok d'.
Proof using Type.
  intros Hd Hrun Hend. unfold delete_remote_actor_follows in Hrun.
  inv_bind Hrun u w1 d1 H1. injection H1 as _ _ <-. injection Hrun as _ <-.
  apply (fewer_followings_ok (set_remote_follows d _)).
  - apply inbound_ok; [done|]. intros x l f Hf. tables. left. by eexists.
  - intros [l x] f Hf Hp. simpl in *. apply dec_stable in Hp as ->. by eapply Hend.
Qed.

(** ** Suspended accounts *)

Lemma without_actor_ok a d : relations_ok d -> relations_ok (without_actor a d).
Proof using Type.
  intros [K1 K2 K3 K4 K5]. split; simpl; try done.
  - intros l r b Hb. assert (Hb' : local_remote_blocks d !! (l, r) = Some b \/ remote_local_blocks d !! (r, l) = Some b)
      by (destruct Hb; tables; auto).
    destruct (K2 _ _ _ Hb') as [H1 H2]. split; apply map_lookup_filter_None; by left.
  - intros lst r i Hi. tables. destruct (K4 _ _ _ H) as (row & Hrow & [He|(f & Hf & Hde)]); [by eauto|].
    exists row. split; [done|]. right. exists f. split; [|done]. by apply map_lookup_filter_Some.
  - intros k f Hf. tables. by apply K5.
Qed.

Lemma sever_local_account_ok a w d w' d' :
  relations_ok d -> sever_local_account_relationships a w d = (Ok tt, w', d') -> relations_ok d'.
Proof using Type.
  intros [K1 K2 K3 K4 K5] [= _ <-]. split; simpl.
  - intros x y i f Hb Hf. tables. apply (K1 x y i f); [done|]. destruct Hf; tables; auto.
  - intros l r b Hb. assert (Hb' : local_remote_blocks d !! (l, r) = Some b \/ remote_local_blocks d !! (r, l) = Some b)
      by (destruct Hb; tables; auto).
    destruct (K2 _ _ _ Hb') as [H1 H2]. split; apply map_lookup_filter_None; by left.
  - intros lst x i Hi. tables. destruct H0 as [Hx Hown]. destruct (K3 _ _ _ H) as (row & f & Hrow & Hf).
    assert (list_owner row <> account_uuid a)
      by (intros Ho; apply (owned_by_row _ d lst row Hrow) in Ho; by rewrite Ho in Hown).
    exists row, f. split; by apply map_lookup_filter_Some.
  - intros lst x i Hi. tables. destruct (K4 _ _ _ H) as (row & Hrow & Hf).
    assert (list_owner row <> account_uuid a)
      by (intros Ho; apply (owned_by_row _ d lst row Hrow) in Ho; by rewrite Ho in H0).
    exists row. split; [by apply map_lookup_filter_Some|]. destruct Hf as [He|(f & Hf & Hde)]; [by left|].
    right. exists f. split; [|done]. by apply map_lookup_filter_Some.
  - intros k f Hf. tables. by apply K5.
Qed.

(** * Histories *)

(** The committed operations on the relationship tables, one after the other, each with
    its own check for blocks.  A move is preceded in its transaction by the caller's check
    that the pair is not blocked.  Where the remote side ends a follow, its pair is
    [ended]. *)
Inductive step (d : Db) : Db -> Prop :=
| step_follow a b sr nt w r w' d' :
    follow_local_account a b sr nt w d = (Ok r, w', d') -> step d d'
| step_unfollow a b w w' d' : unfollow_local_account a b w d = (Ok tt, w', d') -> step d d'
| step_block a b w w' d' : block_local_account a b w d = (Ok tt, w', d') -> step d d'
| step_unblock a b w : step d (store_of (unblock_local_account a b) w d)
| step_block_remote l r act job w b w' d' :
    block_remote_account l r act job w d = (Ok b, w', d') -> step d d'
| step_unblock_remote l r job w b w' d' :
    unblock_remote_account l r job w d = (Ok b, w', d') -> step d d'
| step_inbound_block r l act w b w' d' :
    process_remote_block r l act w d = (Ok b, w', d') -> step d d'
| step_inbound_undo_block r l act w b w' d' :
    process_remote_undo_block r l act w d = (Ok b, w', d') -> step d d'
| step_inbound_follow r l aid act job w b w' d' :
    upsert_processed_remote_follow_with_response_job r l aid act job w d = (Ok b, w', d') -> step d d'
| step_inbound_pending r l aid act w b w' d' :
    upsert_processed_pending_remote_follow r l aid act w d = (Ok b, w', d') -> step d d'
| step_accept l r aid job w b w' d' :
    accept_remote_follow_with_response_job l r aid job w d = (Ok b, w', d') -> step d d'
| step_reject l r aid job w b w' d' :
    delete_remote_follow_with_response_job l r aid job w d = (Ok b, w', d') -> step d d'
| step_inbound_undo_follow r aid w : step d (store_of (process_remote_undo_follow r aid) w d)
| step_follow_remote l r aid sr nt job w row w' d' :
    create_remote_following_with_job l r aid sr nt job w d = (Ok row, w', d') -> step d d'
| step_accepted r aid w b w' d' :
    accept_remote_following r aid w d = (Ok b, w', d') -> step d d'
| step_rejected r aid w b w' d' :
    reject_remote_following r aid w d = (Ok b, w', d') ->
    (forall k f, remote_followings d !! k = Some f -> following_of_activity r aid f = true -> ended k.1 k.2) ->
    step d d'
| step_actor_deleted a w w' d' :
    delete_remote_actor_follows a w d = (Ok tt, w', d') ->
    (forall l f, remote_followings d !! (l, account_uuid a) = Some f -> ended l (account_uuid a)) -> step d d'
| step_actor_purged a : step d (without_actor a d)
| step_account_suspended a w w' d' :
    sever_local_account_relationships a w d = (Ok tt, w', d') -> step d d'
| step_unfollow_remote l r job w o w' d' :
    delete_remote_following_with_job l r job w d = (Ok o, w', d') -> step d d'
| step_move fw target allow tf undo w b w' d' :
    (allow = true -> remote_pair_blocked (fg_local fw) (account_uuid target) d = false) ->
    migrate_remote_following_for_actor_move fw target allow tf undo w d = (Ok b, w', d') -> step d d'
| step_suspend domains w n w' d' :
    reconcile_suspended_remote_domains uuid_text domains w d = (Ok n, w', d') -> step d d'
| step_create_list a title p e w row w' d' :
    create_local_list a title p e w d = (Ok row, w', d') -> step d d'
| step_update_list a lst title p e w o w' d' :
    update_local_list a lst title p e w d = (Ok o, w', d') -> step d d'
| step_delete_list a lst w b w' d' : delete_local_list a lst w d = (Ok b, w', d') -> step d d'
| step_add a lst accounts w b w' d' :
    add_local_list_accounts a lst accounts w d = (Ok b, w', d') -> step d d'
| step_remove a lst accounts w b w' d' :
    remove_local_list_accounts a lst accounts w d = (Ok b, w', d') -> step d d'
| step_outside d' : core d' = core d -> step d d'.

Inductive reachable (d0 : Db) : Db -> Prop :=
| reachable_start : reachable d0 d0
| reachable_step d1 d2 : reachable d0 d1 -> step d1 d2 -> reachable d0 d2.

Lemma relations_step_ok d d' : relations_ok d -> step d d' -> relations_ok d'.
Proof using Type.
  intros Hd Hs. destruct Hs; [
      by eapply follow_local_account_ok | by eapply unfollow_local_account_ok
    | by eapply block_local_account_ok | by apply unblock_local_account_ok
    | by eapply block_remote_account_ok | by eapply unblock_remote_account_ok
    | by eapply process_remote_block_ok | by eapply process_remote_undo_block_ok
    | by eapply process_follow_ok | by eapply process_pending_follow_ok
    | by eapply accept_remote_follow_ok | by eapply delete_remote_follow_ok
    | by apply process_remote_undo_follow_ok | by eapply create_following_ok
    | by eapply accept_remote_following_ok | by eapply reject_remote_following_ok
    | by eapply delete_remote_actor_follows_ok | by apply without_actor_ok | by eapply sever_local_account_ok
    | by eapply delete_remote_following_with_job_ok
    | by eapply migrate_ok | by eapply reconcile_ok | by eapply create_local_list_ok
    | by eapply update_local_list_ok | by eapply delete_local_list_ok
    | by eapply add_local_list_accounts_ok | by eapply remove_local_list_accounts_ok
    | by eapply relations_ok_core ].
Qed.

(** C21. Blocks sever and lists follow, in every history of committed operations: no
    follow in either direction exists between two local accounts one of which blocks the
    other, nor between a local account and a remote actor when either side blocks; and
    every member of a private list is an account its owner follows, through a
    relationship that is still active, except the remote actors that ended a follow of
    the owner themselves ([ended]: by a Reject or by the Delete of the actor), which stay
    in the lists.  Each operation is one step: a block that commits between the check of
    [follow_local_account] or of a move and its write, which take no lock in common, is
    not in these histories (it breaks them: [follow_races_with_block],
    [move_races_with_block]). *)
Theorem reachable_relations_ok d0 d : relations_ok d0 -> reachable d0 d -> relations_ok d.
Proof using Type. intros H0. induction 1; [done|]. by eapply relations_step_ok. Qed.
End Steps.

(** Nobody ended a follow. *)
#[local] Notation relations_ok := (relations_ok_but (ended := fun _ _ => False)).

(** * Blocks and mutes *)

Lemma blocked_store_block a t id d : is_Some (local_blocks (blocked_store a t id d) !! (a, t)).
Proof using Type.
  unfold blocked_store. simpl. destruct (local_blocks d !! (a, t)) eqn:Hb; simpl.
  - rewrite Hb. by eexists.
  - rewrite lookup_insert_eq. by eexists.
Qed.

Lemma are_blocked_either (a t : AccountId) d :
  a <> t ->
  is_Some (local_blocks d !! (account_uuid a, account_uuid t)) ->
  forall w, local_accounts_are_blocked a t w d = (Ok true, w, d) /\
            local_accounts_are_blocked t a w d = (Ok true, w, d).
Proof using Type.
  intros Hne Hb w. unfold local_accounts_are_blocked, local_pair_blocked.
  rewrite !decide_False by congruence. unfold gets.
  rewrite !(bool_decide_eq_true_2 _ Hb), orb_true_r. done.
Qed.

(** A local block works in both directions at once: after it, neither
    account can follow the other, each is hidden from the other's timelines, and
    neither can create a notification for the other, at any later time. *)
Theorem block_is_mutual a t w d w' d' :
  account_uuid a ∈ dom (local_accounts d) ->
  block_local_account a t w d = (Ok tt, w', d') ->
  forall x y, (x, y) = (a, t) \/ (x, y) = (t, a) -> forall w2,
    (forall sr nt, value_of (follow_local_account x y sr nt) w2 d'
       = Err (AccountRelationship FollowBlocked)) /\
    value_of (local_account_is_hidden_for_viewer x y) w2 d' = Ok true /\
    value_of (local_account_allows_notification x y) w2 d' = Ok false.
Proof using Type.
  intros Ha Hrun x y Hxy w2.
  assert (Hne : a <> t).
  { intros ->. revert Hrun. unfold block_local_account, ensure_local_relation_target.
    run_unfold. by rewrite decide_True. }
  apply block_local_account_inv in Hrun as (Ht & id & ->).
  assert (Hacc : account_uuid x ∈ dom (local_accounts d) /\ account_uuid y ∈ dom (local_accounts d) /\ x <> y)
    by (destruct Hxy as [[= -> ->]|[= -> ->]]; done).
  destruct Hacc as (_ & Hy & Hxne).
  destruct (are_blocked_either a t (blocked_store (account_uuid a) (account_uuid t) id d) Hne
    (blocked_store_block _ _ _ _) w2) as [H1 H2].
  assert (Hbl : local_accounts_are_blocked x y w2
    (blocked_store (account_uuid a) (account_uuid t) id d) = (Ok true, w2, _))
    by (destruct Hxy as [[= -> ->]|[= -> ->]]; done).
  assert (Hloc : local_accounts (blocked_store (account_uuid a) (account_uuid t) id d)
    = local_accounts d) by (unfold blocked_store; simpl; by destruct (local_blocks d !! _)).
  split_and!.
  - intros sr nt. unfold follow_local_account, follow_checks. run_unfold.
    rewrite decide_False by done. rewrite Hloc, bool_decide_eq_true_2 by done. simpl.
    by rewrite Hbl.
  - unfold local_account_is_hidden_for_viewer. run_unfold. by rewrite Hbl.
  - unfold local_account_allows_notification. run_unfold. by rewrite Hbl.
Qed.
Lemma mute_local_account_inv a t nt secs w d row w' d' :
  mute_local_account a t nt secs w d = (Ok row, w', d') ->
  mute_expiry (w_clock w (w_ticks w)) secs = Ok (mute_expires_at row) /\
  mute_notifications row = nt /\
  d' = set_local_mutes d (<[(account_uuid a, account_uuid t) := row]> (local_mutes d)).
Proof using Type.
  unfold mute_local_account, ensure_local_relation_target. run_unfold.
  destruct (decide (a = t)); [done|]. destruct (negb _); [done|]. simpl.
  destruct (mute_expiry _ secs) as [e|e] eqn:He; [|done]. unfold muted_row. run_unfold.
  destruct (local_mutes d !! _); simpl; by intros [= <- _ <-].
Qed.

(** A mute of [n] seconds taken at time [t] is found exactly at the times
    before [t + n seconds], one of zero seconds for ever; while it is found the
    target is hidden from the muting account, and may notify it exactly when the
    mute does not cover notifications.  Other pairs are not affected. *)
Theorem mute_window a t nt secs w d row w' d' :
  0 <= secs -> a <> t ->
  mute_local_account a t nt secs w d = (Ok row, w', d') ->
  let start := w_clock w (w_ticks w) in
  forall w2, let now := w_clock w2 (w_ticks w2) in
  let active := (secs =? 0) || (now <? start + seconds secs) in
  value_of (active_local_account_mute a t) w2 d' = Ok (if active then Some row else None) /\
  (value_of (local_accounts_are_blocked a t) w2 d' = Ok false ->
   value_of (local_account_is_hidden_for_viewer a t) w2 d' = Ok active /\
   value_of (local_account_allows_notification a t) w2 d' = Ok (negb (active && nt))) /\
  (forall x y, (x, y) <> (a, t) ->
   value_of (active_local_account_mute x y) w2 d' = value_of (active_local_account_mute x y) w2 d).
Proof using Type.
  intros Hs Hne Hrun start w2 now active.
  apply mute_local_account_inv in Hrun as (He & Hnt & ->).
  assert (Hact : mute_active now row = active).
  { unfold mute_active, active. unfold mute_expiry in He. fold start in He.
    destruct (secs =? 0); [by injection He as <-|].
    destruct (i64_max <? secs); [done|].
    destruct (offset_date_time_max <? _); [done|]. by injection He as <-. }
  set (d' := set_local_mutes d _).
  assert (Hfind : exists w3, active_local_account_mute a t w2 d'
    = (Ok (if active then Some row else None), w3, d')).
  { eexists. unfold active_local_account_mute, find_active, now_utc, gets. run_unfold. simpl.
    rewrite lookup_insert_eq. fold now. by rewrite Hact. }
  destruct Hfind as [w3 Hfind]. split_and!; [unfold value_of; by rewrite Hfind| |].
  - intros Hb. assert (Hrun : local_accounts_are_blocked a t w2 d' = (Ok false, w2, d')).
    { revert Hb. unfold local_accounts_are_blocked, local_pair_blocked. rewrite decide_False by done.
      unfold value_of, gets. simpl. by intros [= ->]. }
    unfold value_of, local_account_is_hidden_for_viewer, local_account_allows_notification.
    unfold mbind, M_bind. rewrite Hrun, Hfind. simpl. destruct active; simpl; [|done].
    by rewrite Hnt.
  - intros x y Hxy. unfold active_local_account_mute, find_active. run_unfold. simpl.
    rewrite lookup_insert_ne; [done|]. intros [= H1 H2]. apply Hxy. destruct a, t, x, y.
    simpl in *. congruence.
Qed.

(** A mute whose end lies past the year 9999 does not fail with an error: the
    addition of the duration panics.  The duration is client input that is only
    checked against the signed 64-bit range. *)
Theorem mute_past_calendar_panics a t nt secs w d :
  a <> t -> account_uuid t ∈ dom (local_accounts d) ->
  0 < secs <= i64_max -> offset_date_time_max < w_clock w (w_ticks w) + seconds secs ->
  value_of (mute_local_account a t nt secs) w d = Err MutePanic /\
  store_of (mute_local_account a t nt secs) w d = d.
Proof using Type.
  intros Hne Ht Hs Hmax. unfold mute_local_account, ensure_local_relation_target. run_unfold.
  rewrite decide_False by done. rewrite bool_decide_eq_true_2 by done. simpl.
  unfold mute_expiry. rewrite (proj2 (Z.eqb_neq _ _)) by lia.
  rewrite (proj2 (Z.ltb_ge _ _)) by lia. by rewrite (proj2 (Z.ltb_lt _ _)) by lia.
Qed.

(** * What breaks the invariants *)

(** [follow_local_account] checks for blocks and then writes without a lock
    on the pair: when a block commits between the two, the follow it severed
    comes into being, and the blocked accounts end up following each other. *)
Theorem follow_races_with_block a b x y sr nt w w1 w2 w3 w4 w5 d d1 d2 row :
  (x, y) = (a, b) \/ (x, y) = (b, a) ->
  follow_checks x y w d = (Ok tt, w1, d) ->
  block_local_account a b w2 d = (Ok tt, w3, d1) ->
  follow_write x y sr nt w4 d1 = (Ok row, w5, d2) ->
  is_Some (local_blocks d2 !! (account_uuid a, account_uuid b)) /\
  local_follows d2 !! (account_uuid x, account_uuid y) = Some row /\ ~ relations_ok d2.
Proof using Type.
  intros Hxy _ Hb Hw. apply block_local_account_inv in Hb as (_ & id & ->).
  assert (d2 = set_local_follows (blocked_store (account_uuid a) (account_uuid b) id d)
    (<[(account_uuid x, account_uuid y) := row]>
       (local_follows (blocked_store (account_uuid a) (account_uuid b) id d)))) as ->.
  { revert Hw. unfold follow_write. run_unfold. simpl.
    destruct (delete _ _ !! _); by intros [= <- _ <-]. }
  pose proof (blocked_store_block (account_uuid a) (account_uuid b) id d) as Hbl.
  assert (Hf : <[(account_uuid x, account_uuid y) := row]>
    (local_follows (blocked_store (account_uuid a) (account_uuid b) id d))
      !! (account_uuid x, account_uuid y) = Some row) by apply lookup_insert_eq.
  split_and!; [exact Hbl|exact Hf|]. intros [K1 _ _ _ _]. destruct Hbl as [i Hi].
  eapply (K1 _ _ _ row Hi). destruct Hxy as [[= -> ->]|[= -> ->]]; [left|right]; exact Hf.
Qed.
(** The part of a move up to its new follow, when the source is active. *)
Lemma migrate_starts fw target allow tf undo w d src :
  migrate_source fw d = Some src ->
  remote_actors d !! fg_remote fw ≫= actor_moved_to = Some (account_uuid target) ->
  migrate_remote_following_for_actor_move fw target allow tf undo w d =
  ((existing ← (if allow then find_remote_following (mkAccountId (fg_local fw)) target else mret None);
    (if allow && bool_decide (existing = None) then
       '(activity_id, job) ← lift_option
         (InvalidInput "remote actor migration Follow is missing") tf;
       insert_following (mkAccountId (fg_local fw)) target activity_id (fg_show_reblogs fw)
         (fg_notify fw);;
       enqueue job
     else mret tt);;
    (if allow then
       d ← gets (fun d => d);
       for_each (memberships_of (fg_local fw) (fg_remote fw) d) (copy_membership target)
     else mret tt);;
    remove_remote_account_from_owned_lists (mkAccountId (fg_local fw)) (mkAccountId (fg_remote fw));;
    now ← now_utc;
    write_following (deactivate_following now src);;
    enqueue undo;;
    mret true) : Op Db bool) w d.
Proof using Type.
  intros Hs Hm. unfold migrate_remote_following_for_actor_move.
  unfold mbind at 1, M_bind at 1, gets at 1. rewrite Hs, bool_decide_eq_true_2 by done. done.
Qed.

(** A follower cannot be moved back to an actor it was moved away from: the
    old relationship is kept as a deactivated row, which the move does not look
    at, so inserting the new follow violates the unique pair, and the migration
    job fails at this follower on every attempt. *)
Theorem move_to_deactivated_target_fails fw target aid job undo w d src old :
  migrate_source fw d = Some src ->
  remote_actors d !! fg_remote fw ≫= actor_moved_to = Some (account_uuid target) ->
  remote_followings d !! (fg_local fw, account_uuid target) = Some old ->
  is_Some (fg_deactivated_at old) ->
  value_of (migrate_remote_following_for_actor_move fw target true (Some (aid, job)) undo) w d
  = Err (Database (UniqueViolation "remote_following_local_account_id_remote_actor_id_key")).
Proof using Type.
  intros Hs Hm Hold [t Hde]. unfold value_of. rewrite (migrate_starts _ _ _ _ _ _ _ src Hs Hm).
  unfold mbind at 1, M_bind at 1, find_remote_following, gets. simpl.
  rewrite Hold, (bool_decide_eq_false_2 (fg_deactivated_at old = None)) by congruence. simpl.
  unfold insert_following, mbind, M_bind, lift_option, mret, M_ret, uuid_now_v7, now_utc, gets. simpl.
  by rewrite Hold.
Qed.

(** The caller of a move checks for blocks before the move locks the pair and
    the move does not check again: when the new actor's block commits in
    between, the follow it severed is created, and the pair is both blocked and
    following. *)
Theorem move_races_with_block fw target act aid job undo w w1 w2 w3 d d1 d2 b :
  relations_ok d ->
  process_remote_block target (mkAccountId (fg_local fw)) act w d = (Ok b, w1, d1) ->
  is_Some (remote_local_blocks d1 !! (account_uuid target, fg_local fw)) ->
  account_uuid target <> fg_remote fw ->
  migrate_remote_following_for_actor_move fw target true (Some (aid, job)) undo w2 d1
    = (Ok true, w3, d2) ->
  remote_pair_blocked (fg_local fw) (account_uuid target) d2 = true /\
  (exists f, remote_followings d2 !! (fg_local fw, account_uuid target) = Some f /\
     fg_deactivated_at f = None) /\ ~ relations_ok d2.
Proof using Type.
  intros Hd Hb Hblk Hne Hrun.
  pose proof (process_remote_block_ok _ _ _ _ _ _ _ _ Hd Hb) as Hd1.
  assert (Hnone : remote_followings d1 !! (fg_local fw, account_uuid target) = None)
    by (destruct Hblk as [x Hx]; by destruct (ok_remote _ Hd1 _ _ x (or_intror Hx))).
  destruct (migrate_source fw d1) as [src|] eqn:Hsrc.
  2: { revert Hrun. unfold migrate_remote_following_for_actor_move.
       unfold mbind at 1, M_bind at 1, gets at 1. by rewrite Hsrc. }
  destruct (decide (remote_actors d1 !! fg_remote fw ≫= actor_moved_to = Some (account_uuid target)))
    as [Hm|Hm].
  2: { revert Hrun. unfold migrate_remote_following_for_actor_move.
       unfold mbind at 1, M_bind at 1, gets at 1. rewrite Hsrc, bool_decide_eq_false_2 by done. done. }
  rewrite (migrate_starts _ _ _ _ _ _ _ src Hsrc Hm) in Hrun.
  apply migrate_source_Some in Hsrc. pose proof (ok_keys _ Hd1 _ _ Hsrc) as Hkey.
  inv_bind Hrun exi w4 d4 H4. injection H4 as Hexi <- <-. rewrite Hnone in Hexi. subst exi.
  simpl in Hrun. inv_bind Hrun u5 w5 d5 H5.
  inv_bind H5 tj w4 d4 H4. injection H4 as <- <- <-.
  inv_bind H5 row w6 d6 H6.
  apply insert_following_inv in H6 as (_ & El & Er & Ed & ->). simpl in El, Er.
  apply (keeps_run core) in H5; [|apply keeps_core_enqueue].
  inv_bind Hrun u7 w7 d7 H7. inv_bind H7 d0 w8 d8 H8. injection H8 as <- <- <-.
  apply (keeps_run (fun d => (remote_followings d, remote_local_blocks d))) in H7;
    [|apply keeps_for_each; intros; unfold copy_membership; solve_keeps].
  inv_bind Hrun u9 w9 d9 H9. injection H9 as _ _ <-.
  inv_bind Hrun now w10 d10 H10. injection H10 as _ _ <-.
  inv_bind Hrun u11 w11 d11 H11. apply write_following_inv in H11 as ->.
  inv_bind Hrun u12 w12 d12 H12. apply (keeps_run core) in H12; [|apply keeps_core_enqueue].
  injection Hrun as _ <-.
  unfold core in H5, H12. simpl in H5, H12.
  injection H5 as _ _ _ Hrl5 _ Hfg5 _ _ _. injection H12 as _ _ _ Hrl12 _ Hfg12 _ _ _.
  injection H7 as Hfg7 Hrl7. simpl in *.
  assert (Hblk2 : is_Some (remote_local_blocks d12 !! (account_uuid target, fg_local fw)))
    by (by rewrite Hrl12, Hrl7, Hrl5).
  assert (Hf2 : remote_followings d12 !! (fg_local fw, account_uuid target) = Some row).
  { rewrite Hfg12, Hfg7, Hfg5, Hkey, El, Er. rewrite lookup_insert_ne by congruence.
    by rewrite lookup_insert_eq. }
  split_and!.
  - unfold remote_pair_blocked. by rewrite (bool_decide_eq_true_2 _ Hblk2), orb_true_r.
  - by exists row.
  - intros Hok. destruct Hblk2 as [x Hx].
    destruct (ok_remote _ Hok _ _ x (or_intror Hx)) as [_ Hn]. congruence.
Qed.

(** A remote Reject of a follow that was already accepted deletes the
    relationship but, unlike every other way of losing it, leaves the actor in
    the follower's lists. *)
Theorem reject_keeps_list_members r aid w d b w' d' lst row i f :
  relations_ok d ->
  lists d !! lst = Some row -> list_remote_members d !! (lst, account_uuid r) = Some i ->
  remote_followings d !! (list_owner row, account_uuid r) = Some f -> fg_activity_id f = aid ->
  reject_remote_following r aid w d = (Ok b, w', d') ->
  list_remote_members d' !! (lst, account_uuid r) = Some i /\
  remote_followings d' !! (list_owner row, account_uuid r) = None /\ ~ relations_ok d'.
Proof using Type.
  intros Hd Hrow Hi Hf Ha Hrun. unfold reject_remote_following in Hrun.
  inv_bind Hrun d0 w0 d0' H0. injection H0 as <- <- <-.
  inv_bind Hrun u w1 d1 H1. injection H1 as _ _ <-. injection Hrun as _ _ <-.
  pose proof (ok_keys _ Hd _ _ Hf) as Hk. injection Hk as _ Hr. simpl.
  assert (Hgone : delete_where (following_of_activity r aid) (remote_followings d)
    !! (list_owner row, account_uuid r) = None).
  { rewrite lookup_delete_where, Hf. unfold following_of_activity.
    by rewrite Hr, N.eqb_refl, Ha, bool_decide_eq_true_2. }
  split_and!; [done|done|]. intros [_ _ _ K4 _]. simpl in K4.
  destruct (K4 _ _ _ Hi) as (row' & Hrow' & [[]|(g & Hg & _)]). simplify_eq.
Qed.

(** * Suspended domains *)

(** What [domain_covers] decides. *)
Lemma domain_covers_spec b t :
  domain_covers b t = true <-> t = b \/ exists p, t = p ++ lit "." ++ b.
Proof using Type.
  unfold domain_covers. rewrite orb_true_iff, bool_decide_eq_true. apply or_iff_compat_l.
  destruct (strip_prefix (reverse b) (reverse t)) as [rest|] eqn:Hs.
  - apply strip_prefix_Some in Hs. unfold starts_with.
    destruct (strip_prefix (lit ".") rest) as [rest'|] eqn:Hd.
    + apply strip_prefix_Some in Hd. split; [intros _|done]. exists (reverse rest').
      apply (f_equal reverse) in Hs. rewrite reverse_involutive in Hs. subst t rest.
      rewrite !reverse_app, reverse_involutive. simpl. rewrite reverse_singleton. by rewrite <- app_assoc.
    + split; [done|]. intros [p ->]. rewrite !reverse_app in Hs. simpl in Hs.
      rewrite <- app_assoc in Hs. apply app_inv_head in Hs. subst rest. done.
  - split; [done|]. intros [p ->]. rewrite !reverse_app, <- app_assoc in Hs.
    pose proof (strip_prefix_app (reverse b) (reverse (lit ".") ++ reverse p)) as Hx. congruence.
Qed.

Lemma elem_of_suspended a domains d :
  a ∈ suspended_actors domains d <->
  exists row b, remote_actors d !! a = Some row /\ b ∈ domains /\
    domain_covers b (actor_domain row) = true.
Proof using Type.
  unfold suspended_actors. rewrite list_elem_of_fmap. split.
  - intros ([k row] & -> & Hin). apply list_elem_of_In, filter_In in Hin as [Hin Hx].
    apply list_elem_of_In, elem_of_map_to_list in Hin.
    apply existsb_exists in Hx as (b & Hb & Hc). exists row, b.
    split_and!; [done|by apply list_elem_of_In|done].
  - intros (row & b & Hrow & Hb & Hc). exists (a, row). split; [done|].
    apply list_elem_of_In, filter_In. split.
    + by apply list_elem_of_In, elem_of_map_to_list.
    + apply existsb_exists. exists b. by split; [apply list_elem_of_In|].
Qed.
(** Suspending domains severs exactly the actors of those domains and of their
    subdomains: afterwards no follow in either direction and no list membership
    of such an actor is left, and the relationships of every other actor are
    unchanged. *)
Theorem reconcile_severs_suspended domains w d n w' d' :
  domains <> [] ->
  reconcile_suspended_remote_domains uuid_text domains w d = (Ok n, w', d') ->
  let covered a := exists row b, remote_actors d !! a = Some row /\ b ∈ domains /\
    (actor_domain row = b \/ exists p, actor_domain row = p ++ lit "." ++ b) in
  (forall a l, covered a ->
     remote_follows d' !! (a, l) = None /\ remote_followings d' !! (l, a) = None /\
     list_remote_members d' !! (l, a) = None) /\
  (forall a l, ~ covered a ->
     remote_follows d' !! (a, l) = remote_follows d !! (a, l) /\
     remote_followings d' !! (l, a) = remote_followings d !! (l, a) /\
     list_remote_members d' !! (l, a) = list_remote_members d !! (l, a)).
Proof using Type.
  intros Hne Hrun covered.
  assert (Hcov : forall a, covered a <-> a ∈ suspended_actors domains d).
  { intros a. rewrite elem_of_suspended. unfold covered. by setoid_rewrite domain_covers_spec. }
  apply reconcile_inv in Hrun as (_ & [[Hc [?|Hnil]]|Hc]); [done| |];
    unfold core in Hc; injection Hc as _ _ _ _ E5 E6 _ _ E9; rewrite E5, E6, E9.
  - split; [|done]. intros a l Ha. apply Hcov in Ha. rewrite Hnil in Ha.
    by apply elem_of_nil in Ha.
  - split; intros a l Ha; rewrite Hcov in Ha.
    + split_and!; apply map_lookup_filter_None; right; intros x _ Hx; by apply Hx.
    + split_and!; apply option_eq; intros x; rewrite map_lookup_filter_Some; naive_solver.
Qed.

(** Adding accounts to a list is all or nothing: every answer but [Added]
    leaves the store alone, and [Added] means that the list belongs to the
    owner, that every requested account was followed, and that each of them is
    now a member, with no member lost. *)
Theorem add_local_list_accounts_atomic owner lst accounts w d b w' d' :
  relations_ok d -> add_local_list_accounts owner lst accounts w d = (Ok b, w', d') ->
  (b <> Added /\ d' = d) \/
  (b = Added /\ owned_by (account_uuid owner) d lst = true /\
   (forall a, a ∈ accounts ->
      follows_local (account_uuid owner) (account_uuid a) d = true \/
      follows_remote (account_uuid owner) (account_uuid a) d = true) /\
   (forall a, a ∈ accounts ->
      is_Some (list_local_members d' !! (lst, account_uuid a)) \/
      is_Some (list_remote_members d' !! (lst, account_uuid a))) /\
   (forall k, is_Some (list_local_members d !! k) -> is_Some (list_local_members d' !! k)) /\
   (forall k, is_Some (list_remote_members d !! k) -> is_Some (list_remote_members d' !! k))).
Proof using Type.
  intros Hd [Hno|(row & ids & -> & Hl & Ho & Hids & Hall & Hrun)]%add_local_list_accounts_inv;
    [by left|right].
  pose proof (add_members_ok _ _ _ _ _ _ _ _ _ Hd Hl Ho eq_refl eq_refl Hall Hrun)
    as (_ & Hin & Hkl & Hkr).
  rewrite Forall_forall in Hall.
  assert (Hmem : forall a, a ∈ accounts -> account_uuid a ∈ ids)
    by (intros a Ha; apply Hids, list_elem_of_fmap; eauto).
  split_and!; [done|by apply owned_by_spec; eauto|by auto|by auto| |].
  - intros k [i Hi]. by eapply Hkl.
  - intros k [i Hi]. by eapply Hkr.
Qed.
End Histories.

#[local] Notation relations_ok := (relations_ok_but (ended := fun _ _ => False)).

(** * A concrete community

    Two local accounts, 1 and 2, and two remote actors, of which 50 has moved
    to 51. *)

Definition sample_accounts : gmap uuid AccountRow :=
  {[1%N := mkAccountRow true None None 0; 2%N := mkAccountRow true None None 0]}.

Definition sample_actors : gmap uuid RemoteActorRow :=
  {[50%N := mkRemoteActorRow (lit "social.example") None None (Some 51%N) None None 0;
    51%N := mkRemoteActorRow (lit "other.test") None None None None None 0]}.

Definition sample_db (followings : gmap (uuid * uuid) FollowingRow)
    (members : gmap (uuid * uuid) uuid) : Db :=
  mkDb sample_accounts ∅ ∅ ∅ sample_actors ∅ ∅ ∅ ∅ followings
    {[7%N := mkListRow 7 1 "friends" PolicyList false 0 0]} ∅ members
    (Notifications.mkDb ∅ ∅ ∅ ∅).

Definition sample_following : FollowingRow :=
  mkFollowingRow 60 1 50 "follow-50" Accepted true false None 0.

Definition sample_db1 : Db := sample_db {[(1%N, 50%N) := sample_following]} {[(7%N, 50%N) := 61%N]}.

Lemma community_ok : relations_ok (sample_db ∅ ∅).
Proof. split; intros ? *; simpl; rewrite ?lookup_empty; naive_solver. Qed.

Lemma community1_ok : relations_ok sample_db1.
Proof.
  split; simpl.
  - intros ? * H. by rewrite lookup_empty in H.
  - intros ? * H. rewrite !lookup_empty in H. naive_solver.
  - intros ? * H. by rewrite lookup_empty in H.
  - intros lst r i H. apply lookup_singleton_Some in H as [[= <- <-] <-].
    eexists. split; [vm_compute; reflexivity|]. right. exists sample_following. split; vm_compute; reflexivity.
  - intros k f H. by apply lookup_singleton_Some in H as [<- <-].
Qed.

Definition sample_follow := follow_local_account (mkAccountId 1) (mkAccountId 2) true false.
Definition sample_add := add_local_list_accounts (mkAccountId 1) 7 [mkAccountId 2; mkAccountId 2].
Definition sample_block := block_local_account (mkAccountId 2) (mkAccountId 1).
Definition sample_db2 : Db := store_of sample_follow sample_world sample_db1.
Definition sample_db3 : Db := store_of sample_add sample_world sample_db2.
Definition sample_db4 : Db := store_of sample_block sample_world sample_db3.

Lemma sample_add_runs :
  sample_add sample_world sample_db2 = (Ok Added, world_of sample_add sample_world sample_db2, sample_db3).
Proof.
  destruct (run_ok sample_add sample_world sample_db2) as (b & Hb & Hrun); [vm_compute; reflexivity|].
  assert (Ha : value_of sample_add sample_world sample_db2 = Ok Added) by (vm_compute; reflexivity).
  rewrite Ha in Hb. injection Hb as <-. exact Hrun.
Qed.

Lemma run_unit {S E} (m : M S E unit) w s :
  is_ok (value_of m w s) = true -> m w s = (Ok tt, world_of m w s, store_of m w s).
Proof. intros Hok. destruct (run_ok m w s Hok) as ([] & _ & Hrun). exact Hrun. Qed.

Lemma community2_ok : relations_ok sample_db2.
Proof.
  destruct (run_ok sample_follow sample_world sample_db1) as (r & _ & Hrun); [vm_compute; reflexivity|].
  eapply follow_local_account_ok; [exact community1_ok|exact Hrun].
Qed.

Lemma reachable_relations_ok_witness :
  relations_ok sample_db4 /\ is_Some (local_blocks sample_db4 !! (2%N, 1%N)) /\
  list_local_members sample_db3 !! (7%N, 2%N) <> None /\
  list_local_members sample_db4 !! (7%N, 2%N) = None.
Proof.
  split; [|split; [vm_compute; by eexists|split; [vm_compute; discriminate|vm_compute; reflexivity]]].
  apply (reachable_relations_ok (fun _ => ""%string) sample_db1); [exact community1_ok|].
  eapply reachable_step; [eapply reachable_step; [eapply reachable_step; [apply reachable_start|]|]|].
  - destruct (run_ok sample_follow sample_world sample_db1) as (r & _ & Hrun); [vm_compute; reflexivity|].
    eapply step_follow. exact Hrun.
  - eapply step_add. exact sample_add_runs.
  - eapply step_block. apply (run_unit sample_block sample_world sample_db3). vm_compute; reflexivity.
Defined.

Lemma block_is_mutual_witness :
  value_of (follow_local_account (mkAccountId 1) (mkAccountId 2) true false) sample_world sample_db4
  = Err (AccountRelationship FollowBlocked).
Proof.
  assert (Hin : account_uuid (mkAccountId 2) ∈ dom (local_accounts sample_db3))
    by (apply (bool_decide_eq_true_1 _); vm_compute; reflexivity).
  assert (Hrun : block_local_account (mkAccountId 2) (mkAccountId 1) sample_world sample_db3
    = (Ok tt, world_of sample_block sample_world sample_db3, sample_db4))
    by (apply (run_unit sample_block); vm_compute; reflexivity).
  exact (proj1 (block_is_mutual (mkAccountId 2) (mkAccountId 1) sample_world sample_db3 _ _ Hin Hrun
    (mkAccountId 1) (mkAccountId 2) (or_intror eq_refl) sample_world) true false).
Defined.

Definition sample_mute := mute_local_account (mkAccountId 1) (mkAccountId 2) true 3600.

Lemma mute_window_witness : exists row,
  value_of (active_local_account_mute (mkAccountId 1) (mkAccountId 2)) sample_world
    (store_of sample_mute sample_world sample_db1) = Ok (Some row) /\ mute_notifications row = true.
Proof.
  destruct (run_ok sample_mute sample_world sample_db1) as (row & Hrow & Hrun);
    [vm_compute; reflexivity|].
  exists row. split.
  - exact (proj1 (mute_window (mkAccountId 1) (mkAccountId 2) true 3600 sample_world sample_db1 row
      _ _ ltac:(lia) ltac:(discriminate) Hrun sample_world)).
  - assert (Hn : match value_of sample_mute sample_world sample_db1 with
      | Ok r => mute_notifications r | Err _ => false end = true) by (vm_compute; reflexivity).
    rewrite Hrow in Hn. exact Hn.
Defined.

Lemma mute_past_calendar_panics_witness :
  value_of (mute_local_account (mkAccountId 1) (mkAccountId 2) true 300000000000) sample_world sample_db1
  = Err MutePanic.
Proof.
  assert (Hin : account_uuid (mkAccountId 2) ∈ dom (local_accounts sample_db1))
    by (apply (bool_decide_eq_true_1 _); vm_compute; reflexivity).
  exact (proj1 (mute_past_calendar_panics (mkAccountId 1) (mkAccountId 2) true 300000000000
    sample_world sample_db1 ltac:(discriminate) Hin
    ltac:(unfold i64_max; lia) ltac:(vm_compute; reflexivity))).
Defined.

(** Account 1 passes the checks, account 2's block commits, account 1 writes. *)
Lemma follow_races_with_block_witness : exists row d,
  local_follows d !! (1%N, 2%N) = Some row /\ is_Some (local_blocks d !! (2%N, 1%N)).
Proof.
  pose (d1 := store_of sample_block sample_world sample_db1).
  pose (write := follow_write (mkAccountId 1) (mkAccountId 2) true false).
  assert (Hc : follow_checks (mkAccountId 1) (mkAccountId 2) sample_world sample_db1
    = (Ok tt, sample_world, sample_db1)) by reflexivity.
  assert (Hb : block_local_account (mkAccountId 2) (mkAccountId 1) sample_world sample_db1
    = (Ok tt, world_of sample_block sample_world sample_db1, d1))
    by (apply (run_unit sample_block); vm_compute; reflexivity).
  destruct (run_ok write sample_world d1) as (row & _ & Hw); [vm_compute; reflexivity|].
  destruct (follow_races_with_block (mkAccountId 2) (mkAccountId 1) (mkAccountId 1) (mkAccountId 2)
    true false sample_world sample_world sample_world _ sample_world _ sample_db1 d1 _ row
    (or_intror eq_refl) Hc Hb Hw) as (H1 & H2 & _).
  exists row, (store_of write sample_world d1). split; [exact H2|exact H1].
Defined.

Definition sample_job : Jobs.NewJob := Jobs.mkNewJob Jobs.FederationFollowDelivery JNull None 0.

(** A follower of 50 whose earlier follow of 51 was moved away from 51. *)
Definition sample_returning : Db :=
  sample_db {[(1%N, 50%N) := sample_following;
              (1%N, 51%N) := mkFollowingRow 62 1 51 "follow-51" Accepted true false (Some 5) 5]} ∅.

Lemma move_to_deactivated_target_fails_witness :
  value_of (migrate_remote_following_for_actor_move sample_following (mkAccountId 51) true
    (Some ("new"%string, sample_job)) sample_job) sample_world sample_returning
  = Err (Database (UniqueViolation "remote_following_local_account_id_remote_actor_id_key")).
Proof.
  apply (move_to_deactivated_target_fails sample_following (mkAccountId 51) "new" sample_job
    sample_job sample_world sample_returning sample_following
    (mkFollowingRow 62 1 51 "follow-51" Accepted true false (Some 5) 5));
    try (vm_compute; reflexivity). by eexists.
Defined.

Lemma move_races_with_block_witness : exists d f,
  remote_pair_blocked 1 51 d = true /\ remote_followings d !! (1%N, 51%N) = Some f.
Proof.
  pose (blocking := process_remote_block (mkAccountId 51) (mkAccountId 1) "block-1").
  pose (d1 := store_of blocking sample_world sample_db1).
  pose (moving := migrate_remote_following_for_actor_move sample_following (mkAccountId 51) true
    (Some ("new"%string, sample_job)) sample_job).
  destruct (run_ok blocking sample_world sample_db1) as (b & _ & Hb); [vm_compute; reflexivity|].
  destruct (run_ok moving sample_world d1) as (b2 & Hb2 & Hm); [vm_compute; reflexivity|].
  assert (Hv : value_of moving sample_world d1 = Ok true) by (vm_compute; reflexivity).
  rewrite Hv in Hb2. injection Hb2 as <-.
  destruct (move_races_with_block sample_following (mkAccountId 51) "block-1" "new" sample_job
    sample_job sample_world _ sample_world _ sample_db1 d1 _ b community1_ok Hb
    ltac:(vm_compute; by eexists) ltac:(discriminate) Hm) as (H1 & (f & Hf & _) & _).
  exists (store_of moving sample_world d1), f. split; [exact H1|exact Hf].
Defined.

Lemma reject_keeps_list_members_witness :
  let rejected := reject_remote_following (mkAccountId 50) "follow-50" in
  list_remote_members (store_of rejected sample_world sample_db1) !! (7%N, 50%N) = Some 61%N.
Proof.
  intros rejected.
  destruct (run_ok rejected sample_world sample_db1) as (b & _ & Hrun); [vm_compute; reflexivity|].
  exact (proj1 (reject_keeps_list_members (mkAccountId 50) "follow-50" sample_world sample_db1 b _ _
    7 (mkListRow 7 1 "friends" PolicyList false 0 0) 61 sample_following community1_ok
    eq_refl eq_refl eq_refl eq_refl Hrun)).
Defined.

Lemma reconcile_severs_suspended_witness :
  let suspended := reconcile_suspended_remote_domains (fun _ => ""%string) [lit "example"] in
  remote_followings (store_of suspended sample_world sample_db1) !! (1%N, 50%N) = None.
Proof.
  intros suspended.
  destruct (run_ok suspended sample_world sample_db1) as (n & _ & Hrun); [vm_compute; reflexivity|].
  destruct (reconcile_severs_suspended (fun _ => ""%string) [lit "example"] sample_world sample_db1 n
    _ _ ltac:(discriminate) Hrun) as [Hgone _].
  refine (proj1 (proj2 (Hgone 50%N 1%N _))).
  exists (mkRemoteActorRow (lit "social.example") None None (Some 51%N) None None 0), (lit "example").
  split; [reflexivity|]. split; [left|]. right. by exists (lit "social").
Defined.

Lemma add_local_list_accounts_atomic_witness :
  is_Some (list_local_members sample_db3 !! (7%N, 2%N)) \/
  is_Some (list_remote_members sample_db3 !! (7%N, 2%N)).
Proof.
  destruct (add_local_list_accounts_atomic (mkAccountId 1) 7 [mkAccountId 2; mkAccountId 2]
    sample_world sample_db2 Added _ sample_db3 community2_ok sample_add_runs)
    as [[Hno _]|(_ & _ & _ & Hin & _)]; [by destruct Hno|].
  apply (Hin (mkAccountId 2)). left.
Defined.
