(* ===== verification/Statuses.v ===== *)
(** Stored statuses, as far as other components read them: the rows of
    [local_status] and [remote_status], the accounts a local status mentions,
    and the walk up a reply chain that [recipient_started_private_thread] of
    [crates/db/src/lib.rs] performs. *)
From S2P Require Import Prelude Core Text.
From S2P Require Relations Notifications.

Inductive StatusVisibility : Type := Public | Unlisted | Private | Direct.

#[export] Instance StatusVisibility_eq_dec : EqDecision StatusVisibility.
Proof. solve_decision. Defined.

Record LocalStatus := mkLocalStatus {
  ls_account : uuid;
  ls_visibility : StatusVisibility;
  ls_sensitive : bool;
  ls_spoiler_text : string;
  ls_in_reply_to : option uuid;
  ls_in_reply_to_remote : option uuid;
  ls_created_at : time;
  ls_deleted_at : option time;
}.

(** [rs_sensitive] and [rs_summary] are the members of the stored Note object
    that SQL reads with [->>]; an inbound Note is rejected unless its
    [sensitive] is a Boolean. *)
Record RemoteStatus := mkRemoteStatus {
  rs_actor : uuid;
  rs_visibility : StatusVisibility;
  rs_sensitive : bool;
  rs_summary : string;
  rs_in_reply_to : option string;
  rs_in_reply_to_local : option uuid;
  rs_in_reply_to_remote : option uuid;
  rs_published_at : time;
  rs_deleted_at : option time;
}.

(** The mention tables hold (status, account) pairs. *)
Record Db := mkDb {
  local_statuses : gmap uuid LocalStatus;
  remote_statuses : gmap uuid RemoteStatus;
  local_mentions : gset (uuid * uuid);
  remote_mentions : gset (uuid * uuid);
  relations : Relations.Db;
}.

#[export, refine] Instance relations_part : Part Relations.Db Db :=
  {| get_part := relations;
     put_part := fun r d => mkDb (local_statuses d) (remote_statuses d) (local_mentions d)
                              (remote_mentions d) r |}.
Proof. all: by intros *; try destruct s. Defined.

(** Soft-deleted statuses are not found. *)
Definition find_local_status_by_id (status : StatusId) : Op Db (option LocalStatus) :=
  gets (fun d => match local_statuses d !! status_uuid status with
                 | Some s => if bool_decide (ls_deleted_at s = None) then Some s else None
                 | None => None end).

Definition find_remote_status_by_id (status : StatusId) : Op Db (option RemoteStatus) :=
  gets (fun d => match remote_statuses d !! status_uuid status with
                 | Some s => if bool_decide (rs_deleted_at s = None) then Some s else None
                 | None => None end).

(** * Reply chains *)

Inductive NotificationActor : Type :=
| ActorLocal (id : AccountId)
| ActorRemote (id : AccountId).

#[export] Instance NotificationActor_eq_dec : EqDecision NotificationActor.
Proof. solve_decision. Defined.

(** A row of the recursive query: a local and a remote status identifier, of
    which the first present one is the row's key. *)
Abbreviation parents := (option uuid * option uuid)%type.

Definition parent_key (p : parents) : option (bool * uuid) :=
  match p with
  | (Some l, _) => Some (true, l)
  | (None, Some r) => Some (false, r)
  | (None, None) => None
  end.

Definition parents_of_local (d : Db) (l : option uuid) : list parents :=
  match l ≫= fun i => local_statuses d !! i with
  | Some s => [(ls_in_reply_to s, ls_in_reply_to_remote s)]
  | None => []
  end.

Definition parents_of_remote (d : Db) (r : option uuid) : list parents :=
  match r ≫= fun i => remote_statuses d !! i with
  | Some s => [(rs_in_reply_to_local s, rs_in_reply_to_remote s)]
  | None => []
  end.

Definition next_parents (d : Db) (p : parents) : list parents :=
  parents_of_local d (fst p) ++ parents_of_remote d (snd p).

(** [next.key IS NOT NULL AND NOT next.key = ANY(ancestors.path)]. *)
Definition unvisited (path : list (option (bool * uuid))) (p : parents) : bool :=
  negb (bool_decide (parent_key p = None)) && negb (bool_decide (parent_key p ∈ path)).

(** The rows of the recursive query from [p]; [fuel] is what is left of the
    depth bound. *)
Fixpoint ancestors (d : Db) (fuel : nat) (path : list (option (bool * uuid))) (p : parents) :
    list parents :=
  p :: match fuel with
       | O => []
       | S fuel =>
           flat_map (fun q => ancestors d fuel (path ++ [parent_key q]) q)
             (List.filter (unvisited path) (next_parents d p))
       end.

(** A direct status of the recipient that mentions the actor. *)
Definition private_mention_by (recipient : AccountId) (actor : NotificationActor) (d : Db)
    (p : parents) : bool :=
  match fst p with
  | Some l =>
      match local_statuses d !! l with
      | Some s =>
          (ls_account s =? account_uuid recipient)%N
          && bool_decide (ls_visibility s = Direct)
          && match actor with
             | ActorLocal a => bool_decide ((l, account_uuid a) ∈ local_mentions d)
             | ActorRemote a => bool_decide ((l, account_uuid a) ∈ remote_mentions d)
             end
      | None => false
      end
  | None => false
  end.

Definition recipient_started_private_thread (recipient : AccountId) (actor : NotificationActor)
    (local_parent_id remote_parent_id : option uuid) : Op Db bool :=
  if bool_decide (local_parent_id = None /\ remote_parent_id = None) then mret false
  else gets (fun d =>
    let start := (local_parent_id, remote_parent_id) in
    existsb (private_mention_by recipient actor d)
      (ancestors d 100 [parent_key start] start)).

(** * The walk follows the chain

    A status answers at most one other, so the ancestors of a status form a
    chain; [climb d n p] is its [n]-th member, and the walk visits exactly the
    first hundred and one of them, whether or not the chain is a cycle. *)
Definition single_parents (d : Db) : Prop :=
  (forall i s, local_statuses d !! i = Some s ->
     ls_in_reply_to s = None \/ ls_in_reply_to_remote s = None) /\
  (forall i s, remote_statuses d !! i = Some s ->
     rs_in_reply_to_local s = None \/ rs_in_reply_to_remote s = None).

Definition single_parent (p : parents) : Prop := fst p = None \/ snd p = None.

Definition reply_parent (d : Db) (p : parents) : option parents :=
  match next_parents d p with
  | q :: _ => if bool_decide (parent_key q = None) then None else Some q
  | [] => None
  end.

Fixpoint climb (d : Db) (n : nat) (p : parents) : option parents :=
  match n with
  | O => Some p
  | S n => match reply_parent d p with Some q => climb d n q | None => None end
  end.

Lemma parent_key_inj p q :
  single_parent p -> single_parent q -> parent_key p = parent_key q ->
  parent_key p <> None -> p = q.
Proof.
  unfold single_parent, parent_key.
  destruct p as [[?|] [?|]], q as [[?|] [?|]]; simpl; naive_solver.
Qed.

Section Chain.
Context (d : Db) (Hd : single_parents d).

Lemma next_parents_single p :
  single_parent p ->
  next_parents d p = [] \/ exists q, next_parents d p = [q] /\ single_parent q.
Proof using Hd.
  destruct Hd as [Hl Hr]. unfold single_parent, next_parents, parents_of_local, parents_of_remote.
  destruct p as [[l|] [r|]]; simpl; intros [Hp|Hp]; try done.
  - destruct (local_statuses d !! l) eqn:Hs; simpl; [right|by left]. eauto.
  - destruct (remote_statuses d !! r) eqn:Hs; simpl; [right|by left]. eauto.
  - by left.
  - by left.
Qed.

Lemma reply_parent_next p q :
  single_parent p -> reply_parent d p = Some q ->
  next_parents d p = [q] /\ single_parent q /\ parent_key q <> None.
Proof using Hd.
  intros Hp. unfold reply_parent.
  destruct (next_parents_single p Hp) as [->|(x & -> & Hx)]; [done|].
  case_bool_decide; [done|]. by intros [= ->].
Qed.

Lemma climb_single n p q :
  single_parent p -> climb d n p = Some q -> single_parent q.
Proof using Hd.
  revert p; induction n as [|n IH]; intros p Hp; simpl; [by intros [= <-]|].
  destruct (reply_parent d p) as [x|] eqn:Hx; [|done].
  apply IH. by eapply reply_parent_next.
Qed.

Lemma climb_add m n p : climb d (m + n) p = climb d m p ≫= climb d n.
Proof using Type.
  revert p; induction m as [|m IH]; intros p; simpl; [done|].
  destruct (reply_parent d p); [apply IH|done].
Qed.

(** Every row of the walk is on the chain. *)
Lemma ancestors_climb fuel path p q :
  single_parent p -> q ∈ ancestors d fuel path p ->
  exists n, (n <= fuel)%nat /\ climb d n p = Some q.
Proof using Hd.
  revert path p; induction fuel as [|fuel IH]; intros path p Hp; simpl.
  { rewrite list_elem_of_singleton. intros ->. by exists 0%nat. }
  rewrite elem_of_cons. intros [->|Hq]; [exists 0%nat; split; [lia|done]|].
  apply list_elem_of_In, in_flat_map in Hq as (x & Hx & Hq).
  apply filter_In in Hx as [Hx Hu].
  destruct (next_parents_single p Hp) as [Hn|(y & Hn & Hy)]; rewrite Hn in Hx; [done|].
  destruct Hx as [<-|[]].
  apply list_elem_of_In in Hq.
  apply IH in Hq as (n & Hle & Hc); [|done].
  exists (S n). split; [lia|]. simpl. unfold reply_parent. rewrite Hn.
  unfold unvisited in Hu. boolp. by rewrite bool_decide_false.
Qed.

(** The walk reaches a member of the chain whose predecessors are distinct. *)
Lemma climb_ancestors fuel n path p q :
  single_parent p -> (n <= fuel)%nat -> climb d n p = Some q ->
  (forall i x, (1 <= i <= n)%nat -> climb d i p = Some x -> parent_key x ∉ path) ->
  (forall i j x y, (1 <= i < j)%nat -> (j <= n)%nat ->
     climb d i p = Some x -> climb d j p = Some y -> parent_key x <> parent_key y) ->
  q ∈ ancestors d fuel path p.
Proof using Hd.
  revert n path p; induction fuel as [|fuel IH]; intros n path p Hp Hn Hc Hpath Hdist.
  { assert (n = 0%nat) as -> by lia. injection Hc as ->. simpl. left. }
  simpl. destruct n as [|n]; [injection Hc as ->; left|]. right.
  simpl in Hc. destruct (reply_parent d p) as [x|] eqn:Hx; [|done].
  destruct (reply_parent_next p x Hp Hx) as (Hnext & Hsx & Hkx).
  assert (Hstep : forall i y, climb d i x = Some y -> climb d (S i) p = Some y).
  { intros i y Hy. simpl. by rewrite Hx. }
  rewrite Hnext. simpl. unfold unvisited at 1.
  rewrite (bool_decide_eq_false_2 _ Hkx), bool_decide_eq_false_2.
  2:{ apply (Hpath 1%nat); [lia|]. simpl. by rewrite Hx. }
  simpl. rewrite app_nil_r. apply (IH n); [done|lia|done| |].
  - intros i y Hi Hy. rewrite elem_of_app, list_elem_of_singleton. intros [Hin|Heq].
    + eapply Hpath; [|by apply Hstep|done]. lia.
    + eapply (Hdist 1%nat (S i)); [lia|lia| |by apply Hstep|]; [simpl; by rewrite Hx|done].
  - intros i j y z Hij Hj Hy Hz.
    apply (Hdist (S i) (S j)); [lia|lia|by apply Hstep|by apply Hstep].
Qed.

(** The first time the chain reaches a row, all rows before it are distinct. *)
Lemma climb_first n p q :
  climb d n p = Some q ->
  exists m, (m <= n)%nat /\ climb d m p = Some q /\
    forall i j x y, (i < j)%nat -> (j <= m)%nat ->
      climb d i p = Some x -> climb d j p = Some y -> x <> y.
Proof using Type.
  induction n as [n IH] using lt_wf_ind. intros Hn.
  destruct (decide (Exists (fun j => Exists (fun i => climb d i p = climb d j p) (seq 0 j))
    (seq 0 (S n)))) as [Hyes|Hno].
  2:{ exists n. split; [lia|]. split; [done|]. intros i j x y Hij Hj Hx Hy ->.
      apply Hno, Exists_exists. exists j. split; [apply elem_of_seq; lia|].
      apply Exists_exists. exists i. split; [apply elem_of_seq; lia|congruence]. }
  apply Exists_exists in Hyes as (j & Hj & Hyes).
  apply Exists_exists in Hyes as (i & Hij & Heq).
  apply elem_of_seq in Hj. apply elem_of_seq in Hij.
  assert (Hshort : climb d (i + (n - j)) p = Some q).
  { rewrite climb_add, Heq, <- climb_add. by replace (j + (n - j))%nat with n by lia. }
  destruct (IH (i + (n - j))%nat ltac:(lia) Hshort) as (m & Hm & Hrest).
  exists m. split; [lia|done].
Qed.

Lemma ancestors_spec fuel p q :
  single_parent p -> parent_key p <> None ->
  q ∈ ancestors d fuel [parent_key p] p <->
  exists n, (n <= fuel)%nat /\ climb d n p = Some q.
Proof using Hd.
  intros Hp Hkey. split; [by apply ancestors_climb|]. intros (n & Hn & Hc).
  destruct (climb_first n p q Hc) as (m & Hm & Hcm & Hdist).
  assert (Hinj : forall i x, (1 <= i)%nat -> climb d i p = Some x -> parent_key x <> None).
  { intros [|i] x Hi Hx; [lia|]. replace (S i) with (i + 1)%nat in Hx by lia.
    rewrite climb_add in Hx. destruct (climb d i p) as [u|] eqn:Hu; [|done]. simpl in Hx.
    destruct (reply_parent d u) as [v|] eqn:Hv; [|done]. injection Hx as <-.
    eapply reply_parent_next; [|done]. by eapply climb_single. }
  apply (climb_ancestors fuel m); [done|lia|done| |].
  - intros i x Hi Hx. rewrite list_elem_of_singleton. intros Heq.
    apply (Hdist 0%nat i p x); [lia|lia|done|done|].
    symmetry. apply parent_key_inj; [by eapply climb_single|done|done|]. eapply Hinj; [|done]. lia.
  - intros i j x y Hij Hj Hx Hy Heq.
    apply (Hdist i j x y); [lia|lia|done|done|].
    apply parent_key_inj; [by eapply climb_single|by eapply climb_single|done|].
    eapply Hinj; [|done]. lia.
Qed.
End Chain.

(** * The trust decision *)

(** Notification trust of private threads: a direct message is treated as
    part of a thread the recipient started exactly when one of the first
    hundred and one rows of its reply chain (its parent included) is a direct
    status of the recipient that mentions the actor, for any stored replies,
    cycles included. *)
Theorem private_thread_trust d recipient actor local_parent remote_parent w :
  single_parents d -> local_parent = None \/ remote_parent = None ->
  value_of (recipient_started_private_thread recipient actor local_parent remote_parent) w d
    = Ok true <->
  exists n q, (n <= 100)%nat /\ climb d n (local_parent, remote_parent) = Some q /\
    private_mention_by recipient actor d q = true.
Proof.
  intros Hd Hone. unfold recipient_started_private_thread, value_of.
  case_bool_decide as Hnone.
  { destruct Hnone as [-> ->]. split; [done|]. intros (n & q & _ & Hc & Hq).
    destruct n as [|n]; simpl in Hc; [by injection Hc as <-|].
    unfold reply_parent in Hc. done. }
  assert (Hkey : parent_key (local_parent, remote_parent) <> None)
    by (destruct local_parent, remote_parent; simpl; naive_solver).
  cbn [gets fst]. split.
  - intros Hex. injection Hex as Hex.
    change (existsb (private_mention_by recipient actor d)
      (ancestors d 100 [parent_key (local_parent, remote_parent)] (local_parent, remote_parent))
      = true) in Hex. apply existsb_exists in Hex as (q & Hin & Hq).
    apply list_elem_of_In, (ancestors_spec d Hd 100) in Hin as (n & Hn & Hc); [|done|done].
    by exists n, q.
  - intros (n & q & Hn & Hc & Hq).
    unfold gets. cbn [fst]. f_equal. apply existsb_exists. exists q.
    split; [|done]. apply list_elem_of_In, (ancestors_spec d Hd 100); eauto.
Qed.

(** A reply cycle of two statuses below a direct status that mentions 2. *)
Definition sample_status (author : uuid) (parent : option uuid) : LocalStatus :=
  mkLocalStatus author Direct false "" parent None 0 None.

Definition nobody : Relations.Db :=
  Relations.mkDb ∅ ∅ ∅ ∅ ∅ ∅ ∅ ∅ ∅ ∅ ∅ ∅ ∅ (Notifications.mkDb ∅ ∅ ∅ ∅).

Definition sample_thread : Db :=
  mkDb {[10%N := sample_status 1 None; 11%N := sample_status 2 (Some 10%N);
         12%N := sample_status 2 (Some 13%N); 13%N := sample_status 1 (Some 12%N)]}
       ∅ {[(10%N, 2%N)]} ∅ nobody.

Lemma private_thread_trust_witness :
  value_of (recipient_started_private_thread (mkAccountId 1)
      (ActorLocal (mkAccountId 2)) (Some 11%N) None) sample_world sample_thread = Ok true /\
    value_of (recipient_started_private_thread (mkAccountId 1)
      (ActorLocal (mkAccountId 2)) (Some 12%N) None) sample_world sample_thread = Ok false.
Proof.
  split; [|vm_compute; reflexivity].
  apply (private_thread_trust sample_thread (mkAccountId 1) (ActorLocal (mkAccountId 2))
           (Some 11%N) None sample_world).
  - split.
    + intros i s Hs. right. revert i s Hs. apply map_Forall_to_list. repeat constructor.
    + intros i s Hs. simpl in Hs. by rewrite lookup_empty in Hs.
  - by right.
  - exists 1%nat, (Some 10%N, None). split; [lia|]. split; vm_compute; reflexivity.
Defined.
