(* ===== verification/NotificationRequests.v ===== *)
(** The notification policy and the notification requests of
    [crates/db/src/lib.rs]: deciding whether a notification is delivered,
    filtered or dropped, the requests that collect filtered notifications per
    sender, and the jobs that merge accepted requests and clean up dismissed
    ones.

    Every operation runs inside its caller's transaction.  Identifiers drawn
    with [Uuid::now_v7()] are checked against the primary keys; foreign keys
    hold. *)
From S2P Require Import Prelude Core Statuses.
From S2P Require Jobs Notifications Relations.

(** * Data *)

Inductive NotificationPolicyAction : Type := Accept | Filter | Drop.

#[export] Instance NotificationPolicyAction_eq_dec : EqDecision NotificationPolicyAction.
Proof. solve_decision. Defined.

Record NotificationPolicy := mkPolicy {
  for_not_following : NotificationPolicyAction;
  for_not_followers : NotificationPolicyAction;
  for_new_accounts : NotificationPolicyAction;
  for_private_mentions : NotificationPolicyAction;
  for_limited_accounts : NotificationPolicyAction;
}.

Record NotificationPolicyUpdate := mkPolicyUpdate {
  new_for_not_following : option NotificationPolicyAction;
  new_for_not_followers : option NotificationPolicyAction;
  new_for_new_accounts : option NotificationPolicyAction;
  new_for_private_mentions : option NotificationPolicyAction;
  new_for_limited_accounts : option NotificationPolicyAction;
}.

(** Rows of [local_notification_permission]. *)
Record PermissionRow := mkPermission {
  perm_account : uuid;
  perm_actor_account : option uuid;
  perm_remote_actor : option uuid;
  perm_created_at : time;
}.

Inductive NotificationRequestState : Type := Pending | Merging | Dismissed.

#[export] Instance NotificationRequestState_eq_dec : EqDecision NotificationRequestState.
Proof. solve_decision. Defined.

(** Rows of [local_notification_request]. *)
Record RequestRow := mkRequest {
  req_id : uuid;
  req_account : uuid;
  req_actor_account : option uuid;
  req_remote_actor : option uuid;
  req_last_status : option uuid;
  req_last_remote_status : option uuid;
  req_state : NotificationRequestState;
  req_created_at : time;
  req_updated_at : time;
}.

Record Db := mkDb {
  policies : gmap uuid NotificationPolicy;
  permissions : gmap uuid PermissionRow;
  requests : gmap uuid RequestRow;
  statuses : Statuses.Db;
}.

#[export, refine] Instance statuses_part : Part Statuses.Db Db :=
  {| get_part := statuses;
     put_part := fun s d => mkDb (policies d) (permissions d) (requests d) s |}.
Proof. all: by intros *; try destruct s. Defined.

Definition set_policies p d := mkDb p (permissions d) (requests d) (statuses d).
Definition set_permissions p d := mkDb (policies d) p (requests d) (statuses d).
Definition set_requests r d := mkDb (policies d) (permissions d) r (statuses d).

#[local] Existing Instances Relations.notifications_part Notifications.jobs_part
  Notifications.LocalNotificationType_eq_dec Relations.RemoteFollowState_eq_dec.

Definition on_relations {A} (m : Op Relations.Db A) : Op Db A :=
  zoom (T := Statuses.Db) (zoom (T := Relations.Db) m).
Definition on_notifications {A} (m : Op Notifications.Db A) : Op Db A := on_relations (zoom m).
Definition on_jobs {A} (m : Op Jobs.table A) : Op Db A := on_notifications (zoom m).

Definition relations_of (d : Db) : Relations.Db := Statuses.relations (statuses d).
Definition notifications_of (d : Db) : gmap uuid Notifications.LocalNotification :=
  Notifications.notifications (Relations.notification_db (relations_of d)).
Definition jobs_of (d : Db) : Jobs.table :=
  Notifications.jobs (Relations.notification_db (relations_of d)).

(** A column pair [(actor_account_id, remote_actor_id)]. *)
Definition actor_columns (a : NotificationActor) : option uuid * option uuid :=
  match a with
  | ActorLocal i => (Some (account_uuid i), None)
  | ActorRemote i => (None, Some (account_uuid i))
  end.

(** [column = actor] for the column that the actor fills. *)
Definition is_actor (a : NotificationActor) (local remote : option uuid) : bool :=
  match a with
  | ActorLocal i => bool_decide (local = Some (account_uuid i))
  | ActorRemote i => bool_decide (remote = Some (account_uuid i))
  end.

(** * The policy *)

Definition default_policy : NotificationPolicy := mkPolicy Accept Accept Accept Filter Filter.

Definition notification_policy (account : AccountId) : Op Db NotificationPolicy :=
  d ← gets (fun d => d);
  match policies d !! account_uuid account with
  | Some p => mret p
  | None =>
      modify (set_policies (<[account_uuid account := default_policy]> (policies d)));;
      mret default_policy
  end.

Definition updated_policy (u : NotificationPolicyUpdate) (p : NotificationPolicy) :
    NotificationPolicy :=
  mkPolicy (default (for_not_following p) (new_for_not_following u))
           (default (for_not_followers p) (new_for_not_followers u))
           (default (for_new_accounts p) (new_for_new_accounts u))
           (default (for_private_mentions p) (new_for_private_mentions u))
           (default (for_limited_accounts p) (new_for_limited_accounts u)).

Definition update_notification_policy (account : AccountId) (update : NotificationPolicyUpdate) :
    Op Db NotificationPolicy :=
  d ← gets (fun d => d);
  match policies d !! account_uuid account with
  | None => throw (InvalidInput "notification policy does not exist")
  | Some p =>
      let p := updated_policy update p in
      modify (set_policies (<[account_uuid account := p]> (policies d)));;
      mret p
  end.

Definition action_rank (a : NotificationPolicyAction) : Z :=
  match a with Accept => 0 | Filter => 1 | Drop => 2 end.

(** [max_by_key] keeps the last of the greatest elements. *)
Definition strongest_notification_policy_action (actions : list NotificationPolicyAction) :
    NotificationPolicyAction :=
  default Accept (foldl (fun best a =>
    match best with
    | None => Some a
    | Some b => if action_rank b <=? action_rank a then Some a else Some b
    end) None actions).

Definition push_if (b : bool) (a : NotificationPolicyAction) : list NotificationPolicyAction :=
  if b then [a] else [].

Definition days (n : Z) : duration := seconds (n * 24 * 60 * 60).

(** The predicates that hold, in the order the two functions below test them;
    the function for local actors then adds the test of the follow's age. *)
Definition matched_actions (policy : NotificationPolicy)
    (follows not_follower new_account private_mention limited : bool) :
    list NotificationPolicyAction :=
  push_if (negb follows) (for_not_following policy)
  ++ push_if not_follower (for_not_followers policy)
  ++ (if follows then []
      else push_if new_account (for_new_accounts policy)
           ++ push_if private_mention (for_private_mentions policy)
           ++ push_if limited (for_limited_accounts policy)).

Definition has_permission (recipient : AccountId) (actor : NotificationActor) (d : Db) : bool :=
  negb (bool_decide (rows_where (fun p => (perm_account p =? account_uuid recipient)%N
                                          && is_actor actor (perm_actor_account p) (perm_remote_actor p))
                       (permissions d) = [])).

(** A follow of less than three days. *)
Definition recent_follow (created : option time) (now : time) : bool :=
  match created with Some t => now - days 3 <? t | None => false end.

Definition local_notification_policy_action (recipient actor : AccountId)
    (kind : Notifications.LocalNotificationType) (status_id : option StatusId) :
    Op Db NotificationPolicyAction :=
  permitted ← gets (has_permission recipient (ActorLocal actor));
  if (permitted : bool) then mret Accept
  else
    policy ← notification_policy recipient;
    d ← gets (fun d => d);
    let follows := bool_decide (is_Some
      (Relations.local_follows (relations_of d) !! (account_uuid recipient, account_uuid actor))) in
    let follow := Relations.local_follows (relations_of d)
                    !! (account_uuid actor, account_uuid recipient) in
    model ← lift_option (InvalidInput "notification actor does not exist")
      (Relations.local_accounts (relations_of d) !! account_uuid actor);
    status ← match status_id with
             | None => mret None
             | Some s => s ← lift_option (InvalidInput "notification status does not exist")
                               (local_statuses (statuses d) !! status_uuid s); mret (Some s)
             end;
    now ← now_utc;
    let direct := match status with
                  | Some s => bool_decide (ls_visibility s = Direct) | None => false end in
    initiated ← match status with
                | Some s =>
                    if direct && negb follows
                    then zoom (recipient_started_private_thread recipient (ActorLocal actor)
                                 (ls_in_reply_to s) (ls_in_reply_to_remote s))
                    else mret false
                | None => mret false
                end;
    mret (strongest_notification_policy_action
      (matched_actions policy follows
         (negb (bool_decide (is_Some follow)))
         (now - days 30 <? Relations.account_created_at model)
         (bool_decide (kind = Notifications.Mention) && direct && negb initiated)
         (bool_decide (is_Some (Relations.account_limited_at model)))
       ++ push_if (recent_follow (Relations.follow_created_at <$> follow) now)
            (for_not_followers policy))).

(** An accepted, active follow of the actor by the recipient. *)
Definition recipient_follows_remote (recipient actor : AccountId) (d : Db) : bool :=
  match Relations.remote_followings (relations_of d)
          !! (account_uuid recipient, account_uuid actor) with
  | Some f => bool_decide (Relations.fg_state f = Relations.Accepted)
              && bool_decide (Relations.fg_deactivated_at f = None)
  | None => false
  end.

(** When the actor's accepted follow of the recipient was created. *)
Definition remote_follower_since (recipient actor : AccountId) (d : Db) : option time :=
  match Relations.remote_follows (relations_of d)
          !! (account_uuid actor, account_uuid recipient) with
  | Some f => if bool_decide (Relations.rf_state f = Relations.Accepted)
              then Some (Relations.rf_created_at f) else None
  | None => None
  end.

Definition is_direct (status : option RemoteStatus) : bool :=
  match status with Some s => bool_decide (rs_visibility s = Direct) | None => false end.

(** Evaluated for senders the recipient does not follow. *)
Definition thread_test (recipient actor : AccountId) (follows : bool)
    (status : option RemoteStatus) : Op Db bool :=
  match status with
  | Some s =>
      if bool_decide (rs_visibility s = Direct) && negb follows
      then zoom (recipient_started_private_thread recipient (ActorRemote actor)
                   (rs_in_reply_to_local s) (rs_in_reply_to_remote s))
      else mret false
  | None => mret false
  end.

Definition find_status_row (status_id : option StatusId) : Op Db (option RemoteStatus) :=
  match status_id with
  | None => mret None
  | Some s =>
      d ← gets (fun d => d);
      s ← lift_option (InvalidInput "remote notification status does not exist")
            (remote_statuses (statuses d) !! status_uuid s);
      mret (Some s)
  end.

Definition remote_notification_policy_action (recipient actor : AccountId)
    (kind : Notifications.LocalNotificationType) (status_id : option StatusId) :
    Op Db NotificationPolicyAction :=
  permitted ← gets (has_permission recipient (ActorRemote actor));
  if (permitted : bool) then mret Accept
  else
    policy ← notification_policy recipient;
    d ← gets (fun d => d);
    let follows := recipient_follows_remote recipient actor d in
    let follow := remote_follower_since recipient actor d in
    model ← lift_option (InvalidInput "remote notification actor does not exist")
      (Relations.remote_actors (relations_of d) !! account_uuid actor);
    status ← find_status_row status_id;
    now ← now_utc;
    initiated ← thread_test recipient actor follows status;
    mret (strongest_notification_policy_action
      (matched_actions policy follows
         (negb (bool_decide (is_Some follow)) || recent_follow follow now)
         (now - days 30 <? default (Relations.actor_created_at model)
                             (Relations.actor_profile_created_at model))
         (bool_decide (kind = Notifications.Mention) && is_direct status && negb initiated)
         (bool_decide (is_Some (Relations.actor_limited_at model))))).

(** * Requests *)

Definition active_state (s : NotificationRequestState) : bool :=
  match s with Pending | Merging => true | Dismissed => false end.

(** The rows of the partial unique index on (account, actor). *)
Definition active_request (account : AccountId) (actor : NotificationActor) (r : RequestRow) : bool :=
  (req_account r =? account_uuid account)%N
  && is_actor actor (req_actor_account r) (req_remote_actor r)
  && active_state (req_state r).

Definition active_notification_request_id (account : AccountId) (actor : NotificationActor) :
    Op Db (option uuid) :=
  gets (fun d => req_id <$> head (rows_where (active_request account actor) (requests d))).

Definition with_last_status (actor : NotificationActor) (status : StatusId) (now : time)
    (r : RequestRow) : RequestRow :=
  let '(local, remote) := match actor with
                          | ActorLocal _ => (Some (status_uuid status), None)
                          | ActorRemote _ => (None, Some (status_uuid status)) end in
  mkRequest (req_id r) (req_account r) (req_actor_account r) (req_remote_actor r)
    local remote (req_state r) (req_created_at r) now.

(** Filtered notifications of the actor that no request holds. *)
Definition unattached (account : AccountId) (actor : NotificationActor)
    (n : Notifications.LocalNotification) : bool :=
  (Notifications.account_id n =? account_uuid account)%N
  && Notifications.filtered n
  && bool_decide (Notifications.notification_request_id n = None)
  && is_actor actor (Notifications.actor_account_id n) (Notifications.remote_actor_id n).

Definition with_request (request : option uuid) (filtered : bool)
    (n : Notifications.LocalNotification) : Notifications.LocalNotification :=
  Notifications.mkNotification (Notifications.id n) (Notifications.account_id n)
    (Notifications.notification_type n) (Notifications.actor_account_id n)
    (Notifications.remote_actor_id n) (Notifications.status_id n)
    (Notifications.remote_status_id n) (Notifications.group_id n) filtered request
    (Notifications.report_id n) (Notifications.created_at n) (Notifications.dismissed_at n).

Definition update_notifications (p : Notifications.LocalNotification -> bool)
    (f : Notifications.LocalNotification -> Notifications.LocalNotification) : Op Db unit :=
  on_notifications (modify (Notifications.with_notifications (update_where p f))).

(** INSERT .. ON CONFLICT .. DO UPDATE .. RETURNING id, then the update that
    attaches the actor's unattached notifications. *)
Definition upsert_notification_request (account : AccountId) (actor : NotificationActor)
    (status : StatusId) : Op Db uuid :=
  candidate ← uuid_now_v7;
  now ← now_utc;
  d ← gets (fun d => d);
  row ← match head (rows_where (active_request account actor) (requests d)) with
        | Some r => mret (with_last_status actor status now r)
        | None =>
            if bool_decide (is_Some (requests d !! candidate))
            then throw (Database (UniqueViolation "local_notification_request_pkey"))
            else mret (with_last_status actor status now
                   (mkRequest candidate (account_uuid account) (fst (actor_columns actor))
                      (snd (actor_columns actor)) None None Pending now now))
        end;
  modify (set_requests (<[req_id row := row]> (requests d)));;
  update_notifications (unattached account actor) (with_request (Some (req_id row)) true);;
  mret (req_id row).

(** The pending requests of the account, all of them or the listed ones. *)
Definition selected_request (account : AccountId) (ids : list uuid) (r : RequestRow) : bool :=
  (req_account r =? account_uuid account)%N
  && bool_decide (req_state r = Pending)
  && (bool_decide (ids = []) || bool_decide (req_id r ∈ ids)).

Definition with_state (state : NotificationRequestState) (now : time) (r : RequestRow) : RequestRow :=
  mkRequest (req_id r) (req_account r) (req_actor_account r) (req_remote_actor r)
    (req_last_status r) (req_last_remote_status r) state (req_created_at r) now.

(** The SELECT .. FOR UPDATE and the test on its result. *)
Definition select_requests (account : AccountId) (ids : list uuid) : Op Db (option (list RequestRow)) :=
  found ← gets (fun d => rows_where (selected_request account ids) (requests d));
  if bool_decide (found = []) || negb (bool_decide (ids = []))
                                 && negb (bool_decide (length found = length ids))
  then mret None else mret (Some found).

Definition set_state (ids : list uuid) (state : NotificationRequestState) : Op Db unit :=
  now ← now_utc;
  modify (fun d => set_requests
    (update_where (fun r => bool_decide (req_id r ∈ ids)) (with_state state now) (requests d)) d).

(** INSERT INTO local_notification_permission .. ON CONFLICT DO NOTHING. *)
Definition insert_permission (request : RequestRow) : Op Db unit :=
  actor ← match req_actor_account request, req_remote_actor request with
          | Some a, _ => mret (ActorLocal (mkAccountId a))
          | None, Some a => mret (ActorRemote (mkAccountId a))
          | None, None => throw (InvalidInput "notification request actor is invalid")
          end;
  id ← uuid_now_v7;
  now ← now_utc;
  d ← gets (fun d => d);
  if has_permission (mkAccountId (req_account request)) actor d then mret tt
  else if bool_decide (is_Some (permissions d !! id))
  then throw (Database (UniqueViolation "local_notification_permission_pkey"))
  else
    modify (set_permissions
      (<[id := mkPermission (req_account request) (fst (actor_columns actor))
                 (snd (actor_columns actor)) now]> (permissions d))).

Section Text.
Context (uuid_text : uuid -> string).

Definition merge_key (account : AccountId) : string :=
  ("notification-request-merge:" +:+ uuid_text (account_uuid account))%string.
Definition cleanup_key (account : AccountId) : string :=
  ("notification-request-cleanup:" +:+ uuid_text (account_uuid account))%string.

Definition account_payload (account : AccountId) : JsonValue :=
  JObject [("account_id"%string, JUuid (account_uuid account))].

Definition accept_notification_requests (account : AccountId) (ids : list uuid) : Op Db bool :=
  selected ← select_requests account ids;
  match selected with
  | None => mret false
  | Some selected =>
      for_each selected insert_permission;;
      set_state (req_id <$> selected) Merging;;
      now ← now_utc;
      on_jobs (Jobs.enqueue_job_in_transaction
        (Jobs.mkNewJob Jobs.NotificationRequestMerge (account_payload account)
           (Some (merge_key account)) now));;
      mret true
  end.

Definition dismiss_notification_requests (account : AccountId) (ids : list uuid) : Op Db bool :=
  selected ← select_requests account ids;
  match selected with
  | None => mret false
  | Some selected =>
      set_state (req_id <$> selected) Dismissed;;
      now ← now_utc;
      on_jobs (Jobs.enqueue_job_in_transaction
        (Jobs.mkNewJob Jobs.NotificationRequestCleanup (account_payload account)
           (Some (cleanup_key account)) now));;
      mret true
  end.
End Text.

Definition in_state (account : AccountId) (state : NotificationRequestState) (r : RequestRow) : bool :=
  (req_account r =? account_uuid account)%N && bool_decide (req_state r = state).

Definition notification_requests_merged (account : AccountId) : Op Db bool :=
  gets (fun d => bool_decide (rows_where (in_state account Merging) (requests d) = [])).

Definition notification_request_summary (account : AccountId) : Op Db (nat * nat) :=
  gets (fun d =>
    (count_where (in_state account Pending) (requests d),
     count_where (fun n => (Notifications.account_id n =? account_uuid account)%N
                           && Notifications.filtered n
                           && bool_decide (Notifications.dismissed_at n = None))
       (notifications_of d))).

Definition of_requests (ids : list uuid) (n : Notifications.LocalNotification) : bool :=
  match Notifications.notification_request_id n with
  | Some r => bool_decide (r ∈ ids) | None => false end.

(** DELETE of requests; the reference from a notification is SET NULL. *)
Definition delete_requests (ids : list uuid) : Op Db unit :=
  modify (fun d => set_requests (delete_where (fun r => bool_decide (req_id r ∈ ids)) (requests d)) d);;
  update_notifications (of_requests ids)
    (fun n => with_request None (Notifications.filtered n) n).

Definition merge_notification_requests (account : AccountId) : Op Db unit :=
  transaction (
    found ← gets (fun d => rows_where (in_state account Merging) (requests d));
    (if bool_decide (found = []) then mret tt
     else update_notifications (of_requests (req_id <$> found)) (with_request None false);;
          delete_requests (req_id <$> found));;
    mret (Commit tt)).

Definition cleanup_notification_requests (account : AccountId) : Op Db unit :=
  transaction (
    found ← gets (fun d => rows_where (in_state account Dismissed) (requests d));
    (if bool_decide (found = []) then mret tt
     else on_notifications (modify (Notifications.with_notifications
            (delete_where (of_requests (req_id <$> found)))));;
          delete_requests (req_id <$> found));;
    mret (Commit tt)).

(** * Creating notifications *)

Section Notify.
Context (uuid_text : uuid -> string).

(** A stored notification of the recipient with this type, actor and status. *)
Definition event (account : AccountId) (kind : Notifications.LocalNotificationType)
    (actor : NotificationActor) (status remote_status : option uuid -> bool)
    (n : Notifications.LocalNotification) : bool :=
  (Notifications.account_id n =? account_uuid account)%N
  && bool_decide (Notifications.notification_type n = kind)
  && is_actor actor (Notifications.actor_account_id n) (Notifications.remote_actor_id n)
  && status (Notifications.status_id n)
  && remote_status (Notifications.remote_status_id n).

Definition column_is (v c : option uuid) : bool := bool_decide (c = v).
Definition any_value (c : option uuid) : bool := true.

Definition find_event (p : Notifications.LocalNotification -> bool) :
    Op Db (option Notifications.LocalNotification) :=
  gets (fun d => head (rows_where p (notifications_of d))).

Definition insert_notification (account : AccountId) (kind : Notifications.LocalNotificationType)
    (actor : NotificationActor) (status remote_status : option uuid)
    (filtered : bool) (request : option uuid) : Op Db Notifications.LocalNotification :=
  id ← uuid_now_v7;
  now ← now_utc;
  on_notifications (Notifications.insert uuid_text
    (Notifications.mkNotification id (account_uuid account) kind (fst (actor_columns actor))
       (snd (actor_columns actor)) status remote_status None filtered request None now None)).

Definition notify_local_account (account : AccountId) (kind : Notifications.LocalNotificationType)
    (actor : AccountId) (status : option StatusId) : Op Db Notifications.LocalNotification :=
  if decide (account = actor) then throw (InvalidInput "accounts cannot notify themselves")
  else
    existing ← find_event (event account kind (ActorLocal actor)
                             (column_is (status_uuid <$> status)) any_value);
    match existing with
    | Some n => mret n
    | None => insert_notification account kind (ActorLocal actor) (status_uuid <$> status) None
                false None
    end.

Definition filterable (kind : Notifications.LocalNotificationType) : bool :=
  match kind with
  | Notifications.Mention | Notifications.Reblog | Notifications.Follow
  | Notifications.FollowRequest | Notifications.Favourite | Notifications.Quote => true
  | _ => false
  end.

(** The request a filtered notification of a local actor belongs to. *)
Definition local_request (account actor : AccountId) (kind : Notifications.LocalNotificationType)
    (status : option StatusId) : Op Db (option uuid) :=
  match status with
  | Some s =>
      if bool_decide (kind = Notifications.Mention) || bool_decide (kind = Notifications.Quote)
      then r ← upsert_notification_request account (ActorLocal actor) s; mret (Some r)
      else active_notification_request_id account (ActorLocal actor)
  | None => active_notification_request_id account (ActorLocal actor)
  end.

Definition notify_local_account_with_policy (account : AccountId)
    (kind : Notifications.LocalNotificationType) (actor : AccountId) (status : option StatusId) :
    Op Db (option Notifications.LocalNotification) :=
  if decide (account = actor) then mret None
  else
    allowed ← on_relations (Relations.local_account_allows_notification account actor);
    if negb allowed then mret None
    else if negb (filterable kind)
    then n ← notify_local_account account kind actor status; mret (Some n)
    else
      existing ← find_event (event account kind (ActorLocal actor)
                               (column_is (status_uuid <$> status)) any_value);
      match existing with
      | Some n => mret (Some n)
      | None =>
          action ← local_notification_policy_action account actor kind status;
          match action with
          | Drop => mret None
          | Accept =>
              n ← insert_notification account kind (ActorLocal actor) (status_uuid <$> status)
                    None false None;
              mret (Some n)
          | Filter =>
              request ← local_request account actor kind status;
              n ← insert_notification account kind (ActorLocal actor) (status_uuid <$> status)
                    None true request;
              mret (Some n)
          end
      end.

(** A mention is announced only when it is not filtered. *)
Definition unless_filtered (n : Notifications.LocalNotification) :
    option Notifications.LocalNotification :=
  if Notifications.filtered n then None else Some n.

Definition mention_or_request (account : AccountId) (actor : NotificationActor)
    (status : StatusId) (local_status remote_status : option uuid)
    (action : NotificationPolicyAction) : Op Db (option Notifications.LocalNotification) :=
  match action with
  | Drop => mret None
  | Accept =>
      n ← insert_notification account Notifications.Mention actor local_status remote_status
            false None;
      mret (Some n)
  | Filter =>
      request ← upsert_notification_request account actor status;
      insert_notification account Notifications.Mention actor local_status remote_status
        true (Some request);;
      mret None
  end.

Definition notify_local_status_mention (account actor : AccountId) (status : StatusId) :
    Op Db (option Notifications.LocalNotification) :=
  if decide (account = actor) then mret None
  else
    allowed ← on_relations (Relations.local_account_allows_notification account actor);
    if negb allowed then mret None
    else
      existing ← find_event (event account Notifications.Mention (ActorLocal actor)
                               (column_is (Some (status_uuid status))) any_value);
      match existing with
      | Some n => mret (unless_filtered n)
      | None =>
          action ← local_notification_policy_action account actor Notifications.Mention
                     (Some status);
          mention_or_request account (ActorLocal actor) status (Some (status_uuid status)) None
            action
      end.

Definition notify_remote_status_mention (account actor : AccountId) (status : StatusId) :
    Op Db (option Notifications.LocalNotification) :=
  allowed ← on_relations (Relations.remote_account_allows_notification account actor);
  if negb allowed then mret None
  else
    existing ← find_event (event account Notifications.Mention (ActorRemote actor) any_value
                             (column_is (Some (status_uuid status))));
    match existing with
    | Some n => mret (unless_filtered n)
    | None =>
        action ← remote_notification_policy_action account actor Notifications.Mention
                   (Some status);
        mention_or_request account (ActorRemote actor) status None (Some (status_uuid status))
          action
    end.

(** The policy's part of the notifications of remote follows, favourites and
    boosts; these join an active request but never open one. *)
Definition insert_by_policy (account actor : AccountId)
    (kind : Notifications.LocalNotificationType) (status : option uuid) :
    Op Db (option Notifications.LocalNotification) :=
  action ← remote_notification_policy_action account actor kind None;
  match action with
  | Drop => mret None
  | Accept =>
      n ← insert_notification account kind (ActorRemote actor) status None false None;
      mret (Some n)
  | Filter =>
      request ← active_notification_request_id account (ActorRemote actor);
      n ← insert_notification account kind (ActorRemote actor) status None true request;
      mret (Some n)
  end.

Definition notify_remote_actor_follow (account actor : AccountId)
    (kind : Notifications.LocalNotificationType) : Op Db (option Notifications.LocalNotification) :=
  allowed ← on_relations (Relations.remote_account_allows_notification account actor);
  if negb allowed then mret None
  else if negb (bool_decide (kind = Notifications.Follow)
                || bool_decide (kind = Notifications.FollowRequest))
  then throw (InvalidInput "remote actor notification type is invalid")
  else
    existing ← find_event (event account kind (ActorRemote actor) (column_is None) (column_is None));
    match existing with
    | Some _ => mret None
    | None => insert_by_policy account actor kind None
    end.

Definition notify_remote_actor_favourite (account actor : AccountId) (status : StatusId) :
    Op Db (option Notifications.LocalNotification) :=
  existing ← find_event (event account Notifications.Favourite (ActorRemote actor)
                           (column_is (Some (status_uuid status))) any_value);
  match existing with
  | Some n => mret (Some n)
  | None =>
      allowed ← on_relations (Relations.remote_account_allows_notification account actor);
      if negb allowed then mret None
      else insert_by_policy account actor Notifications.Favourite (Some (status_uuid status))
  end.

Definition notify_remote_actor_reblog (account actor : AccountId) (status : StatusId) :
    Op Db (option Notifications.LocalNotification) :=
  allowed ← on_relations (Relations.remote_account_allows_notification account actor);
  if negb allowed then mret None
  else
    existing ← find_event (event account Notifications.Reblog (ActorRemote actor)
                             (column_is (Some (status_uuid status))) any_value);
    match existing with
    | Some _ => mret None
    | None => insert_by_policy account actor Notifications.Reblog (Some (status_uuid status))
    end.

Definition notify_remote_status (account actor : AccountId) (status : StatusId) :
    Op Db (option Notifications.LocalNotification) :=
  allowed ← on_relations (Relations.remote_account_allows_notification account actor);
  if negb allowed then mret None
  else
    existing ← find_event (event account Notifications.Status (ActorRemote actor) any_value
                             (column_is (Some (status_uuid status))));
    match existing with
    | Some _ => mret None
    | None =>
        n ← insert_notification account Notifications.Status (ActorRemote actor) None
              (Some (status_uuid status)) false None;
        mret (Some n)
    end.

(** The policy's part of the notifications of quotes: filtering opens a
    request for the sender of the quoting status. *)
Definition quote_or_request (account : AccountId) (actor : NotificationActor)
    (status : StatusId) (local_status remote_status : option uuid)
    (action : NotificationPolicyAction) : Op Db (option Notifications.LocalNotification) :=
  match action with
  | Drop => mret None
  | Accept =>
      n ← insert_notification account Notifications.Quote actor local_status remote_status
            false None;
      mret (Some n)
  | Filter =>
      request ← upsert_notification_request account actor status;
      insert_notification account Notifications.Quote actor local_status remote_status
        true (Some request);;
      mret None
  end.

Definition notify_remote_actor_quote (account actor : AccountId) (status : StatusId) :
    Op Db (option Notifications.LocalNotification) :=
  allowed ← on_relations (Relations.remote_account_allows_notification account actor);
  if negb allowed then mret None
  else
    existing ← find_event (event account Notifications.Quote (ActorRemote actor) any_value
                             (column_is (Some (status_uuid status))));
    match existing with
    | Some n => mret (unless_filtered n)
    | None =>
        action ← remote_notification_policy_action account actor Notifications.Quote (Some status);
        quote_or_request account (ActorRemote actor) status None (Some (status_uuid status)) action
    end.

Definition notify_local_status_quote (account actor : AccountId) (status : StatusId) :
    Op Db (option Notifications.LocalNotification) :=
  if decide (account = actor) then mret None
  else
    allowed ← on_relations (Relations.local_account_allows_notification account actor);
    if negb allowed then mret None
    else
      existing ← find_event (event account Notifications.Quote (ActorLocal actor)
                               (column_is (Some (status_uuid status))) any_value);
      match existing with
      | Some n => mret (unless_filtered n)
      | None =>
          action ← local_notification_policy_action account actor Notifications.Quote (Some status);
          quote_or_request account (ActorLocal actor) status (Some (status_uuid status)) None action
      end.
End Notify.
