(* ===== verification/RequestsInvariant.v ===== *)
(** What the notification policy and the notification requests guarantee: the
    strongest matching rule decides, a sender's filtered notifications are held
    by at most one open request, and what accepting, dismissing, merging and
    cleaning up do to them. *)
From S2P Require Import Prelude Core Statuses NotificationRequests.
From S2P Require Jobs Notifications Relations.

#[local] Existing Instances Relations.notifications_part Notifications.jobs_part
  Notifications.LocalNotificationType_eq_dec Relations.RemoteFollowState_eq_dec.

(** * The policy *)

Section Strongest.
Abbreviation strongest := strongest_notification_policy_action.

Definition stronger (best : option NotificationPolicyAction) (a : NotificationPolicyAction) :
    option NotificationPolicyAction :=
  match best with
  | None => Some a
  | Some b => if action_rank b <=? action_rank a then Some a else Some b
  end.

Lemma foldl_stronger l b :
  exists c, foldl stronger (Some b) l = Some c /\ (c = b \/ c ∈ l) /\
    action_rank b <= action_rank c /\ forall a, a ∈ l -> action_rank a <= action_rank c.
Proof.
  revert b; induction l as [|x l IH]; intros b; simpl.
  { exists b. split_and!; [done|by left|lia|]. intros a Ha. by apply not_elem_of_nil in Ha. }
  destruct (Z.leb_spec (action_rank b) (action_rank x)).
  - destruct (IH x) as (c & Hc & Hin & Hle & Hall). exists c. split_and!; [done| |lia|].
    + right. apply elem_of_cons. tauto.
    + intros a Ha. apply elem_of_cons in Ha as [->|Ha]; [done|by apply Hall].
  - destruct (IH b) as (c & Hc & Hin & Hle & Hall). exists c. split_and!; [done| |lia|].
    + destruct Hin as [->|Hin]; [by left|right; by right].
    + intros a Ha. apply elem_of_cons in Ha as [->|Ha]; [lia|by apply Hall].
Qed.

Lemma strongest_spec l :
  (strongest l = Accept \/ strongest l ∈ l) /\
  forall a, a ∈ l -> action_rank a <= action_rank (strongest l).
Proof.
  change (strongest l) with (default Accept (foldl stronger None l)).
  destruct l as [|x l]; simpl.
  { split; [by left|]. intros a Ha. by apply not_elem_of_nil in Ha. }
  destruct (foldl_stronger l x) as (c & -> & Hin & Hle & Hall). simpl. split.
  - right. apply elem_of_cons. tauto.
  - intros a Ha. apply elem_of_cons in Ha as [->|Ha]; [done|by apply Hall].
Qed.
End Strongest.

(** The rules of a policy as the settings page states them. *)
Inductive rule_applies (p : NotificationPolicy) (follows trusted_follower : Prop)
    (new_account private_mention limited : Prop) : NotificationPolicyAction -> Prop :=
| rule_not_following :
    ~ follows -> rule_applies p follows trusted_follower new_account private_mention limited
                   (for_not_following p)
| rule_not_follower :
    ~ trusted_follower -> rule_applies p follows trusted_follower new_account private_mention
                            limited (for_not_followers p)
| rule_new_account :
    ~ follows -> new_account -> rule_applies p follows trusted_follower new_account
                                  private_mention limited (for_new_accounts p)
| rule_private_mention :
    ~ follows -> private_mention -> rule_applies p follows trusted_follower new_account
                                      private_mention limited (for_private_mentions p)
| rule_limited :
    ~ follows -> limited -> rule_applies p follows trusted_follower new_account
                              private_mention limited (for_limited_accounts p).

Lemma matched_actions_spec p f t n m l a :
  a ∈ matched_actions p f t n m l <->
  rule_applies p (f = true) (t = false) (n = true) (m = true) (l = true) a.
Proof.
  unfold matched_actions, push_if. split.
  - intros Ha. destruct f, t, n, m, l; simpl in Ha;
      repeat (apply elem_of_cons in Ha as [->|Ha]; [by constructor|]);
      by apply not_elem_of_nil in Ha.
  - intros Ha. destruct Ha as [Hf|Ht|Hf Hn|Hf Hm|Hf Hl];
      try apply not_true_iff_false in Hf; try apply not_false_iff_true in Ht;
      subst; simpl; set_solver.
Qed.

Lemma rule_applies_iff p f f' t t' n n' m m' l l' a :
  (f <-> f') -> (t <-> t') -> (n <-> n') -> (~ f -> (m <-> m')) -> (l <-> l') ->
  rule_applies p f t n m l a <-> rule_applies p f' t' n' m' l' a.
Proof. intros Hf Ht Hn Hm Hl. split; destruct 1; constructor; tauto. Qed.

Definition follows_actor (d : Db) (recipient actor : AccountId) : Prop :=
  exists f, Relations.remote_followings (relations_of d)
              !! (account_uuid recipient, account_uuid actor) = Some f /\
    Relations.fg_state f = Relations.Accepted /\ Relations.fg_deactivated_at f = None.

(** A follower of at least three days. *)
Definition trusted_follower (d : Db) (now : time) (recipient actor : AccountId) : Prop :=
  exists f, Relations.remote_follows (relations_of d)
              !! (account_uuid actor, account_uuid recipient) = Some f /\
    Relations.rf_state f = Relations.Accepted /\ Relations.rf_created_at f <= now - days 3.

Definition uninvited_mention (d : Db) (recipient actor : AccountId)
    (kind : Notifications.LocalNotificationType) (status : option StatusId) : Prop :=
  kind = Notifications.Mention /\
  exists sid s, status = Some sid /\
    remote_statuses (statuses d) !! status_uuid sid = Some s /\ rs_visibility s = Direct /\
    forall w : World, value_of (recipient_started_private_thread recipient (ActorRemote actor)
      (rs_in_reply_to_local s) (rs_in_reply_to_remote s)) w (statuses d) = Ok false.

Lemma notification_policy_run account w d p w' d' :
  notification_policy account w d = (Ok p, w', d') ->
  w' = w /\ policies d' !! account_uuid account = Some p /\ statuses d' = statuses d /\
  requests d' = requests d /\ permissions d' = permissions d.
Proof.
  unfold notification_policy. run_unfold. simpl.
  destruct (policies d !! account_uuid account) eqn:Hp; intros [= <- <- <-]; [done|].
  simpl. by rewrite lookup_insert_eq.
Qed.

(** The thread test reads the store and nothing else. *)
Lemma started_run recipient actor l r w s :
  exists b, recipient_started_private_thread recipient actor l r w s = (Ok b, w, s) /\
    forall w', value_of (recipient_started_private_thread recipient actor l r) w' s = Ok b.
Proof.
  unfold recipient_started_private_thread, value_of.
  case_bool_decide; simpl; by eexists.
Qed.

Lemma follows_actor_spec d recipient actor :
  recipient_follows_remote recipient actor d = true <-> follows_actor d recipient actor.
Proof.
  unfold follows_actor, recipient_follows_remote. destruct (_ !! _) as [f|]; [|naive_solver].
  rewrite andb_true_iff, !bool_decide_eq_true. naive_solver.
Qed.

Lemma trusted_follower_spec d now recipient actor :
  let follow := remote_follower_since recipient actor d in
  (negb (bool_decide (is_Some follow)) || recent_follow follow now)%bool = false <->
  trusted_follower d now recipient actor.
Proof.
  simpl. unfold trusted_follower, recent_follow, remote_follower_since.
  destruct (_ !! (account_uuid actor, _)) as [f|]; simpl.
  2:{ split; [done|]. by intros (g & ? & _). }
  destruct (bool_decide (Relations.rf_state f = Relations.Accepted)) eqn:Hs;
    [apply bool_decide_eq_true in Hs|apply bool_decide_eq_false in Hs]; simpl.
  2:{ split; [done|]. by intros (g & [= <-] & ? & _). }
  rewrite Z.ltb_ge. split; [intros Hle; by exists f|]. by intros (g & [= <-] & _ & ?).
Qed.

Lemma find_status_row_run status w d row w' d' :
  find_status_row status w d = (Ok row, w', d') ->
  w' = w /\ d' = d /\
  forall s, row = Some s <-> exists sid, status = Some sid /\
    remote_statuses (statuses d) !! status_uuid sid = Some s.
Proof.
  unfold find_status_row. destruct status as [sid|]; [|intros [= <- <- <-]; naive_solver].
  intros H. inv_bind H d0 w0 d1 Hd. injection Hd as <- <- <-.
  inv_bind H s w1 d2 Hs. apply lift_option_Ok in Hs as (Hs & -> & ->).
  injection H as <- <- <-. naive_solver.
Qed.

Lemma thread_test_run recipient actor follows status w d b w' d' :
  thread_test recipient actor follows status w d = (Ok b, w', d') ->
  w' = w /\ d' = d /\
  (follows = false -> forall s, status = Some s -> rs_visibility s = Direct ->
     forall w2, value_of (recipient_started_private_thread recipient (ActorRemote actor)
       (rs_in_reply_to_local s) (rs_in_reply_to_remote s)) w2 (statuses d) = Ok b).
Proof.
  unfold thread_test. destruct status as [s|]; [|by intros [= <- <- <-]].
  case_bool_decide as Hd; simpl; [|by intros [= <- <- <-]; split_and!; naive_solver].
  destruct follows; simpl; [by intros [= <- <- <-]|].
  unfold zoom. simpl.
  destruct (started_run recipient (ActorRemote actor) (rs_in_reply_to_local s)
    (rs_in_reply_to_remote s) w (statuses d)) as (b' & Hrun & Hval).
  rewrite Hrun. intros [= <- <- <-]. split; [done|]. split; [by destruct d|].
  intros _ s' [= <-] _. done.
Qed.

Lemma uninvited_mention_spec d recipient actor kind status row initiated :
  (forall s, row = Some s <-> exists sid, status = Some sid /\
     remote_statuses (statuses d) !! status_uuid sid = Some s) ->
  (forall s, row = Some s -> rs_visibility s = Direct ->
     forall w : World, value_of (recipient_started_private_thread recipient (ActorRemote actor)
       (rs_in_reply_to_local s) (rs_in_reply_to_remote s)) w (statuses d) = Ok initiated) ->
  (bool_decide (kind = Notifications.Mention) && is_direct row && negb initiated)%bool = true <->
  uninvited_mention d recipient actor kind status.
Proof.
  intros Hrow Hinit. unfold uninvited_mention, is_direct.
  rewrite !andb_true_iff, bool_decide_eq_true, negb_true_iff. split.
  - intros [[Hk Hd] ->]. split; [done|]. destruct row as [s|]; [|done].
    apply bool_decide_eq_true in Hd.
    destruct (proj1 (Hrow s) eq_refl) as (sid & Hsid & Hs). exists sid, s.
    split_and!; [done|done|done|]. intros w'. by apply Hinit.
  - intros (Hk & sid & s & Hsid & Hs & Hd & Hval).
    assert (row = Some s) as Hr by (apply Hrow; by exists sid). subst row.
    rewrite bool_decide_eq_true_2 by done. split; [done|].
    specialize (Hinit s eq_refl Hd sample_world). specialize (Hval sample_world). congruence.
Qed.

(** The notification policy for a remote sender: an accepted request
    (permission) lets every notification through; otherwise the decision is
    the strongest (accept < filter < drop) among the settings whose rule
    applies to the sender: not followed, not a follower of three days, and for
    senders who are not followed a new account, an uninvited private mention, a
    limited account.  Nothing but these rules filters or drops. *)
Theorem policy_takes_strongest_rule recipient actor kind status w d a w' d' :
  remote_notification_policy_action recipient actor kind status w d = (Ok a, w', d') ->
  if has_permission recipient (ActorRemote actor) d then a = Accept /\ d' = d
  else exists policy model,
    policies d' !! account_uuid recipient = Some policy /\
    Relations.remote_actors (relations_of d) !! account_uuid actor = Some model /\
    let now := w_clock w (w_ticks w) in
    let applies := rule_applies policy (follows_actor d recipient actor)
      (trusted_follower d now recipient actor)
      (now - days 30 < default (Relations.actor_created_at model)
                         (Relations.actor_profile_created_at model))
      (uninvited_mention d recipient actor kind status)
      (is_Some (Relations.actor_limited_at model)) in
    (a = Accept \/ applies a) /\ forall b, applies b -> action_rank b <= action_rank a.
Proof.
  intros Hrun. unfold remote_notification_policy_action in Hrun.
  inv_bind Hrun p0 w0 d0 Hp0. injection Hp0 as <- <- <-.
  destruct (has_permission _ _ d); [by injection Hrun as <- _ <-|].
  inv_bind Hrun policy w1 d1 Hpol.
  apply notification_policy_run in Hpol as (-> & Hpol & Hst & Hreq & Hperm).
  inv_bind Hrun d2 w2 d3 Hd2. injection Hd2 as <- <- <-.
  inv_bind Hrun model w3 d4 Hmodel. apply lift_option_Ok in Hmodel as (Hmodel & -> & ->).
  inv_bind Hrun row w4 d5 Hrow. apply find_status_row_run in Hrow as (-> & -> & Hrow).
  inv_bind Hrun now w5 d6 Hnow. injection Hnow as <- <- <-.
  inv_bind Hrun initiated w6 d7 Hinit. apply thread_test_run in Hinit as (-> & -> & Hinit).
  injection Hrun as <- <- <-.
  assert (Hrel : relations_of d1 = relations_of d) by (unfold relations_of; by rewrite Hst).
  rewrite Hrel in Hmodel. rewrite Hst in Hrow, Hinit.
  exists policy, model. split; [done|]. split; [done|]. intros now applies.
  match goal with |- context [strongest_notification_policy_action ?l] => set (rules := l) end.
  assert (Happ : forall b, b ∈ rules <-> applies b).
  { intros b. unfold rules. rewrite matched_actions_spec. apply rule_applies_iff.
    - rewrite follows_actor_spec. unfold follows_actor. by rewrite Hrel.
    - rewrite trusted_follower_spec. unfold trusted_follower. by rewrite Hrel.
    - apply Z.ltb_lt.
    - intros Hf. apply not_true_is_false in Hf. by apply uninvited_mention_spec; auto.
    - apply bool_decide_eq_true. }
  destruct (strongest_spec rules) as [Hin Hmax].
  split.
  - destruct Hin as [Hin|Hin]; [by left|right; by apply Happ].
  - intros b Hb. apply Hmax. by apply Happ.
Qed.

(** * The store invariant *)

Definition columns_of (n : Notifications.LocalNotification) : option uuid * option uuid :=
  (Notifications.actor_account_id n, Notifications.remote_actor_id n).
Definition request_columns (r : RequestRow) : option uuid * option uuid :=
  (req_actor_account r, req_remote_actor r).

(** [holds r n]: the request is about this notification's recipient and actor. *)
Definition about (r : RequestRow) (n : Notifications.LocalNotification) : Prop :=
  req_account r = Notifications.account_id n /\ request_columns r = columns_of n.

Record requests_ok (d : Db) : Prop := {
  request_keys : forall k r, requests d !! k = Some r ->
    req_id r = k /\ exists actor, request_columns r = actor_columns actor;
  one_active : forall k1 k2 r1 r2,
    requests d !! k1 = Some r1 -> requests d !! k2 = Some r2 ->
    active_state (req_state r1) = true -> active_state (req_state r2) = true ->
    req_account r1 = req_account r2 -> request_columns r1 = request_columns r2 -> k1 = k2;
  merging_permitted : forall k r actor, requests d !! k = Some r -> req_state r = Merging ->
    request_columns r = actor_columns actor ->
    has_permission (mkAccountId (req_account r)) actor d = true;
  held : forall i n q, notifications_of d !! i = Some n ->
    Notifications.notification_request_id n = Some q ->
    Notifications.filtered n = true /\ exists r, requests d !! q = Some r /\ about r n;
  filtered_actor : forall i n, notifications_of d !! i = Some n ->
    Notifications.filtered n = true -> exists actor, columns_of n = actor_columns actor;
  loose : forall i n k r, notifications_of d !! i = Some n ->
    Notifications.filtered n = true -> Notifications.notification_request_id n = None ->
    requests d !! k = Some r -> active_state (req_state r) = true -> about r n -> False;
}.

Lemma actor_columns_inj a b : actor_columns a = actor_columns b -> a = b.
Proof. destruct a as [[a]|[a]], b as [[b]|[b]]; simpl; congruence. Qed.

Lemma is_actor_columns a b : is_actor a (fst (actor_columns b)) (snd (actor_columns b)) = true <-> a = b.
Proof.
  destruct a as [[a]|[a]], b as [[b]|[b]]; cbn [is_actor actor_columns fst snd account_uuid];
    rewrite bool_decide_eq_true; naive_solver.
Qed.

Lemma is_actor_of a local remote b :
  (local, remote) = actor_columns b -> is_actor a local remote = true <-> a = b.
Proof. intros H. pose proof (is_actor_columns a b) as Hi. by rewrite <- H in Hi. Qed.

(** A store that differs in its notifications only. *)
Definition set_notifications (t : gmap uuid Notifications.LocalNotification) (d : Db) : Db :=
  put_part (put_part (put_part
    (Notifications.with_notifications (fun _ => t) (Relations.notification_db (relations_of d)))
    (relations_of d)) (statuses d)) d.

Lemma update_notifications_run p f w d :
  update_notifications p f w d =
  (Ok tt, w, set_notifications (update_where p f (notifications_of d)) d).
Proof. reflexivity. Qed.

Lemma active_request_spec account actor r b :
  request_columns r = actor_columns b ->
  active_request account actor r = true <->
  req_account r = account_uuid account /\ request_columns r = actor_columns actor /\
  active_state (req_state r) = true.
Proof.
  intros Hb. unfold active_request. rewrite !andb_true_iff, N.eqb_eq, (is_actor_of _ _ _ b) by done.
  rewrite Hb. split; [intros [[? ->] ?]; done|]. intros (? & ->%actor_columns_inj & ?). done.
Qed.

(** The active request of a sender, as the code looks it up. *)
Lemma find_active d account actor :
  requests_ok d ->
  match head (rows_where (active_request account actor) (requests d)) with
  | Some r => requests d !! req_id r = Some r /\ req_account r = account_uuid account /\
              request_columns r = actor_columns actor /\ active_state (req_state r) = true
  | None => forall k r, requests d !! k = Some r -> req_account r = account_uuid account ->
              request_columns r = actor_columns actor -> active_state (req_state r) = false
  end.
Proof.
  intros Hok. destruct (rows_where _ _) as [|r l] eqn:Hrows; simpl.
  - intros k r Hk Ha Hc. pose proof (proj1 (rows_where_nil _ _) Hrows k r Hk) as Hf.
    destruct (request_keys d Hok k r Hk) as (_ & b & Hb).
    destruct (active_state (req_state r)) eqn:Hs; [|done].
    assert (active_request account actor r = true) as Ht by (by apply (active_request_spec _ _ _ b)).
    congruence.
  - assert (r ∈ rows_where (active_request account actor) (requests d)) as Hin
      by (rewrite Hrows; left).
    apply elem_of_rows_where in Hin as [[k Hk] Hact].
    destruct (request_keys d Hok k r Hk) as (<- & b & Hb).
    apply (active_request_spec _ _ _ b) in Hact; [|done]. naive_solver.
Qed.

Lemma requests_ok_frame d d' :
  requests d' = requests d -> permissions d' = permissions d ->
  notifications_of d' = notifications_of d -> requests_ok d -> requests_ok d'.
Proof.
  intros Hr Hp Hn [H1 H2 H3 H4 H5 H6].
  split; rewrite ?Hr, ?Hn; auto. intros k r actor. unfold has_permission. rewrite Hp. apply H3.
Qed.

(** ** Attaching to a request *)

Lemma upsert_run account actor status w d q w' d' :
  upsert_notification_request account actor status w d = (Ok q, w', d') ->
  exists r0,
    match head (rows_where (active_request account actor) (requests d)) with
    | Some r => r0 = r
    | None => requests d !! w_uuid_source w (w_uuids w) = None /\
        r0 = mkRequest (w_uuid_source w (w_uuids w)) (account_uuid account)
               (fst (actor_columns actor)) (snd (actor_columns actor)) None None Pending
               (w_clock w (w_ticks w)) (w_clock w (w_ticks w))
    end /\ q = req_id r0 /\
    let row := with_last_status actor status (w_clock w (w_ticks w)) r0 in
    d' = set_notifications
           (update_where (unattached account actor) (with_request (Some q) true) (notifications_of d))
           (set_requests (<[q := row]> (requests d)) d).
Proof.
  intros H. unfold upsert_notification_request in H.
  inv_bind H candidate w1 d1 Hc. injection Hc as <- <- <-.
  inv_bind H now w2 d2 Hn. injection Hn as <- <- <-.
  inv_bind H d3 w3 d4 Hd. injection Hd as <- <- <-.
  inv_bind H row w4 d5 Hrow. inv_bind H u w5 d6 Hm. injection Hm as <- <- <-.
  inv_bind H v w6 d7 Hu. rewrite update_notifications_run in Hu. injection Hu as <- <- <-.
  injection H as <- <- <-.
  assert (Hid : forall r, req_id (with_last_status actor status
    (w_clock w (w_ticks w)) r) = req_id r) by (by intros r; destruct actor).
  destruct (head _) as [r|] eqn:Hh.
  - injection Hrow as <- <- <-. exists r. by rewrite !Hid.
  - destruct (bool_decide _) eqn:Hfresh; [done|]. injection Hrow as <- <- <-.
    apply bool_decide_eq_false, eq_None_not_Some in Hfresh. simpl in Hfresh.
    eexists. split; [by split; [exact Hfresh|reflexivity]|]. rewrite !Hid. done.
Qed.

Lemma with_last_status_fields actor status now r :
  req_id (with_last_status actor status now r) = req_id r /\
  req_account (with_last_status actor status now r) = req_account r /\
  request_columns (with_last_status actor status now r) = request_columns r /\
  req_state (with_last_status actor status now r) = req_state r.
Proof. by destruct actor. Qed.

(** Giving an active request of the sender to its loose notifications. *)
Lemma attach_ok d account actor row :
  requests_ok d ->
  req_account row = account_uuid account -> request_columns row = actor_columns actor ->
  active_state (req_state row) = true ->
  (req_state row = Merging -> has_permission account actor d = true) ->
  (forall k r, requests d !! k = Some r -> req_account r = account_uuid account ->
     request_columns r = actor_columns actor -> active_state (req_state r) = true ->
     k = req_id row) ->
  (forall r, requests d !! req_id row = Some r -> about r = about row) ->
  requests_ok (set_notifications
    (update_where (unattached account actor) (with_request (Some (req_id row)) true)
       (notifications_of d)) (set_requests (<[req_id row := row]> (requests d)) d)).
Proof.
  intros [H1 H2 H3 H4 H5 H6] Ha Hc Hs Hm Huniq Hsame.
  assert (Hun : forall n, unattached account actor n = true ->
    Notifications.filtered n = true /\ Notifications.notification_request_id n = None /\
    Notifications.account_id n = account_uuid account /\
    is_actor actor (Notifications.actor_account_id n) (Notifications.remote_actor_id n) = true).
  { intros n. unfold unattached. rewrite !andb_true_iff, N.eqb_eq, bool_decide_eq_true. tauto. }
  split; simpl; unfold notifications_of; simpl.
  - intros k r. rewrite lookup_insert_Some. intros [[<- <-]|[_ Hk]]; [eauto|by apply H1].
  - intros k1 k2 r1 r2. rewrite !lookup_insert_Some.
    intros [[<- <-]|[? Hk1]] [[<- <-]|[? Hk2]] Hs1 Hs2 Hac Hcol; [done| | |by eapply H2].
    + symmetry. apply (Huniq k2 r2); congruence.
    + apply (Huniq k1 r1); congruence.
  - intros k r b. rewrite lookup_insert_Some. intros [[<- <-]|[_ Hk]] Hst Hb.
    + rewrite Hc in Hb. apply actor_columns_inj in Hb as <-. rewrite Ha.
      destruct account. by apply Hm.
    + by apply (H3 k r b).
  - intros i n q. rewrite lookup_update_where, fmap_Some. intros (n0 & Hn0 & ->).
    destruct (unattached account actor n0) eqn:Hu; simpl.
    + intros [= <-]. split; [done|]. exists row. rewrite lookup_insert_eq. split; [done|].
      destruct (Hun _ Hu) as (Hf & _ & Hacc & Hact).
      destruct (H5 i n0 Hn0 Hf) as [b Hb]. split; [simpl; congruence|].
      rewrite Hc. change (columns_of (with_request _ _ n0)) with (columns_of n0). rewrite Hb.
      f_equal. by apply (is_actor_of _ _ _ _ Hb).
    + intros Hq. destruct (H4 i n0 q Hn0 Hq) as (Hf & r & Hr & Hab). split; [done|].
      destruct (decide (q = req_id row)) as [->|Hne].
      * exists row. rewrite lookup_insert_eq. split; [done|]. by rewrite <- (Hsame r Hr).
      * exists r. by rewrite lookup_insert_ne.
  - intros i n. rewrite lookup_update_where, fmap_Some. intros (n0 & Hn0 & ->).
    destruct (unattached account actor n0) eqn:Hu; simpl; [|by apply (H5 i)].
    intros _. destruct (Hun _ Hu) as (Hf & _). by apply (H5 i n0).
  - intros i n k r. rewrite lookup_update_where, fmap_Some. intros (n0 & Hn0 & ->).
    destruct (unattached account actor n0) eqn:Hu; simpl; [done|].
    intros Hf Hnone Hk Hact Hab. apply lookup_insert_Some in Hk as [[<- <-]|[_ Hk]];
      [|by apply (H6 i n0 k r)].
    destruct Hab as [Hab1 Hab2]. unfold unattached in Hu.
    rewrite <- Hab1, Ha, N.eqb_refl, Hf, bool_decide_true in Hu by done. simpl in Hu.
    assert (is_actor actor (Notifications.actor_account_id n0) (Notifications.remote_actor_id n0)
      = true) as Ht; [|congruence].
    apply (is_actor_of _ _ _ actor); [|done]. rewrite <- Hc. by rewrite Hab2.
Qed.

(** What [upsert_notification_request] promises its callers. *)
Definition opened (account : AccountId) (actor : NotificationActor) (q : uuid) (d : Db) : Prop :=
  exists r, requests d !! q = Some r /\ req_account r = account_uuid account /\
    request_columns r = actor_columns actor.

Lemma upsert_ok account actor status w d q w' d' :
  requests_ok d -> upsert_notification_request account actor status w d = (Ok q, w', d') ->
  requests_ok d' /\ opened account actor q d'.
Proof.
  intros Hok H. apply upsert_run in H as (r0 & Hr0 & -> & ->).
  destruct (with_last_status_fields actor status (w_clock w (w_ticks w)) r0)
    as (Hid & Hacc & Hcol & Hst).
  pose proof (find_active d account actor Hok) as Hfind.
  split.
  2:{ eexists. split; [simpl; apply lookup_insert_eq|]. rewrite Hacc, Hcol.
      destruct (head _) as [r|]; [by subst; naive_solver|].
      destruct Hr0 as [_ ->]. simpl. by destruct actor. }
  rewrite <- Hid.
  destruct (head _) as [r|].
  - subst r0. destruct Hfind as (Hk & Ha & Hc & Hs). apply attach_ok; [done|congruence|congruence|
      congruence| | |].
    + rewrite Hst. intros Hm. pose proof (merging_permitted d Hok _ _ actor Hk Hm Hc) as Hp.
      rewrite Ha in Hp. by destruct account.
    + intros k r1 Hk1 Ha1 Hc1 Hs1. rewrite Hid. eapply one_active; try done; congruence.
    + intros r1. rewrite Hid, Hk. intros [= <-]. unfold about. by rewrite Hacc, Hcol.
  - destruct Hr0 as [Hfresh ->]. simpl in *. apply attach_ok; [done|done| |by rewrite Hst| | |].
    + rewrite Hcol. by destruct actor.
    + by rewrite Hst.
    + intros k r1 Hk1 Ha1 Hc1 Hs1. rewrite (Hfind k r1) in Hs1 by done. done.
    + intros r1. rewrite Hid. congruence.
Qed.

(** ** Storing a notification *)

Lemma insert_stores uuid_text n w t n' w' t' :
  Notifications.insert uuid_text n w t = (Ok n', w', t') ->
  exists g, n' = Notifications.with_group_id g n /\
    Notifications.notifications t' = <[Notifications.id n' := n']> (Notifications.notifications t).
Proof.
  intros H. unfold Notifications.insert in H.
  inv_bind H n1 w1 t1 Hb. inv_bind H t2 w2 t3 Ht. injection Ht as <- <- <-.
  assert ((exists g, n1 = Notifications.with_group_id g n) /\
    Notifications.notifications t1 = Notifications.notifications t) as [[g ->] Ht1].
  { unfold Notifications.before_save in Hb.
    destruct (Notifications.group_target n) as [[kind target]|].
    - inv_bind Hb c w3 t4 Hc. injection Hc as <- <- <-.
      inv_bind Hb now w4 t5 Hn. injection Hn as <- <- <-.
      inv_bind Hb g w5 t6 Hg. injection Hb as <- <- <-. split; [by eexists|].
      unfold Notifications.upsert_group_state in Hg. run_unfold. simpl in Hg.
      by injection Hg as _ _ <-.
    - injection Hb as <- <- <-. split; [exists (Notifications.group_id n); by destruct n|done]. }
  destruct (Notifications.violated_index _ _); [done|].
  inv_bind H u w6 t7 Hm. injection Hm as <- <- <-.
  inv_bind H v w7 t8 Ha. injection H as <- <- <-. exists g. split; [done|].
  apply (keeps_run Notifications.notifications) in Ha;
    [|apply Notifications.keeps_notifications_after_save].
  rewrite Ha. simpl. by rewrite Ht1.
Qed.

(** A new notification fits the requests of its sender. *)
Definition fits (account : AccountId) (actor : NotificationActor) (filtered : bool)
    (request : option uuid) (d : Db) : Prop :=
  match request with
  | Some q => filtered = true /\ opened account actor q d
  | None => filtered = true -> forall k r, requests d !! k = Some r ->
      req_account r = account_uuid account -> request_columns r = actor_columns actor ->
      active_state (req_state r) = false
  end.

Lemma insert_notification_run uuid_text account kind actor status remote filtered request w d n w' d' :
  insert_notification uuid_text account kind actor status remote filtered request w d
    = (Ok n, w', d') ->
  requests d' = requests d /\ permissions d' = permissions d /\ policies d' = policies d /\
  notifications_of d' = <[Notifications.id n := n]> (notifications_of d) /\
  Notifications.account_id n = account_uuid account /\ columns_of n = actor_columns actor /\
  Notifications.filtered n = filtered /\ Notifications.notification_request_id n = request /\
  Notifications.notification_type n = kind /\ Notifications.status_id n = status.
Proof.
  intros H. unfold insert_notification in H.
  inv_bind H i w1 d1 Hi. injection Hi as <- <- <-.
  inv_bind H now w2 d2 Hn. injection Hn as <- <- <-.
  unfold on_notifications, on_relations, zoom in H. simpl in H.
  destruct (Notifications.insert _ _ _ _) as [[[n'|e] w3] t'] eqn:Hins; [|done].
  injection H as <- <- <-. apply insert_stores in Hins as (g & -> & Ht).
  split_and!; try done. by destruct actor.
Qed.

Lemma insert_notification_ok uuid_text account kind actor status remote filtered request w d n w' d' :
  requests_ok d -> fits account actor filtered request d ->
  insert_notification uuid_text account kind actor status remote filtered request w d
    = (Ok n, w', d') ->
  requests_ok d'.
Proof.
  intros [H1 H2 H3 H4 H5 H6] Hfit H.
  apply insert_notification_run in H as (Hr & Hp & _ & Hn & Ha & Hc & Hf & Hq & _).
  split; rewrite ?Hr, ?Hn; auto.
  - intros k r b. unfold has_permission. rewrite Hp. apply H3.
  - intros i m q. rewrite lookup_insert_Some. intros [[<- <-]|[_ Hm]]; [|by apply (H4 i m q)].
    rewrite Hq. intros ->. destruct Hfit as [-> (r & Hk & Hra & Hrc)]. split; [done|].
    exists r. split; [done|]. split; congruence.
  - intros i m. rewrite lookup_insert_Some. intros [[<- <-]|[_ Hm]]; [eauto|by apply (H5 i m)].
  - intros i m k r. rewrite lookup_insert_Some. intros [[<- <-]|[_ Hm]]; [|by apply (H6 i m k r)].
    rewrite Hq, Hf. intros -> -> Hk Hact [Hra Hrc]. simpl in Hfit.
    rewrite (Hfit eq_refl k r) in Hact; [done|done|congruence|congruence].
Qed.

(** ** The functions that create notifications *)

Definition core (d : Db) := (requests d, permissions d, notifications_of d).

Lemma requests_ok_core d d' : core d' = core d -> requests_ok d -> requests_ok d'.
Proof. intros [= Hr Hp Hn]. by apply requests_ok_frame. Qed.

Lemma keeps_core_relations {A} (m : Op Relations.Db A) :
  keeps Relations.notification_db m -> keeps core (on_relations m).
Proof.
  intros Hm w d. specialize (Hm w (relations_of d)).
  unfold store_of, on_relations, zoom, core in *. simpl.
  unfold relations_of in *. destruct (m w _) as [[r w'] t]. simpl in *.
  unfold notifications_of, relations_of. simpl. by rewrite Hm.
Qed.

Lemma keeps_core_policy account : keeps core (notification_policy account).
Proof. unfold notification_policy. solve_keeps. Qed.

Lemma keeps_core_statuses {A} (m : Op Statuses.Db A) :
  keeps Statuses.relations m -> keeps core (zoom m).
Proof.
  intros Hm w d. specialize (Hm w (statuses d)).
  unfold store_of, zoom, core in *. simpl. destruct (m w _) as [[r w'] t]. simpl in *.
  unfold notifications_of, relations_of. simpl. by rewrite Hm.
Qed.

Lemma keeps_core_started recipient actor l r :
  keeps core (zoom (recipient_started_private_thread recipient actor l r) : Op Db bool).
Proof.
  apply keeps_core_statuses. unfold recipient_started_private_thread.
  case_bool_decide; [apply keeps_ret|apply keeps_gets].
Qed.

(** [solve_keeps] with the frames of this file tried first. *)
Ltac solve_core :=
  repeat (first
    [ apply keeps_core_started
    | apply keeps_core_policy
    | apply keeps_bind
    | match goal with |- forall _, _ => intro end
    | apply keeps_lift_option
    | done
    | match goal with |- keeps _ (let x := ?v in _) => cbv zeta end
    | match goal with |- keeps _ (match ?x with _ => _ end) => destruct x end ]).

Lemma keeps_core_remote_policy recipient actor kind status :
  keeps core (remote_notification_policy_action recipient actor kind status).
Proof.
  unfold remote_notification_policy_action, find_status_row, thread_test. solve_core.
Qed.

Lemma keeps_core_local_policy recipient actor kind status :
  keeps core (local_notification_policy_action recipient actor kind status).
Proof.
  unfold local_notification_policy_action. solve_core.
Qed.

Lemma keeps_core_local_allows account actor :
  keeps core (on_relations (Relations.local_account_allows_notification account actor)).
Proof.
  apply keeps_core_relations. unfold Relations.local_account_allows_notification,
    Relations.local_accounts_are_blocked, Relations.active_local_account_mute. solve_keeps.
Qed.

Lemma keeps_core_remote_allows account actor :
  keeps core (on_relations (Relations.remote_account_allows_notification account actor)).
Proof.
  apply keeps_core_relations. unfold Relations.remote_account_allows_notification,
    Relations.local_remote_accounts_are_blocked, Relations.active_local_remote_account_mute.
  solve_keeps.
Qed.

(** [preserves m]: a successful run keeps the invariant. *)
Definition preserves {A} (m : Op Db A) : Prop :=
  forall w d a w' d', requests_ok d -> m w d = (Ok a, w', d') -> requests_ok d'.

Lemma preserves_core {A} (m : Op Db A) : keeps core m -> preserves m.
Proof.
  intros Hm w d a w' d' Hok Hrun. apply (keeps_run core) in Hrun; [|done].
  by apply (requests_ok_core d).
Qed.

Lemma preserves_bind {A B} (m : Op Db A) (k : A -> Op Db B) :
  preserves m -> (forall a, preserves (k a)) -> preserves (m ≫= k).
Proof.
  intros Hm Hk w d b w' d' Hok H. inv_bind H a w1 d1 Ha. eapply Hk; [|done]. by eapply Hm.
Qed.

Lemma preserves_ret {A} (a : A) : preserves (mret a).
Proof. apply preserves_core, keeps_ret. Qed.

Lemma preserves_throw {A} e : preserves (throw e : Op Db A).
Proof. by intros w d a w' d' _ H. Qed.

Lemma preserves_gets {A} (f : Db -> A) : preserves (gets f).
Proof. apply preserves_core, keeps_gets. Qed.

Lemma preserves_insert uuid_text account kind actor status remote filtered request :
  (forall d, requests_ok d -> fits account actor filtered request d) ->
  preserves (insert_notification uuid_text account kind actor status remote filtered request).
Proof. intros Hf w d n w' d' Hok H. eapply insert_notification_ok; eauto. Qed.

Create HintDb preserves discriminated.
#[export] Hint Resolve preserves_ret preserves_throw preserves_gets
  preserves_core keeps_core_policy keeps_core_remote_policy keeps_core_local_policy
  keeps_core_local_allows keeps_core_remote_allows : preserves.

Lemma unfiltered_fits account actor d : fits account actor false None d.
Proof. done. Qed.

Lemma preserves_unfiltered uuid_text account kind actor status remote :
  preserves (insert_notification uuid_text account kind actor status remote false None).
Proof. apply preserves_insert. intros d _. apply unfiltered_fits. Qed.

(** Filtering under whatever request is active. *)
Lemma preserves_join_active {B} uuid_text account kind actor status remote
    (k : Notifications.LocalNotification -> Op Db B) :
  (forall n, preserves (k n)) ->
  preserves (request ← active_notification_request_id account actor;
             n ← insert_notification uuid_text account kind actor status remote true request;
             k n).
Proof.
  intros Hk w d b w' d' Hok H. inv_bind H request w1 d1 Hreq. injection Hreq as <- <- <-.
  inv_bind H n w2 d2 Hn. eapply Hk; [|done]. eapply insert_notification_ok; [done| |done].
  pose proof (find_active d account actor Hok) as Hf. destruct (head _) as [r|]; simpl.
  - split; [done|]. exists r. naive_solver.
  - intros _. apply Hf.
Qed.

(** Filtering under a request that is opened for it. *)
Lemma preserves_open {B} uuid_text account kind actor sid status remote
    (k : Notifications.LocalNotification -> Op Db B) :
  (forall n, preserves (k n)) ->
  preserves (request ← upsert_notification_request account actor sid;
             n ← insert_notification uuid_text account kind actor status remote true
                   (Some request);
             k n).
Proof.
  intros Hk w d b w' d' Hok H. inv_bind H q w1 d1 Hq.
  apply upsert_ok in Hq as [Hok1 Hopen]; [|done].
  inv_bind H n w2 d2 Hn. eapply Hk; [|done].
  eapply insert_notification_ok; [done| |done]. by split.
Qed.
#[export] Hint Resolve preserves_unfiltered : preserves.

(** Walk a handler, closing each statement by its frame or its lemma. *)
Ltac step_preserves :=
  lazymatch goal with
  | |- forall _, _ => intro
  | |- preserves (active_notification_request_id _ _ ≫= _) => apply preserves_join_active
  | |- preserves (upsert_notification_request _ _ _ ≫= _) => apply preserves_open
  | |- preserves (_ ≫= _) => apply preserves_bind
  | |- preserves (match ?x with _ => _ end) => destruct x
  | |- preserves (mret _) => apply preserves_ret
  | |- preserves (throw _) => apply preserves_throw
  | |- preserves (gets _) => apply preserves_gets
  | |- preserves _ => solve [auto with preserves]
  end.
Ltac solve_preserves := repeat step_preserves.

Lemma preserves_local_mention uuid_text account actor status :
  preserves (notify_local_status_mention uuid_text account actor status).
Proof. unfold notify_local_status_mention, mention_or_request, find_event. solve_preserves. Qed.

Lemma preserves_remote_mention uuid_text account actor status :
  preserves (notify_remote_status_mention uuid_text account actor status).
Proof. unfold notify_remote_status_mention, mention_or_request, find_event. solve_preserves. Qed.

Lemma preserves_local_quote uuid_text account actor status :
  preserves (notify_local_status_quote uuid_text account actor status).
Proof. unfold notify_local_status_quote, quote_or_request, find_event. solve_preserves. Qed.

Lemma preserves_remote_quote uuid_text account actor status :
  preserves (notify_remote_actor_quote uuid_text account actor status).
Proof. unfold notify_remote_actor_quote, quote_or_request, find_event. solve_preserves. Qed.

Lemma preserves_notify_local uuid_text account kind actor status :
  preserves (notify_local_account uuid_text account kind actor status).
Proof. unfold notify_local_account, find_event. solve_preserves. Qed.

#[export] Hint Resolve preserves_notify_local : preserves.

Lemma preserves_local_request {B} uuid_text account actor kind status
    (k : Notifications.LocalNotification -> Op Db B) :
  (forall n, preserves (k n)) ->
  preserves (request ← local_request account actor kind status;
             n ← insert_notification uuid_text account kind (ActorLocal actor)
                   (status_uuid <$> status) None true request;
             k n).
Proof.
  intros Hk. unfold local_request. destruct status as [s|]; [|by apply preserves_join_active].
  destruct (_ || _); [|by apply preserves_join_active].
  intros w d b w' d' Hok H. inv_bind H r w1 d1 Hr. inv_bind Hr q w2 d2 Hq.
  injection Hr as <- <- <-. eapply (preserves_open uuid_text account kind (ActorLocal actor) s
    (Some (status_uuid s)) None k Hk w d b w' d' Hok).
  apply bind_Ok. by exists q, w2, d2.
Qed.

Lemma preserves_with_policy uuid_text account kind actor status :
  preserves (notify_local_account_with_policy uuid_text account kind actor status).
Proof.
  unfold notify_local_account_with_policy, find_event.
  repeat first
    [ match goal with |- preserves (local_request _ _ _ _ ≫= _) => apply preserves_local_request end
    | step_preserves ].
Qed.

Lemma preserves_by_policy uuid_text account actor kind status :
  preserves (insert_by_policy uuid_text account actor kind status).
Proof. unfold insert_by_policy. solve_preserves. Qed.
#[export] Hint Resolve preserves_by_policy : preserves.

Lemma preserves_remote_follow uuid_text account actor kind :
  preserves (notify_remote_actor_follow uuid_text account actor kind).
Proof. unfold notify_remote_actor_follow, find_event. solve_preserves. Qed.

Lemma preserves_remote_favourite uuid_text account actor status :
  preserves (notify_remote_actor_favourite uuid_text account actor status).
Proof. unfold notify_remote_actor_favourite, find_event. solve_preserves. Qed.

Lemma preserves_remote_reblog uuid_text account actor status :
  preserves (notify_remote_actor_reblog uuid_text account actor status).
Proof. unfold notify_remote_actor_reblog, find_event. solve_preserves. Qed.

Lemma preserves_remote_status uuid_text account actor status :
  preserves (notify_remote_status uuid_text account actor status).
Proof. unfold notify_remote_status, find_event. solve_preserves. Qed.

(** ** Accepting, dismissing, merging, cleaning up *)

Lemma has_permission_spec account actor d :
  has_permission account actor d = true <->
  exists k p, permissions d !! k = Some p /\ perm_account p = account_uuid account /\
    is_actor actor (perm_actor_account p) (perm_remote_actor p) = true.
Proof.
  unfold has_permission. rewrite negb_true_iff, bool_decide_eq_false, rows_where_nil. split.
  - intros Hne. destruct (rows_where (fun p => (perm_account p =? account_uuid account)%N
      && is_actor actor (perm_actor_account p) (perm_remote_actor p)) (permissions d))
      as [|p l] eqn:Hr; [exfalso; apply Hne; by apply rows_where_nil|].
    assert (p ∈ p :: l) as Hin by left. rewrite <- Hr in Hin.
    apply elem_of_rows_where in Hin as [[k Hk] Hp]. apply andb_true_iff in Hp as [Ha Hp].
    apply N.eqb_eq in Ha. by exists k, p.
  - intros (k & p & Hk & Ha & Hp) Hall. specialize (Hall k p Hk). simpl in Hall.
    by rewrite Ha, N.eqb_refl, Hp in Hall.
Qed.

Lemma insert_permission_run r w d w' d' :
  insert_permission r w d = (Ok tt, w', d') ->
  requests d' = requests d /\ statuses d' = statuses d /\
  (forall a b, has_permission a b d = true -> has_permission a b d' = true) /\
  (forall b, request_columns r = actor_columns b ->
     has_permission (mkAccountId (req_account r)) b d' = true).
Proof.
  intros H. unfold insert_permission in H. inv_bind H actor w1 d1 Ha.
  assert (w1 = w /\ d1 = d /\ forall b, request_columns r = actor_columns b -> actor = b)
    as (-> & -> & Hact).
  { unfold request_columns in *. destruct (req_actor_account r) as [a|], (req_remote_actor r) as [b|];
      simpl in Ha; try done; injection Ha as <- <- <-; split_and!; try done;
      intros [[c]|[c]]; simpl; congruence. }
  inv_bind H i w2 d2 Hi. injection Hi as <- <- <-.
  inv_bind H now w3 d3 Hn. injection Hn as <- <- <-.
  inv_bind H d4 w4 d5 Hd. injection Hd as <- <- <-.
  destruct (has_permission _ actor d) eqn:Hp.
  - injection H as <- <-. split_and!; try done. intros b Hb. by rewrite <- (Hact b Hb).
  - destruct (bool_decide _) eqn:Hfresh; [done|]. injection H as <- <-.
    apply bool_decide_eq_false, eq_None_not_Some in Hfresh. simpl in *.
    split_and!; try done.
    + intros a b. rewrite !has_permission_spec. intros (k & p & Hk & Hpa). simpl.
      exists k, p. split; [|done]. rewrite lookup_insert_ne; [done|]. intros <-. congruence.
    + intros b Hb. apply has_permission_spec. simpl. eexists _, _.
      split; [apply lookup_insert_eq|]. simpl. split; [done|].
      rewrite <- (Hact b Hb). by apply is_actor_columns.
Qed.

Lemma insert_permissions_run rs w d w' d' :
  for_each rs insert_permission w d = (Ok tt, w', d') ->
  requests d' = requests d /\ statuses d' = statuses d /\
  (forall a b, has_permission a b d = true -> has_permission a b d' = true) /\
  (forall r b, r ∈ rs -> request_columns r = actor_columns b ->
     has_permission (mkAccountId (req_account r)) b d' = true).
Proof.
  revert w d; induction rs as [|r rs IH]; intros w d; simpl.
  { intros [= <- <-]. split_and!; try done. intros r b Hr. by apply not_elem_of_nil in Hr. }
  intros H. inv_bind H u w1 d1 Hr. destruct u.
  apply insert_permission_run in Hr as (Hreq & Hst & Hmono & Hnew).
  apply IH in H as (Hreq' & Hst' & Hmono' & Hnew').
  split_and!; [congruence|congruence|auto|].
  intros r' b Hr' Hb. apply elem_of_cons in Hr' as [->|Hr']; eauto.
Qed.

Definition requests_in (ids : list uuid) (state : NotificationRequestState) (now : time)
    (d : Db) : gmap uuid RequestRow :=
  update_where (fun r => bool_decide (req_id r ∈ ids)) (with_state state now) (requests d).

Lemma set_state_ok ids state now d :
  requests_ok d -> state <> Pending ->
  (forall k r b, requests d !! k = Some r -> req_id r ∈ ids ->
     req_state r = Pending /\
     (state = Merging -> request_columns r = actor_columns b ->
      has_permission (mkAccountId (req_account r)) b d = true)) ->
  requests_ok (set_requests (requests_in ids state now d) d).
Proof.
  intros [H1 H2 H3 H4 H5 H6] Hne Hids.
  assert (Hlook : forall k r, requests_in ids state now d !! k = Some r ->
    exists r0, requests d !! k = Some r0 /\ req_account r = req_account r0 /\
      request_columns r = request_columns r0 /\ req_id r = req_id r0 /\
      (active_state (req_state r) = true -> active_state (req_state r0) = true) /\
      (req_state r = Merging -> req_state r0 = Merging \/ state = Merging /\ req_id r0 ∈ ids)).
  { intros k r. unfold requests_in. rewrite lookup_update_where, fmap_Some.
    intros (r0 & Hr0 & ->). exists r0. case_bool_decide as Hin; simpl; [|by split_and!; auto].
    destruct (Hids k r0 (ActorLocal (mkAccountId 0)) Hr0 Hin) as [-> _].
    split_and!; auto. }
  split; simpl; auto.
  - intros k r Hk. apply Hlook in Hk as (r0 & Hk & _ & Hc & Hi & _).
    rewrite Hc, Hi. by apply H1.
  - intros k1 k2 r1 r2 Hk1 Hk2 Hs1 Hs2 Ha Hc.
    apply Hlook in Hk1 as (p1 & Hp1 & Ha1 & Hc1 & _ & Hs1' & _).
    apply Hlook in Hk2 as (p2 & Hp2 & Ha2 & Hc2 & _ & Hs2' & _).
    eapply (H2 k1 k2 p1 p2); eauto; congruence.
  - intros k r b Hk Hm Hb. apply Hlook in Hk as (r0 & Hk & Ha & Hc & _ & _ & Hst).
    change (has_permission (mkAccountId (req_account r)) b d = true). rewrite Ha.
    destruct (Hst Hm) as [Hm0|[Hs Hin]].
    + apply (H3 k r0 b Hk Hm0). congruence.
    + apply (Hids k r0 b Hk Hin); [done|congruence].
  - intros i n q Hn Hq. destruct (H4 i n q Hn Hq) as (Hf & r & Hr & Hab & Hcb). split; [done|].
    unfold requests_in. rewrite lookup_update_where, Hr. simpl.
    eexists. split; [done|]. by case_bool_decide.
  - intros i n k r Hn Hf Hnone Hk Hact [Ha Hc].
    apply Hlook in Hk as (r0 & Hk & Ha0 & Hc0 & _ & Hs & _).
    apply (H6 i n k r0); auto. split; congruence.
Qed.

Lemma keeps_core_jobs {A} (m : Op Jobs.table A) : keeps core (on_jobs m).
Proof.
  intros w d. unfold store_of, on_jobs, on_notifications, on_relations, zoom. simpl.
  destruct (m w _) as [[r w'] t]. done.
Qed.

Definition selection (account : AccountId) (ids : list uuid) (d : Db) : list RequestRow :=
  rows_where (selected_request account ids) (requests d).

Lemma select_requests_run account ids w d o w' d' :
  select_requests account ids w d = (Ok o, w', d') ->
  w' = w /\ d' = d /\
  o = if bool_decide (selection account ids d = []) || negb (bool_decide (ids = []))
         && negb (bool_decide (length (selection account ids d) = length ids))
      then None else Some (selection account ids d).
Proof.
  intros H. unfold select_requests in H. inv_bind H found w1 d1 Hf. injection Hf as <- <- <-.
  unfold selection. destruct (_ || _); by injection H as <- <- <-.
Qed.

Lemma selection_spec account ids d r k :
  requests_ok d -> requests d !! k = Some r -> req_id r ∈ (req_id <$> selection account ids d) ->
  req_account r = account_uuid account /\ req_state r = Pending /\ r ∈ selection account ids d /\
  (ids = [] \/ k ∈ ids).
Proof.
  intros Hok Hk Hin. apply list_elem_of_fmap in Hin as (r' & Hid & Hin).
  pose proof Hin as Hin'. unfold selection in Hin'.
  apply elem_of_rows_where in Hin' as [[k' Hk'] Hsel].
  destruct (request_keys d Hok k r Hk) as [<- _]. destruct (request_keys d Hok k' r' Hk') as [<- _].
  rewrite <- Hid in Hk'. assert (r' = r) as -> by congruence.
  unfold selected_request in Hsel.
  rewrite !andb_true_iff, orb_true_iff, N.eqb_eq, !bool_decide_eq_true in Hsel. tauto.
Qed.

Lemma set_state_run ids state w d w' d' :
  set_state ids state w d = (Ok tt, w', d') ->
  d' = set_requests (requests_in ids state (w_clock w (w_ticks w)) d) d.
Proof. intros H. unfold set_state in H. run_unfold. by injection H as _ <-. Qed.

Lemma accept_run uuid_text account ids w d w' d' :
  accept_notification_requests uuid_text account ids w d = (Ok true, w', d') ->
  selection account ids d <> [] /\
  exists w1 d1 now, for_each (selection account ids d) insert_permission w d = (Ok tt, w1, d1) /\
    core d' = core (set_requests (requests_in (req_id <$> selection account ids d) Merging now d1) d1).
Proof.
  intros H. unfold accept_notification_requests in H. inv_bind H sel w1 d1 Hsel.
  apply select_requests_run in Hsel as (-> & -> & ->).
  case_bool_decide as Hne; simpl in H; [done|]. split; [done|].
  destruct (negb _ && negb _); [done|].
  inv_bind H u w2 d2 Hp. destruct u. inv_bind H u w3 d3 Hs. destruct u.
  apply set_state_run in Hs as ->. inv_bind H now w4 d4 Hn. injection Hn as <- <- <-.
  inv_bind H j w5 d5 Hj. injection H as <- <-.
  apply (keeps_run core) in Hj; [|apply keeps_core_jobs]. by eauto.
Qed.

Lemma preserves_accept uuid_text account ids :
  preserves (accept_notification_requests uuid_text account ids).
Proof.
  intros w d b w' d' Hok H. destruct b.
  - apply accept_run in H as (_ & w1 & d1 & now & Hp & Hcore).
    apply (requests_ok_core _ _ Hcore).
    pose proof Hp as Hp'. apply insert_permissions_run in Hp as (Hreq & Hst & Hmono & Hnew).
    assert (Hnot : notifications_of d1 = notifications_of d)
      by (unfold notifications_of, relations_of; by rewrite Hst).
    assert (Hok1 : requests_ok d1).
    { destruct Hok as [H1 H2 H3 H4 H5 H6]. split; rewrite ?Hreq, ?Hnot; eauto. }
    apply set_state_ok; [done|done|]. intros k r b. rewrite Hreq. intros Hk Hin.
    destruct (selection_spec account ids d r k Hok Hk Hin) as (_ & Hpend & Hsel & _).
    split; [done|]. intros _ Hb. by apply Hnew.
  - unfold accept_notification_requests in H. inv_bind H sel w1 d1 Hsel.
    apply select_requests_run in Hsel as (-> & -> & ->). destruct (_ || _).
    + by injection H as <- <-.
    + inv_bind H u w2 d2 Hp. inv_bind H u' w3 d3 Hs. inv_bind H now w4 d4 Hn.
      inv_bind H j w5 d5 Hj. done.
Qed.

Lemma preserves_dismiss uuid_text account ids :
  preserves (dismiss_notification_requests uuid_text account ids).
Proof.
  intros w d b w' d' Hok H. unfold dismiss_notification_requests in H. inv_bind H sel w1 d1 Hsel.
  apply select_requests_run in Hsel as (-> & -> & ->). destruct (_ || _).
  { by injection H as <- <- <-. }
  inv_bind H u w2 d2 Hs. destruct u. apply set_state_run in Hs as ->.
  inv_bind H now w3 d3 Hn. injection Hn as <- <- <-.
  inv_bind H j w4 d4 Hj. injection H as <- <- <-.
  apply (keeps_run core) in Hj; [|apply keeps_core_jobs].
  apply (requests_ok_core _ _ Hj). apply set_state_ok; [done|done|].
  intros k r a Hk Hin. destruct (selection_spec account ids d r k Hok Hk Hin) as (_ & ? & _).
  by split.
Qed.

(** Requests go together with the notifications they hold, or release them. *)
Lemma drop_requests_ok ids t d :
  requests_ok d ->
  (forall i n, t !! i = Some n -> exists n0, notifications_of d !! i = Some n0 /\
     (of_requests ids n0 = false /\ n = n0 \/
      Notifications.filtered n = false /\ Notifications.notification_request_id n = None)) ->
  requests_ok (set_notifications t
    (set_requests (delete_where (fun r => bool_decide (req_id r ∈ ids)) (requests d)) d)).
Proof.
  intros [H1 H2 H3 H4 H5 H6] Ht.
  assert (Hlook : forall k r,
    delete_where (fun r => bool_decide (req_id r ∈ ids)) (requests d) !! k = Some r <->
    requests d !! k = Some r /\ k ∉ ids).
  { intros k r. rewrite lookup_delete_where. destruct (requests d !! k) as [r'|] eqn:Hk; [|naive_solver].
    destruct (H1 k r' Hk) as [Hid _]. case_bool_decide; naive_solver. }
  split; simpl; unfold notifications_of; simpl.
  - intros k r. rewrite Hlook. intros [Hk _]. by apply H1.
  - intros k1 k2 r1 r2. rewrite !Hlook. intros [Hk1 _] [Hk2 _]. by eapply H2.
  - intros k r b. rewrite Hlook. intros [Hk _]. by apply (H3 k).
  - intros i n q Hn Hq. destruct (Ht i n Hn) as (n0 & Hn0 & [[Hof ->]|[_ Hnone]]); [|congruence].
    destruct (H4 i n0 q Hn0 Hq) as (Hf & r & Hr & Hab). split; [done|]. exists r.
    rewrite Hlook. split; [|done]. split; [done|].
    unfold of_requests in Hof. rewrite Hq in Hof. by apply bool_decide_eq_false in Hof.
  - intros i n Hn Hf. destruct (Ht i n Hn) as (n0 & Hn0 & [[_ ->]|[Hf' _]]); [by apply (H5 i)|congruence].
  - intros i n k r Hn Hf Hnone. rewrite Hlook. intros [Hk _].
    destruct (Ht i n Hn) as (n0 & Hn0 & [[_ ->]|[Hf' _]]); [by apply (H6 i n0 k r)|congruence].
Qed.

Definition ids_in (account : AccountId) (state : NotificationRequestState) (d : Db) : list uuid :=
  req_id <$> rows_where (in_state account state) (requests d).

Lemma merge_run account w d :
  exists t, merge_notification_requests account w d = (Ok tt, w,
      if bool_decide (ids_in account Merging d = []) then d
      else set_notifications t (set_requests
        (delete_where (fun r => bool_decide (req_id r ∈ ids_in account Merging d)) (requests d)) d)) /\
    forall i, t !! i = (fun n => if of_requests (ids_in account Merging d) n
                                 then with_request None false n else n) <$> notifications_of d !! i.
Proof.
  unfold ids_in. set (found := rows_where (in_state account Merging) (requests d)).
  exists (update_where (of_requests (req_id <$> found))
    (fun n => with_request None (Notifications.filtered n) n)
    (update_where (of_requests (req_id <$> found)) (with_request None false) (notifications_of d))).
  split.
  - unfold merge_notification_requests, transaction. run_unfold. fold found.
    destruct found as [|r l] eqn:Hf; [done|]. rewrite !bool_decide_false by done. reflexivity.
  - intros i. rewrite !lookup_update_where. destruct (notifications_of d !! i) as [n|]; simpl; [|done].
    by destruct (of_requests (req_id <$> found) n) eqn:Hof; rewrite ?Hof.
Qed.

Lemma cleanup_run account w d :
  exists t, cleanup_notification_requests account w d = (Ok tt, w,
      if bool_decide (ids_in account Dismissed d = []) then d
      else set_notifications t (set_requests
        (delete_where (fun r => bool_decide (req_id r ∈ ids_in account Dismissed d)) (requests d)) d)) /\
    forall i n, t !! i = Some n <->
      notifications_of d !! i = Some n /\ of_requests (ids_in account Dismissed d) n = false.
Proof.
  unfold ids_in. set (found := rows_where (in_state account Dismissed) (requests d)).
  exists (update_where (of_requests (req_id <$> found))
    (fun n => with_request None (Notifications.filtered n) n)
    (delete_where (of_requests (req_id <$> found)) (notifications_of d))).
  split.
  - unfold cleanup_notification_requests, transaction. run_unfold. fold found.
    destruct found as [|r l] eqn:Hf; [done|]. rewrite !bool_decide_false by done. reflexivity.
  - intros i n. rewrite lookup_update_where, lookup_delete_where.
    destruct (notifications_of d !! i) as [m|]; simpl; [|naive_solver].
    destruct (of_requests (req_id <$> found) m) eqn:Hof; simpl; rewrite ?Hof.
    + split; [done|]. intros [[= <-] ?]. congruence.
    + split; [by intros [= <-]|by intros [[= <-] _]].
Qed.

Lemma preserves_merge account : preserves (merge_notification_requests account).
Proof.
  intros w d a w' d' Hok H. destruct (merge_run account w d) as (t & Hrun & Ht).
  rewrite Hrun in H. injection H as <- _ <-. case_bool_decide; [done|].
  apply drop_requests_ok; [done|]. intros i n Hi. rewrite Ht in Hi.
  apply fmap_Some in Hi as (n0 & Hn0 & ->). exists n0. split; [done|].
  destruct (of_requests _ n0); [by right|by left].
Qed.

Lemma preserves_cleanup account : preserves (cleanup_notification_requests account).
Proof.
  intros w d a w' d' Hok H. destruct (cleanup_run account w d) as (t & Hrun & Ht).
  rewrite Hrun in H. injection H as <- _ <-. case_bool_decide; [done|].
  apply drop_requests_ok; [done|]. intros i n Hi. apply Ht in Hi as [Hi Hof]. exists n. auto.
Qed.

(** ** Histories *)

(** What the rest of the server does to stored notifications: it adds
    unfiltered ones, dismisses and deletes them. *)
Definition other_change (d d' : Db) : Prop :=
  requests d' = requests d /\ permissions d' = permissions d /\
  forall i n, notifications_of d' !! i = Some n ->
    Notifications.filtered n = false /\ Notifications.notification_request_id n = None \/
    exists n0, notifications_of d !! i = Some n0 /\ columns_of n = columns_of n0 /\
      Notifications.account_id n = Notifications.account_id n0 /\
      Notifications.filtered n = Notifications.filtered n0 /\
      Notifications.notification_request_id n = Notifications.notification_request_id n0.

Section Histories.
Context (uuid_text : uuid -> string).

Inductive step (d d' : Db) : Prop :=
| step_local account kind actor status w w' n :
    notify_local_account_with_policy uuid_text account kind actor status w d = (Ok n, w', d') ->
    step d d'
| step_local_mention account actor status w w' n :
    notify_local_status_mention uuid_text account actor status w d = (Ok n, w', d') -> step d d'
| step_remote_mention account actor status w w' n :
    notify_remote_status_mention uuid_text account actor status w d = (Ok n, w', d') -> step d d'
| step_remote_follow account actor kind w w' n :
    notify_remote_actor_follow uuid_text account actor kind w d = (Ok n, w', d') -> step d d'
| step_remote_favourite account actor status w w' n :
    notify_remote_actor_favourite uuid_text account actor status w d = (Ok n, w', d') -> step d d'
| step_remote_reblog account actor status w w' n :
    notify_remote_actor_reblog uuid_text account actor status w d = (Ok n, w', d') -> step d d'
| step_remote_status account actor status w w' n :
    notify_remote_status uuid_text account actor status w d = (Ok n, w', d') -> step d d'
| step_local_quote account actor status w w' n :
    notify_local_status_quote uuid_text account actor status w d = (Ok n, w', d') -> step d d'
| step_remote_quote account actor status w w' n :
    notify_remote_actor_quote uuid_text account actor status w d = (Ok n, w', d') -> step d d'
| step_accept account ids w w' b :
    accept_notification_requests uuid_text account ids w d = (Ok b, w', d') -> step d d'
| step_dismiss account ids w w' b :
    dismiss_notification_requests uuid_text account ids w d = (Ok b, w', d') -> step d d'
| step_merge account w w' :
    merge_notification_requests account w d = (Ok tt, w', d') -> step d d'
| step_cleanup account w w' :
    cleanup_notification_requests account w d = (Ok tt, w', d') -> step d d'
| step_other : other_change d d' -> step d d'.

Lemma other_change_ok d d' : other_change d d' -> requests_ok d -> requests_ok d'.
Proof.
  intros (Hr & Hp & Hn) [H1 H2 H3 H4 H5 H6]. split; rewrite ?Hr; auto.
  - intros k r b. unfold has_permission. rewrite Hp. apply H3.
  - intros i n q Hi Hq. destruct (Hn i n Hi) as [[_ ?]|(n0 & Hn0 & Hc & Ha & Hf & Hrq)]; [congruence|].
    rewrite Hrq in Hq. destruct (H4 i n0 q Hn0 Hq) as (Hf0 & r & Hk & Hab & Hcb).
    split; [congruence|]. exists r. split; [done|]. split; congruence.
  - intros i n Hi Hft. destruct (Hn i n Hi) as [[? _]|(n0 & Hn0 & Hc & Ha & Hf & Hrq)]; [congruence|].
    rewrite Hc. apply (H5 i n0 Hn0). congruence.
  - intros i n k r Hi Hft Hnone Hk Hact [Hab Hcb].
    destruct (Hn i n Hi) as [[? _]|(n0 & Hn0 & Hc & Ha & Hf & Hrq)]; [congruence|].
    apply (H6 i n0 k r); try done; try congruence. split; congruence.
Qed.

#[local] Hint Resolve preserves_with_policy preserves_local_mention preserves_remote_mention
  preserves_remote_follow preserves_remote_favourite preserves_remote_reblog
  preserves_remote_status preserves_local_quote preserves_remote_quote preserves_accept preserves_dismiss preserves_merge
  preserves_cleanup : preserves.

Lemma use_preserves {A} (m : Op Db A) w d a w' d' :
  m w d = (Ok a, w', d') -> preserves m -> requests_ok d -> requests_ok d'.
Proof. intros Hrun Hm Hok. by eapply Hm. Qed.

Lemma requests_step_ok d d' : step d d' -> requests_ok d -> requests_ok d'.
Proof.
  intros Hs Hok. destruct Hs; [..|by eapply other_change_ok].
  all: match goal with H : _ = (Ok _, _, _) |- _ =>
         apply (use_preserves _ _ _ _ _ _ H); [solve [auto with preserves]|done] end.
Qed.

Definition no_requests (d : Db) : Prop :=
  requests d = ∅ /\ forall i n, notifications_of d !! i = Some n ->
    Notifications.filtered n = false /\ Notifications.notification_request_id n = None.

Lemma no_requests_ok d : no_requests d -> requests_ok d.
Proof.
  intros [Hreq Hnot]. split; rewrite ?Hreq; intros *; rewrite ?lookup_empty; try done.
  - intros Hi Hq. destruct (Hnot _ _ Hi). congruence.
  - intros Hi Hf. destruct (Hnot _ _ Hi). congruence.
Qed.

(** C32. At every point of every history that starts without requests and
    filtered notifications (notifications created under any policy, requests
    accepted, dismissed, merged and cleaned up in any order, any other change
    to stored notifications in between), a sender has at most one open request
    per recipient, every filtered notification in a request belongs to that
    request's sender and recipient, an accepted request has its permission, and
    while a sender has an open request with a recipient, none of the sender's
    filtered notifications to that recipient is in no request (one may still be
    in an earlier, dismissed request). *)
Theorem reachable_requests_ok d0 d : no_requests d0 -> rtc step d0 d -> requests_ok d.
Proof.
  intros Hinit Hsteps. apply no_requests_ok in Hinit as Hok. clear Hinit.
  induction Hsteps as [|x y z Hxy _ IH]; [done|]. apply IH. by eapply requests_step_ok.
Qed.

(** ** Accept, then merge *)

Lemma requests_in_selected account ids now d k r :
  requests_ok d -> requests d !! k = Some r ->
  requests_in (req_id <$> selection account ids d) Merging now d !! k =
  Some (if bool_decide (req_id r ∈ req_id <$> selection account ids d)
        then with_state Merging now r else r).
Proof.
  intros Hok Hk. unfold requests_in. by rewrite lookup_update_where, Hk.
Qed.

Lemma ids_in_elem account state d k r :
  requests_ok d -> requests d !! k = Some r ->
  k ∈ ids_in account state d <-> req_account r = account_uuid account /\ req_state r = state.
Proof.
  intros Hok Hk. unfold ids_in. rewrite list_elem_of_fmap. split.
  - intros (r' & -> & Hin). apply elem_of_rows_where in Hin as [[k' Hk'] Hin].
    destruct (request_keys d Hok k' r' Hk') as [<- _].
    assert (r = r') as <- by congruence. unfold in_state in Hin.
    by rewrite andb_true_iff, N.eqb_eq, bool_decide_eq_true in Hin.
  - intros [Ha Hs]. exists r. destruct (request_keys d Hok k r Hk) as [<- _].
    split; [done|]. apply elem_of_rows_where. split; [by eexists|].
    unfold in_state. by rewrite andb_true_iff, N.eqb_eq, bool_decide_eq_true.
Qed.

(** Merging ends with no request of the account waiting. *)
Lemma merge_empties account w d w' d' :
  requests_ok d -> merge_notification_requests account w d = (Ok tt, w', d') ->
  (forall k r, requests d !! k = Some r -> req_account r = account_uuid account ->
     req_state r = Merging -> requests d' !! k = None) /\
  (forall i n q r, notifications_of d !! i = Some n ->
     Notifications.notification_request_id n = Some q -> requests d !! q = Some r ->
     notifications_of d' !! i = Some
       (if bool_decide (req_account r = account_uuid account /\ req_state r = Merging)
        then with_request None false n else n)) /\
  (forall i n, notifications_of d !! i = Some n ->
     Notifications.notification_request_id n = None -> notifications_of d' !! i = Some n).
Proof.
  intros Hok H. destruct (merge_run account w d) as (t & Hrun & Ht).
  rewrite Hrun in H. injection H as _ <-.
  assert (Hof : forall n q r, Notifications.notification_request_id n = Some q ->
    requests d !! q = Some r -> of_requests (ids_in account Merging d) n =
      bool_decide (req_account r = account_uuid account /\ req_state r = Merging)).
  { intros n q r Hq Hr. unfold of_requests. rewrite Hq. apply bool_decide_ext.
    by apply ids_in_elem. }
  destruct (bool_decide (ids_in account Merging d = [])) eqn:Hemp; boolp.
  - assert (Hno : forall k r, requests d !! k = Some r ->
      ~ (req_account r = account_uuid account /\ req_state r = Merging)).
    { intros k r Hk Ham. apply (ids_in_elem account Merging d k r Hok Hk) in Ham.
      rewrite Hemp in Ham. by apply not_elem_of_nil in Ham. }
    split_and!; [|intros i n q r Hi Hq Hr; rewrite bool_decide_false; eauto|done].
    intros k r Hk Ha Hm. exfalso. by eapply Hno.
  - simpl. split_and!.
    + intros k r Hk Ha Hm. rewrite lookup_delete_where, Hk.
      destruct (request_keys d Hok k r Hk) as [-> _].
      by rewrite bool_decide_true by (by apply (ids_in_elem account Merging d k r)).
    + intros i n q r Hi Hq Hr. unfold notifications_of. simpl. rewrite Ht, Hi. simpl.
      by rewrite (Hof n q r Hq Hr).
    + intros i n Hi Hq. unfold notifications_of. simpl. rewrite Ht, Hi. simpl.
      unfold of_requests. by rewrite Hq.
Qed.

(** The store an accept leaves. *)
Lemma accept_effect account ids w d w1 d1 :
  requests_ok d -> accept_notification_requests uuid_text account ids w d = (Ok true, w1, d1) ->
  notifications_of d1 = notifications_of d /\
  (forall r, r ∈ selection account ids d -> exists now,
     requests d !! req_id r = Some r /\
     requests d1 !! req_id r = Some (with_state Merging now r) /\
     req_account r = account_uuid account /\
     forall b, request_columns r = actor_columns b -> has_permission account b d1 = true) /\
  (forall k r, requests d !! k = Some r -> r ∉ selection account ids d -> requests d1 !! k = Some r).
Proof.
  intros Hok H. apply accept_run in H as (_ & w2 & d2 & now & Hp & Hcore).
  apply insert_permissions_run in Hp as (Hreq & Hst & _ & Hnew).
  injection Hcore as Hr1 Hp1 Hn1. split_and!.
  - rewrite Hn1. unfold notifications_of, relations_of. simpl. by rewrite Hst.
  - intros r Hin. exists now. pose proof Hin as Hin'. unfold selection in Hin'.
    apply elem_of_rows_where in Hin' as [[k Hk] Hsel].
    destruct (request_keys d Hok k r Hk) as [<- _].
    assert (Hid : req_id r ∈ req_id <$> selection account ids d) by (apply list_elem_of_fmap; eauto).
    destruct (selection_spec account ids d r _ Hok Hk Hid) as (Ha & _ & _ & _).
    split_and!; [done| |done|].
    + rewrite Hr1. unfold requests_in. rewrite lookup_update_where, Hreq, Hk. simpl.
      by rewrite bool_decide_true.
    + intros b Hb. unfold has_permission. rewrite Hp1. specialize (Hnew r b Hin Hb).
      rewrite Ha in Hnew. by destruct account.
  - intros k r Hk Hnot. rewrite Hr1. unfold requests_in. rewrite lookup_update_where, Hreq, Hk. simpl.
    rewrite bool_decide_false; [done|]. intros Hid. apply Hnot.
    by destruct (selection_spec account ids d r k Hok Hk Hid) as (_ & _ & ? & _).
Qed.

Lemma merge_keeps_permissions account w d w' d' :
  merge_notification_requests account w d = (Ok tt, w', d') -> permissions d' = permissions d.
Proof.
  intros H. destruct (merge_run account w d) as (t & Hrun & _). rewrite Hrun in H.
  injection H as _ <-. by case_bool_decide.
Qed.

(** Accepting requests and then running the merge job releases exactly what
    they held: each accepted request is gone, its sender has a permission (so
    [policy_takes_strongest_rule] accepts its later notifications), the
    notifications it held are visible and belong to no request, and the
    notifications of requests that were neither accepted nor already merging
    are untouched. *)
Theorem accepted_requests_are_released account ids w d w1 d1 w2 w3 d2 r :
  requests_ok d ->
  accept_notification_requests uuid_text account ids w d = (Ok true, w1, d1) ->
  merge_notification_requests account w2 d1 = (Ok tt, w3, d2) ->
  r ∈ selection account ids d ->
  requests d2 !! req_id r = None /\
  (forall sender, request_columns r = actor_columns sender ->
     has_permission account sender d2 = true) /\
  (forall i n, notifications_of d !! i = Some n ->
     Notifications.notification_request_id n = Some (req_id r) ->
     notifications_of d2 !! i = Some (with_request None false n)) /\
  (forall i n q r', notifications_of d !! i = Some n ->
     Notifications.notification_request_id n = Some q -> requests d !! q = Some r' ->
     req_state r' <> Merging -> r' ∉ selection account ids d ->
     notifications_of d2 !! i = Some n).
Proof.
  intros Hok Hacc Hmerge Hin.
  assert (Hok1 : requests_ok d1) by (by eapply preserves_accept).
  destruct (accept_effect account ids w d w1 d1 Hok Hacc) as (Hn & Hsel & Hrest).
  destruct (merge_empties account w2 d1 w3 d2 Hok1 Hmerge) as (Hgone & Hheld & _).
  destruct (Hsel r Hin) as (now & Hr & Hr1 & Ha & Hperm). split_and!.
  - by apply (Hgone _ _ Hr1).
  - intros b Hb. unfold has_permission. rewrite (merge_keeps_permissions _ _ _ _ _ Hmerge).
    by apply Hperm.
  - intros i n Hi Hq. rewrite <- Hn in Hi. rewrite (Hheld i n _ _ Hi Hq Hr1).
    by rewrite bool_decide_true.
  - intros i n q r' Hi Hq Hr' Hnm Hns. rewrite <- Hn in Hi.
    rewrite (Hheld i n q r' Hi Hq (Hrest q r' Hr' Hns)). by rewrite bool_decide_false by naive_solver.
Qed.

(** ** Accepting while the merge job runs *)

Lemma enqueue_duplicate (job : Jobs.NewJob) w t k j :
  t !! k = Some j ->
  Jobs.active_duplicate (Jobs.new_kind job) (Jobs.new_deduplication_key job) j = true ->
  exists i w', Jobs.enqueue_job_in_transaction job w t = (Ok i, w', t).
Proof.
  intros Hk Hd. unfold Jobs.enqueue_job_in_transaction, Jobs.enqueue_job_on_connection.
  run_unfold. simpl. destruct (rows_where _ t) as [|x l] eqn:Hr; [|by eauto].
  rewrite rows_where_nil in Hr. rewrite (Hr k j Hk) in Hd. done.
Qed.

(** The job table of a store. *)
Definition set_jobs (t : Jobs.table) (d : Db) : Db :=
  put_part (put_part (put_part (put_part (Part := Notifications.jobs_part) t
    (Relations.notification_db (relations_of d))) (relations_of d)) (statuses d)) d.

Lemma on_jobs_run {A} (m : Op Jobs.table A) w d r w' t :
  m w (jobs_of d) = (r, w', t) -> on_jobs m w d = (r, w', set_jobs t d).
Proof.
  unfold jobs_of, relations_of. intros H.
  unfold set_jobs, on_jobs, on_notifications, on_relations, zoom, relations_of. simpl. by rewrite H.
Qed.

Definition claim_of (j : Jobs.Job) (claim : uuid) : Jobs.ClaimedJob :=
  Jobs.mkClaimedJob (mkJobId (Jobs.id j)) (mkJobClaimId claim) (Jobs.kind j) (Jobs.payload j)
    (Jobs.attempts j) (Jobs.created_at j).

Lemma claimed_is_active t k j claim :
  Jobs.table_ok t -> t !! k = Some j -> Jobs.claim_id j = Some claim ->
  Jobs.id j = k /\ Jobs.completed_at j = None.
Proof.
  intros Hok Hk Hc. destruct (Jobs.ok_rows t Hok k j Hk) as [Hid _ _ _ Hdone _].
  split; [done|]. destruct (Jobs.completed_at j); [|done].
  rewrite Hdone in Hc; [done|by eexists].
Qed.

(** A merge job that is active when requests are accepted is not doubled. *)
Lemma accept_keeps_jobs account ids w d w1 d1 k job :
  jobs_of d !! k = Some job ->
  Jobs.active_duplicate Jobs.NotificationRequestMerge (Some (merge_key uuid_text account)) job = true ->
  accept_notification_requests uuid_text account ids w d = (Ok true, w1, d1) ->
  jobs_of d1 = jobs_of d.
Proof.
  intros Hk Hact H. unfold accept_notification_requests in H. inv_bind H sel w2 d2 Hsel.
  apply select_requests_run in Hsel as (-> & -> & ->). destruct (_ || _); [done|].
  inv_bind H u w3 d3 Hp. destruct u. apply insert_permissions_run in Hp as (_ & Hst & _).
  inv_bind H u w4 d4 Hs. destruct u. apply set_state_run in Hs as ->.
  inv_bind H now w5 d5 Hn. injection Hn as <- <- <-.
  inv_bind H j w6 d6 Hj. injection H as <- <-.
  set (d3' := set_requests _ d3) in Hj.
  assert (Hd3 : jobs_of d3' = jobs_of d) by (unfold jobs_of, relations_of; simpl; by rewrite Hst).
  match type of Hj with on_jobs (Jobs.enqueue_job_in_transaction ?nj) ?w' _ = _ =>
    destruct (enqueue_duplicate nj w' (jobs_of d3') k job) as (i & w7 & Hrun) end;
    [by rewrite Hd3|done|].
  apply on_jobs_run in Hrun. rewrite Hrun in Hj. by injection Hj as _ _ <-.
Qed.

Lemma complete_run d w k j claim :
  Jobs.table_ok (jobs_of d) -> jobs_of d !! k = Some j -> Jobs.claim_id j = Some claim ->
  exists w' now, on_jobs (Jobs.mark_job_completed (claim_of j claim)) w d =
    (Ok true, w', set_jobs (<[k := Jobs.completed now j]> (jobs_of d)) d).
Proof.
  intros Hok Hk Hc. destruct (claimed_is_active _ _ _ _ Hok Hk Hc) as [<- _].
  eexists _, (w_clock w (w_ticks w)). apply on_jobs_run.
  unfold Jobs.mark_job_completed. apply bind_Ok. eexists _, _, _. split; [reflexivity|].
  by apply (Jobs.update_claimed_held _ (claim_of j claim)).
Qed.

(** C37. A merge job reads the accepted requests of an account and is completed
    by a later statement.  A request accepted in between is stranded: accepting
    succeeds and inserts no job, because the running job still holds the
    deduplication key; once the worker completes that job, no job is left that
    would merge the request, which stays accepted with all its notifications
    filtered (until the account accepts another request). *)
Theorem accept_during_merge_is_stranded account ids w d w1 d1 k job claim :
  requests_ok d -> Jobs.table_ok (jobs_of d) ->
  jobs_of d !! k = Some job -> Jobs.kind job = Jobs.NotificationRequestMerge ->
  Jobs.deduplication_key job = Some (merge_key uuid_text account) ->
  Jobs.claim_id job = Some claim ->
  accept_notification_requests uuid_text account ids w d = (Ok true, w1, d1) ->
  jobs_of d1 = jobs_of d /\
  exists w2 d2, on_jobs (Jobs.mark_job_completed (claim_of job claim)) w1 d1 = (Ok true, w2, d2) /\
    value_of (notification_requests_merged account) w2 d2 = Ok false /\
    (forall i j, jobs_of d2 !! i = Some j -> Jobs.kind j = Jobs.NotificationRequestMerge ->
       Jobs.deduplication_key j = Some (merge_key uuid_text account) ->
       Jobs.completed_at j <> None) /\
    notifications_of d2 = notifications_of d.
Proof.
  intros Hok Hjobs Hk Hkind Hkey Hclaim Hacc.
  destruct (claimed_is_active _ _ _ _ Hjobs Hk Hclaim) as [_ Hdone].
  assert (Hj1 : jobs_of d1 = jobs_of d).
  { eapply accept_keeps_jobs; [done| |done]. by apply Jobs.active_duplicate_spec. }
  split; [done|].
  destruct (complete_run d1 w1 k job claim) as (w2 & now & Hrun); [by rewrite ?Hj1..|].
  eexists _, _. split; [exact Hrun|].
  pose proof (accept_run _ _ _ _ _ _ _ Hacc) as (Hne & _).
  destruct (accept_effect account ids w d w1 d1 Hok Hacc) as (Hn & Hsel & _).
  split_and!; [| |done].
  - destruct (selection account ids d) as [|r l] eqn:Hl; [done|].
    destruct (Hsel r) as (now' & _ & Hr1 & Ha & _); [left|].
    unfold value_of, notification_requests_merged, gets. cbn [fst]. f_equal.
    apply bool_decide_eq_false. simpl. rewrite rows_where_nil. intros Hall.
    specialize (Hall _ _ Hr1). unfold in_state in Hall. simpl in Hall.
    by rewrite Ha, N.eqb_refl in Hall.
  - intros i j. unfold jobs_of at 1. simpl. rewrite lookup_insert_Some.
    intros [[<- <-]|[Hne' Hi]] Hjk Hjd; [done|]. rewrite Hj1 in Hi. intros Hnone.
    apply Hne'. symmetry. eapply (Jobs.ok_unique _ Hjobs i k j job);
      [done|done| |]; apply Jobs.active_duplicate_spec; split_and!; try done; congruence.
Qed.
End Histories.

(** * A concrete inbox

    Account 1 receives direct messages 10 and 11 from 2 and 3, whom it does not
    follow, under the default policy. *)

Definition sample_text (u : uuid) : string := "1".

Definition sample_accounts : gmap uuid Relations.AccountRow :=
  {[1%N := Relations.mkAccountRow true None None 0; 2%N := Relations.mkAccountRow true None None 0;
    3%N := Relations.mkAccountRow true None None 0]}.

Definition sample_relations : Relations.Db :=
  Relations.mkDb sample_accounts ∅ ∅ ∅
    {[50%N := Relations.mkRemoteActorRow (Text.lit "social.example") None None None (Some 7) None 0]}
    ∅ ∅ ∅ ∅ ∅ ∅ ∅ ∅ (Notifications.mkDb ∅ ∅ ∅ ∅).

Definition sample_inbox : Db :=
  mkDb ∅ ∅ ∅ (Statuses.mkDb {[10%N := sample_status 2 None; 11%N := sample_status 3 None]} ∅ ∅ ∅
    sample_relations).

Definition mention_from (actor status : N) : Op Db (option Notifications.LocalNotification) :=
  notify_local_status_mention sample_text (mkAccountId 1) (mkAccountId actor) (mkStatusId status).

Definition held_message : Db := store_of (mention_from 2 10) sample_world sample_inbox.
Definition held_world : World := world_of (mention_from 2 10) sample_world sample_inbox.

Lemma sample_inbox_ok : no_requests sample_inbox.
Proof.
  split; [done|]. intros i n Hi. unfold notifications_of in Hi. simpl in Hi.
  by rewrite lookup_empty in Hi.
Qed.

Lemma held_step : step sample_text sample_inbox held_message.
Proof.
  apply (step_local_mention sample_text _ _ (mkAccountId 1) (mkAccountId 2) (mkStatusId 10)
    sample_world held_world None). vm_compute. reflexivity.
Qed.

Lemma held_message_ok : requests_ok held_message.
Proof. exact (requests_step_ok sample_text _ _ held_step (no_requests_ok _ sample_inbox_ok)). Qed.

Lemma reachable_requests_ok_witness :
  requests_ok held_message /\ requests held_message <> ∅.
Proof.
  split; [|intros H; vm_compute in H; discriminate].
  apply (reachable_requests_ok sample_text sample_inbox held_message sample_inbox_ok).
  eapply rtc_l; [apply held_step|apply rtc_refl].
Defined.

Definition accept_all : Op Db bool := accept_notification_requests sample_text (mkAccountId 1) [].
Definition accepted_store : Db := store_of accept_all held_world held_message.

Definition held_request : RequestRow :=
  default (mkRequest 0 0 None None None None Pending 0 0)
    (head (rows (requests held_message))).

Lemma accepted_requests_are_released_witness :
  requests (store_of (merge_notification_requests (mkAccountId 1)) sample_world accepted_store)
    !! req_id held_request = None.
Proof.
  assert (Hsel : selection (mkAccountId 1) [] held_message = [held_request])
    by (vm_compute; reflexivity).
  apply (accepted_requests_are_released sample_text (mkAccountId 1) [] held_world held_message
    (world_of accept_all held_world held_message) accepted_store sample_world
    (world_of (merge_notification_requests (mkAccountId 1)) sample_world accepted_store)
    (store_of (merge_notification_requests (mkAccountId 1)) sample_world accepted_store)
    held_request held_message_ok).
  - vm_compute. reflexivity.
  - vm_compute. reflexivity.
  - rewrite Hsel. left.
Defined.

(** The policy on a limited remote account that the recipient does not follow. *)
Definition limited_policy := remote_notification_policy_action (mkAccountId 1) (mkAccountId 50)
  Notifications.Favourite None.

Lemma policy_takes_strongest_rule_witness :
  value_of limited_policy sample_world sample_inbox = Ok Filter /\
  has_permission (mkAccountId 1) (ActorRemote (mkAccountId 50)) sample_inbox = false /\
  exists policy, policies (store_of limited_policy sample_world sample_inbox) !! 1%N = Some policy.
Proof.
  split; [vm_compute; reflexivity|]. split; [vm_compute; reflexivity|].
  pose proof (policy_takes_strongest_rule (mkAccountId 1) (mkAccountId 50) Notifications.Favourite
    None sample_world sample_inbox Filter (world_of limited_policy sample_world sample_inbox)
    (store_of limited_policy sample_world sample_inbox) ltac:(vm_compute; reflexivity)) as H.
  destruct (has_permission _ _ _) eqn:Hp in H; [vm_compute in Hp; discriminate|].
  destruct H as (policy & model & Hpolicy & _). exists policy. exact Hpolicy.
Defined.

(** Account 1 accepts 2's request; a worker claims the merge job and merges; 3's
    message arrives and is accepted; the worker completes the job. *)
Definition claim_merge : Op Db (option Jobs.ClaimedJob) :=
  on_jobs (Jobs.claim_due_job ∅ "worker" (minutes 5)).

Definition running_world : World :=
  world_of claim_merge (world_of accept_all held_world held_message) accepted_store.
Definition merged_store : Db :=
  store_of (merge_notification_requests (mkAccountId 1)) running_world
    (store_of claim_merge (world_of accept_all held_world held_message) accepted_store).
Definition second_message : Db := store_of (mention_from 3 11) running_world merged_store.
Definition second_world : World := world_of (mention_from 3 11) running_world merged_store.
Definition running_job : Jobs.Job :=
  default (Jobs.mkJob 0 Jobs.TrendMaintenance JNull None 0 0 None None None None 0 None None)
    (head (rows (jobs_of second_message))).

Lemma running_job_table : jobs_of second_message = {[Jobs.id running_job := running_job]}.
Proof. vm_compute. reflexivity. Qed.

Lemma running_table_ok : Jobs.table_ok (jobs_of second_message).
Proof.
  rewrite running_job_table. split.
  - intros k j Hk. apply lookup_singleton_Some in Hk as [<- <-].
    split; vm_compute;
      first [done | by split | by split; intros _; eexists | by intros [x Hx]].
  - intros k1 k2 j1 j2 s Hk1 Hk2 _ _. apply lookup_singleton_Some in Hk1 as [<- _].
    by apply lookup_singleton_Some in Hk2 as [<- _].
Qed.

Lemma second_message_ok : requests_ok second_message.
Proof.
  assert (Hacc : requests_ok accepted_store).
  { apply (use_preserves accept_all held_world held_message true
      (world_of accept_all held_world held_message));
      [vm_compute; reflexivity|apply preserves_accept|apply held_message_ok]. }
  assert (Hclaim : requests_ok (store_of claim_merge
    (world_of accept_all held_world held_message) accepted_store)).
  { eapply requests_ok_core; [apply (keeps_core_jobs _ _ _)|exact Hacc]. }
  assert (Hmerge : requests_ok merged_store).
  { apply (use_preserves (merge_notification_requests (mkAccountId 1)) running_world
      (store_of claim_merge (world_of accept_all held_world held_message) accepted_store) tt
      running_world); [vm_compute; reflexivity|apply preserves_merge|exact Hclaim]. }
  apply (use_preserves (mention_from 3 11) running_world merged_store None second_world);
    [vm_compute; reflexivity|apply preserves_local_mention|exact Hmerge].
Qed.

Lemma accept_during_merge_is_stranded_witness :
  jobs_of (store_of accept_all second_world second_message) = jobs_of second_message.
Proof.
  apply (accept_during_merge_is_stranded sample_text (mkAccountId 1) [] second_world second_message
    (world_of accept_all second_world second_message)
    (store_of accept_all second_world second_message) (Jobs.id running_job) running_job
    (default 0%N (Jobs.claim_id running_job)) second_message_ok running_table_ok);
    vm_compute; reflexivity.
Defined.
