(* ===== verification/Interactions.v ===== *)
(** Favourites, bookmarks and boosts of [crates/db/src/lib.rs], between local
    accounts and remote actors, with the per-status counters that rank trends.

    Operations run inside their caller's transaction unless they are written
    with [transaction].  The functions that open a transaction but run their
    statements on the connection ([favourite_local_status_by_remote_actor] and
    the like) are written as the autocommitted statements they are.  Accounts
    and actors that act exist; a missing status is a foreign-key violation. *)
From S2P Require Import Prelude Core Statuses.
From S2P Require Jobs Notifications Relations NotificationRequests.

(** * Data *)

(** Rows keyed by (account, status): [local_status_favourite],
    [local_status_bookmark] and [local_status_reblog]. *)
Record ActionRow := mkAction {
  act_id : uuid;
  act_created_at : time;
}.

(** [remote_status_favourite]: a remote actor's favourite of a local status. *)
Record RemoteFavouriteRow := mkRemoteFavourite {
  rfv_id : uuid;
  rfv_actor : uuid;
  rfv_status : uuid;
  rfv_activity : string;
  rfv_created_at : time;
}.

(** [local_remote_status_favourite] and [local_remote_status_reblog]: a local
    account's action on a cached remote status. *)
Record OutgoingRow := mkOutgoing {
  out_id : uuid;
  out_account : uuid;
  out_status : uuid;
  out_activity : string;
  out_created_at : time;
}.

(** [remote_status_reblog]: a remote actor's boost of a local or a cached
    remote status. *)
Record RemoteReblogRow := mkRemoteReblog {
  rrb_id : uuid;
  rrb_actor : uuid;
  rrb_local : option uuid;
  rrb_remote : option uuid;
  rrb_activity : string;
  rrb_created_at : time;
}.

(** Rows of [status_trend_metric], without the score and expiry columns that
    only the ranking of trends reads. *)
Record MetricRow := mkMetric {
  favourites_count : Z;
  reblogs_count : Z;
  published_at : time;
}.

(** (kind, target_id) of [trend_dirty]; a metric row is keyed by the kind of the
    identifier column it fills. *)
Abbreviation trend_key := (string * uuid)%type.

Record Db := mkDb {
  local_favourites : gmap (uuid * uuid) ActionRow;
  remote_favourites : gmap uuid RemoteFavouriteRow;
  outgoing_favourites : gmap uuid OutgoingRow;
  bookmarks : gmap (uuid * uuid) ActionRow;
  local_reblogs : gmap (uuid * uuid) ActionRow;
  outgoing_reblogs : gmap uuid OutgoingRow;
  remote_reblogs : gmap uuid RemoteReblogRow;
  metrics : gmap trend_key MetricRow;
  dirty : gmap trend_key time;
  requests_db : NotificationRequests.Db;
}.

Section Updates.
Context (d : Db).

Definition set_local_favourites t := mkDb t (remote_favourites d) (outgoing_favourites d)
  (bookmarks d) (local_reblogs d) (outgoing_reblogs d) (remote_reblogs d) (metrics d) (dirty d)
  (requests_db d).
Definition set_remote_favourites t := mkDb (local_favourites d) t (outgoing_favourites d)
  (bookmarks d) (local_reblogs d) (outgoing_reblogs d) (remote_reblogs d) (metrics d) (dirty d)
  (requests_db d).
Definition set_outgoing_favourites t := mkDb (local_favourites d) (remote_favourites d) t
  (bookmarks d) (local_reblogs d) (outgoing_reblogs d) (remote_reblogs d) (metrics d) (dirty d)
  (requests_db d).
Definition set_bookmarks t := mkDb (local_favourites d) (remote_favourites d)
  (outgoing_favourites d) t (local_reblogs d) (outgoing_reblogs d) (remote_reblogs d) (metrics d)
  (dirty d) (requests_db d).
Definition set_local_reblogs t := mkDb (local_favourites d) (remote_favourites d)
  (outgoing_favourites d) (bookmarks d) t (outgoing_reblogs d) (remote_reblogs d) (metrics d)
  (dirty d) (requests_db d).
Definition set_outgoing_reblogs t := mkDb (local_favourites d) (remote_favourites d)
  (outgoing_favourites d) (bookmarks d) (local_reblogs d) t (remote_reblogs d) (metrics d)
  (dirty d) (requests_db d).
Definition set_remote_reblogs t := mkDb (local_favourites d) (remote_favourites d)
  (outgoing_favourites d) (bookmarks d) (local_reblogs d) (outgoing_reblogs d) t (metrics d)
  (dirty d) (requests_db d).
Definition set_trends m t := mkDb (local_favourites d) (remote_favourites d)
  (outgoing_favourites d) (bookmarks d) (local_reblogs d) (outgoing_reblogs d) (remote_reblogs d)
  m t (requests_db d).
End Updates.

#[export, refine] Instance requests_part : Part NotificationRequests.Db Db :=
  {| get_part := requests_db;
     put_part := fun r d => mkDb (local_favourites d) (remote_favourites d)
       (outgoing_favourites d) (bookmarks d) (local_reblogs d) (outgoing_reblogs d)
       (remote_reblogs d) (metrics d) (dirty d) r |}.
Proof. all: by intros *; try destruct s. Defined.

Definition on_relations {A} (m : Op Relations.Db A) : Op Db A :=
  zoom (NotificationRequests.on_relations m).

Definition enqueue (job : Jobs.NewJob) : Op Db unit :=
  zoom (NotificationRequests.on_jobs (Jobs.enqueue_job_in_transaction job));; mret tt.

Definition statuses_of (d : Db) : Statuses.Db := NotificationRequests.statuses (requests_db d).

Definition foreign_key (b : bool) (name : string) : Op Db unit :=
  if b then mret tt else throw (Database (ForeignKeyViolation name)).

Definition has_local_status (s : uuid) (d : Db) : bool :=
  bool_decide (is_Some (local_statuses (statuses_of d) !! s)).
Definition has_remote_status (s : uuid) (d : Db) : bool :=
  bool_decide (is_Some (remote_statuses (statuses_of d) !! s)).

(** * Trend counters *)

Inductive TrendTarget : Type :=
| LocalStatus (id : StatusId)
| RemoteStatus (id : StatusId)
| Tag (id : uuid).

Definition persisted (t : TrendTarget) : trend_key :=
  match t with
  | LocalStatus i => ("local_status"%string, status_uuid i)
  | RemoteStatus i => ("remote_status"%string, status_uuid i)
  | Tag i => ("tag"%string, i)
  end.

Definition mark_trend_dirty (key : trend_key) : Op Db unit :=
  now ← now_utc;
  modify (fun d => set_trends d (metrics d) (<[key := now]> (dirty d))).

(** The publication time of a status row, which the INSERT selects from. *)
Definition published (key : trend_key) (d : Db) : option time :=
  if bool_decide (fst key = "local_status"%string)
  then ls_created_at <$> local_statuses (statuses_of d) !! snd key
  else rs_published_at <$> remote_statuses (statuses_of d) !! snd key.

(** INSERT .. SELECT .. ON CONFLICT DO UPDATE. *)
Definition adjusted_metric (old : option MetricRow) (favourites reblogs : Z) (at_ : time) :
    MetricRow :=
  match old with
  | None => mkMetric (Z.max favourites 0) (Z.max reblogs 0) at_
  | Some m => mkMetric (Z.max (favourites_count m + favourites) 0)
                (Z.max (reblogs_count m + reblogs) 0) at_
  end.

Definition adjust_status_trend (target : TrendTarget) (favourite_delta reblog_delta : Z) :
    Op Db unit :=
  match target with
  | Tag _ => throw (InvalidInput "tag is not a status trend target")
  | _ =>
      let key := persisted target in
      d ← gets (fun d => d);
      match published key d with
      | Some at_ =>
          modify (fun d => set_trends d
            (<[key := adjusted_metric (metrics d !! key) favourite_delta reblog_delta at_]> (metrics d))
            (dirty d))
      | None => mret tt
      end;;
      mark_trend_dirty key
  end.

(** * Favourites *)

Definition favourite_local_status (account : AccountId) (status : StatusId) : Op Db unit :=
  d ← gets (fun d => d);
  let key := (account_uuid account, status_uuid status) in
  match local_favourites d !! key with
  | Some _ => mret tt
  | None =>
      i ← uuid_now_v7;
      now ← now_utc;
      foreign_key (has_local_status (status_uuid status) d) "local_status_favourite_status_id_fkey";;
      modify (fun d => set_local_favourites d (<[key := mkAction i now]> (local_favourites d)));;
      adjust_status_trend (LocalStatus status) 1 0
  end.

(** What follows the read of [unfavourite_local_status]: the DELETE of a row that
    a concurrent transaction removed affects no row, and is not checked. *)
Definition unfavourite_local_write (account : AccountId) (status : StatusId) : Op Db unit :=
  modify (fun d => set_local_favourites d
    (delete (account_uuid account, status_uuid status) (local_favourites d)));;
  adjust_status_trend (LocalStatus status) (-1) 0.

Definition unfavourite_local_status (account : AccountId) (status : StatusId) : Op Db unit :=
  d ← gets (fun d => d);
  match local_favourites d !! (account_uuid account, status_uuid status) with
  | Some _ => unfavourite_local_write account status
  | None => mret tt
  end.

Definition remote_favourite_of (actor : AccountId) (status : StatusId) (f : RemoteFavouriteRow) : bool :=
  (rfv_actor f =? account_uuid actor)%N && (rfv_status f =? status_uuid status)%N.

(** A violated key of [remote_status_favourite]. *)
Definition remote_favourite_conflict (f : RemoteFavouriteRow) (t : gmap uuid RemoteFavouriteRow) : bool :=
  bool_decide (is_Some (t !! rfv_id f))
  || negb (bool_decide (rows_where (fun g => (rfv_actor g =? rfv_actor f)%N
                                             && (rfv_status g =? rfv_status f)%N
                                             || bool_decide (rfv_activity g = rfv_activity f)) t = [])).

Definition new_remote_favourite (actor : AccountId) (status : StatusId) (activity : string) :
    Op Db RemoteFavouriteRow :=
  i ← uuid_now_v7;
  now ← now_utc;
  mret (mkRemoteFavourite i (account_uuid actor) (status_uuid status) activity now).

Definition insert_remote_favourite (f : RemoteFavouriteRow) : Op Db unit :=
  d ← gets (fun d => d);
  foreign_key (has_local_status (rfv_status f) d) "remote_status_favourite_local_status_id_fkey";;
  modify (fun d => set_remote_favourites d (<[rfv_id f := f]> (remote_favourites d))).

Definition favourite_local_status_by_remote_actor (actor : AccountId) (status : StatusId)
    (activity : string) : Op Db bool :=
  d ← gets (fun d => d);
  match rows_where (remote_favourite_of actor status) (remote_favourites d) with
  | _ :: _ => mret false
  | [] =>
      f ← new_remote_favourite actor status activity;
      if remote_favourite_conflict f (remote_favourites d)
      then throw (Database (UniqueViolation "remote_status_favourite"))
      else
        insert_remote_favourite f;;
        adjust_status_trend (LocalStatus status) 1 0;;
        mret true
  end.

Definition of_activity (actor : AccountId) (activity : string) (f : RemoteFavouriteRow) : bool :=
  (rfv_actor f =? account_uuid actor)%N && bool_decide (rfv_activity f = activity).

(** The write of the functions that remove a remote favourite they have read. *)
Definition delete_remote_favourite (f : RemoteFavouriteRow) : Op Db unit :=
  modify (fun d => set_remote_favourites d (delete (rfv_id f) (remote_favourites d)));;
  adjust_status_trend (LocalStatus (mkStatusId (rfv_status f))) (-1) 0.

Definition unfavourite_local_status_by_remote_actor (actor : AccountId) (activity : string) :
    Op Db bool :=
  d ← gets (fun d => d);
  match head (rows_where (of_activity actor activity) (remote_favourites d)) with
  | Some f => delete_remote_favourite f;; mret true
  | None => mret false
  end.

Definition process_remote_undo_like (actor : AccountId) (activity : string) : Op Db bool :=
  d ← gets (fun d => d);
  match head (rows_where (of_activity actor activity) (remote_favourites d)) with
  | Some f => delete_remote_favourite f
  | None => mret tt
  end;;
  mret true.

Section Like.
Context (uuid_text : uuid -> string).

Definition process_remote_like (actor : AccountId) (status : StatusId) (activity : string)
    (recipient : AccountId) : Op Db (option Notifications.LocalNotification) :=
  blocked ← on_relations (Relations.local_remote_accounts_are_blocked recipient actor);
  if (blocked : bool) then mret None
  else
    f ← new_remote_favourite actor status activity;
    d ← gets (fun d => d);
    let newly_inserted := negb (remote_favourite_conflict f (remote_favourites d)) in
    when newly_inserted
      (insert_remote_favourite f;; adjust_status_trend (LocalStatus status) 1 0);;
    if negb newly_inserted then mret None
    else
      allowed ← on_relations (Relations.remote_account_allows_notification recipient actor);
      if (allowed : bool)
      then zoom (NotificationRequests.notify_remote_actor_favourite uuid_text recipient actor status)
      else mret None.
End Like.

Definition outgoing_of (account : AccountId) (status : StatusId) (o : OutgoingRow) : bool :=
  (out_account o =? account_uuid account)%N && (out_status o =? status_uuid status)%N.

(** A violated key of one of the two outgoing tables. *)
Definition outgoing_conflict (o : OutgoingRow) (t : gmap uuid OutgoingRow) : bool :=
  bool_decide (is_Some (t !! out_id o))
  || negb (bool_decide (rows_where (fun p => (out_account p =? out_account o)%N
                                             && (out_status p =? out_status o)%N
                                             || bool_decide (out_activity p = out_activity o)) t = [])).

Definition new_outgoing (account : AccountId) (status : StatusId) (activity : string) :
    Op Db OutgoingRow :=
  i ← uuid_now_v7;
  now ← now_utc;
  mret (mkOutgoing i (account_uuid account) (status_uuid status) activity now).

Definition insert_outgoing_favourite (o : OutgoingRow) : Op Db unit :=
  d ← gets (fun d => d);
  foreign_key (has_remote_status (out_status o) d)
    "local_remote_status_favourite_remote_status_id_fkey";;
  modify (fun d => set_outgoing_favourites d (<[out_id o := o]> (outgoing_favourites d)));;
  adjust_status_trend (RemoteStatus (mkStatusId (out_status o))) 1 0.

Definition favourite_remote_status (account : AccountId) (status : StatusId) (activity : string) :
    Op Db unit :=
  d ← gets (fun d => d);
  match rows_where (outgoing_of account status) (outgoing_favourites d) with
  | _ :: _ => mret tt
  | [] =>
      o ← new_outgoing account status activity;
      if outgoing_conflict o (outgoing_favourites d)
      then throw (Database (UniqueViolation "local_remote_status_favourite"))
      else insert_outgoing_favourite o
  end.

Definition favourite_remote_status_with_job (account : AccountId) (status : StatusId)
    (activity : string) (job : Jobs.NewJob) : Op Db unit :=
  o ← new_outgoing account status activity;
  d ← gets (fun d => d);
  when (negb (outgoing_conflict o (outgoing_favourites d))) (insert_outgoing_favourite o);;
  enqueue job.

Definition delete_outgoing_favourite (o : OutgoingRow) : Op Db unit :=
  modify (fun d => set_outgoing_favourites d (delete (out_id o) (outgoing_favourites d)));;
  adjust_status_trend (RemoteStatus (mkStatusId (out_status o))) (-1) 0.

Definition find_remote_status_favourite (account : AccountId) (status : StatusId) :
    Op Db (option OutgoingRow) :=
  gets (fun d => head (rows_where (outgoing_of account status) (outgoing_favourites d))).

Definition unfavourite_remote_status (account : AccountId) (status : StatusId) :
    Op Db (option OutgoingRow) :=
  found ← find_remote_status_favourite account status;
  match found with
  | None => mret None
  | Some o => delete_outgoing_favourite o;; mret (Some o)
  end.

Definition unfavourite_remote_status_with_job (account : AccountId) (status : StatusId)
    (job : Jobs.NewJob) : Op Db (option OutgoingRow) :=
  found ← find_remote_status_favourite account status;
  match found with
  | None => mret None
  | Some o => delete_outgoing_favourite o;; enqueue job;; mret (Some o)
  end.

(** [SELECT count] over a table keyed by (account, status). *)
Definition actions_on (status : uuid) (t : gmap (uuid * uuid) ActionRow) : Z :=
  Z.of_nat (length (List.filter (fun kv => (kv.1.2 =? status)%N) (map_to_list t))).

Definition count_local_favourites (status : StatusId) : Op Db Z :=
  gets (fun d =>
    actions_on (status_uuid status) (local_favourites d)
    + Z.of_nat (count_where (fun f => (rfv_status f =? status_uuid status)%N) (remote_favourites d))).

Definition is_local_status_favourited (account : AccountId) (status : StatusId) : Op Db bool :=
  gets (fun d => bool_decide (is_Some
    (local_favourites d !! (account_uuid account, status_uuid status)))).

Definition is_remote_status_favourited (account : AccountId) (status : StatusId) : Op Db bool :=
  gets (fun d => negb (bool_decide
    (rows_where (outgoing_of account status) (outgoing_favourites d) = []))).

(** * Bookmarks *)

Definition bookmark_local_status (account : AccountId) (status : StatusId) : Op Db unit :=
  d ← gets (fun d => d);
  let key := (account_uuid account, status_uuid status) in
  match bookmarks d !! key with
  | Some _ => mret tt
  | None =>
      i ← uuid_now_v7;
      now ← now_utc;
      foreign_key (has_local_status (status_uuid status) d) "local_status_bookmark_status_id_fkey";;
      modify (fun d => set_bookmarks d (<[key := mkAction i now]> (bookmarks d)))
  end.

Definition unbookmark_local_status (account : AccountId) (status : StatusId) : Op Db unit :=
  modify (fun d => set_bookmarks d (delete (account_uuid account, status_uuid status) (bookmarks d))).

Definition is_local_status_bookmarked (account : AccountId) (status : StatusId) : Op Db bool :=
  gets (fun d => bool_decide (is_Some (bookmarks d !! (account_uuid account, status_uuid status)))).

(** * Boosts *)

Definition reblog_local_status (account : AccountId) (status : StatusId) : Op Db ActionRow :=
  d ← gets (fun d => d);
  let key := (account_uuid account, status_uuid status) in
  match local_reblogs d !! key with
  | Some r => mret r
  | None =>
      i ← uuid_now_v7;
      now ← now_utc;
      foreign_key (has_local_status (status_uuid status) d) "local_status_reblog_status_id_fkey";;
      modify (fun d => set_local_reblogs d (<[key := mkAction i now]> (local_reblogs d)));;
      adjust_status_trend (LocalStatus status) 0 1;;
      mret (mkAction i now)
  end.

Definition unreblog_local_write (account : AccountId) (status : StatusId) : Op Db unit :=
  modify (fun d => set_local_reblogs d
    (delete (account_uuid account, status_uuid status) (local_reblogs d)));;
  adjust_status_trend (LocalStatus status) 0 (-1).

Definition unreblog_local_status (account : AccountId) (status : StatusId) :
    Op Db (option ActionRow) :=
  d ← gets (fun d => d);
  match local_reblogs d !! (account_uuid account, status_uuid status) with
  | Some r => unreblog_local_write account status;; mret (Some r)
  | None => mret None
  end.

Definition find_remote_status_reblog (account : AccountId) (status : StatusId) :
    Op Db (option OutgoingRow) :=
  gets (fun d => head (rows_where (outgoing_of account status) (outgoing_reblogs d))).

Definition insert_outgoing_reblog (o : OutgoingRow) : Op Db unit :=
  d ← gets (fun d => d);
  if outgoing_conflict o (outgoing_reblogs d)
  then throw (Database (UniqueViolation "local_remote_status_reblog"))
  else
    foreign_key (has_remote_status (out_status o) d)
      "local_remote_status_reblog_remote_status_id_fkey";;
    modify (fun d => set_outgoing_reblogs d (<[out_id o := o]> (outgoing_reblogs d)));;
    adjust_status_trend (RemoteStatus (mkStatusId (out_status o))) 0 1.

Definition reblog_remote_status (account : AccountId) (status : StatusId) (activity : string) :
    Op Db OutgoingRow :=
  existing ← find_remote_status_reblog account status;
  match existing with
  | Some o => mret o
  | None =>
      o ← new_outgoing account status activity;
      insert_outgoing_reblog o;;
      mret o
  end.

Definition reblog_remote_status_with_job (account : AccountId) (status : StatusId)
    (activity : string) (job : Jobs.NewJob) : Op Db OutgoingRow :=
  model ← reblog_remote_status account status activity;
  enqueue job;;
  mret model.

Definition delete_outgoing_reblog (o : OutgoingRow) : Op Db unit :=
  modify (fun d => set_outgoing_reblogs d (delete (out_id o) (outgoing_reblogs d)));;
  adjust_status_trend (RemoteStatus (mkStatusId (out_status o))) 0 (-1).

Definition unreblog_remote_status (account : AccountId) (status : StatusId) :
    Op Db (option OutgoingRow) :=
  found ← find_remote_status_reblog account status;
  match found with
  | None => mret None
  | Some o => delete_outgoing_reblog o;; mret (Some o)
  end.

Definition unreblog_remote_status_with_job (account : AccountId) (status : StatusId)
    (job : Jobs.NewJob) : Op Db (option OutgoingRow) :=
  found ← find_remote_status_reblog account status;
  match found with
  | None => mret None
  | Some o => delete_outgoing_reblog o;; enqueue job;; mret (Some o)
  end.

Definition is_remote_status_reblogged (account : AccountId) (status : StatusId) : Op Db bool :=
  gets (fun d => negb (bool_decide
    (rows_where (outgoing_of account status) (outgoing_reblogs d) = []))).

Inductive RemoteStatusReblogTarget : Type :=
| TargetLocal (id : StatusId)
| TargetRemote (id : StatusId).

Definition trend_of (t : RemoteStatusReblogTarget) : TrendTarget :=
  match t with TargetLocal i => LocalStatus i | TargetRemote i => RemoteStatus i end.

Definition target_columns (t : RemoteStatusReblogTarget) : option uuid * option uuid :=
  match t with
  | TargetLocal i => (Some (status_uuid i), None)
  | TargetRemote i => (None, Some (status_uuid i))
  end.

(** [local_status_id = $1 AND remote_status_id = $2], where SeaORM writes IS NULL
    for an absent value. *)
Definition reblog_of (actor : AccountId) (t : RemoteStatusReblogTarget) (r : RemoteReblogRow) : bool :=
  (rrb_actor r =? account_uuid actor)%N
  && bool_decide (rrb_local r = fst (target_columns t))
  && bool_decide (rrb_remote r = snd (target_columns t)).

Definition remote_reblog_conflict (r : RemoteReblogRow) (t : gmap uuid RemoteReblogRow) : bool :=
  bool_decide (is_Some (t !! rrb_id r))
  || negb (bool_decide (rows_where (fun s => bool_decide (rrb_activity s = rrb_activity r)
       || (rrb_actor s =? rrb_actor r)%N
          && (Notifications.null_conflict (rrb_local s) (rrb_local r)
              || Notifications.null_conflict (rrb_remote s) (rrb_remote r))) t = [])).

Definition has_target (t : RemoteStatusReblogTarget) (d : Db) : bool :=
  match t with
  | TargetLocal i => has_local_status (status_uuid i) d
  | TargetRemote i => has_remote_status (status_uuid i) d
  end.

Definition reblog_status_by_remote_actor (actor : AccountId) (target : RemoteStatusReblogTarget)
    (activity : string) : Op Db bool :=
  d ← gets (fun d => d);
  match rows_where (reblog_of actor target) (remote_reblogs d) with
  | _ :: _ => mret false
  | [] =>
      i ← uuid_now_v7;
      now ← now_utc;
      let r := mkRemoteReblog i (account_uuid actor) (fst (target_columns target))
                 (snd (target_columns target)) activity now in
      if remote_reblog_conflict r (remote_reblogs d)
      then throw (Database (UniqueViolation "remote_status_reblog"))
      else
        foreign_key (has_target target d) "remote_status_reblog_status_id_fkey";;
        modify (fun d => set_remote_reblogs d (<[i := r]> (remote_reblogs d)));;
        adjust_status_trend (trend_of target) 0 1;;
        mret true
  end.

(** [remote_status_reblog_from_model]. *)
Definition reblog_target (r : RemoteReblogRow) : option RemoteStatusReblogTarget :=
  match rrb_local r, rrb_remote r with
  | Some s, None => Some (TargetLocal (mkStatusId s))
  | None, Some s => Some (TargetRemote (mkStatusId s))
  | _, _ => None
  end.

Definition of_reblog_activity (actor : AccountId) (activity : string) (r : RemoteReblogRow) : bool :=
  (rrb_actor r =? account_uuid actor)%N && bool_decide (rrb_activity r = activity).

Definition delete_remote_reblog (r : RemoteReblogRow) : Op Db unit :=
  modify (fun d => set_remote_reblogs d (delete (rrb_id r) (remote_reblogs d))).

Definition unreblog_status_by_remote_actor (actor : AccountId) (activity : string) :
    Op Db (option RemoteReblogRow) :=
  d ← gets (fun d => d);
  match head (rows_where (of_reblog_activity actor activity) (remote_reblogs d)) with
  | None => mret None
  | Some r =>
      match reblog_target r with
      | None => mret None
      | Some t =>
          delete_remote_reblog r;;
          adjust_status_trend (trend_of t) 0 (-1);;
          mret (Some r)
      end
  end.

Definition process_remote_undo_reblog (actor : AccountId) (activity : string) :
    Op Db (option RemoteReblogRow) :=
  d ← gets (fun d => d);
  match head (rows_where (of_reblog_activity actor activity) (remote_reblogs d)) with
  | None => mret None
  | Some r =>
      delete_remote_reblog r;;
      match reblog_target r with
      | None => mret None
      | Some t => adjust_status_trend (trend_of t) 0 (-1);; mret (Some r)
      end
  end.

Definition find_remote_status_reblog_by_activity_id (actor : AccountId) (activity : string) :
    Op Db (option RemoteReblogRow) :=
  gets (fun d => head (rows_where (of_reblog_activity actor activity) (remote_reblogs d))
                 ≫= fun r => match reblog_target r with Some _ => Some r | None => None end).

Definition count_local_reblogs (status : StatusId) : Op Db Z :=
  gets (fun d =>
    actions_on (status_uuid status) (local_reblogs d)
    + Z.of_nat (count_where (fun r => bool_decide (rrb_local r = Some (status_uuid status)))
                  (remote_reblogs d))).

Definition is_local_status_reblogged (account : AccountId) (status : StatusId) : Op Db bool :=
  gets (fun d => bool_decide (is_Some
    (local_reblogs d !! (account_uuid account, status_uuid status)))).

(** * Removal with an actor or a remote status *)

Definition interaction_targets (actor : uuid) (d : Db) : list trend_key :=
  ((fun f => ("local_status"%string, rfv_status f)) <$>
     rows_where (fun f => (rfv_actor f =? actor)%N) (remote_favourites d))
  ++ ((fun r => match rrb_local r with
                | Some s => ("local_status"%string, s)
                | None => ("remote_status"%string, default 0%N (rrb_remote r)) end) <$>
        rows_where (fun r => (rrb_actor r =? actor)%N) (remote_reblogs d)).

Definition mark_all_dirty (keys : list trend_key) (now : time) (t : gmap trend_key time) :
    gmap trend_key time := foldr (fun k t => <[k := now]> t) t keys.

Definition mark_remote_actor_interactions_dirty (actor : AccountId) : Op Db unit :=
  now ← now_utc;
  modify (fun d => set_trends d (metrics d)
    (mark_all_dirty (interaction_targets (account_uuid actor) d) now (dirty d))).

(** The part of [process_remote_actor_delete] that concerns these tables. *)
Definition delete_actor_interactions (actor : AccountId) : Op Db unit :=
  mark_remote_actor_interactions_dirty actor;;
  modify (fun d => set_remote_reblogs d
    (delete_where (fun r => (rrb_actor r =? account_uuid actor)%N) (remote_reblogs d)));;
  modify (fun d => set_remote_favourites d
    (delete_where (fun f => (rfv_actor f =? account_uuid actor)%N) (remote_favourites d))).

(** The part of [repair_one_remote_status_delete] that concerns these tables. *)
Definition delete_status_interactions (status : StatusId) : Op Db unit :=
  mark_trend_dirty (persisted (RemoteStatus status));;
  modify (fun d => set_outgoing_favourites d
    (delete_where (fun o => (out_status o =? status_uuid status)%N) (outgoing_favourites d)));;
  modify (fun d => set_outgoing_reblogs d
    (delete_where (fun o => (out_status o =? status_uuid status)%N) (outgoing_reblogs d)));;
  modify (fun d => set_remote_reblogs d
    (delete_where (fun r => bool_decide (rrb_remote r = Some (status_uuid status)))
       (remote_reblogs d))).

(** * Refreshing the counters *)

(** The two count queries of [refresh_status_trend]. *)
Definition favourites_of (key : trend_key) (d : Db) : Z :=
  if bool_decide (fst key = "local_status"%string)
  then actions_on (snd key) (local_favourites d)
       + Z.of_nat (count_where (fun f => (rfv_status f =? snd key)%N) (remote_favourites d))
  else Z.of_nat (count_where (fun o => (out_status o =? snd key)%N) (outgoing_favourites d)).

Definition reblogs_of (key : trend_key) (d : Db) : Z :=
  if bool_decide (fst key = "local_status"%string)
  then actions_on (snd key) (local_reblogs d)
       + Z.of_nat (count_where (fun r => bool_decide (rrb_local r = Some (snd key))) (remote_reblogs d))
  else Z.of_nat (count_where (fun o => (out_status o =? snd key)%N) (outgoing_reblogs d))
       + Z.of_nat (count_where (fun r => bool_decide (rrb_remote r = Some (snd key))) (remote_reblogs d)).

(** [refresh_status_trend]: recount a status that exists; the UPDATE changes
    nothing when the status has no metric row. *)
Definition refresh_status_trend (key : trend_key) : Op Db unit :=
  d ← gets (fun d => d);
  match published key d with
  | None => mret tt
  | Some at_ =>
      match metrics d !! key with
      | Some _ => modify (fun d => set_trends d
          (<[key := mkMetric (favourites_of key d) (reblogs_of key d) at_]> (metrics d)) (dirty d))
      | None => mret tt
      end
  end.

Definition BATCH_SIZE : nat := 100.

(** ORDER BY touched_at, kind, target_id. *)
Definition dirty_order (a b : trend_key * time) : bool :=
  (snd a <? snd b)
  || (snd a =? snd b)
     && match String.compare (fst (fst a)) (fst (fst b)) with
        | Lt => true
        | Eq => (snd (fst a) <=? snd (fst b))%N
        | Gt => false
        end.

Definition is_status_kind (kind : string) : bool :=
  bool_decide (kind = "local_status"%string) || bool_decide (kind = "remote_status"%string).

(** One claimed row; tags and links refresh other tables. *)
Definition refresh_row (key : trend_key) : Op Db unit :=
  (if is_status_kind (fst key) then refresh_status_trend key
   else if bool_decide (fst key = "tag"%string) || bool_decide (fst key = "link"%string)
   then mret tt
   else throw (InvalidInput "stored trend target kind is invalid"));;
  modify (fun d => set_trends d (metrics d) (delete key (dirty d))).

(** [maintain_trends]: [ranked] are the targets with a score of at least one,
    which every run refreshes; [locked] the rows another worker holds. *)
Definition maintain_trends (locked : gset trend_key) (ranked : list trend_key) : Op Db (bool * nat) :=
  transaction (
    touched ← now_utc;
    modify (fun d => set_trends d (metrics d)
      (dirty d ∪ list_to_map ((fun k => (k, touched)) <$> ranked)));;
    claimed ← gets (fun d => firstn BATCH_SIZE (order_by dirty_order
      (List.filter (fun kt => negb (bool_decide (fst kt ∈ locked))) (map_to_list (dirty d)))));
    for_each (fst <$> claimed) refresh_row;;
    has_more ← gets (fun d => negb (bool_decide (dirty d = ∅)));
    mret (Commit (has_more, length claimed))).

(** The worker's handler: a continuation is enqueued while targets remain; the
    pruning of preview cards that ends a drained refresh is not modelled. *)
Definition trend_maintenance_job (uuid_text : uuid -> string) (locked : gset trend_key)
    (ranked : list trend_key) (job : JobId) : Op Db bool :=
  outcome ← maintain_trends locked ranked;
  if fst (outcome : bool * nat)
  then
    now ← now_utc;
    enqueue (Jobs.mkNewJob Jobs.TrendMaintenance (JObject [])
      (Some ("trend-refresh-continuation:" +:+ uuid_text (job_uuid job))%string) now);;
    mret true
  else mret false.
