(* ===== verification/InteractionsInvariant.v ===== *)
(** What the interaction tables guarantee: the trend counters agree with the
    stored interactions or their status is marked for refresh, a refresh makes
    them agree, likes are applied once and undone exactly, and when a refresh
    run comes to an end. *)
From S2P Require Import Prelude Core Statuses Interactions.
From S2P Require Jobs Notifications Relations NotificationRequests RequestsInvariant.

#[local] Existing Instance NotificationRequests.statuses_part.

(** * Counting *)

Lemma actions_on_insert (s : uuid) (t : gmap (uuid * uuid) ActionRow) (k : uuid * uuid) v :
  t !! k = None ->
  actions_on s (<[k := v]> t) = (if (k.2 =? s)%N then 1 else 0) + actions_on s t.
Proof.
  intros Hk. unfold actions_on.
  rewrite (filter_Permutation _ _ _ (map_to_list_insert t k v Hk)). simpl.
  destruct (k.2 =? s)%N; simpl length; lia.
Qed.

Lemma actions_on_delete (s : uuid) (t : gmap (uuid * uuid) ActionRow) (k : uuid * uuid) :
  actions_on s t =
  (if bool_decide (is_Some (t !! k)) then if (k.2 =? s)%N then 1 else 0 else 0)
  + actions_on s (delete k t).
Proof.
  destruct (t !! k) as [v|] eqn:Hk.
  - rewrite bool_decide_true by (by eexists).
    rewrite <- (insert_delete_id t k v Hk) at 1. apply actions_on_insert, lookup_delete_eq.
  - rewrite bool_decide_false by (by intros [? ?]). by rewrite delete_id.
Qed.

Lemma actions_on_nonneg s t : 0 <= actions_on s t.
Proof. unfold actions_on. lia. Qed.

Section Counting.
Context {V : Type}.
Implicit Types (p q : V -> bool) (t : gmap uuid V).

Lemma zcount_where_delete p t k :
  Z.of_nat (count_where p t) =
  (match t !! k with Some v => if p v then 1 else 0 | None => 0 end)
  + Z.of_nat (count_where p (delete k t)).
Proof.
  destruct (t !! k) as [v|] eqn:Hk.
  - rewrite <- (insert_delete_id t k v Hk) at 1.
    rewrite count_where_insert_fresh by apply lookup_delete_eq. destruct (p v); lia.
  - by rewrite delete_id.
Qed.
End Counting.

Lemma zcount_where_insert {V} (p : V -> bool) (t : gmap uuid V) (k : uuid) v :
  t !! k = None ->
  Z.of_nat (count_where p (<[k := v]> t)) =
  (if p v then 1 else 0) + Z.of_nat (count_where p t).
Proof. intros Hk. rewrite count_where_insert_fresh by done. destruct (p v); lia. Qed.

(** * The invariant *)

Definition local_key (s : uuid) : trend_key := ("local_status"%string, s).
Definition remote_key (s : uuid) : trend_key := ("remote_status"%string, s).

Definition counts (key : trend_key) (d : Db) : Z * Z := (favourites_of key d, reblogs_of key d).
Definition metric_counts (m : MetricRow) : Z * Z := (favourites_count m, reblogs_count m).

Lemma counts_local s d :
  counts (local_key s) d =
  (actions_on s (local_favourites d)
     + Z.of_nat (count_where (fun f => (rfv_status f =? s)%N) (remote_favourites d)),
   actions_on s (local_reblogs d)
     + Z.of_nat (count_where (fun r => bool_decide (rrb_local r = Some s)) (remote_reblogs d))).
Proof. reflexivity. Qed.

Lemma counts_remote s d :
  counts (remote_key s) d =
  (Z.of_nat (count_where (fun o => (out_status o =? s)%N) (outgoing_favourites d)),
   Z.of_nat (count_where (fun o => (out_status o =? s)%N) (outgoing_reblogs d))
     + Z.of_nat (count_where (fun r => bool_decide (rrb_remote r = Some s)) (remote_reblogs d))).
Proof. reflexivity. Qed.

Lemma status_key_cases (key : trend_key) :
  is_status_kind (fst key) = true -> exists x, key = local_key x \/ key = remote_key x.
Proof.
  destruct key as [kind s]. unfold is_status_kind. simpl.
  rewrite orb_true_iff, !bool_decide_eq_true. unfold local_key, remote_key.
  intros H; exists s; destruct H as [->| ->]; auto.
Qed.

Record keys_ok (d : Db) : Prop := {
  remote_favourite_keys : forall k f, remote_favourites d !! k = Some f -> rfv_id f = k;
  outgoing_favourite_keys : forall k o, outgoing_favourites d !! k = Some o -> out_id o = k;
  outgoing_reblog_keys : forall k o, outgoing_reblogs d !! k = Some o -> out_id o = k;
  remote_reblog_keys : forall k r, remote_reblogs d !! k = Some r ->
    rrb_id r = k /\ exists t, (rrb_local r, rrb_remote r) = target_columns t;
}.

Record trends_ok (d : Db) : Prop := {
  trend_keys : keys_ok d;
  exact : forall key m, is_status_kind (fst key) = true -> metrics d !! key = Some m ->
    dirty d !! key = None -> metric_counts m = counts key d;
  counted : forall key, is_status_kind (fst key) = true -> metrics d !! key = None ->
    counts key d = (0, 0);
  backed : forall key m, is_status_kind (fst key) = true -> metrics d !! key = Some m ->
    is_Some (published key d);
}.

(** A change to the interactions with one status, before its counter follows. *)
Record touches (key : trend_key) (d d1 : Db) : Prop := {
  touched_keys : keys_ok d1;
  touched_metrics : metrics d1 = metrics d;
  touched_dirty : dirty d1 = dirty d;
  touched_store : requests_db d1 = requests_db d;
  touched_others : forall key', is_status_kind (fst key') = true -> key' <> key ->
    counts key' d1 = counts key' d;
  touched_missing : published key d = None -> counts key d1 = (0, 0);
}.

Definition target_key (t : TrendTarget) : option trend_key :=
  match t with Tag _ => None | _ => Some (persisted t) end.

Definition same_tables (d d' : Db) : Prop :=
  local_favourites d' = local_favourites d /\ remote_favourites d' = remote_favourites d /\
  outgoing_favourites d' = outgoing_favourites d /\ bookmarks d' = bookmarks d /\
  local_reblogs d' = local_reblogs d /\ outgoing_reblogs d' = outgoing_reblogs d /\
  remote_reblogs d' = remote_reblogs d /\ requests_db d' = requests_db d.

Lemma same_tables_set d m t : same_tables d (set_trends d m t).
Proof. by repeat split. Qed.

Lemma keys_ok_same d d' : same_tables d d' -> keys_ok d -> keys_ok d'.
Proof.
  intros (_ & H1 & H2 & _ & _ & H3 & H4 & _) [K1 K2 K3 K4].
  split; rewrite ?H1, ?H2, ?H3, ?H4; auto.
Qed.

Lemma adjust_run target fd rd w d key :
  target_key target = Some key ->
  adjust_status_trend target fd rd w d =
  (Ok tt, world_of (now_utc : Op Db time) w d,
   set_trends d
     (match published key d with
      | Some at_ => <[key := adjusted_metric (metrics d !! key) fd rd at_]> (metrics d)
      | None => metrics d end)
     (<[key := w_clock w (w_ticks w)]> (dirty d))).
Proof.
  intros Hkey. unfold adjust_status_trend, mark_trend_dirty.
  destruct target; [injection Hkey as <-|injection Hkey as <-|done]; run_unfold; simpl;
    by destruct (published _ d).
Qed.

Lemma target_key_kind target key :
  target_key target = Some key -> is_status_kind (fst key) = true.
Proof. destruct target; by intros [= <-]. Qed.

Lemma touches_adjust target fd rd w d d1 key :
  trends_ok d -> touches key d d1 -> target_key target = Some key ->
  exists d', adjust_status_trend target fd rd w d1 = (Ok tt, world_of (now_utc : Op Db time) w d1, d')
    /\ trends_ok d' /\ same_tables d1 d'.
Proof.
  intros [K1 K2 K3 K4] [T1 T2 T3 T4 T5 T6] Hkey. eexists. split; [by apply adjust_run|].
  split; [|apply same_tables_set].
  assert (Hpub : forall k, published k d1 = published k d)
    by (intros k; unfold published, statuses_of; by rewrite T4).
  rewrite T2, T3, Hpub. split; simpl.
  - eapply keys_ok_same; [apply same_tables_set|done].
  - intros k m Hk Hm. rewrite lookup_insert. case_decide as Hne; [done|]. intros Hd.
    change (metric_counts m = counts k d1). rewrite T5 by (try done; congruence).
    apply K2; [done| |done]. destruct (published key d); [|done].
    by rewrite lookup_insert_ne in Hm by congruence.
  - intros k Hk Hm. change (counts k d1 = (0, 0)).
    destruct (decide (k = key)) as [->|Hne].
    + destruct (published key d); [by rewrite lookup_insert_eq in Hm|by apply T6].
    + rewrite T5 by done. apply K3; [done|]. destruct (published key d); [|done].
      by rewrite lookup_insert_ne in Hm by congruence.
  - intros k m Hk Hm. change (is_Some (published k d1)). rewrite Hpub.
    destruct (decide (k = key)) as [->|Hne].
    { destruct (published key d) eqn:Hp; [by eexists|]. rewrite <- Hp. by apply (K4 key m). }
    apply (K4 k m Hk). destruct (published key d); [|done].
    by rewrite lookup_insert_ne in Hm by congruence.
Qed.

(** ** One interaction more or less *)

Lemma published_local s d : has_local_status s d = true -> published (local_key s) d <> None.
Proof.
  unfold has_local_status, published. simpl. intros [x Hx]%bool_decide_eq_true. by rewrite Hx.
Qed.

Lemma published_remote s d : has_remote_status s d = true -> published (remote_key s) d <> None.
Proof.
  unfold has_remote_status, published. simpl. intros [x Hx]%bool_decide_eq_true. by rewrite Hx.
Qed.

(** A status without a row has no metric and so no interactions. *)
Lemma missing_counts d key :
  trends_ok d -> is_status_kind (fst key) = true -> published key d = None -> counts key d = (0, 0).
Proof.
  intros Hok Hk Hp. apply (counted d Hok); [done|]. destruct (metrics d !! key) eqn:Hm; [|done].
  destruct (backed d Hok key m Hk Hm) as [? ?]. congruence.
Qed.

Definition key_eqb (a b : uuid) : Z := if (a =? b)%N then 1 else 0.

Lemma local_key_ne x s : local_key x <> local_key s -> (s =? x)%N = false.
Proof. intros H. apply N.eqb_neq. intros ->. by apply H. Qed.
Lemma remote_key_ne x s : remote_key x <> remote_key s -> (s =? x)%N = false.
Proof. intros H. apply N.eqb_neq. intros ->. by apply H. Qed.

(** The counts of the other statuses, given how the changed table counts. *)
Ltac solve_others :=
  intros key' Hkind Hother; destruct (status_key_cases key' Hkind) as [x [-> | ->]];
  rewrite ?counts_local, ?counts_remote; simpl.

(** The counts of the changed status when it has no row. *)
Ltac solve_missing Hok key :=
  intros Hp; pose proof (missing_counts _ key Hok eq_refl Hp) as Hzero;
  rewrite ?counts_local, ?counts_remote in *; simpl;
  injection Hzero as Hz1 Hz2; f_equal.

Section Touches.
Context (d : Db) (Hok : trends_ok d).

Lemma touch_insert_local_favourite a s act :
  local_favourites d !! (a, s) = None -> has_local_status s d = true ->
  touches (local_key s) d (set_local_favourites d (<[(a, s) := act]> (local_favourites d))).
Proof using Hok.
  intros Hnew Hs. destruct (trend_keys d Hok) as [K1 K2 K3 K4]. split; try done.
  - solve_others; [|done]. rewrite actions_on_insert by done. simpl.
    by rewrite (local_key_ne _ _ Hother).
  - intros Hp. by apply published_local in Hs.
Qed.

Lemma touch_delete_local_favourite a s :
  touches (local_key s) d (set_local_favourites d (delete (a, s) (local_favourites d))).
Proof using Hok.
  destruct (trend_keys d Hok) as [K1 K2 K3 K4].
  assert (Hcount : forall x, actions_on x (local_favourites d) =
    (if bool_decide (is_Some (local_favourites d !! (a, s))) then if (s =? x)%N then 1 else 0 else 0)
    + actions_on x (delete (a, s) (local_favourites d)))
    by (intros x; apply (actions_on_delete x (local_favourites d) (a, s))).
  split; try done.
  - solve_others; [|done]. rewrite (Hcount x), (local_key_ne _ _ Hother).
    by case_bool_decide.
  - solve_missing Hok (local_key s); [|done].
    pose proof (actions_on_nonneg s (delete (a, s) (local_favourites d))).
    rewrite (Hcount s) in Hz1. destruct (bool_decide _), (s =? s)%N; lia.
Qed.

Lemma touch_insert_local_reblog a s act :
  local_reblogs d !! (a, s) = None -> has_local_status s d = true ->
  touches (local_key s) d (set_local_reblogs d (<[(a, s) := act]> (local_reblogs d))).
Proof using Hok.
  intros Hnew Hs. destruct (trend_keys d Hok) as [K1 K2 K3 K4]. split; try done.
  - solve_others; [|done]. rewrite actions_on_insert by done. simpl.
    by rewrite (local_key_ne _ _ Hother).
  - intros Hp. by apply published_local in Hs.
Qed.

Lemma touch_delete_local_reblog a s :
  touches (local_key s) d (set_local_reblogs d (delete (a, s) (local_reblogs d))).
Proof using Hok.
  destruct (trend_keys d Hok) as [K1 K2 K3 K4].
  assert (Hcount : forall x, actions_on x (local_reblogs d) =
    (if bool_decide (is_Some (local_reblogs d !! (a, s))) then if (s =? x)%N then 1 else 0 else 0)
    + actions_on x (delete (a, s) (local_reblogs d)))
    by (intros x; apply (actions_on_delete x (local_reblogs d) (a, s))).
  split; try done.
  - solve_others; [|done]. rewrite (Hcount x), (local_key_ne _ _ Hother).
    by case_bool_decide.
  - solve_missing Hok (local_key s); [done|].
    pose proof (actions_on_nonneg s (delete (a, s) (local_reblogs d))).
    rewrite (Hcount s) in Hz2. destruct (bool_decide _), (s =? s)%N; lia.
Qed.

Lemma touch_insert_remote_favourite f :
  remote_favourites d !! rfv_id f = None -> has_local_status (rfv_status f) d = true ->
  touches (local_key (rfv_status f)) d
    (set_remote_favourites d (<[rfv_id f := f]> (remote_favourites d))).
Proof using Hok.
  intros Hnew Hs. destruct (trend_keys d Hok) as [K1 K2 K3 K4]. split; try done.
  - split; simpl; auto. intros k g. rewrite lookup_insert_Some. intros [[<- <-]|[_ Hk]]; auto.
  - solve_others; [|done]. rewrite zcount_where_insert by done.
    by rewrite (local_key_ne _ _ Hother).
  - intros Hp. by apply published_local in Hs.
Qed.

Lemma touch_delete_remote_favourite f :
  remote_favourites d !! rfv_id f = Some f ->
  touches (local_key (rfv_status f)) d
    (set_remote_favourites d (delete (rfv_id f) (remote_favourites d))).
Proof using Hok.
  intros Hf. destruct (trend_keys d Hok) as [K1 K2 K3 K4].
  assert (Hcount : forall p, Z.of_nat (count_where p (remote_favourites d)) =
    (if p f then 1 else 0) + Z.of_nat (count_where p (delete (rfv_id f) (remote_favourites d))))
    by (intros p; rewrite (zcount_where_delete p _ (rfv_id f)); by rewrite Hf).
  split; try done.
  - split; simpl; auto. intros k g. rewrite lookup_delete_Some. intros [_ Hk]; auto.
  - solve_others; [|done]. by rewrite (Hcount (fun f => _)), (local_key_ne _ _ Hother).
  - solve_missing Hok (local_key (rfv_status f)); [|done].
    rewrite (Hcount (fun f => _)), N.eqb_refl in Hz1.
    pose proof (actions_on_nonneg (rfv_status f) (local_favourites d)). lia.
Qed.

Lemma touch_insert_outgoing_favourite o :
  outgoing_favourites d !! out_id o = None -> has_remote_status (out_status o) d = true ->
  touches (remote_key (out_status o)) d
    (set_outgoing_favourites d (<[out_id o := o]> (outgoing_favourites d))).
Proof using Hok.
  intros Hnew Hs. destruct (trend_keys d Hok) as [K1 K2 K3 K4]. split; try done.
  - split; simpl; auto. intros k g. rewrite lookup_insert_Some. intros [[<- <-]|[_ Hk]]; auto.
  - solve_others; [done|]. rewrite zcount_where_insert by done.
    by rewrite (remote_key_ne _ _ Hother).
  - intros Hp. by apply published_remote in Hs.
Qed.

Lemma touch_delete_outgoing_favourite o :
  outgoing_favourites d !! out_id o = Some o ->
  touches (remote_key (out_status o)) d
    (set_outgoing_favourites d (delete (out_id o) (outgoing_favourites d))).
Proof using Hok.
  intros Hf. destruct (trend_keys d Hok) as [K1 K2 K3 K4].
  assert (Hcount : forall p, Z.of_nat (count_where p (outgoing_favourites d)) =
    (if p o then 1 else 0) + Z.of_nat (count_where p (delete (out_id o) (outgoing_favourites d))))
    by (intros p; rewrite (zcount_where_delete p _ (out_id o)); by rewrite Hf).
  split; try done.
  - split; simpl; auto. intros k g. rewrite lookup_delete_Some. intros [_ Hk]; auto.
  - solve_others; [done|]. by rewrite (Hcount (fun f => _)), (remote_key_ne _ _ Hother).
  - solve_missing Hok (remote_key (out_status o)); [|done].
    rewrite (Hcount (fun f => _)), N.eqb_refl in Hz1. lia.
Qed.

Lemma touch_insert_outgoing_reblog o :
  outgoing_reblogs d !! out_id o = None -> has_remote_status (out_status o) d = true ->
  touches (remote_key (out_status o)) d
    (set_outgoing_reblogs d (<[out_id o := o]> (outgoing_reblogs d))).
Proof using Hok.
  intros Hnew Hs. destruct (trend_keys d Hok) as [K1 K2 K3 K4]. split; try done.
  - split; simpl; auto. intros k g. rewrite lookup_insert_Some. intros [[<- <-]|[_ Hk]]; auto.
  - solve_others; [done|]. rewrite zcount_where_insert by done.
    by rewrite (remote_key_ne _ _ Hother).
  - intros Hp. by apply published_remote in Hs.
Qed.

Lemma touch_delete_outgoing_reblog o :
  outgoing_reblogs d !! out_id o = Some o ->
  touches (remote_key (out_status o)) d
    (set_outgoing_reblogs d (delete (out_id o) (outgoing_reblogs d))).
Proof using Hok.
  intros Hf. destruct (trend_keys d Hok) as [K1 K2 K3 K4].
  assert (Hcount : forall p, Z.of_nat (count_where p (outgoing_reblogs d)) =
    (if p o then 1 else 0) + Z.of_nat (count_where p (delete (out_id o) (outgoing_reblogs d))))
    by (intros p; rewrite (zcount_where_delete p _ (out_id o)); by rewrite Hf).
  split; try done.
  - split; simpl; auto. intros k g. rewrite lookup_delete_Some. intros [_ Hk]; auto.
  - solve_others; [done|]. by rewrite (Hcount (fun f => _)), (remote_key_ne _ _ Hother).
  - solve_missing Hok (remote_key (out_status o)); [done|].
    rewrite (Hcount (fun f => _)), N.eqb_refl in Hz2. lia.
Qed.

(** Which counter a remote boost belongs to. *)
Lemma reblog_column_other t r key :
  (rrb_local r, rrb_remote r) = target_columns t -> key <> persisted (trend_of t) ->
  (forall x, key = local_key x -> rrb_local r <> Some x) /\
  (forall x, key = remote_key x -> rrb_remote r <> Some x).
Proof using Type.
  destruct t as [[i]|[i]]; simpl; intros [= Hl Hr] Hne; rewrite Hl, Hr;
    split; intros x ->; try done; by intros [= ->].
Qed.

Lemma touch_insert_remote_reblog r t :
  (rrb_local r, rrb_remote r) = target_columns t ->
  remote_reblogs d !! rrb_id r = None -> has_target t d = true ->
  touches (persisted (trend_of t)) d (set_remote_reblogs d (<[rrb_id r := r]> (remote_reblogs d))).
Proof using Hok.
  intros Hcol Hnew Ht. destruct (trend_keys d Hok) as [K1 K2 K3 K4]. split; try done.
  - split; simpl; auto. intros k g. rewrite lookup_insert_Some. intros [[<- <-]|[_ Hk]]; eauto.
  - intros key' Hkind Hother.
    destruct (reblog_column_other t r key' Hcol Hother) as [Hl Hr].
    destruct (status_key_cases key' Hkind) as [x [-> | ->]];
      rewrite ?counts_local, ?counts_remote; simpl; rewrite zcount_where_insert by done;
      rewrite bool_decide_false by auto; done.
  - intros Hp. destruct t as [i|i]; simpl in *;
      [by apply published_local in Ht|by apply published_remote in Ht].
Qed.

Lemma touch_delete_remote_reblog r t :
  (rrb_local r, rrb_remote r) = target_columns t -> remote_reblogs d !! rrb_id r = Some r ->
  touches (persisted (trend_of t)) d (set_remote_reblogs d (delete (rrb_id r) (remote_reblogs d))).
Proof using Hok.
  intros Hcol Hr. destruct (trend_keys d Hok) as [K1 K2 K3 K4].
  assert (Hcount : forall p, Z.of_nat (count_where p (remote_reblogs d)) =
    (if p r then 1 else 0) + Z.of_nat (count_where p (delete (rrb_id r) (remote_reblogs d))))
    by (intros p; rewrite (zcount_where_delete p _ (rrb_id r)); by rewrite Hr).
  split; try done.
  - split; simpl; auto. intros k g. rewrite lookup_delete_Some. intros [_ Hk]; auto.
  - intros key' Hkind Hother.
    destruct (reblog_column_other t r key' Hcol Hother) as [Hlo Hre].
    destruct (status_key_cases key' Hkind) as [x [-> | ->]];
      rewrite ?counts_local, ?counts_remote; simpl; rewrite (Hcount (fun r => _));
      rewrite bool_decide_false by auto; done.
  - destruct t as [[i]|[i]]; injection Hcol as Hlo Hre; simpl.
    + solve_missing Hok (local_key i); [done|].
      rewrite (Hcount (fun r => _)), bool_decide_true in Hz2 by done.
      pose proof (actions_on_nonneg i (local_reblogs d)). lia.
    + solve_missing Hok (remote_key i); [done|].
      rewrite (Hcount (fun r => _)), bool_decide_true in Hz2 by done. lia.
Qed.
End Touches.

(** * Operations *)

Definition preserves {A} (m : Op Db A) : Prop :=
  forall w d a w' d', trends_ok d -> m w d = (Ok a, w', d') -> trends_ok d'.

Lemma trends_bind {A B} (m : Op Db A) (k : A -> Op Db B) :
  preserves m -> (forall a, preserves (k a)) -> preserves (m ≫= k).
Proof.
  intros Hm Hk w d b w' d' Hok H. inv_bind H a w1 d1 Ha. eapply Hk; [|done]. by eapply Hm.
Qed.

Lemma trends_ret {A} (a : A) : preserves (mret a).
Proof. by intros w d b w' d' Hok [= _ _ <-]. Qed.
Lemma trends_gets {A} (f : Db -> A) : preserves (gets f).
Proof. by intros w d b w' d' Hok [= _ _ <-]. Qed.
Lemma trends_now : preserves now_utc.
Proof. by intros w d b w' d' Hok [= _ _ <-]. Qed.
Lemma trends_uuid : preserves uuid_now_v7.
Proof. by intros w d b w' d' Hok [= _ _ <-]. Qed.
Lemma trends_throw {A} e : preserves (throw e : Op Db A).
Proof. by intros w d b w' d' Hok. Qed.

(** Work in the rest of the store that leaves the status rows alone. *)
Lemma trends_ok_rest d r :
  NotificationRequests.statuses r = statuses_of d \/
  local_statuses (NotificationRequests.statuses r) = local_statuses (statuses_of d) /\
  remote_statuses (NotificationRequests.statuses r) = remote_statuses (statuses_of d) ->
  trends_ok d -> trends_ok (put_part r d).
Proof.
  intros Hst [K1 K2 K3 K4].
  assert (Hpub : forall k, published k (put_part r d) = published k d).
  { intros k. unfold published, statuses_of in *. simpl.
    destruct Hst as [->|[-> ->]]; done. }
  split; auto.
  - by destruct K1; split.
  - intros k m Hk Hm. rewrite Hpub. by apply (K4 k m).
Qed.

(** The status rows of the rest of the store. *)
Definition status_rows (r : NotificationRequests.Db) :=
  (local_statuses (NotificationRequests.statuses r), remote_statuses (NotificationRequests.statuses r)).

Lemma preserves_rest {A} (m : Op NotificationRequests.Db A) :
  keeps status_rows m -> preserves (zoom m).
Proof.
  intros Hm w d a w' d' Hok H. unfold zoom in H. simpl in H.
  destruct (m w (requests_db d)) as [[res w1] r] eqn:Hrun.
  apply (keeps_run _ _ _ _ _ _ _ Hm) in Hrun. injection Hrun as Hl Hr.
  injection H as _ _ <-. apply (trends_ok_rest d r); [by right|done].
Qed.

Lemma keeps_rows_relations {A} (m : Op Relations.Db A) :
  keeps status_rows (NotificationRequests.on_relations m).
Proof.
  intros w r. unfold store_of, NotificationRequests.on_relations, zoom; simpl.
  by destruct (m w _) as [[? ?] ?].
Qed.

Lemma keeps_rows_started recipient actor l r :
  keeps status_rows (zoom (recipient_started_private_thread recipient actor l r)
    : Op NotificationRequests.Db bool).
Proof.
  intros w d. unfold store_of, zoom, recipient_started_private_thread. simpl.
  by case_bool_decide.
Qed.

Lemma keeps_rows_policy account : keeps status_rows (NotificationRequests.notification_policy account).
Proof. unfold NotificationRequests.notification_policy. solve_keeps. Qed.

(** [solve_keeps] with the frames of this file tried first. *)
Ltac solve_rows :=
  repeat (first
    [ apply keeps_rows_started
    | apply keeps_rows_relations
    | apply keeps_rows_policy
    | apply keeps_bind
    | match goal with |- forall _, _ => intro end
    | apply keeps_lift_option
    | done
    | match goal with |- keeps _ (let x := ?v in _) => cbv zeta end
    | match goal with |- keeps _ (match ?x with _ => _ end) => destruct x end ]).

Lemma keeps_rows_favourite uuid_text account actor status :
  keeps status_rows (NotificationRequests.notify_remote_actor_favourite uuid_text account actor status).
Proof.
  unfold NotificationRequests.notify_remote_actor_favourite, NotificationRequests.find_event,
    NotificationRequests.insert_by_policy, NotificationRequests.remote_notification_policy_action,
    NotificationRequests.find_status_row, NotificationRequests.thread_test,
    NotificationRequests.insert_notification, NotificationRequests.active_notification_request_id,
    NotificationRequests.on_notifications.
  solve_rows.
Qed.

Lemma preserves_enqueue job : preserves (enqueue job).
Proof.
  apply trends_bind; [|intros ?; apply trends_ret].
  apply preserves_rest, keeps_rows_relations.
Qed.

Lemma foreign_key_run b name w d a w' d' :
  foreign_key b name w d = (Ok a, w', d') -> b = true /\ w' = w /\ d' = d.
Proof. unfold foreign_key. destruct b; [by intros [= _ <- <-]|done]. Qed.

(** A write to the interactions of one status, then the adjustment. *)
Lemma touch_adjust f target fd rd key w d w' d' :
  trends_ok d -> touches key d (f d) -> target_key target = Some key ->
  (modify f;; adjust_status_trend target fd rd) w d = (Ok tt, w', d') ->
  trends_ok d' /\ same_tables (f d) d'.
Proof.
  intros Hok Ht Hk H. inv_bind H u w1 d1 Hm. injection Hm as <- <- <-.
  destruct (touches_adjust target fd rd w d (f d) key Hok Ht Hk) as (d2 & Hrun & Hok2 & Hs).
  rewrite Hrun in H. by injection H as _ <-.
Qed.

(** The same, the write already run. *)
Lemma adjust_after target fd rd key w d d1 a w' d' :
  trends_ok d -> touches key d d1 -> target_key target = Some key ->
  adjust_status_trend target fd rd w d1 = (Ok a, w', d') -> trends_ok d'.
Proof.
  intros Hok Ht Hk H. destruct (touches_adjust target fd rd w d d1 key Hok Ht Hk) as (d2 & Hrun & Hok2 & _).
  rewrite Hrun in H. by injection H as _ _ <-.
Qed.

Lemma preserves_favourite_local account status : preserves (favourite_local_status account status).
Proof.
  intros w d a w' d' Hok H. unfold favourite_local_status in H.
  inv_bind H d0 w0 d1 Hd. injection Hd as <- <- <-.
  destruct (local_favourites d !! _) eqn:Hnew; [by injection H as _ _ <-|].
  inv_bind H i w1 d2 Hi. injection Hi as <- <- <-. inv_bind H now w2 d3 Hn. injection Hn as <- <- <-.
  inv_bind H u w3 d4 Hf. apply foreign_key_run in Hf as (Hs & -> & ->). destruct a.
  eapply touch_adjust in H as [Hok' _]; [done|done| |reflexivity].
  by apply touch_insert_local_favourite.
Qed.

Lemma preserves_unfavourite_write account status : preserves (unfavourite_local_write account status).
Proof.
  intros w d a w' d' Hok H. destruct a.
  eapply touch_adjust in H as [Hok' _]; [done|done| |reflexivity].
  by apply touch_delete_local_favourite.
Qed.

Lemma preserves_unfavourite_local account status : preserves (unfavourite_local_status account status).
Proof.
  apply trends_bind; [apply trends_gets|]. intros d.
  destruct (_ !! _); [apply preserves_unfavourite_write|apply trends_ret].
Qed.

Lemma remote_favourite_conflict_fresh f t :
  remote_favourite_conflict f t = false -> t !! rfv_id f = None.
Proof.
  unfold remote_favourite_conflict. rewrite orb_false_iff, bool_decide_eq_false.
  intros [H _]. by apply eq_None_not_Some.
Qed.

Lemma outgoing_conflict_fresh o t : outgoing_conflict o t = false -> t !! out_id o = None.
Proof.
  unfold outgoing_conflict. rewrite orb_false_iff, bool_decide_eq_false.
  intros [H _]. by apply eq_None_not_Some.
Qed.

(** Insert a remote favourite that conflicts with none and count it. *)
Lemma insert_remote_favourite_run f w d a w' d' :
  trends_ok d -> remote_favourites d !! rfv_id f = None ->
  (insert_remote_favourite f;; adjust_status_trend (LocalStatus (mkStatusId (rfv_status f))) 1 0)
    w d = (Ok a, w', d') ->
  trends_ok d' /\
  same_tables (set_remote_favourites d (<[rfv_id f := f]> (remote_favourites d))) d'.
Proof.
  intros Hok Hnew H. inv_bind H u w1 d1 Hi. unfold insert_remote_favourite in Hi.
  inv_bind Hi d0 w2 d2 Hd. injection Hd as <- <- <-.
  inv_bind Hi v w3 d3 Hf. apply foreign_key_run in Hf as (Hs & -> & ->).
  destruct a. apply (touch_adjust (fun d => set_remote_favourites d
      (<[rfv_id f := f]> (remote_favourites d))) (LocalStatus (mkStatusId (rfv_status f))) 1 0
      (local_key (rfv_status f)) w d w' d' Hok); [by apply touch_insert_remote_favourite|done|].
  apply bind_Ok. by exists u, w1, d1.
Qed.

Lemma delete_remote_favourite_run f w d a w' d' :
  trends_ok d -> remote_favourites d !! rfv_id f = Some f ->
  delete_remote_favourite f w d = (Ok a, w', d') ->
  trends_ok d' /\ same_tables (set_remote_favourites d (delete (rfv_id f) (remote_favourites d))) d'.
Proof.
  intros Hok Hf H. destruct a. eapply touch_adjust in H; [done|done| |reflexivity].
  by apply touch_delete_remote_favourite.
Qed.

Lemma preserves_insert_remote_favourite f :
  forall w d a w' d', trends_ok d -> remote_favourite_conflict f (remote_favourites d) = false ->
  (insert_remote_favourite f;; adjust_status_trend (LocalStatus (mkStatusId (rfv_status f))) 1 0)
    w d = (Ok a, w', d') -> trends_ok d'.
Proof.
  intros w d a w' d' Hok Hc%remote_favourite_conflict_fresh H.
  by apply (insert_remote_favourite_run f w d a w' d' Hok Hc).
Qed.

Lemma new_remote_favourite_run actor status activity w d f w' d' :
  new_remote_favourite actor status activity w d = (Ok f, w', d') ->
  d' = d /\ rfv_actor f = account_uuid actor /\ rfv_status f = status_uuid status
  /\ rfv_activity f = activity.
Proof. by intros [= <- _ <-]. Qed.

Lemma new_outgoing_run account status activity w d o w' d' :
  new_outgoing account status activity w d = (Ok o, w', d') ->
  d' = d /\ out_account o = account_uuid account /\ out_status o = status_uuid status
  /\ out_activity o = activity.
Proof. by intros [= <- _ <-]. Qed.

Lemma preserves_favourite_remote_actor actor status activity :
  preserves (favourite_local_status_by_remote_actor actor status activity).
Proof.
  intros w d a w' d' Hok H. unfold favourite_local_status_by_remote_actor in H.
  inv_bind H d0 w0 d1 Hd. injection Hd as <- <- <-.
  destruct (rows_where _ _); [|by injection H as _ _ <-].
  inv_bind H f w1 d2 Hf. apply new_remote_favourite_run in Hf as (-> & _ & Hs & _).
  destruct (remote_favourite_conflict f _) eqn:Hc; [done|].
  inv_bind H u w2 d3 Hi. inv_bind H v w3 d4 Ha. injection H as _ _ <-.
  eapply (preserves_insert_remote_favourite f w1 d v); [done|done|].
  apply bind_Ok. exists u, w2, d3. split; [done|]. rewrite Hs. by destruct status.
Qed.

Lemma preserves_delete_remote_favourite (p : RemoteFavouriteRow -> bool) f w d a w' d' :
  trends_ok d -> head (rows_where p (remote_favourites d)) = Some f ->
  delete_remote_favourite f w d = (Ok a, w', d') -> trends_ok d'.
Proof.
  intros Hok Hh H.
  apply (head_row_keyed p _ rfv_id) in Hh as [Hf _];
    [|apply (remote_favourite_keys _ (trend_keys _ Hok))].
  by apply delete_remote_favourite_run in H as [? _].
Qed.

Lemma preserves_unfavourite_remote_actor actor activity :
  preserves (unfavourite_local_status_by_remote_actor actor activity).
Proof.
  intros w d a w' d' Hok H. unfold unfavourite_local_status_by_remote_actor in H.
  inv_bind H d0 w0 d1 Hd. injection Hd as <- <- <-.
  destruct (head _) as [f|] eqn:Hh; [|by injection H as _ _ <-].
  inv_bind H u w1 d2 Hu. injection H as _ _ <-. by eapply preserves_delete_remote_favourite.
Qed.

Lemma preserves_undo_like actor activity : preserves (process_remote_undo_like actor activity).
Proof.
  intros w d a w' d' Hok H. unfold process_remote_undo_like in H.
  inv_bind H d0 w0 d1 Hd. injection Hd as <- <- <-.
  inv_bind H u w1 d2 Hu. injection H as _ _ <-.
  destruct (head _) as [f|] eqn:Hh; [|by injection Hu as _ _ <-].
  by eapply preserves_delete_remote_favourite.
Qed.

(** Reading the relations leaves the interactions alone. *)
Lemma preserves_relations {A} (m : Op Relations.Db A) : preserves (on_relations m).
Proof. apply preserves_rest, keeps_rows_relations. Qed.

Lemma preserves_like uuid_text actor status activity recipient :
  preserves (process_remote_like uuid_text actor status activity recipient).
Proof.
  apply trends_bind; [apply preserves_relations|]. intros [|]; [apply trends_ret|].
  intros w d a w' d' Hok H.
  inv_bind H f w1 d1 Hf. apply new_remote_favourite_run in Hf as (-> & _ & Hs & _).
  inv_bind H d0 w2 d2 Hd. injection Hd as <- <- <-.
  inv_bind H u w3 d3 Hu. destruct (remote_favourite_conflict f _) eqn:Hc; simpl in Hu, H.
  { injection Hu as _ <- <-. by injection H as _ _ <-. }
  assert (trends_ok d3) as Hok3.
  { eapply (preserves_insert_remote_favourite f w1 d u w3); [done|done|].
    rewrite Hs. by destruct status. }
  revert H. generalize w3. clear -Hok3. intros w H.
  assert (preserves (allowed ← on_relations (Relations.remote_account_allows_notification recipient actor);
      if (allowed : bool)
      then zoom (NotificationRequests.notify_remote_actor_favourite uuid_text recipient actor status)
      else mret None)) as Hp; [|by eapply Hp].
  apply trends_bind; [apply preserves_relations|]. intros [|]; [|apply trends_ret].
  apply preserves_rest, keeps_rows_favourite.
Qed.

(** ** Outgoing favourites and boosts *)

Lemma preserves_insert_outgoing_favourite o w d a w' d' :
  trends_ok d -> outgoing_conflict o (outgoing_favourites d) = false ->
  insert_outgoing_favourite o w d = (Ok a, w', d') -> trends_ok d'.
Proof.
  intros Hok Hc%outgoing_conflict_fresh H. unfold insert_outgoing_favourite in H.
  inv_bind H d0 w0 d1 Hd. injection Hd as <- <- <-.
  inv_bind H u w1 d2 Hf. apply foreign_key_run in Hf as (Hs & -> & ->). destruct a.
  eapply touch_adjust in H as [Hok' _]; [done|done| |reflexivity].
  by apply touch_insert_outgoing_favourite.
Qed.

Lemma preserves_favourite_remote account status activity :
  preserves (favourite_remote_status account status activity).
Proof.
  intros w d a w' d' Hok H. unfold favourite_remote_status in H.
  inv_bind H d0 w0 d1 Hd. injection Hd as <- <- <-.
  destruct (rows_where _ _); [|by injection H as _ _ <-].
  inv_bind H o w1 d2 Ho. apply new_outgoing_run in Ho as (-> & _).
  destruct (outgoing_conflict o _) eqn:Hc; [done|]. by eapply preserves_insert_outgoing_favourite.
Qed.

Lemma preserves_favourite_remote_with_job account status activity job :
  preserves (favourite_remote_status_with_job account status activity job).
Proof.
  intros w d a w' d' Hok H. unfold favourite_remote_status_with_job in H.
  inv_bind H o w1 d1 Ho. apply new_outgoing_run in Ho as (-> & _).
  inv_bind H d0 w2 d2 Hd. injection Hd as <- <- <-. inv_bind H u w3 d3 Hu.
  apply (preserves_enqueue job) in H; [done|].
  destruct (outgoing_conflict o _) eqn:Hc; simpl in Hu; [by injection Hu as _ _ <-|].
  by eapply preserves_insert_outgoing_favourite.
Qed.

Lemma preserves_delete_outgoing_favourite (p : OutgoingRow -> bool) o w d a w' d' :
  trends_ok d -> head (rows_where p (outgoing_favourites d)) = Some o ->
  delete_outgoing_favourite o w d = (Ok a, w', d') -> trends_ok d'.
Proof.
  intros Hok Hh H.
  apply (head_row_keyed p _ out_id) in Hh as [Ho _];
    [|apply (outgoing_favourite_keys _ (trend_keys _ Hok))].
  destruct a. eapply touch_adjust in H as [Hok' _]; [done|done| |reflexivity].
  by apply touch_delete_outgoing_favourite.
Qed.

Lemma preserves_unfavourite_remote account status :
  preserves (unfavourite_remote_status account status).
Proof.
  intros w d a w' d' Hok H. unfold unfavourite_remote_status, find_remote_status_favourite in H.
  inv_bind H found w0 d1 Hd. injection Hd as <- <- <-.
  destruct (head _) as [o|] eqn:Hh; [|by injection H as _ _ <-].
  inv_bind H u w1 d2 Hu. injection H as _ _ <-. by eapply preserves_delete_outgoing_favourite.
Qed.

Lemma preserves_unfavourite_remote_with_job account status job :
  preserves (unfavourite_remote_status_with_job account status job).
Proof.
  intros w d a w' d' Hok H.
  unfold unfavourite_remote_status_with_job, find_remote_status_favourite in H.
  inv_bind H found w0 d1 Hd. injection Hd as <- <- <-.
  destruct (head _) as [o|] eqn:Hh; [|by injection H as _ _ <-].
  inv_bind H u w1 d2 Hu. inv_bind H v w2 d3 Hv. injection H as _ _ <-.
  apply (preserves_enqueue job) in Hv; [done|]. by eapply preserves_delete_outgoing_favourite.
Qed.

Lemma preserves_insert_outgoing_reblog o : preserves (insert_outgoing_reblog o).
Proof.
  intros w d a w' d' Hok H. unfold insert_outgoing_reblog in H.
  inv_bind H d0 w0 d1 Hd. injection Hd as <- <- <-.
  destruct (outgoing_conflict o _) eqn:Hc; [done|]. apply outgoing_conflict_fresh in Hc.
  inv_bind H u w1 d2 Hf. apply foreign_key_run in Hf as (Hs & -> & ->). destruct a.
  eapply touch_adjust in H as [Hok' _]; [done|done| |reflexivity].
  by apply touch_insert_outgoing_reblog.
Qed.

Lemma preserves_new_outgoing account status activity :
  preserves (new_outgoing account status activity).
Proof. intros w d a w' d' Hok H. by apply new_outgoing_run in H as (-> & _). Qed.

Lemma preserves_reblog_remote account status activity :
  preserves (reblog_remote_status account status activity).
Proof.
  apply trends_bind; [apply trends_gets|]. intros [o|]; [apply trends_ret|].
  apply trends_bind; [apply preserves_new_outgoing|]. intros o.
  apply trends_bind; [apply preserves_insert_outgoing_reblog|intros _; apply trends_ret].
Qed.

Lemma preserves_reblog_remote_with_job account status activity job :
  preserves (reblog_remote_status_with_job account status activity job).
Proof.
  apply trends_bind; [apply preserves_reblog_remote|]. intros o.
  apply trends_bind; [apply preserves_enqueue|intros _; apply trends_ret].
Qed.

Lemma preserves_delete_outgoing_reblog (p : OutgoingRow -> bool) o w d a w' d' :
  trends_ok d -> head (rows_where p (outgoing_reblogs d)) = Some o ->
  delete_outgoing_reblog o w d = (Ok a, w', d') -> trends_ok d'.
Proof.
  intros Hok Hh H.
  apply (head_row_keyed p _ out_id) in Hh as [Ho _];
    [|apply (outgoing_reblog_keys _ (trend_keys _ Hok))].
  destruct a. eapply touch_adjust in H as [Hok' _]; [done|done| |reflexivity].
  by apply touch_delete_outgoing_reblog.
Qed.

Lemma preserves_unreblog_remote account status :
  preserves (unreblog_remote_status account status).
Proof.
  intros w d a w' d' Hok H. unfold unreblog_remote_status, find_remote_status_reblog in H.
  inv_bind H found w0 d1 Hd. injection Hd as <- <- <-.
  destruct (head _) as [o|] eqn:Hh; [|by injection H as _ _ <-].
  inv_bind H u w1 d2 Hu. injection H as _ _ <-. by eapply preserves_delete_outgoing_reblog.
Qed.

Lemma preserves_unreblog_remote_with_job account status job :
  preserves (unreblog_remote_status_with_job account status job).
Proof.
  intros w d a w' d' Hok H.
  unfold unreblog_remote_status_with_job, find_remote_status_reblog in H.
  inv_bind H found w0 d1 Hd. injection Hd as <- <- <-.
  destruct (head _) as [o|] eqn:Hh; [|by injection H as _ _ <-].
  inv_bind H u w1 d2 Hu. inv_bind H v w2 d3 Hv. injection H as _ _ <-.
  apply (preserves_enqueue job) in Hv; [done|]. by eapply preserves_delete_outgoing_reblog.
Qed.

(** ** Boosts of local statuses *)

Lemma preserves_reblog_local account status : preserves (reblog_local_status account status).
Proof.
  intros w d a w' d' Hok H. unfold reblog_local_status in H.
  inv_bind H d0 w0 d1 Hd. injection Hd as <- <- <-.
  destruct (local_reblogs d !! _) eqn:Hnew; [by injection H as _ _ <-|].
  inv_bind H i w1 d2 Hi. injection Hi as <- <- <-. inv_bind H now w2 d3 Hn. injection Hn as <- <- <-.
  inv_bind H u w3 d4 Hf. apply foreign_key_run in Hf as (Hs & -> & ->).
  inv_bind H v w4 d5 Hm. injection Hm as <- <- <-. inv_bind H x w5 d6 Ha. injection H as _ _ <-.
  eapply adjust_after in Ha; [done|done| |reflexivity]. by apply touch_insert_local_reblog.
Qed.

Lemma preserves_unreblog_write account status : preserves (unreblog_local_write account status).
Proof.
  intros w d a w' d' Hok H. destruct a.
  eapply touch_adjust in H as [Hok' _]; [done|done| |reflexivity].
  by apply touch_delete_local_reblog.
Qed.

Lemma preserves_unreblog_local account status : preserves (unreblog_local_status account status).
Proof.
  apply trends_bind; [apply trends_gets|]. intros d.
  destruct (_ !! _); [|apply trends_ret].
  apply trends_bind; [apply preserves_unreblog_write|intros _; apply trends_ret].
Qed.

(** ** Boosts by remote actors *)

Lemma remote_reblog_conflict_fresh r t :
  remote_reblog_conflict r t = false -> t !! rrb_id r = None.
Proof.
  unfold remote_reblog_conflict. rewrite orb_false_iff, bool_decide_eq_false.
  intros [H _]. by apply eq_None_not_Some.
Qed.

Lemma target_key_reblog t : target_key (trend_of t) = Some (persisted (trend_of t)).
Proof. by destruct t. Qed.

Lemma preserves_reblog_by_remote_actor actor target activity :
  preserves (reblog_status_by_remote_actor actor target activity).
Proof.
  intros w d a w' d' Hok H. unfold reblog_status_by_remote_actor in H.
  inv_bind H d0 w0 d1 Hd. injection Hd as <- <- <-.
  destruct (rows_where _ _); [|by injection H as _ _ <-].
  inv_bind H i w1 d2 Hi. injection Hi as <- <- <-. inv_bind H now w2 d3 Hn. injection Hn as <- <- <-.
  destruct (remote_reblog_conflict _ _) eqn:Hc; [done|]. apply remote_reblog_conflict_fresh in Hc.
  inv_bind H u w3 d4 Hf. apply foreign_key_run in Hf as (Hs & -> & ->).
  inv_bind H v w4 d5 Hm. injection Hm as <- <- <-. inv_bind H x w5 d6 Ha. injection H as _ _ <-.
  eapply adjust_after in Ha; [done|done| |apply target_key_reblog].
  eapply (touch_insert_remote_reblog d Hok (mkRemoteReblog _ _ _ _ _ _)); [|done|done].
  by destruct target.
Qed.

Lemma reblog_target_columns r t :
  reblog_target r = Some t -> (rrb_local r, rrb_remote r) = target_columns t.
Proof.
  unfold reblog_target. destruct (rrb_local r), (rrb_remote r); try done; by intros [= <-].
Qed.

Lemma columns_reblog_target r t :
  (rrb_local r, rrb_remote r) = target_columns t -> reblog_target r <> None.
Proof. unfold reblog_target. by destruct t; intros [= -> ->]. Qed.

Lemma delete_remote_reblog_run p r t w d a w' d' :
  trends_ok d -> head (rows_where p (remote_reblogs d)) = Some r -> reblog_target r = Some t ->
  (delete_remote_reblog r;; adjust_status_trend (trend_of t) 0 (-1)) w d = (Ok a, w', d') ->
  trends_ok d'.
Proof.
  intros Hok Hh Ht H.
  apply (head_row_keyed p _ rrb_id) in Hh as [Hr _];
    [|intros k u Hk; by apply (remote_reblog_keys _ (trend_keys _ Hok)) in Hk as [<- _]].
  destruct a. eapply touch_adjust in H as [Hok' _]; [done|done| |apply target_key_reblog].
  apply touch_delete_remote_reblog; [done|by apply reblog_target_columns|done].
Qed.

Lemma preserves_unreblog_by_remote_actor actor activity :
  preserves (unreblog_status_by_remote_actor actor activity).
Proof.
  intros w d a w' d' Hok H. unfold unreblog_status_by_remote_actor in H.
  inv_bind H d0 w0 d1 Hd. injection Hd as <- <- <-.
  destruct (head _) as [r|] eqn:Hh; [|by injection H as _ _ <-].
  destruct (reblog_target r) as [t|] eqn:Ht; [|by injection H as _ _ <-].
  inv_bind H u w1 d2 Hu. inv_bind H v w2 d3 Hv. injection H as _ _ <-.
  eapply (delete_remote_reblog_run _ r t _ d v w2 d3 Hok Hh Ht). apply bind_Ok. by exists u, w1, d2.
Qed.

Lemma preserves_undo_reblog actor activity : preserves (process_remote_undo_reblog actor activity).
Proof.
  intros w d a w' d' Hok H. unfold process_remote_undo_reblog in H.
  inv_bind H d0 w0 d1 Hd. injection Hd as <- <- <-.
  destruct (head _) as [r|] eqn:Hh; [|by injection H as _ _ <-].
  inv_bind H u w1 d2 Hu. destruct (reblog_target r) as [t|] eqn:Ht.
  - inv_bind H v w2 d3 Hv. injection H as _ _ <-.
    eapply (delete_remote_reblog_run _ r t _ d v w2 d3 Hok Hh Ht). apply bind_Ok. by exists u, w1, d2.
  - apply (head_row_keyed _ _ rrb_id) in Hh as [Hr _];
      [|intros k x Hk; by apply (remote_reblog_keys _ (trend_keys _ Hok)) in Hk as [<- _]].
    destruct (remote_reblog_keys _ (trend_keys _ Hok) _ _ Hr) as [_ [t Hcol]].
    by apply columns_reblog_target in Hcol.
Qed.

(** ** Removing an actor's interactions, or those with a status *)

(** Interactions removed in bulk, their statuses marked for refresh. *)
Lemma trends_ok_bulk d d' :
  trends_ok d -> keys_ok d' -> metrics d' = metrics d -> requests_db d' = requests_db d ->
  (forall key, is_status_kind (fst key) = true -> dirty d' !! key = None ->
     dirty d !! key = None /\ counts key d' = counts key d) ->
  (forall key, is_status_kind (fst key) = true -> counts key d = (0, 0) ->
     counts key d' = (0, 0)) ->
  trends_ok d'.
Proof.
  intros [K1 K2 K3 K4] Hkeys Hm Hr Hclean Hzero. split; [done| | |]; rewrite Hm.
  - intros key m Hk Hmk Hd. destruct (Hclean key Hk Hd) as [Hd0 ->]. by apply K2.
  - intros key Hk Hmk. by apply Hzero, K3.
  - intros key m Hk Hmk. unfold published, statuses_of. rewrite Hr. by apply (K4 key m).
Qed.

Lemma lookup_mark_all_dirty keys now t k :
  mark_all_dirty keys now t !! k = None -> k ∉ keys /\ t !! k = None.
Proof.
  induction keys as [|x keys IH]; simpl; [by intros; split; [apply not_elem_of_nil|]|].
  rewrite lookup_insert. case_decide as Hx; [done|]. intros [H1 H2]%IH. split; [|done].
  rewrite not_elem_of_cons. split; [congruence|done].
Qed.

Lemma counts_delete_where_zero {V} (p q : V -> bool) (t : gmap uuid V) n :
  0 <= n -> n + Z.of_nat (count_where p t) = 0 -> n + Z.of_nat (count_where p (delete_where q t)) = 0.
Proof. intros Hn H. pose proof (count_where_delete_where p q t). lia. Qed.

Lemma keys_ok_delete_where d (pf : RemoteFavouriteRow -> bool) (po pb : OutgoingRow -> bool)
    (pr : RemoteReblogRow -> bool) d' :
  keys_ok d ->
  remote_favourites d' = delete_where pf (remote_favourites d) ->
  outgoing_favourites d' = delete_where po (outgoing_favourites d) ->
  outgoing_reblogs d' = delete_where pb (outgoing_reblogs d) ->
  remote_reblogs d' = delete_where pr (remote_reblogs d) -> keys_ok d'.
Proof.
  intros [K1 K2 K3 K4] E1 E2 E3 E4. split; rewrite ?E1, ?E2, ?E3, ?E4;
    intros k v; rewrite lookup_delete_where;
    [destruct (remote_favourites d !! k) eqn:Hk|destruct (outgoing_favourites d !! k) eqn:Hk
    |destruct (outgoing_reblogs d !! k) eqn:Hk|destruct (remote_reblogs d !! k) eqn:Hk];
    try done; case_match; try done; intros [= <-]; eauto.
Qed.

Lemma delete_where_none {K V} `{Countable K} (t : gmap K V) : delete_where (fun _ => false) t = t.
Proof. apply map_eq. intros k. rewrite lookup_delete_where. by destruct (t !! k). Qed.

Lemma preserves_delete_actor actor : preserves (delete_actor_interactions actor).
Proof.
  intros w d a w' d' Hok H. run_unfold. injection H as _ _ <-.
  pose proof (trend_keys d Hok) as Hkeys.
  apply (trends_ok_bulk d); try done.
  - apply (keys_ok_delete_where d (fun f => (rfv_actor f =? account_uuid actor)%N)
      (fun _ => false) (fun _ => false) (fun r => (rrb_actor r =? account_uuid actor)%N));
      simpl; by rewrite ?delete_where_none.
  - simpl. intros key Hk [Hin Hd]%lookup_mark_all_dirty. split; [done|].
    apply not_elem_of_app in Hin as [Hf Hr].
    destruct (status_key_cases key Hk) as [x [-> | ->]]; rewrite ?counts_local, ?counts_remote; simpl;
      repeat (rewrite count_where_delete_where_disjoint; [try done|]).
    + intros r Hrin Hrx. destruct (_ =? account_uuid actor)%N eqn:Ha; [|done]. destruct Hr.
      apply list_elem_of_fmap. exists r. apply bool_decide_eq_true in Hrx. rewrite Hrx. split; [done|].
      apply elem_of_rows_where. split; [by apply elem_of_rows|done].
    + intros f Hfin Hfx. destruct (_ =? account_uuid actor)%N eqn:Ha; [|done]. destruct Hf.
      apply list_elem_of_fmap. exists f. apply N.eqb_eq in Hfx as <-. split; [done|].
      apply elem_of_rows_where. split; [by apply elem_of_rows|done].
    + intros r Hrin Hrx. destruct (_ =? account_uuid actor)%N eqn:Ha; [|done]. destruct Hr.
      apply list_elem_of_fmap. exists r. apply bool_decide_eq_true in Hrx. rewrite Hrx.
      apply elem_of_rows in Hrin as [k Hkr].
      destruct (remote_reblog_keys _ Hkeys _ _ Hkr) as [_ [[i|i] Ht]]; injection Ht as Hl Hre;
        [congruence|]. rewrite Hl. split; [done|].
      apply elem_of_rows_where. split; [by eexists|done].
  - simpl. intros key Hk. destruct (status_key_cases key Hk) as [x [-> | ->]];
      rewrite ?counts_local, ?counts_remote; simpl; intros [= H1 H2]; f_equal; try done;
      apply counts_delete_where_zero; auto using actions_on_nonneg; lia.
Qed.

Lemma preserves_delete_status status : preserves (delete_status_interactions status).
Proof.
  intros w d a w' d' Hok H. run_unfold. injection H as _ _ <-.
  pose proof (trend_keys d Hok) as Hkeys.
  apply (trends_ok_bulk d); try done.
  - apply (keys_ok_delete_where d (fun _ => false)
      (fun o => (out_status o =? status_uuid status)%N) (fun o => (out_status o =? status_uuid status)%N)
      (fun r => bool_decide (rrb_remote r = Some (status_uuid status))));
      simpl; by rewrite ?delete_where_none.
  - simpl. intros key Hk. rewrite lookup_insert. case_decide as Hne; [done|]. intros Hd. split; [done|].
    destruct (status_key_cases key Hk) as [x [-> | ->]]; rewrite ?counts_local, ?counts_remote; simpl;
      repeat (rewrite count_where_delete_where_disjoint; [try done|]).
    + intros r [k Hkr]%elem_of_rows Hrx. apply bool_decide_eq_true in Hrx.
      destruct (remote_reblog_keys _ Hkeys _ _ Hkr) as [_ [[i|i] Ht]]; injection Ht as Hl Hre;
        [|congruence]. by rewrite Hre.
    + intros r _ Hr. apply bool_decide_eq_true in Hr. apply bool_decide_eq_false. intros Heq.
      destruct Hne. unfold remote_key. congruence.
    + intros o _ Ho. apply N.eqb_eq in Ho as Ho. apply N.eqb_neq. intros Heq. destruct Hne.
      unfold remote_key. congruence.
    + intros o _ Ho. apply N.eqb_eq in Ho as Ho. apply N.eqb_neq. intros Heq. destruct Hne.
      unfold remote_key. congruence.
  - simpl. intros key Hk. destruct (status_key_cases key Hk) as [x [-> | ->]];
      rewrite ?counts_local, ?counts_remote; simpl; intros [= H1 H2]; f_equal; try done.
    + apply counts_delete_where_zero; auto using actions_on_nonneg.
    + apply (counts_delete_where_zero _ _ _ 0); lia.
    + pose proof (count_where_delete_where (fun o => (out_status o =? x)%N)
        (fun o => (out_status o =? status_uuid status)%N) (outgoing_reblogs d)).
      pose proof (count_where_delete_where (fun r => bool_decide (rrb_remote r = Some x))
        (fun r => bool_decide (rrb_remote r = Some (status_uuid status))) (remote_reblogs d)). lia.
Qed.

(** ** Refreshing *)

Definition valid_kind (kind : string) : bool :=
  is_status_kind kind || bool_decide (kind = "tag"%string) || bool_decide (kind = "link"%string).

Lemma refresh_row_run key w d :
  trends_ok d -> valid_kind (fst key) = true ->
  exists d', refresh_row key w d = (Ok tt, w, d') /\ trends_ok d' /\ same_tables d d'
    /\ dirty d' = delete key (dirty d).
Proof.
  intros Hok Hv. destruct (is_status_kind (fst key)) eqn:Hs.
  - exists (set_trends d
      (match published key d, metrics d !! key with
       | Some at_, Some _ => <[key := mkMetric (favourites_of key d) (reblogs_of key d) at_]> (metrics d)
       | _, _ => metrics d end) (delete key (dirty d))).
    split; [|split; [|split; [apply same_tables_set|done]]].
    + unfold refresh_row. rewrite Hs. unfold refresh_status_trend. run_unfold.
      destruct (published key d); [|done]. by destruct (metrics d !! key).
    + destruct Hok as [K1 K2 K3 K4]. split; simpl.
      * eapply keys_ok_same; [apply same_tables_set|done].
      * intros k m Hk. change (metric_counts m = counts k (set_trends d _ _)) with
          (metric_counts m = counts k d).
        destruct (decide (k = key)) as [->|Hne].
        -- intros Hm _. destruct (metrics d !! key) eqn:Hold.
           ++ destruct (K4 key _ Hs Hold) as [at_ Hat]. rewrite Hat in Hm.
              rewrite lookup_insert_eq in Hm. by injection Hm as <-.
           ++ destruct (published key d); congruence.
        -- rewrite lookup_delete_ne by done. intros Hm Hd. apply K2; [done| |done].
           destruct (published key d), (metrics d !! key); try done;
             by rewrite lookup_insert_ne in Hm.
      * intros k Hk Hm. apply K3; [done|].
        destruct (published key d), (metrics d !! key) eqn:Hold; try done.
        destruct (decide (k = key)) as [->|Hne]; [by rewrite lookup_insert_eq in Hm|].
        by rewrite lookup_insert_ne in Hm.
      * intros k m Hk Hm. change (is_Some (published k d)).
        destruct (decide (k = key)) as [->|Hne].
        -- destruct (published key d) eqn:Hp; [by eexists|]. rewrite <- Hp. by apply (K4 key m).
        -- apply (K4 k m Hk). destruct (published key d), (metrics d !! key); try done;
             by rewrite lookup_insert_ne in Hm.
  - exists (set_trends d (metrics d) (delete key (dirty d))).
    split; [|split; [|split; [apply same_tables_set|done]]].
    + unfold refresh_row. rewrite Hs. unfold valid_kind in Hv. rewrite Hs in Hv. simpl in Hv.
      by rewrite Hv.
    + destruct Hok as [K1 K2 K3 K4]. split; try done.
      * eapply keys_ok_same; [apply same_tables_set|done].
      * intros k m Hk Hm. simpl in *. rewrite lookup_delete_ne by congruence. by apply K2.
Qed.

Lemma same_tables_trans a b c : same_tables a b -> same_tables b c -> same_tables a c.
Proof. unfold same_tables. intuition congruence. Qed.

Lemma refresh_rows_run keys w d :
  trends_ok d -> (forall k, k ∈ keys -> valid_kind (fst k) = true) ->
  exists d', for_each keys refresh_row w d = (Ok tt, w, d') /\ trends_ok d' /\ same_tables d d'
    /\ forall k, dirty d' !! k = if decide (k ∈ keys) then None else dirty d !! k.
Proof.
  revert d. induction keys as [|x keys IH]; intros d Hok Hv.
  { exists d. split; [done|]. split; [done|]. split; [by repeat split|]. intros k.
    by rewrite decide_False by apply not_elem_of_nil. }
  destruct (refresh_row_run x w d Hok) as (d1 & Hrun & Hok1 & Hs1 & Hd1); [apply Hv; left|].
  destruct (IH d1 Hok1) as (d2 & Hrun2 & Hok2 & Hs2 & Hd2); [intros k Hk; apply Hv; by right|].
  exists d2. split; [|split; [done|split; [by eapply same_tables_trans|]]].
  { simpl. run_unfold. unfold mbind, M_bind in *. by rewrite Hrun. }
  intros k. rewrite Hd2, Hd1. destruct (decide (k = x)) as [->|Hne].
  - rewrite lookup_delete_eq, (decide_True (P := x ∈ x :: keys)) by left. by case_decide.
  - rewrite lookup_delete_ne by done. destruct (decide (k ∈ keys)) as [Hin|Hin].
    + by rewrite decide_True by (by right).
    + by rewrite decide_False by (rewrite elem_of_cons; intros [|]; done).
Qed.

(** The rows a run finds marked: those of the table and the ranked targets. *)
Definition marked (ranked : list trend_key) (d : Db) : gset trend_key :=
  dom (dirty d) ∪ list_to_set ranked.

(** The rows a run locks for itself. *)
Definition claimable (locked : gset trend_key) (t : gmap trend_key time) : list (trend_key * time) :=
  order_by dirty_order
    (List.filter (fun kt => negb (bool_decide (fst kt ∈ locked))) (map_to_list t)).

Lemma elem_of_claimable locked t k :
  k ∈ (fst <$> claimable locked t) <-> k ∉ locked /\ is_Some (t !! k).
Proof.
  unfold claimable. rewrite order_by_Permutation, list_elem_of_fmap. split.
  - intros [[k' v] [-> Hin]]. apply list_elem_of_In, filter_In in Hin as [Hin Hl].
    apply list_elem_of_In, elem_of_map_to_list in Hin. simpl in *.
    apply negb_true_iff, bool_decide_eq_false in Hl. split; [done|by eexists].
  - intros [Hl [v Hv]]. exists (k, v). split; [done|]. apply list_elem_of_In, filter_In.
    split; [by apply list_elem_of_In, elem_of_map_to_list|].
    by apply negb_true_iff, bool_decide_eq_false.
Qed.

Lemma claimable_NoDup locked t : NoDup (fst <$> claimable locked t).
Proof.
  unfold claimable. rewrite order_by_Permutation.
  pose proof (NoDup_fst_map_to_list t) as Hnd. revert Hnd.
  induction (map_to_list t) as [|x l IH]; simpl; [done|]. intros Hnd.
  inversion Hnd as [|? ? Hx Hl]; subst. destruct (negb _); [|by apply IH].
  simpl. constructor; [|by apply IH]. intros Hin. apply Hx.
  apply list_elem_of_fmap in Hin as [y [Hy Hin]]. apply list_elem_of_fmap. exists y. split; [done|].
  apply list_elem_of_In, filter_In in Hin as [Hin _]. by apply list_elem_of_In.
Qed.

Lemma claimed_all locked t :
  (forall k, is_Some (t !! k) -> k ∈ (fst <$> firstn BATCH_SIZE (claimable locked t))) <->
  (forall k, is_Some (t !! k) -> k ∉ locked) /\ (size t <= BATCH_SIZE)%nat.
Proof.
  split.
  - intros Hall. assert (forall k, is_Some (t !! k) -> k ∉ locked) as Hfree.
    { intros k [v Hk]%Hall%list_elem_of_fmap. destruct Hk as [-> Hin].
      apply (elem_of_claimable locked t). apply list_elem_of_fmap. exists v. split; [done|].
      eapply elem_of_take in Hin as (i & Hi & _). by eapply list_elem_of_lookup_2. }
    split; [done|]. rewrite <- size_dom.
    assert (dom t ⊆ list_to_set (fst <$> firstn BATCH_SIZE (claimable locked t))) as Hsub.
    { intros k [v Hk]%elem_of_dom. apply elem_of_list_to_set, Hall. by eexists. }
    apply subseteq_size in Hsub. etransitivity; [exact Hsub|].
    rewrite size_list_to_set.
    + rewrite length_fmap, length_take. lia.
    + rewrite fmap_take. eapply sublist_NoDup; [apply claimable_NoDup|apply sublist_take].
  - intros [Hfree Hsize] k Hk. rewrite take_ge; [by apply elem_of_claimable; auto|].
    unfold claimable. rewrite order_by_Permutation.
    etransitivity; [apply List.filter_length_le|]. by rewrite length_map_to_list.
Qed.

(** The state a run starts refreshing from. *)
Lemma trends_ok_mark d m :
  trends_ok d -> trends_ok (set_trends d (metrics d) (dirty d ∪ m)).
Proof.
  intros Hok. apply (trends_ok_bulk d); try done.
  - eapply keys_ok_same; [apply same_tables_set|by apply trend_keys].
  - simpl. intros key _ Hd. split; [|done]. apply lookup_union_None in Hd. by destruct Hd.
Qed.

Lemma lookup_ranked {V} (v : V) (ranked : list trend_key) k :
  is_Some ((list_to_map ((fun k => (k, v)) <$> ranked) : gmap trend_key V) !! k) <-> k ∈ ranked.
Proof.
  rewrite <- elem_of_dom, dom_list_to_map_L, elem_of_list_to_set, <- list_fmap_compose.
  by rewrite list_fmap_id.
Qed.

Lemma dom_marked d (v : time) ranked :
  dom (dirty d ∪ list_to_map ((fun k => (k, v)) <$> ranked)) = marked ranked d.
Proof.
  unfold marked. rewrite dom_union_L, dom_list_to_map_L. f_equal.
  by rewrite <- list_fmap_compose, list_fmap_id.
Qed.

Lemma maintain_run locked ranked w d :
  trends_ok d -> (forall k, k ∈ marked ranked d -> valid_kind (fst k) = true) ->
  exists d' n,
    maintain_trends locked ranked w d =
      (Ok (negb (bool_decide (dirty d' = ∅)), n), world_of (now_utc : Op Db time) w d, d')
    /\ trends_ok d' /\ same_tables d d'
    /\ n = Nat.min BATCH_SIZE (size (marked ranked d ∖ locked))
    /\ (dirty d' = ∅ <-> (marked ranked d ## locked) /\ (size (marked ranked d) <= BATCH_SIZE)%nat).
Proof.
  intros Hok Hv. set (now := w_clock w (w_ticks w)).
  set (t := dirty d ∪ list_to_map ((fun k => (k, now)) <$> ranked)).
  set (d0 := set_trends d (metrics d) t).
  set (claimed := firstn BATCH_SIZE (claimable locked t)).
  assert (Hdom : forall k, is_Some (t !! k) <-> k ∈ marked ranked d)
    by (intros k; unfold t; by rewrite <- (dom_marked d now), elem_of_dom).
  assert (Hclaimed : forall k, k ∈ (fst <$> claimed) -> k ∈ marked ranked d).
  { intros k Hk. apply Hdom. apply (elem_of_claimable locked t). unfold claimed in Hk.
    rewrite fmap_take in Hk. apply elem_of_take in Hk as (i & Hi & _).
    by eapply list_elem_of_lookup_2. }
  destruct (refresh_rows_run (fst <$> claimed) (world_of (now_utc : Op Db time) w d) d0)
    as (d' & Hrun & Hok' & Hsame & Hdirty); [by apply trends_ok_mark|by auto|].
  exists d', (length claimed).
  assert (Hall : dirty d' = ∅ <-> forall k, is_Some (t !! k) -> k ∈ (fst <$> claimed)).
  { split.
    - intros He k [v Hk]. specialize (Hdirty k). rewrite He, lookup_empty in Hdirty.
      destruct (decide (k ∈ _)); [done|]. unfold d0 in Hdirty. simpl in Hdirty. congruence.
    - intros Hin. apply map_eq. intros k. rewrite Hdirty, lookup_empty. case_decide as Hk; [done|].
      unfold d0. simpl. destruct (t !! k) eqn:Htk; [|done]. destruct Hk. apply Hin. by eexists. }
  split; [|split; [done|split; [|split]]].
  - apply transaction_Commit.
    apply bind_Ok. exists now, (world_of (now_utc : Op Db time) w d), d. split; [done|].
    apply bind_Ok. exists tt, (world_of (now_utc : Op Db time) w d), d0. split; [done|].
    apply bind_Ok. exists claimed, (world_of (now_utc : Op Db time) w d), d0. split; [done|].
    apply bind_Ok. exists tt, (world_of (now_utc : Op Db time) w d), d'. split; [done|].
    done.
  - eapply same_tables_trans; [apply same_tables_set|done].
  - unfold claimed. rewrite length_take. f_equal.
    rewrite <- (length_fmap fst), <- (size_list_to_set (C := gset trend_key)) by apply claimable_NoDup.
    f_equal. apply set_eq. intros k.
    rewrite elem_of_list_to_set, elem_of_claimable, elem_of_difference, Hdom. tauto.
  - rewrite Hall. unfold claimed. rewrite claimed_all. unfold t at 2.
    rewrite <- size_dom, dom_marked, elem_of_disjoint. split; intros [H1 H2]; split; try done.
    + intros k Hk. by apply H1, Hdom.
    + intros k Hk%Hdom Hl. by apply (H1 k).
Qed.

Lemma preserves_for_each {A} (xs : list A) (body : A -> Op Db unit) :
  (forall x, preserves (body x)) -> preserves (for_each xs body).
Proof.
  intros Hb. induction xs as [|x xs IH]; simpl; [apply trends_ret|]. by apply trends_bind.
Qed.

Lemma preserves_transaction {A} (m : Op Db (txn A)) : preserves m -> preserves (transaction m).
Proof.
  intros Hm w d a w' d' Hok H. unfold transaction in H.
  destruct (m w d) as [[[[b|b]|e] w1] d1] eqn:Hrun; [|by injection H as _ _ <-|done].
  injection H as _ _ <-. by eapply Hm.
Qed.

Lemma preserves_refresh_row key : preserves (refresh_row key).
Proof.
  intros w d a w' d' Hok H. destruct (valid_kind (fst key)) eqn:Hv.
  - destruct (refresh_row_run key w d Hok Hv) as (d1 & Hrun & Hok1 & _). rewrite Hrun in H.
    by injection H as _ _ <-.
  - unfold valid_kind in Hv. rewrite !orb_false_iff in Hv. destruct Hv as [[H1 H2] H3].
    unfold refresh_row in H. by rewrite H1, H2, H3 in H.
Qed.

Lemma preserves_maintain locked ranked : preserves (maintain_trends locked ranked).
Proof.
  apply preserves_transaction. apply trends_bind; [apply trends_now|]. intros touched.
  apply trends_bind; [intros w d a w' d' Hok [= _ _ <-]; by apply trends_ok_mark|]. intros _.
  apply trends_bind; [apply trends_gets|]. intros claimed.
  apply trends_bind; [apply preserves_for_each, preserves_refresh_row|]. intros _.
  apply trends_bind; [apply trends_gets|]. intros more. apply trends_ret.
Qed.

Lemma preserves_maintenance_job uuid_text locked ranked job :
  preserves (trend_maintenance_job uuid_text locked ranked job).
Proof.
  apply trends_bind; [apply preserves_maintain|]. intros [more n]. simpl.
  destruct more; [|apply trends_ret]. apply trends_bind; [apply trends_now|]. intros now.
  apply trends_bind; [apply preserves_enqueue|]. intros _. apply trends_ret.
Qed.

(** New statuses have no interactions; a status keeps its row when it is deleted. *)
Definition keeps_published {A} (m : Op NotificationRequests.Db A) : Prop :=
  forall w r a w' r', m w r = (Ok a, w', r') ->
    (forall s, is_Some (local_statuses (NotificationRequests.statuses r) !! s) ->
       is_Some (local_statuses (NotificationRequests.statuses r') !! s)) /\
    (forall s, is_Some (remote_statuses (NotificationRequests.statuses r) !! s) ->
       is_Some (remote_statuses (NotificationRequests.statuses r') !! s)).

Lemma preserves_other {A} (m : Op NotificationRequests.Db A) :
  keeps_published m -> preserves (zoom m).
Proof.
  intros Hm w d a w' d' Hok H. unfold zoom in H. simpl in H.
  destruct (m w (requests_db d)) as [[res w1] r] eqn:Hrun. injection H as -> _ <-.
  destruct (Hm _ _ _ _ _ Hrun) as [Hl Hr]. destruct Hok as [K1 K2 K3 K4]. split; try done.
  - by destruct K1; split.
  - intros k v Hk Hv. specialize (K4 k v Hk Hv). unfold published, statuses_of in *. simpl in *.
    destruct (bool_decide _); rewrite fmap_is_Some in *; auto.
Qed.

(** * Reachable stores *)

Inductive operation (uuid_text : uuid -> string) : forall A, Op Db A -> Prop :=
| op_favourite_local a s : operation uuid_text _ (favourite_local_status a s)
| op_unfavourite_local a s : operation uuid_text _ (unfavourite_local_status a s)
| op_unfavourite_race a s : operation uuid_text _ (unfavourite_local_write a s)
| op_favourite_remote_actor a s i : operation uuid_text _ (favourite_local_status_by_remote_actor a s i)
| op_unfavourite_remote_actor a i : operation uuid_text _ (unfavourite_local_status_by_remote_actor a i)
| op_like a s i r : operation uuid_text _ (process_remote_like uuid_text a s i r)
| op_undo_like a i : operation uuid_text _ (process_remote_undo_like a i)
| op_favourite_remote a s i : operation uuid_text _ (favourite_remote_status a s i)
| op_favourite_remote_job a s i j : operation uuid_text _ (favourite_remote_status_with_job a s i j)
| op_unfavourite_remote a s : operation uuid_text _ (unfavourite_remote_status a s)
| op_unfavourite_remote_job a s j : operation uuid_text _ (unfavourite_remote_status_with_job a s j)
| op_reblog_local a s : operation uuid_text _ (reblog_local_status a s)
| op_unreblog_local a s : operation uuid_text _ (unreblog_local_status a s)
| op_unreblog_race a s : operation uuid_text _ (unreblog_local_write a s)
| op_reblog_remote a s i : operation uuid_text _ (reblog_remote_status a s i)
| op_reblog_remote_job a s i j : operation uuid_text _ (reblog_remote_status_with_job a s i j)
| op_unreblog_remote a s : operation uuid_text _ (unreblog_remote_status a s)
| op_unreblog_remote_job a s j : operation uuid_text _ (unreblog_remote_status_with_job a s j)
| op_announce a t i : operation uuid_text _ (reblog_status_by_remote_actor a t i)
| op_unreblog_remote_actor a i : operation uuid_text _ (unreblog_status_by_remote_actor a i)
| op_undo_announce a i : operation uuid_text _ (process_remote_undo_reblog a i)
| op_bookmark a s : operation uuid_text _ (bookmark_local_status a s)
| op_unbookmark a s : operation uuid_text _ (unbookmark_local_status a s)
| op_delete_actor a : operation uuid_text _ (delete_actor_interactions a)
| op_delete_status s : operation uuid_text _ (delete_status_interactions s)
| op_maintain locked ranked job : operation uuid_text _ (trend_maintenance_job uuid_text locked ranked job)
| op_other A (m : Op NotificationRequests.Db A) : keeps_published m -> operation uuid_text A (zoom m).

Definition step (uuid_text : uuid -> string) (d d' : Db) : Prop :=
  exists A (m : Op Db A) w a w', operation uuid_text A m /\ m w d = (Ok a, w', d').

Lemma preserves_bookmark a s : preserves (bookmark_local_status a s).
Proof.
  intros w d x w' d' Hok H. unfold bookmark_local_status in H.
  inv_bind H d0 w0 d1 Hd. injection Hd as <- <- <-.
  destruct (bookmarks d !! _); [by injection H as _ _ <-|].
  inv_bind H i w1 d2 Hi. injection Hi as <- <- <-. inv_bind H now w2 d3 Hn. injection Hn as <- <- <-.
  inv_bind H u w3 d4 Hf. apply foreign_key_run in Hf as (_ & -> & ->). injection H as _ _ <-.
  destruct Hok as [[K1 K2 K3 K4] K5 K6 K7]. by split.
Qed.

Lemma preserves_unbookmark a s : preserves (unbookmark_local_status a s).
Proof. intros w d x w' d' [[K1 K2 K3 K4] K5 K6 K7] [= _ _ <-]. by split. Qed.

Lemma operation_preserves uuid_text A (m : Op Db A) : operation uuid_text A m -> preserves m.
Proof.
  destruct 1; auto using preserves_favourite_local, preserves_unfavourite_local,
    preserves_unfavourite_write, preserves_favourite_remote_actor, preserves_unfavourite_remote_actor,
    preserves_like, preserves_undo_like, preserves_favourite_remote,
    preserves_favourite_remote_with_job, preserves_unfavourite_remote,
    preserves_unfavourite_remote_with_job, preserves_reblog_local, preserves_unreblog_local,
    preserves_unreblog_write, preserves_reblog_remote, preserves_reblog_remote_with_job,
    preserves_unreblog_remote, preserves_unreblog_remote_with_job, preserves_reblog_by_remote_actor,
    preserves_unreblog_by_remote_actor, preserves_undo_reblog, preserves_bookmark,
    preserves_unbookmark, preserves_delete_actor, preserves_delete_status,
    preserves_maintenance_job, preserves_other.
Qed.

(** A store where nobody has interacted yet. *)
Definition no_interactions (d : Db) : Prop :=
  local_favourites d = ∅ /\ remote_favourites d = ∅ /\ outgoing_favourites d = ∅ /\
  local_reblogs d = ∅ /\ outgoing_reblogs d = ∅ /\ remote_reblogs d = ∅ /\ metrics d = ∅.

Lemma no_interactions_ok d : no_interactions d -> trends_ok d.
Proof.
  intros (H1 & H2 & H3 & H4 & H5 & H6 & H7).
  split; [split| | |]; rewrite ?H2, ?H3, ?H5, ?H6, ?H7; intros *; rewrite ?lookup_empty; try done.
  intros Hk _. destruct (status_key_cases key Hk) as [x [-> | ->]];
    rewrite ?counts_local, ?counts_remote, ?H1, ?H2, ?H3, ?H4, ?H5, ?H6; done.
Qed.

Lemma reachable_trends uuid_text d0 d :
  no_interactions d0 -> rtc (step uuid_text) d0 d -> trends_ok d.
Proof.
  intros H0 Hr. apply no_interactions_ok in H0. induction Hr as [|d1 d2 d3 Hs _ IH]; [done|].
  apply IH. destruct Hs as (A & m & w & a & w' & Hop & Hrun).
  by eapply (operation_preserves uuid_text A m Hop).
Qed.

(** * Likes and their Undo *)

Lemma zoom_tables {A} (m : Op NotificationRequests.Db A) w d r w' d' :
  zoom m w d = (r, w', d') -> exists x, d' = put_part x d.
Proof.
  unfold zoom. destruct (m w _) as [[r1 w1] x]. intros [= _ _ <-]. by exists x.
Qed.

Lemma zoom_rows {A} (m : Op NotificationRequests.Db A) w d r w' d' :
  keeps status_rows m -> zoom m w d = (r, w', d') ->
  exists x, d' = put_part x d /\ status_rows x = status_rows (requests_db d).
Proof.
  intros Hm. unfold zoom. simpl. destruct (m w _) as [[r1 w1] x] eqn:Hrun. intros [= _ _ <-].
  exists x. split; [done|]. by apply (keeps_run _ _ _ _ _ _ _ Hm) in Hrun.
Qed.

Lemma published_rows key d d' :
  status_rows (requests_db d') = status_rows (requests_db d) -> published key d' = published key d.
Proof. intros [= Hl Hr]. unfold published, statuses_of. by rewrite Hl, Hr. Qed.

(** Only the rest of the store, the metric of one status and its mark differ. *)
Definition same_interactions (d d' : Db) : Prop :=
  local_favourites d' = local_favourites d /\ outgoing_favourites d' = outgoing_favourites d /\
  bookmarks d' = bookmarks d /\ local_reblogs d' = local_reblogs d /\
  outgoing_reblogs d' = outgoing_reblogs d /\ remote_reblogs d' = remote_reblogs d.

(** A Like that is recorded: the row, and what adds the counter. *)
Lemma like_run uuid_text actor status activity recipient w d n w1 d1 :
  process_remote_like uuid_text actor status activity recipient w d = (Ok n, w1, d1) ->
  same_interactions d d1 /\
  ((n = None /\ remote_favourites d1 = remote_favourites d /\ metrics d1 = metrics d) \/
   exists f at_,
     rfv_actor f = account_uuid actor /\ rfv_status f = status_uuid status /\
     rfv_activity f = activity /\
     remote_favourite_conflict f (remote_favourites d) = false /\
     remote_favourites d1 = <[rfv_id f := f]> (remote_favourites d) /\
     published (local_key (status_uuid status)) d1 = Some at_ /\
     metrics d1 = <[local_key (status_uuid status) :=
       adjusted_metric (metrics d !! local_key (status_uuid status)) 1 0 at_]> (metrics d)).
Proof.
  intros H. unfold process_remote_like in H.
  inv_bind H blocked w2 d2 Hb. unfold on_relations in Hb.
  apply (zoom_rows _ _ _ _ _ _ (keeps_rows_relations _)) in Hb as (x & -> & Hrows).
  destruct blocked; [injection H as <- _ <-; split; [by repeat split|by left]|].
  inv_bind H f w3 d3 Hf. apply new_remote_favourite_run in Hf as (-> & Ha & Hs & Hi).
  inv_bind H d0 w4 d4 Hd. injection Hd as <- <- <-.
  inv_bind H u w5 d5 Hu. destruct (remote_favourite_conflict f _) eqn:Hc; cbn [negb when] in Hu, H.
  { injection Hu as _ <- <-. injection H as <- _ <-. split; [by repeat split|by left]. }
  inv_bind Hu v w6 d6 Hv. unfold insert_remote_favourite in Hv.
  inv_bind Hv dd w7 d7 Hd. injection Hd as <- <- <-.
  inv_bind Hv v' w8 d8 Hfk. apply foreign_key_run in Hfk as (Hfk & -> & ->).
  injection Hv as _ <- <-.
  rewrite (adjust_run _ _ _ _ _ (local_key (status_uuid status))) in Hu by done.
  injection Hu as _ _ <-.
  destruct (published (local_key (status_uuid status)) (set_remote_favourites _ _)) as [at_|] eqn:Hat.
  2: { rewrite Hs in Hfk. by apply published_local in Hfk. }
  inv_bind H allowed w9 d9 Hal. unfold on_relations in Hal.
  apply (zoom_rows _ _ _ _ _ _ (keeps_rows_relations _)) in Hal as (y & -> & Hy).
  destruct allowed;
    [apply (zoom_rows _ _ _ _ _ _ (keeps_rows_favourite _ _ _ _)) in H as (z & -> & Hz)
    |injection H as _ _ <-];
    (split; [by repeat split|right; exists f, at_]); repeat split; try done;
    rewrite <- Hat; apply published_rows; first [exact (eq_trans Hz Hy)|exact Hy].
Qed.

Lemma adjust_undo old at_ m :
  old = Some m ->
  metric_counts (adjusted_metric (Some (adjusted_metric old 1 0 at_)) (-1) 0 at_) =
  (Z.max (favourites_count m) 0, Z.max (reblogs_count m) 0).
Proof. intros ->. unfold metric_counts, adjusted_metric. simpl. f_equal; lia. Qed.

Lemma conflict_activity f t p :
  (forall g, p g = true -> rfv_activity g = rfv_activity f) ->
  remote_favourite_conflict f t = false -> rows_where p t = [].
Proof.
  intros Hp Hc. unfold remote_favourite_conflict in Hc.
  apply orb_false_iff in Hc as [_ Hn]. apply negb_false_iff, bool_decide_eq_true in Hn.
  apply rows_where_nil. intros k g Hk. destruct (p g) eqn:Hg; [|done].
  rewrite rows_where_nil in Hn. specialize (Hn k g Hk). simpl in Hn.
  rewrite (bool_decide_true _ (Hp g Hg)), orb_true_r in Hn. done.
Qed.

Lemma conflict_after f g t :
  rfv_actor g = rfv_actor f -> rfv_status g = rfv_status f ->
  remote_favourite_conflict f t = false ->
  remote_favourite_conflict g (<[rfv_id f := f]> t) = true.
Proof.
  intros Ha Hs Hc%remote_favourite_conflict_fresh. unfold remote_favourite_conflict.
  apply orb_true_iff. right. apply negb_true_iff, bool_decide_eq_false. intros Hn.
  rewrite rows_where_nil in Hn. specialize (Hn (rfv_id f) f (lookup_insert_eq _ _ _)).
  simpl in Hn. by rewrite Ha, Hs, !N.eqb_refl in Hn.
Qed.

Lemma undo_run actor activity f w d w' d' a :
  rfv_actor f = account_uuid actor -> rfv_activity f = activity ->
  remote_favourite_conflict f (delete (rfv_id f) (remote_favourites d)) = false ->
  remote_favourites d !! rfv_id f = Some f ->
  process_remote_undo_like actor activity w d = (Ok a, w', d') ->
  a = true /\ delete_remote_favourite f w d = (Ok tt, w', d').
Proof.
  intros Ha Hi Hc Hf H. unfold process_remote_undo_like in H.
  inv_bind H d0 w0 d1 Hd. injection Hd as <- <- <-.
  assert (rows_where (of_activity actor activity) (remote_favourites d) = [f]) as Hrows.
  { rewrite <- (insert_delete_id _ _ _ Hf). apply rows_where_fresh_insert.
    - apply lookup_delete_eq.
    - unfold of_activity. by rewrite Ha, Hi, N.eqb_refl, bool_decide_true.
    - apply (conflict_activity f); [|done]. intros g [_ Hg]%andb_true_iff.
      apply bool_decide_eq_true in Hg. congruence. }
  rewrite Hrows in H. simpl in H. inv_bind H u w1 d2 Hu. injection H as <- <- <-.
  by destruct u.
Qed.

(** An inbound Like is recorded at most once and undone exactly: either it
    changes no interaction and notifies nobody, or it adds one favourite, after
    which a second Like of the same status by the same actor adds none, and an
    Undo naming the Like's activity removes that favourite again, leaves every
    interaction table as it was, and puts the status's counter back. *)
Theorem like_undo_roundtrip uuid_text actor status activity recipient w d n w1 d1 :
  process_remote_like uuid_text actor status activity recipient w d = (Ok n, w1, d1) ->
  (n = None /\ remote_favourites d1 = remote_favourites d /\ metrics d1 = metrics d) \/
  (forall w2 activity' recipient' n' w3 d3,
     process_remote_like uuid_text actor status activity' recipient' w2 d1 = (Ok n', w3, d3) ->
     n' = None /\ remote_favourites d3 = remote_favourites d1) /\
  (forall w2 a w3 d3, process_remote_undo_like actor activity w2 d1 = (Ok a, w3, d3) ->
     remote_favourites d1 <> remote_favourites d /\
     remote_favourites d3 = remote_favourites d /\ same_interactions d d3 /\
     forall m, metrics d !! local_key (status_uuid status) = Some m ->
       metric_counts <$> metrics d3 !! local_key (status_uuid status)
       = Some (Z.max (favourites_count m) 0, Z.max (reblogs_count m) 0)).
Proof.
  intros H. apply like_run in H as (Hsame & [Hno|(f & at_ & Ha & Hs & Hi & Hc & Hrows & Hat & Hm)]);
    [by left|right].
  pose proof (remote_favourite_conflict_fresh _ _ Hc) as Hfresh.
  assert (Hf : remote_favourites d1 !! rfv_id f = Some f) by (rewrite Hrows; apply lookup_insert_eq).
  split.
  - intros w2 activity' recipient' n' w3 d3 H.
    apply like_run in H as (_ & [(-> & -> & _)|(g & _ & Hga & Hgs & _ & Hgc & _)]); [done|].
    rewrite Hrows, (conflict_after f g) in Hgc; [done|congruence..|done].
  - intros w2 a w3 d3 H.
    apply (undo_run actor activity f) in H as [_ H]; [|done|done| |done].
    2: { by rewrite Hrows, delete_insert_id. }
    split; [intros He; rewrite He in Hf; congruence|].
    unfold delete_remote_favourite in H. inv_bind H u w4 d4 Hu. injection Hu as _ <- <-.
    rewrite (adjust_run _ _ _ _ _ (local_key (status_uuid status))) in H
      by (rewrite <- Hs; done).
    injection H as _ <-. simpl. rewrite Hrows, delete_insert_id by done.
    split; [done|]. split; [exact Hsame|]. intros m Hold.
    change (published (local_key (status_uuid status)) (set_remote_favourites d1 _))
      with (published (local_key (status_uuid status)) d1).
    rewrite Hat, lookup_insert_eq, Hm, lookup_insert_eq, Hold. simpl. f_equal.
    exact (adjust_undo (Some m) at_ m eq_refl).
Qed.

(** C22. However likes, boosts and their removals interleave - removals that
    race included -, a status counter of the trends either equals the number of
    interactions stored for its status, as the count queries of the API return
    it, or is marked for refresh; and a status without a counter has no
    interaction. *)
Theorem reachable_trends_ok uuid_text d0 d key :
  no_interactions d0 -> rtc (step uuid_text) d0 d -> is_status_kind (fst key) = true ->
  match metrics d !! key with
  | Some m => is_Some (published key d) /\
      (is_Some (dirty d !! key) \/ metric_counts m = counts key d)
  | None => counts key d = (0, 0)
  end.
Proof.
  intros H0 Hr Hk. pose proof (reachable_trends uuid_text d0 d H0 Hr) as Hok.
  destruct (metrics d !! key) as [m|] eqn:Hm; [|by apply (counted d Hok)].
  split; [by apply (backed d Hok key m)|].
  destruct (dirty d !! key) eqn:Hd; [left; by eexists|right]. by apply (exact d Hok).
Qed.

(** A refresh run always succeeds, changes no interaction, and processes as
    many marked targets as are free, at most a batch. It reports that nothing is
    left exactly when no other worker holds a marked target and those marked,
    the ranked ones included, fit one batch; then every status counter equals
    its count. So while more than a batch of targets is ranked, every run, even
    one with nothing to refresh, asks for another. *)
Theorem refresh_run_outcome uuid_text d0 d locked ranked w :
  no_interactions d0 -> rtc (step uuid_text) d0 d ->
  (forall k, k ∈ marked ranked d -> valid_kind (fst k) = true) ->
  exists has_more n w' d',
    maintain_trends locked ranked w d = (Ok (has_more, n), w', d') /\ same_tables d d' /\
    n = Nat.min BATCH_SIZE (size (marked ranked d ∖ locked)) /\
    (has_more = false <-> (marked ranked d ## locked) /\ (size (marked ranked d) <= BATCH_SIZE)%nat) /\
    (has_more = false -> forall key m, is_status_kind (fst key) = true ->
       metrics d' !! key = Some m -> metric_counts m = counts key d').
Proof.
  intros H0 Hr Hv. pose proof (reachable_trends uuid_text d0 d H0 Hr) as Hok.
  destruct (maintain_run locked ranked w d Hok Hv) as (d' & n & Hrun & Hok' & Hsame & Hn & Hmore).
  exists (negb (bool_decide (dirty d' = ∅))), n, (world_of (now_utc : Op Db time) w d), d'.
  rewrite negb_false_iff, bool_decide_eq_true. split; [done|]. split; [done|]. split; [done|].
  split; [done|]. intros He key m Hk Hm. apply (exact d' Hok' key m Hk Hm). by rewrite He, lookup_empty.
Qed.

(** * Witnesses *)

Definition sample_store : Db := mkDb ∅ ∅ ∅ ∅ ∅ ∅ ∅ ∅ ∅ RequestsInvariant.sample_inbox.

(** Remote actor 50 likes the status 10 of account 2. *)
Definition sample_like (d : Db) (w : World) :=
  process_remote_like RequestsInvariant.sample_text (mkAccountId 50) (mkStatusId 10)
    "https://remote.example/likes/1" (mkAccountId 2) w d.
Definition liked_run := sample_like sample_store sample_world.
Definition liked_store : Db := snd liked_run.

Definition undo_like_run :=
  process_remote_undo_like (mkAccountId 50) "https://remote.example/likes/1" sample_world liked_store.

Lemma like_undo_roundtrip_witness :
  remote_favourites (snd undo_like_run) = remote_favourites sample_store.
Proof.
  destruct (like_undo_roundtrip RequestsInvariant.sample_text (mkAccountId 50) (mkStatusId 10)
    "https://remote.example/likes/1" (mkAccountId 2) sample_world sample_store
    (match fst (fst liked_run) with Ok n => n | Err _ => None end) (snd (fst liked_run)) liked_store
    ltac:(vm_compute; reflexivity)) as [(_ & H & _)|[_ H]].
  - vm_compute in H. discriminate H.
  - apply (H sample_world true (snd (fst undo_like_run)) (snd undo_like_run)).
    vm_compute. reflexivity.
Defined.

Lemma sample_store_fresh : no_interactions sample_store.
Proof. by repeat split. Qed.

Lemma liked_step : step RequestsInvariant.sample_text sample_store liked_store.
Proof.
  exists _, (process_remote_like RequestsInvariant.sample_text (mkAccountId 50) (mkStatusId 10)
    "https://remote.example/likes/1" (mkAccountId 2)), sample_world,
    (match fst (fst liked_run) with Ok n => n | Err _ => None end), (snd (fst liked_run)).
  split; [constructor|]. vm_compute. reflexivity.
Qed.

Lemma reachable_trends_ok_witness :
  is_Some (metrics liked_store !! local_key 10) /\
  (is_Some (dirty liked_store !! local_key 10) \/
   exists m, metrics liked_store !! local_key 10 = Some m /\
     metric_counts m = counts (local_key 10) liked_store).
Proof.
  pose proof (reachable_trends_ok RequestsInvariant.sample_text sample_store liked_store (local_key 10)
    sample_store_fresh (rtc_once _ _ liked_step) eq_refl) as H.
  destruct (metrics liked_store !! local_key 10) as [m|] eqn:Hm.
  - split; [by eexists|]. destruct H as [_ [H|H]]; [left; exact H|right].
    exists m. split; [reflexivity|exact H].
  - vm_compute in Hm. discriminate Hm.
Defined.

Lemma refresh_run_outcome_witness :
  exists n w' d', maintain_trends ∅ [] sample_world liked_store = (Ok (false, n), w', d') /\
    forall key m, is_status_kind (fst key) = true ->
      metrics d' !! key = Some m -> metric_counts m = counts key d'.
Proof.
  destruct (refresh_run_outcome RequestsInvariant.sample_text sample_store liked_store ∅ []
    sample_world sample_store_fresh (rtc_once _ _ liked_step))
    as (more & n & w' & d' & Hrun & _ & _ & Hmore & Hexact).
  - intros k Hk. unfold marked in Hk. apply elem_of_union in Hk as [Hk|Hk]; [|by apply not_elem_of_empty in Hk].
    apply elem_of_dom in Hk as [v Hk]. apply elem_of_map_to_list in Hk.
    assert (forallb (fun kt => valid_kind (fst (fst kt))) (map_to_list (dirty liked_store)) = true)
      as Hall by (vm_compute; reflexivity).
    rewrite forallb_forall in Hall. exact (Hall (k, v) (proj1 (list_elem_of_In _ _) Hk)).
  - assert (more = false) as ->.
    { apply Hmore. split; [apply disjoint_empty_r|]. unfold marked. simpl. rewrite (right_id_L ∅ _), size_dom.
      apply Nat.leb_le. vm_compute. reflexivity. }
    exists n, w', d'. split; [exact Hrun|]. apply Hexact. reflexivity.
Defined.
