(* ===== verification/OAuth.v ===== *)
(** OAuth applications, authorization codes, access tokens and Web Push
    subscriptions ([crates/db/src/lib.rs]), with the authorization and token
    endpoints of [crates/server/src/auth.rs].

    The keyed hash of secrets, the PKCE digest and the percent decoding of
    redirect URIs are library code and parameters of the section.  An endpoint
    runs in one transaction and returns the response it renders. *)
From S2P Require Import Prelude Core Text.

(** * Data *)

(** The columns of [local_account] the authentication code reads and writes. *)
Record LocalAccount := mkLocalAccount {
  username : text;
  email : text;
  password_hash : text;
  is_admin : bool;
  suspended_at : option time;
}.

Record OAuthApplication := mkApplication {
  app_id : uuid;
  client_id : text;
  client_secret_hash : text;
  app_name : text;
  redirect_uri : text;
  app_scopes : text;
  website : option text;
}.

Inductive PkceCodeChallengeMethod : Type := NoChallenge | S256.

#[export] Instance PkceCodeChallengeMethod_eq_dec : EqDecision PkceCodeChallengeMethod.
Proof. solve_decision. Defined.

(** [oauth_authorization_code]. *)
Record CodeRow := mkCode {
  code_id : uuid;
  code_hash : text;
  code_account : uuid;
  code_application : uuid;
  code_redirect_uri : text;
  code_scopes : text;
  code_challenge : text;
  code_challenge_method : PkceCodeChallengeMethod;
  code_expires_at : time;
  code_consumed_at : option time;
}.

(** [oauth_access_token]. *)
Record TokenRow := mkToken {
  token_id : uuid;
  token_hash : text;
  token_account : option uuid;
  token_application : uuid;
  token_scopes : text;
  token_issued_at : time;
  token_expires_at : option time;
  token_revoked_at : option time;
}.

Inductive PushPolicy : Type := All | Followed | Follower | NoPolicy.
Inductive PushSubscriptionEncoding : Type := Legacy | Standard.

(** [PushSubscription], with its key material as text and the enabled alerts as
    the set of their names. *)
Record PushSubscription := mkPush {
  push_id : uuid;
  push_token : uuid;
  push_account : uuid;
  push_endpoint : text;
  push_keys : text * text;
  push_encoding : PushSubscriptionEncoding;
  push_policy : PushPolicy;
  push_alerts : gset string;
  push_credential : text * text;
}.

Record Db := mkDb {
  accounts : gmap uuid LocalAccount;
  applications : gmap uuid OAuthApplication;
  codes : gmap uuid CodeRow;
  tokens : gmap uuid TokenRow;
  pushes : gmap uuid PushSubscription;
}.

Definition set_accounts t (d : Db) := mkDb t (applications d) (codes d) (tokens d) (pushes d).
Definition set_applications t (d : Db) := mkDb (accounts d) t (codes d) (tokens d) (pushes d).
Definition set_codes t (d : Db) := mkDb (accounts d) (applications d) t (tokens d) (pushes d).
Definition set_tokens t (d : Db) := mkDb (accounts d) (applications d) (codes d) t (pushes d).
Definition set_pushes t (d : Db) := mkDb (accounts d) (applications d) (codes d) (tokens d) t.

(** The raw token a client receives, with its metadata. *)
Record OAuthAccessToken := mkAccessToken {
  raw_token : text;
  scope : text;
  created_at : Z;
}.

Record AccessTokenGrant := mkGrant {
  grant_id : uuid;
  grant_account : AccountId * LocalAccount;
  grant_scopes : text;
}.

Record ApplicationAccessTokenGrant := mkApplicationGrant {
  application_grant_id : uuid;
  application : OAuthApplication;
  application_grant_scopes : text;
}.

Definition random_token : Op Db text :=
  token ← next_token;
  mret (lit token).

(** [OffsetDateTime::unix_timestamp]. *)
Definition unix_timestamp (t : time) : Z := t / 1000000000.

Definition expired (expires : option time) (now : time) : bool :=
  match expires with Some e => e <=? now | None => false end.

(** A unique index on one column. *)
Definition taken {V} (column : V -> text) (value : text) (t : gmap uuid V) : bool :=
  negb (bool_decide (rows_where (fun v => bool_decide (column v = value)) t = [])).

Definition unique_violation {A} (name : string) : Op Db A :=
  throw (Database (UniqueViolation name)).

(** * Store operations *)

Section Store.
Context (hmac : text -> text -> text).
Implicit Types (pepper secret : text).

(** [secret_hash]: HMAC takes keys of every length. *)
Definition secret_hash pepper secret : text := hmac pepper secret.

Definition create_oauth_application (name redirect_uri scopes : text) (website : option text)
    pepper : Op Db (OAuthApplication * text) :=
  i ← uuid_now_v7;
  client ← random_token;
  client_secret ← random_token;
  d ← gets (fun d => d);
  let app := mkApplication i client (secret_hash pepper client_secret) name redirect_uri scopes
               website in
  if taken client_id client (applications d) || bool_decide (is_Some (applications d !! i))
  then unique_violation "oauth_application"
  else
    modify (fun d => set_applications (<[i := app]> (applications d)) d);;
    mret (app, client_secret).

Definition find_oauth_application_by_client_id (client : text) : Op Db (option OAuthApplication) :=
  gets (fun d => head (rows_where (fun a => bool_decide (client_id a = client)) (applications d))).

Record NewAuthorizationCode := mkNewCode {
  new_account : AccountId;
  new_application : uuid;
  new_redirect_uri : text;
  new_scopes : text;
  new_challenge : text;
  new_challenge_method : PkceCodeChallengeMethod;
}.

Definition create_authorization_code pepper (new_code : NewAuthorizationCode) : Op Db text :=
  code ← random_token;
  now ← now_utc;
  i ← uuid_now_v7;
  d ← gets (fun d => d);
  let row := mkCode i (secret_hash pepper code) (account_uuid (new_account new_code))
               (new_application new_code) (new_redirect_uri new_code) (new_scopes new_code)
               (new_challenge new_code) (new_challenge_method new_code) (now + minutes 5) None in
  if taken code_hash (code_hash row) (codes d) || bool_decide (is_Some (codes d !! i))
  then unique_violation "oauth_authorization_code"
  else if negb (bool_decide (is_Some (accounts d !! code_account row)))
          || negb (bool_decide (is_Some (applications d !! code_application row)))
  then throw (Database (ForeignKeyViolation "oauth_authorization_code"))
  else
    modify (fun d => set_codes (<[i := row]> (codes d)) d);;
    mret code.

(** The SELECT of [consume_authorization_code]. *)
Definition code_matches pepper (code : text) (app : uuid) (uri : text) (r : CodeRow) : bool :=
  bool_decide (code_hash r = secret_hash pepper code) && (code_application r =? app)%N
  && bool_decide (code_redirect_uri r = uri) && negb (bool_decide (is_Some (code_consumed_at r))).

Definition find_code pepper (code : text) (app : uuid) (uri : text) : Op Db (option CodeRow) :=
  gets (fun d => head (rows_where (code_matches pepper code app uri) (codes d))).

Definition grant_of (r : CodeRow) : AccountId * text * text * PkceCodeChallengeMethod :=
  (mkAccountId (code_account r), code_scopes r, code_challenge r, code_challenge_method r).

Definition consumed_row (now : time) (r : CodeRow) : CodeRow :=
  mkCode (code_id r) (code_hash r) (code_account r) (code_application r) (code_redirect_uri r)
    (code_scopes r) (code_challenge r) (code_challenge_method r) (code_expires_at r) (Some now).

(** What follows the SELECT: the UPDATE names the row by its identifier only. *)
Definition consume_found (found : option CodeRow) :
    Op Db (option (AccountId * text * text * PkceCodeChallengeMethod)) :=
  match found with
  | None => mret None
  | Some r =>
      now ← now_utc;
      if code_expires_at r <=? now then mret None
      else
        at_ ← now_utc;
        d ← gets (fun d => d);
        match codes d !! code_id r with
        | None => throw (Database RecordNotUpdated)
        | Some current =>
            modify (fun d => set_codes (<[code_id r := consumed_row at_ current]> (codes d)) d);;
            mret (Some (grant_of r))
        end
  end.

Definition consume_authorization_code pepper (code : text) (app : uuid) (uri : text) :
    Op Db (option (AccountId * text * text * PkceCodeChallengeMethod)) :=
  found ← find_code pepper code app uri;
  consume_found found.

Definition create_access_token_for_subject pepper (account : option AccountId) (app : uuid)
    (scopes : text) : Op Db OAuthAccessToken :=
  token ← random_token;
  issued_at ← now_utc;
  i ← uuid_now_v7;
  d ← gets (fun d => d);
  let row := mkToken i (secret_hash pepper token) (account_uuid <$> account) app scopes issued_at
               None None in
  if taken token_hash (token_hash row) (tokens d) || bool_decide (is_Some (tokens d !! i))
  then unique_violation "oauth_access_token"
  else if negb (match token_account row with
                | Some a => bool_decide (is_Some (accounts d !! a)) | None => true end)
          || negb (bool_decide (is_Some (applications d !! app)))
  then throw (Database (ForeignKeyViolation "oauth_access_token"))
  else
    modify (fun d => set_tokens (<[i := row]> (tokens d)) d);;
    mret (mkAccessToken token scopes (unix_timestamp issued_at)).

Definition create_access_token pepper (account : AccountId) (app : uuid) (scopes : text) :=
  create_access_token_for_subject pepper (Some account) app scopes.

Definition create_application_access_token pepper (app : uuid) (scopes : text) :=
  create_access_token_for_subject pepper None app scopes.

(** Tokens a lookup by hash considers: not revoked. *)
Definition live_token pepper (token : text) (r : TokenRow) : bool :=
  bool_decide (token_hash r = secret_hash pepper token)
  && negb (bool_decide (is_Some (token_revoked_at r))).

Definition active_account (i : uuid) (d : Db) : option LocalAccount :=
  match accounts d !! i with
  | Some a => if bool_decide (is_Some (suspended_at a)) then None else Some a
  | None => None
  end.

Definition find_access_token_grant pepper (token : text) : Op Db (option AccessTokenGrant) :=
  d ← gets (fun d => d);
  match head (rows_where (live_token pepper token) (tokens d)) with
  | None => mret None
  | Some r =>
      now ← match token_expires_at r with Some _ => now_utc | None => mret 0 end;
      if expired (token_expires_at r) now then mret None
      else
        match token_account r with
        | None => mret None
        | Some i =>
            mret ((fun a => mkGrant (token_id r) (mkAccountId i, a) (token_scopes r))
                    <$> active_account i d)
        end
  end.

Definition find_account_by_access_token pepper (token : text) :
    Op Db (option (AccountId * LocalAccount * text)) :=
  d ← gets (fun d => d);
  match head (rows_where (live_token pepper token) (tokens d)) with
  | None => mret None
  | Some r =>
      now ← match token_expires_at r with Some _ => now_utc | None => mret 0 end;
      if expired (token_expires_at r) now then mret None
      else
        match token_account r with
        | None => mret None
        | Some i => mret ((fun a => (mkAccountId i, a, token_scopes r)) <$> active_account i d)
        end
  end.

Definition find_application_access_token_grant pepper (token : text) :
    Op Db (option ApplicationAccessTokenGrant) :=
  d ← gets (fun d => d);
  match head (rows_where (fun r => live_token pepper token r
                                   && negb (bool_decide (is_Some (token_account r)))) (tokens d)) with
  | None => mret None
  | Some r =>
      now ← match token_expires_at r with Some _ => now_utc | None => mret 0 end;
      if expired (token_expires_at r) now then mret None
      else mret ((fun a => mkApplicationGrant (token_id r) a (token_scopes r))
                   <$> applications d !! token_application r)
  end.

Definition revoked_row (now : time) (r : TokenRow) : TokenRow :=
  mkToken (token_id r) (token_hash r) (token_account r) (token_application r) (token_scopes r)
    (token_issued_at r) (token_expires_at r) (Some now).

(** A token that is already revoked is revoked again, at a later time. *)
Definition revoke_access_token pepper (token : text) : Op Db unit :=
  d ← gets (fun d => d);
  match head (rows_where (fun r => bool_decide (token_hash r = secret_hash pepper token)) (tokens d)) with
  | None => mret tt
  | Some r =>
      modify (fun d => set_pushes
        (delete_where (fun p => (push_token p =? token_id r)%N) (pushes d)) d);;
      now ← now_utc;
      modify (fun d => set_tokens (<[token_id r := revoked_row now r]> (tokens d)) d)
  end.

(** The UPDATE of [sever_local_account_relationships]. *)
Definition revoke_account_tokens (account : uuid) (now : time) : Op Db unit :=
  modify (fun d => set_tokens
    (update_where (fun r => bool_decide (token_account r = Some account)
                            && negb (bool_decide (is_Some (token_revoked_at r))))
       (revoked_row now) (tokens d)) d).
End Store.

(** * Accounts *)

Section Accounts.

Definition ensure_local_account_available (name mail : text) : Op Db unit :=
  d ← gets (fun d => d);
  if taken username name (accounts d) then throw (InvalidInput "username is already in use")
  else if taken email mail (accounts d) then throw (InvalidInput "email is already in use")
  else mret tt.

(** The notification policy that is inserted with the account is
    [NotificationRequests.policies]; the INSERT does nothing on a conflict. *)
Definition insert_local_account (name mail hash : text) (admin : bool) : Op Db uuid :=
  ensure_local_account_available name mail;;
  i ← uuid_now_v7;
  d ← gets (fun d => d);
  if bool_decide (is_Some (accounts d !! i))
  then
    ensure_local_account_available name mail;;
    throw (InvalidInput "account is already in use")
  else
    modify (fun d => set_accounts (<[i := mkLocalAccount name mail hash admin None]> (accounts d)) d);;
    now_utc;;
    mret i.

Definition create_bootstrap_admin (name mail hash : text) : Op Db uuid :=
  transaction (
    count ← gets (fun d => size (accounts d));
    if negb (Nat.eqb count 0)
    then throw (InvalidInput "bootstrap is only allowed before local accounts exist")
    else i ← insert_local_account name mail hash true; mret (Commit i)).

Definition create_local_account_in_transaction (name mail hash : text) : Op Db uuid :=
  insert_local_account name mail hash false.
Definition create_admin_account_in_transaction (name mail hash : text) : Op Db uuid :=
  insert_local_account name mail hash true.

Definition create_local_account (name mail hash : text) : Op Db uuid :=
  transaction (i ← create_local_account_in_transaction name mail hash; mret (Commit i)).
Definition create_admin_account (name mail hash : text) : Op Db uuid :=
  transaction (i ← create_admin_account_in_transaction name mail hash; mret (Commit i)).

(** The lookup by login takes the first row the database returns. *)
Definition find_local_account_by_login (login : text) : Op Db (option (uuid * LocalAccount)) :=
  gets (fun d => head (List.filter (fun ia =>
    bool_decide (username (snd ia) = login) || bool_decide (email (snd ia) = login))
    (map_to_list (accounts d)))).

Definition find_local_account_by_id (account : AccountId) : Op Db (option LocalAccount) :=
  gets (fun d => accounts d !! account_uuid account).

Definition update_local_account_password_hash_by_id (account : AccountId) (hash : text) :
    Op Db unit :=
  found ← find_local_account_by_id account;
  match found with
  | None => throw (InvalidInput "local account does not exist")
  | Some a =>
      now_utc;;
      modify (fun d => set_accounts (<[account_uuid account :=
        mkLocalAccount (username a) (email a) hash (is_admin a) (suspended_at a)]> (accounts d)) d)
  end.

(** The part of [set_account_suspended_by_id] that concerns these tables, for a
    local account. *)
Definition set_account_suspended (account : AccountId) (suspended : bool) : Op Db unit :=
  now ← now_utc;
  d ← gets (fun d => d);
  match accounts d !! account_uuid account with
  | None => mret tt
  | Some a =>
      modify (fun d => set_accounts (<[account_uuid account :=
        mkLocalAccount (username a) (email a) (password_hash a) (is_admin a)
          (if suspended then Some now else None)]> (accounts d)) d);;
      when (suspended && negb (bool_decide (is_Some (suspended_at a))))
        (revoke_account_tokens (account_uuid account) now)
  end.
End Accounts.

(** * Web Push subscriptions *)

Section Push.

Definition of_token (token : uuid) (p : PushSubscription) : bool := (push_token p =? token)%N.

Definition push_subscription_for_access_token (token : uuid) : Op Db (option PushSubscription) :=
  gets (fun d => head (rows_where (of_token token) (pushes d))).

(** INSERT .. ON CONFLICT (access_token_id) DO UPDATE: the row keeps its
    identifier. *)
Definition upsert_push_subscription (input : PushSubscription) : Op Db PushSubscription :=
  now_utc;;
  i ← uuid_now_v7;
  d ← gets (fun d => d);
  let key := match head (rows_where (of_token (push_token input)) (pushes d)) with
             | Some p => push_id p | None => i end in
  let row := mkPush key (push_token input) (push_account input) (push_endpoint input)
               (push_keys input) (push_encoding input) (push_policy input) (push_alerts input)
               (push_credential input) in
  if negb (bool_decide (is_Some (tokens d !! push_token input)))
     || negb (bool_decide (is_Some (accounts d !! push_account input)))
  then throw (Database (ForeignKeyViolation "push_subscription"))
  else
    modify (fun d => set_pushes (<[key := row]> (pushes d)) d);;
    found ← push_subscription_for_access_token (push_token input);
    lift_option (InvalidInput "push subscription disappeared after upsert") found.

Definition update_push_subscription (token : uuid) (alerts : gset string) (policy : PushPolicy) :
    Op Db (option PushSubscription) :=
  found ← push_subscription_for_access_token token;
  match found with
  | None => mret None
  | Some p =>
      now_utc;;
      let row := mkPush (push_id p) (push_token p) (push_account p) (push_endpoint p) (push_keys p)
                   (push_encoding p) policy alerts (push_credential p) in
      modify (fun d => set_pushes (<[push_id p := row]> (pushes d)) d);;
      mret (Some row)
  end.

Definition delete_push_subscription (token : uuid) : Op Db bool :=
  n ← gets (fun d => count_where (of_token token) (pushes d));
  modify (fun d => set_pushes (delete_where (of_token token) (pushes d)) d);;
  mret (Nat.ltb 0 n).

Definition delete_push_subscription_by_id (i : uuid) : Op Db unit :=
  modify (fun d => set_pushes (delete i (pushes d)) d).
End Push.

(** * Scopes *)

Inductive OAuthScopeResource : Type :=
| AllResources
| Accounts
| StatusesResource
| OtherResource (value : text).

Inductive OAuthScope : Type :=
| Read (resource : OAuthScopeResource)
| Write (resource : OAuthScopeResource)
| Follow
| Push
| OtherScope (value : text).

Definition parse_resource (value : text) : OAuthScopeResource :=
  if bool_decide (value = lit "accounts") then Accounts
  else if bool_decide (value = lit "statuses") then StatusesResource
  else OtherResource value.

Definition parse_scope (value : text) : OAuthScope :=
  match split_once 58 value with
  | None =>
      if bool_decide (value = lit "read") then Read AllResources
      else if bool_decide (value = lit "write") then Write AllResources
      else if bool_decide (value = lit "follow") then Follow
      else if bool_decide (value = lit "push") then Push
      else OtherScope value
  | Some (family, resource) =>
      if bool_decide (family = lit "read") then Read (parse_resource resource)
      else if bool_decide (family = lit "write") then Write (parse_resource resource)
      else OtherScope value
  end.

Inductive StatusPermission : Type := ReadStatus | WriteStatus.

Definition allows_scope (permission : StatusPermission) (s : OAuthScope) : bool :=
  match permission, s with
  | ReadStatus, Read (AllResources | StatusesResource) => true
  | WriteStatus, Write (AllResources | StatusesResource) => true
  | _, _ => false
  end.

Definition has_status_scope (scopes : text) (permission : StatusPermission) : bool :=
  existsb (allows_scope permission) (parse_scope <$> split_ascii_whitespace scopes).

Definition has_account_read_scope (scopes : text) : bool :=
  existsb (fun s => match s with Read (AllResources | Accounts) => true | _ => false end)
    (parse_scope <$> split_ascii_whitespace scopes).

(** The test of [require_account_write_scope]. *)
Definition has_account_write_scope (scopes : text) : bool :=
  existsb (fun s => match s with Write (AllResources | Accounts) => true | _ => false end)
    (parse_scope <$> split_ascii_whitespace scopes).

Definition scope_covers (granted requested : text) : bool :=
  bool_decide (granted = requested)
  || (bool_decide (granted = lit "read") || bool_decide (granted = lit "write"))
     && match strip_prefix granted requested with
        | Some suffix => starts_with (lit ":") suffix
        | None => false
        end.

Definition client_credentials_scopes (requested : option text) (registered : text) :
    text + string :=
  let requested := split_whitespace (default (lit "read") requested) in
  if bool_decide (requested = []) then inr "scope must not be empty"%string
  else
    let registered := split_whitespace registered in
    if existsb (fun r => negb (existsb (fun s => scope_covers s r) registered)) requested
    then inr "requested scope exceeds the application's registered scopes"%string
    else inl (join (lit " ") requested).

(** * Endpoints *)

Definition OOB_REDIRECT_URI : text := lit "urn:ietf:wg:oauth:2.0:oob".

Inductive AuthorizationResult : Type :=
| Approved (code : text)
| Denied.

(** Where the browser is sent without a session or account. *)
Inductive Response : Type :=
| OAuthErrorResponse (status : Z) (error description : string)
| ServerErrorResponse (error : RoostyError)
| AppResponse (app : OAuthApplication) (client_secret : text)
| TokenResponse (token : OAuthAccessToken)
| LoginRedirect
| OutOfBand (app_name username : text) (result : AuthorizationResult)
| CallbackRedirect (location : text)
| Empty.

Definition bad_request (error description : string) : Response :=
  OAuthErrorResponse 400 error description.

(** A handler in its write transaction: a store error is rendered, and the
    transaction is dropped unless the handler committed it. *)
Definition respond (body : Op Db (txn Response)) : Op Db Response := fun w s =>
  match transaction body w s with
  | (Ok r, w', s') => (Ok r, w', s')
  | (Err e, w', s') => (Ok (ServerErrorResponse e), w', s')
  end.

Inductive OAuthResponseType : Type := Code | OtherResponseType.
Inductive OAuthGrantType : Type := AuthorizationCode | ClientCredentials | OtherGrantType.
Inductive PkceMethod : Type := PkceS256 | PkceOther.
Inductive AuthorizationDecision : Type := Approve | Deny.

#[export] Instance OAuthResponseType_eq_dec : EqDecision OAuthResponseType.
Proof. solve_decision. Defined.
#[export] Instance OAuthGrantType_eq_dec : EqDecision OAuthGrantType.
Proof. solve_decision. Defined.
#[export] Instance PkceMethod_eq_dec : EqDecision PkceMethod.
Proof. solve_decision. Defined.
#[export] Instance AuthorizationDecision_eq_dec : EqDecision AuthorizationDecision.
Proof. solve_decision. Defined.

Record CreateAppForm := mkAppForm {
  client_name : text;
  redirect_uris : text;
  form_scopes : option text;
  form_website : option text;
}.

Record AuthorizeParams := mkAuthorizeParams {
  response_type : OAuthResponseType;
  param_client_id : text;
  param_redirect_uri : text;
  param_scope : option text;
  param_state : option text;
  param_challenge : option text;
  param_challenge_method : option PkceMethod;
}.

Record TokenForm := mkTokenForm {
  grant_type : OAuthGrantType;
  form_code : option text;
  form_client_id : text;
  form_client_secret : option text;
  form_redirect_uri : option text;
  form_code_verifier : option text;
  form_scope : option text;
}.

Definition optional_non_empty (value : option text) : option text :=
  match trim <$> value with
  | Some v => if bool_decide (v = []) then None else Some v
  | None => None
  end.

Section Endpoints.
(** HMAC-SHA256 in base64, the S256 digest of a verifier, percent decoding of a
    text that is UTF-8 once decoded, and [Url::parse] with appended query
    pairs. *)
Context (hmac : text -> text -> text) (pkce_s256_challenge : text -> text)
        (percent_decode : text -> option text)
        (with_query_pairs : text -> list (text * text) -> option text)
        (pepper : text).

Definition matching_redirect_uri (registered requested : text) : option text :=
  head (List.filter (fun uri => bool_decide (uri = requested)
                                || bool_decide (percent_decode uri = Some requested))
          (trim <$> lines registered)).

Definition register_app (form : CreateAppForm) : Op Db Response :=
  if bool_decide (trim (client_name form) = []) || bool_decide (trim (redirect_uris form) = [])
  then mret (bad_request "invalid_request" "missing client metadata")
  else respond (
    result ← create_oauth_application hmac (client_name form) (redirect_uris form)
               (default (lit "read write follow push") (form_scopes form)) (form_website form) pepper;
    mret (Commit (AppResponse (fst (result : OAuthApplication * text)) (snd result)))).

(** [validate_authorize_request]: the application and the registered URI, or
    the error it answers with. *)
Definition validate_authorize_request (params : AuthorizeParams) :
    Op Db (OAuthApplication * text + Response) :=
  if negb (bool_decide (response_type params = Code))
  then mret (inr (bad_request "invalid_request" "unsupported authorization request"))
  else if bool_decide (is_Some (optional_non_empty (param_challenge params)))
          && negb (bool_decide (default PkceS256 (param_challenge_method params) = PkceS256))
  then mret (inr (bad_request "invalid_request" "PKCE S256 is required"))
  else
    found ← find_oauth_application_by_client_id (param_client_id params);
    match found with
    | None => mret (inr (bad_request "invalid_client" "unknown client"))
    | Some app =>
        match matching_redirect_uri (redirect_uri app) (param_redirect_uri params) with
        | None => mret (inr (bad_request "invalid_request" "redirect_uri mismatch"))
        | Some uri => mret (inl (app, uri))
        end
    end.

Definition authorization_callback_redirect (uri : text) (result : AuthorizationResult)
    (state : option text) : Response :=
  let pairs := match result with
               | Approved code => [(lit "code", code)]
               | Denied => [(lit "error", lit "access_denied")]
               end
               ++ match state with Some s => [(lit "state", s)] | None => [] end in
  match with_query_pairs uri pairs with
  | Some location => CallbackRedirect location
  | None => ServerErrorResponse (InvalidInput "registered OAuth redirect URI is invalid")
  end.

(** The answer that carries the decision back to the client. *)
Definition authorization_response (app : OAuthApplication) (user uri : text)
    (result : AuthorizationResult) (state : option text) : Response :=
  if bool_decide (uri = OOB_REDIRECT_URI) then OutOfBand (app_name app) user result
  else authorization_callback_redirect uri result state.

(** [session] is the account of a valid session cookie. *)
Definition authorize (session : option AccountId) (params : AuthorizeParams)
    (decision : AuthorizationDecision) : Op Db Response :=
  match session with
  | None => mret LoginRedirect
  | Some account_id =>
      found ← find_local_account_by_id account_id;
      match found with
      | None => mret LoginRedirect
      | Some account =>
          validated ← validate_authorize_request params;
          match validated with
          | inr response => mret response
          | inl (app, uri) =>
              if bool_decide (decision = Deny)
              then mret (authorization_response app (username account) uri Denied (param_state params))
              else
                let scope := default (app_scopes app) (param_scope params) in
                let challenge := default [] (optional_non_empty (param_challenge params)) in
                let method := if bool_decide (challenge = []) then NoChallenge else S256 in
                respond (
                  code ← create_authorization_code hmac pepper
                           (mkNewCode account_id (app_id app) uri scope challenge method);
                  mret (Commit (authorization_response app (username account) uri (Approved code)
                                  (param_state params))))
          end
      end
  end.

Definition pkce_fails (challenge : text) (method : PkceCodeChallengeMethod)
    (verifier : option text) : bool :=
  negb (bool_decide (challenge = []))
  && (negb (bool_decide (method = S256))
      || match verifier with
         | Some v => negb (bool_decide (pkce_s256_challenge v = challenge))
         | None => true
         end).

(** What follows the consumption of the code: a wrong verifier commits it. *)
Definition exchange (form : TokenForm) (app : OAuthApplication)
    (grant : option (AccountId * text * text * PkceCodeChallengeMethod)) : Op Db (txn Response) :=
  match grant with
  | None => mret (Rollback (bad_request "invalid_grant" "invalid authorization code"))
  | Some (account, scopes, challenge, method) =>
      if pkce_fails challenge method (form_code_verifier form)
      then mret (Commit (bad_request "invalid_grant" "invalid PKCE verifier"))
      else
        token ← create_access_token hmac pepper account (app_id app) scopes;
        mret (Commit (TokenResponse token))
  end.

Definition token (form : TokenForm) : Op Db Response :=
  respond (
    found ← find_oauth_application_by_client_id (form_client_id form);
    match found with
    | None => mret (Rollback (bad_request "invalid_client" "unknown client"))
    | Some app =>
        if match form_client_secret form with
           | Some secret => negb (bool_decide (secret_hash hmac pepper secret = client_secret_hash app))
           | None => false
           end
        then mret (Rollback (OAuthErrorResponse 401 "invalid_client" "invalid client secret"))
        else if negb (bool_decide (is_Some (form_client_secret form)))
                && bool_decide (grant_type form = ClientCredentials)
        then mret (Rollback (OAuthErrorResponse 401 "invalid_client" "client_secret is required"))
        else if bool_decide (grant_type form = ClientCredentials)
        then
          match client_credentials_scopes (form_scope form) (app_scopes app) with
          | inr description => mret (Rollback (bad_request "invalid_scope" description))
          | inl scopes =>
              token ← create_application_access_token hmac pepper (app_id app) scopes;
              mret (Commit (TokenResponse token))
          end
        else if negb (bool_decide (grant_type form = AuthorizationCode))
        then mret (Rollback (bad_request "unsupported_grant_type" "unsupported grant_type"))
        else
          match form_code form with
          | None => mret (Rollback (bad_request "invalid_request" "code is required"))
          | Some code =>
              match form_redirect_uri form with
              | None => mret (Rollback (bad_request "invalid_request" "redirect_uri is required"))
              | Some requested =>
                  match matching_redirect_uri (redirect_uri app) requested with
                  | None => mret (Rollback (bad_request "invalid_grant" "redirect_uri mismatch"))
                  | Some uri =>
                      grant ← consume_authorization_code hmac pepper code (app_id app) uri;
                      exchange form app grant
                  end
              end
          end
    end).

Definition revoke (raw : text) : Op Db Response :=
  respond (revoke_access_token hmac pepper raw;; mret (Commit Empty)).

(** [account_from_bearer_token]: the granted scopes are dropped. *)
Definition account_from_bearer_token (bearer : text) : Op Db (option (AccountId * LocalAccount)) :=
  found ← find_account_by_access_token hmac pepper bearer;
  mret (fst <$> found).
End Endpoints.
