(* ===== verification/OAuthInvariant.v ===== *)
(** What the OAuth endpoints guarantee over every history of requests: an
    authorization code is exchanged at most once when requests do not overlap -
    and twice when they do -, an issued token speaks for the account and the
    scopes of its code, a revoked token never works again, and how far granted
    scopes are bounded by the application's registration. *)
From S2P Require Import Prelude Core Text OAuth.

(** * The invariant and what never goes back *)

Record store_ok (d : Db) : Prop := {
  code_keys : forall k r, codes d !! k = Some r -> code_id r = k;
  code_hashes : forall k k' r r', codes d !! k = Some r -> codes d !! k' = Some r' ->
    code_hash r = code_hash r' -> k = k';
  token_keys : forall k r, tokens d !! k = Some r -> token_id r = k;
  token_hashes : forall k k' r r', tokens d !! k = Some r -> tokens d !! k' = Some r' ->
    token_hash r = token_hash r' -> k = k';
}.

Definition code_le (r r' : CodeRow) : Prop :=
  code_hash r' = code_hash r /\ (is_Some (code_consumed_at r) -> is_Some (code_consumed_at r')).
Definition token_le (r r' : TokenRow) : Prop :=
  token_hash r' = token_hash r /\ (is_Some (token_revoked_at r) -> is_Some (token_revoked_at r')).

Record store_le (d d' : Db) : Prop := {
  codes_kept : forall k r, codes d !! k = Some r -> exists r', codes d' !! k = Some r' /\ code_le r r';
  tokens_kept : forall k r, tokens d !! k = Some r -> exists r', tokens d' !! k = Some r' /\ token_le r r';
}.

Lemma code_le_refl r : code_le r r.
Proof. by split. Qed.
Lemma token_le_refl r : token_le r r.
Proof. by split. Qed.

#[export] Instance store_le_preorder : PreOrder store_le.
Proof.
  split.
  - intros d. split; intros k r Hk; exists r; split; auto using code_le_refl, token_le_refl.
  - intros a b c [A1 A2] [B1 B2]. split; intros k r Hk.
    + destruct (A1 k r Hk) as (r1 & H1 & [E1 I1]). destruct (B1 k r1 H1) as (r2 & H2 & [E2 I2]).
      exists r2. split; [done|]. split; [congruence|auto].
    + destruct (A2 k r Hk) as (r1 & H1 & [E1 I1]). destruct (B2 k r1 H1) as (r2 & H2 & [E2 I2]).
      exists r2. split; [done|]. split; [congruence|auto].
Qed.

(** Operations that keep the invariant and only move forward. *)
Definition advances {A} (m : Op Db A) : Prop :=
  forall w d a w' d', store_ok d -> m w d = (Ok a, w', d') -> store_ok d' /\ store_le d d'.

Lemma advances_bind {A B} (m : Op Db A) (k : A -> Op Db B) :
  advances m -> (forall a, advances (k a)) -> advances (m ≫= k).
Proof.
  intros Hm Hk w d b w' d' Hok H. inv_bind H a w1 d1 Ha.
  destruct (Hm _ _ _ _ _ Hok Ha) as [Hok1 Hle1].
  destruct (Hk a _ _ _ _ _ Hok1 H) as [Hok2 Hle2]. split; [done|]. by transitivity d1.
Qed.

(** Nothing but the codes and tokens matters. *)
Definition core (d : Db) := (codes d, tokens d).

Lemma core_advances {A} (m : Op Db A) : keeps core m -> advances m.
Proof.
  intros Hm w d a w' d' [K1 K2 K3 K4] H. apply (keeps_run _ _ _ _ _ _ _ Hm) in H.
  injection H as Hc Ht. split; [split; rewrite ?Hc, ?Ht; auto|].
  split; rewrite ?Hc, ?Ht; intros k r Hk; exists r; auto using code_le_refl, token_le_refl.
Qed.

Lemma advances_transaction {A} (m : Op Db (txn A)) : advances m -> advances (transaction m).
Proof.
  intros Hm w d a w' d' Hok H. unfold transaction in H.
  destruct (m w d) as [[[[b|b]|e] w1] d1] eqn:Hrun; [|by injection H as _ _ <-|done].
  injection H as _ _ <-. by eapply Hm.
Qed.

Lemma advances_respond (m : Op Db (txn Response)) : advances m -> advances (respond m).
Proof.
  intros Hm w d a w' d' Hok H. unfold respond in H.
  destruct (transaction m w d) as [[[b|e] w1] d1] eqn:Hrun; injection H as _ _ <-.
  - by eapply advances_transaction.
  - unfold transaction in Hrun. destruct (m w d) as [[[[b|b]|e'] w2] d2]; try done.
    by injection Hrun as _ _ <-.
Qed.

Ltac solve_core := apply core_advances; solve [solve_keeps].

Lemma taken_false {V} (column : V -> text) value (t : gmap uuid V) k v :
  taken column value t = false -> t !! k = Some v -> column v <> value.
Proof.
  unfold taken. intros H Hk Heq. apply negb_false_iff, bool_decide_eq_true in H.
  rewrite rows_where_nil in H. specialize (H k v Hk). simpl in H.
  by rewrite bool_decide_true in H.
Qed.

(** A fresh row with a hash of its own. *)
Lemma insert_code_ok i row d :
  store_ok d -> codes d !! i = None -> code_id row = i ->
  (forall k r, codes d !! k = Some r -> code_hash r <> code_hash row) ->
  store_ok (set_codes (<[i := row]> (codes d)) d) /\ store_le d (set_codes (<[i := row]> (codes d)) d).
Proof.
  intros [K1 K2 K3 K4] Hnew Hid Hfresh. split; [split; simpl; auto|split; simpl].
  - intros k r. rewrite lookup_insert_Some. intros [[<- <-]|[_ Hk]]; auto.
  - intros k k' r r'. rewrite !lookup_insert_Some.
    intros [[<- <-]|[Hne Hk]] [[<- <-]|[Hne' Hk']] Hh; [done| | |by eauto];
      exfalso; eapply Hfresh; by eauto.
  - intros k r Hk. exists r. rewrite lookup_insert_ne by congruence. auto using code_le_refl.
  - intros k r Hk. exists r. auto using token_le_refl.
Qed.

Lemma insert_token_ok i row d :
  store_ok d -> tokens d !! i = None -> token_id row = i ->
  (forall k r, tokens d !! k = Some r -> token_hash r <> token_hash row) ->
  store_ok (set_tokens (<[i := row]> (tokens d)) d)
  /\ store_le d (set_tokens (<[i := row]> (tokens d)) d).
Proof.
  intros [K1 K2 K3 K4] Hnew Hid Hfresh. split; [split; simpl; auto|split; simpl].
  - intros k r. rewrite lookup_insert_Some. intros [[<- <-]|[_ Hk]]; auto.
  - intros k k' r r'. rewrite !lookup_insert_Some.
    intros [[<- <-]|[Hne Hk]] [[<- <-]|[Hne' Hk']] Hh; [done| | |by eauto];
      exfalso; eapply Hfresh; by eauto.
  - intros k r Hk. exists r. auto using code_le_refl.
  - intros k r Hk. exists r. rewrite lookup_insert_ne by congruence. auto using token_le_refl.
Qed.

(** Rows rewritten in place, moving forward. *)
Lemma update_codes_ok (f : gmap uuid CodeRow) d :
  store_ok d ->
  (forall k, match codes d !! k, f !! k with
             | Some r, Some r' => code_id r' = code_id r /\ code_le r r'
             | None, None => True | _, _ => False end) ->
  store_ok (set_codes f d) /\ store_le d (set_codes f d).
Proof.
  intros [K1 K2 K3 K4] Hf.
  assert (Hback : forall k r', f !! k = Some r' ->
    exists r, codes d !! k = Some r /\ code_id r' = code_id r /\ code_le r r').
  { intros k r' Hk. specialize (Hf k). rewrite Hk in Hf. destruct (codes d !! k) as [r|]; [|done].
    by exists r. }
  split; [split; simpl; auto|split; simpl].
  - intros k r Hk. destruct (Hback k r Hk) as (r0 & H0 & -> & _). auto.
  - intros k k' r r' Hk Hk' Hh. destruct (Hback k r Hk) as (r0 & H0 & _ & [E0 _]).
    destruct (Hback k' r' Hk') as (r1 & H1 & _ & [E1 _]). eapply K2; [done|done|congruence].
  - intros k r Hk. specialize (Hf k). rewrite Hk in Hf. destruct (f !! k) as [r'|]; [|done].
    exists r'. by destruct Hf.
  - intros k r Hk. exists r. auto using token_le_refl.
Qed.

Lemma update_tokens_ok (f : gmap uuid TokenRow) d :
  store_ok d ->
  (forall k, match tokens d !! k, f !! k with
             | Some r, Some r' => token_id r' = token_id r /\ token_le r r'
             | None, None => True | _, _ => False end) ->
  store_ok (set_tokens f d) /\ store_le d (set_tokens f d).
Proof.
  intros [K1 K2 K3 K4] Hf.
  assert (Hback : forall k r', f !! k = Some r' ->
    exists r, tokens d !! k = Some r /\ token_id r' = token_id r /\ token_le r r').
  { intros k r' Hk. specialize (Hf k). rewrite Hk in Hf. destruct (tokens d !! k) as [r|]; [|done].
    by exists r. }
  split; [split; simpl; auto|split; simpl].
  - intros k r Hk. destruct (Hback k r Hk) as (r0 & H0 & -> & _). auto.
  - intros k k' r r' Hk Hk' Hh. destruct (Hback k r Hk) as (r0 & H0 & _ & [E0 _]).
    destruct (Hback k' r' Hk') as (r1 & H1 & _ & [E1 _]). eapply K4; [done|done|congruence].
  - intros k r Hk. exists r. auto using code_le_refl.
  - intros k r Hk. specialize (Hf k). rewrite Hk in Hf. destruct (f !! k) as [r'|]; [|done].
    exists r'. by destruct Hf.
Qed.

(** * Every operation moves forward *)

Section Advances.
Context (hmac : text -> text -> text) (pepper : text).

Lemma advances_random_token : advances random_token.
Proof. solve_core. Qed.

Lemma advances_create_application name uri scopes site :
  advances (create_oauth_application hmac name uri scopes site pepper).
Proof. unfold create_oauth_application, unique_violation, random_token. solve_core. Qed.

Lemma create_code_run new_code w d code w' d' :
  create_authorization_code hmac pepper new_code w d = (Ok code, w', d') ->
  exists i now,
    let row := mkCode i (secret_hash hmac pepper code) (account_uuid (new_account new_code))
      (new_application new_code) (new_redirect_uri new_code) (new_scopes new_code)
      (new_challenge new_code) (new_challenge_method new_code) (now + minutes 5) None in
    d' = set_codes (<[i := row]> (codes d)) d /\ codes d !! i = None /\
    taken code_hash (code_hash row) (codes d) = false.
Proof.
  intros H. unfold create_authorization_code, random_token in H.
  inv_bind H c w1 d1 Hc. inv_bind Hc t w2 d2 Ht. injection Ht as <- <- <-. injection Hc as <- <- <-.
  inv_bind H now w3 d3 Hn. injection Hn as <- <- <-. inv_bind H i w4 d4 Hi. injection Hi as <- <- <-.
  inv_bind H d0 w5 d5 Hd. injection Hd as <- <- <-.
  destruct (taken _ _ _ || _) eqn:Ht; [done|]. apply orb_false_iff in Ht as [Ht Hi].
  destruct (negb _ || negb _); [done|]. inv_bind H u w6 d6 Hm. injection Hm as <- <- <-.
  injection H as <- _ <-. eexists _, _. split; [done|]. split; [|done].
  apply bool_decide_eq_false in Hi. by apply eq_None_not_Some.
Qed.

Lemma advances_create_code new_code : advances (create_authorization_code hmac pepper new_code).
Proof.
  intros w d a w' d' Hok H. apply create_code_run in H as (i & now & -> & Hi & Ht).
  apply insert_code_ok; [done|done|done|]. intros k r. by apply taken_false.
Qed.

Lemma consume_found_run found w d g w' d' :
  consume_found found w d = (Ok g, w', d') ->
  (g = None /\ d' = d) \/
  exists r at_ current, found = Some r /\ g = Some (grant_of r) /\
    w_clock w (w_ticks w) < code_expires_at r /\ codes d !! code_id r = Some current /\
    d' = set_codes (<[code_id r := consumed_row at_ current]> (codes d)) d.
Proof.
  intros H. unfold consume_found in H. destruct found as [r|]; [|injection H as <- _ <-; by left].
  inv_bind H now w1 d1 Hn. injection Hn as <- <- <-.
  destruct (_ <=? _) eqn:He; [injection H as <- _ <-; by left|].
  inv_bind H at_ w2 d2 Hn. injection Hn as <- <- <-. inv_bind H d0 w3 d3 Hd. injection Hd as <- <- <-.
  destruct (codes d !! code_id r) as [current|] eqn:Hc; [|done].
  inv_bind H u w4 d4 Hm. injection Hm as <- <- <-. injection H as <- _ <-.
  right. eexists r, _, current. apply Z.leb_gt in He. done.
Qed.

Lemma advances_consume_found found : advances (consume_found found).
Proof.
  intros w d a w' d' Hok H.
  apply consume_found_run in H as [[_ ->]|(r & at_ & current & _ & _ & _ & Hc & ->)]; [done|].
  apply update_codes_ok; [done|]. intros k. destruct (decide (k = code_id r)) as [->|Hne].
  - rewrite Hc, lookup_insert_eq. split; [done|]. split; [done|]. by eexists.
  - rewrite lookup_insert_ne by done. destruct (codes d !! k); [|done]. split; [done|apply code_le_refl].
Qed.

Lemma advances_consume code app uri : advances (consume_authorization_code hmac pepper code app uri).
Proof.
  apply advances_bind; [unfold find_code; solve_core|intros; apply advances_consume_found].
Qed.

Lemma create_token_run account app scopes w d t w' d' :
  create_access_token_for_subject hmac pepper account app scopes w d = (Ok t, w', d') ->
  exists i now,
    let row := mkToken i (secret_hash hmac pepper (raw_token t)) (account_uuid <$> account) app scopes
      now None None in
    d' = set_tokens (<[i := row]> (tokens d)) d /\ tokens d !! i = None /\
    taken token_hash (token_hash row) (tokens d) = false /\ scope t = scopes.
Proof.
  intros H. unfold create_access_token_for_subject, random_token in H.
  inv_bind H c w1 d1 Hc. inv_bind Hc t0 w2 d2 Ht. injection Ht as <- <- <-. injection Hc as <- <- <-.
  inv_bind H now w3 d3 Hn. injection Hn as <- <- <-. inv_bind H i w4 d4 Hi. injection Hi as <- <- <-.
  inv_bind H d0 w5 d5 Hd. injection Hd as <- <- <-.
  destruct (taken _ _ _ || _) eqn:Ht; [done|]. apply orb_false_iff in Ht as [Ht Hi].
  destruct (negb _ || negb _); [done|]. inv_bind H u w6 d6 Hm. injection Hm as <- <- <-.
  injection H as <- _ <-. eexists _, _. split; [done|]. split; [|done].
  apply bool_decide_eq_false in Hi. by apply eq_None_not_Some.
Qed.

Lemma advances_create_token account app scopes :
  advances (create_access_token_for_subject hmac pepper account app scopes).
Proof.
  intros w d a w' d' Hok H. apply create_token_run in H as (i & now & -> & Hi & Ht & _).
  apply insert_token_ok; [done|done|done|]. intros k r. by apply taken_false.
Qed.

Lemma revoked_row_le now r : token_id (revoked_row now r) = token_id r /\ token_le r (revoked_row now r).
Proof. split; [done|]. split; [done|]. by eexists. Qed.

Lemma advances_revoke raw : advances (revoke_access_token hmac pepper raw).
Proof.
  intros w d a w' d' Hok H. unfold revoke_access_token in H.
  inv_bind H d0 w1 d1 Hd. injection Hd as <- <- <-.
  destruct (head _) as [r|] eqn:Hr; [|by injection H as _ _ <-].
  apply (head_row_keyed _ _ token_id) in Hr as [Hr _]; [|apply (token_keys _ Hok)].
  inv_bind H u w2 d2 Hm. injection Hm as <- <- <-. inv_bind H now w3 d3 Hn. injection Hn as <- <- <-.
  injection H as _ _ <-.
  destruct (update_tokens_ok (<[token_id r := revoked_row (w_clock w (w_ticks w)) r]> (tokens d)) d Hok)
    as [[K1 K2 K3 K4] [L1 L2]].
  { intros k. destruct (decide (k = token_id r)) as [->|Hne].
    - rewrite Hr, lookup_insert_eq. apply revoked_row_le.
    - rewrite lookup_insert_ne by done. destruct (tokens d !! k); [|done].
      split; [done|apply token_le_refl]. }
  by split; split.
Qed.

Lemma advances_revoke_account account now : advances (revoke_account_tokens account now).
Proof.
  intros w d a w' d' Hok H. injection H as _ _ <-. apply update_tokens_ok; [done|].
  intros k. rewrite lookup_update_where. destruct (tokens d !! k) as [r|]; [|done]. simpl.
  destruct (_ && _); [apply revoked_row_le|]. split; [done|apply token_le_refl].
Qed.

Lemma advances_suspend account suspended : advances (set_account_suspended account suspended).
Proof.
  apply advances_bind; [solve_core|]. intros now. apply advances_bind; [solve_core|]. intros d.
  destruct (_ !! _); [|solve_core]. apply advances_bind; [solve_core|]. intros _.
  unfold when. destruct (_ && _); [apply advances_revoke_account|solve_core].
Qed.
End Advances.

(** * Histories of requests *)

Section Requests.
Context (hmac : text -> text -> text) (pkce_s256_challenge : text -> text)
        (percent_decode : text -> option text)
        (with_query_pairs : text -> list (text * text) -> option text)
        (pepper : text).

Abbreviation register_app' := (register_app hmac pepper).
Abbreviation authorize' := (authorize hmac percent_decode with_query_pairs pepper).
Abbreviation token' := (token hmac pkce_s256_challenge percent_decode pepper).
Abbreviation revoke' := (revoke hmac pepper).

Lemma advances_register form : advances (register_app' form).
Proof.
  unfold register_app. destruct (_ || _); [solve_core|]. apply advances_respond.
  apply advances_bind; [apply advances_create_application|intros; solve_core].
Qed.

Lemma advances_validate params : advances (validate_authorize_request percent_decode params).
Proof. unfold validate_authorize_request, find_oauth_application_by_client_id. solve_core. Qed.

Lemma advances_authorize session params decision : advances (authorize' session params decision).
Proof.
  unfold authorize. destruct session as [account|]; [|solve_core].
  apply advances_bind; [unfold find_local_account_by_id; solve_core|]. intros [a|]; [|solve_core].
  apply advances_bind; [apply advances_validate|]. intros [[app uri]|]; [|solve_core].
  destruct (bool_decide _); [solve_core|]. apply advances_respond.
  apply advances_bind; [apply advances_create_code|intros; solve_core].
Qed.

Lemma advances_exchange form app grant :
  advances (exchange hmac pkce_s256_challenge pepper form app grant).
Proof.
  unfold exchange. destruct grant as [[[[account scopes] challenge] method]|]; [|solve_core].
  destruct (pkce_fails _ _ _ _); [solve_core|].
  apply advances_bind; [apply advances_create_token|intros; solve_core].
Qed.

Lemma advances_token form : advances (token' form).
Proof.
  apply advances_respond. apply advances_bind; [unfold find_oauth_application_by_client_id; solve_core|].
  intros [app|]; [|solve_core]. destruct (form_client_secret form) as [secret|].
  all: repeat match goal with
    | |- advances (mret _) => apply core_advances, keeps_ret
    | |- advances (if ?b then _ else _) => destruct b
    | |- advances (match ?b with _ => _ end) => destruct b
    | |- advances (_ ≫= _) => apply advances_bind; [|intros]
    | |- advances (create_application_access_token _ _ _ _) =>
        unfold create_application_access_token; apply advances_create_token
    | |- advances (consume_authorization_code _ _ _ _ _) => apply advances_consume
    | |- advances (exchange _ _ _ _ _ _) => apply advances_exchange
    end.
Qed.

Lemma advances_revoke_request raw : advances (revoke' raw).
Proof. apply advances_respond, advances_bind; [apply advances_revoke|intros; solve_core]. Qed.

Lemma advances_insert_account name mail hash admin : advances (insert_local_account name mail hash admin).
Proof. unfold insert_local_account, ensure_local_account_available. solve_core. Qed.

Lemma advances_password account hash : advances (update_local_account_password_hash_by_id account hash).
Proof. unfold update_local_account_password_hash_by_id, find_local_account_by_id. solve_core. Qed.

Lemma advances_upsert_push input : advances (upsert_push_subscription input).
Proof.
  unfold upsert_push_subscription, push_subscription_for_access_token. solve_core.
Qed.

Lemma advances_update_push i alerts policy : advances (update_push_subscription i alerts policy).
Proof. unfold update_push_subscription, push_subscription_for_access_token. solve_core. Qed.

Lemma advances_delete_push i : advances (delete_push_subscription i).
Proof. unfold delete_push_subscription. solve_core. Qed.

Inductive request : forall A, Op Db A -> Prop :=
| request_register form : request _ (register_app' form)
| request_authorize session params decision : request _ (authorize' session params decision)
| request_token form : request _ (token' form)
| request_revoke raw : request _ (revoke' raw)
| request_create_account name mail hash admin : request _ (insert_local_account name mail hash admin)
| request_password account hash : request _ (update_local_account_password_hash_by_id account hash)
| request_suspend account suspended : request _ (set_account_suspended account suspended)
| request_registered_token account app scopes : request _ (create_access_token hmac pepper account app scopes)
| request_subscribe input : request _ (upsert_push_subscription input)
| request_resubscribe i alerts policy : request _ (update_push_subscription i alerts policy)
| request_unsubscribe i : request _ (delete_push_subscription i)
| request_drop_subscription i : request _ (delete_push_subscription_by_id i).

Definition step (d d' : Db) : Prop :=
  exists A (m : Op Db A) w a w', request A m /\ m w d = (Ok a, w', d').

Lemma request_advances A (m : Op Db A) : request A m -> advances m.
Proof.
  destruct 1; eauto using advances_register, advances_authorize, advances_token,
    advances_revoke_request, advances_insert_account, advances_password, advances_suspend,
    advances_upsert_push, advances_update_push, advances_delete_push.
  - unfold create_access_token. apply advances_create_token.
  - unfold delete_push_subscription_by_id. solve_core.
Qed.

Lemma history_advances d d' : store_ok d -> rtc step d d' -> store_ok d' /\ store_le d d'.
Proof.
  intros Hok Hr. revert Hok. induction Hr as [d|d1 d2 d3 Hs _ IH]; intros Hok; [done|].
  destruct Hs as (A & m & w & a & w' & Hm & Hrun).
  destruct (request_advances A m Hm w d1 a w' d2 Hok Hrun) as [Hok2 Hle2].
  destruct (IH Hok2) as [Hok3 Hle3]. split; [done|]. by transitivity d2.
Qed.

(** The code has been presented successfully once. *)
Definition spent (code : text) (d : Db) : Prop :=
  exists k r, codes d !! k = Some r /\ code_hash r = secret_hash hmac pepper code /\
    is_Some (code_consumed_at r).

Lemma spent_le code d d' : store_le d d' -> spent code d -> spent code d'.
Proof.
  intros [L _] (k & r & Hk & Hh & Hc). destruct (L k r Hk) as (r' & Hk' & [Hh' Hc']).
  exists k, r'. split; [done|]. split; [congruence|auto].
Qed.

Lemma spent_not_found code app uri d w :
  store_ok d -> spent code d -> find_code hmac pepper code app uri w d = (Ok None, w, d).
Proof.
  intros Hok (k & r & Hk & Hh & Hc). unfold find_code, gets.
  assert (rows_where (code_matches hmac pepper code app uri) (codes d) = []) as ->; [|done].
  apply rows_where_nil. intros k' r' Hk'. unfold code_matches.
  destruct (bool_decide (code_hash r' = _)) eqn:Hh'; [|done]. apply bool_decide_eq_true in Hh'.
  assert (k = k') as <- by (eapply (code_hashes d Hok); [done|done|congruence]).
  assert (r = r') as <- by congruence. rewrite (bool_decide_true _ Hc). by rewrite andb_false_r.
Qed.

(** ** The token endpoint *)

Definition invalid_verifier : Response := bad_request "invalid_grant" "invalid PKCE verifier".

(** The client the request names, the code it presents and the registered URI
    it comes back to. *)
Record presents (form : TokenForm) (d : Db) (app : OAuthApplication) (code uri : text) : Prop := {
  presented_app : exists k, applications d !! k = Some app;
  presented_client : client_id app = form_client_id form;
  presented_secret : forall secret, form_client_secret form = Some secret ->
    secret_hash hmac pepper secret = client_secret_hash app;
  presented_code : form_code form = Some code;
  presented_uri : exists requested, form_redirect_uri form = Some requested /\
    matching_redirect_uri percent_decode (redirect_uri app) requested = Some uri;
}.

(** The row of a live code presented with its verifier. *)
Record redeems (form : TokenForm) (now : time) (d : Db) (app : OAuthApplication) (code uri : text)
    (r : CodeRow) : Prop := {
  redeemed_presents : presents form d app code uri;
  redeemed_row : codes d !! code_id r = Some r;
  redeemed_matches : code_matches hmac pepper code (app_id app) uri r = true;
  redeemed_live : now < code_expires_at r;
}.

Lemma find_application_run client w d found w' d' :
  find_oauth_application_by_client_id client w d = (Ok found, w', d') ->
  w' = w /\ d' = d /\
  forall app, found = Some app -> (exists k, applications d !! k = Some app) /\ client_id app = client.
Proof.
  intros [= <- <- <-]. split; [done|]. split; [done|]. intros app Hh.
  assert (app ∈ rows_where (fun a => bool_decide (client_id a = client)) (applications d)) as Hin.
  { destruct (rows_where _ _); [done|]. injection Hh as ->. left. }
  apply elem_of_rows_where in Hin as [Hk Hc]. by apply bool_decide_eq_true in Hc.
Qed.

(** A handler's answer: its transaction committed, was dropped, or failed. *)
Lemma respond_run (m : Op Db (txn Response)) w d resp w' d' :
  respond m w d = (Ok resp, w', d') ->
  (exists d1, m w d = (Ok (Rollback resp), w', d1) /\ d' = d) \/
  m w d = (Ok (Commit resp), w', d') \/
  (exists e d1, m w d = (Err e, w', d1) /\ d' = d /\ resp = ServerErrorResponse e).
Proof.
  unfold respond, transaction. destruct (m w d) as [[[[b|b]|e] w1] d1] eqn:Hm; intros [= <- <- <-];
    [right; left|left|right; right]; eauto.
Qed.

Lemma consume_run code app uri w d g w' d' :
  store_ok d -> consume_authorization_code hmac pepper code app uri w d = (Ok g, w', d') ->
  (g = None /\ d' = d) \/
  exists r at_, g = Some (grant_of r) /\ codes d !! code_id r = Some r /\
    code_matches hmac pepper code app uri r = true /\ w_clock w (w_ticks w) < code_expires_at r /\
    d' = set_codes (<[code_id r := consumed_row at_ r]> (codes d)) d.
Proof.
  intros Hok H. unfold consume_authorization_code, find_code in H.
  inv_bind H found w1 d1 Hf. injection Hf as Hf <- <-.
  apply consume_found_run in H as [[-> ->]|(r & at_ & current & -> & -> & He & Hc & ->)]; [by left|right].
  apply (head_row_keyed _ _ code_id) in Hf as [Hr Hm]; [|apply (code_keys _ Hok)].
  assert (current = r) as -> by congruence. by exists r, at_.
Qed.

Lemma token_run form w d resp w' d' :
  store_ok d -> grant_type form = AuthorizationCode -> token' form w d = (Ok resp, w', d') ->
  (d' = d /\ (forall t, resp <> TokenResponse t) /\ resp <> invalid_verifier) \/
  exists app code uri r at_,
    redeems form (w_clock w (w_ticks w)) d app code uri r /\
    let d1 := set_codes (<[code_id r := consumed_row at_ r]> (codes d)) d in
    let fails := pkce_fails pkce_s256_challenge (code_challenge r) (code_challenge_method r)
                   (form_code_verifier form) in
    (fails = true /\ resp = invalid_verifier /\ d' = d1) \/
    (fails = false /\ exists t w1, resp = TokenResponse t /\
       create_access_token hmac pepper (mkAccountId (code_account r)) (app_id app) (code_scopes r) w1 d1
       = (Ok t, w', d')).
Proof.
  intros Hok Hgrant H. unfold token in H.
  apply respond_run in H as [(d1 & H & ->)|[H|(e & d1 & H & -> & ->)]]; [left| |by left].
  - split; [done|]. inv_bind H found w1 d2 Hf. apply find_application_run in Hf as (-> & -> & _).
    destruct found as [app|]; [|by injection H as <- _ _].
    match type of H with (if ?b then _ else _) _ _ = _ => destruct b end; [by injection H as <- _ _|].
    rewrite Hgrant in H. rewrite (bool_decide_false (AuthorizationCode = ClientCredentials)) in H by done.
    rewrite andb_false_r in H. simpl in H.
    destruct (form_code form); [|by injection H as <- _ _].
    destruct (form_redirect_uri form); [|by injection H as <- _ _].
    destruct (matching_redirect_uri _ _ _); [|by injection H as <- _ _].
    inv_bind H g w2 d3 Hg. unfold exchange in H.
    destruct g as [[[[account scopes] challenge] method]|]; [|by injection H as <- _ _].
    destruct (pkce_fails _ _ _ _); [done|]. by inv_bind H t w3 d4 Ht.
  - right. inv_bind H found w1 d2 Hf. apply find_application_run in Hf as (-> & -> & Happ).
    destruct found as [app|]; [|done]. destruct (Happ app eq_refl) as [Hk Hclient].
    match type of H with (if ?b then _ else _) _ _ = _ => destruct b eqn:Hsecret end; [done|].
    rewrite Hgrant in H. rewrite (bool_decide_false (AuthorizationCode = ClientCredentials)) in H by done.
    rewrite andb_false_r in H. simpl in H.
    destruct (form_code form) as [code|] eqn:Hcode; [|done].
    destruct (form_redirect_uri form) as [requested|] eqn:Huri; [|done].
    destruct (matching_redirect_uri _ _ _) as [uri|] eqn:Hmatch; [|done].
    inv_bind H g w2 d3 Hg. apply consume_run in Hg as [[-> ->]|(r & at_ & -> & Hr & Hm & He & ->)];
      [done| |done].
    exists app, code, uri, r, at_. split.
    { split; [|done..]. split; [done|done| |done|by exists requested].
      intros secret Hs. rewrite Hs in Hsecret. by apply negb_false_iff, bool_decide_eq_true in Hsecret. }
    cbv zeta. unfold exchange, grant_of in H. destruct (pkce_fails _ _ _ _) eqn:Hp.
    + injection H as <- _ <-. by left.
    + right. split; [done|]. inv_bind H t w3 d4 Ht. injection H as <- <- <-. by exists t, w2.
Qed.
End Requests.

Definition no_secrets (d : Db) : Prop := codes d = ∅ /\ tokens d = ∅.

Lemma no_secrets_ok d : no_secrets d -> store_ok d.
Proof. intros [Hc Ht]. split; rewrite ?Hc, ?Ht; intros *; by rewrite lookup_empty. Qed.

Section Theorems.
Context (hmac : text -> text -> text) (pkce_s256_challenge : text -> text)
        (percent_decode : text -> option text)
        (with_query_pairs : text -> list (text * text) -> option text)
        (pepper : text).
Abbreviation history := (rtc (step hmac pkce_s256_challenge percent_decode with_query_pairs pepper)).
Abbreviation token' := (token hmac pkce_s256_challenge percent_decode pepper).

Lemma code_matches_spec code app uri r :
  code_matches hmac pepper code app uri r = true ->
  code_hash r = secret_hash hmac pepper code /\ code_application r = app /\
  code_redirect_uri r = uri /\ code_consumed_at r = None.
Proof.
  unfold code_matches. rewrite !andb_true_iff, negb_true_iff, !bool_decide_eq_true,
    bool_decide_eq_false, N.eqb_eq. intros [[[H1 H2] H3] H4].
  apply eq_None_not_Some in H4. done.
Qed.

Lemma consumed_spent code app uri r at_ d :
  code_matches hmac pepper code app uri r = true ->
  spent hmac pepper code (set_codes (<[code_id r := consumed_row at_ r]> (codes d)) d).
Proof.
  intros (Hh & _)%code_matches_spec. exists (code_id r), (consumed_row at_ r). simpl.
  rewrite lookup_insert_eq. split; [done|]. split; [done|]. by eexists.
Qed.

Lemma create_token_spent code account app scopes w d t w' d' :
  create_access_token hmac pepper account app scopes w d = (Ok t, w', d') ->
  spent hmac pepper code d -> spent hmac pepper code d'.
Proof.
  intros H. unfold create_access_token in H. apply create_token_run in H as (i & now & -> & _).
  done.
Qed.

Lemma spent_never_redeems form now d app code uri r :
  store_ok d -> spent hmac pepper code d -> ~ redeems hmac percent_decode pepper form now d app code uri r.
Proof.
  intros Hok (k & r' & Hk & Hh & Hc) [_ Hr Hm _].
  apply code_matches_spec in Hm as (Hh' & _ & _ & Hn).
  assert (k = code_id r) as -> by (eapply (code_hashes d Hok); [done|done|congruence]).
  assert (r' = r) as -> by congruence. rewrite Hn in Hc. by destruct Hc.
Qed.

(** C3. When requests do not overlap, an authorization code is spent by the
    first exchange that gets past the lookup - one that issues a token, or one
    that fails on the PKCE verifier -: in every later history no request that
    presents the code, from whatever client, obtains a token or changes the
    store. *)
Theorem authorization_code_single_use d0 form code w d resp w1 d1 d2 form2 w2 resp2 w3 d3 :
  no_secrets d0 -> history d0 d ->
  grant_type form = AuthorizationCode -> form_code form = Some code ->
  token' form w d = (Ok resp, w1, d1) ->
  (exists t, resp = TokenResponse t) \/ resp = invalid_verifier ->
  history d1 d2 ->
  grant_type form2 = AuthorizationCode -> form_code form2 = Some code ->
  token' form2 w2 d2 = (Ok resp2, w3, d3) ->
  (forall t, resp2 <> TokenResponse t) /\ d3 = d2.
Proof.
  intros H0 Hr Hg Hcode Hrun Hresp Hr2 Hg2 Hcode2 Hrun2.
  destruct (history_advances _ _ _ _ _ _ _ (no_secrets_ok _ H0) Hr) as [Hok _].
  destruct (advances_token _ _ _ _ form w d resp w1 d1 Hok Hrun) as [Hok1 _].
  destruct (history_advances _ _ _ _ _ _ _ Hok1 Hr2) as [Hok2 Hle].
  assert (spent hmac pepper code d2) as Hspent.
  { apply (spent_le _ _ _ d1); [done|].
    destruct (token_run _ _ _ _ form w d resp w1 d1 Hok Hg Hrun)
      as [(_ & Hno & Hno')|(app & c & uri & r & at_ & Hred & Hcase)].
    - destruct Hresp as [[t ->]| ->]; [by destruct (Hno t)|done].
    - assert (c = code) as -> by (destruct Hred as [[] _ _ _]; congruence).
      pose proof (consumed_spent code _ uri r at_ d (redeemed_matches _ _ _ _ _ _ _ _ _ _ Hred)) as Hs.
      destruct Hcase as [(_ & _ & ->)|(_ & t & w4 & _ & Hcreate)]; [done|].
      by eapply create_token_spent. }
  destruct (token_run _ _ _ _ form2 w2 d2 resp2 w3 d3 Hok2 Hg2 Hrun2)
    as [(-> & Hno & _)|(app & c & uri & r & at_ & Hred & _)]; [done|].
  assert (c = code) as -> by (destruct Hred as [[] _ _ _]; congruence).
  by apply (spent_never_redeems _ _ _ _ _ _ _ Hok2 Hspent) in Hred.
Qed.

(** Two overlapping exchanges of one code both get its grant: when the second
    has looked the code up before the first marks it, it marks it again and goes
    on to issue a token for the same account and scopes. *)
Theorem authorization_code_race code app uri w d r w1 d1 w2 g w3 d2 w4 :
  store_ok d ->
  find_code hmac pepper code app uri w d = (Ok (Some r), w1, d1) ->
  consume_authorization_code hmac pepper code app uri w2 d1 = (Ok (Some g), w3, d2) ->
  w_clock w4 (w_ticks w4) < code_expires_at r ->
  g = grant_of r /\ value_of (consume_found (Some r)) w4 d2 = Ok (Some g).
Proof.
  intros Hok Hfind Hconsume Hlive. pose proof Hfind as Hhead. injection Hhead as Hhead _ <-.
  unfold consume_authorization_code in Hconsume. inv_bind Hconsume found w5 d3 Hf.
  injection Hf as Hf <- <-. rewrite Hhead in Hf. subst found.
  apply consume_found_run in Hconsume as [[? _]|(r' & at_ & current & [= <-] & [= ->] & _ & _ & ->)]; [done|].
  split; [done|]. unfold consume_found. run_unfold. simpl.
  destruct (_ <=? _) eqn:He; [apply Z.leb_le in He; lia|].
  cbn [codes set_codes]. by rewrite lookup_insert_eq.
Qed.

Lemma covers_permission p granted requested :
  scope_covers granted requested = true -> allows_scope p (parse_scope requested) = true ->
  allows_scope p (parse_scope granted) = true.
Proof.
  unfold scope_covers. rewrite orb_true_iff, andb_true_iff, orb_true_iff, !bool_decide_eq_true.
  intros [->|[Hg Hs]]; [done|]. destruct (strip_prefix granted requested) as [suffix|] eqn:Hp; [|done].
  apply strip_prefix_Some in Hp as ->. unfold starts_with in Hs.
  destruct (strip_prefix (lit ":") suffix) as [rest|] eqn:Hc; [|done].
  apply strip_prefix_Some in Hc as ->. destruct Hg as [-> | ->]; by destruct p.
Qed.

Definition permits (scopes : text) (p : StatusPermission) : Prop :=
  exists s, s ∈ split_whitespace scopes /\ allows_scope p (parse_scope s) = true.

Lemma client_credentials_bounded requested registered scopes p :
  client_credentials_scopes requested registered = inl scopes ->
  permits scopes p -> permits registered p.
Proof.
  unfold client_credentials_scopes. intros H (s & Hin & Hs).
  destruct (bool_decide _); [done|]. destruct (existsb _ _) eqn:He; [done|]. injection H as <-.
  rewrite split_whitespace_join in Hin. apply list_elem_of_In in Hin.
  assert (existsb (fun g => scope_covers g s) (split_whitespace registered) = true) as Hcov.
  { destruct (existsb (fun g => scope_covers g s) (split_whitespace registered)) eqn:Hc; [done|].
    assert (existsb (fun r => negb (existsb (fun g => scope_covers g r) (split_whitespace registered)))
      (split_whitespace (default (lit "read") requested)) = true); [|congruence].
    apply existsb_exists. exists s. by rewrite Hc. }
  apply existsb_exists in Hcov as (g & Hg & Hcov). exists g. split; [by apply list_elem_of_In|].
  by eapply covers_permission.
Qed.

(** The scopes of an application token stay within the application's
    registration; those of a user's grant do not: whatever scopes the request to
    the authorization endpoint names are stored with the code, whichever scopes
    the application registered. *)
Theorem only_client_credentials_are_bounded :
  (forall requested registered scopes p,
     client_credentials_scopes requested registered = inl scopes ->
     permits scopes p -> permits registered p) /\
  (forall session params w d resp w' d' scopes,
     authorize hmac percent_decode with_query_pairs pepper session params Approve w d
       = (Ok resp, w', d') ->
     param_scope params = Some scopes -> d' <> d ->
     exists k r, codes d' !! k = Some r /\ codes d !! k = None /\ code_scopes r = scopes).
Proof.
  split; [intros *; apply client_credentials_bounded|].
  intros session params w d resp w' d' scopes H Hscope Hne. unfold authorize in H.
  destruct session as [account|]; [|by injection H as _ _ <-].
  inv_bind H found w1 d1 Hf. injection Hf as <- <- <-.
  destruct (accounts d !! _) as [a|]; [|by injection H as _ _ <-].
  inv_bind H validated w2 d2 Hv.
  assert (d2 = d) as ->.
  { assert (keeps id (validate_authorize_request percent_decode params)) as Hk.
    { unfold validate_authorize_request, find_oauth_application_by_client_id. solve_keeps. }
    by apply (keeps_run _ _ _ _ _ _ _ Hk) in Hv. }
  destruct validated as [[app uri]|]; [|by injection H as _ _ <-].
  rewrite bool_decide_false in H by done.
  apply respond_run in H as [(d3 & H & ->)|[H|(e & d3 & H & -> & _)]]; [done| |done].
  inv_bind H code w3 d3 Hc. injection H as _ _ <-.
  apply create_code_run in Hc as (i & now & -> & Hi & _). rewrite Hscope in *. simpl in *.
  eexists i, _. rewrite lookup_insert_eq. done.
Qed.

Definition live_row (raw : text) (d : Db) (r : TokenRow) : Prop :=
  tokens d !! token_id r = Some r /\ token_hash r = secret_hash hmac pepper raw /\
  token_revoked_at r = None.

Lemma live_row_found raw d r :
  store_ok d -> live_row raw d r -> rows_where (live_token hmac pepper raw) (tokens d) = [r].
Proof.
  intros Hok (Hr & Hh & Hn).
  rewrite <- (insert_delete_id (tokens d) (token_id r) r Hr).
  apply rows_where_fresh_insert; [apply lookup_delete_eq| |].
  - unfold live_token. rewrite Hh, Hn, bool_decide_true by done.
    by rewrite bool_decide_false by (by intros [? ?]).
  - apply rows_where_nil. intros k v. rewrite lookup_delete_Some. intros [Hne Hk].
    unfold live_token. destruct (bool_decide (token_hash v = _)) eqn:Hv; [|done].
    apply bool_decide_eq_true in Hv. exfalso. apply Hne.
    eapply (token_hashes d Hok); [done|done|congruence].
Qed.


(** C5. A revoked token never works again: once [revoke] has answered for a token
    the server issued, no later history of requests makes it resolve to an
    account, to a grant or to an application. *)
Theorem revoked_token_stays_dead d0 raw w d resp w1 d1 d2 w2 :
  no_secrets d0 -> history d0 d ->
  taken token_hash (secret_hash hmac pepper raw) (tokens d) = true ->
  revoke hmac pepper raw w d = (Ok resp, w1, d1) -> history d1 d2 ->
  resp = Empty /\
  value_of (find_account_by_access_token hmac pepper raw) w2 d2 = Ok None /\
  value_of (find_access_token_grant hmac pepper raw) w2 d2 = Ok None /\
  value_of (find_application_access_token_grant hmac pepper raw) w2 d2 = Ok None.
Proof.
  intros H0 Hr Htaken Hrun Hr2.
  destruct (history_advances _ _ _ _ _ _ _ (no_secrets_ok _ H0) Hr) as [Hok _].
  destruct (advances_revoke_request _ _ raw w d resp w1 d1 Hok Hrun) as [Hok1 _].
  destruct (history_advances _ _ _ _ _ _ _ Hok1 Hr2) as [Hok2 [_ Hle]].
  assert (exists r, head (rows_where (fun r => bool_decide (token_hash r = secret_hash hmac pepper raw))
    (tokens d)) = Some r) as [r Hhead].
  { unfold taken in Htaken. destruct (rows_where _ _) as [|r l]; [done|]. by exists r. }
  assert (Hrow := Hhead). apply (head_row_keyed _ _ token_id) in Hrow as [Hrow Hh];
    [|apply (token_keys _ Hok)]. apply bool_decide_eq_true in Hh.
  assert (resp = Empty /\ exists at_, tokens d1 !! token_id r = Some (revoked_row at_ r)) as [-> [at_ Hd1]].
  { unfold revoke, revoke_access_token in Hrun. apply respond_run in Hrun.
    unfold mbind, M_bind, gets in Hrun. rewrite Hhead in Hrun. run_unfold.
    destruct Hrun as [(d3 & [=] & _)|[[= <- <- <-]|(e & d3 & [=] & _)]].
    split; [done|]. eexists. apply lookup_insert_eq. }
  destruct (Hle _ _ Hd1) as (r' & Hd2 & [Hh' Hrev]).
  assert (Hdead : rows_where (live_token hmac pepper raw) (tokens d2) = []).
  { apply rows_where_nil. intros k v Hk. unfold live_token.
    destruct (bool_decide (token_hash v = _)) eqn:Hv; [|done]. apply bool_decide_eq_true in Hv.
    assert (k = token_id r) as -> by (eapply (token_hashes d2 Hok2); [done|done|]; simpl in Hh'; congruence).
    assert (v = r') as -> by congruence. rewrite bool_decide_true; [done|]. apply Hrev. by eexists. }
  split; [done|].
  assert (rows_where (fun r => live_token hmac pepper raw r
    && negb (bool_decide (is_Some (token_account r)))) (tokens d2) = []) as Hdead'.
  { apply rows_where_nil. intros k v Hk. rewrite rows_where_nil in Hdead. by rewrite (Hdead k v Hk). }
  unfold find_account_by_access_token, find_access_token_grant, find_application_access_token_grant.
  run_unfold. by rewrite Hdead, Hdead'.
Qed.
End Theorems.

(** * Witnesses *)

Definition sample_hmac (key secret : text) : text := key ++ secret.
Definition sample_digest (verifier : text) : text := reverse verifier.
Definition sample_decode (uri : text) : option text := Some uri.
Definition sample_query (uri : text) (pairs : list (text * text)) : option text := Some uri.
Definition sample_pepper : text := lit "pepper".

Definition oauth_world : World :=
  mkWorld (fun n => seconds (Z.of_nat n)) 0 (fun n => 100 + N.of_nat n)%N 0
    (fun n => String (Ascii.ascii_of_nat (97 + n)) "") 0.

Definition alice : LocalAccount := mkLocalAccount (lit "alice") (lit "a@b") (lit "hash") false None.
Definition sample_accounts : Db := mkDb {[1%N := alice]} ∅ ∅ ∅ ∅.

Definition sample_registration : Op Db Response :=
  register_app sample_hmac sample_pepper
    (mkAppForm (lit "client") (lit "https://client.example/cb") None None).
Definition registered_store : Db := store_of sample_registration oauth_world sample_accounts.
Definition registered_world : World := world_of sample_registration oauth_world sample_accounts.

(** The client identifier is the first token drawn, the secret the second, the
    code the third. *)
Definition sample_params : AuthorizeParams :=
  mkAuthorizeParams Code (lit "a") (lit "https://client.example/cb") (Some (lit "read")) None
    (Some (lit "terces")) None.
Definition sample_grant : Op Db Response :=
  authorize sample_hmac sample_decode sample_query sample_pepper (Some (mkAccountId 1)) sample_params
    Approve.
Definition granted_store : Db := store_of sample_grant registered_world registered_store.
Definition granted_world : World := world_of sample_grant registered_world registered_store.

Definition sample_form : TokenForm :=
  mkTokenForm AuthorizationCode (Some (lit "c")) (lit "a") (Some (lit "b"))
    (Some (lit "https://client.example/cb")) (Some (lit "secret")) None.
Definition sample_exchange : Op Db Response :=
  token sample_hmac sample_digest sample_decode sample_pepper sample_form.
Definition exchanged_store : Db := store_of sample_exchange granted_world granted_store.
Definition exchanged_world : World := world_of sample_exchange granted_world granted_store.
Definition sample_token : OAuthAccessToken := mkAccessToken (lit "d") (lit "read") 3.

Abbreviation sample_history :=
  (rtc (step sample_hmac sample_digest sample_decode sample_query sample_pepper)).

Lemma sample_accounts_fresh : no_secrets sample_accounts.
Proof. by split. Qed.

Lemma granted_history : sample_history sample_accounts granted_store.
Proof.
  apply (rtc_l _ _ registered_store).
  - exists _, sample_registration, oauth_world,
      (AppResponse (mkApplication 100 (lit "a") (sample_hmac sample_pepper (lit "b")) (lit "client")
        (lit "https://client.example/cb") (lit "read write follow push") None) (lit "b")),
      registered_world.
    split; [constructor|]. vm_compute. reflexivity.
  - apply rtc_once. exists _, sample_grant, registered_world,
      (CallbackRedirect (lit "https://client.example/cb")), granted_world.
    split; [constructor|]. vm_compute. reflexivity.
Qed.

Lemma sample_exchange_runs :
  sample_exchange granted_world granted_store =
  (Ok (TokenResponse sample_token), exchanged_world, exchanged_store).
Proof. vm_compute. reflexivity. Qed.

Lemma authorization_code_single_use_witness :
  (forall t, value_of sample_exchange exchanged_world exchanged_store <> Ok (TokenResponse t)) /\
  store_of sample_exchange exchanged_world exchanged_store = exchanged_store.
Proof.
  destruct (run_ok sample_exchange exchanged_world exchanged_store) as (resp & Hv & Hrun);
    [vm_compute; reflexivity|].
  destruct (authorization_code_single_use sample_hmac sample_digest sample_decode sample_query
    sample_pepper sample_accounts sample_form (lit "c") granted_world granted_store
    (TokenResponse sample_token) exchanged_world exchanged_store exchanged_store sample_form
    exchanged_world resp (world_of sample_exchange exchanged_world exchanged_store)
    (store_of sample_exchange exchanged_world exchanged_store)
    sample_accounts_fresh granted_history eq_refl eq_refl sample_exchange_runs
    (or_introl (ex_intro _ sample_token eq_refl)) (rtc_refl _ _) eq_refl eq_refl Hrun) as [Hno Hd].
  split; [|exact Hd]. intros t Ht. rewrite Hv in Ht. injection Ht as Ht. exact (Hno t Ht).
Defined.

Lemma granted_store_ok : store_ok granted_store.
Proof.
  apply (history_advances _ _ _ _ _ _ _ (no_secrets_ok _ sample_accounts_fresh) granted_history).
Qed.

Definition sample_code_row : CodeRow :=
  mkCode 101 (sample_hmac sample_pepper (lit "c")) 1 100 (lit "https://client.example/cb") (lit "read")
    (lit "terces") S256 (minutes 5) None.

Lemma authorization_code_race_witness :
  grant_of sample_code_row = grant_of sample_code_row /\
  value_of (consume_found (Some sample_code_row)) granted_world
    (store_of (consume_authorization_code sample_hmac sample_pepper (lit "c") 100
       (lit "https://client.example/cb")) granted_world granted_store)
  = Ok (Some (grant_of sample_code_row)).
Proof.
  destruct (authorization_code_race sample_hmac sample_pepper (lit "c") 100
    (lit "https://client.example/cb") granted_world granted_store sample_code_row granted_world
    granted_store granted_world (grant_of sample_code_row)
    (world_of (consume_authorization_code sample_hmac sample_pepper (lit "c") 100
       (lit "https://client.example/cb")) granted_world granted_store)
    (store_of (consume_authorization_code sample_hmac sample_pepper (lit "c") 100
       (lit "https://client.example/cb")) granted_world granted_store) granted_world granted_store_ok)
    as [H1 H2].
  - vm_compute. reflexivity.
  - vm_compute. reflexivity.
  - vm_compute. reflexivity.
  - split; [exact H1|exact H2].
Defined.


Definition sample_revocation : Op Db Response := revoke sample_hmac sample_pepper (lit "d").

Lemma exchanged_history : sample_history sample_accounts exchanged_store.
Proof.
  eapply rtc_r; [apply granted_history|].
  exists _, sample_exchange, granted_world, (TokenResponse sample_token), exchanged_world.
  split; [constructor|apply sample_exchange_runs].
Qed.

Lemma revoked_token_stays_dead_witness :
  value_of (find_account_by_access_token sample_hmac sample_pepper (lit "d")) exchanged_world
    (store_of sample_revocation exchanged_world exchanged_store) = Ok None.
Proof.
  destruct (revoked_token_stays_dead sample_hmac sample_digest sample_decode sample_query sample_pepper
    sample_accounts (lit "d") exchanged_world exchanged_store Empty
    (world_of sample_revocation exchanged_world exchanged_store)
    (store_of sample_revocation exchanged_world exchanged_store)
    (store_of sample_revocation exchanged_world exchanged_store) exchanged_world
    sample_accounts_fresh exchanged_history) as (_ & H & _).
  - vm_compute. reflexivity.
  - vm_compute. reflexivity.
  - apply rtc_refl.
  - exact H.
Defined.

(** A client that registered the scope [read] only is granted [write]. *)
Definition narrow_registration : Op Db Response :=
  register_app sample_hmac sample_pepper
    (mkAppForm (lit "client") (lit "https://client.example/cb") (Some (lit "read")) None).
Definition narrow_store : Db := store_of narrow_registration oauth_world sample_accounts.
Definition wide_params : AuthorizeParams :=
  mkAuthorizeParams Code (lit "a") (lit "https://client.example/cb") (Some (lit "write")) None None None.
Definition wide_grant : Op Db Response :=
  authorize sample_hmac sample_decode sample_query sample_pepper (Some (mkAccountId 1)) wide_params Approve.

Lemma only_client_credentials_are_bounded_witness :
  (forall a, a ∈ rows (applications narrow_store) -> app_scopes a = lit "read") /\
  exists k r, codes (store_of wide_grant registered_world narrow_store) !! k = Some r /\
    code_scopes r = lit "write".
Proof.
  split.
  - intros a [k Hk]%elem_of_rows. apply elem_of_map_to_list in Hk. vm_compute in Hk.
    apply list_elem_of_In in Hk as [Hk|[]]. injection Hk as _ <-. reflexivity.
  - destruct (only_client_credentials_are_bounded sample_hmac sample_decode sample_query sample_pepper)
      as [_ H].
    destruct (H (Some (mkAccountId 1)) wide_params registered_world narrow_store
      (CallbackRedirect (lit "https://client.example/cb"))
      (world_of wide_grant registered_world narrow_store)
      (store_of wide_grant registered_world narrow_store) (lit "write")) as (k & r & Hk & _ & Hs).
    + vm_compute. reflexivity.
    + reflexivity.
    + intros Heq. apply (f_equal (fun d => size (codes d))) in Heq. vm_compute in Heq. discriminate Heq.
    + exists k, r. split; [exact Hk|exact Hs].
Defined.
