(* ===== verification/Session.v ===== *)
(** Browser sessions of [crates/server/src/auth.rs]: the signed session cookie,
    the CSRF token bound to it, password login and change, and the target a
    login returns to.

    The signature, the password hash, the text form of UUIDs and [Url::join]
    are library code and parameters. *)
From S2P Require Import Prelude Core Text OAuth.

Definition SESSION_COOKIE : text := lit "roosty_session".

(** * The session cookie *)

Section Cookie.
Context (hmac : text -> text -> text) (uuid_text : uuid -> text) (parse_uuid : text -> option uuid)
        (session_secret : text).

Definition sign (secret payload : text) : text := hmac secret payload.

Definition days (n : Z) : duration := minutes (1440 * n).

(** The name and value of the cookie; its attributes are for the browser. *)
Definition session_cookie (account : AccountId) : Op Db text :=
  now ← now_utc;
  let payload := uuid_text (account_uuid account) ++ lit "." ++ show_int (unix_timestamp (now + days 7)) in
  mret (SESSION_COOKIE ++ lit "=" ++ payload ++ lit "." ++ sign session_secret payload).

Definition parse_session_cookie (value : text) : Op Db (option AccountId) :=
  match split_on 46 value with
  | [account; timestamp; signature] =>
      if negb (bool_decide (sign session_secret (account ++ lit "." ++ timestamp) = signature))
      then mret None
      else
        match parse_i64 timestamp with
        | None => mret None
        | Some expires_at =>
            now ← now_utc;
            if expires_at <=? unix_timestamp now then mret None
            else mret (mkAccountId <$> parse_uuid account)
        end
  | _ => mret None
  end.

(** [session_cookie_value]: the first cookie of that name in the header. *)
Definition session_cookie_value (cookie_header : option text) : option text :=
  match cookie_header with
  | None => None
  | Some header =>
      head (omap (fun part => match split_once 61 (trim part) with
                              | Some (name, value) =>
                                  if bool_decide (name = SESSION_COOKIE) then Some value else None
                              | None => None end)
              (split_on 59 header))
  end.

Definition account_id_from_session (cookie_header : option text) : Op Db (option AccountId) :=
  match session_cookie_value cookie_header with
  | None => mret None
  | Some value => parse_session_cookie value
  end.

Definition csrf_token_from_session (cookie_header : option text) : Op Db (option text) :=
  match session_cookie_value cookie_header with
  | None => mret None
  | Some value =>
      account ← parse_session_cookie value;
      match account with
      | None => mret None
      | Some _ => mret (Some (sign session_secret (lit "admin-csrf." ++ value)))
      end
  end.

Definition validate_csrf_token (cookie_header : option text) (submitted : text) : Op Db bool :=
  expected ← csrf_token_from_session cookie_header;
  mret (match expected with Some e => bool_decide (e = submitted) | None => false end).
End Cookie.

(** [Authorization: Bearer ..]. *)
Definition bearer_token (authorization : option text) : option text :=
  match authorization with Some value => strip_prefix (lit "Bearer ") value | None => None end.

(** * Login *)

Inductive LoginError : Type := InvalidCredentials.

Inductive PasswordChangeError : Type :=
| ConfirmationMismatch
| TooShort
| CurrentPasswordIncorrect
| ChangeFailed
| VerificationFailed.

Inductive LoginResponse : Type :=
| LoggedIn (cookie location : text)
| LoginFailed (location : text)
| PasswordChanged
| PasswordRejected (error : PasswordChangeError)
| ToLogin
| LoginServerError (error : RoostyError).

Definition sanitize_next (next : option text) : text :=
  let next := default (lit "/") next in
  if starts_with (lit "/") next && negb (starts_with (lit "//") next) then next else lit "/".

Section Login.
Context (hmac : text -> text -> text) (uuid_text : uuid -> text) (parse_uuid : text -> option uuid)
        (session_secret : text)
        (verify_password : text -> text -> result bool RoostyError)
        (hash_password : text -> result text RoostyError)
        (url_join : text -> text -> option text) (url_encode : text -> text)
        (public_base_url : text).

Definition public_url (path_and_query : text) : text :=
  default (public_base_url ++ path_and_query)
    (url_join public_base_url (trim_start_matches (Z.eqb 47) path_and_query)).

Definition redirect_login_error (next : text) : LoginResponse :=
  LoginFailed (public_url (lit "/login?next=" ++ url_encode next ++ lit "&error=invalid_credentials")).

Definition login (login_name password : text) (next : option text) : Op Db LoginResponse :=
  let next := sanitize_next next in
  found ← find_local_account_by_login login_name;
  match found with
  | None => mret (redirect_login_error next)
  | Some (i, account) =>
      if bool_decide (is_Some (suspended_at account)) then mret (redirect_login_error next)
      else
        match verify_password password (OAuth.password_hash account) with
        | Ok true =>
            cookie ← session_cookie hmac uuid_text session_secret (mkAccountId i);
            mret (LoggedIn cookie (public_url next))
        | Ok false => mret (redirect_login_error next)
        | Err e => mret (LoginServerError e)
        end
  end.

(** [validated_password_hash]: a password counts its characters. *)
Definition validated_password_hash (current_hash current new confirmation : text) :
    result text PasswordChangeError :=
  if negb (bool_decide (new = confirmation)) then Err ConfirmationMismatch
  else if Z.of_nat (length new) <? 8 then Err TooShort
  else
    match verify_password current current_hash with
    | Ok true => match hash_password new with Ok h => Ok h | Err _ => Err ChangeFailed end
    | Ok false => Err CurrentPasswordIncorrect
    | Err _ => Err VerificationFailed
    end.

Definition change_password (cookie_header : option text) (current new confirmation : text) :
    Op Db LoginResponse :=
  session ← account_id_from_session hmac parse_uuid session_secret cookie_header;
  match session with
  | None => mret ToLogin
  | Some account_id =>
      found ← find_local_account_by_id account_id;
      match found with
      | None => mret ToLogin
      | Some account =>
          match validated_password_hash (OAuth.password_hash account) current new confirmation with
          | Err e => mret (PasswordRejected e)
          | Ok hash =>
              update_local_account_password_hash_by_id account_id hash;;
              mret PasswordChanged
          end
      end
  end.
End Login.

(** * Theorems *)

(** Characters that no part of a cookie gives a meaning to. *)
Definition cookie_char (c : Z) : bool := is_ascii_alphanumeric c || (c =? 45) || (c =? 95).
Definition cookie_safe (s : text) : Prop := Forall (fun c => cookie_char c = true) s.

Lemma cookie_char_free c x : cookie_char x = false -> cookie_char c = true -> c <> x.
Proof. congruence. Qed.

Lemma cookie_safe_free s x : cookie_char x = false -> cookie_safe s -> free x s.
Proof. intros Hx Hs. eapply Forall_impl; [exact Hs|]. intros c. by apply cookie_char_free. Qed.

Lemma cookie_char_not_whitespace c : cookie_char c = true -> is_whitespace c = false.
Proof.
  unfold cookie_char, is_ascii_alphanumeric, is_ascii_digit, is_ascii_lowercase, is_ascii_uppercase,
    is_whitespace. intros H. repeat (apply orb_false_iff; split); lia.
Qed.

Lemma free_app c a b : free c a -> free c b -> free c (a ++ b).
Proof. intros Ha Hb. by apply Forall_app. Qed.

(** A cookie sent after others that do not use its name. *)
Lemma appended_cookie_found others value :
  session_cookie_value (Some others) = None ->
  free 59 value /\ Forall (fun c => is_whitespace c = false) value ->
  session_cookie_value (Some (others ++ lit "; " ++ SESSION_COOKIE ++ lit "=" ++ value)) = Some value.
Proof.
  intros Hothers [Hsemi Hspace]. unfold session_cookie_value in *.
  assert (Hname : free 61 SESSION_COOKIE /\ free 59 SESSION_COOKIE
    /\ Forall (fun c => is_whitespace c = false) SESSION_COOKIE) by (by repeat constructor).
  revert Hname Hothers. generalize SESSION_COOKIE. intros name (Heq & Hsem & Hws) Hothers.
  change (lit "; " ++ name ++ lit "=" ++ value) with (59 :: 32 :: name ++ 61 :: value).
  rewrite split_on_app, omap_app.
  destruct (omap _ (split_on 59 others)) as [|x l]; [|done].
  rewrite (split_on_free 59 (32 :: _)).
  2: { constructor; [done|]. apply free_app; [done|]. by constructor. }
  simpl. rewrite trim_space, trim_free.
  2: { apply Forall_app. split; [done|]. by constructor. }
  rewrite (split_once_free 61 name value) by done. by rewrite bool_decide_true.
Qed.

Section SessionTheorems.
Context (hmac : text -> text -> text) (uuid_text : uuid -> text) (parse_uuid : text -> option uuid)
        (session_secret : text).
(** The crates' documented output: hyphenated UUIDs parse back, and they and the
    base64url signatures use letters, digits, hyphens and underscores. *)
Context (uuid_round : forall u, parse_uuid (uuid_text u) = Some u)
        (uuid_safe : forall u, cookie_safe (uuid_text u))
        (hmac_safe : forall k m, cookie_safe (hmac k m)).

Abbreviation account_id_from_session' := (account_id_from_session hmac parse_uuid session_secret).

Lemma parse_signed account timestamp w d :
  cookie_safe account -> cookie_safe timestamp ->
  parse_session_cookie hmac parse_uuid session_secret
    (account ++ lit "." ++ timestamp ++ lit "." ++
     sign hmac session_secret (account ++ lit "." ++ timestamp)) w d =
  match parse_i64 timestamp with
  | None => (Ok None, w, d)
  | Some e =>
      (now ← now_utc;
       if e <=? unix_timestamp now then mret None else mret (mkAccountId <$> parse_uuid account)) w d
  end.
Proof using hmac_safe.
  intros Ha Ht. unfold parse_session_cookie.
  set (signature := sign _ _ _). change (lit "." ++ timestamp ++ lit "." ++ signature)
    with (46 :: timestamp ++ 46 :: signature).
  rewrite (split_on_app 46 account), (split_on_app 46 timestamp).
  rewrite !split_on_free by (apply cookie_safe_free; done || apply hmac_safe). simpl.
  rewrite bool_decide_true by done. simpl. by destruct (parse_i64 timestamp).
Qed.

(** A session cookie is good for its account for exactly seven days: sent back
    after any other cookies that do not use its name, it yields the account that
    logged in until the second in which it expires, and nothing from then on. *)
Theorem session_cookie_roundtrip account w d cookie w1 d1 others w2 d2 :
  let issued := w_clock w (w_ticks w) in
  let read := w_clock w2 (w_ticks w2) in
  - i64_max - 1 <= unix_timestamp (issued + days 7) <= i64_max ->
  session_cookie hmac uuid_text session_secret account w d = (Ok cookie, w1, d1) ->
  session_cookie_value (Some others) = None ->
  value_of (account_id_from_session' (Some (others ++ lit "; " ++ cookie))) w2 d2 =
  Ok (if unix_timestamp (issued + days 7) <=? unix_timestamp read then None else Some account).
Proof using hmac_safe uuid_round uuid_safe.
  intros issued read Hrange Hcookie Hothers.
  set (stamp := show_int (unix_timestamp (issued + days 7))).
  destruct (show_int_ok _ Hrange) as [Hparse Hchars]. fold stamp in Hparse, Hchars.
  assert (Hstamp : cookie_safe stamp).
  { eapply Forall_impl; [exact Hchars|]. intros c [->|Hd]; [done|].
    unfold cookie_char, is_ascii_alphanumeric. by rewrite Hd. }
  set (payload := uuid_text (account_uuid account) ++ lit "." ++ stamp).
  set (value := uuid_text (account_uuid account) ++ lit "." ++ stamp ++ lit "."
                ++ sign hmac session_secret payload).
  assert (cookie = SESSION_COOKIE ++ lit "=" ++ value) as ->.
  { unfold session_cookie in Hcookie. inv_bind Hcookie now w3 d3 Hnow. injection Hnow as <- <- <-.
    injection Hcookie as <- _ _. unfold value, payload, stamp, issued. by rewrite <- !app_assoc. }
  assert (Hvalue : free 59 value /\ Forall (fun c => is_whitespace c = false) value).
  { assert (Hall : forall c, c ∈ value -> cookie_char c = true \/ c = 46).
    { intros c. unfold value. rewrite !elem_of_app.
      pose proof (uuid_safe (account_uuid account)) as Hu. pose proof (hmac_safe session_secret payload) as Hh.
      unfold cookie_safe in Hu, Hh, Hstamp. rewrite Forall_forall in Hu, Hh, Hstamp.
      intros [Hc|[Hc|[Hc|[Hc|Hc]]]]; [left; by apply Hu| |left; by apply Hstamp| |left; by apply Hh];
        right; by apply list_elem_of_singleton in Hc. }
    split; apply Forall_forall; intros c Hc; destruct (Hall c Hc) as [Hs| ->]; try done.
    - by intros ->.
    - by apply cookie_char_not_whitespace. }
  assert (Hfound : session_cookie_value (Some (others ++ lit "; " ++ SESSION_COOKIE ++ lit "=" ++ value))
    = Some value).
  { by apply appended_cookie_found. }
  unfold account_id_from_session. rewrite Hfound. unfold value_of, value, payload.
  rewrite parse_signed by (done || apply uuid_safe). rewrite Hparse. run_unfold. simpl. fold read.
  destruct (_ <=? _); [done|]. rewrite uuid_round. by destruct account.
Qed.

(** Only a signed cookie is accepted: an account comes out of a header only when
    the session cookie in it carries the signature of its own account and expiry
    under the server's secret, and the expiry has not passed. *)
Theorem accepted_session_is_signed header w d account :
  value_of (account_id_from_session' header) w d = Ok (Some account) ->
  exists id timestamp expires,
    session_cookie_value header =
      Some (id ++ lit "." ++ timestamp ++ lit "." ++ hmac session_secret (id ++ lit "." ++ timestamp)) /\
    parse_uuid id = Some (account_uuid account) /\ parse_i64 timestamp = Some expires /\
    unix_timestamp (w_clock w (w_ticks w)) < expires.
Proof using Type.
  unfold account_id_from_session. destruct (session_cookie_value header) as [value|]; [|done].
  unfold parse_session_cookie. pose proof (split_on_join 46 value) as Hjoin.
  destruct (split_on 46 value) as [|id [|timestamp [|signature [|]]]] eqn:Hsplit; try done.
  destruct (negb _) eqn:Hs; [done|]. apply negb_false_iff, bool_decide_eq_true in Hs.
  destruct (parse_i64 timestamp) as [e|] eqn:Ht; [|done].
  run_unfold. simpl. destruct (_ <=? _) eqn:He; [done|]. apply Z.leb_gt in He.
  destruct (parse_uuid id) as [u|] eqn:Hu; [|done]. simpl. intros [= <-].
  exists id, timestamp, e. split; [|done]. by rewrite <- Hjoin, <- Hs.
Qed.
End SessionTheorems.

(** A login can be made to end anywhere: a [next] parameter that is an absolute
    URL behind one slash passes [sanitize_next], loses the slash in [public_url],
    and replaces the whole base URL when it is joined to it. *)
Theorem login_follows_absolute_next hmac uuid_text session_secret verify_password url_join url_encode
    base url login_name password w d cookie location w' d' :
  url_join base url = Some url -> starts_with (lit "/") url = false ->
  login hmac uuid_text session_secret verify_password url_join url_encode base
    login_name password (Some (lit "/" ++ url)) w d = (Ok (LoggedIn cookie location), w', d') ->
  location = url.
Proof.
  intros Hjoin Hslash H.
  assert (Hhead : forall c s, url = c :: s -> Z.eqb 47 c = false).
  { intros c s ->. apply Z.eqb_neq. by intros <-. }
  assert (Hnext : sanitize_next (Some (lit "/" ++ url)) = lit "/" ++ url).
  { change (sanitize_next (Some (lit "/" ++ url))) with
      (if negb (starts_with (lit "/") url) then lit "/" ++ url else lit "/"). by rewrite Hslash. }
  unfold login in H. rewrite Hnext in H. cbv zeta in H.
  inv_bind H found w1 d1 Hf. destruct found as [[i account]|]; [|done].
  destruct (bool_decide _); [done|]. destruct (verify_password _ _) as [[|]|]; [|done..].
  inv_bind H c w2 d2 Hc. injection H as _ <- _ _.
  assert (Htrim : trim_start_matches (Z.eqb 47) (lit "/" ++ url) = url)
    by exact (trim_start_matches_id _ _ Hhead).
  assert (public_url url_join base (lit "/" ++ url) = url) as Hurl; [|exact Hurl].
  unfold public_url. by rewrite Htrim, Hjoin.
Qed.

(** * Witnesses *)

(** Unary numerals for identifiers and a signature by length. *)
Definition sample_uuid_text (u : uuid) : text := replicate (N.to_nat u) 97.
Definition sample_parse_uuid (s : text) : option uuid := Some (N.of_nat (length s)).
Definition sample_sign (key message : text) : text := replicate (length key + length message) 98.

Lemma sample_uuid_safe u : cookie_safe (sample_uuid_text u).
Proof. by apply Forall_replicate. Qed.
Lemma sample_sign_safe k m : cookie_safe (sample_sign k m).
Proof. by apply Forall_replicate. Qed.
Lemma sample_uuid_round u : sample_parse_uuid (sample_uuid_text u) = Some u.
Proof. unfold sample_parse_uuid, sample_uuid_text. rewrite length_replicate. f_equal. lia. Qed.

Definition empty_store : Db := mkDb ∅ ∅ ∅ ∅ ∅.
Definition sample_cookie : Op Db text :=
  session_cookie sample_sign sample_uuid_text (lit "secret") (mkAccountId 3).
Definition sample_cookie_text : text :=
  match value_of sample_cookie sample_world empty_store with Ok c => c | Err _ => [] end.

Lemma session_cookie_roundtrip_witness :
  value_of (account_id_from_session sample_sign sample_parse_uuid (lit "secret")
    (Some (lit "theme=dark" ++ lit "; " ++ sample_cookie_text))) (later_world sample_world) empty_store
  = Ok (Some (mkAccountId 3)).
Proof.
  refine (session_cookie_roundtrip sample_sign sample_uuid_text sample_parse_uuid (lit "secret")
    sample_uuid_round sample_uuid_safe sample_sign_safe (mkAccountId 3) sample_world empty_store
    sample_cookie_text (world_of sample_cookie sample_world empty_store) empty_store (lit "theme=dark")
    (later_world sample_world) empty_store _ _ _).
  - vm_compute. split; discriminate.
  - vm_compute. reflexivity.
  - vm_compute. reflexivity.
Defined.

Lemma accepted_session_is_signed_witness :
  exists id timestamp,
    session_cookie_value (Some sample_cookie_text) =
      Some (id ++ lit "." ++ timestamp ++ lit "." ++ sample_sign (lit "secret") (id ++ lit "." ++ timestamp)).
Proof.
  destruct (accepted_session_is_signed sample_sign sample_parse_uuid (lit "secret")
    (Some sample_cookie_text) sample_world empty_store (mkAccountId 3)) as (id & timestamp & e & H & _).
  - vm_compute. reflexivity.
  - exists id, timestamp. exact H.
Defined.

Definition member_store : Db :=
  mkDb {[3%N := mkLocalAccount (lit "alice") (lit "a@b") (lit "hash") false None]} ∅ ∅ ∅ ∅.
(** Joining resolves an absolute URL to itself and a path against the base. *)
Definition sample_join (base url : text) : option text :=
  Some (if contains (lit "://") url then url else base ++ url).
Definition sample_login : Op Db LoginResponse :=
  login sample_sign sample_uuid_text (lit "secret") (fun _ _ => Ok true) sample_join id
    (lit "https://roosty.example/") (lit "alice") (lit "password")
    (Some (lit "/" ++ lit "https://evil.example/")).
Definition sample_location : text :=
  match value_of sample_login sample_world member_store with
  | Ok (LoggedIn _ location) => location
  | _ => []
  end.

Lemma login_follows_absolute_next_witness : sample_location = lit "https://evil.example/".
Proof.
  apply (login_follows_absolute_next sample_sign sample_uuid_text (lit "secret") (fun _ _ => Ok true)
    sample_join id (lit "https://roosty.example/") (lit "https://evil.example/") (lit "alice")
    (lit "password") sample_world member_store
    (match value_of sample_login sample_world member_store with Ok (LoggedIn c _) => c | _ => [] end)
    sample_location (world_of sample_login sample_world member_store) member_store).
  - vm_compute. reflexivity.
  - vm_compute. reflexivity.
  - vm_compute. reflexivity.
Defined.
