(* ===== verification/Registration.v ===== *)
(** Account registration: the rolling-window limiter
    [check_registration_rate_limit] of [crates/db/src/lib.rs] and the endpoint of
    [crates/server/src/registration.rs] that it guards.

    The limiter runs under an advisory lock per client, so its statements are
    one step; the group of a client address is an argument. *)
From S2P Require Import Prelude Core Text OAuth.

(** * Data *)

Record RegistrationRateLimitSettings := mkSettings {
  burst_limit : Z;
  burst_window : duration;
  daily_limit : Z;
  daily_window : duration;
}.

Inductive RegistrationRateLimitPolicy : Type := Burst | Daily.

Record RegistrationRateLimitResult := mkLimitResult {
  allowed : bool;
  policy : RegistrationRateLimitPolicy;
  limit : Z;
  remaining : Z;
  reset_at : time;
}.

(** [registration_attempt]. *)
Record AttemptRow := mkAttempt {
  attempt_id : uuid;
  attempt_client : text;
  attempted_at : time;
}.

Record Db := mkDb {
  attempts : gmap uuid AttemptRow;
  oauth : OAuth.Db;
}.

#[export, refine] Instance oauth_part : Part OAuth.Db Db :=
  {| get_part := oauth; put_part := fun o d => mkDb (attempts d) o |}.
Proof. all: by intros *; try destruct s. Defined.

(** The checks of [RegistrationRateLimitConfig::from_env], which reads windows
    that are not zero. *)
Definition valid_settings (s : RegistrationRateLimitSettings) : bool :=
  negb ((burst_limit s =? 0) || (daily_limit s =? 0))
  && negb (daily_window s <=? burst_window s)
  && negb (daily_limit s <? burst_limit s)
  && (0 <=? burst_limit s) && (0 <? burst_window s).

(** * The limiter *)

(** The decision for the client's attempts of the daily window in order of time:
    the result, which says whether the attempt is recorded. *)
Definition decide_attempt (now : time) (s : RegistrationRateLimitSettings) (times : list time) :
    RegistrationRateLimitResult :=
  let in_burst := List.filter (fun t => now - burst_window s <? t) times in
  let burst_attempts := Z.of_nat (length in_burst) in
  let daily_attempts := Z.of_nat (length times) in
  let burst_reset := match in_burst with
                     | t :: _ => t + burst_window s | [] => now + burst_window s end in
  let daily_reset := match times with
                     | t :: _ => t + daily_window s | [] => now + daily_window s end in
  let burst_blocked := burst_limit s <=? burst_attempts in
  let daily_blocked := daily_limit s <=? daily_attempts in
  if burst_blocked || daily_blocked
  then
    if daily_blocked && (negb burst_blocked || (burst_reset <=? daily_reset))
    then mkLimitResult false Daily (daily_limit s) 0 daily_reset
    else mkLimitResult false Burst (burst_limit s) 0 burst_reset
  else
    let burst_remaining := burst_limit s - burst_attempts - 1 in
    let daily_remaining := daily_limit s - daily_attempts - 1 in
    if daily_remaining <? burst_remaining
    then mkLimitResult true Daily (daily_limit s) daily_remaining daily_reset
    else mkLimitResult true Burst (burst_limit s) burst_remaining burst_reset.

(** ORDER BY attempted_at, id. *)
Definition attempt_order (a b : AttemptRow) : bool :=
  (attempted_at a <? attempted_at b)
  || (attempted_at a =? attempted_at b) && (attempt_id a <=? attempt_id b)%N.

Definition CLEANUP_LIMIT : nat := 100.

(** The identifiers the cleanup deletes. *)
Definition stale_attempts (cutoff : time) (t : gmap uuid AttemptRow) : list uuid :=
  attempt_id <$> firstn CLEANUP_LIMIT (order_by attempt_order
    (rows_where (fun a => attempted_at a <=? cutoff) t)).

Definition attempts_of (client : text) (since : time) (t : gmap uuid AttemptRow) : list time :=
  order_by Z.leb (attempted_at <$> rows_where (fun a =>
    bool_decide (attempt_client a = client) && (since <? attempted_at a)) t).

Section Limiter.
Context (hmac : text -> text -> text) (pepper : text).

Definition rate_limit_client (client_group : text) : text :=
  secret_hash hmac pepper (lit "registration-rate-limit" ++ [0] ++ client_group).

Definition check_registration_rate_limit (client_group : text) (now : time)
    (s : RegistrationRateLimitSettings) : Op Db RegistrationRateLimitResult :=
  let client := rate_limit_client client_group in
  modify (fun d => mkDb
    (delete_where (fun a => bool_decide (attempt_id a ∈ stale_attempts (now - daily_window s) (attempts d)))
       (attempts d)) (oauth d));;
  times ← gets (fun d => attempts_of client (now - daily_window s) (attempts d));
  let result := decide_attempt now s times in
  if negb (allowed result) then mret result
  else
    i ← uuid_now_v7;
    d ← gets (fun d => d);
    if bool_decide (is_Some (attempts d !! i))
    then throw (Database (UniqueViolation "registration_attempt_pkey"))
    else
      modify (fun d => mkDb (<[i := mkAttempt i client now]> (attempts d)) (oauth d));;
      mret result.
End Limiter.

(** * Validation *)

Definition validate_username (name : text) : bool :=
  negb ((byte_len name <? 2) || (30 <? byte_len name)
        || negb (forallb (fun c => is_ascii_alphanumeric c || (c =? 95)) name)).

Definition validate_email (mail : text) : bool :=
  contains_char 64 mail && bool_decide (trim mail = mail).

Record RegistrationRequest := mkRequest {
  req_username : text;
  req_email : text;
  req_password : text;
  req_agreement : bool;
  req_locale : text;
}.

(** The fields with an error and its code, in the order they are checked. *)
Definition ValidationDetails := list (string * string).

Definition validate (r : RegistrationRequest) : ValidationDetails :=
  (if bool_decide (req_username r = []) then [("username", "ERR_BLANK")]
   else if negb (validate_username (req_username r)) then [("username", "ERR_INVALID")] else [])
  ++ (if bool_decide (req_email r = []) then [("email", "ERR_BLANK")]
      else if negb (validate_email (req_email r)) then [("email", "ERR_INVALID")] else [])
  ++ (if bool_decide (req_password r = []) then [("password", "ERR_BLANK")]
      else if Z.of_nat (length (req_password r)) <? 8 then [("password", "ERR_TOO_SHORT")] else [])
  ++ (if negb (req_agreement r) then [("agreement", "ERR_ACCEPTED")] else [])
  ++ (if bool_decide (trim (req_locale r) = []) then [("locale", "ERR_BLANK")] else []).

(** [reason.contains("email")] over the messages of account creation. *)
Definition taken_details (reason : string) : ValidationDetails :=
  [(if contains (lit "email") (lit reason) then "email" else "username", "ERR_TAKEN")]%string.

Definition write_accounts_scope (s : text) : bool :=
  bool_decide (s = lit "write") || bool_decide (s = lit "write:accounts").

(** * The endpoint *)

Inductive RegistrationMode : Type := Closed | Open | Approval.

Inductive RegistrationResponse : Type :=
| Registered (token : OAuthAccessToken)
| InvalidToken
| RegistrationsClosed
| InsufficientScope
| RateLimited (result : RegistrationRateLimitResult)
| Invalid (details : ValidationDetails)
| Internal (error : RoostyError).

Section Endpoint.
Context (hmac : text -> text -> text) (pepper : text)
        (hash_password : text -> result text RoostyError)
        (mode : RegistrationMode) (settings : RegistrationRateLimitSettings).

(** The account and its first token, in one transaction. *)
Definition create_registered (r : RegistrationRequest) (hash : text) (grant : ApplicationAccessTokenGrant) :
    Op Db OAuthAccessToken :=
  transaction (
    account ← zoom (create_local_account_in_transaction (req_username r) (req_email r) hash);
    token ← zoom (create_access_token hmac pepper (mkAccountId account)
                    (app_id (application grant)) (app_scopes (application grant)));
    mret (Commit token)).

(** Store errors are answered with [Internal], but a name or an address in use
    is a validation error of the account's creation. *)
Definition answered (m : Op Db RegistrationResponse) : Op Db RegistrationResponse := fun w s =>
  match m w s with
  | (Err e, w', s') => (Ok (Internal e), w', s')
  | r => r
  end.

Definition created (m : Op Db OAuthAccessToken) : Op Db RegistrationResponse := fun w s =>
  match m w s with
  | (Ok token, w', s') => (Ok (Registered token), w', s')
  | (Err (InvalidInput reason), w', s') => (Ok (Invalid (taken_details reason)), w', s')
  | (Err e, w', s') => (Ok (Internal e), w', s')
  end.

Definition register_account (bearer : option text) (client_group : text) (r : RegistrationRequest) :
    Op Db RegistrationResponse :=
  match bearer with
  | None => mret InvalidToken
  | Some raw =>
      answered (
        found ← zoom (find_application_access_token_grant hmac pepper raw);
        match found with
        | None => mret InvalidToken
        | Some grant =>
            if negb (existsb write_accounts_scope (split_whitespace (application_grant_scopes grant)))
            then mret InsufficientScope
            else match mode with
            | Closed | Approval => mret RegistrationsClosed
            | Open =>
                now ← now_utc;
                result ← transaction (
                  result ← check_registration_rate_limit hmac pepper client_group now settings;
                  mret (Commit result));
                if negb (allowed result) then mret (RateLimited result)
                else
                  let details := validate r in
                  if negb (bool_decide (details = [])) then mret (Invalid details)
                  else
                    match hash_password (req_password r) with
                    | Err e => mret (Internal e)
                    | Ok hash => created (create_registered r hash grant)
                    end
            end
        end)
  end.
End Endpoint.
