(* ===== verification/RegistrationInvariant.v ===== *)
(** The registration limiter refines a log that forgets nothing: although it
    deletes old attempts, a batch at a time and for every client, it decides each
    attempt as if it kept them all; and the log respects both limits in every
    window. *)
From S2P Require Import Prelude Core Text OAuth Registration.
From Stdlib Require Import Sorted.

(** * The specification *)

(** Recorded attempts, newest first. *)
Abbreviation log := (list (text * time)).

Definition logged (client : text) (since : time) (l : log) : list time :=
  order_by Z.leb (snd <$> List.filter (fun ct => bool_decide (fst ct = client) && (since <? snd ct)) l).

Definition spec_check (s : RegistrationRateLimitSettings) (client : text) (now : time) (l : log) :
    RegistrationRateLimitResult * log :=
  let result := decide_attempt now s (logged client (now - daily_window s) l) in
  (result, if allowed result then (client, now) :: l else l).

Fixpoint spec_run (s : RegistrationRateLimitSettings) (requests : list (text * time)) (l : log) :
    list RegistrationRateLimitResult * log :=
  match requests with
  | [] => ([], l)
  | (client, now) :: rest =>
      let '(result, l1) := spec_check s client now l in
      let '(results, l2) := spec_run s rest l1 in (result :: results, l2)
  end.

(** * Sorted times *)

#[local] Instance leb_antisymm : AntiSymm eq (fun a b : Z => (a <=? b) = true).
Proof. intros a b H1 H2. lia. Qed.

Lemma order_by_same (l l' : list Z) : l ≡ₚ l' -> order_by Z.leb l = order_by Z.leb l'.
Proof.
  intros Hp. apply (StronglySorted_unique (fun a b => (a <=? b) = true)).
  - apply order_by_sorted; intros *; lia.
  - apply order_by_sorted; intros *; lia.
  - by rewrite !order_by_Permutation.
Qed.

Lemma filter_app_length {A} (p : A -> bool) (a b : list A) :
  length (List.filter p (a ++ b)) = (length (List.filter p a) + length (List.filter p b))%nat.
Proof. by rewrite List.filter_app, length_app. Qed.

(** * The limiter and its log *)

Section Refinement.
Context (hmac : text -> text -> text) (pepper : text) (s : RegistrationRateLimitSettings).

(** Identifiers that the world has already drawn. *)
Definition drawn (w : World) (i : uuid) : Prop := exists n, (n < w_uuids w)%nat /\ w_uuid_source w n = i.

(** Requests see the rows of the log that are still inside a daily window. *)
Record represents (w : World) (now : time) (d : Db) (l : log) : Prop := {
  attempt_keys : forall k a, attempts d !! k = Some a -> attempt_id a = k /\ drawn w k;
  recent : forall since, now - daily_window s <= since -> forall client,
    attempts_of client since (attempts d) = logged client since l;
}.

Lemma attempts_of_delete client since cutoff t :
  cutoff <= since ->
  (forall k a, t !! k = Some a -> attempt_id a = k) ->
  attempts_of client since
    (delete_where (fun a => bool_decide (attempt_id a ∈ stale_attempts cutoff t)) t)
  = attempts_of client since t.
Proof.
  intros Hc Hkeys. unfold attempts_of.
  apply order_by_same, fmap_Permutation, rows_where_delete_where_disjoint.
  intros a Hin Hp. apply bool_decide_eq_false. intros Hstale.
  apply elem_of_rows in Hin as [k Hk]. unfold stale_attempts in Hstale.
  apply list_elem_of_fmap in Hstale as (b & Hid & Hb).
  apply elem_of_take in Hb as (n & Hb & _). apply list_elem_of_lookup_2 in Hb.
  rewrite order_by_Permutation in Hb. apply elem_of_rows_where in Hb as [[k' Hk'] Hold].
  assert (k' = k) as -> by (rewrite <- (Hkeys _ _ Hk), <- (Hkeys _ _ Hk'); done).
  assert (b = a) as -> by congruence. lia.
Qed.

Lemma attempts_of_insert client since t i a :
  t !! i = None ->
  attempts_of client since (<[i := a]> t) =
  order_by Z.leb ((if bool_decide (attempt_client a = client) && (since <? attempted_at a)
                   then [attempted_at a] else []) ++ attempts_of client since t).
Proof.
  intros Hi. unfold attempts_of. apply order_by_same. rewrite rows_where_insert_fresh by done.
  rewrite order_by_Permutation. by destruct (_ && _).
Qed.

Lemma logged_cons client since c t l :
  logged client since ((c, t) :: l) =
  order_by Z.leb ((if bool_decide (c = client) && (since <? t) then [t] else [])
                  ++ logged client since l).
Proof.
  unfold logged. apply order_by_same. rewrite order_by_Permutation. simpl. by destruct (_ && _).
Qed.

(** One request: the limiter returns, decides as the log does, and still
    represents it for every later time. *)
Lemma check_refines group now w d l :
  (forall m n, w_uuid_source w m = w_uuid_source w n -> m = n) ->
  represents w now d l ->
  let client := rate_limit_client hmac pepper group in
  exists w' d',
    check_registration_rate_limit hmac pepper group now s w d = (Ok (fst (spec_check s client now l)), w', d')
    /\ w_uuid_source w' = w_uuid_source w
    /\ represents w' now d' (snd (spec_check s client now l)).
Proof.
  intros Hinj [Hkeys Hrec] client. unfold check_registration_rate_limit, spec_check.
  set (cutoff := now - daily_window s).
  set (t1 := delete_where (fun a => bool_decide (attempt_id a ∈ stale_attempts cutoff (attempts d)))
    (attempts d)).
  assert (Hkeys1 : forall k a, t1 !! k = Some a -> attempt_id a = k /\ drawn w k).
  { intros k a. unfold t1. rewrite lookup_delete_where. destruct (attempts d !! k) eqn:Hk; [|done].
    case_match; [done|]. intros [= <-]. eauto. }
  assert (Hrec1 : forall since, cutoff <= since -> forall c, attempts_of c since t1 = logged c since l).
  { intros since Hs c. unfold t1. rewrite attempts_of_delete; [by apply Hrec|done|].
    intros k a Hk. by apply Hkeys. }
  run_unfold. fold client cutoff t1. cbn [attempts oauth]. rewrite (Hrec1 cutoff) by lia.
  set (result := decide_attempt now s (logged client cutoff l)).
  destruct (allowed result) eqn:Hallowed; cbn [negb fst snd].
  - destruct (t1 !! w_uuid_source w (w_uuids w)) as [a|] eqn:Hfresh.
    { destruct (Hkeys1 _ _ Hfresh) as [_ (n & Hn & Heq)]. apply Hinj in Heq. lia. }
    cbn [attempts]. rewrite Hfresh, bool_decide_false by (by intros [? [=]]).
    eexists _, _. split; [done|]. split; [done|]. split; cbn [attempts].
    + intros k a. rewrite lookup_insert_Some. intros [[<- <-]|[_ Hk]].
      * split; [done|]. exists (w_uuids w). split; [simpl; lia|done].
      * destruct (Hkeys1 k a Hk) as [Hid (n & Hn & Heq)]. split; [done|].
        exists n. split; [simpl; lia|done].
    + intros since Hs c. rewrite (attempts_of_insert c since t1 _ _ Hfresh), logged_cons. simpl.
      by rewrite Hrec1.
  - eexists _, _. split; [done|]. split; [done|]. split; [done|]. done.
Qed.

Lemma represents_later w now now' d l :
  now <= now' -> represents w now d l -> represents w now' d l.
Proof. intros Hle [H1 H2]. split; [done|]. intros since Hs. apply H2. lia. Qed.

Fixpoint nondecreasing (now : time) (requests : list (text * time)) : Prop :=
  match requests with
  | [] => True
  | (_, t) :: rest => now <= t /\ nondecreasing t rest
  end.

Definition run_checks (requests : list (text * time)) : Op Db (list RegistrationRateLimitResult) :=
  collect requests (fun gt => check_registration_rate_limit hmac pepper (fst gt) (snd gt) s).

Lemma run_refines requests now w d l :
  (forall m n, w_uuid_source w m = w_uuid_source w n -> m = n) ->
  represents w now d l -> nondecreasing now requests ->
  value_of (run_checks requests) w d
  = Ok (fst (spec_run s ((fun gt => (rate_limit_client hmac pepper (fst gt), snd gt)) <$> requests) l)).
Proof.
  revert now w d l. induction requests as [|[group t] rest IH]; intros now w d l Hinj Hrep Hmono; [done|].
  destruct Hmono as [Hle Hmono].
  destruct (check_refines group t w d l Hinj (represents_later w now t d l Hle Hrep))
    as (w1 & d1 & Hrun & Hsrc & Hrep1).
  unfold value_of, run_checks. simpl collect. simpl fmap. cbn [spec_run fst snd].
  unfold mbind at 1, M_bind at 1. rewrite Hrun.
  destruct (spec_check s (rate_limit_client hmac pepper group) t l) as [result l1] eqn:Hspec.
  cbn [fst snd] in *.
  assert (Hinj1 : forall m n, w_uuid_source w1 m = w_uuid_source w1 n -> m = n) by (by rewrite Hsrc).
  specialize (IH t w1 d1 l1 Hinj1 Hrep1 Hmono). unfold value_of, run_checks in IH.
  unfold mbind, M_bind. destruct (collect rest _ w1 d1) as [[[results|e] w2] d2]; simpl in IH; [|done].
  injection IH as ->. destruct (spec_run s _ l1) as [results' l2]. done.
Qed.
End Refinement.

(** * The log respects the limits *)

Section Windows.
Context (s : RegistrationRateLimitSettings).

(** The attempts of a client in the window of a width that ends at a time. *)
Definition in_window (client : text) (width : duration) (t : time) (ct : text * time) : bool :=
  bool_decide (fst ct = client) && (t - width <? snd ct) && (snd ct <=? t).

Definition window_count client width t (l : log) : Z :=
  Z.of_nat (length (List.filter (in_window client width t) l)).

Lemma logged_length client since x (l : log) :
  since <= x ->
  length (List.filter (fun t => x <? t) (logged client since l))
  = length (List.filter (fun ct => bool_decide (fst ct = client) && (x <? snd ct)) l).
Proof using Type.
  intros Hx. unfold logged. rewrite (filter_Permutation _ _ _ (order_by_Permutation _ _)).
  induction l as [|[c t] l IH]; simpl; [done|].
  destruct (bool_decide (c = client)); simpl; [|exact IH].
  destruct (Z.ltb_spec since t); simpl; destruct (Z.ltb_spec x t); simpl; first [exact (f_equal S IH)|exact IH|lia].
Qed.

Lemma logged_all client since (l : log) :
  List.filter (fun t => since <? t) (logged client since l) = logged client since l.
Proof using Type.
  apply forallb_filter_id. apply forallb_forall. intros t Hin. apply list_elem_of_In in Hin.
  unfold logged in Hin. rewrite order_by_Permutation in Hin.
  apply list_elem_of_fmap in Hin as ([c t'] & -> & Hin).
  apply list_elem_of_In, filter_In in Hin as [_ Hin]. by apply andb_true_iff in Hin as [_ Hin].
Qed.

Lemma window_bound client width now t (l : log) :
  now <= t -> (forall ct, ct ∈ l -> snd ct <= now) ->
  window_count client width t l <=
  Z.of_nat (length (List.filter (fun ct => bool_decide (fst ct = client) && (now - width <? snd ct)) l)).
Proof using Type.
  intros Ht Hmax. unfold window_count. apply inj_le.
  induction l as [|[c x] l IH]; simpl; [lia|].
  specialize (IH ltac:(intros ct Hct; apply Hmax; by right)).
  unfold in_window at 1. simpl. destruct (bool_decide (c = client)); simpl; [|exact IH].
  destruct (Z.ltb_spec (t - width) x); simpl; [|destruct (_ <? _); simpl; lia].
  destruct (Z.ltb_spec (now - width) x); [|lia]. simpl. destruct (x <=? t); simpl; lia.
Qed.

Record log_ok (now : time) (l : log) : Prop := {
  log_past : forall ct, ct ∈ l -> snd ct <= now;
  log_burst : forall client t, window_count client (burst_window s) t l <= burst_limit s;
  log_daily : forall client t, window_count client (daily_window s) t l <= daily_limit s;
}.

Lemma allowed_spec now times :
  allowed (decide_attempt now s times) = true ->
  Z.of_nat (length (List.filter (fun t => now - burst_window s <? t) times)) < burst_limit s /\
  Z.of_nat (length times) < daily_limit s.
Proof using Type.
  unfold decide_attempt.
  destruct (Z.leb_spec (burst_limit s) (Z.of_nat (length (List.filter (fun t => now - burst_window s <? t) times)))),
    (Z.leb_spec (daily_limit s) (Z.of_nat (length times))); simpl; repeat case_match; try done; lia.
Qed.

Lemma window_cons client width t c x (l : log) :
  window_count client width t ((c, x) :: l) =
  (if in_window client width t (c, x) then 1 else 0) + window_count client width t l.
Proof using Type. unfold window_count. simpl. destruct (in_window _ _ _ _); simpl length; lia. Qed.

Lemma spec_check_ok client now0 now l :
  valid_settings s = true -> now0 <= now -> log_ok now0 l ->
  log_ok now (snd (spec_check s client now l)).
Proof using Type.
  intros Hs Hle [Hpast Hburst Hdaily]. unfold spec_check. simpl.
  assert (Hpast' : forall ct, ct ∈ l -> snd ct <= now) by (intros ct Hct; specialize (Hpast ct Hct); lia).
  destruct (allowed _) eqn:Ha; [|by split].
  apply allowed_spec in Ha as [Hb Hd].
  unfold valid_settings in Hs.
  assert (Hw : burst_window s < daily_window s) by lia.
  rewrite logged_length in Hb by lia.
  rewrite <- logged_all, logged_length in Hd by lia.
  split.
  - intros ct [->|Hin]%elem_of_cons; [done|by apply Hpast'].
  - intros c t. rewrite window_cons. unfold in_window at 1. simpl.
    destruct (bool_decide (client = c)) eqn:Hc; [|apply Hburst]. apply bool_decide_eq_true in Hc as ->.
    simpl. specialize (Hburst c t). destruct (t - burst_window s <? now) eqn:H1, (now <=? t) eqn:H2; simpl; try lia.
    pose proof (window_bound c (burst_window s) now t l ltac:(lia) Hpast'). lia.
  - intros c t. rewrite window_cons. unfold in_window at 1. simpl.
    destruct (bool_decide (client = c)) eqn:Hc; [|apply Hdaily]. apply bool_decide_eq_true in Hc as ->.
    simpl. specialize (Hdaily c t). destruct (t - daily_window s <? now) eqn:H1, (now <=? t) eqn:H2; simpl; try lia.
    pose proof (window_bound c (daily_window s) now t l ltac:(lia) Hpast'). lia.
Qed.

(** The recorded attempts of a run. *)
Definition granted (requests : list (text * time)) (results : list RegistrationRateLimitResult) : log :=
  fst <$> List.filter (fun rr => allowed (snd rr)) (combine requests results).

Lemma spec_run_log requests l :
  snd (spec_run s requests l) = rev (granted requests (fst (spec_run s requests l))) ++ l.
Proof using Type.
  revert l; induction requests as [|[c t] rest IH]; intros l; [done|]. cbn [spec_run].
  destruct (spec_check s c t l) as [result l1] eqn:Hc. specialize (IH l1).
  destruct (spec_run s rest l1) as [results l2] eqn:Hr. simpl in *.
  assert (l1 = if allowed result then (c, t) :: l else l) as Hl
    by (unfold spec_check in Hc; by injection Hc as <- <-).
  unfold granted in *. simpl. rewrite IH, Hl.
  destruct (allowed result); simpl; [by rewrite <- app_assoc|done].
Qed.

Lemma spec_run_ok requests now l :
  valid_settings s = true -> log_ok now l -> nondecreasing now requests ->
  exists now', log_ok now' (snd (spec_run s requests l)).
Proof using Type.
  intros Hs. revert now l; induction requests as [|[c t] rest IH]; intros now l Hok Hmono;
    [by exists now|]. destruct Hmono as [Hle Hmono]. cbn [spec_run].
  pose proof (spec_check_ok c now t l Hs Hle Hok) as Hok1.
  destruct (spec_check s c t l) as [result l1]. simpl in Hok1.
  destruct (IH t l1 Hok1 Hmono) as [now' Hok2]. exists now'.
  by destruct (spec_run s rest l1).
Qed.
End Windows.

(** * Theorems *)

Section RateLimit.
Context (hmac : text -> text -> text) (pepper : text) (s : RegistrationRateLimitSettings).

Lemma represents_nothing w now d : attempts d = ∅ -> represents s w now d [].
Proof using Type.
  intros Hd. split; rewrite Hd; [intros k a; by rewrite lookup_empty|]. done.
Qed.

Definition keyed (requests : list (text * time)) : list (text * time) :=
  (fun gt => (rate_limit_client hmac pepper (fst gt), snd gt)) <$> requests.


Lemma nondecreasing_keyed now requests :
  nondecreasing now requests -> nondecreasing now (keyed requests).
Proof using Type.
  revert now; induction requests as [|[g t] rest IH]; intros now; [done|]. intros [H1 H2].
  split; [done|by apply IH].
Qed.

(** C8. Under a validated configuration, when the requests reach the limiter in the
    order of their clock readings and identifiers are distinct, no client group gets more
    attempts through than the burst limit within any burst window, or than the daily limit
    within any daily window, wherever the windows are placed.  (The reading is taken
    before the lock; [overtaken_request_passes_the_limit] is what happens to a request
    that another one with a later reading overtakes.) *)
Theorem rolling_windows_are_bounded requests now w d results client t :
  valid_settings s = true ->
  attempts d = ∅ -> (forall m n, w_uuid_source w m = w_uuid_source w n -> m = n) ->
  nondecreasing now requests ->
  value_of (run_checks hmac pepper s requests) w d = Ok results ->
  window_count client (burst_window s) t (granted (keyed requests) results) <= burst_limit s /\
  window_count client (daily_window s) t (granted (keyed requests) results) <= daily_limit s.
Proof using Type.
  intros Hs Hd Hinj Hmono Hrun.
  rewrite (run_refines hmac pepper s requests now w d [] Hinj (represents_nothing w now d Hd) Hmono) in Hrun.
  injection Hrun as <-. fold (keyed requests).
  destruct (spec_run_ok s (keyed requests) now [] Hs) as [now' [_ Hb Hday]];
    [|by apply nondecreasing_keyed|].
  { unfold valid_settings in Hs. split; [intros ct Hct; by apply not_elem_of_nil in Hct| |];
      intros *; unfold window_count; simpl; lia. }
  assert (Hcount : forall width, window_count client width t (snd (spec_run s (keyed requests) [])) =
    window_count client width t (granted (keyed requests) (fst (spec_run s (keyed requests) [])))).
  { intros width. rewrite spec_run_log, app_nil_r. unfold window_count.
    by rewrite (filter_Permutation _ _ _ (Permutation_sym (Permutation_rev _))). }
  rewrite <- !Hcount. split; [apply Hb|apply Hday].
Qed.
End RateLimit.

(** * Witnesses *)

Definition default_settings : RegistrationRateLimitSettings :=
  mkSettings 5 (minutes 30) 20 (minutes 1440).
Definition plain_hmac (key message : text) : text := message.
Definition no_attempts : Db := mkDb ∅ (OAuth.mkDb ∅ ∅ ∅ ∅ ∅).

(** Seven attempts of one group within a minute, then one a day later. *)
Definition burst_requests : list (text * time) :=
  ((fun n => (lit "192.0.2.1", seconds (Z.of_nat n))) <$> seq 0 7)
  ++ [(lit "192.0.2.1", minutes 1500)].

Lemma sample_uuids_distinct m n :
  w_uuid_source sample_world m = w_uuid_source sample_world n -> m = n.
Proof. simpl. lia. Qed.

Lemma burst_requests_ordered : nondecreasing 0 burst_requests.
Proof. vm_compute. repeat split; discriminate. Qed.

(** One attempt an hour; the second request of the client is overtaken by one of
    another client, whose clean-up deletes the attempt that still counts. *)
Definition hourly : RegistrationRateLimitSettings := mkSettings 1 (minutes 1) 1 (minutes 60).
Definition overtaken_requests : list (text * time) :=
  [(lit "192.0.2.1", 0); (lit "192.0.2.2", minutes 60); (lit "192.0.2.1", minutes 59)].

Lemma overtaken_request_passes_the_limit :
  valid_settings hourly = true /\
  match value_of (run_checks plain_hmac [] hourly overtaken_requests) sample_world no_attempts with
  | Ok results =>
      window_count (rate_limit_client plain_hmac [] (lit "192.0.2.1")) (daily_window hourly) (minutes 59)
        (granted (keyed plain_hmac [] overtaken_requests) results) = 1 + daily_limit hourly
  | Err _ => False
  end.
Proof. split; vm_compute; reflexivity. Qed.


Lemma rolling_windows_are_bounded_witness :
  window_count (rate_limit_client plain_hmac [] (lit "192.0.2.1")) (minutes 30) (minutes 10)
    (granted (keyed plain_hmac [] burst_requests)
       (fst (spec_run default_settings (keyed plain_hmac [] burst_requests) []))) <= 5.
Proof.
  apply (rolling_windows_are_bounded plain_hmac [] default_settings burst_requests 0 sample_world
    no_attempts (fst (spec_run default_settings (keyed plain_hmac [] burst_requests) []))
    (rate_limit_client plain_hmac [] (lit "192.0.2.1")) (minutes 10)
    eq_refl eq_refl sample_uuids_distinct burst_requests_ordered).
  vm_compute. reflexivity.
Defined.
