(* ===== verification/Pagination.v ===== *)
(** Cursor pagination of Mastodon collections ([crates/db/src/lib.rs], with the
    Link header of [crates/server/src/statuses.rs]): the cursor filters, the
    pages read from one table, and the pages merged from a local and a remote
    table.  The handlers read from one snapshot, so a page is a function of the
    store (and, for mutes, of the clock).  Rows of a table keyed by a pair are
    the entries (key, row) of its map. *)
From S2P Require Import Prelude Core.
From S2P Require Import Relations Statuses Interactions.

(** * Cursors and pages *)

Record CollectionCursor := mkCursor {
  max_id : option uuid;
  since_id : option uuid;
  min_id : option uuid;
}.

Definition no_cursor : CollectionCursor := mkCursor None None None.

Record CollectionPage (T : Type) := mkPage {
  items : list T;
  first_cursor : option uuid;
  last_cursor : option uuid;
  has_more : bool;
}.
Arguments mkPage {T} _ _ _ _.
Arguments items {T} _.
Arguments first_cursor {T} _.
Arguments last_cursor {T} _.
Arguments has_more {T} _.

(** Limits are [u64]. *)
Definition page_query_limit (limit : Z) : Z := Z.min (limit + 1) (u64_modulus - 1).

Definition trim_to_page {T} (items : list T) (limit : Z) : list T * bool :=
  let limit := Z.to_nat limit in
  let has_more := bool_decide (limit < length items)%nat in
  (if has_more then take limit items else items, has_more).

Definition collection_cursor_matches (id : uuid) (cursor : CollectionCursor) : bool :=
  match max_id cursor with Some m => (id <? m)%N | None => true end
  && match since_id cursor with Some m => (m <? id)%N | None => true end
  && match min_id cursor with Some m => (m <? id)%N | None => true end.

Section Query.
Context {R : Type} (row_id : R -> uuid).

(** The WHERE clauses that a cursor adds to a query. *)
Definition apply_collection_cursor (cursor : CollectionCursor) (rows : list R) : list R :=
  let rows := match max_id cursor with
              | Some m => List.filter (fun r => (row_id r <? m)%N) rows | None => rows end in
  let rows := match since_id cursor with
              | Some m => List.filter (fun r => (m <? row_id r)%N) rows | None => rows end in
  match min_id cursor with
  | Some m => List.filter (fun r => (m <? row_id r)%N) rows | None => rows end.

(** ORDER BY id DESC. *)
Definition newest (a b : R) : bool := (row_id b <=? row_id a)%N.
Definition newest_first (rows : list R) : list R := order_by newest rows.

(** [apply_collection_cursor(cursor).order_by_desc(Id).limit(page_query_limit(limit))]. *)
Definition cursor_query (limit : Z) (cursor : CollectionCursor) (rows : list R) : list R :=
  take (Z.to_nat (page_query_limit limit)) (newest_first (apply_collection_cursor cursor rows)).

(** The page of [rows] that [project] turns into items. *)
Definition page_of {T} (limit : Z) (project : list R -> list T) (rows : list R) : CollectionPage T :=
  let '(rows, more) := trim_to_page rows limit in
  mkPage (project rows) (row_id <$> head rows) (row_id <$> last rows) more.
End Query.

(** * Loading the objects of a page *)

(** Ids paired with their rows, in the order of the ids; an id that is listed
    twice is found once, since the row leaves the map. *)
Fixpoint take_each {V} (ids : list uuid) (by_id : gmap uuid V) : list (uuid * V) :=
  match ids with
  | [] => []
  | i :: ids =>
      match by_id !! i with
      | Some v => (i, v) :: take_each ids (delete i by_id)
      | None => take_each ids by_id
      end
  end.

(** [local_accounts_by_id], [remote_actors_by_id]. *)
Definition rows_by_id {V} (ids : list uuid) (t : gmap uuid V) : list (uuid * V) :=
  match ids with
  | [] => []
  | _ => take_each ids (filter (fun kv => kv.1 ∈ ids) t)
  end.

Inductive Account : Type :=
| LocalEntry (id : uuid) (account : AccountRow)
| RemoteEntry (id : uuid) (actor : RemoteActorRow).

Definition local_entry (a : uuid * AccountRow) : Account := LocalEntry a.1 a.2.
Definition remote_entry (a : uuid * RemoteActorRow) : Account := RemoteEntry a.1 a.2.

Definition find_account (id : uuid) (d : Relations.Db) : option Account :=
  LocalEntry id <$> local_accounts d !! id.
Definition find_actor (id : uuid) (d : Relations.Db) : option Account :=
  RemoteEntry id <$> remote_actors d !! id.

(** * Relationship collections *)

(** Rows as (identifier, account). *)
Abbreviation relation_row := (uuid * uuid)%type.

Inductive AccountCollection : Type := Followers | Following | Blocks | Mutes.

Section Relationships.
Context (d : Relations.Db).

(** [follow_collection_page]: both selections are loaded whole, rows outside
    the cursor and rows whose account is gone are dropped, and the rest is
    sorted and trimmed. *)
Definition collection_entries (find : uuid -> Relations.Db -> option Account)
    (rows : list relation_row) (cursor : CollectionCursor) : list (uuid * Account) :=
  omap (fun row => if collection_cursor_matches row.1 cursor
                   then (fun a => (row.1, a)) <$> find row.2 d else None) rows.

Definition follow_collection_page (local remote : list relation_row) (limit : Z)
    (cursor : CollectionCursor) : CollectionPage (uuid * Account) :=
  let entries := collection_entries find_account local cursor
                 ++ collection_entries find_actor remote cursor in
  page_of fst limit (fun es => es) (newest_first fst entries).

(** The rows of the two tables behind each collection of account [a]. *)
Section Rows.
Context (a : uuid) (now : time).

Definition local_follower_rows : list relation_row :=
  (fun e => (follow_id e.2, e.1.1)) <$>
    List.filter (fun e => (e.1.2 =? a)%N) (map_to_list (local_follows d)).
Definition remote_follower_rows : list relation_row :=
  (fun f => (rf_id f, rf_remote f)) <$>
    rows_where (fun f => (rf_local f =? a)%N && bool_decide (rf_state f = Accepted)) (remote_follows d).

Definition local_following_rows : list relation_row :=
  (fun e => (follow_id e.2, e.1.2)) <$>
    List.filter (fun e => (e.1.1 =? a)%N) (map_to_list (local_follows d)).
Definition remote_following_rows : list relation_row :=
  (fun f => (fg_id f, fg_remote f)) <$>
    rows_where (fun f => (fg_local f =? a)%N && bool_decide (fg_state f = Accepted)) (remote_followings d).

Definition local_block_rows : list relation_row :=
  (fun e => (e.2, e.1.2)) <$> List.filter (fun e => (e.1.1 =? a)%N) (map_to_list (local_blocks d)).
Definition remote_block_rows : list relation_row :=
  (fun e => (rb_id e.2, e.1.2)) <$>
    List.filter (fun e => (e.1.1 =? a)%N) (map_to_list (local_remote_blocks d)).

Definition active_mutes (t : gmap (uuid * uuid) MuteRow) : list relation_row :=
  (fun e => (mute_id e.2, e.1.2)) <$>
    List.filter (fun e => (e.1.1 =? a)%N && mute_active now e.2) (map_to_list t).
End Rows.

Definition followers_for_local_account (account : AccountId) :=
  follow_collection_page (local_follower_rows (account_uuid account))
    (remote_follower_rows (account_uuid account)).

Definition following_for_local_account (account : AccountId) :=
  follow_collection_page (local_following_rows (account_uuid account))
    (remote_following_rows (account_uuid account)).

Definition blocked_accounts_for_account (account : AccountId) :=
  follow_collection_page (local_block_rows (account_uuid account))
    (remote_block_rows (account_uuid account)).

Definition muted_accounts_for_account (account : AccountId) (now : time) :=
  follow_collection_page (active_mutes (account_uuid account) now (local_mutes d))
    (active_mutes (account_uuid account) now (remote_mutes d)).

(** The pages that one query selects, with the local accounts of the rows. *)
Definition accounts_of (rows : list relation_row) : list (uuid * AccountRow) :=
  rows_by_id (snd <$> rows) (local_accounts d).

Definition local_accounts_page (rows : list relation_row) (limit : Z) (cursor : CollectionCursor) :
    CollectionPage (uuid * AccountRow) :=
  page_of fst limit accounts_of (cursor_query fst limit cursor rows).

Definition local_followers_for_account (account : AccountId) :=
  local_accounts_page (local_follower_rows (account_uuid account)).

Definition local_following_for_account (account : AccountId) :=
  local_accounts_page (local_following_rows (account_uuid account)).

Definition blocked_local_accounts_for_account (account : AccountId) :=
  local_accounts_page (local_block_rows (account_uuid account)).

Definition muted_local_accounts_for_account (account : AccountId) (now : time) :=
  local_accounts_page (active_mutes (account_uuid account) now (local_mutes d)).

(** [local_relationship_collection_page]: the rows whose local account is
    found, each account once. *)
Fixpoint relationship_entries (rows : list relation_row) (accounts : gmap uuid AccountRow) :
    list (uuid * Account) :=
  match rows with
  | [] => []
  | (id, a) :: rows =>
      match accounts !! a with
      | Some account => (id, LocalEntry a account) :: relationship_entries rows (delete a accounts)
      | None => relationship_entries rows accounts
      end
  end.

Definition local_relationship_collection_page (rows : list relation_row) : list (uuid * Account) :=
  relationship_entries rows (list_to_map (rows_by_id (snd <$> rows) (local_accounts d))).

Definition followers_for_remote_account (actor : AccountId) (limit : Z) (cursor : CollectionCursor) :
    CollectionPage (uuid * Account) :=
  page_of fst limit local_relationship_collection_page (cursor_query fst limit cursor
    ((fun f => (fg_id f, fg_local f)) <$>
       rows_where (fun f => (fg_remote f =? account_uuid actor)%N && bool_decide (fg_state f = Accepted)
                            && bool_decide (fg_deactivated_at f = None)) (remote_followings d))).

Definition following_for_remote_account (actor : AccountId) (limit : Z) (cursor : CollectionCursor) :
    CollectionPage (uuid * Account) :=
  page_of fst limit local_relationship_collection_page (cursor_query fst limit cursor
    ((fun f => (rf_id f, rf_local f)) <$>
       rows_where (fun f => (rf_remote f =? account_uuid actor)%N && bool_decide (rf_state f = Accepted))
         (remote_follows d))).

Definition count_remote_following (account : AccountId) : Z :=
  Z.of_nat (count_where (fun f => (fg_local f =? account_uuid account)%N
    && bool_decide (fg_state f = Accepted) && bool_decide (fg_deactivated_at f = None))
    (remote_followings d)).

Definition count_remote_actor_followers_known_locally (actor : AccountId) : Z :=
  Z.of_nat (count_where (fun f => (fg_remote f =? account_uuid actor)%N
    && bool_decide (fg_state f = Accepted) && bool_decide (fg_deactivated_at f = None))
    (remote_followings d)).

Definition count_remote_actor_following_known_locally (actor : AccountId) : Z :=
  Z.of_nat (count_where (fun f => (rf_remote f =? account_uuid actor)%N
    && bool_decide (rf_state f = Accepted)) (remote_follows d)).

(** [pending_remote_follow_requests] fails when an actor of the page is gone. *)
Fixpoint request_actors (rows : list relation_row) (actors : gmap uuid RemoteActorRow) :
    result (list (uuid * RemoteActorRow)) RoostyError :=
  match rows with
  | [] => Ok []
  | (_, a) :: rows =>
      match actors !! a with
      | Some actor =>
          match request_actors rows (delete a actors) with
          | Ok rest => Ok ((a, actor) :: rest)
          | Err e => Err e
          end
      | None => Err (InvalidInput "remote follow actor is missing"%string)
      end
  end.

Definition pending_remote_follow_requests (account : AccountId) (limit : Z)
    (cursor : CollectionCursor) : result (CollectionPage (uuid * RemoteActorRow)) RoostyError :=
  let page := page_of fst limit (fun rows => rows) (cursor_query fst limit cursor
    ((fun f => (rf_id f, rf_remote f)) <$>
       rows_where (fun f => (rf_local f =? account_uuid account)%N && bool_decide (rf_state f = Pending))
         (remote_follows d))) in
  match request_actors (items page)
          (filter (fun kv => kv.1 ∈ (snd <$> items page)) (remote_actors d)) with
  | Ok actors => Ok (mkPage actors (first_cursor page) (last_cursor page) (has_more page))
  | Err e => Err e
  end.

(** The page that [account_collection] reads for a local owner. *)
Definition account_collection_page (collection : AccountCollection) (account : AccountId) (now : time) :=
  match collection with
  | Followers => followers_for_local_account account
  | Following => following_for_local_account account
  | Blocks => blocked_accounts_for_account account
  | Mutes => muted_accounts_for_account account now
  end.
End Relationships.

(** * Interaction collections *)

Inductive FavouriteStatus : Type :=
| LocalFavourite (id : uuid) (status : Statuses.LocalStatus)
| RemoteFavourite (id : uuid) (status : Statuses.RemoteStatus).

Inductive StatusInteractionTarget : Type :=
| LocalTarget (status : StatusId)
| RemoteTarget (status : StatusId).

Inductive InteractionActorId : Type :=
| LocalActor (account : uuid)
| RemoteActorOf (actor : uuid).

#[export] Instance InteractionActorId_eq_dec : EqDecision InteractionActorId.
Proof. solve_decision. Defined.

Section Collections.
Context (d : Interactions.Db).

Definition statuses : Statuses.Db := statuses_of d.
Definition relations : Relations.Db := Statuses.relations statuses.

(** [find_local_status_by_id] and [find_remote_status_by_id] of a snapshot. *)
Definition live_status (id : uuid) : option Statuses.LocalStatus :=
  s ← local_statuses statuses !! id; guard (ls_deleted_at s = None);; Some s.
Definition live_remote_status (id : uuid) : option Statuses.RemoteStatus :=
  s ← remote_statuses statuses !! id; guard (rs_deleted_at s = None);; Some s.

Definition active_statuses_by_id (ids : list uuid) : list (uuid * Statuses.LocalStatus) :=
  omap (fun i => (fun s => (i, s)) <$> live_status i) ids.

(** Rows (id, status) of an account in a table keyed by (account, status). *)
Definition statuses_acted_on (account : AccountId) (t : gmap (uuid * uuid) ActionRow) :
    list relation_row :=
  (fun e => (act_id e.2, e.1.2)) <$>
    List.filter (fun e => (e.1.1 =? account_uuid account)%N) (map_to_list t).

(** Rows (id, account) of a status in such a table. *)
Definition accounts_acting_on (status : StatusId) (t : gmap (uuid * uuid) ActionRow) :
    list relation_row :=
  (fun e => (act_id e.2, e.1.1)) <$>
    List.filter (fun e => (e.1.2 =? status_uuid status)%N) (map_to_list t).

Definition local_statuses_page (rows : list relation_row) (limit : Z) (cursor : CollectionCursor) :
    CollectionPage (uuid * Statuses.LocalStatus) :=
  page_of fst limit (fun rows => active_statuses_by_id (snd <$> rows))
    (cursor_query fst limit cursor rows).

Definition local_favourites_for_account (account : AccountId) :=
  local_statuses_page (statuses_acted_on account (local_favourites d)).

Definition local_bookmarks_for_account (account : AccountId) :=
  local_statuses_page (statuses_acted_on account (bookmarks d)).

(** Both queries are limited before the statuses that are gone are dropped. *)
Definition favourite_entries {A} (find : uuid -> option A) (rows : list relation_row) :
    list (uuid * A) :=
  omap (fun row => (fun s => (row.1, s)) <$> find row.2) rows.

Definition outgoing_rows (account : AccountId) : list relation_row :=
  (fun o => (out_id o, out_status o)) <$>
    rows_where (fun o => (out_account o =? account_uuid account)%N) (outgoing_favourites d).

Definition find_favourite (id : uuid) : option FavouriteStatus := LocalFavourite id <$> live_status id.
Definition find_remote_favourite (id : uuid) : option FavouriteStatus :=
  RemoteFavourite id <$> live_remote_status id.

Definition favourites_for_account (account : AccountId) (limit : Z) (cursor : CollectionCursor) :
    CollectionPage FavouriteStatus :=
  let local := cursor_query fst limit cursor (statuses_acted_on account (local_favourites d)) in
  let remote := cursor_query fst limit cursor (outgoing_rows account) in
  let entries := favourite_entries find_favourite local
                 ++ favourite_entries find_remote_favourite remote in
  page_of fst limit (fun es => snd <$> es) (newest_first fst entries).

Definition local_reblogged_by_for_status (status : StatusId) :=
  local_accounts_page relations (accounts_acting_on status (local_reblogs d)).

(** [interaction_accounts_page]. *)
Fixpoint interaction_items (entries : list (uuid * InteractionActorId))
    (accounts : gmap uuid AccountRow) (actors : gmap uuid RemoteActorRow) : list Account :=
  match entries with
  | [] => []
  | (_, LocalActor i) :: entries =>
      match accounts !! i with
      | Some a => LocalEntry i a :: interaction_items entries (delete i accounts) actors
      | None => interaction_items entries accounts actors
      end
  | (_, RemoteActorOf i) :: entries =>
      match actors !! i with
      | Some a => RemoteEntry i a :: interaction_items entries accounts (delete i actors)
      | None => interaction_items entries accounts actors
      end
  end.

Definition local_ids (entries : list (uuid * InteractionActorId)) : list uuid :=
  omap (fun e => match e.2 with LocalActor i => Some i | RemoteActorOf _ => None end) entries.
Definition remote_ids (entries : list (uuid * InteractionActorId)) : list uuid :=
  omap (fun e => match e.2 with LocalActor _ => None | RemoteActorOf i => Some i end) entries.

Definition interaction_accounts (entries : list (uuid * InteractionActorId)) : list Account :=
  interaction_items entries
    (list_to_map (rows_by_id (local_ids entries) (local_accounts relations)))
    (list_to_map (rows_by_id (remote_ids entries) (remote_actors relations))).

Definition interaction_accounts_page (entries : list (uuid * InteractionActorId)) (limit : Z) :
    CollectionPage Account :=
  page_of fst limit interaction_accounts (newest_first fst entries).

Definition local_actor (row : relation_row) : uuid * InteractionActorId := (row.1, LocalActor row.2).
Definition remote_actor (row : relation_row) : uuid * InteractionActorId := (row.1, RemoteActorOf row.2).

Definition favouriting_actors (status : StatusId) : list relation_row :=
  (fun f => (rfv_id f, rfv_actor f)) <$>
    rows_where (fun f => (rfv_status f =? status_uuid status)%N) (remote_favourites d).

Definition outgoing_accounts (status : StatusId) (t : gmap uuid OutgoingRow) : list relation_row :=
  (fun o => (out_id o, out_account o)) <$>
    rows_where (fun o => (out_status o =? status_uuid status)%N) t.

Definition favourited_by_for_status (target : StatusInteractionTarget) (limit : Z)
    (cursor : CollectionCursor) : CollectionPage Account :=
  let entries := match target with
    | LocalTarget status =>
        (local_actor <$> cursor_query fst limit cursor (accounts_acting_on status (local_favourites d)))
        ++ (remote_actor <$> cursor_query fst limit cursor (favouriting_actors status))
    | RemoteTarget status =>
        local_actor <$> cursor_query fst limit cursor (outgoing_accounts status (outgoing_favourites d))
    end in
  interaction_accounts_page entries limit.

Definition boosting_actors (column : RemoteReblogRow -> option uuid) (status : StatusId) :
    list relation_row :=
  (fun r => (rrb_id r, rrb_actor r)) <$>
    rows_where (fun r => bool_decide (column r = Some (status_uuid status))) (remote_reblogs d).

Definition reblogged_by_for_status (target : StatusInteractionTarget) (limit : Z)
    (cursor : CollectionCursor) : CollectionPage Account :=
  let entries := match target with
    | LocalTarget status =>
        (local_actor <$> cursor_query fst limit cursor (accounts_acting_on status (local_reblogs d)))
        ++ (remote_actor <$> cursor_query fst limit cursor (boosting_actors rrb_local status))
    | RemoteTarget status =>
        (local_actor <$> cursor_query fst limit cursor
           (outgoing_accounts status (outgoing_reblogs d)))
        ++ (remote_actor <$> cursor_query fst limit cursor (boosting_actors rrb_remote status))
    end in
  interaction_accounts_page entries limit.
End Collections.

(** * The Link header and the client that follows it *)

(** [CollectionLink::header_value]: the cursors of the "prev" and "next" links,
    both with the limit of the request. *)
Definition header_links {T} (page : CollectionPage T) : option (CollectionCursor * CollectionCursor) :=
  if negb (has_more page) then None
  else match first_cursor page, last_cursor page with
       | Some first, Some last => Some (mkCursor None None (Some first), mkCursor (Some last) None None)
       | _, _ => None
       end.

(** The items of the pages reached by the "next" links from [cursor], and
    whether the last of them has no link. *)
Fixpoint walk {T} (page : CollectionCursor -> CollectionPage T) (fuel : nat)
    (cursor : CollectionCursor) : list T * bool :=
  match fuel with
  | O => ([], false)
  | S fuel =>
      let p := page cursor in
      match header_links p with
      | None => (items p, true)
      | Some (_, next) => let '(rest, finished) := walk page fuel next in (items p ++ rest, finished)
      end
  end.

(** [timeline_limit], [interaction_accounts_limit] and the account collections:
    the default when absent, then clamped. *)
Definition clamp_limit (default_limit max_limit : Z) (limit : option Z) : Z :=
  Z.max 1 (Z.min max_limit (default default_limit limit)).
