(* ===== verification/PaginationWalk.v ===== *)
(** What pagination promises: a page merged from two limited queries is the page
    of the whole collection, and a client that follows the "next" links reads
    every row once and stops. *)
From S2P Require Import Prelude Core.
From S2P Require Import Relations Statuses Interactions Pagination.

(** * Ordered selections *)

Lemma NoDup_submseteq_of {A} (l k : list A) : l ⊆+ k -> NoDup k -> NoDup l.
Proof.
  intros [k' Hk]%submseteq_Permutation Hnd. rewrite Hk in Hnd.
  by apply NoDup_app in Hnd as [? _].
Qed.

Lemma NoDup_fmap_filter {A B} (f : A -> B) p (l : list A) :
  NoDup (f <$> l) -> NoDup (f <$> List.filter p l).
Proof.
  induction l as [|x l IH]; simpl; [done|]. intros [Hx Hnd]%NoDup_cons.
  destruct (p x); [|auto]. simpl. constructor; [|auto]. intros [y [Heq Hy]]%list_elem_of_fmap.
  apply Hx, list_elem_of_fmap. exists y. split; [done|].
  by apply list_elem_of_In, filter_In in Hy as [Hy%list_elem_of_In _].
Qed.

Section Order.
Context {R : Type} (rid : R -> uuid).

Definition newer (a b : R) : Prop := newest rid a b = true.

#[local] Instance newer_dec : RelDecision newer.
Proof. intros a b. unfold newer. apply _. Defined.

Abbreviation sorted := (StronglySorted newer).

Lemma newest_total a b : newest rid a b = true \/ newest rid b a = true.
Proof. unfold newest. rewrite !N.leb_le. lia. Qed.

Lemma newest_trans a b c : newest rid a b = true -> newest rid b c = true -> newest rid a c = true.
Proof. unfold newest. rewrite !N.leb_le. lia. Qed.

Lemma newest_first_sorted l : sorted (newest_first rid l).
Proof. apply order_by_sorted; [apply newest_total|apply newest_trans]. Qed.

Lemma newest_first_Permutation l : newest_first rid l ≡ₚ l.
Proof. apply order_by_Permutation. Qed.

Lemma NoDup_fmap_eq (l : list R) x y :
  NoDup (rid <$> l) -> x ∈ l -> y ∈ l -> rid x = rid y -> x = y.
Proof.
  intros Hnd [i Hi]%list_elem_of_lookup [j Hj]%list_elem_of_lookup Heq.
  assert (i = j) as ->; [|congruence].
  eapply NoDup_lookup; [exact Hnd| |]; rewrite list_lookup_fmap; [by rewrite Hi|].
  by rewrite Hj; simpl; rewrite Heq.
Qed.

(** Distinct identifiers are sorted in one way. *)
Lemma newest_first_unique l l' :
  NoDup (rid <$> l) -> l' ≡ₚ l -> sorted l' -> newest_first rid l = l'.
Proof.
  intros Hnd Hp Hs. eapply StronglySorted_unique_strong;
    [|apply newest_first_sorted|exact Hs|by rewrite newest_first_Permutation].
  intros x y Hx Hy. rewrite newest_first_Permutation in Hx. rewrite Hp in Hy.
  unfold newer, newest. rewrite !N.leb_le. intros ??. apply (NoDup_fmap_eq l); [done..|lia].
Qed.

Lemma newest_first_ext l l' :
  NoDup (rid <$> l') -> l ≡ₚ l' -> newest_first rid l = newest_first rid l'.
Proof.
  intros Hnd Hp. symmetry. apply newest_first_unique; [done| |apply newest_first_sorted].
  by rewrite newest_first_Permutation.
Qed.

Lemma sorted_filter p l : sorted l -> sorted (List.filter p l).
Proof.
  induction 1 as [|x l Hs IH Hall]; simpl; [constructor|]. destruct (p x); [|done].
  constructor; [done|]. rewrite Forall_forall in Hall |- *. intros y Hy. apply Hall.
  by apply list_elem_of_In, filter_In in Hy as [Hy%list_elem_of_In _].
Qed.

Lemma newest_first_filter p l :
  NoDup (rid <$> l) -> newest_first rid (List.filter p l) = List.filter p (newest_first rid l).
Proof.
  intros Hnd. apply newest_first_unique; [by apply NoDup_fmap_filter| |].
  - apply filter_Permutation, newest_first_Permutation.
  - apply sorted_filter, newest_first_sorted.
Qed.

(** * Merging two limited queries *)

Abbreviation merge := (list_merge newer).

Lemma take_merge m ka kb l1 l2 :
  (m <= ka)%nat -> (m <= kb)%nat ->
  take m (merge (take ka l1) (take kb l2)) = take m (merge l1 l2).
Proof.
  revert ka kb l1 l2. induction m as [|m IH]; [done|]. intros [|ka] [|kb] l1 l2 Ha Hb; try lia.
  destruct l1 as [|a l1]; [rewrite take_nil, !list_merge_nil_l, take_take; f_equal; lia|].
  destruct l2 as [|b l2]; [rewrite take_nil, !list_merge_nil_r, take_take; f_equal; lia|].
  simpl take at 2 3. rewrite !list_merge_cons. case_decide; simpl; f_equal.
  - rewrite <- (IH ka (S kb) l1 (b :: l2)) by lia. done.
  - rewrite <- (IH (S ka) kb (a :: l1) l2) by lia. done.
Qed.

Lemma merge_sorted l1 l2 : sorted l1 -> sorted l2 -> sorted (merge l1 l2).
Proof.
  intros H1 H2. apply Sorted_StronglySorted; [exact newest_trans|].
  apply Sorted_list_merge; [exact newest_total|by apply StronglySorted_Sorted..].
Qed.

Lemma sorted_take m l : sorted l -> sorted (take m l).
Proof.
  intros H. revert m. induction H as [|x l Hs IH Hall]; intros [|m]; simpl; [constructor..|].
  constructor; [done|]. by apply Forall_take.
Qed.

Lemma newest_first_app l1 l2 :
  NoDup (rid <$> (l1 ++ l2)) ->
  newest_first rid (l1 ++ l2) = merge (newest_first rid l1) (newest_first rid l2).
Proof.
  intros Hnd. apply newest_first_unique; [done| |].
  - by rewrite merge_Permutation, !newest_first_Permutation.
  - apply merge_sorted; apply newest_first_sorted.
Qed.

Lemma sorted_newest_first l : NoDup (rid <$> l) -> sorted l -> newest_first rid l = l.
Proof. intros. by apply newest_first_unique. Qed.

Lemma NoDup_fmap_submseteq (l k : list R) : l ⊆+ k -> NoDup (rid <$> k) -> NoDup (rid <$> l).
Proof. intros Hs. by apply NoDup_submseteq_of, fmap_submseteq. Qed.

Lemma top_submseteq m l : take m (newest_first rid l) ⊆+ l.
Proof.
  rewrite <- (newest_first_Permutation l) at 2. apply sublist_submseteq, sublist_take.
Qed.

(** The first [m] rows of a union are among the first [m] of each part. *)
Lemma top_app m l1 l2 :
  NoDup (rid <$> (l1 ++ l2)) ->
  take m (newest_first rid (take m (newest_first rid l1) ++ take m (newest_first rid l2)))
  = take m (newest_first rid (l1 ++ l2)).
Proof.
  intros Hnd. rewrite (newest_first_app l1 l2) by done.
  rewrite <- (take_merge m m m (newest_first rid l1)) by lia. f_equal.
  assert (forall l, sorted (take m (newest_first rid l))) as Hs
    by (intros; apply sorted_take, newest_first_sorted).
  apply newest_first_unique; [|by rewrite merge_Permutation|by apply merge_sorted].
  eapply NoDup_fmap_submseteq; [|exact Hnd]. apply submseteq_app; apply top_submseteq.
Qed.
End Order.

(** * Pages *)

Lemma filter_filter_andb {A} (p q : A -> bool) l :
  List.filter p (List.filter q l) = List.filter (fun x => q x && p x)%bool l.
Proof. induction l as [|x l IH]; simpl; [done|]. destruct (q x); simpl; by rewrite IH. Qed.

Lemma filter_all {A} (p : A -> bool) l : (forall x, x ∈ l -> p x = true) -> List.filter p l = l.
Proof.
  induction l as [|x l IH]; simpl; intros H; [done|]. rewrite H by left. f_equal.
  apply IH. intros y Hy. apply H. by right.
Qed.

Lemma filter_none {A} (p : A -> bool) l : (forall x, x ∈ l -> p x = false) -> List.filter p l = [].
Proof.
  induction l as [|x l IH]; simpl; intros H; [done|]. rewrite H by left.
  apply IH. intros y Hy. apply H. by right.
Qed.

Section Pages.
Context {R : Type} (rid : R -> uuid).

(** The SQL filters and the in-memory test of a cursor select the same rows. *)
Lemma apply_cursor_filter c rows :
  apply_collection_cursor rid c rows
  = List.filter (fun r => collection_cursor_matches (rid r) c) rows.
Proof.
  unfold apply_collection_cursor. destruct c as [[m|] [s|] [n|]]; simpl;
    rewrite ?filter_filter_andb; try (symmetry; by apply filter_all);
    apply filter_ext; intros x; unfold collection_cursor_matches; simpl;
    by rewrite ?andb_true_r, ?andb_assoc.
Qed.

Lemma trim_to_page_take {A} (l : list A) limit :
  trim_to_page l limit
  = (take (Z.to_nat limit) l, bool_decide (Z.to_nat limit < length l)%nat).
Proof.
  unfold trim_to_page. case_bool_decide; [done|]. rewrite take_ge; [done|lia].
Qed.

(** One row past the limit tells whether there are more. *)
Lemma trim_one_more {A} (l : list A) limit :
  0 <= limit < u64_modulus - 1 ->
  trim_to_page (take (Z.to_nat (page_query_limit limit)) l) limit = trim_to_page l limit.
Proof.
  intros Hl. unfold page_query_limit. rewrite Z.min_l by lia.
  rewrite !trim_to_page_take, take_take, length_take. f_equal; [f_equal; lia|].
  apply bool_decide_ext. lia.
Qed.

Lemma page_of_one_more {T} (project : list R -> list T) l limit :
  0 <= limit < u64_modulus - 1 ->
  page_of rid limit project (take (Z.to_nat (page_query_limit limit)) l) = page_of rid limit project l.
Proof. intros. unfold page_of. by rewrite trim_one_more. Qed.

Lemma cursor_query_nil limit c : cursor_query rid limit c [] = [].
Proof.
  unfold cursor_query. rewrite apply_cursor_filter. change (newest_first rid _) with (@nil R).
  apply take_nil.
Qed.

(** A page cut from two limited queries is the page of the union. *)
Lemma merged_page {T} (project : list R -> list T) limit c l1 l2 :
  0 <= limit < u64_modulus - 1 -> NoDup (rid <$> (l1 ++ l2)) ->
  page_of rid limit project
    (newest_first rid (cursor_query rid limit c l1 ++ cursor_query rid limit c l2))
  = page_of rid limit project
      (newest_first rid (List.filter (fun r => collection_cursor_matches (rid r) c) (l1 ++ l2))).
Proof.
  intros Hl Hnd. unfold cursor_query. rewrite !apply_cursor_filter, List.filter_app.
  rewrite <- (page_of_one_more _ (newest_first rid (_ ++ _))) by done.
  rewrite top_app; [by rewrite page_of_one_more|].
  rewrite <- List.filter_app. by apply NoDup_fmap_filter.
Qed.

(** The interface of a paged collection: its rows have distinct identifiers,
    and every page is cut from the rows that the cursor admits. *)
Class Paged {T} (view : R -> option T) (rows : list R) (limit : Z)
    (page : CollectionCursor -> CollectionPage T) : Prop := {
  paged_distinct : NoDup (rid <$> rows);
  paged_page c : page c = page_of rid limit (omap view)
    (newest_first rid (List.filter (fun r => collection_cursor_matches (rid r) c) rows));
}.

(** The rows below the last row of a page are the rows after it. *)
Lemma rows_below l1 x l2 :
  NoDup (rid <$> (l1 ++ x :: l2)) -> StronglySorted (newer rid) (l1 ++ x :: l2) ->
  List.filter (fun r => (rid r <? rid x)%N) (l1 ++ x :: l2) = l2.
Proof.
  intros Hnd Hs. apply StronglySorted_app in Hs as (Hcross & _ & Hs2).
  inversion Hs2 as [|? ? _ Hall]; subst. rewrite Forall_forall in Hall.
  rewrite fmap_app, fmap_cons in Hnd. apply NoDup_app in Hnd as (_ & Hdisj & Hnd).
  apply NoDup_cons in Hnd as [Hx _].
  rewrite List.filter_app. simpl. rewrite N.ltb_irrefl, (filter_none _ l1), (filter_all _ l2); [done| |].
  - intros y Hy. specialize (Hall y Hy). unfold newer, newest in Hall. apply N.leb_le in Hall.
    apply N.ltb_lt. assert (rid y <> rid x); [|lia]. intros Heq. apply Hx. rewrite <- Heq.
    by apply list_elem_of_fmap_2.
  - intros y Hy. specialize (Hcross y x Hy ltac:(left)). unfold newer, newest in Hcross.
    apply N.leb_le in Hcross. apply N.ltb_ge. lia.
Qed.

Section Walk.
Context {T : Type} (view : R -> option T) (rows : list R) (limit : Z).
Context (page : CollectionCursor -> CollectionPage T) `{!Paged view rows limit page}.
Context (Hlimit : 1 <= limit).

Lemma paged_cut c :
  page c = page_of rid limit (omap view)
    (List.filter (fun r => collection_cursor_matches (rid r) c) (newest_first rid rows)).
Proof using Paged0. rewrite paged_page, newest_first_filter; [done|apply paged_distinct]. Qed.

Lemma walk_from fuel c pre suf :
  newest_first rid rows = pre ++ suf ->
  List.filter (fun r => collection_cursor_matches (rid r) c) (newest_first rid rows) = suf ->
  (length suf < fuel)%nat -> walk page fuel c = (omap view suf, true).
Proof using Paged0 Hlimit.
  revert c pre suf. induction fuel as [|fuel IH]; [lia|]. intros c pre suf Hcut Hc Hlen.
  simpl. rewrite paged_cut, Hc. unfold page_of. rewrite trim_to_page_take.
  set (n := Z.to_nat limit). assert (1 <= n)%nat as Hn by (unfold n; lia).
  case_bool_decide as Hmore; unfold header_links; simpl; [|by rewrite take_ge by lia].
  destruct (take n suf) as [|a p] eqn:Htake.
  { apply (f_equal length) in Htake. rewrite length_take in Htake. simpl in Htake. lia. }
  rewrite <- Htake. destruct (last (take n suf)) as [x|] eqn:Hlast;
    [|by rewrite last_None, Htake in Hlast].
  apply last_Some in Hlast as [p' Hp']. rewrite Htake at 1. simpl.
  assert (newest_first rid rows = (pre ++ p') ++ x :: drop n suf) as Hsplit.
  { rewrite Hcut. rewrite <- (take_drop n suf) at 1. by rewrite Hp', <- !app_assoc. }
  rewrite (IH _ (pre ++ take n suf) (drop n suf)).
  - by rewrite <- omap_app, take_drop.
  - by rewrite Hcut, <- app_assoc, take_drop.
  - unfold collection_cursor_matches. simpl.
    rewrite Hsplit. rewrite <- (rows_below (pre ++ p') x (drop n suf)) at 2.
    + apply filter_ext. intros r. by rewrite !andb_true_r.
    + rewrite <- Hsplit, newest_first_Permutation. apply paged_distinct.
    + rewrite <- Hsplit. apply newest_first_sorted.
  - rewrite length_drop. lia.
Qed.

(** Following the links reads every row once, newest first, and stops. *)
Lemma walk_all fuel :
  (length rows < fuel)%nat ->
  walk page fuel no_cursor = (omap view (newest_first rid rows), true).
Proof using Paged0 Hlimit.
  intros Hfuel. apply (walk_from fuel no_cursor [] (newest_first rid rows)); [done| |].
  - by apply filter_all.
  - by rewrite newest_first_Permutation.
Qed.
End Walk.
End Pages.

(** * Rows seen through another type *)

Section Rename.
Context {A B : Type} (ida : A -> uuid) (idb : B -> uuid) (g : A -> B) (Hg : forall x, idb (g x) = ida x).

Lemma newest_first_fmap l : newest_first idb (g <$> l) = g <$> newest_first ida l.
Proof using Hg.
  unfold newest_first. induction l as [|x l IH]; csimpl; [done|]. rewrite IH.
  generalize (order_by (newest ida) l). clear l IH. intros l.
  induction l as [|y l IH]; csimpl; [done|]. unfold newest at 1 3. rewrite !Hg.
  destruct (ida y <=? ida x)%N; csimpl; [done|]. by rewrite IH.
Qed.

Lemma filter_fmap_id (p : uuid -> bool) l :
  List.filter (fun r => p (idb r)) (g <$> l) = g <$> List.filter (fun r => p (ida r)) l.
Proof using Hg.
  induction l as [|x l IH]; csimpl; [done|]. rewrite Hg. destruct (p (ida x)); csimpl; by rewrite IH.
Qed.

Lemma cursor_query_fmap limit c l : cursor_query idb limit c (g <$> l) = g <$> cursor_query ida limit c l.
Proof using Hg.
  unfold cursor_query. rewrite !apply_cursor_filter.
  rewrite (filter_fmap_id (fun i => collection_cursor_matches i c)).
  by rewrite newest_first_fmap, fmap_take.
Qed.
End Rename.

(** * Loading by identifier *)

Lemma omap_congr {A B} (f g : A -> option B) (l : list A) :
  (forall x, x ∈ l -> f x = g x) -> omap f l = omap g l.
Proof.
  induction l as [|x l IH]; csimpl; intros H; [done|]. rewrite (H x) by left.
  rewrite IH; [done|]. intros y Hy. apply H. by right.
Qed.

Lemma omap_Some_id {A} (l : list A) : omap Some l = l.
Proof. induction l as [|x l IH]; csimpl; [done|]. by rewrite IH. Qed.

Section Loading.
Context {V : Type}.

Lemma take_each_omap ids (t : gmap uuid V) :
  NoDup ids -> take_each ids t = omap (fun i => pair i <$> t !! i) ids.
Proof.
  revert t. induction ids as [|i ids IH]; intros t; [done|]. intros [Hi Hnd]%NoDup_cons. simpl.
  destruct (t !! i) as [v|] eqn:Ht; simpl; rewrite IH by done; [f_equal|done].
  apply omap_congr. intros j Hj.
  rewrite lookup_delete_ne by (by intros ->). done.
Qed.

Lemma rows_by_id_omap ids (t : gmap uuid V) :
  NoDup ids -> rows_by_id ids t = omap (fun i => pair i <$> t !! i) ids.
Proof.
  intros Hnd. unfold rows_by_id. destruct ids as [|i ids]; [done|].
  rewrite take_each_omap by done. apply omap_congr.
  intros j Hj. f_equal. destruct (t !! j) as [v|] eqn:Ht.
  - by apply map_lookup_filter_Some.
  - apply map_lookup_filter_None. by left.
Qed.

Lemma loaded_lookup ids (t : gmap uuid V) i :
  NoDup ids -> i ∈ ids -> (list_to_map (rows_by_id ids t) : gmap uuid V) !! i = t !! i.
Proof.
  intros Hnd Hi. rewrite rows_by_id_omap by done. induction ids as [|j ids IH].
  { by apply not_elem_of_nil in Hi. }
  apply NoDup_cons in Hnd as [Hj Hnd]. simpl. apply elem_of_cons in Hi as [->|Hi].
  - destruct (t !! j) as [v|] eqn:Ht; simpl; [by rewrite lookup_insert_eq|].
    apply not_elem_of_list_to_map_1. intros [[k v] [Hk Hin]]%list_elem_of_fmap. simpl in Hk. subst k.
    apply list_elem_of_omap in Hin as (k & Hk & Hv). destruct (t !! k) eqn:?; simplify_eq/=; congruence.
  - destruct (t !! j) as [v|]; simpl; [|by apply IH].
    rewrite lookup_insert_ne by (by intros ->). by apply IH.
Qed.
End Loading.

Lemma page_of_ext {R T} (rid : R -> uuid) limit (f g : list R -> list T) l :
  (forall l', l' ⊆+ l -> f l' = g l') -> page_of rid limit f l = page_of rid limit g l.
Proof.
  intros Hfg. unfold page_of. rewrite trim_to_page_take. by rewrite Hfg
    by apply sublist_submseteq, sublist_take.
Qed.

(** * Relationship collections *)

Section Relationships.
Context (d : Relations.Db).

Lemma collection_entries_cursor find rows c :
  collection_entries d find rows c
  = List.filter (fun e => collection_cursor_matches e.1 c) (collection_entries d find rows no_cursor).
Proof.
  unfold collection_entries. induction rows as [|[id a] rows IH]; csimpl; [done|].
  destruct (find a d) as [x|]; csimpl; [|by destruct (collection_cursor_matches id c)].
  destruct (collection_cursor_matches id c); csimpl; by rewrite IH.
Qed.

Lemma collection_entries_ids find rows c :
  fst <$> collection_entries d find rows c ⊆+ fst <$> rows.
Proof.
  unfold collection_entries. induction rows as [|[id a] rows IH]; csimpl; [done|].
  destruct (collection_cursor_matches id c); csimpl; [|by apply submseteq_cons].
  destruct (find a d); csimpl; [by apply submseteq_skip|by apply submseteq_cons].
Qed.

#[local] Instance follow_collection_paged local remote limit :
  NoDup ((fst <$> local) ++ (fst <$> remote)) ->
  Paged fst Some (collection_entries d find_account local no_cursor
                  ++ collection_entries d find_actor remote no_cursor) limit
    (follow_collection_page d local remote limit).
Proof.
  intros Hnd. split.
  - rewrite fmap_app. eapply NoDup_submseteq_of; [|exact Hnd].
    apply submseteq_app; apply collection_entries_ids.
  - intros c. unfold follow_collection_page.
    rewrite (collection_entries_cursor find_account), (collection_entries_cursor find_actor).
    rewrite <- List.filter_app. apply page_of_ext. intros l _. by rewrite omap_Some_id.
Qed.
End Relationships.

(** The two tables behind a collection of a local account. *)
Definition collection_rows (d : Relations.Db) (collection : AccountCollection) (account : AccountId)
    (now : time) : list relation_row * list relation_row :=
  let a := account_uuid account in
  match collection with
  | Followers => (local_follower_rows d a, remote_follower_rows d a)
  | Following => (local_following_rows d a, remote_following_rows d a)
  | Blocks => (local_block_rows d a, remote_block_rows d a)
  | Mutes => (active_mutes a now (local_mutes d), active_mutes a now (remote_mutes d))
  end.

Definition known_entries (d : Relations.Db) (rows : list relation_row * list relation_row) :
    list (uuid * Account) :=
  omap (fun row => pair row.1 <$> find_account row.2 d) rows.1
  ++ omap (fun row => pair row.1 <$> find_actor row.2 d) rows.2.

(** C35. A client that reads followers, followed accounts, blocks or mutes of a
    local account page by page, following the "next" link of each page, reaches
    a page without a link, and has then read every row of both tables whose
    account is known, exactly once, newest first; whatever the limit. *)
Theorem collection_walk_reads_all (d : Relations.Db) (collection : AccountCollection)
    (account : AccountId) (now : time) (limit : Z) (fuel : nat) :
  1 <= limit ->
  NoDup (fst <$> (collection_rows d collection account now).1
               ++ (collection_rows d collection account now).2) ->
  (length (known_entries d (collection_rows d collection account now)) < fuel)%nat ->
  walk (account_collection_page d collection account now limit) fuel no_cursor
  = (newest_first fst (known_entries d (collection_rows d collection account now)), true).
Proof.
  rewrite fmap_app. intros Hlimit Hnd Hfuel.
  pose proof (follow_collection_paged d _ _ limit Hnd) as Hpaged.
  replace (account_collection_page d collection account now limit)
    with (follow_collection_page d (collection_rows d collection account now).1
            (collection_rows d collection account now).2 limit) by (by destruct collection).
  rewrite (walk_all fst Some _ limit _ Hlimit fuel Hfuel). by rewrite omap_Some_id.
Qed.

(** * Merged interaction collections *)

Definition actor_view (accounts : gmap uuid AccountRow) (actors : gmap uuid RemoteActorRow)
    (e : uuid * InteractionActorId) : option Account :=
  match e.2 with
  | LocalActor i => LocalEntry i <$> accounts !! i
  | RemoteActorOf i => RemoteEntry i <$> actors !! i
  end.

Lemma interaction_items_omap entries accounts actors :
  NoDup (snd <$> entries) ->
  interaction_items entries accounts actors = omap (actor_view accounts actors) entries.
Proof.
  revert accounts actors. induction entries as [|[id [i|i]] entries IH]; [done|..];
    intros accounts actors [Hi Hnd]%NoDup_cons; csimpl; unfold actor_view at 1; csimpl.
  - destruct (accounts !! i) as [a|] eqn:Ha; csimpl; rewrite IH by done; [f_equal|done].
    apply omap_congr. intros [id' [j|j]] Hin; unfold actor_view; csimpl; [|done].
    rewrite lookup_delete_ne; [done|]. intros ->. apply Hi.
    by apply (list_elem_of_fmap_2 snd _ (id', LocalActor j)).
  - destruct (actors !! i) as [a|] eqn:Ha; csimpl; rewrite IH by done; [f_equal|done].
    apply omap_congr. intros [id' [j|j]] Hin; unfold actor_view; csimpl; [done|].
    rewrite lookup_delete_ne; [done|]. intros ->. apply Hi.
    by apply (list_elem_of_fmap_2 snd _ (id', RemoteActorOf j)).
Qed.

Lemma elem_of_actor_ids entries i :
  (i ∈ local_ids entries <-> LocalActor i ∈ snd <$> entries) /\
  (i ∈ remote_ids entries <-> RemoteActorOf i ∈ snd <$> entries).
Proof.
  unfold local_ids, remote_ids. rewrite !list_elem_of_omap, !list_elem_of_fmap.
  split; split; intros ([id [j|j]] & H1 & H2); simplify_eq/=; eexists (id, _); split; try done.
Qed.

Lemma NoDup_actor_ids entries :
  NoDup (snd <$> entries) -> NoDup (local_ids entries) /\ NoDup (remote_ids entries).
Proof.
  induction entries as [|[id [i|i]] entries IH]; csimpl; [by repeat constructor|..];
    intros [Hi [Hl Hr]%IH]%NoDup_cons.
  - split; [|exact Hr]. change (NoDup (i :: local_ids entries)). constructor; [|done].
    contradict Hi. by apply elem_of_actor_ids.
  - split; [exact Hl|]. change (NoDup (i :: remote_ids entries)). constructor; [|done].
    contradict Hi. by apply elem_of_actor_ids.
Qed.

Section Interactions.
Context (d : Interactions.Db).

Abbreviation view := (actor_view (local_accounts (Pagination.relations d))
                        (remote_actors (Pagination.relations d))).

Lemma interaction_accounts_omap entries :
  NoDup (snd <$> entries) -> interaction_accounts d entries = omap view entries.
Proof.
  intros Hnd. unfold interaction_accounts. rewrite interaction_items_omap by done.
  apply NoDup_actor_ids in Hnd as [Hl Hr].
  apply omap_congr. intros [id [i|i]] Hin; unfold actor_view; csimpl; rewrite loaded_lookup;
    [done|done| |done|done|]; apply elem_of_actor_ids; by apply (list_elem_of_fmap_2 snd _ (id, _)).
Qed.

(** Everyone who boosted a status, as rows of both tables. *)
Definition boosters (target : StatusInteractionTarget) : list (uuid * InteractionActorId) :=
  match target with
  | LocalTarget s => (local_actor <$> accounts_acting_on s (local_reblogs d))
                     ++ (Pagination.remote_actor <$> boosting_actors d rrb_local s)
  | RemoteTarget s => (local_actor <$> outgoing_accounts s (outgoing_reblogs d))
                      ++ (Pagination.remote_actor <$> boosting_actors d rrb_remote s)
  end.

(** The page that a cursor cuts from those rows, without limits on the tables. *)
Definition page_of_boosters (target : StatusInteractionTarget) (limit : Z) (cursor : CollectionCursor) :
    CollectionPage Account :=
  page_of fst limit (omap view)
    (newest_first fst (List.filter (fun e => collection_cursor_matches e.1 cursor) (boosters target))).

(** C28. [reblogged_by_for_status] reads at most [limit + 1] rows of each of two
    tables and loads the accounts of a page by identifier; it returns the page
    that one would cut from all boosts of the status, with the same cursors and
    the same indication of further rows, for every target, cursor and limit. *)
Theorem reblogged_by_is_page_of_union (target : StatusInteractionTarget) (limit : Z)
    (cursor : CollectionCursor) :
  0 <= limit < u64_modulus - 1 ->
  NoDup (fst <$> boosters target) -> NoDup (snd <$> boosters target) ->
  reblogged_by_for_status d target limit cursor = page_of_boosters target limit cursor.
Proof.
  intros Hlimit Hids Hactors.
  transitivity (page_of fst limit (interaction_accounts d)
    (newest_first fst (List.filter (fun e => collection_cursor_matches e.1 cursor) (boosters target)))).
  - unfold reblogged_by_for_status, interaction_accounts_page, boosters in *. destruct target;
      rewrite <- !(cursor_query_fmap fst fst) by done; by apply merged_page.
  - apply page_of_ext. intros l Hl. apply interaction_accounts_omap.
    eapply NoDup_submseteq_of; [apply fmap_submseteq, Hl|].
    rewrite newest_first_Permutation. by apply NoDup_fmap_filter.
Qed.

(** ** Favourites *)

Lemma omap_length_None {A B} (f : A -> option B) (l : list A) x :
  x ∈ l -> f x = None -> (length (omap f l) < length l)%nat.
Proof.
  assert (forall l : list A, length (omap f l) <= length l)%nat as Hle.
  { clear. induction l as [|y l IH]; csimpl; [done|]. destruct (f y); csimpl; lia. }
  induction l as [|y l IH]; csimpl; [by intros ?%not_elem_of_nil|].
  intros [->|Hin]%elem_of_cons Hx.
  - rewrite Hx. specialize (Hle l). lia.
  - specialize (IH Hin Hx). destruct (f y); csimpl; lia.
Qed.

Lemma favourite_entries_sorted {A} (find : uuid -> option A) (l : list relation_row) :
  StronglySorted (newer fst) l -> StronglySorted (newer fst) (favourite_entries find l).
Proof.
  induction 1 as [|[id s] l Hs IH Hall]; [constructor|]. unfold favourite_entries in *. csimpl.
  destruct (find s) as [a|]; csimpl; [|done]. constructor; [done|].
  rewrite Forall_forall. rewrite Forall_forall in Hall. intros [id' a'] Hin.
  apply list_elem_of_omap in Hin as ([id'' s'] & Hin & Hf). csimpl in *.
  destruct (find s'); simplify_eq/=. exact (Hall _ Hin).
Qed.

Lemma favourite_entries_ids {A} (find : uuid -> option A) (l : list relation_row) :
  fst <$> favourite_entries find l ⊆+ fst <$> l.
Proof.
  unfold favourite_entries. induction l as [|[id s] l IH]; csimpl; [done|].
  destruct (find s); csimpl; [by apply submseteq_skip|by apply submseteq_cons].
Qed.

Lemma favourite_entries_items {A} (find : uuid -> option A) (l : list relation_row) :
  snd <$> favourite_entries find l = omap (fun row => find row.2) l.
Proof.
  unfold favourite_entries. induction l as [|[id s] l IH]; csimpl; [done|].
  destruct (find s); csimpl; by rewrite IH.
Qed.

Lemma newest_first_favourite_entries {A} (find : uuid -> option A) m (l : list relation_row) :
  NoDup (fst <$> l) ->
  newest_first fst (favourite_entries find (take m (newest_first fst l)))
  = favourite_entries find (take m (newest_first fst l)).
Proof.
  intros Hnd. apply sorted_newest_first.
  - eapply NoDup_submseteq_of; [apply favourite_entries_ids|].
    eapply NoDup_fmap_submseteq; [apply top_submseteq|done].
  - apply favourite_entries_sorted, sorted_take, newest_first_sorted.
Qed.

(** Deleting a favourited status keeps the favourite row, and
    [favourites_for_account] drops such rows after both queries were limited and
    before it looks for a further row.  So when one of the newest [limit + 1]
    favourites of an account is of a deleted status, the first page carries no
    link: the client stops after at most [limit] statuses, however many
    favourites of existing statuses are older. *)
Theorem favourites_walk_stops_short (account : AccountId) (limit : Z) (fuel : nat) (x : relation_row) :
  0 <= limit < u64_modulus - 1 ->
  NoDup (fst <$> statuses_acted_on account (local_favourites d)) ->
  outgoing_rows d account = [] ->
  x ∈ take (Z.to_nat (limit + 1)) (newest_first fst (statuses_acted_on account (local_favourites d))) ->
  live_status d x.2 = None ->
  walk (favourites_for_account d account limit) (S fuel) no_cursor
  = (omap (fun row => find_favourite d row.2)
       (take (Z.to_nat (limit + 1)) (newest_first fst (statuses_acted_on account (local_favourites d)))),
     true).
Proof.
  intros Hlimit Hnd Hout Hx Hdead.
  assert (favourites_for_account d account limit no_cursor =
          page_of fst limit (fun es => snd <$> es) (favourite_entries (find_favourite d)
            (take (Z.to_nat (limit + 1))
               (newest_first fst (statuses_acted_on account (local_favourites d)))))) as Hpage.
  { unfold favourites_for_account. rewrite Hout, cursor_query_nil, app_nil_r.
    unfold cursor_query, page_query_limit. rewrite Z.min_l by lia.
    by rewrite newest_first_favourite_entries. }
  set (top := take _ _) in *. cbn [walk]. rewrite Hpage.
  unfold page_of. rewrite trim_to_page_take.
  assert (length (favourite_entries (find_favourite d) top) < length top)%nat as Hshort.
  { apply (omap_length_None _ _ x Hx). unfold find_favourite. by rewrite Hdead. }
  assert (length top <= Z.to_nat (limit + 1))%nat by (unfold top; rewrite length_take; lia).
  rewrite bool_decide_false by lia. rewrite take_ge by lia.
  unfold header_links. cbn [has_more negb items]. by rewrite favourite_entries_items.
Qed.
End Interactions.

(** ** Both lower bounds *)

(** [min_id] is documented to return the rows immediately newer than an
    identifier; the queries read it as [since_id], so a "prev" link returns the
    newest page. *)
Lemma min_id_is_since_id {R T} (rid : R -> uuid) (view : R -> option T) rows limit page
    `{!Paged rid view rows limit page} (m : uuid) :
  page (mkCursor None None (Some m)) = page (mkCursor None (Some m) None).
Proof.
  destruct Paged0 as [_ Hpage]. rewrite !Hpage. do 2 f_equal. apply filter_ext. intros r.
  unfold collection_cursor_matches. cbn. by rewrite !andb_true_r.
Qed.

(** * Concrete collections *)

Definition sample_account : AccountRow := mkAccountRow true None None 0.
Definition sample_actor : RemoteActorRow := mkRemoteActorRow [] None None None None None 0.

(** Account 1 is followed by the local accounts 2 and 3 and by the remote actor 7;
    it follows actor 7, whose move has deactivated the row. *)
Definition sample_relations : Relations.Db :=
  Relations.mkDb {[1%N := sample_account; 2%N := sample_account; 3%N := sample_account]}
    {[(2%N, 1%N) := mkFollowRow 10 true false 0 0; (3%N, 1%N) := mkFollowRow 12 true false 0 0]}
    ∅ ∅ {[7%N := sample_actor]} ∅ ∅ ∅
    {[(7%N, 1%N) := mkRemoteFollowRow 11 7 1 "f" JNull Accepted 0 0]}
    {[(1%N, 7%N) := mkFollowingRow 20 1 7 "g" Accepted true false (Some 5) 0]}
    ∅ ∅ ∅ (Notifications.mkDb ∅ ∅ ∅ ∅).

Lemma collection_walk_reads_all_witness :
  walk (account_collection_page sample_relations Followers (mkAccountId 1) 0 1) 4 no_cursor
  = ([(12%N, LocalEntry 3 sample_account); (11%N, RemoteEntry 7 sample_actor);
      (10%N, LocalEntry 2 sample_account)], true).
Proof.
  rewrite (collection_walk_reads_all sample_relations Followers (mkAccountId 1) 0 1 4).
  - vm_compute. reflexivity.
  - lia.
  - apply (bool_decide_unpack _). vm_compute. exact I.
  - apply Nat.ltb_lt. vm_compute. reflexivity.
Defined.

(** Moved follows are listed and not counted. *)
Lemma deactivated_following_is_listed :
  count_remote_following sample_relations (mkAccountId 1) = 0 /\
  items (following_for_local_account sample_relations (mkAccountId 1) 40 no_cursor)
  = [(20%N, RemoteEntry 7 sample_actor)].
Proof. split; vm_compute; reflexivity. Qed.

Definition sample_public (deleted_at : option time) : Statuses.LocalStatus :=
  Statuses.mkLocalStatus 2 Public false "" None None 0 deleted_at.

(** Account 1 has favourited statuses 30, 31 and 32 of account 2, and has
    boosted 30; so has actor 7.  Status 31 is deleted. *)
Definition sample_collections : Interactions.Db :=
  Interactions.mkDb
    {[(1%N, 30%N) := mkAction 40 0; (1%N, 31%N) := mkAction 41 0; (1%N, 32%N) := mkAction 42 0]}
    ∅ ∅ ∅ {[(1%N, 30%N) := mkAction 50 0; (2%N, 30%N) := mkAction 52 0]} ∅
    {[51%N := mkRemoteReblog 51 7 (Some 30%N) None "a" 0]} ∅ ∅
    (NotificationRequests.mkDb ∅ ∅ ∅
       (Statuses.mkDb {[30%N := sample_public None; 31%N := sample_public (Some 9);
                        32%N := sample_public None]} ∅ ∅ ∅ sample_relations)).

Lemma favourites_walk_stops_short_witness :
  walk (favourites_for_account sample_collections (mkAccountId 1) 1) 9 no_cursor
  = ([LocalFavourite 32 (sample_public None)], true)
  /\ live_status sample_collections 30 = Some (sample_public None).
Proof.
  split; [|vm_compute; reflexivity].
  rewrite (favourites_walk_stops_short sample_collections (mkAccountId 1) 1 8 (41%N, 31%N)).
  - vm_compute. reflexivity.
  - split; vm_compute; congruence.
  - apply (bool_decide_unpack _). vm_compute. exact I.
  - vm_compute. reflexivity.
  - apply (bool_decide_unpack _). vm_compute. exact I.
  - vm_compute. reflexivity.
Defined.

Lemma reblogged_by_is_page_of_union_witness :
  reblogged_by_for_status sample_collections (LocalTarget (mkStatusId 30)) 2 no_cursor
  = mkPage [LocalEntry 2 sample_account; RemoteEntry 7 sample_actor] (Some 52%N) (Some 51%N) true.
Proof.
  rewrite (reblogged_by_is_page_of_union sample_collections (LocalTarget (mkStatusId 30)) 2 no_cursor).
  - vm_compute. reflexivity.
  - split; vm_compute; congruence.
  - apply (bool_decide_unpack _). vm_compute. exact I.
  - apply (bool_decide_unpack _). vm_compute. exact I.
Defined.
