(* ===== verification/DomainPolicy.v ===== *)
(** Administrator rules for remote domains ([crates/db/src/lib.rs]), the policy
    they give a domain, the cleanup of suspended domains, and the endpoints of
    [crates/server/src/admin.rs] that change rules.

    [Host::parse] of the [url] crate is a parameter: [host_domain s] is the
    domain of [Host::Domain], [None] for an address or an error. *)
From S2P Require Import Prelude Core Text.
From S2P Require Jobs Notifications Relations Statuses.

#[local] Existing Instance Statuses.relations_part.

(** * Data *)

Inductive DomainBlockSeverity : Type := Noop | Silence | Suspend.

#[export] Instance DomainBlockSeverity_eq_dec : EqDecision DomainBlockSeverity.
Proof. solve_decision. Defined.

(** The derived order of the variants. *)
Definition rank (s : DomainBlockSeverity) : Z :=
  match s with Noop => 0 | Silence => 1 | Suspend => 2 end.
Definition severity_max (a b : DomainBlockSeverity) : DomainBlockSeverity :=
  if rank a <=? rank b then b else a.

Record FederationDomainBlock := mkBlock {
  block_id : uuid;
  block_domain : text;
  block_severity : DomainBlockSeverity;
  block_reject_media : bool;
  block_reject_reports : bool;
  block_private_comment : option text;
  block_public_comment : option text;
  block_obfuscate : bool;
  block_created_at : time;
  block_updated_at : time;
}.

Record NewFederationDomainBlock := mkNewBlock {
  new_domain : text;
  new_severity : DomainBlockSeverity;
  new_reject_media : bool;
  new_reject_reports : bool;
  new_private_comment : option text;
  new_public_comment : option text;
  new_obfuscate : bool;
}.

Record FederationDomainBlockUpdate := mkBlockUpdate {
  upd_severity : option DomainBlockSeverity;
  upd_reject_media : option bool;
  upd_reject_reports : option bool;
  upd_private_comment : option (option text);
  upd_public_comment : option (option text);
  upd_obfuscate : option bool;
}.

Record FederationDomainPolicy := mkPolicy {
  severity : DomainBlockSeverity;
  reject_media : bool;
  reject_reports : bool;
}.

Definition default_policy : FederationDomainPolicy := mkPolicy Noop false false.
Definition is_suspended (p : FederationDomainPolicy) : bool := bool_decide (severity p = Suspend).
Definition is_limited (p : FederationDomainPolicy) : bool := rank Silence <=? rank (severity p).

(** Rows of [admin_audit_log]. *)
Inductive AdminAuditAction : Type := DomainBlockCreate | DomainBlockUpdate | DomainBlockDelete.

Record AuditRow := mkAudit {
  audit_id : uuid;
  audit_actor : uuid;
  audit_action : AdminAuditAction;
  audit_target : uuid;
  audit_domain : text;
  audit_severity : DomainBlockSeverity;
}.

Record Db := mkDb {
  domain_blocks : gmap uuid FederationDomainBlock;
  audit_log : gmap uuid AuditRow;
  statuses_db : Statuses.Db;
}.

#[export, refine] Instance statuses_part : Part Statuses.Db Db :=
  {| get_part := statuses_db; put_part := fun t d => mkDb (domain_blocks d) (audit_log d) t |}.
Proof. all: by intros *; try destruct s. Defined.

Definition set_blocks (t : gmap uuid FederationDomainBlock) (d : Db) : Db :=
  mkDb t (audit_log d) (statuses_db d).

(** * The policy of a domain *)

Section Domains.
Context (host_domain : text -> option text).

Definition is_dot (c : Z) : bool := c =? 46.

Definition normalize_federation_domain (domain : text) : result text RoostyError :=
  match host_domain (trim_end_matches is_dot (trim domain)) with
  | Some d => if contains_char 46 d && negb (contains_char 42 d)
              then Ok (to_ascii_lowercase d)
              else Err (InvalidInput "domain must be a public DNS name"%string)
  | None => Err (InvalidInput "domain must be a public DNS name"%string)
  end.

(** [labels[index..].join(".")] for every index but the last. *)
Fixpoint label_suffixes (labels : list text) : list text :=
  match labels with
  | [] | [_] => []
  | _ :: rest => join (lit ".") labels :: label_suffixes rest
  end.

Definition federation_domain_suffixes (domain : text) : result (list text) RoostyError :=
  match normalize_federation_domain domain with
  | Ok domain => Ok (label_suffixes (split_on 46 domain))
  | Err e => Err e
  end.

Definition combine_rule (policy : FederationDomainPolicy) (rule : FederationDomainBlock) :
    FederationDomainPolicy :=
  mkPolicy (severity_max (severity policy) (block_severity rule))
    (reject_media policy || block_reject_media rule)
    (reject_reports policy || block_reject_reports rule).

(** The rules for the given domains, combined. *)
Definition combined_policy (suffixes : list text) (d : Db) : FederationDomainPolicy :=
  foldl combine_rule default_policy
    (rows_where (fun r => bool_decide (block_domain r ∈ suffixes)) (domain_blocks d)).

Definition federation_domain_policy (domain : text) : Op Db FederationDomainPolicy :=
  suffixes ← lift_result (federation_domain_suffixes domain);
  gets (combined_policy suffixes).

Definition hidden_federation_domains : Op Db (list text) :=
  gets (fun d => block_domain <$> rows_where (fun r => bool_decide (block_severity r ∈ [Silence; Suspend]))
                                    (domain_blocks d)).

(** Newest first, at most 201. *)
Definition list_federation_domain_blocks (limit : Z) (max_id : option uuid) :
    Op Db (list FederationDomainBlock) :=
  gets (fun d => take (Z.to_nat (Z.min limit 201))
    (order_by (fun a b => (block_id b <=? block_id a)%N)
       (rows_where (fun r => match max_id with Some m => (block_id r <? m)%N | None => true end)
          (domain_blocks d)))).

Definition find_federation_domain_block (i : uuid) : Op Db (option FederationDomainBlock) :=
  gets (fun d => domain_blocks d !! i).

(** The CHECK constraint of the table: lower case, not empty, without slash, at
    sign, colon, asterisk or white space. *)
Definition valid_stored_domain (domain : text) : bool :=
  bool_decide (to_ascii_lowercase domain = domain) && negb (bool_decide (domain = []))
  && forallb (fun c => negb (existsb (Z.eqb c) (lit "/@:*")) && negb (is_whitespace c)) domain.

Definition create_federation_domain_block (input : NewFederationDomainBlock) :
    Op Db FederationDomainBlock :=
  domain ← lift_result (normalize_federation_domain (new_domain input));
  d ← gets (fun d => d);
  if bool_decide (rows_where (fun r => bool_decide (block_domain r = domain)) (domain_blocks d) = [])
  then
    now ← now_utc;
    i ← uuid_now_v7;
    if negb (valid_stored_domain domain)
    then throw (Database (CheckViolation "federation_domain_block_domain_valid"))
    else
      let row := mkBlock i domain (new_severity input) (new_reject_media input)
                   (new_reject_reports input) (new_private_comment input)
                   (new_public_comment input) (new_obfuscate input) now now in
      match domain_blocks d !! i with
      | Some _ => throw (Database (UniqueViolation "federation_domain_block_pkey"))
      | None => modify (fun d => set_blocks (<[i := row]> (domain_blocks d)) d);; mret row
      end
  else throw (InvalidInput "domain is already blocked").

Definition updated_block (u : FederationDomainBlockUpdate) (now : time) (b : FederationDomainBlock) :
    FederationDomainBlock :=
  mkBlock (block_id b) (block_domain b) (default (block_severity b) (upd_severity u))
    (default (block_reject_media b) (upd_reject_media u))
    (default (block_reject_reports b) (upd_reject_reports u))
    (default (block_private_comment b) (upd_private_comment u))
    (default (block_public_comment b) (upd_public_comment u))
    (default (block_obfuscate b) (upd_obfuscate u)) (block_created_at b) now.

Definition update_federation_domain_block (i : uuid) (u : FederationDomainBlockUpdate) :
    Op Db FederationDomainBlock :=
  found ← find_federation_domain_block i;
  b ← lift_option (InvalidInput "domain block does not exist") found;
  now ← now_utc;
  modify (fun d => set_blocks (<[i := updated_block u now b]> (domain_blocks d)) d);;
  mret (updated_block u now b).

Definition delete_federation_domain_block (i : uuid) : Op Db (option FederationDomainBlock) :=
  found ← find_federation_domain_block i;
  match found with
  | None => mret None
  | Some b => modify (fun d => set_blocks (delete i (domain_blocks d)) d);; mret (Some b)
  end.
End Domains.

(** * Cleanup of suspended domains *)

(** SQL LIKE: [%] is any text, [_] any character, a backslash takes the next
    character literally. *)
Fixpoint like (pattern s : text) : bool :=
  match pattern with
  | [] => bool_decide (s = [])
  | c :: pattern' =>
      if c =? 37 then
        (fix skip (s : text) : bool :=
           like pattern' s || match s with [] => false | _ :: s' => skip s' end) s
      else if c =? 95 then
        match s with [] => false | _ :: s' => like pattern' s' end
      else if c =? 92 then
        match pattern', s with
        | e :: pattern'', x :: s' => (x =? e) && like pattern'' s'
        | _, _ => false
        end
      else match s with [] => false | x :: s' => (x =? c) && like pattern' s' end
  end.

Definition on_relations {A} (m : Op Relations.Db A) : Op Db A := zoom (zoom m : Op Statuses.Db A).

Definition deleted_status (now : time) (s : Statuses.RemoteStatus) : Statuses.RemoteStatus :=
  Statuses.mkRemoteStatus (Statuses.rs_actor s) (Statuses.rs_visibility s)
    (Statuses.rs_sensitive s) (Statuses.rs_summary s) (Statuses.rs_in_reply_to s)
    (Statuses.rs_in_reply_to_local s) (Statuses.rs_in_reply_to_remote s)
    (Statuses.rs_published_at s) (Some now).

Definition mark_statuses_deleted (actor : uuid) (now : time) (d : Statuses.Db) : Statuses.Db :=
  Statuses.mkDb (Statuses.local_statuses d)
    (update_where (fun s => (Statuses.rs_actor s =? actor)%N) (deleted_status now)
       (Statuses.remote_statuses d))
    (Statuses.local_mentions d) (Statuses.remote_mentions d) (Statuses.relations d).

Definition purge_remote_actor_cache (actor : AccountId) (now : time) : Op Db unit :=
  on_relations (modify (Relations.without_actor (account_uuid actor)));;
  zoom (modify (mark_statuses_deleted (account_uuid actor) now) : Op Statuses.Db unit);;
  on_relations (Relations.dismiss_where
    (fun n => bool_decide (Notifications.remote_actor_id n = Some (account_uuid actor))) now).

(** [Column::Domain.ends_with(s)] is LIKE '%' || s, without escapes. *)
Definition selected_by_rule (domain actor_domain : text) : bool :=
  bool_decide (actor_domain = domain) || like (lit "%." ++ domain) actor_domain.

Definition relations_of (d : Db) : Relations.Db := Statuses.relations (statuses_db d).

Definition actors_of_rule (domain : text) (d : Db) : list uuid :=
  fst <$> List.filter (fun kv : uuid * Relations.RemoteActorRow =>
            selected_by_rule domain (Relations.actor_domain kv.2))
            (map_to_list (Relations.remote_actors (relations_of d))).

Definition reconcile_federation_domain_block (i : uuid) : Op Db Z :=
  found ← find_federation_domain_block i;
  match found with
  | None => mret 0
  | Some b =>
      if negb (bool_decide (block_severity b = Suspend)) then mret 0
      else
        actors ← gets (actors_of_rule (block_domain b));
        now ← now_utc;
        for_each actors (fun a => purge_remote_actor_cache (mkAccountId a) now);;
        mret (Z.of_nat (length actors))
  end.

(** * Endpoints *)

Inductive AdminReadPermission : Type := ReadAll | ReadAccounts | ReadDomainBlocks | ReadReports.
Inductive AdminWritePermission : Type := WriteAccounts | WriteDomainBlocks | WriteReports.
Inductive AdminPermission : Type :=
| Read (p : AdminReadPermission)
| Write (p : AdminWritePermission).

Definition allows_scope (p : AdminPermission) (scope : text) : bool :=
  let named s := bool_decide (scope = lit s) in
  match p with
  | Read ReadAll => named "admin:read"
  | Read ReadAccounts => named "admin:read" || named "admin:read:accounts"
  | Read ReadDomainBlocks => named "admin:read" || named "admin:read:domain_blocks"
  | Read ReadReports => named "admin:read" || named "admin:read:reports"
  | Write WriteAccounts => named "admin:write" || named "admin:write:accounts"
  | Write WriteDomainBlocks => named "admin:write" || named "admin:write:domain_blocks"
  | Write WriteReports => named "admin:write" || named "admin:write:reports"
  end.

Inductive AdminApiError : Type :=
| NotAdministrator
| InsufficientScope
| NotFound
| Failed (e : RoostyError).

(** The grant behind a bearer token: the account, whether it is an
    administrator, and the scopes. *)
Record AuthenticatedAccessToken := mkToken {
  token_account : AccountId;
  token_is_admin : bool;
  token_scopes : text;
}.

Definition require_admin (token : AuthenticatedAccessToken) (p : AdminPermission) :
    result AccountId AdminApiError :=
  if negb (token_is_admin token) then Err NotAdministrator
  else if existsb (allows_scope p) (split_ascii_whitespace (token_scopes token))
  then Ok (token_account token) else Err InsufficientScope.

Section Endpoints.
Context (host_domain : text -> option text) (uuid_text : uuid -> string).

Definition audit_domain_block (actor : AccountId) (action : AdminAuditAction)
    (b : FederationDomainBlock) : Op Db unit :=
  i ← uuid_now_v7;
  modify (fun d => mkDb (domain_blocks d)
    (<[i := mkAudit i (account_uuid actor) action (block_id b) (block_domain b) (block_severity b)]>
       (audit_log d)) (statuses_db d)).

Definition reconciliation_key (i : uuid) : string := ("domain-moderation:" ++ uuid_text i)%string.

Definition reconciliation_job (i : uuid) (now : time) : Jobs.NewJob :=
  Jobs.mkNewJob Jobs.DomainModerationReconcile (JObject [("domain_block_id"%string, JUuid i)])
    (Some (reconciliation_key i)) now.

Definition enqueue_domain_reconciliation (b : FederationDomainBlock) : Op Db unit :=
  now ← now_utc;
  on_relations (Relations.enqueue (reconciliation_job (block_id b) now)).

(** What both requests that write a rule do with it. *)
Definition audited_and_queued (actor : AccountId) (action : AdminAuditAction)
    (write : Op Db FederationDomainBlock) : Op Db FederationDomainBlock :=
  b ← write;
  audit_domain_block actor action b;;
  enqueue_domain_reconciliation b;;
  mret b.

Definition admin_transaction {A} (body : M Db AdminApiError A) : M Db AdminApiError A :=
  transaction (a ← body; mret (Commit a)).

Definition create_domain_block (token : AuthenticatedAccessToken) (input : NewFederationDomainBlock) :
    M Db AdminApiError FederationDomainBlock :=
  actor ← lift_result (require_admin token (Write WriteDomainBlocks));
  admin_transaction (map_err Failed (audited_and_queued actor DomainBlockCreate
    (create_federation_domain_block host_domain input))).

(** The endpoint cannot clear a comment: an absent field keeps it. *)
Definition update_domain_block (token : AuthenticatedAccessToken) (i : uuid)
    (severity : option DomainBlockSeverity) (media reports : option bool)
    (private_comment public_comment : option text) (obfuscate : option bool) :
    M Db AdminApiError FederationDomainBlock :=
  actor ← lift_result (require_admin token (Write WriteDomainBlocks));
  admin_transaction (
    found ← map_err Failed (find_federation_domain_block i);
    _ ← lift_option NotFound found;
    map_err Failed (audited_and_queued actor DomainBlockUpdate
      (update_federation_domain_block i
         (mkBlockUpdate severity media reports (Some <$> private_comment)
            (Some <$> public_comment) obfuscate)))).

Definition delete_domain_block (token : AuthenticatedAccessToken) (i : uuid) :
    M Db AdminApiError unit :=
  actor ← lift_result (require_admin token (Write WriteDomainBlocks));
  admin_transaction (
    found ← map_err Failed (delete_federation_domain_block i);
    b ← lift_option NotFound found;
    map_err Failed (audit_domain_block actor DomainBlockDelete b)).

(** The [DomainModerationReconcile] job: its payload names the rule.  A string
    that parses as a UUID is a [JUuid]. *)
Definition handle_reconcile_job (payload : JsonValue) : Op Db unit :=
  match Relations.json_get "domain_block_id" payload with
  | Some (JUuid i) =>
      transaction (_ ← reconcile_federation_domain_block i; mret (Commit tt))
  | Some (JString _) => throw (InvalidInput "domain reconciliation job domain_block_id is invalid")
  | _ => throw (InvalidInput "domain reconciliation job domain_block_id is missing")
  end.
End Endpoints.
