(* ===== verification/DomainPolicyInvariant.v ===== *)
(** The rules for remote domains: the stored rules are canonical, the policy of a
    domain is the strongest rule that covers it, suspension purges the covered
    actors, and every change is authorised, audited and followed by a
    reconciliation job. *)
From S2P Require Import Prelude Core Text DomainPolicy.
From S2P Require Jobs Notifications Relations RelationsInvariant Statuses.

#[local] Existing Instance Statuses.relations_part.

(** * Suffixes of a domain *)

Lemma split_on_pieces c s : Forall (free c) (split_on c s).
Proof.
  induction s as [|x s IH]; simpl; [by repeat constructor|].
  destruct (Z.eqb_spec x c) as [->|Hne]; [constructor; [constructor|done]|].
  destruct (split_on_cons c s) as (piece & rest & Heq). rewrite Heq in *.
  inversion IH; subst. constructor; [by constructor|done].
Qed.

Lemma contains_char_spec c s : contains_char c s = true <-> c ∈ s.
Proof.
  unfold contains_char. rewrite existsb_exists. split.
  - intros (x & Hx & ->%Z.eqb_eq). by apply list_elem_of_In.
  - intros Hc. exists c. split; [by apply list_elem_of_In|apply Z.eqb_refl].
Qed.

Lemma free_not_elem c s : free c s <-> c ∉ s.
Proof.
  unfold free. rewrite Forall_forall. split.
  - intros H Hin. by apply (H c).
  - intros Hn x Hx ->. done.
Qed.

(** A suffix that follows a dot starts inside one of the labels. *)
Lemma suffix_past_label (x : text) t p b :
  free 46 x -> x ++ lit "." ++ t = p ++ lit "." ++ b ->
  b = t \/ exists p', t = p' ++ lit "." ++ b.
Proof.
  intros Hx Heq. apply app_eq_app in Heq as [k [[-> Hk]|[-> Hk]]].
  - destruct k as [|c k]; [by injection Hk as ->; left|].
    injection Hk as <- Hk. apply free_not_elem in Hx.
    destruct Hx. apply elem_of_app. right. left.
  - destruct k as [|c k]; [by injection Hk as ->; left|].
    injection Hk as <- Hk. right. by exists k.
Qed.

Lemma elem_of_label_suffixes labels b :
  Forall (free 46) labels ->
  b ∈ label_suffixes labels <->
  46 ∈ b /\ (b = join (lit ".") labels \/ exists p, join (lit ".") labels = p ++ lit "." ++ b).
Proof.
  induction labels as [|x [|y rest] IH]; intros Hfree.
  - simpl. split; [by intros ?%not_elem_of_nil|]. intros [Hd [->|[p Hp]]].
    + by apply not_elem_of_nil in Hd.
    + by destruct p.
  - simpl. split; [by intros ?%not_elem_of_nil|]. inversion Hfree as [|? ? Hx _]; subst.
    apply free_not_elem in Hx. intros [Hd [->|[p ->]]]; [done|].
    destruct Hx. apply elem_of_app. right. left.
  - inversion Hfree as [|? ? Hx Hrest]; subst. specialize (IH Hrest).
    set (t := join (lit ".") (y :: rest)) in *.
    change (join (lit ".") (x :: y :: rest)) with (x ++ lit "." ++ t).
    change (label_suffixes (x :: y :: rest)) with
      ((x ++ lit "." ++ t) :: label_suffixes (y :: rest)).
    rewrite elem_of_cons, IH. split.
    + intros [->|(Hd & Hb)].
      * split; [|by left]. apply elem_of_app. right. left.
      * split; [done|]. right. destruct Hb as [->|[p ->]]; [by exists x|].
        exists (x ++ lit "." ++ p). by rewrite <- !app_assoc.
    + intros [Hd [->|[p Hp]]]; [by left|]. right. split; [done|].
      destruct (suffix_past_label x t p b Hx Hp) as [->|?]; [by left|by right].
Qed.

(** The suffixes of a normalised domain are the domains with a dot that cover it. *)
Lemma elem_of_suffixes domain b :
  b ∈ label_suffixes (split_on 46 domain) <-> 46 ∈ b /\ Relations.domain_covers b domain = true.
Proof.
  rewrite elem_of_label_suffixes by apply split_on_pieces.
  change (lit ".") with [46]. rewrite split_on_join, RelationsInvariant.domain_covers_spec.
  naive_solver.
Qed.

(** * Histories of rules *)

Record rules_ok (d : Db) : Prop := {
  ok_ids i r : domain_blocks d !! i = Some r -> block_id r = i;
  ok_dots i r : domain_blocks d !! i = Some r -> 46 ∈ block_domain r;
  ok_once i j r r' : domain_blocks d !! i = Some r -> domain_blocks d !! j = Some r' ->
    block_domain r = block_domain r' -> i = j;
}.

Section Rules.
Context (host_domain : text -> option text).

Inductive operation : forall A, Op Db A -> Prop :=
| Op_create input : operation _ (create_federation_domain_block host_domain input)
| Op_update i u : operation _ (update_federation_domain_block i u)
| Op_delete i : operation _ (delete_federation_domain_block i)
| Op_reconcile i : operation _ (reconcile_federation_domain_block i).

Definition step (d d' : Db) : Prop :=
  exists A m w r w', operation A m /\ m w d = (r, w', d').

Lemma normalized_dot s n : normalize_federation_domain host_domain s = Ok n -> 46 ∈ n.
Proof.
  unfold normalize_federation_domain. destruct (host_domain _) as [h|]; [|done].
  destruct (contains_char 46 h && _) eqn:Hc; [|done]. intros [= <-].
  apply andb_true_iff in Hc as [Hc _]. apply contains_char_spec in Hc.
  unfold to_ascii_lowercase. apply list_elem_of_fmap. by exists 46.
Qed.

Lemma keeps_blocks_reconcile i : keeps domain_blocks (reconcile_federation_domain_block i).
Proof.
  unfold reconcile_federation_domain_block, purge_remote_actor_cache, on_relations,
    find_federation_domain_block. solve_keeps.
Qed.

Lemma create_inv input w d r w' d' :
  create_federation_domain_block host_domain input w d = (r, w', d') ->
  (d' = d /\ exists e, r = Err e) \/
  exists i b, r = Ok b /\ d' = set_blocks (<[i := b]> (domain_blocks d)) d /\
    domain_blocks d !! i = None /\ block_id b = i /\
    normalize_federation_domain host_domain (new_domain input) = Ok (block_domain b) /\
    block_severity b = new_severity input /\
    forall j b', domain_blocks d !! j = Some b' -> block_domain b' <> block_domain b.
Proof.
  unfold create_federation_domain_block. run_unfold.
  destruct (normalize_federation_domain _ _) as [n|e] eqn:Hn; simpl;
    [|by intros [= <- _ <-]; left; eauto].
  case_bool_decide as Hnil; [|by intros [= <- _ <-]; left; eauto]. simpl.
  destruct (negb _); [by intros [= <- _ <-]; left; eauto|].
  destruct (domain_blocks d !! _) eqn:Hi; intros [= <- _ <-]; [by left; eauto|].
  right. eexists _, _. split_and!; [done|done|done|done|done|done|].
  intros j b' Hj Heq. apply (proj1 (rows_where_nil _ _) Hnil) in Hj.
  apply bool_decide_eq_false in Hj. done.
Qed.

Lemma update_inv i u w d r w' d' :
  update_federation_domain_block i u w d = (r, w', d') ->
  (d' = d /\ exists e, r = Err e) \/
  exists b now, domain_blocks d !! i = Some b /\ r = Ok (updated_block u now b) /\
    d' = set_blocks (<[i := updated_block u now b]> (domain_blocks d)) d.
Proof.
  unfold update_federation_domain_block, find_federation_domain_block. run_unfold.
  destruct (domain_blocks d !! i) as [b|] eqn:Hi; intros [= <- _ <-]; [right|left]; eauto 6.
Qed.

Lemma rules_ok_insert d i b :
  rules_ok d -> block_id b = i -> 46 ∈ block_domain b ->
  (forall j b', domain_blocks d !! j = Some b' -> j <> i -> block_domain b' <> block_domain b) ->
  rules_ok (set_blocks (<[i := b]> (domain_blocks d)) d).
Proof.
  intros [H1 H2 H3] Hid Hdot Hnew. split; simpl.
  - intros j r Hj. apply lookup_insert_Some in Hj as [[<- <-]|[? Hj]]; eauto.
  - intros j r Hj. apply lookup_insert_Some in Hj as [[<- <-]|[? Hj]]; eauto.
  - intros j k r r' Hj Hk Heq. apply lookup_insert_Some in Hj as [[<- <-]|[? Hj]];
      apply lookup_insert_Some in Hk as [[<- <-]|[? Hk]]; [done| | |by eapply H3].
    + by destruct (Hnew k r' Hk).
    + by destruct (Hnew j r Hj).
Qed.

Lemma step_rules_ok d d' : rules_ok d -> step d d' -> rules_ok d'.
Proof.
  intros Hd (A & m & w & r & w' & Hop & Hrun). destruct Hop.
  - apply create_inv in Hrun as [[-> _]|(i & b & _ & -> & Hfresh & Hid & Hn & _ & Hnew)]; [done|].
    apply rules_ok_insert; [done|done|by apply normalized_dot in Hn|eauto].
  - apply update_inv in Hrun as [[-> _]|(b & now & Hb & _ & ->)]; [done|].
    pose proof Hd as [H1 H2 H3].
    apply rules_ok_insert; [done|by apply H1 in Hb|by apply H2 in Hb|].
    intros j b' Hj Hne Heq. apply Hne. by eapply H3.
  - unfold delete_federation_domain_block, find_federation_domain_block in Hrun.
    run_unfold. destruct (domain_blocks d !! i); simplify_eq/=; [|done].
    destruct Hd as [H1 H2 H3]. split; simpl.
    + intros j b' [_ Hj]%lookup_delete_Some; eauto.
    + intros j b' [_ Hj]%lookup_delete_Some; eauto.
    + intros j k b' b'' [_ Hj]%lookup_delete_Some [_ Hk]%lookup_delete_Some; eauto.
  - apply (keeps_run domain_blocks) in Hrun; [|apply keeps_blocks_reconcile].
    destruct Hd as [H1 H2 H3]. by split; rewrite Hrun.
Qed.

Lemma reachable_rules_ok d0 d : domain_blocks d0 = ∅ -> rtc step d0 d -> rules_ok d.
Proof.
  intros H0 Hrtc. assert (rules_ok d0) as Hok.
  { split; intros *; rewrite H0, lookup_empty; done. }
  revert Hok. clear H0. induction Hrtc as [|d1 d2 d3 Hs _ IH]; intros Hok; [done|].
  apply IH. by eapply step_rules_ok.
Qed.
End Rules.

(** * The effective policy *)

Lemma rank_max a b : rank (severity_max a b) = Z.max (rank a) (rank b).
Proof. by destruct a, b. Qed.

Lemma rank_inj a b : rank a = rank b -> a = b.
Proof. by destruct a, b. Qed.

Lemma severity_max_cases a b : severity_max a b = a \/ severity_max a b = b.
Proof. destruct a, b; auto. Qed.

Lemma fold_rules rules p :
  let q := foldl combine_rule p rules in
  rank (severity p) <= rank (severity q) /\
  Forall (fun r => rank (block_severity r) <= rank (severity q)) rules /\
  (severity q = severity p \/ exists r, r ∈ rules /\ block_severity r = severity q) /\
  (reject_media q = true <-> reject_media p = true \/ exists r, r ∈ rules /\ block_reject_media r = true) /\
  (reject_reports q = true <->
   reject_reports p = true \/ exists r, r ∈ rules /\ block_reject_reports r = true).
Proof.
  revert p. induction rules as [|r rules IH]; intros p; simpl.
  { split_and!; [lia|constructor|by left|..];
      (split; [by left|intros [?|(r & Hr & _)]; [done|by apply not_elem_of_nil in Hr]]). }
  destruct (IH (combine_rule p r)) as (H1 & H2 & H3 & H4 & H5). clear IH.
  cbn [combine_rule severity reject_media reject_reports] in *. rewrite rank_max in H1.
  setoid_rewrite elem_of_cons. split_and!; [lia|constructor; [lia|done]| | |].
  - destruct H3 as [H3|(r' & Hr' & H3)]; [|eauto]. rewrite H3.
    destruct (severity_max_cases (severity p) (block_severity r)) as [->| ->]; eauto.
  - rewrite H4, orb_true_iff. naive_solver.
  - rewrite H5, orb_true_iff. naive_solver.
Qed.

Section Policy.
Context (host_domain : text -> option text).

(** A stored rule that covers a normalised domain. *)
Definition covers (d : Db) (domain : text) (r : FederationDomainBlock) : Prop :=
  (exists i, domain_blocks d !! i = Some r) /\
  Relations.domain_covers (block_domain r) domain = true.

Lemma elem_of_applied d n r :
  rules_ok d ->
  r ∈ rows_where (fun r => bool_decide (block_domain r ∈ label_suffixes (split_on 46 n)))
        (domain_blocks d) <-> covers d n r.
Proof.
  intros Hd. rewrite elem_of_rows_where, bool_decide_eq_true, elem_of_suffixes.
  unfold covers. split; [naive_solver|]. intros [[i Hi] Hc]. split_and!; [eauto| |done].
  by apply (ok_dots d Hd i).
Qed.

(** C18. After any history of rule changes, the policy of a domain, which is looked
    up by the exact suffixes of the normalised name, is the combination of
    exactly the rules whose domain is that name or a parent of it: the highest
    severity among them, and media and reports are rejected when one of them
    says so. *)
Theorem policy_is_strongest_covering_rule (d0 d : Db) (domain n : text) (w : World) :
  domain_blocks d0 = ∅ -> rtc (step host_domain) d0 d ->
  normalize_federation_domain host_domain domain = Ok n ->
  exists p, federation_domain_policy host_domain domain w d = (Ok p, w, d) /\
    (forall r, covers d n r -> rank (block_severity r) <= rank (severity p)) /\
    (severity p = Noop \/ exists r, covers d n r /\ block_severity r = severity p) /\
    (reject_media p = true <-> exists r, covers d n r /\ block_reject_media r = true) /\
    (reject_reports p = true <-> exists r, covers d n r /\ block_reject_reports r = true).
Proof.
  intros H0 Hrtc Hn. pose proof (reachable_rules_ok _ _ _ H0 Hrtc) as Hok.
  unfold federation_domain_policy, federation_domain_suffixes, combined_policy. rewrite Hn. run_unfold.
  eexists. split; [reflexivity|].
  destruct (fold_rules (rows_where (fun r => bool_decide
    (block_domain r ∈ label_suffixes (split_on 46 n))) (domain_blocks d)) default_policy)
    as (_ & H2 & H3 & H4 & H5).
  set (p := foldl _ _ _) in *. clearbody p. cbn [default_policy severity reject_media reject_reports] in *.
  setoid_rewrite (elem_of_applied d n) in H3; [|done].
  setoid_rewrite (elem_of_applied d n) in H4; [|done].
  setoid_rewrite (elem_of_applied d n) in H5; [|done].
  split_and!; [|done|naive_solver|naive_solver].
  intros r Hr. rewrite Forall_forall in H2. by apply H2, (elem_of_applied d n).
Qed.
End Policy.

(** * Suspension *)

(** A domain without the characters that LIKE interprets. *)
Definition plain (s : text) : Prop := Forall (fun c => c <> 37 /\ c <> 95 /\ c <> 92) s.

Lemma like_plain q s : plain q -> like q s = bool_decide (s = q).
Proof.
  intros Hq. revert s. induction Hq as [|c q (H1 & H2 & H3) _ IH]; intros s; [by apply bool_decide_ext|]. simpl.
  apply Z.eqb_neq in H1, H2, H3. rewrite H1, H2, H3. destruct s as [|x s]; [done|].
  rewrite IH. destruct (Z.eqb_spec x c) as [->|Hne]; simpl; [apply bool_decide_ext; naive_solver|].
  symmetry. apply bool_decide_eq_false. naive_solver.
Qed.

Lemma like_suffix q s : plain q -> like (37 :: q) s = true <-> exists p, s = p ++ q.
Proof.
  intros Hq. induction s as [|x s IH].
  - change (like (37 :: q) []) with (like q [] || false). rewrite orb_false_r, like_plain by done.
    rewrite bool_decide_eq_true. split; [by intros <-; exists []|].
    intros [p Hp]. by apply symmetry, app_nil in Hp as [_ ->].
  - change (like (37 :: q) (x :: s)) with (like q (x :: s) || like (37 :: q) s).
    rewrite orb_true_iff, IH, like_plain, bool_decide_eq_true by done. split.
    + intros [->|[p ->]]; [by exists []|by exists (x :: p)].
    + intros [[|y p] Hp]; [by left|]. injection Hp as -> ->. right. by exists p.
Qed.

Lemma selected_plain b t : plain b -> selected_by_rule b t = Relations.domain_covers b t.
Proof.
  intros Hb. apply eq_true_iff_eq. rewrite RelationsInvariant.domain_covers_spec.
  unfold selected_by_rule. rewrite orb_true_iff, bool_decide_eq_true.
  change (lit "%." ++ b) with (37 :: (46 :: b)). rewrite like_suffix; [done|].
  constructor; [lia|done].
Qed.

(** What a store holds between local account [l] and remote actor [a]. *)
Definition ties (a l : uuid) (d : Relations.Db) :=
  (Relations.remote_follows d !! (a, l), Relations.remote_followings d !! (l, a),
   Relations.list_remote_members d !! (l, a), Relations.local_remote_blocks d !! (l, a),
   Relations.remote_mutes d !! (l, a), Relations.remote_local_blocks d !! (a, l)).

Definition no_ties : option Relations.RemoteFollowRow * option Relations.FollowingRow *
    option uuid * option Relations.RemoteBlockRow * option Relations.MuteRow *
    option Relations.RemoteBlockRow := (None, None, None, None, None, None).

Lemma lookup_filter_kept {V} (P : uuid * uuid * V -> Prop) `{!forall kv, Decision (P kv)}
    (t : gmap (uuid * uuid) V) k : (forall v, P (k, v)) -> filter P t !! k = t !! k.
Proof.
  intros HP. destruct (t !! k) as [v|] eqn:Hk.
  - by apply map_lookup_filter_Some.
  - apply map_lookup_filter_None. by left.
Qed.

Lemma lookup_filter_gone {V} (P : uuid * uuid * V -> Prop) `{!forall kv, Decision (P kv)}
    (t : gmap (uuid * uuid) V) k : (forall v, ~ P (k, v)) -> filter P t !! k = None.
Proof. intros HP. apply map_lookup_filter_None. right. intros v _. apply HP. Qed.

Lemma ties_without a b l d :
  ties a l (Relations.without_actor b d) = if decide (a = b) then no_ties else ties a l d.
Proof.
  unfold ties, Relations.without_actor, no_ties. simpl. case_decide as Hab.
  - repeat (apply f_equal2; [|apply lookup_filter_gone; by intros v []]).
    apply lookup_filter_gone. by intros v [].
  - repeat (apply f_equal2; [|by apply lookup_filter_kept]). by apply lookup_filter_kept.
Qed.

(** The state of a cached status after the statuses of [actors] are removed. *)
Definition swept (now : time) (actors : list uuid) (s : Statuses.RemoteStatus) : Statuses.RemoteStatus :=
  if decide (Statuses.rs_actor s ∈ actors) then deleted_status now s else s.

(** The effect of purging some actors. *)
Record purged (now : time) (actors : list uuid) (d d' : Db) : Prop := {
  purged_blocks : domain_blocks d' = domain_blocks d;
  purged_actors : Relations.remote_actors (relations_of d') = Relations.remote_actors (relations_of d);
  purged_ties a l : ties a l (relations_of d')
    = if decide (a ∈ actors) then no_ties else ties a l (relations_of d);
  purged_statuses s : Statuses.remote_statuses (statuses_db d') !! s
    = swept now actors <$> Statuses.remote_statuses (statuses_db d) !! s;
}.

Lemma purge_one a now w d :
  exists d', purge_remote_actor_cache (mkAccountId a) now w d = (Ok tt, w, d') /\ purged now [a] d d'.
Proof.
  eexists. split; [reflexivity|]. split; [reflexivity|reflexivity| |].
  - intros b l. transitivity (ties b l (Relations.without_actor a (relations_of d))); [reflexivity|].
    rewrite ties_without. by destruct (decide (b = a)), (decide (b ∈ [a])); set_solver.
  - intros s. simpl. rewrite lookup_update_where.
    destruct (Statuses.remote_statuses (statuses_db d) !! s) as [r|]; [|done]. simpl. f_equal.
    unfold swept. destruct (N.eqb_spec (Statuses.rs_actor r) a), (decide (Statuses.rs_actor r ∈ [a]));
      set_solver.
Qed.

Lemma purged_trans now xs ys d1 d2 d3 :
  purged now xs d1 d2 -> purged now ys d2 d3 -> purged now (xs ++ ys) d1 d3.
Proof.
  intros [A1 A2 A3 A4] [B1 B2 B3 B4]. split; [congruence|congruence| |].
  - intros a l. rewrite B3, A3.
    destruct (decide (a ∈ ys)), (decide (a ∈ xs)), (decide (a ∈ xs ++ ys)); set_solver.
  - intros s. rewrite B4, A4. destruct (Statuses.remote_statuses (statuses_db d1) !! s) as [r|]; [|done].
    simpl. f_equal. unfold swept.
    destruct (decide (Statuses.rs_actor r ∈ xs)), (decide (Statuses.rs_actor r ∈ xs ++ ys)); simpl;
      case_decide; set_solver.
Qed.

Lemma purge_all actors now w d :
  exists d', for_each actors (fun a => purge_remote_actor_cache (mkAccountId a) now) w d = (Ok tt, w, d')
    /\ purged now actors d d'.
Proof.
  revert d. induction actors as [|a actors IH]; intros d.
  - exists d. split; [done|]. split; [done|done|done|]. intros s.
    by destruct (Statuses.remote_statuses (statuses_db d) !! s).
  - destruct (purge_one a now w d) as (d1 & Hrun1 & H1). destruct (IH d1) as (d2 & Hrun2 & H2).
    exists d2. split; [|by apply (purged_trans now [a] actors d d1 d2)].
    simpl. unfold mbind, M_bind. by rewrite Hrun1.
Qed.

(** A cached actor on a domain that a rule covers. *)
Definition covered_actor (d : Db) (domain : text) (a : uuid) : Prop :=
  exists row, Relations.remote_actors (relations_of d) !! a = Some row /\
    (Relations.actor_domain row = domain \/ exists p, Relations.actor_domain row = p ++ lit "." ++ domain).

Lemma elem_of_actors_of_rule d b a :
  plain b -> a ∈ actors_of_rule b d <-> covered_actor d b a.
Proof.
  intros Hb. unfold actors_of_rule, covered_actor. rewrite list_elem_of_fmap. split.
  - intros ([k row] & -> & Hin). apply list_elem_of_In, filter_In in Hin as [Hin Hx].
    apply list_elem_of_In, elem_of_map_to_list in Hin. exists row. split; [done|].
    simpl in Hx. by rewrite selected_plain, RelationsInvariant.domain_covers_spec in Hx.
  - intros (row & Hrow & Hc). exists (a, row). split; [done|].
    apply list_elem_of_In, filter_In. split.
    + by apply list_elem_of_In, elem_of_map_to_list.
    + simpl. by rewrite selected_plain, RelationsInvariant.domain_covers_spec.
Qed.

(** Reconciling a rule that suspends a domain always succeeds: it cuts every
    tie (follows in both directions, blocks in both directions, mutes, list
    memberships) with every actor of the domain and its subdomains and marks
    their statuses deleted, and changes neither the ties nor the statuses of
    anyone else.  A rule of another severity, or no rule, changes nothing. *)
Theorem reconcile_purges_covered (d : Db) (i : uuid) (w : World) :
  (forall b, domain_blocks d !! i = Some b -> plain (block_domain b)) ->
  exists n w' d', reconcile_federation_domain_block i w d = (Ok n, w', d') /\
    match domain_blocks d !! i with
    | Some b =>
        if decide (block_severity b = Suspend) then
          (forall a l, covered_actor d (block_domain b) a -> ties a l (relations_of d') = no_ties) /\
          (forall a l, ~ covered_actor d (block_domain b) a ->
             ties a l (relations_of d') = ties a l (relations_of d)) /\
          (forall s r, Statuses.remote_statuses (statuses_db d) !! s = Some r ->
             exists r', Statuses.remote_statuses (statuses_db d') !! s = Some r' /\
               (covered_actor d (block_domain b) (Statuses.rs_actor r) ->
                is_Some (Statuses.rs_deleted_at r')) /\
               (~ covered_actor d (block_domain b) (Statuses.rs_actor r) -> r' = r))
        else d' = d
    | None => d' = d
    end.
Proof.
  intros Hplain. unfold reconcile_federation_domain_block, find_federation_domain_block.
  run_unfold. destruct (domain_blocks d !! i) as [b|] eqn:Hb; [|by eauto 6].
  specialize (Hplain b eq_refl). case_decide as Hs; simpl.
  - rewrite bool_decide_eq_true_2 by done. cbn [negb].
    match goal with |- context [for_each ?xs (fun a => purge_remote_actor_cache _ ?now) ?w1 ?d1] =>
      destruct (purge_all xs now w1 d1) as (d' & Hrun & [_ _ Hties Hst]) end.
    rewrite Hrun. do 3 eexists. split; [reflexivity|].
    split_and!.
    + intros a l Ha. rewrite Hties. apply decide_True. by apply elem_of_actors_of_rule.
    + intros a l Ha. rewrite Hties. apply decide_False. by rewrite elem_of_actors_of_rule.
    + intros s r Hr. rewrite Hst, Hr. eexists. split; [reflexivity|]. unfold swept.
      split; intros Ha; [rewrite decide_True by (by apply elem_of_actors_of_rule); by eexists|].
      rewrite decide_False; [done|]. by rewrite elem_of_actors_of_rule.
  - rewrite bool_decide_eq_false_2 by done. by eauto 6.
Qed.

(** A rule whose domain holds an underscore selects more actors for the cleanup
    than the policy covers: LIKE reads it as any character. *)
Lemma underscore_rule_selects_strangers :
  selected_by_rule (lit "a_b.example") (lit "x.acb.example") = true /\
  Relations.domain_covers (lit "a_b.example") (lit "x.acb.example") = false.
Proof. split; vm_compute; reflexivity. Qed.

(** * Changes by administrators *)

#[local] Existing Instance Relations.jobs_part.

Definition jobs_of (d : Db) : Jobs.table := Notifications.jobs (Relations.notification_db (relations_of d)).

Definition put_jobs (t : Jobs.table) (d : Db) : Db :=
  put_part (put_part (put_part t (relations_of d)) (statuses_db d)) d.

Lemma put_jobs_facts t d :
  jobs_of (put_jobs t d) = t /\ put_jobs (jobs_of d) d = d /\
  domain_blocks (put_jobs t d) = domain_blocks d /\ audit_log (put_jobs t d) = audit_log d /\
  forall a l, ties a l (relations_of (put_jobs t d)) = ties a l (relations_of d).
Proof.
  destruct d as [b a [ls rs lm rm [? ? ? ? ? ? ? ? ? ? ? ? ? []]]]. by split_and!.
Qed.

Section Changes.
Context (host_domain : text -> option text) (uuid_text : uuid -> string).

Lemma enqueue_run job w d :
  on_relations (Relations.enqueue job) w d =
  let '(r, w', t) := Jobs.enqueue_job_on_connection job w (jobs_of d) in
  (match r with Ok _ => Ok tt | Err e => Err e end, w', put_jobs t d).
Proof.
  unfold on_relations, Relations.enqueue, zoom. cbv [mbind M_bind mret M_ret].
  change (get_part (get_part (get_part d))) with (jobs_of d).
  by destruct (Jobs.enqueue_job_on_connection job w (jobs_of d)) as [[[j|e] w'] t].
Qed.

(** A job of a kind and key that is not completed. *)
Definition pending (k : Jobs.JobKind) (key : string) (t : Jobs.table) : Prop :=
  exists i j, t !! i = Some j /\ Jobs.active_duplicate k (Some key) j = true.

Lemma enqueue_pending job key w t j w' t' :
  Jobs.new_deduplication_key job = Some key ->
  Jobs.enqueue_job_on_connection job w t = (Ok j, w', t') -> pending (Jobs.new_kind job) key t'.
Proof.
  intros Hkey. unfold Jobs.enqueue_job_on_connection. run_unfold. rewrite Hkey.
  destruct (rows_where _ t) as [|x rest] eqn:Hrows.
  - destruct (t !! _); [done|]. intros [= _ _ <-]. eexists _, _. split; [apply lookup_insert_eq|].
    simpl. by rewrite !bool_decide_eq_true_2.
  - intros [= _ _ <-]. assert (x ∈ rows_where (Jobs.active_duplicate (Jobs.new_kind job) (Some key)) t) as Hx
      by (rewrite Hrows; left).
    apply elem_of_rows_where in Hx as [[i Hi] Ha]. by exists i, x.
Qed.

(** An enqueue of an active key leaves the table as it is. *)
Lemma enqueue_active job key w t :
  Jobs.new_deduplication_key job = Some key -> pending (Jobs.new_kind job) key t ->
  exists j w', Jobs.enqueue_job_on_connection job w t = (Ok j, w', t).
Proof.
  intros Hkey (i & j & Hi & Ha). unfold Jobs.enqueue_job_on_connection. run_unfold. rewrite Hkey.
  destruct (rows_where _ t) as [|x rest] eqn:Hrows; [|by eauto].
  apply (proj1 (rows_where_nil _ _) Hrows) in Hi. congruence.
Qed.

Lemma require_admin_inv token p actor :
  require_admin token p = Ok actor ->
  token_is_admin token = true /\ actor = token_account token /\
  exists scope, scope ∈ split_ascii_whitespace (token_scopes token) /\ allows_scope p scope = true.
Proof.
  unfold require_admin. destruct (token_is_admin token); [|done]. simpl.
  destruct (existsb _ _) eqn:He; [|done]. intros [= <-]. split_and!; [done|done|].
  apply existsb_exists in He as (s & Hs & Ha). exists s. split; [by apply list_elem_of_In|done].
Qed.

(** The requests that write a rule, with the action they are audited as. *)
Inductive rule_change (token : AuthenticatedAccessToken) :
    AdminAuditAction -> M Db AdminApiError FederationDomainBlock -> Prop :=
| Creates input :
    rule_change token DomainBlockCreate (create_domain_block host_domain uuid_text token input)
| Updates i severity media reports pc uc obfuscate :
    rule_change token DomainBlockUpdate
      (update_domain_block uuid_text token i severity media reports pc uc obfuscate).

Lemma audited_and_queued_ok actor action m w d b w' d' :
  audited_and_queued uuid_text actor action m w d = (Ok b, w', d') ->
  exists w1 d1, m w d = (Ok b, w1, d1) /\ domain_blocks d' = domain_blocks d1 /\
    (exists i, audit_log d' !! i = Some (mkAudit i (account_uuid actor) action (block_id b)
       (block_domain b) (block_severity b))) /\
    pending Jobs.DomainModerationReconcile (reconciliation_key uuid_text (block_id b)) (jobs_of d').
Proof.
  intros Hrun. unfold audited_and_queued in Hrun.
  inv_bind Hrun b1 w1 d1 H1. inv_bind Hrun u2 w2 d2 H2. inv_bind Hrun u3 w3 d3 H3.
  injection Hrun as -> _ ->. exists w1, d1. split; [done|].
  unfold audit_domain_block in H2. inv_bind H2 i w4 d4 H4. injection H4 as _ _ <-. injection H2 as _ _ <-.
  unfold enqueue_domain_reconciliation in H3. inv_bind H3 now w5 d5 H5. injection H5 as _ _ <-.
  rewrite enqueue_run in H3. destruct (Jobs.enqueue_job_on_connection _ _ _) as [[[j|e] w6] t] eqn:Hq;
    [|done]. injection H3 as _ _ <-.
  match goal with |- context [put_jobs t ?dd] =>
    destruct (put_jobs_facts t dd) as (E1 & _ & E3 & E4 & _) end.
  rewrite E1, E3, E4. split_and!; [done|by exists i; apply lookup_insert_eq|].
  by apply (enqueue_pending _ (reconciliation_key uuid_text (block_id b))) in Hq.
Qed.

Lemma admin_transaction_run {A} (m : M Db AdminApiError A) w d :
  admin_transaction m w d =
  let '(r, w', d') := m w d in (r, w', match r with Ok _ => d' | Err _ => d end).
Proof.
  unfold admin_transaction, transaction, mbind, M_bind, mret, M_ret.
  by destruct (m w d) as [[[a|e] w'] d'].
Qed.

Lemma create_unfold token input w d :
  create_domain_block host_domain uuid_text token input w d =
  match require_admin token (Write WriteDomainBlocks) with
  | Ok actor => admin_transaction (map_err Failed (audited_and_queued uuid_text actor DomainBlockCreate
                  (create_federation_domain_block host_domain input))) w d
  | Err e => (Err e, w, d)
  end.
Proof. unfold create_domain_block. by destruct (require_admin _ _). Qed.

Lemma update_unfold token i severity media reports pc uc obfuscate w d :
  update_domain_block uuid_text token i severity media reports pc uc obfuscate w d =
  match require_admin token (Write WriteDomainBlocks), domain_blocks d !! i with
  | Ok actor, Some _ =>
      admin_transaction (map_err Failed (audited_and_queued uuid_text actor DomainBlockUpdate
        (update_federation_domain_block i (mkBlockUpdate severity media reports (Some <$> pc)
           (Some <$> uc) obfuscate)))) w d
  | Ok _, None => (Err NotFound, w, d)
  | Err e, _ => (Err e, w, d)
  end.
Proof.
  unfold update_domain_block. destruct (require_admin _ _) as [actor|e]; [|done].
  cbv [lift_result mbind M_bind mret M_ret]. rewrite !admin_transaction_run.
  unfold find_federation_domain_block, map_err at 1. cbn.
  destruct (domain_blocks d !! i) as [b|]; [|done]. simpl.
  by destruct (map_err _ _ w d) as [[[b'|e] w'] d'].
Qed.

Lemma finish_run actor action m w d r w' d' :
  admin_transaction (map_err Failed (audited_and_queued uuid_text actor action m)) w d = (r, w', d') ->
  (exists e, r = Err e /\ d' = d) \/
  exists b, r = Ok b /\ audited_and_queued uuid_text actor action m w d = (Ok b, w', d').
Proof.
  rewrite admin_transaction_run. unfold map_err.
  destruct (audited_and_queued uuid_text actor action m w d) as [[[b|e] w1] d1]; intros [= <- <- <-]; eauto.
Qed.

(** A request that creates or changes a rule succeeds only for an
    administrator whose token carries a scope for domain blocks; it then leaves
    the rule in force, one audit entry that names the administrator and the rule
    as written, and a pending reconciliation job for it.  Otherwise nothing is
    written. *)
Theorem rule_changes_are_authorised (token : AuthenticatedAccessToken) (action : AdminAuditAction)
    (m : M Db AdminApiError FederationDomainBlock) (w w' : World) (d d' : Db)
    (r : result FederationDomainBlock AdminApiError) :
  rules_ok d -> rule_change token action m -> m w d = (r, w', d') ->
  match r with
  | Ok b =>
      token_is_admin token = true /\
      (exists scope, scope ∈ split_ascii_whitespace (token_scopes token) /\
         (scope = lit "admin:write" \/ scope = lit "admin:write:domain_blocks")) /\
      domain_blocks d' !! block_id b = Some b /\
      (exists i, audit_log d' !! i = Some (mkAudit i (account_uuid (token_account token)) action
         (block_id b) (block_domain b) (block_severity b))) /\
      pending Jobs.DomainModerationReconcile (reconciliation_key uuid_text (block_id b)) (jobs_of d')
  | Err _ => d' = d
  end.
Proof.
  intros Hok Hm Hrun.
  assert (forall actor, require_admin token (Write WriteDomainBlocks) = Ok actor ->
    token_is_admin token = true /\ actor = token_account token /\
    exists scope, scope ∈ split_ascii_whitespace (token_scopes token) /\
      (scope = lit "admin:write" \/ scope = lit "admin:write:domain_blocks")) as Hadmin.
  { intros actor (Ha & Heq & scope & Hin & Hs)%require_admin_inv. split_and!; [done|done|].
    exists scope. split; [done|]. cbv zeta beta iota delta [allows_scope] in Hs.
    apply orb_true_iff in Hs as [Hs%bool_decide_eq_true|Hs%bool_decide_eq_true]; auto. }
  destruct Hm as [input|i severity media reports pc uc obfuscate];
    [rewrite create_unfold in Hrun|rewrite update_unfold in Hrun];
    destruct (require_admin token (Write WriteDomainBlocks)) as [actor|e]; try (by simplify_eq);
    specialize (Hadmin actor eq_refl) as (Ha & -> & Hscope).
  - apply finish_run in Hrun as [(e & -> & ->)|(b & -> & Hrun)]; [done|].
    apply audited_and_queued_ok in Hrun as (w1 & d1 & Hm & Hblocks & Haudit & Hjob).
    apply create_inv in Hm as [[_ [e [=]]]|(i & b' & [= <-] & -> & _ & <- & _)].
    split_and!; [done|done| |done|done]. rewrite Hblocks. apply lookup_insert_eq.
  - destruct (domain_blocks d !! i) as [b0|] eqn:Hb0; [|by simplify_eq].
    apply finish_run in Hrun as [(e & -> & ->)|(b & -> & Hrun)]; [done|].
    apply audited_and_queued_ok in Hrun as (w1 & d1 & Hm & Hblocks & Haudit & Hjob).
    apply update_inv in Hm as [[_ [e [=]]]|(b1 & now & Hb1 & [= ->] & ->)].
    split_and!; [done|done| |done|done]. rewrite Hblocks.
    cbn [updated_block block_id]. rewrite (ok_ids _ Hok _ _ Hb1). apply lookup_insert_eq.
Qed.

(** A reconciliation job that has read a rule before the rule became a
    suspension swallows the job of the suspension: while it is not completed its
    key is active, so the update enqueues nothing, and once it completes no job
    is left that would cut the ties with the suspended domain. *)
Theorem suspension_during_reconcile_is_lost (d : Db) (token : AuthenticatedAccessToken)
    (actor : AccountId) (i : uuid) (b : FederationDomainBlock) (job : Jobs.ClaimedJob) (j : Jobs.Job)
    (w w' : World) :
  rules_ok d -> Jobs.table_ok (jobs_of d) ->
  domain_blocks d !! i = Some b -> block_severity b <> Suspend ->
  require_admin token (Write WriteDomainBlocks) = Ok actor ->
  jobs_of d !! job_uuid (Jobs.claimed_id job) = Some j ->
  Jobs.claim_id j = Some (claim_uuid (Jobs.claimed_claim_id job)) ->
  Jobs.kind j = Jobs.DomainModerationReconcile ->
  Jobs.deduplication_key j = Some (reconciliation_key uuid_text i) ->
  Jobs.completed_at j = None ->
  reconcile_federation_domain_block i w d = (Ok 0, w, d) /\
  exists b' w2 d2 w3 t3,
    update_domain_block uuid_text token i (Some Suspend) None None None None None w d = (Ok b', w2, d2) /\
    domain_blocks d2 !! i = Some b' /\ block_severity b' = Suspend /\
    Jobs.mark_job_completed job w' (jobs_of d2) = (Ok true, w3, t3) /\
    ~ pending Jobs.DomainModerationReconcile (reconciliation_key uuid_text i) t3 /\
    forall a l, ties a l (relations_of (put_jobs t3 d2)) = ties a l (relations_of d).
Proof.
  intros Hok Htable Hb Hsev Hadmin Hj Hclaim Hkind Hkey Hopen. split.
  { unfold reconcile_federation_domain_block, find_federation_domain_block. run_unfold.
    rewrite Hb. simpl. by rewrite bool_decide_eq_false_2. }
  set (u := mkBlockUpdate (Some Suspend) None None (Some <$> None) (Some <$> None) None).
  set (b' := updated_block u (w_clock w (w_ticks w)) b).
  assert (Jobs.active_duplicate Jobs.DomainModerationReconcile (Some (reconciliation_key uuid_text i)) j
          = true) as Hactive by (by apply Jobs.active_duplicate_spec).
  assert (Hid : block_id b' = i) by (apply (ok_ids _ Hok _ _ Hb)).
  rewrite update_unfold, Hadmin, Hb, admin_transaction_run. unfold map_err, audited_and_queued.
  unfold update_federation_domain_block, find_federation_domain_block, audit_domain_block,
    enqueue_domain_reconciliation. run_unfold. rewrite Hb. fold u. fold b'. cbn zeta. rewrite Hid.
  match goal with |- context [on_relations (Relations.enqueue ?job') ?w1 ?d1] =>
    rewrite (enqueue_run job' w1 d1); change (jobs_of d1) with (jobs_of d);
    destruct (enqueue_active job' (reconciliation_key uuid_text i) w1 (jobs_of d) eq_refl) as (jid & w2 & Hq);
    [by exists (job_uuid (Jobs.claimed_id job)), j|]; rewrite Hq;
    destruct (put_jobs_facts (jobs_of d1) d1) as (_ & E2 & _);
    change (jobs_of d1) with (jobs_of d) in E2; rewrite E2 end.
  do 3 eexists. unfold Jobs.mark_job_completed. run_unfold.
  change (jobs_of (mkDb _ _ _)) with (jobs_of d).
  do 2 eexists. split; [reflexivity|]. split; [apply lookup_insert_eq|]. split; [done|].
  split; [by apply Jobs.update_claimed_held|].
  split.
  - intros (k & j' & Hk & Ha). apply lookup_insert_Some in Hk as [[<- <-]|[Hne Hk]].
    + apply Jobs.active_duplicate_spec in Ha as (_ & _ & Ha). done.
    + apply Hne. apply (Jobs.ok_unique _ Htable _ k j j' (reconciliation_key uuid_text i)); [done|done| |];
        by rewrite Hkind.
  - intros a l. match goal with |- context [put_jobs ?t ?dd] =>
      destruct (put_jobs_facts t dd) as (_ & _ & _ & _ & ->) end. done.
Qed.
End Changes.

(** * Concrete rules *)

Definition sample_host (s : text) : option text := Some s.
Definition sample_uuid_text (u : uuid) : string := "1".

Definition sample_actor (domain : string) : Relations.RemoteActorRow :=
  Relations.mkRemoteActorRow (lit domain) None None None None None 0.
Definition sample_follow (actor : uuid) : Relations.RemoteFollowRow :=
  Relations.mkRemoteFollowRow (10 + actor) actor 1 "f" JNull Relations.Accepted 0 0.

(** Actors 7 and 8, on a subdomain of example.com and elsewhere, follow account 1. *)
Definition sample_db (jobs : Jobs.table) (blocks : gmap uuid FederationDomainBlock) : Db :=
  mkDb blocks ∅ (Statuses.mkDb ∅ ∅ ∅ ∅
    (Relations.mkDb ∅ ∅ ∅ ∅ {[7%N := sample_actor "a.example.com"; 8%N := sample_actor "other.org"]}
       ∅ ∅ ∅ {[(7%N, 1%N) := sample_follow 7; (8%N, 1%N) := sample_follow 8]} ∅ ∅ ∅ ∅
       (Notifications.mkDb ∅ ∅ ∅ jobs))).

Definition sample_rule (severity : DomainBlockSeverity) : FederationDomainBlock :=
  mkBlock 5 (lit "example.com") severity false true None None false 0 0.
Definition sample_new : NewFederationDomainBlock :=
  mkNewBlock (lit " Example.COM. ") Suspend false true None None false.

Definition sample_created : Db :=
  store_of (create_federation_domain_block sample_host sample_new) sample_world (sample_db ∅ ∅).

Lemma policy_is_strongest_covering_rule_witness :
  exists p, federation_domain_policy sample_host (lit "social.team.example.com") sample_world sample_created
    = (Ok p, sample_world, sample_created) /\ is_suspended p = true.
Proof.
  destruct (policy_is_strongest_covering_rule sample_host (sample_db ∅ ∅) sample_created
    (lit "social.team.example.com") (lit "social.team.example.com") sample_world)
    as (p & Hrun & Hmax & _).
  - reflexivity.
  - apply rtc_once. exists _, (create_federation_domain_block sample_host sample_new), sample_world.
    eexists _, _. split; [apply Op_create|]. vm_compute. reflexivity.
  - vm_compute. reflexivity.
  - exists p. split; [exact Hrun|].
    assert (rank Suspend <= rank (severity p)) as Hp.
    { apply (Hmax (mkBlock 100 (lit "example.com") Suspend false true None None false 0 0)).
      split; [exists 100%N; vm_compute; reflexivity|vm_compute; reflexivity]. }
    unfold is_suspended. by destruct (severity p).
Defined.

Lemma reconcile_purges_covered_witness :
  exists n w' d', reconcile_federation_domain_block 5 sample_world
      (sample_db ∅ {[5%N := sample_rule Suspend]}) = (Ok n, w', d') /\
    ties 7 1 (relations_of d') = no_ties /\
    ties 8 1 (relations_of d') = ties 8 1 (relations_of (sample_db ∅ ∅)).
Proof.
  destruct (reconcile_purges_covered (sample_db ∅ {[5%N := sample_rule Suspend]}) 5 sample_world)
    as (n & w' & d' & Hrun & Hrest).
  - intros b [= <-]. apply (bool_decide_unpack _). vm_compute. exact I.
  - exists n, w', d'. split; [exact Hrun|]. destruct Hrest as (Hcut & Hkept & _).
    split; [apply Hcut|rewrite Hkept; [reflexivity|]].
    + eexists. split; [reflexivity|]. right. by exists (lit "a").
    + intros (row & [= <-] & [Heq|[p Heq]]); [done|].
      apply (f_equal (last)) in Heq. rewrite app_assoc, last_app in Heq. vm_compute in Heq. congruence.
Defined.

Definition sample_token : AuthenticatedAccessToken :=
  mkToken (mkAccountId 1) true (lit "read admin:write").

Lemma sample_rules_ok severity : rules_ok (sample_db ∅ {[5%N := sample_rule severity]}).
Proof.
  split; simpl.
  - by intros i r [<- <-]%lookup_singleton_Some.
  - intros i r [<- <-]%lookup_singleton_Some. apply (bool_decide_unpack _). vm_compute. exact I.
  - by intros i j r r' [<- _]%lookup_singleton_Some [<- _]%lookup_singleton_Some.
Qed.

Lemma rule_changes_are_authorised_witness :
  exists b w' d', update_domain_block sample_uuid_text sample_token 5 (Some Suspend) None None None None None
      sample_world (sample_db ∅ {[5%N := sample_rule Silence]}) = (Ok b, w', d') /\
    pending Jobs.DomainModerationReconcile (reconciliation_key sample_uuid_text 5) (jobs_of d').
Proof.
  destruct (update_domain_block sample_uuid_text sample_token 5 (Some Suspend) None None None None None
    sample_world (sample_db ∅ {[5%N := sample_rule Silence]})) as [[[b|e] w'] d'] eqn:Hrun;
    [|vm_compute in Hrun; discriminate].
  destruct (rule_changes_are_authorised sample_host sample_uuid_text sample_token DomainBlockUpdate _ _ _ _ _ _
    (sample_rules_ok Silence) (Updates _ _ _ _ _ _ _ _ _ _) Hrun) as (_ & _ & _ & _ & Hp).
  exists b, w', d'. split; [reflexivity|].
  assert (block_id b = 5%N) as Hid by (vm_compute in Hrun; injection Hrun as <- _ _; reflexivity).
  rewrite Hid in Hp. exact Hp.
Defined.

(** The reconciliation job of rule 5, claimed by a worker. *)
Definition sample_claimed_job : Jobs.Job :=
  Jobs.mkJob 9 Jobs.DomainModerationReconcile JNull (Some (reconciliation_key sample_uuid_text 5))
    0 0 (Some 1) (Some "worker"%string) (Some 44%N) None 0 None None.
Definition sample_claim : Jobs.ClaimedJob :=
  Jobs.mkClaimedJob (mkJobId 9) (mkJobClaimId 44) Jobs.DomainModerationReconcile JNull 0 0.

Lemma sample_claimed_ok : Jobs.table_ok {[9%N := sample_claimed_job]}.
Proof.
  split.
  - intros k j [<- <-]%lookup_singleton_Some. split; simpl; try done;
      try (split; intros _; by eexists); by intros [? [=]].
  - by intros k1 k2 j1 j2 s [<- _]%lookup_singleton_Some [<- _]%lookup_singleton_Some.
Qed.

Lemma suspension_during_reconcile_is_lost_witness :
  let d := sample_db {[9%N := sample_claimed_job]} {[5%N := sample_rule Silence]} in
  exists b' w2 d2 w3 t3,
    update_domain_block sample_uuid_text sample_token 5 (Some Suspend) None None None None None sample_world d
      = (Ok b', w2, d2) /\
    Jobs.mark_job_completed sample_claim sample_world (jobs_of d2) = (Ok true, w3, t3) /\
    ~ pending Jobs.DomainModerationReconcile (reconciliation_key sample_uuid_text 5) t3.
Proof.
  intros d.
  destruct (suspension_during_reconcile_is_lost sample_uuid_text d sample_token (mkAccountId 1) 5
    (sample_rule Silence) sample_claim sample_claimed_job sample_world sample_world)
    as (_ & b' & w2 & d2 & w3 & t3 & H1 & _ & _ & H4 & H5 & _);
    [|exact sample_claimed_ok|reflexivity|discriminate|vm_compute; reflexivity|reflexivity..|].
  - destruct (sample_rules_ok Silence) as [K1 K2 K3]. by split.
  - exists b', w2, d2, w3, t3. split; [exact H1|]. split; [exact H4|exact H5].
Defined.
