(* ===== verification/Threads.v ===== *)
(** The thread of a status ([crates/server/src/statuses.rs]): who may see a
    status, the walk from a status to the root of its thread, and the bounded
    search of its replies.  A thread is read in one snapshot, so each function is
    a function of the store; the only failure is a domain that has no policy.

    [Host::parse] is the parameter of [DomainPolicy]. *)
From S2P Require Import Prelude Core Text Statuses.
From S2P Require Relations DomainPolicy.

#[local] Existing Instance Relations.RemoteFollowState_eq_dec.

(** * Results in sequence *)

#[local] Instance result_ret {E} : MRet (fun A => result A E) := fun A a => Ok a.
#[local] Instance result_bind {E} : MBind (fun A => result A E) := fun A B k m =>
  match m with Ok a => k a | Err e => Err e end.

Abbreviation Res := (fun A => result A RoostyError).

(** * Data *)

(** The recipients are the rows of [local_status_local_recipient] and
    [remote_status_local_recipient], (status, account); [purged_actors] are the
    actors with [data_purged_at]. *)
Record Db := mkDb {
  policy_db : DomainPolicy.Db;
  local_recipients : gset (uuid * uuid);
  remote_recipients : gset (uuid * uuid);
  purged_actors : gset uuid;
}.

Definition statuses_db (d : Db) : Statuses.Db := DomainPolicy.statuses_db (policy_db d).
Definition relations_db (d : Db) : Relations.Db := Statuses.relations (statuses_db d).

Inductive StatusContextItem : Type :=
| LocalItem (id : uuid) (status : LocalStatus)
| RemoteItem (id : uuid) (status : RemoteStatus).

Inductive StatusContextParent : Type :=
| LocalParent (id : uuid)
| RemoteParent (id : uuid).

#[export] Instance StatusContextParent_eq_dec : EqDecision StatusContextParent.
Proof. solve_decision. Defined.

(** [StatusContextItem] as the parent of its replies. *)
Definition item_ref (item : StatusContextItem) : StatusContextParent :=
  match item with LocalItem i _ => LocalParent i | RemoteItem i _ => RemoteParent i end.

Definition item_id (item : StatusContextItem) : uuid :=
  match item with LocalItem i _ | RemoteItem i _ => i end.

(** * Reading statuses *)

Definition live_local (d : Db) (i : uuid) : option StatusContextItem :=
  match local_statuses (statuses_db d) !! i with
  | Some s => if bool_decide (ls_deleted_at s = None) then Some (LocalItem i s) else None
  | None => None
  end.

Definition live_remote (d : Db) (i : uuid) : option StatusContextItem :=
  match remote_statuses (statuses_db d) !! i with
  | Some s => if bool_decide (rs_deleted_at s = None) then Some (RemoteItem i s) else None
  | None => None
  end.

Definition find_status_context_item (d : Db) (i : uuid) : option StatusContextItem :=
  match live_local d i with Some item => Some item | None => live_remote d i end.

Definition find_status_context_parent (d : Db) (p : StatusContextParent) : option StatusContextItem :=
  match p with LocalParent i => live_local d i | RemoteParent i => live_remote d i end.

Definition parent_of (l r : option uuid) : option StatusContextParent :=
  match l, r with
  | Some l, _ => Some (LocalParent l)
  | None, Some r => Some (RemoteParent r)
  | None, None => None
  end.

Definition status_context_parent (item : StatusContextItem) : option StatusContextParent :=
  match item with
  | LocalItem _ s => parent_of (ls_in_reply_to s) (ls_in_reply_to_remote s)
  | RemoteItem _ s => parent_of (rs_in_reply_to_local s) (rs_in_reply_to_remote s)
  end.

(** ** Replies *)

Definition local_replies (d : Db) (column : LocalStatus -> option uuid) (i : uuid) :
    list StatusContextItem :=
  (fun kv => LocalItem kv.1 kv.2) <$>
    List.filter (fun kv => bool_decide (column kv.2 = Some i) && bool_decide (ls_deleted_at kv.2 = None))
      (map_to_list (local_statuses (statuses_db d))).

Definition remote_replies (d : Db) (column : RemoteStatus -> option uuid) (i : uuid) :
    list StatusContextItem :=
  (fun kv => RemoteItem kv.1 kv.2) <$>
    List.filter (fun kv => bool_decide (column kv.2 = Some i) && bool_decide (rs_deleted_at kv.2 = None))
      (map_to_list (remote_statuses (statuses_db d))).

(** Oldest first. *)
Definition by_id (a b : StatusContextItem) : bool := (item_id a <=? item_id b)%N.

Definition status_context_replies (d : Db) (p : StatusContextParent) : list StatusContextItem :=
  order_by by_id
    match p with
    | LocalParent i => local_replies d ls_in_reply_to i ++ remote_replies d rs_in_reply_to_local i
    | RemoteParent i => local_replies d ls_in_reply_to_remote i ++ remote_replies d rs_in_reply_to_remote i
    end.

(** * Visibility *)

Definition is_public (v : StatusVisibility) : bool :=
  match v with Public | Unlisted => true | Private | Direct => false end.

Definition can_view_status (s : LocalStatus) (viewer : option AccountId) : bool :=
  is_public (ls_visibility s)
  || match viewer with Some v => bool_decide (account_uuid v = ls_account s) | None => false end.

Definition local_status_visible_to_account (d : Db) (i : uuid) (s : LocalStatus) (account : AccountId) : bool :=
  let a := account_uuid account in
  let recipient := bool_decide ((i, a) ∈ local_recipients d) in
  if is_public (ls_visibility s) || bool_decide (ls_account s = a) then true
  else match ls_visibility s with
       | Private =>
           bool_decide (is_Some (Relations.local_follows (relations_db d) !! (a, ls_account s)))
           || recipient
       | Direct => recipient
       | _ => false
       end.

Definition remote_status_visible_to_account (d : Db) (i : uuid) (s : RemoteStatus) (account : AccountId) : bool :=
  let a := account_uuid account in
  let recipient := bool_decide ((i, a) ∈ remote_recipients d) in
  if bool_decide (is_Some (Relations.local_remote_blocks (relations_db d) !! (a, rs_actor s))) then false
  else if is_public (rs_visibility s) then true
  else match rs_visibility s with
       | Private =>
           match Relations.remote_followings (relations_db d) !! (a, rs_actor s) with
           | Some f => bool_decide (Relations.fg_state f = Relations.Accepted)
                       && bool_decide (Relations.fg_deactivated_at f = None)
           | None => false
           end || recipient
       | Direct => recipient
       | _ => false
       end.

Definition status_visible_to_viewer (d : Db) (i : uuid) (s : LocalStatus) (viewer : option AccountId) : bool :=
  match viewer with
  | None => can_view_status s None
  | Some v =>
      if negb (bool_decide (account_uuid v = ls_account s))
         && Relations.local_pair_blocked v (mkAccountId (ls_account s)) (relations_db d)
      then false
      else if can_view_status s (Some v) then true
      else local_status_visible_to_account d i s v
  end.

Section Thread.
Context (host_domain : text -> option text).

Definition domain_policy (d : Db) (domain : text) : Res DomainPolicy.FederationDomainPolicy :=
  suffixes ← (DomainPolicy.federation_domain_suffixes host_domain domain : Res _);
  Ok (DomainPolicy.combined_policy suffixes (policy_db d)).

Definition status_context_item_visible (d : Db) (item : StatusContextItem) (viewer : option AccountId) :
    Res bool :=
  match item with
  | LocalItem i s =>
      match Relations.local_accounts (relations_db d) !! ls_account s with
      | Some author =>
          if bool_decide (Relations.account_suspended_at author = None)
          then Ok (status_visible_to_viewer d i s viewer) else Ok false
      | None => Ok false
      end
  | RemoteItem i s =>
      match Relations.remote_actors (relations_db d) !! rs_actor s with
      | None => Ok false
      | Some author =>
          if negb (bool_decide (Relations.actor_deleted_at author = None))
             || negb (bool_decide (Relations.actor_suspended_at author = None))
             || bool_decide (rs_actor s ∈ purged_actors d)
          then Ok false
          else
            policy ← domain_policy d (Relations.actor_domain author);
            if DomainPolicy.is_suspended policy then Ok false
            else match viewer with
                 | Some v => Ok (remote_status_visible_to_account d i s v)
                 | None => Ok (is_public (rs_visibility s))
                 end
      end
  end.

(** * The thread *)

Record StatusContextLimits := mkLimits {
  ancestors_limit : nat;
  descendants_limit : nat;
  descendants_depth : option nat;
}.

Definition AUTHENTICATED_CONTEXT_LIMIT : nat := 4096.

Definition for_viewer (viewer : option AccountId) : StatusContextLimits :=
  match viewer with
  | Some _ => mkLimits AUTHENTICATED_CONTEXT_LIMIT AUTHENTICATED_CONTEXT_LIMIT None
  | None => mkLimits 40 60 (Some 20%nat)
  end.

(** The loop of [status_ancestors]: [found] holds the ancestors so far, nearest
    first.  [None] means that the fuel ran out. *)
Fixpoint climb_ancestors (d : Db) (viewer : option AccountId) (limit fuel : nat)
    (seen : list StatusContextParent) (found : list StatusContextItem) (next : option StatusContextParent) :
    Res (option (list StatusContextItem)) :=
  match next with
  | None => Ok (Some found)
  | Some p =>
      if decide (limit <= length found)%nat then Ok (Some found)
      else if decide (p ∈ seen) then Ok (Some found)
      else match find_status_context_parent d p with
           | None => Ok (Some found)
           | Some parent =>
               visible ← status_context_item_visible d parent viewer;
               if negb visible then Ok (Some found)
               else match fuel with
                    | O => Ok None
                    | S fuel => climb_ancestors d viewer limit fuel (p :: seen) (found ++ [parent])
                                  (status_context_parent parent)
                    end
           end
  end.

Definition status_ancestors (d : Db) (item : StatusContextItem) (viewer : option AccountId)
    (limits : StatusContextLimits) : Res (option (list StatusContextItem)) :=
  found ← climb_ancestors d viewer (ancestors_limit limits) (ancestors_limit limits) [] []
            (status_context_parent item);
  Ok (reverse <$> found).

(** The inner loop of [status_descendants] over the replies of one status:
    whether the limit stops the search, the descendants and the queue. *)
Fixpoint take_replies (d : Db) (viewer : option AccountId) (limit depth : nat)
    (seen : list StatusContextParent) (replies found : list StatusContextItem)
    (queue : list (StatusContextParent * nat)) :
    Res (bool * list StatusContextItem * list (StatusContextParent * nat))%type :=
  match replies with
  | [] => Ok (false, found, queue)
  | reply :: replies =>
      if decide (limit <= length found)%nat then Ok (true, found, queue)
      else if decide (item_ref reply ∈ seen) then take_replies d viewer limit depth seen replies found queue
      else
        visible ← status_context_item_visible d reply viewer;
        if negb visible then take_replies d viewer limit depth seen replies found queue
        else take_replies d viewer limit depth seen replies (found ++ [reply])
               (queue ++ [(item_ref reply, S depth)])
  end.

Definition too_deep (limits : StatusContextLimits) (depth : nat) : bool :=
  match descendants_depth limits with Some m => bool_decide (m <= depth)%nat | None => false end.

(** The queue of [status_descendants]. *)
Fixpoint search_descendants (d : Db) (viewer : option AccountId) (limits : StatusContextLimits)
    (fuel : nat) (seen : list StatusContextParent) (found : list StatusContextItem)
    (queue : list (StatusContextParent * nat)) : Res (option (list StatusContextItem)) :=
  match queue with
  | [] => Ok (Some found)
  | (p, depth) :: queue =>
      match fuel with
      | O => Ok None
      | S fuel =>
          if decide (p ∈ seen) then search_descendants d viewer limits fuel seen found queue
          else if too_deep limits depth
          then search_descendants d viewer limits fuel (p :: seen) found queue
          else
            taken ← take_replies d viewer (descendants_limit limits) depth (p :: seen)
                      (status_context_replies d p) found queue;
            let '(stop, found, queue) := taken in
            if (stop : bool) then Ok (Some found)
            else search_descendants d viewer limits fuel (p :: seen) found queue
      end
  end.

(** Every status enters the queue at most once, after the root. *)
Definition status_descendants (d : Db) (item : StatusContextItem) (viewer : option AccountId)
    (limits : StatusContextLimits) : Res (option (list StatusContextItem)) :=
  search_descendants d viewer limits (S (descendants_limit limits)) [] [] [(item_ref item, 0%nat)].

(** [visible_status_thread_on]: the status, its ancestors from the root, and its
    descendants. *)
Definition visible_status_thread_on (d : Db) (i : uuid) (viewer : option AccountId) :
    Res (option (StatusContextItem * option (list StatusContextItem) * option (list StatusContextItem)))%type :=
  match find_status_context_item d i with
  | None => Ok None
  | Some item =>
      visible ← status_context_item_visible d item viewer;
      if negb visible then Ok None
      else
        let limits := for_viewer viewer in
        above ← status_ancestors d item viewer limits;
        below ← status_descendants d item viewer limits;
        Ok (Some (item, above, below))
  end.
End Thread.
