(* ===== verification/ThreadsInvariant.v ===== *)
(** Threads: the ancestors of a status are the visible chain above it, its
    descendants are the visible replies below it, both searches end within their
    limits, and nobody is shown a status that its visibility, a block or a
    suspension hides. *)
From S2P Require Import Prelude Core Text Statuses Threads.
From S2P Require Notifications Relations DomainPolicy.

#[local] Existing Instance Threads.result_ret.
#[local] Existing Instance Threads.result_bind.
#[local] Existing Instance Relations.RemoteFollowState_eq_dec.

Lemma res_bind_Ok {A B} (m : Res A) (k : A -> Res B) b :
  mbind (M := Res) k m = Ok b <-> exists a, m = Ok a /\ k a = Ok b.
Proof. destruct m; unfold mbind, result_bind; naive_solver. Qed.

(** * Statuses and references *)

Lemma find_parent_ref d p item : find_status_context_parent d p = Some item -> item_ref item = p.
Proof.
  unfold find_status_context_parent, live_local, live_remote.
  destruct p as [i|i]; [destruct (local_statuses _ !! i)|destruct (remote_statuses _ !! i)];
    try done; case_bool_decide; by intros [= <-].
Qed.

(** A live status is the one its reference finds. *)
Definition live (d : Db) (item : StatusContextItem) : Prop :=
  find_status_context_parent d (item_ref item) = Some item.

Lemma find_parent_live d p item : find_status_context_parent d p = Some item -> live d item.
Proof. intros Hf. unfold live. by rewrite (find_parent_ref d p item). Qed.

Lemma live_inj d x y : live d x -> live d y -> item_ref x = item_ref y -> x = y.
Proof. unfold live. intros Hx Hy Heq. congruence. Qed.

Lemma elem_of_local_replies d column i item :
  item ∈ local_replies d column i <->
  exists k s, item = LocalItem k s /\ live d item /\ column s = Some i.
Proof.
  unfold local_replies. rewrite list_elem_of_fmap. split.
  - intros ([k s] & -> & Hin). apply list_elem_of_In, filter_In in Hin as [Hin Hp].
    apply list_elem_of_In, elem_of_map_to_list in Hin.
    apply andb_true_iff in Hp as [Hp%bool_decide_eq_true Hl]. exists k, s. split_and!; [done| |done].
    unfold live, live_local. cbn. unfold live_local. simpl in *. by rewrite Hin, Hl.
  - intros (k & s & -> & Hl & Hc). unfold live in Hl. cbn in Hl. unfold live_local in Hl.
    destruct (local_statuses _ !! k) as [s'|] eqn:Hk; [|done].
    destruct (bool_decide _) eqn:Hd; [|done]. injection Hl as ->.
    exists (k, s). split; [done|]. apply list_elem_of_In, filter_In. split.
    + by apply list_elem_of_In, elem_of_map_to_list.
    + cbn. by rewrite Hd, bool_decide_eq_true_2.
Qed.

Lemma elem_of_remote_replies d column i item :
  item ∈ remote_replies d column i <->
  exists k s, item = RemoteItem k s /\ live d item /\ column s = Some i.
Proof.
  unfold remote_replies. rewrite list_elem_of_fmap. split.
  - intros ([k s] & -> & Hin). apply list_elem_of_In, filter_In in Hin as [Hin Hp].
    apply list_elem_of_In, elem_of_map_to_list in Hin.
    apply andb_true_iff in Hp as [Hp%bool_decide_eq_true Hl]. exists k, s. split_and!; [done| |done].
    unfold live, live_remote. cbn. unfold live_remote. simpl in *. by rewrite Hin, Hl.
  - intros (k & s & -> & Hl & Hc). unfold live in Hl. cbn in Hl. unfold live_remote in Hl.
    destruct (remote_statuses _ !! k) as [s'|] eqn:Hk; [|done].
    destruct (bool_decide _) eqn:Hd; [|done]. injection Hl as ->.
    exists (k, s). split; [done|]. apply list_elem_of_In, filter_In. split.
    + by apply list_elem_of_In, elem_of_map_to_list.
    + cbn. by rewrite Hd, bool_decide_eq_true_2.
Qed.

(** The columns of a status that may name its parent. *)
Definition replies_to (item : StatusContextItem) (p : StatusContextParent) : Prop :=
  match item, p with
  | LocalItem _ s, LocalParent i => ls_in_reply_to s = Some i
  | LocalItem _ s, RemoteParent i => ls_in_reply_to_remote s = Some i
  | RemoteItem _ s, LocalParent i => rs_in_reply_to_local s = Some i
  | RemoteItem _ s, RemoteParent i => rs_in_reply_to_remote s = Some i
  end.

Lemma elem_of_replies d p item :
  item ∈ status_context_replies d p <-> live d item /\ replies_to item p.
Proof.
  unfold status_context_replies. rewrite order_by_Permutation.
  destruct p as [i|i]; rewrite elem_of_app, elem_of_local_replies, elem_of_remote_replies;
    (split; [by intros [(k & s & -> & ? & ?)|(k & s & -> & ? & ?)]|]);
    intros [Hl Hr]; destruct item as [k s|k s]; eauto 6.
Qed.

Lemma NoDup_fmap_entries {V} (f : uuid * V -> StatusContextItem) (p : uuid * V -> bool) (t : gmap uuid V) :
  (forall x y, f x = f y -> x = y) -> NoDup (f <$> List.filter p (map_to_list t)).
Proof.
  intros Hinj. apply NoDup_fmap_2; [exact Hinj|].
  pose proof (NoDup_map_to_list t) as Hnd. revert Hnd. generalize (map_to_list t). intros l.
  induction l as [|x l IH]; simpl; [done|]. intros [Hx Hnd]%NoDup_cons.
  destruct (p x); [|auto]. constructor; [|auto].
  intros Hin. apply list_elem_of_In, filter_In in Hin as [Hin _]. apply Hx. by apply list_elem_of_In.
Qed.

Lemma NoDup_replies d p : NoDup (status_context_replies d p).
Proof.
  unfold status_context_replies. rewrite order_by_Permutation.
  destruct p as [i|i]; apply NoDup_app; split_and!;
    try (apply NoDup_fmap_entries; by intros [? ?] [? ?] [= -> ->]);
    intros x Hx Hy; apply elem_of_local_replies in Hx as (? & ? & -> & _);
    by apply elem_of_remote_replies in Hy as (? & ? & [=] & _).
Qed.

(** * The searches *)

Section Thread.
Context (host_domain : text -> option text) (d : Db) (viewer : option AccountId).

Definition visible (item : StatusContextItem) : Prop :=
  status_context_item_visible host_domain d item viewer = Ok true.

(** Nearest first, each status is the live parent of the one before it. *)
Fixpoint parent_chain (next : option StatusContextParent) (l : list StatusContextItem) : Prop :=
  match l with
  | [] => True
  | x :: l => next = Some (item_ref x) /\ live d x /\ parent_chain (status_context_parent x) l
  end.

(** What follows the last status of a chain. *)
Fixpoint chain_next (next : option StatusContextParent) (l : list StatusContextItem) :
    option StatusContextParent :=
  match l with [] => next | x :: l => chain_next (status_context_parent x) l end.

Ltac stop_here :=
  exists []; rewrite app_nil_r; split_and!;
  [done|lia|constructor|apply NoDup_nil_2|by intros ? ?%not_elem_of_nil|done|].

Lemma climb_spec limit fuel seen found next r :
  climb_ancestors host_domain d viewer limit fuel seen found next = Ok r ->
  (length found + fuel = limit)%nat ->
  exists l, r = Some (found ++ l) /\ (length (found ++ l) <= limit)%nat /\ Forall visible l /\
    NoDup (item_ref <$> l) /\ (forall x, x ∈ l -> item_ref x ∉ seen) /\ parent_chain next l /\
    (length (found ++ l) = limit \/ chain_next next l = None \/
     exists p, chain_next next l = Some p /\
       (p ∈ reverse (item_ref <$> l) ++ seen \/ find_status_context_parent d p = None \/
        exists x, find_status_context_parent d p = Some x /\ ~ visible x)).
Proof.
  revert seen found next. induction fuel as [|fuel IH]; intros seen found next Hrun Hlen;
    (destruct next as [p|]; simpl in Hrun; [|injection Hrun as <-; stop_here; auto]).
  - case_decide as Hl; [|lia]. injection Hrun as <-. stop_here. left. lia.
  - case_decide as Hl; [lia|]. case_decide as Hs.
    { injection Hrun as <-. stop_here. right. right. exists p. auto. }
    destruct (find_status_context_parent d p) as [x|] eqn:Hf.
    2:{ injection Hrun as <-. stop_here. right. right. exists p. auto. }
    apply res_bind_Ok in Hrun as ([] & Hv & Hrun); simpl in Hrun.
    2:{ injection Hrun as <-. stop_here. right. right. exists p. split; [done|].
        right. right. exists x. split; [done|]. unfold visible. by rewrite Hv. }
    apply IH in Hrun as (l & -> & Hle & Hvis & Hnd & Hsep & Hch & Hend);
      [|rewrite length_app; simpl; lia].
    pose proof (find_parent_ref d p x Hf) as Href. exists (x :: l).
    rewrite <- app_assoc in Hle, Hend |- *. split_and!; [done|done|by constructor| | | |].
    + csimpl. constructor; [|done]. rewrite Href. intros [y [Hy Hin]]%list_elem_of_fmap.
      apply (Hsep y Hin). rewrite <- Hy. left.
    + intros y [->|Hy]%elem_of_cons; [by rewrite Href|]. specialize (Hsep y Hy). set_solver.
    + simpl. rewrite Href. split_and!; [done| |done]. by apply (find_parent_live d p).
    + destruct Hend as [?|[?|(q & Hq & Hend)]]; [by left|by right; left|]. right. right.
      exists q. split; [done|]. destruct Hend as [Hin|?]; [|by right]. left. csimpl.
      rewrite reverse_cons, Href, <- app_assoc. done.
Qed.

(** ** Replies *)

Lemma take_replies_spec limit depth seen replies found queue stop found' queue' :
  take_replies host_domain d viewer limit depth seen replies found queue = Ok (stop, found', queue') ->
  exists l, found' = found ++ l /\ queue' = queue ++ ((fun y => (item_ref y, S depth)) <$> l) /\
    l `sublist_of` replies /\ Forall visible l /\ (forall y, y ∈ l -> item_ref y ∉ seen) /\
    (length found <= limit -> length found' <= limit)%nat /\
    (stop = true -> (limit <= length found')%nat) /\
    (stop = false -> forall y, y ∈ replies -> visible y -> item_ref y ∈ seen \/ y ∈ l).
Proof.
  revert found queue. induction replies as [|y replies IH]; intros found queue Hrun; simpl in Hrun.
  { injection Hrun as <- <- <-. exists []. rewrite !app_nil_r.
    split_and!; [done|done|constructor|constructor|by intros ? ?%not_elem_of_nil|done|done|].
    by intros _ ? ?%not_elem_of_nil. }
  case_decide as Hl.
  { injection Hrun as <- <- <-. exists []. rewrite !app_nil_r.
    split_and!; [done|done|apply sublist_nil_l|constructor|by intros ? ?%not_elem_of_nil|done|done|done]. }
  case_decide as Hs.
  { apply IH in Hrun as (l & ? & ? & ? & ? & ? & ? & ? & Hall). exists l.
    split_and!; try done; [by apply sublist_cons|].
    intros Hstop z [->|Hz]%elem_of_cons Hv; [by left|by apply Hall]. }
  apply res_bind_Ok in Hrun as (b & Hb & Hrun). destruct b; simpl in Hrun.
  - apply IH in Hrun as (l & -> & -> & Hsub & Hvis & Hsep & Hlen & Hstop & Hall). exists (y :: l).
    rewrite <- !app_assoc. split_and!; [done|done|by apply sublist_skip|by constructor| | | |].
    + intros z [->|Hz]%elem_of_cons; [done|by apply Hsep].
    + intros _. rewrite app_assoc. apply Hlen. rewrite length_app. simpl. lia.
    + rewrite app_assoc. exact Hstop.
    + intros Hf z [->|Hz]%elem_of_cons Hv; [right; left|].
      destruct (Hall Hf z Hz Hv); [by left|right; by right].
  - apply IH in Hrun as (l & ? & ? & ? & ? & ? & ? & ? & Hall). exists l.
    split_and!; try done; [by apply sublist_cons|].
    intros Hf z [->|Hz]%elem_of_cons Hv; [|by apply Hall].
    unfold visible in Hv. congruence.
Qed.

(** [below root n y]: [y] is a reply, [n] steps under [root], and every status
    on the way is visible. *)
Inductive below (root : StatusContextParent) : nat -> StatusContextItem -> Prop :=
| below_root y : y ∈ status_context_replies d root -> visible y -> below root 1 y
| below_step n x y :
    below root n x -> y ∈ status_context_replies d (item_ref x) -> visible y -> below root (S n) y.

(** A status replies to at most one status. *)
Definition one_parent : Prop :=
  forall x p q, live d x -> replies_to x p -> replies_to x q -> p = q.

Definition within (limits : StatusContextLimits) (n : nat) : Prop :=
  match descendants_depth limits with Some m => (n <= m)%nat | None => True end.

Section Search.
Context (root : StatusContextParent) (limits : StatusContextLimits).

Record search_ok (fuel : nat) (seen : list StatusContextParent) (found : list StatusContextItem)
    (queue : list (StatusContextParent * nat)) : Prop := {
  so_found x : x ∈ found -> item_ref x <> root /\ exists n, below root n x /\ within limits n;
  so_source x : x ∈ found -> exists p, p ∈ seen /\ x ∈ status_context_replies d p;
  so_queue p n : (p, n) ∈ queue ->
    (p = root /\ n = 0%nat) \/ exists x, x ∈ found /\ item_ref x = p /\ below root n x;
  so_done x : x ∈ found -> item_ref x ∈ seen \/ item_ref x ∈ fst <$> queue;
  so_seen p : p ∈ seen -> p = root \/ exists x, x ∈ found /\ item_ref x = p;
  so_root : root ∈ seen \/ fst <$> head queue = Some root;
  so_once : one_parent -> NoDup found;
  so_fuel : (fuel + length found = descendants_limit limits + length queue)%nat;
  so_limit : (length found <= descendants_limit limits)%nat;
}.

(** Every visible reply of a status that was searched is found. *)
Definition closed (seen : list StatusContextParent) (found : list StatusContextItem) : Prop :=
  forall p y, p ∈ seen -> y ∈ status_context_replies d p -> visible y -> item_ref y = root \/ y ∈ found.

Lemma search_ok_start : search_ok (S (descendants_limit limits)) [] [] [(root, 0%nat)].
Proof.
  split.
  - by intros x ?%not_elem_of_nil.
  - by intros x ?%not_elem_of_nil.
  - intros p n Hin. apply list_elem_of_singleton in Hin. simplify_eq. by left.
  - by intros x ?%not_elem_of_nil.
  - by intros p ?%not_elem_of_nil.
  - by right.
  - intros _. apply NoDup_nil_2.
  - simpl. lia.
  - simpl. lia.
Qed.

(** A queued status that is skipped. *)
Lemma search_ok_skip fuel seen found p n queue (add : list StatusContextParent) :
  p ∈ add ++ seen -> (forall q, q ∈ add -> q = p) ->
  search_ok (S fuel) seen found ((p, n) :: queue) -> search_ok fuel (add ++ seen) found queue.
Proof.
  intros Hp Hadd [H1 H2 H3 H4 H6 H5 H7 H8 H9]. split; try done.
  - intros x Hx. destruct (H2 x Hx) as (q & ? & ?). exists q. split; [set_solver|done].
  - intros q m Hq. apply H3. by right.
  - intros x Hx. destruct (H4 x Hx) as [?|Hin]; [left; set_solver|].
    csimpl in Hin. apply elem_of_cons in Hin as [->|?]; [by left|by right].
  - intros q [->%Hadd|Hq]%elem_of_app; [|auto].
    destruct (H3 p n ltac:(left)) as [[-> _]|(x & ? & ? & _)]; [by left|eauto].
  - left. destruct H5 as [?|[= <-]]; [set_solver|done].
  - simpl in H8. lia.
Qed.

(** The replies of a queued status join the descendants and the queue. *)
Lemma search_ok_grow fuel seen found p n queue stop found' queue' :
  search_ok (S fuel) seen found ((p, n) :: queue) -> p ∉ seen -> too_deep limits n = false ->
  take_replies host_domain d viewer (descendants_limit limits) n (p :: seen)
    (status_context_replies d p) found queue = Ok (stop, found', queue') ->
  search_ok fuel (p :: seen) found' queue' /\
  (stop = true -> length found' = descendants_limit limits) /\
  (stop = false -> closed seen found -> closed (p :: seen) found').
Proof.
  intros [H1 H2 H3 H4 H6 H5 H7 H8 H9] Hp Hdepth
    (l & -> & -> & Hsub & Hvis & Hsep & Hlen & Hstop & Hall)%take_replies_spec.
  assert (root ∈ p :: seen) as Hroot by (destruct H5 as [?|[= <-]]; [by right|by left]).
  assert (Hreply : forall y, y ∈ l -> y ∈ status_context_replies d p)
    by (intros y Hy; eapply elem_of_submseteq; [exact Hy|by apply sublist_submseteq]).
  assert (Hbelow : forall y, y ∈ l -> below root (S n) y).
  { intros y Hy. rewrite Forall_forall in Hvis. destruct (H3 p n ltac:(left)) as [[-> ->]|(x & _ & <- & Hx)].
    - apply below_root; auto.
    - eapply below_step; eauto. }
  assert (Hknown : forall q, q ∈ p :: seen -> q = root \/ exists x, x ∈ found /\ item_ref x = q).
  { intros q [->|Hq]%elem_of_cons; [|auto].
    destruct (H3 p n ltac:(left)) as [[-> _]|(x & ? & ? & _)]; eauto. }
  assert (Hlimit : (length (found ++ l) <= descendants_limit limits)%nat) by auto.
  split_and!; [split|intros Hs; specialize (Hstop Hs); lia|].
  - intros x [Hx|Hx]%elem_of_app; [auto|]. split; [intros Hr; by apply (Hsep x Hx); rewrite Hr|].
    exists (S n). split; [auto|]. unfold within. unfold too_deep in Hdepth.
    destruct (descendants_depth limits) as [m|]; [|done]. apply bool_decide_eq_false in Hdepth. lia.
  - intros x [Hx|Hx]%elem_of_app; [|exists p; split; [left|auto]].
    destruct (H2 x Hx) as (q & ? & ?). exists q. split; [by right|done].
  - intros q m [Hq|Hq]%elem_of_app.
    + destruct (H3 q m ltac:(by right)) as [?|(x & ? & ? & ?)]; [by left|right].
      exists x. split; [apply elem_of_app; by left|done].
    + apply list_elem_of_fmap in Hq as (y & [= -> ->] & Hy). right. exists y.
      split; [apply elem_of_app; by right|auto].
  - intros x [Hx|Hx]%elem_of_app; rewrite fmap_app, elem_of_app.
    + destruct (H4 x Hx) as [?|Hin]; [left; by right|]. csimpl in Hin.
      apply elem_of_cons in Hin as [->|?]; [left; left|right; by left].
    + right. right. rewrite <- list_fmap_compose. by apply (list_elem_of_fmap_2 _ _ x).
  - intros q Hq. destruct (Hknown q Hq) as [?|(x & ? & ?)]; [by left|right].
    exists x. split; [apply elem_of_app; by left|done].
  - by left.
  - intros Hone. apply NoDup_app. split_and!; [auto| |].
    + intros x Hx Hxl. destruct (H2 x Hx) as (q & Hq & Hxq).
      apply elem_of_replies in Hxq as [Hlive Hrq]. apply Hreply, elem_of_replies in Hxl as [_ Hrp].
      apply Hp. by rewrite (Hone x p q Hlive Hrp Hrq).
    + eapply sublist_NoDup; [apply NoDup_replies|exact Hsub].
  - rewrite !length_app, length_fmap. simpl in H8. lia.
  - done.
  - intros Hs Hc q y [->|Hq]%elem_of_cons Hy Hv.
    + destruct (Hall Hs y Hy Hv) as [Hin|Hin]; [|right; apply elem_of_app; by right].
      destruct (Hknown _ Hin) as [?|(x & Hx & Href)]; [by left|right]. apply elem_of_app. left.
      destruct (H2 x Hx) as (r & _ & [Hlx _]%elem_of_replies). apply elem_of_replies in Hy as [Hly _].
      by rewrite <- (live_inj d x y Hlx Hly Href).
    + destruct (Hc q y Hq Hy Hv) as [?|?]; [by left|right; apply elem_of_app; by left].
Qed.

Lemma search_spec fuel seen found queue r :
  search_ok fuel seen found queue -> (descendants_depth limits = None -> closed seen found) ->
  search_descendants host_domain d viewer limits fuel seen found queue = Ok r ->
  exists found', r = Some found' /\ (exists fuel' seen' queue', search_ok fuel' seen' found' queue' /\
    (length found' = descendants_limit limits \/
     queue' = [] /\ (descendants_depth limits = None -> closed seen' found'))).
Proof.
  revert seen found queue. induction fuel as [|fuel IH]; intros seen found [|[p n] queue] Hok Hc Hrun;
    simpl in Hrun.
  - injection Hrun as <-. eauto 10.
  - destruct Hok. simpl in *. lia.
  - injection Hrun as <-. eauto 10.
  - case_decide as Hp.
    { apply (IH seen found queue); [|done|done].
      by apply (search_ok_skip fuel seen found p n queue []); [|by intros ? ?%not_elem_of_nil|]. }
    destruct (too_deep limits n) eqn:Hdeep.
    { apply (IH (p :: seen) found queue); [| |done].
      - apply (search_ok_skip fuel seen found p n queue [p]); [by left| |done].
        by intros q ->%list_elem_of_singleton.
      - unfold too_deep in Hdeep. intros Hn. by rewrite Hn in Hdeep. }
    apply res_bind_Ok in Hrun as ([[stop found1] queue1] & Htake & Hrun).
    destruct (search_ok_grow fuel seen found p n queue stop found1 queue1 Hok Hp Hdeep Htake)
      as (Hok' & Hstop & Hclosed).
    destruct stop.
    + injection Hrun as <-. exists found1. split; [done|]. exists fuel, (p :: seen), queue1.
      split; [done|]. left. by apply Hstop.
    + apply (IH (p :: seen) found1 queue1); [done| |done]. auto.
Qed.
End Search.

(** The search for the ancestors of a status always ends within its limit. It
    returns distinct visible statuses, from the root of the thread down to the
    direct parent, each the parent of the next; and it goes as far as it can: it
    stops only at the limit, at a status that is no reply, at a parent that was
    visited, or at a parent that is missing, deleted or hidden from the viewer. *)
Theorem ancestors_are_visible_chain (item : StatusContextItem) (limits : StatusContextLimits)
    (r : option (list StatusContextItem)) :
  status_ancestors host_domain d item viewer limits = Ok r ->
  exists above, r = Some above /\ (length above <= ancestors_limit limits)%nat /\
    Forall visible above /\ NoDup (item_ref <$> above) /\
    parent_chain (status_context_parent item) (reverse above) /\
    (length above = ancestors_limit limits \/
     chain_next (status_context_parent item) (reverse above) = None \/
     exists p, chain_next (status_context_parent item) (reverse above) = Some p /\
       (p ∈ item_ref <$> above \/ find_status_context_parent d p = None \/
        exists x, find_status_context_parent d p = Some x /\ ~ visible x)).
Proof.
  unfold status_ancestors. intros (found & Hrun & [= <-])%res_bind_Ok.
  apply climb_spec in Hrun as (l & -> & Hle & Hvis & Hnd & _ & Hch & Hend); [|done]. simpl in *.
  exists (reverse l). rewrite reverse_involutive, length_reverse, fmap_reverse.
  rewrite app_nil_r in Hend. split_and!; [done|done| |by rewrite reverse_Permutation|done|done].
  by apply Forall_reverse.
Qed.

(** C23. The search for the replies below a status always ends within its limit.
    What it returns is visible, is not the status itself, and lies below it
    through visible statuses, at most as deep as the depth limit; no status is
    returned twice when statuses reply to one status only.  Without a depth
    limit, a result shorter than the limit is complete: every other visible
    status below through visible statuses is in it. *)
Theorem descendants_are_visible_replies (item : StatusContextItem) (limits : StatusContextLimits)
    (r : option (list StatusContextItem)) :
  status_descendants host_domain d item viewer limits = Ok r ->
  exists below_item, r = Some below_item /\ (length below_item <= descendants_limit limits)%nat /\
    (forall x, x ∈ below_item ->
       visible x /\ item_ref x <> item_ref item /\
       exists n, below (item_ref item) n x /\ within limits n) /\
    (one_parent -> NoDup below_item) /\
    (descendants_depth limits = None -> (length below_item < descendants_limit limits)%nat ->
     forall n x, below (item_ref item) n x -> item_ref x <> item_ref item -> x ∈ below_item).
Proof.
  intros Hrun. unfold status_descendants in Hrun.
  apply (search_spec (item_ref item) limits) in Hrun as (found & -> & fuel & seen & queue & Hok & Hend);
    [|apply search_ok_start|by intros _ p y ?%not_elem_of_nil].
  exists found. split; [done|]. split; [by destruct Hok|].
  split; [|split; [by destruct Hok|]].
  - intros x Hx. destruct (so_found _ _ _ _ _ _ Hok x Hx) as (Hne & n & Hb & Hw).
    split_and!; [by destruct Hb|done|eauto].
  - intros Hdepth Hlen n x Hb. destruct Hend as [?|[-> Hc]]; [lia|]. specialize (Hc Hdepth).
    assert (item_ref item ∈ seen) as Hroot by (by destruct (so_root _ _ _ _ _ _ Hok)).
    induction Hb as [y Hy Hv|n x y Hb IH Hy Hv]; intros Hne.
    + by destruct (Hc _ y Hroot Hy Hv).
    + assert (item_ref x ∈ seen) as Hx.
      { destruct (decide (item_ref x = item_ref item)) as [->|Hnx]; [done|].
        destruct (so_done _ _ _ _ _ _ Hok x (IH Hnx)) as [?|?%not_elem_of_nil]; done. }
      by destruct (Hc _ y Hx Hy Hv).
Qed.
End Thread.

(** * Who may see a status *)

(** The promise of the visibility levels: [v] is the viewer, if any. *)
Definition may_see (host_domain : text -> option text) (d : Db) (viewer : option AccountId)
    (item : StatusContextItem) : Prop :=
  match item with
  | LocalItem i s =>
      (exists author, Relations.local_accounts (relations_db d) !! ls_account s = Some author /\
         Relations.account_suspended_at author = None) /\
      match viewer with
      | None => is_public (ls_visibility s) = true
      | Some v =>
          account_uuid v = ls_account s \/
          Relations.local_pair_blocked v (mkAccountId (ls_account s)) (relations_db d) = false /\
          (is_public (ls_visibility s) = true \/
           (i, account_uuid v) ∈ local_recipients d \/
           ls_visibility s = Private /\
           is_Some (Relations.local_follows (relations_db d) !! (account_uuid v, ls_account s)))
      end
  | RemoteItem i s =>
      (exists author policy, Relations.remote_actors (relations_db d) !! rs_actor s = Some author /\
         Relations.actor_deleted_at author = None /\ Relations.actor_suspended_at author = None /\
         rs_actor s ∉ purged_actors d /\
         domain_policy host_domain d (Relations.actor_domain author) = Ok policy /\
         DomainPolicy.is_suspended policy = false) /\
      match viewer with
      | None => is_public (rs_visibility s) = true
      | Some v =>
          Relations.local_remote_blocks (relations_db d) !! (account_uuid v, rs_actor s) = None /\
          (is_public (rs_visibility s) = true \/
           (i, account_uuid v) ∈ remote_recipients d \/
           rs_visibility s = Private /\
           exists f, Relations.remote_followings (relations_db d) !! (account_uuid v, rs_actor s) = Some f /\
             Relations.fg_state f = Relations.Accepted /\ Relations.fg_deactivated_at f = None)
      end
  end.

Section Permitted.
Context (host_domain : text -> option text) (d : Db).

(** Every cached actor is on a domain that has a policy. *)
Definition domains_ok : Prop :=
  forall a row, Relations.remote_actors (relations_db d) !! a = Some row ->
    exists n, DomainPolicy.normalize_federation_domain host_domain (Relations.actor_domain row) = Ok n.

Lemma visible_total viewer item :
  domains_ok -> exists b, status_context_item_visible host_domain d item viewer = Ok b.
Proof.
  intros Hd. destruct item as [i s|i s]; simpl.
  - destruct (Relations.local_accounts _ !! _); [case_bool_decide|]; eauto.
  - destruct (Relations.remote_actors _ !! _) as [row|] eqn:Hrow; [|eauto].
    destruct (_ || _); [eauto|]. destruct (Hd _ _ Hrow) as [n Hn].
    unfold domain_policy, DomainPolicy.federation_domain_suffixes. rewrite Hn.
    cbn. destruct (DomainPolicy.is_suspended _); [eauto|]. destruct viewer; eauto.
Qed.

Lemma climb_total viewer limit fuel seen found next :
  domains_ok -> exists r, climb_ancestors host_domain d viewer limit fuel seen found next = Ok r.
Proof.
  intros Hd. revert seen found next.
  induction fuel as [|fuel IH]; intros seen found [p|]; simpl; try (by eauto);
    case_decide; try (by eauto); case_decide; try (by eauto);
    destruct (find_status_context_parent d p) as [x|]; try (by eauto);
    destruct (visible_total viewer x Hd) as [[] Hv]; rewrite Hv; simpl; eauto.
Qed.

Lemma take_replies_total viewer limit depth seen replies found queue :
  domains_ok -> exists r, take_replies host_domain d viewer limit depth seen replies found queue = Ok r.
Proof.
  intros Hd. revert found queue. induction replies as [|y replies IH]; intros found queue; simpl; [eauto|].
  case_decide; [eauto|]. case_decide; [eauto|].
  destruct (visible_total viewer y Hd) as [[] Hv]; rewrite Hv; simpl; eauto.
Qed.

Lemma search_total viewer limits fuel seen found queue :
  domains_ok -> exists r, search_descendants host_domain d viewer limits fuel seen found queue = Ok r.
Proof.
  intros Hd. revert seen found queue.
  induction fuel as [|fuel IH]; intros seen found [|[p n] queue]; simpl; try (by eauto).
  case_decide; [eauto|]. destruct (too_deep limits n); [eauto|].
  destruct (take_replies_total viewer (descendants_limit limits) n (p :: seen)
    (status_context_replies d p) found queue Hd) as [[[stop found'] queue'] Hr].
  rewrite Hr. simpl. destruct stop; eauto.
Qed.

(** The decision procedure of the code decides the promise. *)
Lemma visible_may_see viewer item b :
  status_context_item_visible host_domain d item viewer = Ok b ->
  b = true <-> may_see host_domain d viewer item.
Proof.
  destruct item as [i s|i s]; simpl.
  - destruct (Relations.local_accounts _ !! _) as [author|]; [|naive_solver].
    case_bool_decide as Hs; intros [= <-]; [|naive_solver].
    unfold status_visible_to_viewer, can_view_status, local_status_visible_to_account.
    destruct viewer as [v|]; [|rewrite orb_false_r; naive_solver].
    destruct (Relations.local_pair_blocked v (mkAccountId (ls_account s)) (relations_db d)).
    + case_bool_decide as Ha; simpl; [|naive_solver].
      rewrite orb_true_r. naive_solver.
    + rewrite andb_false_r. destruct (is_public (ls_visibility s)) eqn:Hp; simpl; [naive_solver|].
      case_bool_decide as Ha; simpl; [naive_solver|].
      case_bool_decide as Ha'; [naive_solver|].
      destruct (ls_visibility s); try done; rewrite ?orb_true_iff, ?bool_decide_eq_true; naive_solver.
  - destruct (Relations.remote_actors _ !! _) as [author|]; [|naive_solver].
    destruct (negb _ || negb _ || _) eqn:Hgone.
    { intros [= <-]. split; [done|]. intros [(a & p & [= <-] & H1 & H2 & H3 & _) _].
      rewrite (bool_decide_eq_true_2 _ H1), (bool_decide_eq_true_2 _ H2),
        (bool_decide_eq_false_2 _ H3) in Hgone. done. }
    apply orb_false_iff in Hgone as [[H1%negb_false_iff%bool_decide_eq_true
      H2%negb_false_iff%bool_decide_eq_true]%orb_false_iff H3%bool_decide_eq_false].
    intros (policy & Hpol & Hrun)%res_bind_Ok.
    destruct (DomainPolicy.is_suspended policy) eqn:Hsus.
    { injection Hrun as <-. split; [done|]. intros [(a & q & [= <-] & _ & _ & _ & Hq & Hf) _]. congruence. }
    destruct viewer as [v|]; injection Hrun as <-; [|naive_solver].
    unfold remote_status_visible_to_account. case_bool_decide as Hblock.
    { split; [done|]. intros [_ [Hn _]]. rewrite Hn in Hblock. by destruct Hblock. }
    apply eq_None_not_Some in Hblock.
    destruct (is_public (rs_visibility s)) eqn:Hp; [naive_solver|].
    destruct (rs_visibility s); try done; rewrite ?orb_true_iff, ?bool_decide_eq_true.
    2:{ naive_solver. }
    destruct (Relations.remote_followings _ !! _) as [f|]; rewrite ?andb_true_iff, ?bool_decide_eq_true;
      naive_solver.
Qed.

Lemma found_item i item :
  find_status_context_item d i = Some item -> item_id item = i.
Proof.
  unfold find_status_context_item, live_local, live_remote.
  destruct (local_statuses _ !! i) as [s|]; [case_bool_decide; [by intros [= <-]|]|];
    (destruct (remote_statuses _ !! i) as [r|]; [|done]); (case_bool_decide; [|done]); by intros [= <-].
Qed.

(** C9. Reading the thread of a status never fails or runs on when every cached
    actor is on a domain with a policy: a status that is missing, deleted or
    not for the viewer's eyes has no thread, and otherwise the thread holds at
    most the limits' number of ancestors and descendants.  Every status in it
    may be seen by the viewer: its author is not suspended, purged or on a
    suspended domain, no block stands between author and viewer, and a private
    or direct status is addressed to the viewer or, if private, to a follower. *)
Theorem thread_shows_only_permitted (i : uuid) (viewer : option AccountId) :
  domains_ok ->
  exists answer, visible_status_thread_on host_domain d i viewer = Ok answer /\
    match answer with
    | None => forall item, find_status_context_item d i = Some item ->
                ~ may_see host_domain d viewer item
    | Some (item, above, below_item) =>
        item_id item = i /\
        exists a b, above = Some a /\ below_item = Some b /\
          (length a <= ancestors_limit (for_viewer viewer))%nat /\
          (length b <= descendants_limit (for_viewer viewer))%nat /\
          forall x, x ∈ item :: a ++ b -> may_see host_domain d viewer x
    end.
Proof.
  intros Hd. unfold visible_status_thread_on.
  destruct (find_status_context_item d i) as [item|] eqn:Hitem; [|by exists None].
  destruct (visible_total viewer item Hd) as [v Hv]. rewrite Hv. simpl.
  pose proof (visible_may_see viewer item v Hv) as Hsee.
  destruct v; simpl; [|exists None; split; [done|]; intros ? [= <-]; naive_solver].
  set (limits := for_viewer viewer).
  destruct (climb_total viewer (ancestors_limit limits) (ancestors_limit limits) [] []
    (status_context_parent item) Hd) as [ra Ha].
  destruct (search_total viewer limits (S (descendants_limit limits)) [] []
    [(item_ref item, 0%nat)] Hd) as [rb Hb].
  unfold status_ancestors. rewrite Ha. cbn [mbind result_bind].
  unfold status_descendants. rewrite Hb. cbn [mbind result_bind].
  apply climb_spec in Ha as (l & -> & Hla & Hvis & _); [|done].
  apply (search_spec host_domain d viewer (item_ref item) limits) in Hb as (b & -> & fuel & seen & queue & Hok & _);
    [|apply search_ok_start|by intros _ p y ?%not_elem_of_nil].
  eexists. split; [reflexivity|]. split; [by apply found_item|].
  exists (reverse l), b. simpl in *. rewrite length_reverse.
  split_and!; [done|done|done|by destruct Hok|].
  intros x [->|[Hx|Hx]%elem_of_app]%elem_of_cons; [by apply Hsee| |].
  - rewrite Forall_forall in Hvis. rewrite elem_of_reverse in Hx.
    by apply (visible_may_see viewer x true (Hvis x Hx)).
  - destruct (so_found _ _ _ _ _ _ _ _ _ Hok x Hx) as (_ & n & Hbelow & _).
    apply (visible_may_see viewer x true); [|done]. by destruct Hbelow.
Qed.
End Permitted.

(** * A concrete thread *)

Definition sample_host (s : text) : option text := Some s.

Definition sample_note (author : uuid) (v : StatusVisibility) (parent remote_parent : option uuid) : LocalStatus :=
  mkLocalStatus author v false "" parent remote_parent 0 None.
Definition sample_remote_note (parent : option uuid) : RemoteStatus :=
  mkRemoteStatus 7 Public false "" None parent None 0 None.

Definition sample_relations : Relations.Db :=
  Relations.mkDb {[1%N := Relations.mkAccountRow true None None 0; 2%N := Relations.mkAccountRow true None None 0]}
    ∅ ∅ ∅ {[7%N := Relations.mkRemoteActorRow (lit "remote.example") None None None None None 0]}
    ∅ ∅ ∅ ∅ ∅ ∅ ∅ ∅ (Notifications.mkDb ∅ ∅ ∅ ∅).

(** 10 is public; 11 of actor 7 replies to it; 12, public, and 13, private to the
    followers of account 2, reply to 11. *)
Definition sample_threads : Db :=
  mkDb (DomainPolicy.mkDb ∅ ∅ (Statuses.mkDb
      {[10%N := sample_note 1 Public None None; 12%N := sample_note 1 Public None (Some 11%N);
        13%N := sample_note 2 Private None (Some 11%N)]}
      {[11%N := sample_remote_note (Some 10%N)]} ∅ ∅ sample_relations)) ∅ ∅ ∅.

Lemma sample_domains_ok : domains_ok sample_host sample_threads.
Proof.
  intros a row Hrow. simpl in Hrow. apply lookup_singleton_Some in Hrow as [<- <-].
  exists (lit "remote.example"). vm_compute. reflexivity.
Qed.

Lemma thread_shows_only_permitted_witness :
  exists a b, visible_status_thread_on sample_host sample_threads 11 None
    = Ok (Some (RemoteItem 11 (sample_remote_note (Some 10%N)), Some a, Some b)) /\
    item_id <$> a = [10%N] /\ item_id <$> b = [12%N] /\
    forall x, x ∈ a ++ b -> may_see sample_host sample_threads None x.
Proof.
  destruct (thread_shows_only_permitted sample_host sample_threads 11 None sample_domains_ok)
    as (answer & Hrun & Hans).
  pose proof Hrun as Hrun'. vm_compute in Hrun'. injection Hrun' as <-. cbv beta iota in Hans.
  destruct Hans as (_ & a & b & [= <-] & [= <-] & _ & _ & Hsee).
  eexists _, _. split; [exact Hrun|]. split; [reflexivity|]. split; [reflexivity|].
  intros x Hx. apply Hsee. right. exact Hx.
Defined.

Lemma ancestors_are_visible_chain_witness :
  exists above, status_ancestors sample_host sample_threads
      (LocalItem 12 (sample_note 1 Public None (Some 11%N))) None (for_viewer None) = Ok (Some above) /\
    item_id <$> above = [10%N; 11%N] /\ NoDup (item_ref <$> above).
Proof.
  destruct (ancestors_are_visible_chain sample_host sample_threads None
    (LocalItem 12 (sample_note 1 Public None (Some 11%N))) (for_viewer None)
    (Some [LocalItem 10 (sample_note 1 Public None None); RemoteItem 11 (sample_remote_note (Some 10%N))]))
    as (above & [= <-] & _ & _ & Hnd & _).
  - vm_compute. reflexivity.
  - eexists. split; [vm_compute; reflexivity|]. split; [reflexivity|exact Hnd].
Defined.

Lemma descendants_are_visible_replies_witness :
  exists below_item, status_descendants sample_host sample_threads
      (LocalItem 10 (sample_note 1 Public None None)) (Some (mkAccountId 2)) (for_viewer (Some (mkAccountId 2)))
      = Ok (Some below_item) /\
    item_id <$> below_item = [11%N; 12%N; 13%N] /\ (length below_item <= 4096)%nat.
Proof.
  destruct (descendants_are_visible_replies sample_host sample_threads (Some (mkAccountId 2))
    (LocalItem 10 (sample_note 1 Public None None)) (for_viewer (Some (mkAccountId 2)))
    (Some [RemoteItem 11 (sample_remote_note (Some 10%N));
           LocalItem 12 (sample_note 1 Public None (Some 11%N));
           LocalItem 13 (sample_note 2 Private None (Some 11%N))]))
    as (below_item & [= <-] & Hlen & _).
  - vm_compute. reflexivity.
  - eexists. split; [vm_compute; reflexivity|]. split; [reflexivity|exact Hlen].
Defined.
