(* ===== verification/Dispatch.v ===== *)
(** What the worker does with the payload of a claimed job
    ([worker_iteration] of [crates/server/src/main.rs] and the poll jobs of
    [crates/server/src/polls.rs]), and the agreement between the payloads that
    the components queue and the ones that their handlers read.

    A payload is JSON, so nothing in the types of the program says that a queued
    document has the members its handler asks for.  [typed_job] says it, for the
    kinds whose handlers are modelled. *)
From stdpp Require Import pretty.
From S2P Require Import Prelude Core Text.
From S2P Require Jobs Notifications Relations Statuses NotificationRequests Polls DomainPolicy.

#[local] Existing Instances Notifications.jobs_part Relations.notifications_part
  Statuses.relations_part NotificationRequests.statuses_part Polls.notifications_part
  Polls.jobs_part DomainPolicy.statuses_part.

(** * Handlers *)

(** A handler as a value of the [match] on the kind of the job: an error it
    reports is the [result] that the worker records, an error that leaves through
    [?] is the error of the operation. *)
Definition reported {S A} (m : Op S A) : Op S (result unit RoostyError) :=
  fun w s => match m w s with
             | (Ok _, w', s') => (Ok (Ok tt), w', s')
             | (Err e, w', s') => (Ok (Err e), w', s')
             end.

(** [.get(member).and_then(Value::as_str).ok_or_else(missing)?.parse().map_err(invalid)]:
    the outer error is raised by [?], the inner one is kept.  A string that parses
    as a UUID is a [JUuid]. *)
Definition uuid_member (member missing invalid : string) (payload : JsonValue) :
    result (result uuid RoostyError) RoostyError :=
  match Relations.json_get member payload with
  | Some (JUuid i) => Ok (Ok i)
  | Some (JString _) => Ok (Err (InvalidInput invalid))
  | _ => Err (InvalidInput missing)
  end.

(** The events that the merge job publishes to open streams are not stored. *)
Definition notification_request_merge_job (payload : JsonValue) :
    Op NotificationRequests.Db (result unit RoostyError) :=
  account ← lift_result (uuid_member "account_id" "notification merge job account_id is missing"
                           "notification merge job account_id is invalid" payload);
  match account with
  | Ok account => reported (NotificationRequests.merge_notification_requests (mkAccountId account))
  | Err error => mret (Err error)
  end.

Definition notification_request_cleanup_job (payload : JsonValue) :
    Op NotificationRequests.Db (result unit RoostyError) :=
  account ← lift_result (uuid_member "account_id" "notification cleanup job account_id is missing"
                           "notification cleanup job account_id is invalid" payload);
  match account with
  | Ok account => reported (NotificationRequests.cleanup_notification_requests (mkAccountId account))
  | Err error => mret (Err error)
  end.

(** [PollJobPayload], read by [serde_json::from_value]. *)
Definition poll_job_payload (invalid : string) (payload : JsonValue) : result uuid RoostyError :=
  match Relations.json_get "poll_id" payload with
  | Some (JUuid i) => Ok i
  | _ => Err (InvalidInput invalid)
  end.

(** The transaction of [expire_poll_job]; the notifications it returns are then
    published to open streams. *)
Definition expire_and_announce (uuid_text : uuid -> string) (poll : uuid) :
    Op Polls.Db (list Notifications.LocalNotification) :=
  expiration ← transaction (
    expiration ← Polls.expire_poll uuid_text poll;
    match expiration with
    | Some x =>
        if Polls.newly_expired x
        then match Polls.status (Polls.expiration_poll x) with
             | Polls.Local _ =>
                 now ← now_utc;
                 Polls.enqueue_poll_update uuid_text (Polls.poll_uuid (Polls.expiration_poll x)) now
             | Polls.Remote _ => mret tt
             end
        else mret tt
    | None => mret tt
    end;;
    mret (Commit expiration));
  mret (match expiration with Some x => Polls.expiration_notifications x | None => [] end).

Definition expire_poll_job (uuid_text : uuid -> string) (payload : JsonValue) :
    Op Polls.Db (list Notifications.LocalNotification) :=
  poll ← lift_result (poll_job_payload "invalid poll expiration payload" payload);
  expire_and_announce uuid_text poll.

(** * Typed queues *)

Section Typed.
Context (uuid_text : uuid -> string).

Definition poll_payload (poll : uuid) : JsonValue := JObject [("poll_id"%string, JUuid poll)].

(** The key of the expiration job of a poll, for one closing time. *)
Definition expiration_key (poll : uuid) (closes : time) : string :=
  (uuid_text poll +:+ ":" +:+ pretty closes)%string.

(** What a queued job of a kind carries: its payload, and the key that keeps one
    active job per subject. *)
Definition typed_job (kind : Jobs.JobKind) (payload : JsonValue) (key : option string) : Prop :=
  match kind with
  | Jobs.NotificationRequestMerge =>
      exists a, payload = NotificationRequests.account_payload a /\
        key = Some (NotificationRequests.merge_key uuid_text a)
  | Jobs.NotificationRequestCleanup =>
      exists a, payload = NotificationRequests.account_payload a /\
        key = Some (NotificationRequests.cleanup_key uuid_text a)
  | Jobs.DomainModerationReconcile =>
      exists i, payload = JObject [("domain_block_id"%string, JUuid i)] /\
        key = Some (DomainPolicy.reconciliation_key uuid_text i)
  | Jobs.PollExpiration =>
      exists p closes, payload = poll_payload p /\ key = Some (expiration_key p closes)
  | Jobs.PollUpdate => exists p, payload = poll_payload p /\ key = Some (uuid_text p)
  | _ => True
  end.

Definition typed_row (j : Jobs.Job) : Prop :=
  typed_job (Jobs.kind j) (Jobs.payload j) (Jobs.deduplication_key j).

Definition typed_queue (t : Jobs.table) : Prop := forall k j, t !! k = Some j -> typed_row j.

Lemma typed_insert t k j : typed_row j -> typed_queue t -> typed_queue (<[k := j]> t).
Proof. intros Hj Ht i x. rewrite lookup_insert. case_decide; [by intros [= <-]|apply Ht]. Qed.

Lemma typed_update p f t :
  (forall j, typed_row j -> typed_row (f j)) -> typed_queue t -> typed_queue (update_where p f t).
Proof.
  intros Hf Ht k j. rewrite lookup_update_where. destruct (t !! k) as [x|] eqn:Hk; [|done].
  intros [= <-]. specialize (Ht k x Hk). destruct (p x); auto.
Qed.

(** ** The job table *)

Lemma stays_enqueue job :
  typed_job (Jobs.new_kind job) (Jobs.new_payload job) (Jobs.new_deduplication_key job) ->
  stays typed_queue (Jobs.enqueue_job_on_connection job).
Proof.
  intros Hj. unfold Jobs.enqueue_job_on_connection.
  solve_stays ltac:(apply stays_modify; intros t; apply typed_insert; exact Hj).
Qed.

Lemma stays_push n s :
  stays (fun d => typed_queue (Notifications.jobs d)) (Notifications.enqueue_push uuid_text n s).
Proof.
  intros w d Hd. unfold Notifications.enqueue_push. run_unfold.
  destruct (rows_where _ _); [|done]. destruct (_ !! _); [done|]. simpl.
  by apply typed_insert.
Qed.

Lemma stays_insert n :
  stays (fun d => typed_queue (Notifications.jobs d)) (Notifications.insert uuid_text n).
Proof.
  unfold Notifications.insert, Notifications.before_save, Notifications.after_save,
    Notifications.upsert_group_state.
  solve_stays ltac:(apply stays_push).
Qed.

(** ** The stores *)

Definition requests_typed (d : NotificationRequests.Db) : Prop :=
  typed_queue (NotificationRequests.jobs_of d).
Definition polls_typed (d : Polls.Db) : Prop :=
  typed_queue (Notifications.jobs (Polls.notification_db d)).
Definition relations_typed (d : Relations.Db) : Prop :=
  typed_queue (Notifications.jobs (Relations.notification_db d)).
Definition policy_typed (d : DomainPolicy.Db) : Prop :=
  relations_typed (Statuses.relations (DomainPolicy.statuses_db d)).

Lemma stays_on_relations {A} (m : Op Relations.Db A) :
  stays relations_typed m -> stays requests_typed (NotificationRequests.on_relations m).
Proof.
  intros Hm. unfold NotificationRequests.on_relations.
  apply (stays_zoom (fun d => relations_typed (Statuses.relations d))); [done|by intros [] []|].
  apply (stays_zoom relations_typed); [done|by intros [] []|exact Hm].
Qed.

Lemma stays_on_notifications {A} (m : Op Notifications.Db A) :
  stays (fun d => typed_queue (Notifications.jobs d)) m ->
  stays requests_typed (NotificationRequests.on_notifications m).
Proof.
  intros Hm. unfold NotificationRequests.on_notifications. apply stays_on_relations.
  apply (stays_zoom (fun d => typed_queue (Notifications.jobs d))); [done|by intros [] []|exact Hm].
Qed.

Lemma stays_on_jobs {A} (m : Op Jobs.table A) :
  stays typed_queue m -> stays requests_typed (NotificationRequests.on_jobs m).
Proof.
  intros Hm. unfold NotificationRequests.on_jobs. apply stays_on_notifications.
  apply (stays_zoom typed_queue); [done|by intros [] []|exact Hm].
Qed.

Lemma stays_read_statuses {A} (m : Op Statuses.Db A) :
  keeps (fun d => d) m -> stays requests_typed (zoom m : Op NotificationRequests.Db A).
Proof.
  intros Hm. apply (stays_zoom (fun d => relations_typed (Statuses.relations d))); [done|done|].
  by apply (stays_keeps (fun d => d) (fun d => relations_typed (Statuses.relations d))).
Qed.

(** ** Notification requests *)

(** The operations that notify, answer requests, and run their jobs. *)
Inductive request_operation : forall A, Op NotificationRequests.Db A -> Prop :=
| Notify_local account kind actor status :
    request_operation _ (NotificationRequests.notify_local_account_with_policy uuid_text account
      kind actor status)
| Notify_local_mention account actor status :
    request_operation _ (NotificationRequests.notify_local_status_mention uuid_text account actor status)
| Notify_remote_mention account actor status :
    request_operation _ (NotificationRequests.notify_remote_status_mention uuid_text account actor status)
| Notify_follow account actor kind :
    request_operation _ (NotificationRequests.notify_remote_actor_follow uuid_text account actor kind)
| Notify_favourite account actor status :
    request_operation _ (NotificationRequests.notify_remote_actor_favourite uuid_text account actor status)
| Notify_reblog account actor status :
    request_operation _ (NotificationRequests.notify_remote_actor_reblog uuid_text account actor status)
| Notify_status account actor status :
    request_operation _ (NotificationRequests.notify_remote_status uuid_text account actor status)
| Accepts account ids :
    request_operation _ (NotificationRequests.accept_notification_requests uuid_text account ids)
| Dismisses account ids :
    request_operation _ (NotificationRequests.dismiss_notification_requests uuid_text account ids)
| Merge_job payload : request_operation _ (notification_request_merge_job payload)
| Cleanup_job payload : request_operation _ (notification_request_cleanup_job payload).

Lemma stays_reported {S A} (P : S -> Prop) (m : Op S A) : stays P m -> stays P (reported m).
Proof.
  intros Hm w s HP. specialize (Hm w s HP). unfold store_of, reported in *.
  by destruct (m w s) as [[[a|e] w'] s'].
Qed.

Lemma keeps_started recipient actor l r :
  keeps (fun d => d) (Statuses.recipient_started_private_thread recipient actor l r).
Proof. unfold Statuses.recipient_started_private_thread. solve_keeps. Qed.

Lemma keeps_allows_local recipient actor :
  keeps (fun d => d) (Relations.local_account_allows_notification recipient actor).
Proof.
  unfold Relations.local_account_allows_notification, Relations.local_accounts_are_blocked,
    Relations.active_local_account_mute. solve_keeps.
Qed.

Lemma keeps_allows_remote recipient actor :
  keeps (fun d => d) (Relations.remote_account_allows_notification recipient actor).
Proof.
  unfold Relations.remote_account_allows_notification,
    Relations.local_remote_accounts_are_blocked, Relations.active_local_remote_account_mute. solve_keeps.
Qed.

Lemma stays_dismiss_all p f :
  stays requests_typed (NotificationRequests.update_notifications p f).
Proof. apply stays_on_notifications, stays_modify. by intros []. Qed.

Ltac request_hook :=
  idtac; lazymatch goal with
  | |- stays _ (reported _) => apply stays_reported
  | |- stays _ (NotificationRequests.update_notifications _ _) => apply stays_dismiss_all
  | |- stays _ (zoom _) => apply stays_read_statuses, keeps_started
  | |- stays _ (NotificationRequests.on_notifications (modify _)) =>
      apply stays_on_notifications, stays_modify; by intros []
  | |- stays _ (NotificationRequests.on_notifications _) => apply stays_on_notifications, stays_insert
  | |- stays _ (NotificationRequests.on_jobs _) => apply stays_on_jobs, stays_enqueue; simpl; eauto
  | |- stays _ (NotificationRequests.on_relations _) =>
      apply stays_on_relations, (stays_keeps (fun d => d) relations_typed);
      first [apply keeps_allows_local | apply keeps_allows_remote]
  end.

Lemma stays_insert_notification account kind actor st rst filtered request :
  stays requests_typed (NotificationRequests.insert_notification uuid_text account kind actor st rst
    filtered request).
Proof. unfold NotificationRequests.insert_notification. solve_stays request_hook. Qed.

Lemma stays_upsert_request account actor status :
  stays requests_typed (NotificationRequests.upsert_notification_request account actor status).
Proof. unfold NotificationRequests.upsert_notification_request. solve_stays request_hook. Qed.

Lemma stays_policy account : stays requests_typed (NotificationRequests.notification_policy account).
Proof. unfold NotificationRequests.notification_policy. solve_stays request_hook. Qed.

Ltac policy_hook :=
  idtac; lazymatch goal with
  | |- stays _ (NotificationRequests.notification_policy _) => apply stays_policy
  | |- _ => request_hook
  end.

Lemma stays_local_action recipient actor kind status :
  stays requests_typed
    (NotificationRequests.local_notification_policy_action recipient actor kind status).
Proof.
  unfold NotificationRequests.local_notification_policy_action.
  solve_stays ltac:(policy_hook).
Qed.

Lemma stays_remote_action recipient actor kind status :
  stays requests_typed
    (NotificationRequests.remote_notification_policy_action recipient actor kind status).
Proof.
  unfold NotificationRequests.remote_notification_policy_action, NotificationRequests.thread_test,
    NotificationRequests.find_status_row.
  solve_stays ltac:(policy_hook).
Qed.

Ltac notify_hook :=
  idtac; lazymatch goal with
  | |- stays _ (NotificationRequests.insert_notification _ _ _ _ _ _ _ _) =>
      apply stays_insert_notification
  | |- stays _ (NotificationRequests.upsert_notification_request _ _ _) => apply stays_upsert_request
  | |- stays _ (NotificationRequests.local_notification_policy_action _ _ _ _) =>
      apply stays_local_action
  | |- stays _ (NotificationRequests.remote_notification_policy_action _ _ _ _) =>
      apply stays_remote_action
  | |- _ => request_hook
  end.

Lemma request_operation_typed A (m : Op NotificationRequests.Db A) :
  request_operation A m -> stays requests_typed m.
Proof.
  destruct 1.
  - unfold NotificationRequests.notify_local_account_with_policy,
      NotificationRequests.notify_local_account, NotificationRequests.find_event,
      NotificationRequests.local_request, NotificationRequests.active_notification_request_id.
    solve_stays notify_hook.
  - unfold NotificationRequests.notify_local_status_mention, NotificationRequests.find_event,
      NotificationRequests.mention_or_request. solve_stays notify_hook.
  - unfold NotificationRequests.notify_remote_status_mention, NotificationRequests.find_event,
      NotificationRequests.mention_or_request. solve_stays notify_hook.
  - unfold NotificationRequests.notify_remote_actor_follow, NotificationRequests.find_event,
      NotificationRequests.insert_by_policy, NotificationRequests.active_notification_request_id.
    solve_stays notify_hook.
  - unfold NotificationRequests.notify_remote_actor_favourite, NotificationRequests.find_event,
      NotificationRequests.insert_by_policy, NotificationRequests.active_notification_request_id.
    solve_stays notify_hook.
  - unfold NotificationRequests.notify_remote_actor_reblog, NotificationRequests.find_event,
      NotificationRequests.insert_by_policy, NotificationRequests.active_notification_request_id.
    solve_stays notify_hook.
  - unfold NotificationRequests.notify_remote_status, NotificationRequests.find_event.
    solve_stays notify_hook.
  - unfold NotificationRequests.accept_notification_requests, NotificationRequests.select_requests,
      NotificationRequests.set_state, NotificationRequests.insert_permission.
    solve_stays notify_hook.
  - unfold NotificationRequests.dismiss_notification_requests,
      NotificationRequests.select_requests, NotificationRequests.set_state.
    solve_stays notify_hook.
  - unfold notification_request_merge_job, NotificationRequests.merge_notification_requests,
      NotificationRequests.delete_requests. solve_stays notify_hook.
  - unfold notification_request_cleanup_job, NotificationRequests.cleanup_notification_requests,
      NotificationRequests.delete_requests. solve_stays notify_hook.
Qed.

(** ** Polls *)

Inductive poll_operation (graphemes : text -> Z) : forall E A, M Polls.Db E A -> Prop :=
| Creates_poll s input :
    poll_operation graphemes _ _ (Polls.create_local_poll graphemes uuid_text s input)
| Schedules_poll i input : poll_operation graphemes _ _ (Polls.create_scheduled_poll graphemes i input)
| Votes poll a choices : poll_operation graphemes _ _ (Polls.vote_in_poll poll a choices)
| Votes_remotely poll a choice ap :
    poll_operation graphemes _ _ (Polls.record_remote_poll_vote poll a choice ap)
| Replaces_poll s input :
    poll_operation graphemes _ _ (Polls.replace_local_poll graphemes uuid_text s input)
| Refreshes_poll s input : poll_operation graphemes _ _ (Polls.upsert_remote_poll uuid_text s input)
| Announces_votes poll at_ : poll_operation graphemes _ _ (Polls.enqueue_poll_update uuid_text poll at_)
| Expires payload : poll_operation graphemes _ _ (expire_poll_job uuid_text payload).

Lemma stays_poll_jobs {A} (m : Op Jobs.table A) :
  stays typed_queue m -> stays polls_typed (zoom m : Op Polls.Db A).
Proof. intros Hm. apply (stays_zoom typed_queue); [done|by intros [] []|exact Hm]. Qed.

Lemma stays_poll_notifications {A} (m : Op Notifications.Db A) :
  stays (fun d => typed_queue (Notifications.jobs d)) m -> stays polls_typed (zoom m : Op Polls.Db A).
Proof.
  intros Hm. apply (stays_zoom (fun d => typed_queue (Notifications.jobs d)));
    [done|by intros [] []|exact Hm].
Qed.

Lemma stays_enqueue_expiration poll at_ :
  stays polls_typed (Polls.enqueue_poll_expiration uuid_text poll at_).
Proof.
  unfold Polls.enqueue_poll_expiration.
  solve_stays ltac:(apply stays_poll_jobs, stays_enqueue; by exists poll, at_).
Qed.

Lemma stays_enqueue_update poll at_ :
  stays polls_typed (Polls.enqueue_poll_update uuid_text poll at_).
Proof.
  unfold Polls.enqueue_poll_update.
  solve_stays ltac:(first
    [ apply stays_poll_jobs, stays_enqueue; by exists poll
    | apply stays_poll_jobs, stays_modify; intros t; by apply typed_update ]).
Qed.

Lemma stays_hydrate p : stays polls_typed (Polls.hydrate_poll p).
Proof. unfold Polls.hydrate_poll. solve_stays fail. Qed.

Lemma stays_find_poll p : stays polls_typed (Polls.find_poll_by_id p).
Proof. unfold Polls.find_poll_by_id. solve_stays ltac:(apply stays_hydrate). Qed.

Lemma stays_insert_poll p : stays polls_typed (Polls.insert_poll p).
Proof. unfold Polls.insert_poll. solve_stays fail. Qed.

Lemma stays_replace_options poll opts : stays polls_typed (Polls.replace_options poll opts).
Proof. unfold Polls.replace_options, Polls.insert_option. solve_stays fail. Qed.

Ltac poll_hook :=
  idtac; lazymatch goal with
  | |- stays _ (Polls.enqueue_poll_expiration _ _ _) => apply stays_enqueue_expiration
  | |- stays _ (Polls.enqueue_poll_update _ _ _) => apply stays_enqueue_update
  | |- stays _ (Polls.hydrate_poll _) => apply stays_hydrate
  | |- stays _ (Polls.find_poll_by_id _) => apply stays_find_poll
  | |- stays _ (Polls.insert_poll _) => apply stays_insert_poll
  | |- stays _ (Polls.replace_options _ _) => apply stays_replace_options
  end.

Lemma stays_create_poll graphemes s input :
  stays polls_typed (Polls.create_local_poll graphemes uuid_text s input).
Proof. unfold Polls.create_local_poll. solve_stays poll_hook. Qed.

Lemma stays_vote poll l r choices ap : stays polls_typed (Polls.vote poll l r choices ap).
Proof.
  unfold Polls.vote, Polls.cast_choice, Polls.insert_vote. solve_stays poll_hook.
Qed.

Lemma stays_expire_poll poll : stays polls_typed (Polls.expire_poll uuid_text poll).
Proof.
  unfold Polls.expire_poll, Polls.expire_due, Polls.expiry_reference, Polls.send_expiry,
    Polls.update_poll.
  solve_stays ltac:(first [poll_hook | apply stays_poll_notifications, stays_insert]).
Qed.

Lemma poll_operation_typed graphemes E A (m : M Polls.Db E A) :
  poll_operation graphemes E A m -> stays polls_typed m.
Proof.
  destruct 1.
  - apply stays_create_poll.
  - unfold Polls.create_scheduled_poll, Polls.insert_scheduled_option. solve_stays fail.
  - apply stays_vote.
  - apply stays_vote.
  - unfold Polls.replace_local_poll, Polls.update_poll.
    solve_stays ltac:(idtac; lazymatch goal with
      | |- stays _ (Polls.create_local_poll _ _ _ _) => apply stays_create_poll
      | |- _ => poll_hook end).
  - unfold Polls.upsert_remote_poll, Polls.update_poll. solve_stays poll_hook.
  - apply stays_enqueue_update.
  - unfold expire_poll_job, expire_and_announce.
    solve_stays ltac:(first [apply stays_expire_poll | poll_hook]).
Qed.

(** ** Domain rules

    The forms of the web interface have their own copy of the statement that queues a
    reconciliation ([enqueue_web_domain_reconciliation]), with the same job. *)

Inductive policy_operation (host_domain : text -> option text) :
    forall E A, M DomainPolicy.Db E A -> Prop :=
| Creates_rule token input : policy_operation host_domain _ _
    (DomainPolicy.create_domain_block host_domain uuid_text token input)
| Updates_rule token i severity media reports pc uc obfuscate : policy_operation host_domain _ _
    (DomainPolicy.update_domain_block uuid_text token i severity media reports pc uc obfuscate)
| Deletes_rule token i : policy_operation host_domain _ _ (DomainPolicy.delete_domain_block token i)
| Queues_reconciliation b : policy_operation host_domain _ _
    (DomainPolicy.enqueue_domain_reconciliation uuid_text b)
| Reconciles payload : policy_operation host_domain _ _ (DomainPolicy.handle_reconcile_job payload).

Lemma stays_policy_relations {A} (m : Op Relations.Db A) :
  stays relations_typed m -> stays policy_typed (DomainPolicy.on_relations m).
Proof.
  intros Hm. unfold DomainPolicy.on_relations.
  apply (stays_zoom (fun d => relations_typed (Statuses.relations d))); [done|by intros [] []|].
  apply (stays_zoom relations_typed); [done|by intros [] []|exact Hm].
Qed.

Lemma stays_relations_enqueue job :
  typed_job (Jobs.new_kind job) (Jobs.new_payload job) (Jobs.new_deduplication_key job) ->
  stays relations_typed (Relations.enqueue job).
Proof.
  intros Hj. unfold Relations.enqueue.
  solve_stays ltac:(apply (stays_zoom typed_queue); [done|by intros [] []|by apply stays_enqueue]).
Qed.

Lemma stays_audited actor action m :
  stays policy_typed m ->
  stays policy_typed (DomainPolicy.audited_and_queued uuid_text actor action m).
Proof.
  intros Hm. unfold DomainPolicy.audited_and_queued, DomainPolicy.audit_domain_block,
    DomainPolicy.enqueue_domain_reconciliation.
  solve_stays ltac:(first
    [exact Hm | apply stays_policy_relations, stays_relations_enqueue; simpl; eauto]).
Qed.

Lemma stays_purge actor now : stays policy_typed (DomainPolicy.purge_remote_actor_cache actor now).
Proof.
  unfold DomainPolicy.purge_remote_actor_cache. apply stays_bind; [|intros _; apply stays_bind].
  - apply stays_policy_relations, stays_modify. by intros [].
  - apply (stays_zoom (fun d => relations_typed (Statuses.relations d))); [done|by intros [] []|].
    apply stays_modify. by intros [].
  - intros _. apply stays_policy_relations. unfold Relations.dismiss_where.
    apply (stays_zoom (fun d => typed_queue (Notifications.jobs d))); [done|by intros [] []|].
    apply stays_modify. by intros [].
Qed.

Lemma policy_operation_typed host_domain E A (m : M DomainPolicy.Db E A) :
  policy_operation host_domain E A m -> stays policy_typed m.
Proof.
  destruct 1;
    unfold DomainPolicy.create_domain_block, DomainPolicy.update_domain_block,
      DomainPolicy.delete_domain_block, DomainPolicy.admin_transaction,
      DomainPolicy.handle_reconcile_job, DomainPolicy.reconcile_federation_domain_block,
      DomainPolicy.create_federation_domain_block, DomainPolicy.update_federation_domain_block,
      DomainPolicy.delete_federation_domain_block, DomainPolicy.audit_domain_block,
      DomainPolicy.find_federation_domain_block, DomainPolicy.enqueue_domain_reconciliation;
    solve_stays ltac:(idtac; lazymatch goal with
      | |- stays _ (DomainPolicy.on_relations (Relations.enqueue _)) =>
          apply stays_policy_relations, stays_relations_enqueue; simpl; eauto
      | |- stays _ (DomainPolicy.audited_and_queued _ _ _ _) => apply stays_audited
      | |- stays _ (DomainPolicy.purge_remote_actor_cache _ _) => apply stays_purge
      end).
Qed.

(** ** The worker's own statements *)

Inductive queue_operation : forall A, Op Jobs.table A -> Prop :=
| Claims locked worker ttl : queue_operation _ (Jobs.claim_due_job locked worker ttl)
| Claims_key locked worker kind key ttl :
    queue_operation _ (Jobs.claim_due_job_by_key locked worker kind key ttl)
| Completes job : queue_operation _ (Jobs.mark_job_completed job)
| Retries job error : queue_operation _ (Jobs.mark_job_failed job error)
| Gives_up job error : queue_operation _ (Jobs.mark_job_permanently_failed job error)
| Cleans_up locked sr fr batch : queue_operation _ (Jobs.cleanup_expired_jobs locked sr fr batch).

Lemma typed_delete p t : typed_queue t -> typed_queue (delete_where p t).
Proof.
  intros Ht k j. rewrite lookup_delete_where. destruct (t !! k) as [x|] eqn:Hk; [|done].
  destruct (p x); [done|]. intros [= <-]. by apply (Ht k).
Qed.

Lemma claim_selected_typed worker claim now o w t :
  (forall j, o = Some j -> typed_row j) -> typed_queue t ->
  typed_queue (store_of (Jobs.claim_selected worker claim now o) w t).
Proof.
  intros Ho Ht. destruct o as [j|]; [|done]. unfold Jobs.claim_selected. run_unfold.
  assert (typed_queue (<[Jobs.id j := Jobs.lease now worker claim j]> t))
    by (by apply typed_insert; [apply (Ho j)|]).
  by destruct (Jobs.claimed_of_row j claim).
Qed.

Lemma update_claimed_typed job f w t :
  (forall j, typed_row j -> typed_row (f j)) -> typed_queue t ->
  typed_queue (store_of (Jobs.update_claimed job f) w t).
Proof.
  intros Hf Ht. unfold Jobs.update_claimed. run_unfold.
  destruct (t !! _) as [j|] eqn:Hj; [|done]. destruct (Jobs.holds_claim job j); [|done].
  apply typed_insert; [|done]. by eapply Hf, Ht.
Qed.

Lemma typed_rows p t j : typed_queue t -> j ∈ rows_where p t -> typed_row j.
Proof. intros Ht [[k Hk] _]%elem_of_rows_where. by eapply Ht. Qed.

Lemma queue_operation_typed A (m : Op Jobs.table A) : queue_operation A m -> stays typed_queue m.
Proof.
  destruct 1; intros w t Ht.
  - unfold Jobs.claim_due_job. apply claim_selected_typed; [|done].
    intros j Hj%least_elem_of. by eapply typed_rows.
  - unfold Jobs.claim_due_job_by_key. apply claim_selected_typed; [|done].
    intros j Hj. destruct (rows_where _ t) as [|x l] eqn:Hr; [done|]. injection Hj as ->.
    eapply typed_rows; [exact Ht|]. rewrite Hr. left.
  - by apply (update_claimed_typed job (Jobs.completed _)).
  - unfold Jobs.mark_job_failed, Jobs.next_retry_at. refine ((_ : stays typed_queue _) w t Ht).
    solve_stays ltac:(intros w' t' Ht'; by apply update_claimed_typed).
  - by apply (update_claimed_typed job (Jobs.failed_permanently _ _)).
  - refine ((_ : stays typed_queue _) w t Ht). unfold Jobs.cleanup_expired_jobs.
    solve_stays ltac:(apply stays_modify; intros t' Ht'; by apply typed_delete).
Qed.

(** ** Histories of the queue *)

(** One step of any process against the shared job table: an operation of a
    component on a store whose queue it is, a statement of the worker, or a job of
    a kind that is not followed here. *)
Inductive queue_step (graphemes : text -> Z) (host_domain : text -> option text) :
    Jobs.table -> Jobs.table -> Prop :=
| Step_requests A (m : Op NotificationRequests.Db A) w d :
    request_operation A m ->
    queue_step graphemes host_domain (NotificationRequests.jobs_of d)
      (NotificationRequests.jobs_of (store_of m w d))
| Step_polls E A (m : M Polls.Db E A) w d :
    poll_operation graphemes E A m ->
    queue_step graphemes host_domain (Notifications.jobs (Polls.notification_db d))
      (Notifications.jobs (Polls.notification_db (store_of m w d)))
| Step_policy E A (m : M DomainPolicy.Db E A) w d :
    policy_operation host_domain E A m ->
    queue_step graphemes host_domain
      (Notifications.jobs (Relations.notification_db (DomainPolicy.relations_of d)))
      (Notifications.jobs (Relations.notification_db (DomainPolicy.relations_of (store_of m w d))))
| Step_worker A (m : Op Jobs.table A) w t :
    queue_operation A m -> queue_step graphemes host_domain t (store_of m w t)
| Step_other job w t :
    Jobs.new_kind job ∉ [Jobs.NotificationRequestMerge; Jobs.NotificationRequestCleanup;
      Jobs.DomainModerationReconcile; Jobs.PollExpiration; Jobs.PollUpdate] ->
    queue_step graphemes host_domain t (store_of (Jobs.enqueue_job_on_connection job) w t).

Lemma queue_step_typed graphemes host_domain t t' :
  queue_step graphemes host_domain t t' -> typed_queue t -> typed_queue t'.
Proof.
  destruct 1 as [A m w d Hm|E A m w d Hm|E A m w d Hm|A m w t Hm|job w t Hk]; intros Ht.
  - by apply (request_operation_typed A m Hm).
  - by apply (poll_operation_typed graphemes E A m Hm).
  - by apply (policy_operation_typed host_domain E A m Hm).
  - by apply (queue_operation_typed A m Hm).
  - apply stays_enqueue; [|done]. rewrite !elem_of_cons in Hk.
    destruct (Jobs.new_kind job); simpl; try done; exfalso; apply Hk; tauto.
Qed.

(** The handler of a kind reads the payload of the job: it goes on with the
    subject that the payload and the key name. *)
Definition handler_reads (j : Jobs.Job) : Prop :=
  match Jobs.kind j with
  | Jobs.NotificationRequestMerge =>
      exists a, Jobs.deduplication_key j = Some (NotificationRequests.merge_key uuid_text a) /\
        forall w d, notification_request_merge_job (Jobs.payload j) w d =
                    reported (NotificationRequests.merge_notification_requests a) w d
  | Jobs.NotificationRequestCleanup =>
      exists a, Jobs.deduplication_key j = Some (NotificationRequests.cleanup_key uuid_text a) /\
        forall w d, notification_request_cleanup_job (Jobs.payload j) w d =
                    reported (NotificationRequests.cleanup_notification_requests a) w d
  | Jobs.DomainModerationReconcile =>
      exists i, Jobs.deduplication_key j = Some (DomainPolicy.reconciliation_key uuid_text i) /\
        forall w d, DomainPolicy.handle_reconcile_job (Jobs.payload j) w d =
          transaction (_ ← DomainPolicy.reconcile_federation_domain_block i; mret (Commit tt)) w d
  | Jobs.PollExpiration =>
      exists p closes, Jobs.deduplication_key j = Some (expiration_key p closes) /\
        forall w d, expire_poll_job uuid_text (Jobs.payload j) w d = expire_and_announce uuid_text p w d
  | Jobs.PollUpdate =>
      exists p, Jobs.deduplication_key j = Some (uuid_text p) /\
        poll_job_payload "invalid poll update payload" (Jobs.payload j) = Ok p
  | _ => True
  end.

(** C24. No queued job of the notification-request, domain-rule and poll kinds ever
    fails on its payload: whatever the components and the worker do to a queue that
    starts empty, each of these jobs carries the member its handler asks for, as a
    UUID, and it names the subject of the job's deduplication key. *)
Theorem queued_payloads_fit_their_handlers graphemes host_domain t :
  rtc (queue_step graphemes host_domain) ∅ t ->
  forall k j, t !! k = Some j -> handler_reads j.
Proof.
  intros Hsteps. assert (Ht : typed_queue t).
  { assert (H0 : typed_queue ∅) by (intros k j; by rewrite lookup_empty).
    induction Hsteps as [|t1 t2 t3 H12 _ IH]; [done|]. by eapply IH, queue_step_typed. }
  intros k j Hk. specialize (Ht k j Hk). unfold typed_row, typed_job, handler_reads in *.
  destruct (Jobs.kind j); try done.
  - destruct Ht as (a & Hp & Hkey). exists a. split; [done|]. rewrite Hp. by destruct a.
  - destruct Ht as (a & Hp & Hkey). exists a. split; [done|]. rewrite Hp. by destruct a.
  - destruct Ht as (i & Hp & Hkey). exists i. split; [done|]. by rewrite Hp.
  - destruct Ht as (p & at_ & Hp & Hkey). exists p, at_. split; [done|]. by rewrite Hp.
  - destruct Ht as (p & Hp & Hkey). exists p. split; [done|]. by rewrite Hp.
Qed.
End Typed.

(** * A concrete history

    A vote is announced for poll 7, then the worker claims the job. *)
Definition sample_text (u : uuid) : string := "7".
Definition no_polls : Polls.Db := Polls.mkDb ∅ ∅ ∅ ∅ ∅ ∅ ∅ (Notifications.mkDb ∅ ∅ ∅ ∅).
Definition sample_queue : Jobs.table :=
  store_of (Jobs.claim_due_job ∅ "worker" (minutes 5)) (later_world sample_world)
    (Notifications.jobs (Polls.notification_db
       (store_of (Polls.enqueue_poll_update sample_text 7 0) sample_world no_polls))).

Lemma sample_history :
  rtc (queue_step sample_text (fun _ => 1) (fun _ => None)) ∅ sample_queue.
Proof.
  eapply rtc_l;
    [exact (Step_polls sample_text _ _ _ _ _ sample_world no_polls (Announces_votes _ _ 7 0))|].
  eapply rtc_l; [apply Step_worker, Claims|apply rtc_refl].
Qed.

Definition sample_job : Jobs.Job :=
  default (Jobs.mkJob 0 Jobs.PollUpdate JNull None 0 0 None None None None 0 None None)
    (sample_queue !! 100%N).

Lemma queued_payloads_fit_their_handlers_witness :
  Jobs.kind sample_job = Jobs.PollUpdate /\ bool_decide (is_Some (Jobs.claim_id sample_job)) = true /\
  handler_reads sample_text sample_job.
Proof.
  split; [vm_compute; reflexivity|]. split; [vm_compute; reflexivity|].
  apply (queued_payloads_fit_their_handlers sample_text (fun _ => 1) (fun _ => None) sample_queue
           sample_history 100%N sample_job).
  vm_compute. reflexivity.
Defined.
