(* ===== verification/Delivery.v ===== *)
(** Delivery of activities to other servers ([crates/server/src/federation.rs]):
    who receives a status, how recipients are grouped by inbox, the durable jobs
    that carry the groups, and the handlers that post them.

    The network, URL parsing and the cryptography of request signatures are
    parameters; the requests that are sent are recorded in the store, in order. *)
From S2P Require Import Prelude Core Text.
From S2P Require Jobs Notifications Relations Statuses Pagination DomainPolicy.

#[local] Existing Instances Notifications.jobs_part Relations.notifications_part
  Relations.jobs_part Statuses.relations_part Statuses.StatusVisibility_eq_dec
  DomainPolicy.statuses_part.

(** * Data *)

(** The columns of [remote_actor] that deliveries read. *)
Record RemoteActor := mkRemoteActor {
  remote_id : uuid;
  remote_domain : text;
  remote_inbox_url : string;
  remote_shared_inbox_url : option string;
  remote_suspended_at : option time;
}.

Inductive ActorKeyAlgorithm : Type := RsaPkcs1Sha256 | Ed25519.

#[export] Instance ActorKeyAlgorithm_eq_dec : EqDecision ActorKeyAlgorithm.
Proof. solve_decision. Defined.

(** Rows of [local_actor_key]; the ciphertext and its nonce are one document. *)
Record LocalActorKey := mkActorKey {
  key_account : uuid;
  key_id : string;
  key_algorithm : ActorKeyAlgorithm;
  key_ciphertext : string;
  key_retiring_at : option time;
}.

Inductive SignatureFormat : Type := Legacy | Rfc9421.

(** One signed request and what came of it: a status code, or an error before any
    response. *)
Record Post := mkPost {
  post_format : SignatureFormat;
  post_inbox : string;
  post_key : string;
  post_activity : JsonValue;
  post_outcome : result Z RoostyError;
}.

(** The inbox columns of [remote_actor] and the names of [local_account] are kept
    apart from the columns that [Relations] reads. *)
Record Db := mkDb {
  rules : DomainPolicy.Db;
  inbox_url : uuid -> string;
  shared_inbox_url : uuid -> option string;
  username : uuid -> string;
  actor_keys : gmap uuid LocalActorKey;
  posts : list Post;
}.

#[export, refine] Instance rules_part : Part DomainPolicy.Db Db :=
  {| get_part := rules;
     put_part := fun r d => mkDb r (inbox_url d) (shared_inbox_url d) (username d) (actor_keys d) (posts d) |}.
Proof. all: by intros *; try destruct s. Defined.

Definition statuses_of (d : Db) : Statuses.Db := DomainPolicy.statuses_db (rules d).
Definition relations_of (d : Db) : Relations.Db := Statuses.relations (statuses_of d).
Definition jobs_of (d : Db) : Jobs.table := Notifications.jobs (Relations.notification_db (relations_of d)).

Definition on_relations {A} (m : Op Relations.Db A) : Op Db A := zoom (DomainPolicy.on_relations m).

Definition enqueue (job : Jobs.NewJob) : Op Db unit := on_relations (Relations.enqueue job).

(** * Reading actors *)

Definition actor_of_row (d : Db) (a : uuid * Relations.RemoteActorRow) : RemoteActor :=
  mkRemoteActor a.1 (Relations.actor_domain a.2) (inbox_url d a.1) (shared_inbox_url d a.1)
    (Relations.actor_suspended_at a.2).

Definition find_remote_actor (a : uuid) (d : Db) : option RemoteActor :=
  (fun row => actor_of_row d (a, row)) <$> Relations.remote_actors (relations_of d) !! a.

Definition find_remote_actor_by_id (a : AccountId) : Op Db (option RemoteActor) :=
  gets (find_remote_actor (account_uuid a)).

Definition remote_actors_by_id (ids : list uuid) : Op Db (list RemoteActor) :=
  gets (fun d => actor_of_row d <$> Pagination.rows_by_id ids (Relations.remote_actors (relations_of d))).

(** The rows of the actors in a set, in no particular order. *)
Definition actors_in (ids : list uuid) (d : Db) : list RemoteActor :=
  actor_of_row d <$>
    List.filter (fun kv => bool_decide (kv.1 ∈ ids)) (map_to_list (Relations.remote_actors (relations_of d))).

Definition accepted_remote_followers (account : AccountId) : Op Db (list RemoteActor) :=
  ids ← on_relations (Relations.accepted_remote_follower_ids account);
  gets (actors_in ids).

Definition local_account_exists (account : AccountId) (d : Db) : bool :=
  bool_decide (is_Some (Relations.local_accounts (relations_of d) !! account_uuid account)).

Definition require_local (account : AccountId) (missing : string) : Op Db unit :=
  found ← gets (local_account_exists account);
  if (found : bool) then mret tt else throw (InvalidInput missing).

Definition find_local_actor_key (account : AccountId) : Op Db (option LocalActorKey) :=
  gets (fun d => head (rows_where (fun k =>
    (key_account k =? account_uuid account)%N && bool_decide (key_algorithm k = RsaPkcs1Sha256)
    && bool_decide (key_retiring_at k = None)) (actor_keys d))).

(** * Audience of a status *)

Record StatusRemoteAudience := mkAudience {
  explicit_mentions : list RemoteActor;
  reply_author : option RemoteActor;
}.

Definition remote_mentions_for_local_status (status : StatusId) : Op Db (list RemoteActor) :=
  gets (fun d => actors_in
    (snd <$> List.filter (fun m => (m.1 =? status_uuid status)%N)
       (elements (Statuses.remote_mentions (statuses_of d)))) d).

Definition remote_reply_actor_for_local_status (s : Statuses.LocalStatus) :
    Op Db (option RemoteActor) :=
  match Statuses.ls_in_reply_to_remote s with
  | None => mret None
  | Some parent =>
      found ← zoom (zoom (Statuses.find_remote_status_by_id (mkStatusId parent)) : Op DomainPolicy.Db _);
      match found with
      | None => mret None
      | Some parent => find_remote_actor_by_id (mkAccountId (Statuses.rs_actor parent))
      end
  end.

Definition status_remote_audience (status : StatusId) (s : Statuses.LocalStatus) :
    Op Db StatusRemoteAudience :=
  mentions ← remote_mentions_for_local_status status;
  author ← remote_reply_actor_for_local_status s;
  mret (mkAudience mentions author).

(** Push the actors that are not listed yet. *)
Fixpoint add_recipients (actors recipients : list RemoteActor) : list RemoteActor :=
  match actors with
  | [] => recipients
  | a :: actors =>
      add_recipients actors
        (if bool_decide (remote_id a ∈ remote_id <$> recipients) then recipients
         else recipients ++ [a])
  end.

Definition status_delivery_recipients (account : AccountId) (s : Statuses.LocalStatus)
    (audience : StatusRemoteAudience) (previous : list RemoteActor) : Op Db (list RemoteActor) :=
  followers ← (if bool_decide (Statuses.ls_visibility s = Statuses.Direct) then mret []
               else accepted_remote_followers account);
  mret (add_recipients previous
          (add_recipients (option_list (reply_author audience))
             (add_recipients (explicit_mentions audience) followers))).

(** * Groups *)

Record DeliveryGroup := mkGroup {
  group_inbox_url : string;
  group_actors : list uuid;
}.

Definition effective_inbox (personal_inbox : bool) (a : RemoteActor) : string :=
  if personal_inbox then remote_inbox_url a
  else default (remote_inbox_url a) (remote_shared_inbox_url a).

(** [left.inbox_url.cmp(&right.inbox_url)]: bytes in lexicographic order. *)
Definition inbox_le (a b : DeliveryGroup) : bool := String.leb (group_inbox_url a) (group_inbox_url b).

Definition inbox_and_actor_le (a b : DeliveryGroup) : bool :=
  match String.compare (group_inbox_url a) (group_inbox_url b) with
  | Lt => true
  | Gt => false
  | Eq => match group_actors a, group_actors b with
          | x :: _, y :: _ => (x <=? y)%N
          | _, _ => true
          end
  end.

(** [groups.entry(inbox_url).or_default().push(remote.id)]. *)
Definition push_actor (groups : gmap string (list uuid)) (a : RemoteActor) : gmap string (list uuid) :=
  let url := effective_inbox false a in
  <[url := default [] (groups !! url) ++ [remote_id a]]> groups.

Definition delivery_groups (recipients : list RemoteActor) (personal_inbox : bool) :
    list DeliveryGroup :=
  if personal_inbox
  then order_by inbox_and_actor_le
         ((fun a => mkGroup (remote_inbox_url a) [remote_id a]) <$> recipients)
  else order_by inbox_le
         ((fun g => mkGroup g.1 (order_by N.leb g.2))
            <$> map_to_list (foldl push_actor ∅ recipients)).

(** * Payloads *)

Record StatusDelivery := mkStatusDelivery {
  sd_local : uuid;
  sd_remote : uuid;
  sd_remotes : list uuid;
  sd_inbox : option string;
  sd_activity : JsonValue;
  sd_personal : bool;
}.

(** [serde_json::to_value]: an empty list of actors and an absent inbox are not
    written. *)
Definition status_delivery_value (p : StatusDelivery) : JsonValue :=
  JObject ([("local_account_id"%string, JUuid (sd_local p));
            ("remote_actor_id"%string, JUuid (sd_remote p))]
    ++ (if bool_decide (sd_remotes p = []) then []
        else [("remote_actor_ids"%string, JArray (JUuid <$> sd_remotes p))])
    ++ (match sd_inbox p with None => [] | Some u => [("inbox_url"%string, JString u)] end)
    ++ [("activity"%string, sd_activity p); ("personal_inbox"%string, JBool (sd_personal p))]).

(** Reading members with [serde]. *)
Section Read.
Context (uuid_text : uuid -> string).

Definition read_uuid (v : JsonValue) : option uuid := match v with JUuid i => Some i | _ => None end.

Definition read_string (v : JsonValue) : option string :=
  match v with JString s => Some s | JUuid i => Some (uuid_text i) | _ => None end.

Definition required {A} (read : JsonValue -> option A) (member : string) (v : JsonValue) : option A :=
  Relations.json_get member v ≫= read.

Definition or_default {A} (read : JsonValue -> option A) (absent : A) (member : string)
    (v : JsonValue) : option A :=
  match Relations.json_get member v with None => Some absent | Some m => read m end.

Definition read_uuids (v : JsonValue) : option (list uuid) :=
  match v with JArray items => mapM read_uuid items | _ => None end.

Definition read_option_string (v : JsonValue) : option (option string) :=
  match v with JNull => Some None | _ => Some <$> read_string v end.

Definition read_bool (v : JsonValue) : option bool := match v with JBool b => Some b | _ => None end.

Definition status_delivery_of (v : JsonValue) : option StatusDelivery :=
  local ← required read_uuid "local_account_id" v;
  remote ← required read_uuid "remote_actor_id" v;
  remotes ← or_default read_uuids [] "remote_actor_ids" v;
  inbox ← or_default read_option_string None "inbox_url" v;
  activity ← required Some "activity" v;
  personal ← or_default read_bool false "personal_inbox" v;
  Some (mkStatusDelivery local remote remotes inbox activity personal).

Definition actor_update_delivery_of (v : JsonValue) : option StatusDelivery :=
  local ← required read_uuid "local_account_id" v;
  remote ← required read_uuid "remote_actor_id" v;
  remotes ← or_default read_uuids [] "remote_actor_ids" v;
  inbox ← or_default read_option_string None "inbox_url" v;
  activity ← required Some "activity" v;
  Some (mkStatusDelivery local remote remotes inbox activity false).

(** [FollowDelivery], [FavouriteDelivery], [ReblogDelivery] and
    [ModerationDelivery] have the same members. *)
Record TargetedDelivery := mkTargeted {
  td_local : uuid;
  td_remote : uuid;
  td_activity : JsonValue;
}.

Definition targeted_delivery_of (v : JsonValue) : option TargetedDelivery :=
  local ← required read_uuid "local_account_id" v;
  remote ← required read_uuid "remote_actor_id" v;
  activity ← required Some "activity" v;
  Some (mkTargeted local remote activity).

Record PollVoteDelivery := mkPollVote {
  pv_local : uuid;
  pv_remote : uuid;
  pv_activities : list JsonValue;
}.

(** [FollowResponseDelivery]; jobs of earlier releases carry no activity. *)
Inductive FollowResponseType : Type := RespondAccept | RespondReject.

Definition response_name (r : FollowResponseType) : string :=
  match r with RespondAccept => "Accept" | RespondReject => "Reject" end.

Definition response_fragment (r : FollowResponseType) : string :=
  match r with RespondAccept => "accept" | RespondReject => "reject" end.

Record FollowResponseDelivery := mkFollowResponse {
  fr_local : uuid;
  fr_remote : uuid;
  fr_follow : JsonValue;
  fr_response : FollowResponseType;
  fr_activity : option JsonValue;
}.

Definition read_response (v : JsonValue) : option FollowResponseType :=
  match v with
  | JString s => if bool_decide (s = "Accept"%string) then Some RespondAccept
                 else if bool_decide (s = "Reject"%string) then Some RespondReject else None
  | _ => None
  end.

Definition follow_response_delivery_of (v : JsonValue) : option FollowResponseDelivery :=
  local ← required read_uuid "local_account_id" v;
  remote ← required read_uuid "remote_actor_id" v;
  follow ← required Some "follow" v;
  response ← required read_response "response_type" v;
  activity ← or_default (fun m => Some (match m with JNull => None | _ => Some m end)) None "activity" v;
  Some (mkFollowResponse local remote follow response activity).

Definition poll_vote_delivery_of (v : JsonValue) : option PollVoteDelivery :=
  local ← required read_uuid "local_account_id" v;
  remote ← required read_uuid "remote_actor_id" v;
  activities ← required (fun m => match m with JArray items => Some items | _ => None end) "activities" v;
  Some (mkPollVote local remote activities).
End Read.

(** * Queueing *)

Definition delivery_key (activity_id inbox : string) : string := (activity_id ++ ":" ++ inbox)%string.

Definition enqueue_groups (kind : Jobs.JobKind) (value : DeliveryGroup -> uuid -> JsonValue)
    (activity_id : string) (groups : list DeliveryGroup) : Op Db unit :=
  for_each groups (fun g =>
    match group_actors g with
    | [] => mret tt
    | first :: _ =>
        now ← now_utc;
        enqueue (Jobs.mkNewJob kind (value g first)
          (Some (delivery_key activity_id (group_inbox_url g))) now)
    end).

Definition status_group_value (account : AccountId) (activity : JsonValue) (personal_inbox : bool)
    (g : DeliveryGroup) (first : uuid) : JsonValue :=
  status_delivery_value (mkStatusDelivery (account_uuid account) first (group_actors g)
    (Some (group_inbox_url g)) activity personal_inbox).

Definition enqueue_status_delivery_groups (account : AccountId) (recipients : list RemoteActor)
    (activity : JsonValue) (activity_id : string) (personal_inbox : bool) : Op Db unit :=
  enqueue_groups Jobs.FederationStatusDelivery (status_group_value account activity personal_inbox)
    activity_id (delivery_groups recipients personal_inbox).

(** [ActorUpdateDelivery] has no [personal_inbox]. *)
Definition actor_update_value (account : AccountId) (activity : JsonValue) (g : DeliveryGroup)
    (first : uuid) : JsonValue :=
  JObject ([("local_account_id"%string, JUuid (account_uuid account));
            ("remote_actor_id"%string, JUuid first);
            ("remote_actor_ids"%string, JArray (JUuid <$> group_actors g));
            ("inbox_url"%string, JString (group_inbox_url g)); ("activity"%string, activity)]).

Definition enqueue_actor_update_delivery_groups (account : AccountId) (recipients : list RemoteActor)
    (activity : JsonValue) (activity_id : string) : Op Db unit :=
  enqueue_groups Jobs.FederationActorUpdateDelivery (actor_update_value account activity)
    activity_id (delivery_groups recipients false).

(** What [enqueue_status_activity_in_transaction] does with the signed activity of
    a status, and [enqueue_actor_update_in_transaction] and
    [enqueue_actor_delete_in_transaction] with that of an account. *)
Definition queue_status_activity (status : StatusId) (s : Statuses.LocalStatus)
    (activity : JsonValue) (activity_id : string) (previous : list RemoteActor) : Op Db unit :=
  audience ← status_remote_audience status s;
  recipients ← status_delivery_recipients (mkAccountId (Statuses.ls_account s)) s audience previous;
  enqueue_status_delivery_groups (mkAccountId (Statuses.ls_account s)) recipients activity activity_id
    (bool_decide (Statuses.ls_visibility s = Statuses.Direct)).

Definition queue_actor_activity (account : AccountId) (activity : JsonValue) (activity_id : string) :
    Op Db unit :=
  recipients ← accepted_remote_followers account;
  enqueue_actor_update_delivery_groups account recipients activity activity_id.

(** * Errors as text *)

(** [RoostyError::to_string]; the text of a database error is that of its library. *)
Section Display.
Context (db_text : DbErr -> string).

Definition discovery_text (e : FederationDiscoveryError) : string :=
  match e with PolicyRejected domain => "federation policy rejects remote domain " ++ domain end.

Definition relationship_text (e : AccountRelationshipError) : string :=
  match e with
  | SelfFollow => "accounts cannot follow themselves"
  | FollowTargetNotFound => "followed account does not exist"
  | FollowBlocked => "follow is blocked by an account relationship"
  | SelfModeration => "accounts cannot moderate themselves"
  | ModerationTargetNotFound => "target account does not exist"
  end.

Definition error_text (e : RoostyError) : string :=
  match e with
  | Configuration m => "configuration error: " ++ m
  | Database e => "database error: " ++ db_text e
  | FederationDiscovery e => discovery_text e
  | AccountRelationship e => relationship_text e
  | InvalidInput m => "invalid input: " ++ m
  | StatusVisibilityError m => "invalid status visibility: " ++ m
  | Io m => "io error: " ++ m
  | Serialization m => "serialization error: " ++ m
  | NotImplemented w => "operation is not implemented yet: " ++ w
  end%string.
End Display.

(** * Sending *)

Section Deliver.
(** The host rules of domain names, the text of identifiers and statuses, the
    [url], [rsa] and [aes] libraries, and the remote servers: [request] answers the
    n-th request of the history. *)
Context (host_domain : text -> option text) (uuid_text : uuid -> string) (status_text : Z -> string)
        (public_url : string -> string) (federation_allowed_domains : list text)
        (decrypt_private_key : LocalActorKey -> result unit RoostyError)
        (request : nat -> SignatureFormat -> string -> string -> JsonValue -> result Z RoostyError).

Definition federation_domain_is_allowed (domain : text) : bool :=
  existsb (fun allowed => bool_decide (allowed = lit "*")
                          || bool_decide (allowed = to_ascii_lowercase domain))
    federation_allowed_domains.

Definition should_retry_with_rfc9421 (status : Z) : bool := bool_decide (status ∈ [400; 401]).

Definition is_success (status : Z) : bool := (200 <=? status) && (status <? 300).

Definition classify_delivery_status (status : Z) : result unit RoostyError :=
  if is_success status then Ok tt
  else if bool_decide (status ∈ [400; 401; 403; 404; 405; 410])
  then Err (InvalidInput ("permanent federation delivery failure: remote inbox returned "
                          ++ status_text status)%string)
  else Err (InvalidInput ("remote inbox returned " ++ status_text status)%string).

Definition send_signed_post (format : SignatureFormat) (inbox key : string) (activity : JsonValue) :
    Op Db Z :=
  d ← gets (fun d => d);
  let outcome := request (length (posts d)) format inbox key activity in
  modify (fun d => mkDb (rules d) (inbox_url d) (shared_inbox_url d) (username d) (actor_keys d)
    (posts d ++ [mkPost format inbox key activity outcome]));;
  lift_result outcome.

Definition signed_post (inbox key : string) (activity : JsonValue) : Op Db unit :=
  status ← send_signed_post Legacy inbox key activity;
  status ← (if should_retry_with_rfc9421 status then send_signed_post Rfc9421 inbox key activity
            else mret status);
  lift_result (classify_delivery_status status).

(** [inbound_activity_type(v) == Some(Block)]; a unit variant is also read from an
    object with that one member. *)
Definition is_block (v : JsonValue) : bool :=
  match Relations.json_get "type" v with
  | Some (JString s) => bool_decide (s = "Block"%string)
  | Some (JObject [(s, JNull)]) => bool_decide (s = "Block"%string)
  | _ => false
  end.

Definition moderation_activity (activity : JsonValue) : bool :=
  is_block activity
  || match Relations.json_get "object" activity with Some o => is_block o | None => false end.

Definition domain_policy (domain : text) : Op Db DomainPolicy.FederationDomainPolicy :=
  zoom (DomainPolicy.federation_domain_policy host_domain domain).

(** What an actor is refused for, before the policy of its domain is read. *)
Definition passed_over (blocked : gset uuid) (inbox : string) (personal_inbox : bool) (a : RemoteActor) :
    bool :=
  negb (bool_decide (effective_inbox personal_inbox a = inbox))
  || negb (federation_domain_is_allowed (remote_domain a))
  || bool_decide (is_Some (remote_suspended_at a))
  || bool_decide (remote_id a ∈ blocked).

Fixpoint any_eligible (blocked : gset uuid) (inbox : string) (personal_inbox : bool)
    (actors : list RemoteActor) : Op Db bool :=
  match actors with
  | [] => mret false
  | a :: actors =>
      if passed_over blocked inbox personal_inbox a
      then any_eligible blocked inbox personal_inbox actors
      else
        policy ← domain_policy (remote_domain a);
        if DomainPolicy.is_suspended policy then any_eligible blocked inbox personal_inbox actors
        else mret true
  end.

Definition post_as (account : AccountId) (inbox : string) (activity : JsonValue) : Op Db unit :=
  found ← find_local_actor_key account;
  key ← lift_option (InvalidInput "local delivery actor has no signing key") found;
  lift_result (decrypt_private_key key);;
  signed_post inbox (key_id key) activity.

Definition deliver_grouped_activity (account : AccountId) (actors : list uuid) (inbox : string)
    (activity : JsonValue) (personal_inbox : bool) : Op Db unit :=
  require_local account "local delivery actor does not exist";;
  remotes ← remote_actors_by_id actors;
  blocked ← (if moderation_activity activity then mret ∅
             else on_relations (Relations.blocked_remote_actor_ids_for_local_account account actors));
  eligible ← any_eligible blocked inbox personal_inbox remotes;
  if (eligible : bool) then post_as account inbox activity else mret tt.

Definition deliver_activity (account actor : AccountId) (activity : JsonValue)
    (personal_inbox : bool) : Op Db unit :=
  require_local account "local delivery actor does not exist";;
  found ← find_remote_actor_by_id actor;
  remote ← lift_option (InvalidInput "remote delivery actor does not exist") found;
  suspended ← (if negb (federation_domain_is_allowed (remote_domain remote))
                  || bool_decide (is_Some (remote_suspended_at remote))
               then mret true
               else policy ← domain_policy (remote_domain remote);
                    mret (DomainPolicy.is_suspended policy));
  if (suspended : bool) then mret tt
  else
    blocked ← (if moderation_activity activity then mret false
               else on_relations (Relations.local_remote_accounts_are_blocked account actor));
    if (blocked : bool) then mret tt
    else post_as account (effective_inbox personal_inbox remote) activity.

(** * The handlers of delivery jobs *)

Definition parsed {A} (invalid : string) (p : option A) : Op Db A :=
  lift_option (InvalidInput invalid) p.

Definition deliver_status_activity (payload : JsonValue) : Op Db unit :=
  p ← parsed "invalid status delivery payload" (status_delivery_of uuid_text payload);
  match sd_inbox p with
  | Some inbox => deliver_grouped_activity (mkAccountId (sd_local p)) (sd_remotes p) inbox
                    (sd_activity p) (sd_personal p)
  | None => deliver_activity (mkAccountId (sd_local p)) (mkAccountId (sd_remote p)) (sd_activity p)
              (sd_personal p)
  end.

Definition deliver_quote_activity (payload : JsonValue) : Op Db unit :=
  p ← parsed "invalid quote delivery payload" (status_delivery_of uuid_text payload);
  deliver_activity (mkAccountId (sd_local p)) (mkAccountId (sd_remote p)) (sd_activity p) true.

Definition deliver_actor_update (payload : JsonValue) : Op Db unit :=
  p ← parsed "invalid actor update delivery payload" (actor_update_delivery_of uuid_text payload);
  match sd_inbox p with
  | Some inbox => deliver_grouped_activity (mkAccountId (sd_local p)) (sd_remotes p) inbox
                    (sd_activity p) false
  | None => deliver_activity (mkAccountId (sd_local p)) (mkAccountId (sd_remote p)) (sd_activity p) false
  end.

Definition deliver_targeted (invalid : string) (personal_inbox : bool) (payload : JsonValue) :
    Op Db unit :=
  p ← parsed invalid (targeted_delivery_of payload);
  deliver_activity (mkAccountId (td_local p)) (mkAccountId (td_remote p)) (td_activity p) personal_inbox.

Definition deliver_follow_activity := deliver_targeted "invalid follow delivery payload" false.
Definition deliver_favourite_activity := deliver_targeted "invalid favourite delivery payload" false.
Definition deliver_reblog_activity := deliver_targeted "invalid reblog delivery payload" false.
Definition deliver_moderation_activity := deliver_targeted "invalid moderation delivery payload" true.

Definition deliver_poll_vote (payload : JsonValue) : Op Db unit :=
  p ← parsed "invalid poll vote payload" (poll_vote_delivery_of payload);
  for_each (pv_activities p) (fun activity =>
    deliver_activity (mkAccountId (pv_local p)) (mkAccountId (pv_remote p)) activity true).

Definition deliver_follow_response (payload : JsonValue) : Op Db unit :=
  p ← parsed "invalid federation delivery payload" (follow_response_delivery_of payload);
  require_local (mkAccountId (fr_local p)) "local delivery actor does not exist";;
  found ← find_remote_actor_by_id (mkAccountId (fr_remote p));
  remote ← lift_option (InvalidInput "remote delivery actor does not exist") found;
  found ← find_local_actor_key (mkAccountId (fr_local p));
  key ← lift_option (InvalidInput "local delivery actor has no signing key") found;
  lift_result (decrypt_private_key key);;
  activity ← match fr_activity p with
             | Some activity => mret activity
             | None =>
                 name ← gets (fun d => username d (fr_local p));
                 i ← uuid_now_v7;
                 let actor := public_url ("users/" ++ name)%string in
                 mret (JObject
                   [("@context"%string, JString "https://www.w3.org/ns/activitystreams");
                    ("id"%string, JString (actor ++ "#" ++ response_fragment (fr_response p) ++ "-"
                                           ++ uuid_text i)%string);
                    ("type"%string, JString (response_name (fr_response p)));
                    ("actor"%string, JString actor); ("object"%string, fr_follow p)])
             end;
  signed_post (remote_inbox_url remote) (key_id key) activity.
End Deliver.
