(* ===== verification/DeliveryInvariant.v ===== *)
(** What deliveries promise: recipients are grouped by inbox without loss, each
    inbox gets one durable job whose payload reads back, the handler posts once when
    some recipient may still receive, and what a refusal by the remote server does
    to the job. *)
From S2P Require Import Prelude Core Text Delivery.
From S2P Require Jobs Notifications Relations Statuses Pagination PaginationWalk DomainPolicy.

#[local] Existing Instances Notifications.jobs_part Relations.notifications_part
  Relations.jobs_part Statuses.relations_part Statuses.StatusVisibility_eq_dec
  DomainPolicy.statuses_part Relations.RemoteFollowState_eq_dec.

(** * Texts in order *)

Lemma compare_trans s1 s2 s3 :
  String.compare s1 s2 <> Gt -> String.compare s2 s3 <> Gt -> String.compare s1 s3 <> Gt.
Proof.
  revert s2 s3. induction s1 as [|a s1 IH]; intros [|b s2] [|c s3]; simpl; try done.
  unfold Ascii.compare.
  destruct (N.compare_spec (Ascii.N_of_ascii a) (Ascii.N_of_ascii b)) as [E1|E1|E1]; [| |done];
    destruct (N.compare_spec (Ascii.N_of_ascii b) (Ascii.N_of_ascii c)) as [E2|E2|E2]; try done;
    destruct (N.compare_spec (Ascii.N_of_ascii a) (Ascii.N_of_ascii c)) as [E3|E3|E3]; try lia; try done.
  apply IH.
Qed.

Lemma compare_refl s : String.compare s s = Eq.
Proof. pose proof (String.compare_antisym s s). by destruct (String.compare s s). Qed.

Lemma leb_not_gt s1 s2 : String.leb s1 s2 = true <-> String.compare s1 s2 <> Gt.
Proof. unfold String.leb. by destruct (String.compare s1 s2). Qed.

Lemma inbox_le_total a b : inbox_le a b = true \/ inbox_le b a = true.
Proof. apply String.leb_total. Qed.

Lemma inbox_le_trans a b c : inbox_le a b = true -> inbox_le b c = true -> inbox_le a c = true.
Proof. unfold inbox_le. rewrite !leb_not_gt. apply compare_trans. Qed.

(** * Grouping *)

(** The actors of a list whose inbox is [u], in the order of the list. *)
Definition addressed_at (u : string) (recipients : list RemoteActor) : list uuid :=
  remote_id <$> List.filter (fun a => bool_decide (effective_inbox false a = u)) recipients.

Lemma addressed_at_cons u a recipients :
  addressed_at u (a :: recipients) =
  if decide (effective_inbox false a = u) then remote_id a :: addressed_at u recipients
  else addressed_at u recipients.
Proof.
  unfold addressed_at. cbn [List.filter]. case_bool_decide; [rewrite decide_True by done; done|].
  by rewrite decide_False by done.
Qed.

Lemma push_all recipients m u :
  foldl push_actor m recipients !! u =
  match m !! u, addressed_at u recipients with
  | None, [] => None
  | o, ids => Some (default [] o ++ ids)
  end.
Proof.
  revert m. induction recipients as [|a recipients IH]; intros m; cbn [foldl].
  { cbn. destruct (m !! u); simpl; [by rewrite app_nil_r|done]. }
  rewrite IH, addressed_at_cons. unfold push_actor. rewrite lookup_insert.
  destruct (decide (effective_inbox false a = u)) as [->|Hu]; [|done].
  destruct (m !! u); simpl; [by rewrite <- (assoc_L (++))|done].
Qed.

Lemma addressed_at_nil u recipients :
  addressed_at u recipients <> [] <-> exists a, a ∈ recipients /\ effective_inbox false a = u.
Proof.
  unfold addressed_at. split.
  - intros Hne. destruct (List.filter _ recipients) as [|a l] eqn:Hf; [done|].
    assert (Ha : a ∈ a :: l) by left. rewrite <- Hf in Ha.
    apply list_elem_of_In, filter_In in Ha as [Ha%list_elem_of_In Hu%bool_decide_eq_true]. eauto.
  - intros (a & Ha & Hu) Hnil. apply fmap_nil_inv in Hnil.
    assert (Hin : a ∈ List.filter (fun a => bool_decide (effective_inbox false a = u)) recipients).
    { apply list_elem_of_In, filter_In. rewrite <- list_elem_of_In. by rewrite bool_decide_eq_true. }
    rewrite Hnil in Hin. by apply not_elem_of_nil in Hin.
Qed.

Definition sorted_group (g : string * list uuid) : DeliveryGroup := mkGroup g.1 (order_by N.leb g.2).

Lemma elem_of_shared_groups g recipients :
  g ∈ delivery_groups recipients false <->
  addressed_at (group_inbox_url g) recipients <> [] /\
  group_actors g = order_by N.leb (addressed_at (group_inbox_url g) recipients).
Proof.
  unfold delivery_groups. rewrite order_by_Permutation, list_elem_of_fmap. split.
  - intros ([u ids] & -> & Hin%elem_of_map_to_list). simpl. rewrite push_all, lookup_empty in Hin.
    destruct (addressed_at u recipients); [done|]. by injection Hin as <-.
  - intros [Hne Hids]. exists (group_inbox_url g, addressed_at (group_inbox_url g) recipients).
    split; [by destruct g; simpl in *; subst|]. apply elem_of_map_to_list.
    rewrite push_all, lookup_empty. by destruct (addressed_at _ recipients).
Qed.

Lemma shared_groups_urls recipients :
  NoDup (group_inbox_url <$> delivery_groups recipients false).
Proof.
  unfold delivery_groups. rewrite order_by_Permutation, <- list_fmap_compose.
  erewrite list_fmap_ext; [apply NoDup_fst_map_to_list|]. done.
Qed.

(** Grouping by shared inbox loses and repeats nobody: the groups are listed by
    strictly increasing inbox, an inbox has a group exactly when some recipient is
    reached there (at the shared inbox, or its own when it has none), and the group
    holds exactly those recipients, by increasing identifier.  Delivery to personal
    inboxes makes one group per recipient. *)
Theorem delivery_groups_partition_recipients recipients :
  let groups := delivery_groups recipients false in
  NoDup (group_inbox_url <$> groups) /\
  StronglySorted (fun a b => inbox_le a b = true) groups /\
  (forall u, u ∈ group_inbox_url <$> groups <->
     exists a, a ∈ recipients /\ effective_inbox false a = u) /\
  (forall g, g ∈ groups ->
     group_actors g ≡ₚ addressed_at (group_inbox_url g) recipients /\
     StronglySorted (fun a b => N.leb a b = true) (group_actors g)) /\
  delivery_groups recipients true ≡ₚ
    (fun a => mkGroup (effective_inbox true a) [remote_id a]) <$> recipients.
Proof.
  intros groups. split_and!.
  - apply shared_groups_urls.
  - apply order_by_sorted; [apply inbox_le_total|apply inbox_le_trans].
  - intros u. rewrite <- addressed_at_nil, list_elem_of_fmap. split.
    + intros (g & -> & [Hne _]%elem_of_shared_groups). done.
    + intros Hne. exists (mkGroup u (order_by N.leb (addressed_at u recipients))).
      split; [done|]. by apply elem_of_shared_groups.
  - intros g [_ ->]%elem_of_shared_groups. split; [apply order_by_Permutation|].
    apply order_by_sorted; intros *; rewrite !N.leb_le; lia.
  - unfold delivery_groups. apply order_by_Permutation.
Qed.

(** * Payloads *)

Lemma mapM_read_uuid ids : mapM read_uuid (JUuid <$> ids) = Some ids.
Proof. apply mapM_Some_2. induction ids; by constructor. Qed.

Lemma status_delivery_reads uuid_text p :
  status_delivery_of uuid_text (status_delivery_value p) = Some p.
Proof.
  destruct p as [local remote [|r remotes] inbox activity personal]; [by destruct inbox|].
  transitivity (read_uuids (JArray (JUuid <$> r :: remotes)) ≫= fun ids =>
    Some (mkStatusDelivery local remote ids inbox activity personal)); [by destruct inbox|].
  unfold read_uuids. by rewrite mapM_read_uuid.
Qed.

(** A delivery job reads back what was queued: encoding a payload and decoding
    it gives it back, whether or not it names a group of actors and an inbox. *)
Theorem status_delivery_roundtrip uuid_text p :
  status_delivery_of uuid_text (status_delivery_value p) = Some p.
Proof. apply status_delivery_reads. Qed.

(** * Queueing a group *)

Definition put_jobs (t : Jobs.table) (d : Db) : Db :=
  put_part (put_part (put_part (put_part t (relations_of d)) (statuses_of d)) (rules d)) d.

Lemma jobs_of_put t d : jobs_of (put_jobs t d) = t.
Proof. by destruct d as [[b a [ls rs lm rm [? ? ? ? ? ? ? ? ? ? ? ? ? []]]]]. Qed.

Lemma put_put_jobs t u d : put_jobs t (put_jobs u d) = put_jobs t d.
Proof. by destruct d as [[b a [ls rs lm rm [? ? ? ? ? ? ? ? ? ? ? ? ? []]]]]. Qed.

Lemma put_jobs_id d : put_jobs (jobs_of d) d = d.
Proof. by destruct d as [[b a [ls rs lm rm [? ? ? ? ? ? ? ? ? ? ? ? ? []]]]]. Qed.

Lemma delivery_enqueue_run job w d :
  enqueue job w d =
  let '(r, w', t) := Jobs.enqueue_job_on_connection job w (jobs_of d) in
  (match r with Ok _ => Ok tt | Err e => Err e end, w', put_jobs t d).
Proof.
  unfold enqueue, on_relations, DomainPolicy.on_relations, Relations.enqueue, zoom.
  cbv [mbind M_bind mret M_ret].
  change (get_part (get_part (get_part (get_part d)))) with (jobs_of d).
  by destruct (Jobs.enqueue_job_on_connection job w (jobs_of d)) as [[[j|e] w'] t].
Qed.

(** The active jobs of a kind under a key. *)
Definition active (kind : Jobs.JobKind) (key : string) (t : Jobs.table) : list Jobs.Job :=
  rows_where (Jobs.active_duplicate kind (Some key)) t.

Definition carries (kind : Jobs.JobKind) (payload : JsonValue) (key : string) (j : Jobs.Job) : Prop :=
  Jobs.kind j = kind /\ Jobs.payload j = payload /\ Jobs.deduplication_key j = Some key /\
  Jobs.completed_at j = None.

Lemma carries_active kind payload key key' j :
  carries kind payload key j ->
  Jobs.active_duplicate kind (Some key') j = bool_decide (key' = key).
Proof.
  intros (Hk & _ & Hkey & Hc). unfold Jobs.active_duplicate. rewrite Hkey, Hc, Hk.
  by rewrite bool_decide_true.
Qed.

(** An enqueue under a free key adds one job; under a taken key it adds nothing. *)
Lemma enqueue_free job key w d w' d' :
  Jobs.new_deduplication_key job = Some key -> active (Jobs.new_kind job) key (jobs_of d) = [] ->
  enqueue job w d = (Ok tt, w', d') ->
  exists j, carries (Jobs.new_kind job) (Jobs.new_payload job) key j /\
    rows (jobs_of d') ≡ₚ j :: rows (jobs_of d) /\ d' = put_jobs (jobs_of d') d.
Proof.
  intros Hkey Hfree. rewrite delivery_enqueue_run. unfold Jobs.enqueue_job_on_connection. run_unfold.
  unfold active in Hfree. rewrite Hkey, Hfree. destruct (jobs_of d !! _) eqn:Hi; [done|].
  intros [= <- <-]. rewrite jobs_of_put. eexists. split; [|split; [by apply rows_insert_fresh|done]].
  by split_and!.
Qed.

Lemma enqueue_taken job key w d w' d' :
  Jobs.new_deduplication_key job = Some key -> active (Jobs.new_kind job) key (jobs_of d) <> [] ->
  enqueue job w d = (Ok tt, w', d') -> d' = d.
Proof.
  intros Hkey Htaken. rewrite delivery_enqueue_run. unfold Jobs.enqueue_job_on_connection. run_unfold.
  unfold active in Htaken. rewrite Hkey. destruct (rows_where _ _); [done|].
  intros [= _ <-]. apply put_jobs_id.
Qed.

Lemma active_perm kind key t l :
  rows t ≡ₚ l -> active kind key t ≡ₚ List.filter (Jobs.active_duplicate kind (Some key)) l.
Proof. intros Hp. by apply filter_Permutation. Qed.

Lemma delivery_key_inj activity_id u u' :
  delivery_key activity_id u = delivery_key activity_id u' -> u = u'.
Proof. unfold delivery_key. intros H. by apply (inj (String.append activity_id)), (inj (String.append ":")) in H. Qed.

(** Distinct inboxes whose keys are free get one job each. *)
Lemma enqueue_groups_run kind value activity_id groups w d w' d' :
  NoDup (group_inbox_url <$> groups) -> (forall g, g ∈ groups -> group_actors g <> []) ->
  (forall g, g ∈ groups -> active kind (delivery_key activity_id (group_inbox_url g)) (jobs_of d) = []) ->
  enqueue_groups kind value activity_id groups w d = (Ok tt, w', d') ->
  exists new,
    Forall2 (fun g j => exists first rest, group_actors g = first :: rest /\
      carries kind (value g first) (delivery_key activity_id (group_inbox_url g)) j) groups new /\
    rows (jobs_of d') ≡ₚ new ++ rows (jobs_of d) /\ d' = put_jobs (jobs_of d') d.
Proof.
  revert w d. induction groups as [|g groups IH]; intros w d Hnd Hne Hfree Hrun.
  { injection Hrun as _ <-. exists []. split_and!; [constructor|done|by rewrite put_jobs_id]. }
  apply NoDup_cons in Hnd as [Hg Hnd]. unfold enqueue_groups in Hrun. cbn [for_each] in Hrun.
  inv_bind Hrun u1 w1 d1 H1. destruct u1.
  destruct (group_actors g) as [|first rest] eqn:Ha; [by destruct (Hne g ltac:(left))|].
  inv_bind H1 now w2 d2 H2. injection H2 as _ _ <-.
  eapply enqueue_free in H1 as (j & Hj & Hrows & Hd1); [|done|apply Hfree; left].
  eapply IH in Hrun as (new & Hnew & Hrows' & Hd'); [|done| |].
  - exists (j :: new). split_and!.
    + constructor; [|done]. by exists first, rest.
    + rewrite Hrows', Hrows. symmetry. apply Permutation_middle.
    + rewrite Hd', Hd1 at 1. by rewrite put_put_jobs.
  - intros g' Hg'. apply Hne. by right.
  - intros g' Hg'. apply Permutation_nil_r. rewrite (active_perm _ _ _ _ Hrows). cbn [List.filter].
    simpl in Hj. rewrite (carries_active _ _ _ _ _ Hj), bool_decide_false.
    + apply Permutation_nil_r, Hfree. by right.
    + intros Hk%delivery_key_inj. apply Hg. rewrite <- Hk. by apply list_elem_of_fmap_2.
Qed.

(** * From recipients to requests *)

Section Deliveries.
Context (host_domain : text -> option text) (uuid_text : uuid -> string) (status_text : Z -> string)
        (federation_allowed_domains : list text)
        (decrypt_private_key : LocalActorKey -> result unit RoostyError)
        (request : nat -> SignatureFormat -> string -> string -> JsonValue -> result Z RoostyError).

Abbreviation deliver_status := (deliver_status_activity host_domain uuid_text status_text
  federation_allowed_domains decrypt_private_key request).
Abbreviation deliver_grouped := (deliver_grouped_activity host_domain status_text
  federation_allowed_domains decrypt_private_key request).
Abbreviation post := (post_as status_text decrypt_private_key request).

Lemma filter_other_keys kind value activity_id u groups new :
  u ∉ group_inbox_url <$> groups ->
  Forall2 (fun g j => exists first rest, group_actors g = first :: rest /\
    carries kind (value g first) (delivery_key activity_id (group_inbox_url g)) j) groups new ->
  List.filter (Jobs.active_duplicate kind (Some (delivery_key activity_id u))) new = [].
Proof.
  intros Hu. induction 1 as [|g j groups new (first & rest & _ & Hj) _ IH]; [done|].
  rewrite fmap_cons, not_elem_of_cons in Hu. destruct Hu as [Hg Hu].
  cbn [List.filter]. rewrite (carries_active _ _ _ _ _ Hj), bool_decide_false; [by apply IH|].
  by intros ?%delivery_key_inj.
Qed.

Lemma filter_own_key kind value activity_id g groups new :
  NoDup (group_inbox_url <$> groups) -> g ∈ groups ->
  Forall2 (fun g j => exists first rest, group_actors g = first :: rest /\
    carries kind (value g first) (delivery_key activity_id (group_inbox_url g)) j) groups new ->
  exists j first rest, group_actors g = first :: rest /\
    carries kind (value g first) (delivery_key activity_id (group_inbox_url g)) j /\
    List.filter (Jobs.active_duplicate kind (Some (delivery_key activity_id (group_inbox_url g)))) new
      = [j].
Proof.
  intros Hnd Hg Hf. revert Hnd Hg.
  induction Hf as [|g' j groups new (first & rest & Hgr & Hj) Hrest IH]; intros Hnd Hg;
    [by apply not_elem_of_nil in Hg|].
  rewrite fmap_cons in Hnd. apply NoDup_cons in Hnd as [Hout Hnd]. cbn [List.filter].
  rewrite (carries_active _ _ _ _ _ Hj). apply elem_of_cons in Hg as [->|Hg].
  - exists j, first, rest. rewrite bool_decide_true by done. split_and!; [done|done|].
    f_equal. by eapply filter_other_keys.
  - rewrite bool_decide_false; [by apply IH|]. intros Hk%delivery_key_inj. apply Hout.
    rewrite <- Hk. by apply list_elem_of_fmap_2.
Qed.

(** C33. Queueing a broad activity ([personal_inbox] is false: shared inboxes are used)
    for a list of recipients refines its intent, one delivery per inbox: when no
    active job has a deduplication key of the activity, exactly the inboxes where some
    recipient is reached have an active job, each has one, and running that job,
    whenever it is claimed, is the grouped delivery of the activity to that inbox on
    behalf of all the recipients it reaches.  Nothing else of the store changes.
    (Direct deliveries are not covered: [shared_personal_inbox_drops_a_recipient].) *)
Theorem every_inbox_gets_one_job account recipients activity activity_id w d w' d' :
  (forall u, active Jobs.FederationStatusDelivery (delivery_key activity_id u) (jobs_of d) = []) ->
  enqueue_status_delivery_groups account recipients activity activity_id false w d = (Ok tt, w', d') ->
  d' = put_jobs (jobs_of d') d /\
  forall u,
    let queued := active Jobs.FederationStatusDelivery (delivery_key activity_id u) (jobs_of d') in
    match addressed_at u recipients with
    | [] => queued = []
    | ids => exists j, queued = [j] /\ forall w2 d2,
        deliver_status (Jobs.payload j) w2 d2 =
        deliver_grouped account (order_by N.leb ids) u activity false w2 d2
    end.
Proof.
  intros Hfree Hrun. unfold enqueue_status_delivery_groups in Hrun.
  apply enqueue_groups_run in Hrun as (new & Hnew & Hrows & Hd');
    [|apply shared_groups_urls| |auto].
  2: { intros g [Hne ->]%elem_of_shared_groups Hnil. apply Hne.
       apply Permutation_nil. rewrite <- Hnil. apply order_by_Permutation. }
  split; [done|]. intros u. cbv zeta.
  pose proof (active_perm Jobs.FederationStatusDelivery (delivery_key activity_id u) _ _ Hrows) as Hact.
  rewrite List.filter_app in Hact. change (List.filter _ (rows (jobs_of d))) with
    (active Jobs.FederationStatusDelivery (delivery_key activity_id u) (jobs_of d)) in Hact.
  rewrite Hfree, app_nil_r in Hact.
  destruct (addressed_at u recipients) as [|i ids] eqn:Hu.
  - erewrite filter_other_keys in Hact; [by apply Permutation_nil_r in Hact| |exact Hnew].
    intros (g & -> & [Hne _]%elem_of_shared_groups)%list_elem_of_fmap. congruence.
  - assert (Hg : mkGroup u (order_by N.leb (i :: ids)) ∈ delivery_groups recipients false)
      by (apply elem_of_shared_groups; cbn [group_inbox_url group_actors]; rewrite Hu; done).
    destruct (filter_own_key _ _ _ _ _ _ (shared_groups_urls _) Hg Hnew)
      as (j & first & rest & Hgr & (Hk & Hp & Hkey & Hc) & Hj).
    cbn [group_inbox_url group_actors] in *.
    rewrite Hj in Hact. apply Permutation_singleton_r in Hact. exists j. split; [done|].
    intros w2 d2. rewrite Hp. unfold deliver_status_activity, status_group_value, parsed.
    rewrite status_delivery_reads. cbn [lift_option group_actors group_inbox_url].
    by destruct account.
Qed.

(** ** Who may still receive *)

Definition policy_of (domain : text) (d : Db) : result DomainPolicy.FederationDomainPolicy RoostyError :=
  match DomainPolicy.federation_domain_suffixes host_domain domain with
  | Ok suffixes => Ok (DomainPolicy.combined_policy suffixes (rules d))
  | Err e => Err e
  end.

Lemma domain_policy_run domain w d :
  domain_policy host_domain domain w d = (policy_of domain d, w, d).
Proof.
  unfold domain_policy, DomainPolicy.federation_domain_policy, policy_of, zoom. run_unfold.
  destruct d as [r i s u k p]. cbn. by destruct (DomainPolicy.federation_domain_suffixes _ _).
Qed.

(** A recipient of a delivery that is neither gone, moved to another inbox,
    suspended, off the allow list, of a suspended domain nor, unless the activity
    is about a block, blocked in either direction. *)
Definition may_receive (account : AccountId) (activity : JsonValue) (inbox : string)
    (personal_inbox : bool) (d : Db) (i : uuid) : Prop :=
  exists a, find_remote_actor i d = Some a /\
    effective_inbox personal_inbox a = inbox /\
    federation_domain_is_allowed federation_allowed_domains (remote_domain a) = true /\
    remote_suspended_at a = None /\
    (moderation_activity activity = true \/
     Relations.remote_pair_blocked (account_uuid account) i (relations_of d) = false) /\
    exists p, policy_of (remote_domain a) d = Ok p /\ DomainPolicy.is_suspended p = false.

(** The rules can be evaluated for every actor that is looked at. *)
Definition policies_readable (actors : list uuid) (d : Db) : Prop :=
  forall i a, i ∈ actors -> find_remote_actor i d = Some a ->
    is_ok (policy_of (remote_domain a) d) = true.

Lemma any_eligible_run blocked inbox personal_inbox actors w d :
  (forall a, a ∈ actors -> is_ok (policy_of (remote_domain a) d) = true) ->
  exists b, any_eligible host_domain federation_allowed_domains blocked inbox personal_inbox actors w d
      = (Ok b, w, d) /\
    (b = true <-> exists a p, a ∈ actors /\
       passed_over federation_allowed_domains blocked inbox personal_inbox a = false /\
       policy_of (remote_domain a) d = Ok p /\ DomainPolicy.is_suspended p = false).
Proof.
  induction actors as [|a actors IH]; intros Hok.
  { exists false. split; [done|]. split; [done|]. by intros (a & p & []%not_elem_of_nil & _). }
  destruct IH as (b & Hrun & Hb); [intros; apply Hok; by right|]. cbn [any_eligible].
  destruct (passed_over _ blocked inbox personal_inbox a) eqn:Hpass.
  { exists b. split; [done|]. rewrite Hb. split; intros (x & p & Hin & Hx); exists x, p.
    - split; [by right|done].
    - split; [|done]. apply elem_of_cons in Hin as [->|Hin]; [|done]. destruct Hx. congruence. }
  unfold mbind, M_bind. rewrite domain_policy_run.
  specialize (Hok a ltac:(left)) as Ha. destruct (policy_of (remote_domain a) d) as [p|] eqn:Hp; [|done].
  destruct (DomainPolicy.is_suspended p) eqn:Hs.
  - exists b. split; [done|]. rewrite Hb. split; intros (x & q & Hin & Hx); exists x, q.
    + split; [by right|done].
    + split; [|done]. apply elem_of_cons in Hin as [->|Hin]; [|done].
      destruct Hx as (_ & Hq & Hf). congruence.
  - exists true. split; [done|]. split; [|done]. intros _. exists a, p. split; [left|done].
Qed.
Lemma elem_of_take_each {V} ids (t : gmap uuid V) i v :
  (i, v) ∈ Pagination.take_each ids t <-> i ∈ ids /\ t !! i = Some v.
Proof.
  revert t. induction ids as [|k ids IH]; intros t; cbn [Pagination.take_each].
  { split; [by intros []%not_elem_of_nil|by intros [[]%not_elem_of_nil _]]. }
  rewrite elem_of_cons. destruct (t !! k) as [u|] eqn:Hk.
  - rewrite elem_of_cons, IH, lookup_delete_Some. split.
    + intros [[= -> ->]|(Hin & Hne & Hi)]; auto.
    + intros [[->|Hin] Hi]; [left; congruence|].
      destruct (decide (k = i)) as [->|Hne]; [left; congruence|auto].
  - rewrite IH. split; [naive_solver|]. intros [[->|Hin] Hi]; [congruence|auto].
Qed.

Lemma elem_of_rows_by_id {V} ids (t : gmap uuid V) i v :
  (i, v) ∈ Pagination.rows_by_id ids t <-> i ∈ ids /\ t !! i = Some v.
Proof.
  unfold Pagination.rows_by_id. destruct ids as [|k ids].
  { split; [by intros []%not_elem_of_nil|by intros [[]%not_elem_of_nil _]]. }
  rewrite elem_of_take_each, map_lookup_filter_Some. naive_solver.
Qed.

Lemma elem_of_actors_by_id ids d a :
  a ∈ (actor_of_row d <$> Pagination.rows_by_id ids (Relations.remote_actors (relations_of d))) <->
  remote_id a ∈ ids /\ find_remote_actor (remote_id a) d = Some a.
Proof.
  rewrite list_elem_of_fmap. unfold find_remote_actor. split.
  - intros ([i row] & -> & [Hi Hrow]%elem_of_rows_by_id). cbn. by rewrite Hrow.
  - intros [Hi Ha]. destruct (Relations.remote_actors (relations_of d) !! remote_id a) as [row|] eqn:Hrow;
      [|done]. cbn in Ha. injection Ha as Ha. exists (remote_id a, row). split; [done|].
    by apply elem_of_rows_by_id.
Qed.

Lemma find_remote_actor_id i d a : find_remote_actor i d = Some a -> remote_id a = i.
Proof.
  unfold find_remote_actor. destruct (Relations.remote_actors _ !! i); [|done]. by intros [= <-].
Qed.

(** The actors that block or are blocked, as the handler reads them. *)
Definition blocked_among (account : AccountId) (activity : JsonValue) (actors : list uuid) (d : Db) :
    gset uuid :=
  if moderation_activity activity then ∅
  else list_to_set (List.filter (fun i => Relations.remote_pair_blocked (account_uuid account) i
                                            (relations_of d)) actors).

Lemma passed_over_false account activity inbox personal_inbox actors d a :
  remote_id a ∈ actors ->
  passed_over federation_allowed_domains (blocked_among account activity actors d) inbox personal_inbox a
    = false <->
  effective_inbox personal_inbox a = inbox /\
  federation_domain_is_allowed federation_allowed_domains (remote_domain a) = true /\
  remote_suspended_at a = None /\
  (moderation_activity activity = true \/
   Relations.remote_pair_blocked (account_uuid account) (remote_id a) (relations_of d) = false).
Proof.
  intros Hin. unfold passed_over, blocked_among.
  rewrite !orb_false_iff, !negb_false_iff, bool_decide_eq_true, !bool_decide_eq_false.
  rewrite <- eq_None_not_Some.
  assert (Hb : remote_id a ∉ (if moderation_activity activity then (∅ : gset uuid)
     else list_to_set (List.filter (fun i => Relations.remote_pair_blocked (account_uuid account) i
                                               (relations_of d)) actors)) <->
    moderation_activity activity = true \/
    Relations.remote_pair_blocked (account_uuid account) (remote_id a) (relations_of d) = false).
  { destruct (moderation_activity activity); [split; [by left|set_solver]|].
    rewrite elem_of_list_to_set, list_elem_of_In, filter_In, <- list_elem_of_In.
    destruct (Relations.remote_pair_blocked _ _ _); naive_solver. }
  rewrite Hb. tauto.
Qed.

Lemma blocked_run account activity actors w d :
  (if moderation_activity activity then mret ∅
   else on_relations (Relations.blocked_remote_actor_ids_for_local_account account actors)) w d
  = (Ok (blocked_among account activity actors d), w, d).
Proof.
  unfold blocked_among. destruct (moderation_activity activity); [done|].
  unfold on_relations, DomainPolicy.on_relations, zoom. cbn.
  by destruct d as [[b a [ls rs lm rm [? ? ? ? ? ? ? ? ? ? ? ? ? []]]]].
Qed.

Lemma grouped_run account actors inbox activity personal_inbox w d :
  local_account_exists account d = true -> policies_readable actors d ->
  exists b, deliver_grouped account actors inbox activity personal_inbox w d =
      (if (b : bool) then post account inbox activity w d else (Ok tt, w, d)) /\
    (b = true <-> exists i, i ∈ actors /\ may_receive account activity inbox personal_inbox d i).
Proof.
  intros Hlocal Hread.
  destruct (any_eligible_run (blocked_among account activity actors d) inbox personal_inbox
    (actor_of_row d <$> Pagination.rows_by_id actors (Relations.remote_actors (relations_of d))) w d)
    as (b & Hrun & Hb).
  { intros a [Hin Ha]%elem_of_actors_by_id. by apply (Hread (remote_id a)). }
  exists b. split.
  - unfold deliver_grouped_activity, require_local, remote_actors_by_id.
    cbv [mbind M_bind gets mret M_ret] in *. rewrite Hlocal. cbn [fst snd].
    pose proof (blocked_run account activity actors w d) as Hbl. cbv [mret M_ret] in Hbl.
    rewrite Hbl, Hrun. by destruct b.
  - rewrite Hb. unfold may_receive. split.
    + intros (a & p & [Hin Ha]%elem_of_actors_by_id & Hpass & Hp & Hs).
      apply passed_over_false in Hpass as (Hi & Hal & Hsu & Hbk); [|done].
      exists (remote_id a). split; [done|]. exists a. split_and!; eauto.
    + intros (i & Hin & a & Ha & Hi & Hal & Hsu & Hbk & p & Hp & Hs).
      pose proof (find_remote_actor_id _ _ _ Ha) as <-. exists a, p.
      split_and!; [by apply elem_of_actors_by_id| |done|done]. by apply passed_over_false.
Qed.

(** A grouped delivery decides at the time it runs: as long as one of the actors
    it was queued for still has this inbox, is not suspended, is on an allowed and
    not suspended domain and is not blocked in either direction (blocks do not stop
    activities about blocks), the activity is posted to the inbox, once for all of
    them and signed with the account's key; when nobody is left the job succeeds and
    sends nothing. *)
Theorem grouped_delivery_needs_one_recipient account actors inbox activity personal_inbox w d :
  local_account_exists account d = true -> policies_readable actors d ->
  ((exists i, i ∈ actors /\ may_receive account activity inbox personal_inbox d i) /\
   deliver_grouped account actors inbox activity personal_inbox w d = post account inbox activity w d)
  \/
  ((forall i, i ∈ actors -> ~ may_receive account activity inbox personal_inbox d i) /\
   deliver_grouped account actors inbox activity personal_inbox w d = (Ok tt, w, d)).
Proof.
  intros Hlocal Hread.
  destruct (grouped_run account actors inbox activity personal_inbox w d Hlocal Hread) as ([] & -> & Hb).
  - left. split; [by apply Hb|done].
  - right. split; [|done]. intros i Hi Hmay. assert (false = true) by (apply Hb; eauto). done.
Qed.

(** ** One request or two *)

Definition with_posts (l : list Post) (d : Db) : Db :=
  mkDb (rules d) (inbox_url d) (shared_inbox_url d) (username d) (actor_keys d) (posts d ++ l).

Definition sent (format : SignatureFormat) (inbox key : string) (activity : JsonValue) (n : nat) : Post :=
  mkPost format inbox key activity (request n format inbox key activity).

Lemma send_run format inbox key activity w d :
  let p := sent format inbox key activity (length (posts d)) in
  send_signed_post request format inbox key activity w d = (post_outcome p, w, with_posts [p] d).
Proof.
  unfold send_signed_post. cbv [mbind M_bind gets modify lift_result]. cbv zeta. cbn.
  unfold with_posts, sent. by destruct (request (length (posts d)) format inbox key activity).
Qed.

Lemma lift_result_run {S E A} (r : result A E) w (s : S) : lift_result r w s = (r, w, s).
Proof. by destruct r. Qed.

(** A delivery makes one signed request, and a second one in the newer signature
    format exactly when the first is answered with 400 or 401.  It succeeds exactly
    when the last answer is a success; a request without an answer fails with its
    own error. *)
Theorem delivery_retries_signature_once inbox key activity w d :
  let n := length (posts d) in
  let first := sent Legacy inbox key activity n in
  let second := sent Rfc9421 inbox key activity (S n) in
  signed_post status_text request inbox key activity w d =
  match post_outcome first with
  | Ok status =>
      if should_retry_with_rfc9421 status then
        (match post_outcome second with
         | Ok status => classify_delivery_status status_text status
         | Err e => Err e
         end, w, with_posts [first; second] d)
      else (classify_delivery_status status_text status, w, with_posts [first] d)
  | Err e => (Err e, w, with_posts [first] d)
  end.
Proof.
  intros n first second. unfold signed_post. cbv [mbind M_bind]. rewrite send_run. fold n first.
  destruct (post_outcome first) as [status|e]; [|done].
  destruct (should_retry_with_rfc9421 status); [|apply lift_result_run].
  rewrite send_run. replace (length (posts (with_posts [first] d))) with (S n)
    by (cbn; rewrite length_app; cbn; lia).
  fold second. replace (with_posts [second] (with_posts [first] d)) with (with_posts [first; second] d)
    by (unfold with_posts; cbn; by rewrite <- (assoc_L (++))).
  destruct (post_outcome second) as [status'|e]; [apply lift_result_run|done].
Qed.

(** ** Recipients that share a personal inbox *)

(** Personal deliveries of one activity are queued under one key per inbox, so
    two recipients with the same personal inbox share one key: the second job is
    taken for a duplicate of the first and is not queued.  The job that is left
    names the first recipient alone, and whenever it runs while that one may not
    receive, nothing is sent for the other either. *)
Theorem shared_personal_inbox_drops_a_recipient account a b activity activity_id w d w' d' :
  remote_inbox_url a = remote_inbox_url b -> (remote_id a < remote_id b)%N ->
  active Jobs.FederationStatusDelivery (delivery_key activity_id (remote_inbox_url a)) (jobs_of d) = [] ->
  enqueue_status_delivery_groups account [a; b] activity activity_id true w d = (Ok tt, w', d') ->
  exists j,
    active Jobs.FederationStatusDelivery (delivery_key activity_id (remote_inbox_url a)) (jobs_of d')
      = [j] /\
    (forall w2 d2, deliver_status (Jobs.payload j) w2 d2 =
       deliver_grouped account [remote_id a] (remote_inbox_url a) activity true w2 d2) /\
    forall w2 d2,
      local_account_exists account d2 = true -> policies_readable [remote_id a] d2 ->
      ~ may_receive account activity (remote_inbox_url a) true d2 (remote_id a) ->
      deliver_status (Jobs.payload j) w2 d2 = (Ok tt, w2, d2).
Proof.
  intros Hurl Hlt Hfree Hrun. unfold enqueue_status_delivery_groups in Hrun.
  assert (Hgroups : delivery_groups [a; b] true =
    [mkGroup (remote_inbox_url a) [remote_id a]; mkGroup (remote_inbox_url a) [remote_id b]]).
  { unfold delivery_groups. cbn. rewrite <- Hurl. unfold inbox_and_actor_le. cbn.
    rewrite compare_refl. by rewrite (proj2 (N.leb_le _ _)) by lia. }
  rewrite Hgroups in Hrun. unfold enqueue_groups in Hrun. cbn [for_each group_actors] in Hrun.
  inv_bind Hrun u1 w1 d1 H1. inv_bind H1 now w2 d2 H2. injection H2 as _ _ <-. destruct u1.
  eapply enqueue_free in H1 as (j & (Hk & Hp & Hkey & Hc) & Hrows & Hd1); [|done|exact Hfree].
  inv_bind Hrun u3 w3 d3 H3. destruct u3. injection Hrun as _ <-.
  inv_bind H3 now' w4 d4 H4. injection H4 as _ _ <-. cbn in Hk, Hp.
  assert (Hone : active Jobs.FederationStatusDelivery (delivery_key activity_id (remote_inbox_url a))
    (jobs_of d1) = [j]).
  { apply Permutation_singleton_r. rewrite (active_perm _ _ _ _ Hrows). cbn [List.filter].
    rewrite (carries_active _ (Jobs.payload j) (delivery_key activity_id (remote_inbox_url a)))
      by (by split_and!).
    rewrite bool_decide_true by done.
    change (List.filter _ (rows (jobs_of d))) with (active Jobs.FederationStatusDelivery
      (delivery_key activity_id (remote_inbox_url a)) (jobs_of d)). by rewrite Hfree. }
  eapply enqueue_taken in H3; [|reflexivity|cbn; rewrite Hone; done]. subst d3.
  assert (Hdel : forall w2 d2, deliver_status (Jobs.payload j) w2 d2 =
    deliver_grouped account [remote_id a] (remote_inbox_url a) activity true w2 d2).
  { intros w5 d5. rewrite Hp. unfold deliver_status_activity, status_group_value, parsed.
    rewrite status_delivery_reads. by destruct account. }
  exists j. split_and!; [done|done|]. intros w5 d5 Hlocal Hread Hno. rewrite Hdel.
  destruct (grouped_run account [remote_id a] (remote_inbox_url a) activity true w5 d5 Hlocal Hread)
    as ([] & -> & Hb); [|done].
  destruct Hb as [(i & ->%list_elem_of_singleton & Hmay) _]; [done|]. by destruct Hno.
Qed.

(** ** Follow responses *)

(** Answers to follow requests are sent whatever the moderators decided: a job
    that carries an Accept or a Reject posts it to the actor's own inbox even when
    the actor is suspended, its domain is suspended or off the allow list, or either
    side blocks the other, while every other delivery to that actor is dropped. *)
Theorem follow_responses_ignore_suspension public_url payload p activity account remote key w d :
  follow_response_delivery_of payload = Some p -> fr_activity p = Some activity ->
  fr_local p = account_uuid account ->
  local_account_exists account d = true ->
  find_remote_actor (fr_remote p) d = Some remote -> is_Some (remote_suspended_at remote) ->
  value_of (find_local_actor_key account) w d = Ok (Some key) -> decrypt_private_key key = Ok tt ->
  deliver_follow_response uuid_text status_text public_url decrypt_private_key request payload w d
    = signed_post status_text request (remote_inbox_url remote) (key_id key) activity w d /\
  forall other personal_inbox,
    deliver_activity host_domain status_text federation_allowed_domains decrypt_private_key request
      account (mkAccountId (fr_remote p)) other personal_inbox w d = (Ok tt, w, d).
Proof.
  intros Hp Ha Hl Hlocal Hremote [at_ Hsusp] Hkey Hdec. split.
  - unfold deliver_follow_response, parsed, require_local, find_remote_actor_by_id.
    unfold find_local_actor_key, value_of in *.
    cbv [mbind M_bind gets mret M_ret lift_option lift_result fst] in *. rewrite Hp, Ha, Hl.
    destruct account as [i]. cbn [account_uuid] in *. rewrite Hlocal, Hremote.
    injection Hkey as Hkey. rewrite Hkey, Hdec. done.
  - intros other personal_inbox. unfold deliver_activity, require_local, find_remote_actor_by_id.
    cbv [mbind M_bind gets mret M_ret lift_option]. rewrite Hlocal. cbn [account_uuid].
    rewrite Hremote, Hsusp. rewrite orb_comm. done.
Qed.
End Deliveries.

(** * Refusals *)

(** No text of an error starts as the worker's tests ask: the text starts with the
    name of the class of errors. *)
Lemma error_text_prefix db_text e :
  Jobs.starts_with "permanent federation delivery failure:" (error_text db_text e) = false /\
  Jobs.starts_with "permanent federation fetch failure:" (error_text db_text e) = false.
Proof. by destruct e as [| |[]|[]| | | | |]. Qed.

(** A refusal by the remote server never ends a delivery.  The statuses 400, 401,
    403, 404, 405 and 410 are reported as permanent failures, and the worker means
    to end a job whose error starts with that text; but the text of the error is
    "invalid input: permanent ..", so the test never holds and every failure of a
    federation job younger than the maximal age is put back to be tried again. *)
Theorem permanent_refusals_are_retried db_text status_text max_age job w t status :
  status ∈ [400; 401; 403; 404; 405; 410] ->
  Jobs.starts_with "federation_" (Jobs.as_str (Jobs.claimed_kind job)) = true ->
  w_clock w (w_ticks w) - Jobs.claimed_created_at job < max_age ->
  exists m,
    let e := InvalidInput ("permanent federation delivery failure:" ++ m)%string in
    classify_delivery_status status_text status = Err e /\
    Jobs.record_outcome (error_text db_text) max_age job (Err e) w t =
      (_ ← Jobs.mark_job_failed job (error_text db_text e); mret tt)
        (world_of (now_utc : Op Jobs.table time) w t) t.
Proof.
  intros Hstatus Hkind Hage. exists (" remote inbox returned " ++ status_text status)%string.
  cbv zeta. split.
  { unfold classify_delivery_status. rewrite (bool_decide_true (status ∈ _)) by done.
    assert (is_success status = false) as ->; [|done].
    rewrite !elem_of_cons in Hstatus. unfold is_success.
    destruct Hstatus as [->|[->|[->|[->|[->|[->|[]%not_elem_of_nil]]]]]]; reflexivity. }
  unfold Jobs.record_outcome, Jobs.is_permanent. rewrite Hkind.
  unfold Jobs.job_has_exceeded_max_age. cbv [mbind M_bind mret M_ret now_utc].
  destruct (error_text_prefix db_text (InvalidInput ("permanent federation delivery failure:" ++
    (" remote inbox returned " ++ status_text status)))%string) as [H1 H2].
  rewrite H1, H2, (proj2 (Z.leb_gt _ _)) by lia. reflexivity.
Qed.

(** * Recipients of a status *)

Lemma add_recipients_spec actors recipients :
  (forall i, i ∈ remote_id <$> add_recipients actors recipients <->
     i ∈ remote_id <$> actors \/ i ∈ remote_id <$> recipients) /\
  (NoDup (remote_id <$> recipients) -> NoDup (remote_id <$> add_recipients actors recipients)).
Proof.
  revert recipients. induction actors as [|a actors IH]; intros recipients; cbn [add_recipients].
  { split; [|done]. intros i. split; [by right|]. by intros [[]%not_elem_of_nil|]. }
  destruct (IH (if bool_decide (remote_id a ∈ remote_id <$> recipients) then recipients
                else recipients ++ [a])) as [Hin Hnd].
  case_bool_decide as Ha; split.
  - intros i. rewrite Hin, fmap_cons, elem_of_cons. naive_solver.
  - done.
  - intros i. rewrite Hin, fmap_cons, fmap_app, elem_of_cons, elem_of_app. cbn.
    rewrite list_elem_of_singleton. tauto.
  - intros H. apply Hnd. rewrite fmap_app. apply NoDup_app. split_and!; [done| |apply NoDup_singleton].
    intros i Hi ->%list_elem_of_singleton. done.
Qed.

Definition follower_ids (account : AccountId) (d : Db) : list uuid :=
  (fun kv : (uuid * uuid) * Relations.RemoteFollowRow => kv.1.1) <$>
    List.filter (fun kv : (uuid * uuid) * Relations.RemoteFollowRow =>
      (kv.1.2 =? account_uuid account)%N && bool_decide (Relations.rf_state kv.2 = Relations.Accepted))
      (map_to_list (Relations.remote_follows (relations_of d))).

Lemma accepted_follower_ids account d i :
  (exists f, Relations.remote_follows (relations_of d) !! (i, account_uuid account) = Some f /\
             Relations.rf_state f = Relations.Accepted) <->
  i ∈ follower_ids account d.
Proof.
  unfold follower_ids. rewrite list_elem_of_fmap. split.
  - intros (f & Hf & Hs). exists ((i, account_uuid account), f). split; [done|].
    apply list_elem_of_In, filter_In. rewrite <- list_elem_of_In. split; [by apply elem_of_map_to_list|].
    cbn. by rewrite N.eqb_refl, bool_decide_true.
  - intros ([[r l] f] & -> & Hin). apply list_elem_of_In, filter_In in Hin as [Hin Hp].
    apply list_elem_of_In, elem_of_map_to_list in Hin.
    apply andb_true_iff in Hp as [Hl%N.eqb_eq Hs%bool_decide_eq_true]. cbn in *. subst l. eauto.
Qed.

Lemma followers_run account w d :
  accepted_remote_followers account w d =
  (Ok (actors_in (follower_ids account d) d), w, d).
Proof.
  unfold accepted_remote_followers, on_relations, DomainPolicy.on_relations, zoom. cbn.
  by destruct d as [[b a [ls rs lm rm [? ? ? ? ? ? ? ? ? ? ? ? ? []]]]].
Qed.

Lemma elem_of_actors_in ids d i :
  i ∈ remote_id <$> actors_in ids d <->
  i ∈ ids /\ is_Some (Relations.remote_actors (relations_of d) !! i).
Proof.
  unfold actors_in. rewrite <- list_fmap_compose, list_elem_of_fmap. split.
  - intros ([k row] & -> & Hin). apply list_elem_of_In, filter_In in Hin as [Hin Hp].
    apply list_elem_of_In, elem_of_map_to_list in Hin. apply bool_decide_eq_true in Hp. cbn in *. eauto.
  - intros [Hi [row Hrow]]. exists (i, row). split; [done|]. apply list_elem_of_In, filter_In.
    rewrite <- list_elem_of_In, bool_decide_eq_true. by rewrite elem_of_map_to_list.
Qed.

Lemma NoDup_actors_in ids d : NoDup (remote_id <$> actors_in ids d).
Proof.
  unfold actors_in. rewrite <- list_fmap_compose. erewrite list_fmap_ext; [|done].
  apply (PaginationWalk.NoDup_fmap_filter fst), NoDup_fst_map_to_list.
Qed.

(** A status reaches whom its audience names, each once: the remote actors it
    mentions, the author of the remote status it answers and the actors the caller
    adds, and, unless it is direct, the actors that follow its author with an
    accepted follow. *)
Theorem status_recipients_are_its_audience account s audience previous w d :
  exists recipients,
    status_delivery_recipients account s audience previous w d = (Ok recipients, w, d) /\
    NoDup (remote_id <$> recipients) /\
    forall i, i ∈ remote_id <$> recipients <->
      i ∈ remote_id <$> explicit_mentions audience \/
      remote_id <$> reply_author audience = Some i \/
      i ∈ remote_id <$> previous \/
      (Statuses.ls_visibility s <> Statuses.Direct /\
       is_Some (Relations.remote_actors (relations_of d) !! i) /\
       exists f, Relations.remote_follows (relations_of d) !! (i, account_uuid account) = Some f /\
         Relations.rf_state f = Relations.Accepted).
Proof.
  unfold status_delivery_recipients.
  set (followers := if bool_decide (Statuses.ls_visibility s = Statuses.Direct) then []
    else actors_in (follower_ids account d) d).
  assert (Hrun : (if bool_decide (Statuses.ls_visibility s = Statuses.Direct) then mret []
    else accepted_remote_followers account) w d = (Ok followers, w, d)).
  { subst followers. case_bool_decide; [done|]. apply followers_run. }
  cbv [mbind M_bind]. rewrite Hrun. eexists. split; [done|]. split.
  - do 3 apply add_recipients_spec. subst followers.
    case_bool_decide; [apply NoDup_nil_2|apply NoDup_actors_in].
  - intros i. rewrite !(proj1 (add_recipients_spec _ _)).
    assert (Hfol : i ∈ remote_id <$> followers <->
      Statuses.ls_visibility s <> Statuses.Direct /\
      is_Some (Relations.remote_actors (relations_of d) !! i) /\
      exists f, Relations.remote_follows (relations_of d) !! (i, account_uuid account) = Some f /\
        Relations.rf_state f = Relations.Accepted).
    { subst followers. case_bool_decide as Hv.
      - split; [by intros []%not_elem_of_nil|]. by intros [? _].
      - rewrite elem_of_actors_in, <- accepted_follower_ids. tauto. }
    assert (Hrep : i ∈ remote_id <$> option_list (reply_author audience) <->
                   remote_id <$> reply_author audience = Some i).
    { destruct (reply_author audience) as [a|]; cbn; [rewrite list_elem_of_singleton; naive_solver|].
      split; [by intros []%not_elem_of_nil|done]. }
    rewrite Hfol, Hrep. tauto.
Qed.

(** * A concrete federation

    Account 1 is followed by the actors 10 and 20 of one server, which share an
    inbox; the actor 30 of another server is suspended.  Every server answers with
    the given status. *)
Definition sample_actor_row (domain : text) (suspended : option time) : Relations.RemoteActorRow :=
  Relations.mkRemoteActorRow domain None None None None suspended 0.

Definition sample_follow (actor : uuid) : Relations.RemoteFollowRow :=
  Relations.mkRemoteFollowRow 5 actor 1 "f" JNull Relations.Accepted 0 0.

Definition sample_key : LocalActorKey := mkActorKey 1 "https://home.test/users/a#main-key" RsaPkcs1Sha256 "k" None.

Definition sample_federation (blocks : gmap (uuid * uuid) Relations.RemoteBlockRow) : Db :=
  mkDb
    (DomainPolicy.mkDb ∅ ∅
       (Statuses.mkDb ∅ ∅ ∅ ∅
          (Relations.mkDb {[1%N := Relations.mkAccountRow false None None 0]} ∅ ∅ ∅
             (<[10%N := sample_actor_row (lit "far.test") None]>
                (<[20%N := sample_actor_row (lit "far.test") None]>
                   {[30%N := sample_actor_row (lit "gone.test") (Some 0)]}))
             blocks ∅ ∅
             (<[(10%N, 1%N) := sample_follow 10]> {[(20%N, 1%N) := sample_follow 20]}) ∅ ∅ ∅ ∅
             (Notifications.mkDb ∅ ∅ ∅ ∅))))
    (fun _ => "https://far.test/one") (fun i => if (i =? 10)%N then Some "https://far.test/inbox" else None)
    (fun _ => "a") {[7%N := sample_key]} [].

Definition sample_host (s : text) : option text := Some s.
Definition sample_status_text (n : Z) : string := "status".
Definition sample_id_text (u : uuid) : string := "id".
Definition any_domain : list text := [lit "*"].
Definition sample_decrypt (k : LocalActorKey) : result unit RoostyError := Ok tt.
Definition answers (status : Z) (n : nat) (f : SignatureFormat) (i k : string) (a : JsonValue) :
  result Z RoostyError := Ok status.

Definition sample_recipient (i : uuid) : RemoteActor :=
  mkRemoteActor i (lit "far.test") "https://far.test/one" (Some "https://far.test/inbox"%string) None.

Definition sample_activity : JsonValue := JObject [("type"%string, JString "Create")].

Lemma sample_readable actors blocks : policies_readable sample_host actors (sample_federation blocks).
Proof.
  intros i a _ Ha. unfold find_remote_actor in Ha. cbn in Ha.
  rewrite !lookup_insert, lookup_singleton in Ha.
  repeat case_decide; simplify_eq/=; vm_compute; reflexivity.
Qed.

Definition sample_enqueue (personal_inbox : bool) : Op Db unit :=
  enqueue_status_delivery_groups (mkAccountId 1) [sample_recipient 10; sample_recipient 20]
    sample_activity "act" personal_inbox.

Lemma every_inbox_gets_one_job_witness :
  exists w' d' j,
    sample_enqueue false sample_world (sample_federation ∅) = (Ok tt, w', d') /\
    active Jobs.FederationStatusDelivery "act:https://far.test/inbox" (jobs_of d') = [j] /\
    forall w2 d2,
      deliver_status_activity sample_host sample_id_text sample_status_text any_domain sample_decrypt
        (answers 202) (Jobs.payload j) w2 d2 =
      deliver_grouped_activity sample_host sample_status_text any_domain sample_decrypt (answers 202)
        (mkAccountId 1) [10%N; 20%N] "https://far.test/inbox" sample_activity false w2 d2.
Proof.
  destruct (run_ok (sample_enqueue false) sample_world (sample_federation ∅)) as ([] & _ & Hrun);
    [vm_compute; reflexivity|].
  destruct (every_inbox_gets_one_job sample_host sample_id_text sample_status_text any_domain
    sample_decrypt (answers 202) (mkAccountId 1) [sample_recipient 10; sample_recipient 20]
    sample_activity "act" sample_world (sample_federation ∅) _ _ (fun u => eq_refl) Hrun) as [_ H].
  destruct (H "https://far.test/inbox"%string) as (j & Hj & Hd).
  exists (world_of (sample_enqueue false) sample_world (sample_federation ∅)),
    (store_of (sample_enqueue false) sample_world (sample_federation ∅)), j.
  split; [exact Hrun|]. split; [exact Hj|exact Hd].
Defined.

Lemma grouped_delivery_needs_one_recipient_witness :
  deliver_grouped_activity sample_host sample_status_text any_domain sample_decrypt (answers 202)
    (mkAccountId 1) [10%N; 20%N] "https://far.test/inbox" sample_activity false sample_world
    (sample_federation ∅) =
  post_as sample_status_text sample_decrypt (answers 202) (mkAccountId 1) "https://far.test/inbox"
    sample_activity sample_world (sample_federation ∅).
Proof.
  destruct (grouped_delivery_needs_one_recipient sample_host sample_id_text sample_status_text any_domain sample_decrypt
    (answers 202) (mkAccountId 1) [10%N; 20%N] "https://far.test/inbox" sample_activity false
    sample_world (sample_federation ∅)) as [[_ H]|[H _]].
  - vm_compute. reflexivity.
  - apply sample_readable.
  - exact H.
  - exfalso. apply (H 10%N); [left|]. eexists. split; [vm_compute; reflexivity|].
    split_and!; try (vm_compute; reflexivity); [right; vm_compute; reflexivity|].
    eexists. split; vm_compute; reflexivity.
Defined.

Lemma shared_personal_inbox_drops_a_recipient_witness :
  exists j,
    active Jobs.FederationStatusDelivery "act:https://far.test/one"
      (jobs_of (store_of (sample_enqueue true) sample_world (sample_federation ∅))) = [j] /\
    deliver_status_activity sample_host sample_id_text sample_status_text any_domain sample_decrypt
      (answers 202) (Jobs.payload j) sample_world
      (sample_federation {[(1%N, 10%N) := Relations.mkRemoteBlockRow 6 "b"]})
    = (Ok tt, sample_world, sample_federation {[(1%N, 10%N) := Relations.mkRemoteBlockRow 6 "b"]}).
Proof.
  destruct (run_ok (sample_enqueue true) sample_world (sample_federation ∅)) as ([] & _ & Hrun);
    [vm_compute; reflexivity|].
  destruct (shared_personal_inbox_drops_a_recipient sample_host sample_id_text sample_status_text any_domain
    sample_decrypt (answers 202) (mkAccountId 1) (sample_recipient 10) (sample_recipient 20)
    sample_activity "act" sample_world (sample_federation ∅) _ _ eq_refl eq_refl eq_refl Hrun)
    as (j & Hj & _ & H).
  exists j. split; [exact Hj|]. apply H; [vm_compute; reflexivity|apply sample_readable|].
  intros (a & Ha & _ & _ & _ & [Hm|Hb] & _); [discriminate Hm|]. vm_compute in Hb. discriminate Hb.
Defined.

Definition sample_response : JsonValue :=
  JObject [("local_account_id"%string, JUuid 1); ("remote_actor_id"%string, JUuid 30);
           ("follow"%string, JString "follow"); ("response_type"%string, JString "Accept");
           ("activity"%string, sample_activity)].

Lemma follow_responses_ignore_suspension_witness :
  (deliver_follow_response sample_id_text sample_status_text (fun p => p) sample_decrypt (answers 202)
    sample_response sample_world (sample_federation ∅)
  = signed_post sample_status_text (answers 202) "https://far.test/one" (key_id sample_key)
      sample_activity sample_world (sample_federation ∅)) /\
  deliver_activity sample_host sample_status_text any_domain sample_decrypt (answers 202)
    (mkAccountId 1) (mkAccountId 30) sample_activity false sample_world (sample_federation ∅)
  = (Ok tt, sample_world, sample_federation ∅).
Proof.
  destruct (follow_responses_ignore_suspension sample_host sample_id_text sample_status_text any_domain
    sample_decrypt (answers 202) (fun p => p) sample_response
    (mkFollowResponse 1 30 (JString "follow") RespondAccept (Some sample_activity)) sample_activity
    (mkAccountId 1) (mkRemoteActor 30 (lit "gone.test") "https://far.test/one" None (Some 0)) sample_key
    sample_world (sample_federation ∅)) as [H1 H2];
    try (vm_compute; reflexivity); [exists 0; reflexivity|].
  split; [exact H1|apply H2].
Defined.

Definition sample_delivery : Jobs.ClaimedJob :=
  Jobs.mkClaimedJob (mkJobId 9) (mkJobClaimId 44) Jobs.FederationStatusDelivery JNull 0 0.

Lemma permanent_refusals_are_retried_witness :
  exists e,
    classify_delivery_status sample_status_text 410 = Err e /\
    Jobs.record_outcome (error_text (fun _ => "")) (seconds 60) sample_delivery (Err e) sample_world ∅ =
      (_ ← Jobs.mark_job_failed sample_delivery (error_text (fun _ => "") e); mret tt)
        (world_of (now_utc : Op Jobs.table time) sample_world ∅) ∅.
Proof.
  destruct (permanent_refusals_are_retried (fun _ => ""%string) sample_status_text (seconds 60) sample_delivery
    sample_world ∅ 410) as (m & H1 & H2).
  - rewrite !elem_of_cons. tauto.
  - vm_compute. reflexivity.
  - vm_compute. reflexivity.
  - eexists. split; [exact H1|exact H2].
Defined.
