(* ===== verification/Inbox.v ===== *)
(** The ActivityPub inbox of [crates/server/src/federation.rs], after a request is
    authenticated: the ledger of processed activities ([register_inbox_activity] of
    [crates/db/src/lib.rs]), and what [process_inbox] does with follows, boosts,
    likes, blocks, answers to follow requests, moves, and with the activities that
    undo them.

    The other arms of [process_inbox] answer [None]: so far the request had no effect,
    and it goes on in a handler that is not written here (the requests and answers of
    quotes go on in [Quotes]).  Such a handler may have any effect: the Delete of a remote
    status, for one, deletes the status and every boost of it.  [Url::join], [Url::parse],
    the parsing and printing of UUIDs, the digest of a canonical document and the
    integrity proof of an answer are parameters. *)
From Stdlib Require Import Ascii.
From S2P Require Import Prelude Core Text.
From S2P Require Jobs Notifications Relations Statuses NotificationRequests Interactions Delivery.

#[local] Existing Instances Statuses.relations_part Statuses.StatusVisibility_eq_dec Relations.RemoteFollowState_eq_dec
  NotificationRequests.statuses_part Interactions.requests_part.

(** * Data *)

Inductive InboundActivityType : Type :=
| Follow | Accept | Reject | Create | Update | Delete | Like | Announce | Undo | Move | Block
| Add | Remove | Flag | QuoteRequest | Other.

#[export] Instance InboundActivityType_eq_dec : EqDecision InboundActivityType.
Proof. solve_decision. Defined.

(** The kinds that the ledger stores are the ones that have a name of their own. *)
Definition persisted (t : InboundActivityType) : option InboundActivityType :=
  match t with Other => None | _ => Some t end.

Inductive InboxReplayResult : Type := New | Duplicate | Conflict.

Inductive InboxActivityOutcome : Type := Accepted | Ignored.

(** Rows of [processed_inbox_activity], keyed by the activity's identifier.  Rows of
    earlier releases have neither a digest nor a type. *)
Record ProcessedActivity := mkProcessed {
  pa_actor : uuid;
  pa_digest : option string;
  pa_type : option InboundActivityType;
  pa_outcome : option InboxActivityOutcome;
  pa_processed_at : time;
}.

Record InboxActivityMetadata := mkMetadata {
  md_activity_id : string;
  md_actor : AccountId;
  md_digest : string;
  md_type : InboundActivityType;
  md_outcome : InboxActivityOutcome;
}.

(** The authenticated actor: its row and its ActivityPub identifier. *)
Record Signer := mkSigner {
  signer_id : AccountId;
  signer_url : string;
}.

(** The names and locks of local accounts, the identifiers of remote statuses and the
    requests of stored quotes are kept apart from the columns other components read. *)
Record Db := mkDb {
  interactions : Interactions.Db;
  processed : gmap string ProcessedActivity;
  username : uuid -> string;
  locked : uuid -> bool;
  status_activitypub_id : uuid -> string;
  quote_requests : gset string;
}.

#[export, refine] Instance interactions_part : Part Interactions.Db Db :=
  {| get_part := interactions;
     put_part := fun i d => mkDb i (processed d) (username d) (locked d)
                              (status_activitypub_id d) (quote_requests d) |}.
Proof. all: by intros *; try destruct s. Defined.

Definition statuses_of (d : Db) : Statuses.Db := Interactions.statuses_of (interactions d).
Definition relations_of (d : Db) : Relations.Db := Statuses.relations (statuses_of d).

Definition on_relations {A} (m : Op Relations.Db A) : Op Db A := zoom (Interactions.on_relations m).
Definition on_requests {A} (m : Op NotificationRequests.Db A) : Op Db A :=
  zoom (zoom m : Op Interactions.Db A).
Definition on_statuses {A} (m : Op Statuses.Db A) : Op Db A :=
  on_requests (zoom m).

(** * The ledger of processed activities *)

Definition classify_row (md : InboxActivityMetadata) (existing : ProcessedActivity) : InboxReplayResult :=
  if negb (pa_actor existing =? account_uuid (md_actor md))%N then Conflict
  else
    match pa_digest existing with
    | None => Duplicate
    | Some digest =>
        if bool_decide (digest = md_digest md) && bool_decide (pa_type existing = Some (md_type md))
        then Duplicate else Conflict
    end.

Definition classify_inbox_activity (md : InboxActivityMetadata) : Op Db (option InboxReplayResult) :=
  gets (fun d => classify_row md <$> processed d !! md_activity_id md).

(** INSERT .. ON CONFLICT DO NOTHING, then the classification of the row that was
    there. *)
Definition register_inbox_activity (md : InboxActivityMetadata) : Op Db InboxReplayResult :=
  now ← now_utc;
  d ← gets (fun d => d);
  match processed d !! md_activity_id md with
  | None =>
      modify (fun d => mkDb (interactions d)
        (<[md_activity_id md := mkProcessed (account_uuid (md_actor md)) (Some (md_digest md))
             (Some (md_type md)) (Some (md_outcome md)) now]> (processed d))
        (username d) (locked d) (status_activitypub_id d) (quote_requests d));;
      mret New
  | Some _ =>
      found ← classify_inbox_activity md;
      lift_option (InvalidInput "inbox replay marker disappeared") found
  end.

(** * Strings *)

(** [rsplit('/').next()]: what follows the last slash. *)
Fixpoint last_segment_from (acc s : string) : string :=
  match s with
  | EmptyString => acc
  | String c s =>
      if Ascii.eqb c "/"%char then last_segment_from EmptyString s
      else last_segment_from (acc ++ String c EmptyString)%string s
  end.

Definition last_segment (s : string) : string := last_segment_from EmptyString s.

Definition strip_string (prefix s : string) : option string :=
  if String.prefix prefix s
  then Some (String.substring (String.length prefix) (String.length s - String.length prefix) s)
  else None.

Definition split_once_string (separator s : string) : option (string * string) :=
  match String.index 0 separator s with
  | None => None
  | Some n =>
      let after := (n + String.length separator)%nat in
      Some (String.substring 0 n s, String.substring after (String.length s - after) s)
  end.

Definition has_slash (s : string) : bool := bool_decide (is_Some (String.index 0 "/" s)).

(** * Reading activities *)

Section Read.
Context (uuid_text : uuid -> string).

Definition string_member (member : string) (v : JsonValue) : option string :=
  Delivery.required (Delivery.read_string uuid_text) member v.

(** A unit variant: its name, or an object with the name as its one member. *)
Definition unit_variant (v : JsonValue) : option string :=
  match v with
  | JObject [(name, JNull)] => Some name
  | _ => Delivery.read_string uuid_text v
  end.

Definition type_of_name (name : string) : InboundActivityType :=
  if bool_decide (name = "Follow"%string) then Follow
  else if bool_decide (name = "Accept"%string) then Accept
  else if bool_decide (name = "Reject"%string) then Reject
  else if bool_decide (name = "Create"%string) then Create
  else if bool_decide (name = "Update"%string) then Update
  else if bool_decide (name = "Delete"%string) then Delete
  else if bool_decide (name = "Like"%string) then Like
  else if bool_decide (name = "Announce"%string) then Announce
  else if bool_decide (name = "Undo"%string) then Undo
  else if bool_decide (name = "Move"%string) then Move
  else if bool_decide (name = "Block"%string) then Block
  else if bool_decide (name = "Add"%string) then Add
  else if bool_decide (name = "Remove"%string) then Remove
  else if bool_decide (name = "Flag"%string) then Flag
  else if bool_decide (name = "https://w3id.org/fep/044f#QuoteRequest"%string) then QuoteRequest
  else Other.

Definition inbound_activity_type (activity : JsonValue) : option InboundActivityType :=
  Relations.json_get "type" activity ≫= fun v => type_of_name <$> unit_variant v.

(** [InboundActorReference] and [InboundActivityReference]: an identifier, or an object
    that carries it. *)
Definition reference (v : JsonValue) : option string :=
  match v with
  | JObject _ => string_member "id" v
  | _ => Delivery.read_string uuid_text v
  end.

Definition follow_of (activity : JsonValue) : option string :=
  Delivery.required reference "object" activity.

Definition block_of (activity : JsonValue) : option (string * string) :=
  actor ← string_member "actor" activity;
  target ← Delivery.required reference "object" activity;
  Some (actor, target).

(** [InboundLikeActivity] and [InboundAnnounceActivity]. *)
Definition acted_on_of (activity : JsonValue) : option (string * string) :=
  actor ← string_member "actor" activity;
  target ← string_member "object" activity;
  Some (actor, target).

Definition move_of (activity : JsonValue) : option (string * string * string) :=
  actor ← string_member "actor" activity;
  source ← Delivery.required reference "object" activity;
  target ← Delivery.required reference "target" activity;
  Some (actor, source, target).

(** The object of an Undo: a bare identifier, or an embedded activity with its type.
    [Some None] is an embedded activity of another type, where the enumeration of the
    types has a catch-all; without one it does not parse. *)
Definition undone (name : string) (catch_all : bool) (activity : JsonValue) : option (option string) :=
  v ← Relations.json_get "object" activity;
  match v with
  | JObject _ =>
      id ← string_member "id" v;
      kind ← Delivery.required unit_variant "type" v;
      if bool_decide (kind = name) then Some (Some id)
      else if catch_all then Some None else None
  | _ => id ← Delivery.read_string uuid_text v; Some (Some id)
  end.

Definition block_id (activity : JsonValue) : option string := mjoin (undone "Block" true activity).
Definition announce_id (activity : JsonValue) : option string :=
  mjoin (undone "Announce" false activity).
Definition like_id (activity : JsonValue) : option string := mjoin (undone "Like" false activity).
Definition follow_id (activity : JsonValue) : option (option string) := undone "Follow" true activity.

(** [InboundQuoteAuthorization]: the five members, by name or in order. *)
Definition authorization_reads (v : JsonValue) : bool :=
  let typed v := bool_decide (unit_variant v = Some "https://w3id.org/fep/044f#QuoteAuthorization"%string) in
  let text v := bool_decide (is_Some (Delivery.read_string uuid_text v)) in
  match v with
  | JArray [i; t; a; o; g] => text i && typed t && text a && text o && text g
  | JObject _ =>
      match Relations.json_get "id" v, Relations.json_get "type" v, Relations.json_get "attributedTo" v,
            Relations.json_get "interactingObject" v, Relations.json_get "interactionTarget" v with
      | Some i, Some t, Some a, Some o, Some g => text i && typed t && text a && text o && text g
      | _, _, _, _, _ => false
      end
  | _ => false
  end.

(** [InboundQuoteResponse]: the request that an Accept or a Reject answers. *)
Definition quote_response_of (activity : JsonValue) : option string :=
  _ ← string_member "actor" activity;
  request ← Delivery.required reference "object" activity;
  match Relations.json_get "result" activity with
  | None | Some JNull => Some request
  | Some v => if authorization_reads v then Some request else None
  end.

(** The identifier of the object of an Accept or a Reject of a follow. *)
Definition object_id (activity : JsonValue) : option string :=
  v ← Relations.json_get "object" activity;
  match v with JObject _ => string_member "id" v | _ => None end.

Definition actor_kind (name : string) : bool :=
  bool_decide (name ∈ ["Person"; "Service"; "Application"; "Group"]%string).

Definition is_remote_actor_lifecycle_activity (activity : JsonValue) (actor : string) : bool :=
  match inbound_activity_type activity with
  | Some Move => true
  | Some Update =>
      match Relations.json_get "object" activity with
      | Some (JObject members) =>
          bool_decide (string_member "id" (JObject members) = Some actor)
          && match string_member "type" (JObject members) with Some k => actor_kind k | None => false end
      | Some v => bool_decide (Delivery.read_string uuid_text v = Some actor)
      | None => false
      end
  | Some Delete =>
      match Relations.json_get "object" activity with
      | Some v => bool_decide (reference v = Some actor)
      | None => false
      end
  | _ => false
  end.
End Read.

(** * Processing *)

Section Process.
Context (uuid_text : uuid -> string) (parse_uuid : string -> option uuid)
  (public_url : string -> string) (base_url : string)
  (url_origin : string -> option (string * string)) (digest : JsonValue -> option string)
  (prove : JsonValue -> result JsonValue RoostyError).

Definition ACCEPTED : Z := 202.
Definition BAD_REQUEST : Z := 400.
Definition INTERNAL_SERVER_ERROR : Z := 500.

(** The scheme and the origin of a URL; only https origins are compared. *)
Definition same_url_origin (l r : string) : bool :=
  match url_origin l, url_origin r with
  | Some (scheme, o), Some (_, o') => bool_decide (scheme = "https"%string) && bool_decide (o = o')
  | _, _ => false
  end.

(** The digest leaves out the members that authenticate a transfer. *)
Definition canonical_activity_digest (activity : JsonValue) : option string :=
  match activity with
  | JObject members =>
      digest (JObject (List.filter (fun m => negb (bool_decide (m.1 = "proof"%string))
                                            && negb (bool_decide (m.1 = "signature"%string))) members))
  | _ => None
  end.

Definition actor_url (name : string) : string := public_url ("users/" ++ name)%string.

(** [find_local_account_by_username]; names are unique. *)
Definition account_named (name : string) (d : Db) : option uuid :=
  head (List.filter (fun a => bool_decide (username d a = name))
    (fst <$> map_to_list (Relations.local_accounts (relations_of d)))).

Definition local_account_from_actor_url (target_url : string) (d : Db) : option uuid :=
  let name := last_segment target_url in
  if bool_decide (name = EmptyString) then None
  else if bool_decide (target_url = actor_url name) then account_named name d else None.

(** The identifier of a local status from its URL; [base_url] is the public base URL
    without the slashes it ends with. *)
Definition local_status_id_from_url (url : string) : Op Db (option StatusId) :=
  match strip_string (base_url ++ "/users/") url ≫= split_once_string "/statuses/" with
  | None => mret None
  | Some (name, id_text) =>
      if bool_decide (name = EmptyString) || has_slash id_text then mret None
      else
        match parse_uuid id_text with
        | None => mret None
        | Some i =>
            found ← on_statuses (Statuses.find_local_status_by_id (mkStatusId i));
            d ← gets (fun d => d);
            mret (s ← found;
                  _ ← Relations.local_accounts (relations_of d) !! Statuses.ls_account s;
                  if bool_decide (username d (Statuses.ls_account s) = name)
                  then Some (mkStatusId i) else None)
        end
  end.

(** [find_remote_status_by_activitypub_id]; identifiers are unique. *)
Definition remote_status_of_url (url : string) (d : Db) : option (uuid * Statuses.RemoteStatus) :=
  head (List.filter (fun s => bool_decide (status_activitypub_id d s.1 = url)
                              && bool_decide (Statuses.rs_deleted_at s.2 = None))
    (map_to_list (Statuses.remote_statuses (statuses_of d)))).

Definition is_open (v : Statuses.StatusVisibility) : bool :=
  bool_decide (v = Statuses.Public) || bool_decide (v = Statuses.Unlisted).

(** [local_private_status_visible_to_remote_actor]. *)
Definition visible_to_remote_actor (i : StatusId) (s : Statuses.LocalStatus) (actor : AccountId) (d : Db) :
    bool :=
  if bool_decide (Statuses.ls_visibility s = Statuses.Private)
  then match Relations.remote_follows (relations_of d) !! (account_uuid actor, Statuses.ls_account s) with
       | Some f => bool_decide (Relations.rf_state f = Relations.Accepted)
       | None => false
       end
       || bool_decide ((status_uuid i, account_uuid actor) ∈ Statuses.remote_mentions (statuses_of d))
  else is_open (Statuses.ls_visibility s).

Definition register_inbox_replay (activity : JsonValue) (signer : Signer) (outcome : InboxActivityOutcome) :
    Op Db InboxReplayResult :=
  i ← lift_option (InvalidInput "inbox activity ID is missing") (string_member uuid_text "id" activity);
  kind ← lift_option (InvalidInput "inbox activity type is missing")
           (inbound_activity_type uuid_text activity ≫= persisted);
  dg ← lift_option (InvalidInput "inbox activity is not an object") (canonical_activity_digest activity);
  register_inbox_activity (mkMetadata i (signer_id signer) dg kind outcome).

Definition is_new_inbox_activity (activity : JsonValue) (signer : Signer) : Op Db bool :=
  r ← register_inbox_replay activity signer Accepted;
  mret match r with New => true | _ => false end.

(** A transaction nested in that of the request.  An error drops it and is answered
    with 500. *)
Definition answered {S} (body : Op S (txn Z)) : Op S Z := fun w d =>
  match transaction body w d with
  | (Err _, w', d') => (Ok INTERNAL_SERVER_ERROR, w', d')
  | run => run
  end.

Definition finish_ignored_inbox_activity (activity : JsonValue) (signer : Signer) : Op Db Z :=
  answered (register_inbox_replay activity signer Ignored;; mret (Commit ACCEPTED)).

(** The frame of the arms: the activity is recorded, and takes effect if it is new, in
    one transaction. *)
Definition recorded (activity : JsonValue) (signer : Signer) (effect : Op Db unit) : Op Db Z :=
  answered (
    is_new ← is_new_inbox_activity activity signer;
    when is_new effect;;
    mret (Commit ACCEPTED)).

(** ** Blocks *)

Definition process_block (activity : JsonValue) (i : string) (signer : Signer) : Op Db Z :=
  match block_of uuid_text activity with
  | None => mret BAD_REQUEST
  | Some (actor, target) =>
      if negb (bool_decide (actor = signer_url signer)) then mret BAD_REQUEST
      else
        d ← gets (fun d => d);
        match local_account_from_actor_url target d with
        | None => finish_ignored_inbox_activity activity signer
        | Some local =>
            recorded activity signer
              (on_relations (Relations.process_remote_block (signer_id signer) (mkAccountId local) i);;
               mret tt)
        end
  end.

(** [None]: the activity is not the Undo of a known block. *)
Definition process_undo_block (activity : JsonValue) (signer : Signer) : Op Db (option Z) :=
  match block_id uuid_text activity with
  | None => mret None
  | Some original =>
      row ← on_relations (Relations.find_remote_local_block_by_activity (signer_id signer) original);
      match row with
      | None => mret None
      | Some local =>
          z ← recorded activity signer
                (on_relations (Relations.process_remote_undo_block (signer_id signer)
                                 (mkAccountId local) original);; mret tt);
          mret (Some z)
      end
  end.

(** ** Answers to follow requests

    After the commit of an Accept that accepted a follow the source also queues, in a
    transaction of its own, the fetches of the actor's profile images; profile images are
    not part of this store. *)

Definition process_follow_answer (activity : JsonValue) (accepted : bool) (signer : Signer) : Op Db Z :=
  match object_id uuid_text activity with
  | None => mret BAD_REQUEST
  | Some follow =>
      recorded activity signer
        (on_relations (if accepted then Relations.accept_remote_following (signer_id signer) follow
                       else Relations.reject_remote_following (signer_id signer) follow);; mret tt)
  end.

(** ** Likes and boosts *)

Definition is_https (url : string) : bool := String.prefix "https://" url.

Definition process_like (activity : JsonValue) (i : string) (signer : Signer) : Op Db Z :=
  match acted_on_of uuid_text activity with
  | None => mret BAD_REQUEST
  | Some (actor, target) =>
      if negb (bool_decide (actor = signer_url signer)) || negb (is_https target)
      then finish_ignored_inbox_activity activity signer
      else
        found ← local_status_id_from_url target;
        match found with
        | None => finish_ignored_inbox_activity activity signer
        | Some status =>
            row ← on_statuses (Statuses.find_local_status_by_id status);
            match row with
            | None => finish_ignored_inbox_activity activity signer
            | Some s =>
                d ← gets (fun d => d);
                if negb (visible_to_remote_actor status s (signer_id signer) d)
                then finish_ignored_inbox_activity activity signer
                else recorded activity signer
                       (zoom (Interactions.process_remote_like uuid_text (signer_id signer) status i
                                (mkAccountId (Statuses.ls_account s)));; mret tt)
            end
        end
  end.

Definition announce_target (target : string) (signer : Signer) :
    Op Db (option Interactions.RemoteStatusReblogTarget) :=
  found ← local_status_id_from_url target;
  match found with
  | Some status =>
      row ← on_statuses (Statuses.find_local_status_by_id status);
      mret (s ← row; if is_open (Statuses.ls_visibility s)
                     then Some (Interactions.TargetLocal status) else None)
  | None =>
      d ← gets (fun d => d);
      mret (s ← remote_status_of_url target d;
            if is_open (Statuses.rs_visibility s.2)
               || (bool_decide (Statuses.rs_visibility s.2 = Statuses.Private)
                   && (Statuses.rs_actor s.2 =? account_uuid (signer_id signer))%N)
            then Some (Interactions.TargetRemote (mkStatusId s.1)) else None)
  end.

Definition reblog_and_notify (target : Interactions.RemoteStatusReblogTarget) (i : string)
    (signer : Signer) : Op Db unit :=
  created ← zoom (Interactions.reblog_status_by_remote_actor (signer_id signer) target i);
  match target with
  | Interactions.TargetLocal status =>
      if (created : bool) then
        row ← on_statuses (Statuses.find_local_status_by_id status);
        match row with
        | Some s =>
            on_requests (NotificationRequests.notify_remote_actor_reblog uuid_text
              (mkAccountId (Statuses.ls_account s)) (signer_id signer) status);;
            mret tt
        | None => mret tt
        end
      else mret tt
  | Interactions.TargetRemote _ => mret tt
  end.

Definition process_announce (activity : JsonValue) (i : string) (signer : Signer) : Op Db Z :=
  match acted_on_of uuid_text activity with
  | None => mret BAD_REQUEST
  | Some (actor, target) =>
      if negb (bool_decide (actor = signer_url signer)) || negb (is_https target)
      then finish_ignored_inbox_activity activity signer
      else
        found ← announce_target target signer;
        match found with
        | None => finish_ignored_inbox_activity activity signer
        | Some target => recorded activity signer (reblog_and_notify target i signer)
        end
  end.

Definition process_undo_announce (activity : JsonValue) (original : string) (signer : Signer) : Op Db Z :=
  recorded activity signer
    (zoom (Interactions.process_remote_undo_reblog (signer_id signer) original);; mret tt).

Definition process_undo_like (activity : JsonValue) (original : string) (signer : Signer) : Op Db Z :=
  recorded activity signer
    (zoom (Interactions.process_remote_undo_like (signer_id signer) original);; mret tt).

(** ** Follows *)

Definition process_undo_follow (activity : JsonValue) (signer : Signer) : Op Db Z :=
  match follow_id uuid_text activity with
  | None | Some None => mret BAD_REQUEST
  | Some (Some original) =>
      recorded activity signer
        (on_relations (Relations.process_remote_undo_follow (signer_id signer) original);; mret tt)
  end.

Definition follow_response_activity (local : uuid) (follow : JsonValue)
    (response : Delivery.FollowResponseType) : Op Db JsonValue :=
  name ← gets (fun d => username d local);
  i ← uuid_now_v7;
  let actor := actor_url name in
  lift_result (prove (JObject
    [("@context"%string, JString "https://www.w3.org/ns/activitystreams");
     ("id"%string, JString (actor ++ "#" ++ Delivery.response_fragment response ++ "-" ++ uuid_text i)%string);
     ("type"%string, JString (Delivery.response_name response));
     ("actor"%string, JString actor); ("object"%string, follow)])).

Definition follow_response_value (p : Delivery.FollowResponseDelivery) : JsonValue :=
  JObject ([("local_account_id"%string, JUuid (Delivery.fr_local p));
            ("remote_actor_id"%string, JUuid (Delivery.fr_remote p));
            ("follow"%string, Delivery.fr_follow p);
            ("response_type"%string, JString (Delivery.response_name (Delivery.fr_response p)))]
           ++ match Delivery.fr_activity p with None => [] | Some a => [("activity"%string, a)] end).

Definition accept_follow (activity : JsonValue) (i : string) (local : uuid) (signer : Signer) : Op Db bool :=
  answer ← follow_response_activity local activity Delivery.RespondAccept;
  let payload := follow_response_value (Delivery.mkFollowResponse local
                   (account_uuid (signer_id signer)) activity Delivery.RespondAccept (Some answer)) in
  on_relations (Relations.upsert_processed_remote_follow_with_response_job (signer_id signer)
    (mkAccountId local) i activity
    (Relations.mkResponseJob Jobs.FederationFollowResponse payload ("Accept:" ++ i)%string)).

Definition follow_and_notify (activity : JsonValue) (i : string) (local : uuid) (pending : bool)
    (signer : Signer) : Op Db unit :=
  persisted ← (if pending
    then on_relations (Relations.upsert_processed_pending_remote_follow (signer_id signer)
                         (mkAccountId local) i activity)
    else accept_follow activity i local signer);
  if (persisted : bool) then
    on_requests (NotificationRequests.notify_remote_actor_follow uuid_text (mkAccountId local)
      (signer_id signer) (if pending then Notifications.FollowRequest else Notifications.Follow));;
    mret tt
  else mret tt.

Definition process_follow (activity : JsonValue) (i : string) (signer : Signer) : Op Db Z :=
  match follow_of uuid_text activity with
  | None => mret BAD_REQUEST
  | Some target =>
      let name := last_segment target in
      if bool_decide (name = EmptyString) then mret BAD_REQUEST
      else if negb (bool_decide (target = actor_url name))
      then finish_ignored_inbox_activity activity signer
      else
        d ← gets (fun d => d);
        match account_named name d with
        | None => finish_ignored_inbox_activity activity signer
        | Some local =>
            recorded activity signer (follow_and_notify activity i local (locked d local) signer)
        end
  end.

(** ** The inbox *)

Definition process_undo (activity : JsonValue) (signer : Signer) : Op Db Z :=
  block ← process_undo_block activity signer;
  match block with
  | Some z => mret z
  | None =>
      match announce_id uuid_text activity with
      | Some original => process_undo_announce activity original signer
      | None =>
          match like_id uuid_text activity with
          | Some original => process_undo_like activity original signer
          | None => process_undo_follow activity signer
          end
      end
  end.

Definition answer (m : Op Db Z) : Op Db (option Z) := z ← m; mret (Some z).

Definition dispatch (activity : JsonValue) (kind : InboundActivityType) (i : string) (signer : Signer) :
    Op Db (option Z) :=
  if is_remote_actor_lifecycle_activity uuid_text activity (signer_url signer) then mret None
  else
    match kind with
    | Block => answer (process_block activity i signer)
    | Undo => answer (process_undo activity signer)
    | Accept | Reject =>
        d ← gets (fun d => d);
        match quote_response_of uuid_text activity with
        | Some request =>
            if bool_decide (request ∈ quote_requests d) then mret None
            else answer (process_follow_answer activity (bool_decide (kind = Accept)) signer)
        | None => answer (process_follow_answer activity (bool_decide (kind = Accept)) signer)
        end
    | Like => answer (process_like activity i signer)
    | Announce => answer (process_announce activity i signer)
    | Follow => answer (process_follow activity i signer)
    | Flag | Add | Remove | QuoteRequest | Create | Update | Delete | Move => mret None
    | Other => mret (Some ACCEPTED)
    end.

Definition process_inbox (activity : JsonValue) (signer : Signer) : Op Db (option Z) :=
  match inbound_activity_type uuid_text activity ≫= persisted with
  | None => mret (Some ACCEPTED)
  | Some kind =>
      match string_member uuid_text "id" activity with
      | None => mret (Some BAD_REQUEST)
      | Some i =>
          if negb (same_url_origin i (signer_url signer)) then mret (Some BAD_REQUEST)
          else
            match canonical_activity_digest activity with
            | None => mret (Some BAD_REQUEST)
            | Some dg =>
                existing ← classify_inbox_activity (mkMetadata i (signer_id signer) dg kind Accepted);
                match existing with
                | Some Duplicate | Some Conflict => mret (Some ACCEPTED)
                | Some New | None => dispatch activity kind i signer
                end
            end
      end
  end.
End Process.
