(* ===== verification/InboxFrames.v ===== *)
(** What others did: the rows that record the deeds of a remote actor, and that the
    effects of another actor's activities - on relationships, notifications, likes and
    boosts - leave them as they are. *)
From S2P Require Import Prelude Core Text.
From S2P Require Jobs Notifications Relations Statuses NotificationRequests Interactions InteractionsInvariant.

#[local] Existing Instances Statuses.relations_part Relations.notifications_part
  NotificationRequests.statuses_part Interactions.requests_part Relations.RemoteFollowState_eq_dec.

(** * What others did

    The rows that record what a remote actor did: its follows of local accounts and
    their follows of it, its blocks, its likes and its boosts. *)
Definition acts (b : uuid) (r : Relations.Db) :=
  (filter (fun kv => kv.1.1 = b) (Relations.remote_follows r),
   filter (fun kv => kv.1.1 = b) (Relations.remote_local_blocks r),
   filter (fun kv => kv.1.2 = b /\ Relations.fg_remote kv.2 = b) (Relations.remote_followings r)).

Definition deeds (b : uuid) (i : Interactions.Db) :=
  (filter (fun kv => Interactions.rfv_actor kv.2 = b) (Interactions.remote_favourites i),
   filter (fun kv => Interactions.rrb_actor kv.2 = b) (Interactions.remote_reblogs i),
   acts b (Statuses.relations (Interactions.statuses_of i))).

(** One run that leaves [f] as it was. *)
Definition leaves {S A B} (f : S -> B) (m : Op S A) (w : World) (s : S) : Prop :=
  f (store_of m w s) = f s.

Lemma leaves_bind {S A B C} (f : S -> C) (m : Op S A) (k : A -> Op S B) w s :
  leaves f m w s -> (forall a w' s', m w s = (Ok a, w', s') -> leaves f (k a) w' s') ->
  leaves f (m ≫= k) w s.
Proof.
  intros Hm Hk. unfold leaves, store_of, mbind, M_bind in *.
  destruct (m w s) as [[[a|e] w'] s']; [|done]. rewrite (Hk a w' s' eq_refl). exact Hm.
Qed.

Section Others.
Context (a : AccountId) (b : uuid) (Hab : account_uuid a <> b).

(** The rows of [b] in a table where only rows of [a] change. *)
Ltac others :=
  intros; unfold acts, deeds; cbn;
  repeat match goal with |- (_, _) = (_, _) => apply f_equal2 end; try done;
  first [ apply map_filter_insert_not; cbn; intros ?; naive_solver
        | apply map_filter_delete_not; cbn; intros ? ?; naive_solver
        | apply map_eq; intros k; apply option_eq; intros v;
          rewrite !map_lookup_filter_Some; cbn; naive_solver ].

Lemma acts_block l activity : keeps (acts b) (Relations.process_remote_block a l activity).
Proof.
  unfold Relations.process_remote_block, Relations.delete_follow_of, Relations.delete_following_of,
    Relations.remove_remote_account_from_owned_lists, Relations.dismiss_where.
  solve_keeps. all: others.
Qed.

Lemma acts_undo_block l activity : keeps (acts b) (Relations.process_remote_undo_block a l activity).
Proof. unfold Relations.process_remote_undo_block. solve_keeps; others. Qed.

Lemma acts_undo_follow activity : keeps (acts b) (Relations.process_remote_undo_follow a activity).
Proof.
  unfold Relations.process_remote_undo_follow, Relations.delete_remote_follow_by_activity.
  solve_keeps. all: others.
Qed.

Lemma acts_accept activity : keeps (acts b) (Relations.accept_remote_following a activity).
Proof.
  unfold Relations.accept_remote_following. solve_keeps.
  unfold acts. cbn. apply f_equal2; [done|].
  apply map_eq. intros k. apply option_eq. intros v. rewrite !map_lookup_filter_Some, lookup_update_where.
  destruct (_ !! k) as [f|]; [cbn [fmap option_fmap option_map]|done].
  unfold Relations.following_of_activity.
  destruct (N.eqb_spec (Relations.fg_remote f) (account_uuid a)); [|done].
  case_bool_decide; [|done]. split; intros ([= <-] & _ & Hb); cbn in Hb; congruence.
Qed.

Lemma acts_reject activity : keeps (acts b) (Relations.reject_remote_following a activity).
Proof.
  unfold Relations.reject_remote_following. solve_keeps.
  unfold acts. cbn. apply f_equal2; [done|].
  apply map_eq. intros k. apply option_eq. intros v. rewrite !map_lookup_filter_Some, lookup_delete_where.
  unfold Relations.following_of_activity.
  destruct (_ !! k) as [f|]; [cbn [fmap option_fmap option_map]|done].
  destruct (N.eqb_spec (Relations.fg_remote f) (account_uuid a)); [|done].
  case_bool_decide; [|done]. split; intros (Hv & _ & Hb); [done|].
  injection Hv as <-. cbn in Hb. congruence.
Qed.

Lemma acts_pending l activity_id activity :
  keeps (acts b) (Relations.upsert_processed_pending_remote_follow a l activity_id activity).
Proof.
  unfold Relations.upsert_processed_pending_remote_follow, Relations.local_remote_accounts_are_blocked.
  solve_keeps. others.
Qed.

Lemma acts_accepted l activity_id activity job :
  keeps (acts b) (Relations.upsert_processed_remote_follow_with_response_job a l activity_id activity job).
Proof.
  unfold Relations.upsert_processed_remote_follow_with_response_job,
    Relations.local_remote_accounts_are_blocked, Relations.insert_response_job, Relations.enqueue.
  solve_keeps. others.
Qed.

(** ** Notifications leave the relations as they are *)

Definition acted (d : NotificationRequests.Db) := acts b (NotificationRequests.relations_of d).

Lemma acted_relations {A} (m : Op Relations.Db A) :
  keeps (acts b) m -> keeps acted (NotificationRequests.on_relations m).
Proof.
  intros Hm. unfold NotificationRequests.on_relations.
  apply (keeps_zoom_part acted (fun d => acts b (Statuses.relations d))); [by intros [] []|].
  apply (keeps_zoom_part _ (acts b)); [by intros [] ?|exact Hm].
Qed.

Lemma acted_notifications {A} (m : Op Notifications.Db A) :
  keeps acted (NotificationRequests.on_notifications m).
Proof. apply acted_relations, keeps_zoom. by intros ? []. Qed.

Lemma acted_allows account actor :
  keeps acted (NotificationRequests.on_relations
    (Relations.remote_account_allows_notification account actor)).
Proof.
  apply acted_relations. unfold Relations.remote_account_allows_notification,
    Relations.local_remote_accounts_are_blocked, Relations.active_local_remote_account_mute.
  solve_keeps.
Qed.

Lemma acted_started recipient actor l r :
  keeps acted (zoom (Statuses.recipient_started_private_thread recipient actor l r)
    : Op NotificationRequests.Db bool).
Proof.
  apply (keeps_zoom_part acted (fun d => acts b (Statuses.relations d))); [by intros [] []|].
  unfold Statuses.recipient_started_private_thread. solve_keeps.
Qed.

Lemma acted_thread recipient actor follows status :
  keeps acted (NotificationRequests.thread_test recipient actor follows status).
Proof.
  unfold NotificationRequests.thread_test. destruct status; [|done].
  destruct (_ && _); [apply acted_started|done].
Qed.

Ltac solve_acted :=
  repeat (first
    [ apply acted_allows
    | apply acted_thread
    | apply acted_notifications
    | apply keeps_bind
    | match goal with |- forall _, _ => intro end
    | apply keeps_lift_option
    | done
    | match goal with |- keeps _ (let x := ?v in _) => cbv zeta end
    | match goal with |- keeps _ (match ?x with _ => _ end) => destruct x end ]).

Lemma acted_insert_by_policy uuid_text account actor kind status :
  keeps acted (NotificationRequests.insert_by_policy uuid_text account actor kind status).
Proof.
  unfold NotificationRequests.insert_by_policy, NotificationRequests.remote_notification_policy_action,
    NotificationRequests.notification_policy, NotificationRequests.find_status_row,
    NotificationRequests.thread_test, NotificationRequests.insert_notification,
    NotificationRequests.active_notification_request_id.
  solve_acted.
Qed.

Lemma acted_notify uuid_text account actor kind status :
  keeps acted (NotificationRequests.notify_remote_actor_follow uuid_text account actor kind) /\
  keeps acted (NotificationRequests.notify_remote_actor_favourite uuid_text account actor status) /\
  keeps acted (NotificationRequests.notify_remote_actor_reblog uuid_text account actor status).
Proof.
  unfold NotificationRequests.notify_remote_actor_follow,
    NotificationRequests.notify_remote_actor_favourite,
    NotificationRequests.notify_remote_actor_reblog, NotificationRequests.find_event.
  split_and!; repeat first [apply acted_insert_by_policy | solve_acted].
Qed.

(** ** Likes and boosts *)

Lemma deeds_requests {A} (m : Op NotificationRequests.Db A) :
  keeps acted m -> keeps (deeds b) (zoom m : Op Interactions.Db A).
Proof.
  apply keeps_zoom_part. intros s t Ht. unfold deeds. cbn. apply f_equal2; [done|exact Ht].
Qed.

Lemma deeds_relations {A} (m : Op Relations.Db A) :
  keeps (acts b) m -> keeps (deeds b) (Interactions.on_relations m).
Proof. intros Hm. by apply deeds_requests, acted_relations. Qed.

Lemma deeds_trend target x y : keeps (deeds b) (Interactions.adjust_status_trend target x y).
Proof. unfold Interactions.adjust_status_trend, Interactions.mark_trend_dirty. solve_keeps. Qed.

Lemma leaves_keeps {A} (m : Op Interactions.Db A) w d : keeps (deeds b) m -> leaves (deeds b) m w d.
Proof. intros Hm. apply Hm. Qed.

(** Rows of [a] are stored under free identifiers and deleted by their own. *)
Lemma deeds_insert_favourite f w d :
  Interactions.rfv_actor f = account_uuid a ->
  Interactions.remote_favourites d !! Interactions.rfv_id f = None ->
  leaves (deeds b) (Interactions.insert_remote_favourite f) w d.
Proof.
  intros Hf Hfree. unfold leaves, store_of, Interactions.insert_remote_favourite,
    Interactions.foreign_key, mbind, M_bind. cbn.
  destruct (Interactions.has_local_status _ _); [|done]. cbn. unfold deeds. cbn.
  apply f_equal2; [|done]. apply f_equal2; [|done]. apply map_filter_insert_not'; cbn; naive_solver.
Qed.

Lemma deeds_like uuid_text status activity recipient :
  keeps (deeds b) (Interactions.process_remote_like uuid_text a status activity recipient).
Proof.
  unfold Interactions.process_remote_like. apply keeps_bind.
  { apply deeds_relations. unfold Relations.local_remote_accounts_are_blocked. solve_keeps. }
  intros [|]; [apply keeps_ret|]. intros w d. apply leaves_bind; [by apply leaves_keeps; solve_keeps|].
  intros f w1 d1 Hf. injection Hf as <- _ <-. apply leaves_bind; [done|].
  intros d' w2 d2 Hd. injection Hd as <- _ <-. cbv zeta.
  set (f := Interactions.mkRemoteFavourite _ _ _ _ _).
  apply leaves_bind.
  - destruct (Interactions.remote_favourite_conflict f _) eqn:Hconflict; cbn [negb when]; [done|].
    apply leaves_bind; [|intros; apply leaves_keeps, deeds_trend].
    apply deeds_insert_favourite; [done|]. unfold Interactions.remote_favourite_conflict in Hconflict.
    apply orb_false_iff in Hconflict as [Hconflict _]. apply bool_decide_eq_false in Hconflict.
    by apply eq_None_not_Some.
  - intros u w3 d3 _. destruct (negb _); [done|]. apply leaves_keeps, keeps_bind.
    { apply deeds_relations. unfold Relations.remote_account_allows_notification,
        Relations.local_remote_accounts_are_blocked, Relations.active_local_remote_account_mute.
      solve_keeps. }
    intros [|]; [|apply keeps_ret]. apply deeds_requests. by apply (acted_notify _ _ _ Notifications.Follow).
Qed.

Lemma deeds_reblog target activity :
  keeps (deeds b) (Interactions.reblog_status_by_remote_actor a target activity).
Proof.
  intros w d. apply leaves_bind; [done|]. intros d' w1 d1 Hd. injection Hd as <- <- <-.
  destruct (rows_where _ _); [|done].
  apply leaves_bind; [done|]. intros i w2 d2 Hi. injection Hi as _ _ <-.
  apply leaves_bind; [done|]. intros now w3 d3 Hnow. injection Hnow as _ _ <-. cbv zeta.
  set (r := Interactions.mkRemoteReblog _ _ _ _ _ _).
  destruct (Interactions.remote_reblog_conflict r _) eqn:Hconflict; [done|].
  unfold Interactions.foreign_key. destruct (Interactions.has_target _ _); [|done].
  apply leaves_bind; [done|]. intros u w4 d4 Hu. injection Hu as _ _ <-.
  apply leaves_bind; [|intros; apply leaves_keeps, keeps_bind; [apply deeds_trend|done]].
  unfold leaves, store_of, deeds. cbn. apply f_equal2; [|done]. apply f_equal2; [done|].
  unfold Interactions.remote_reblog_conflict in Hconflict.
  apply orb_false_iff in Hconflict as [Hconflict _]. apply bool_decide_eq_false in Hconflict.
  apply map_filter_insert_not'; cbn; [done|]. intros y Hy. destruct Hconflict. by exists y.
Qed.

Lemma deeds_undo_like activity w d :
  InteractionsInvariant.keys_ok d -> leaves (deeds b) (Interactions.process_remote_undo_like a activity) w d.
Proof.
  intros Hkeys. apply leaves_bind; [done|]. intros d' w1 d1 Hd. injection Hd as <- <- <-.
  apply leaves_bind; [|done]. destruct (head _) as [f|] eqn:Hhead; [|done].
  apply (head_row_keyed _ _ Interactions.rfv_id) in Hhead as [Hf Hp]; [|by destruct Hkeys].
  apply leaves_bind; [|intros; apply leaves_keeps, deeds_trend].
  unfold Interactions.of_activity in Hp. apply andb_true_iff in Hp as [Hp%N.eqb_eq _].
  unfold leaves, store_of, deeds. cbn. apply f_equal2; [|done]. apply f_equal2; [|done].
  apply map_filter_delete_not. intros y. rewrite Hf. intros [= <-]. cbn. congruence.
Qed.

Lemma deeds_undo_reblog activity w d :
  InteractionsInvariant.keys_ok d ->
  leaves (deeds b) (Interactions.process_remote_undo_reblog a activity) w d.
Proof.
  intros Hkeys. apply leaves_bind; [done|]. intros d' w1 d1 Hd. injection Hd as <- <- <-.
  destruct (head _) as [r|] eqn:Hhead; [|done].
  apply (head_row_keyed _ _ Interactions.rrb_id) in Hhead as [Hr Hp];
    [|intros k u Hu; by apply (InteractionsInvariant.remote_reblog_keys _ Hkeys)].
  apply leaves_bind.
  - unfold Interactions.of_reblog_activity in Hp. apply andb_true_iff in Hp as [Hp%N.eqb_eq _].
    unfold leaves, store_of, deeds. cbn. apply f_equal2; [|done]. apply f_equal2; [done|].
    apply map_filter_delete_not. intros y. rewrite Hr. intros [= <-]. cbn. congruence.
  - intros u w2 d2 _. apply leaves_keeps. destruct (Interactions.reblog_target r); [|done].
    apply keeps_bind; [apply deeds_trend|done].
Qed.
End Others.
