(* ===== verification/InboxInvariant.v ===== *)
(** What the inbox guarantees: an activity takes effect at most once, whoever sends
    it again and whatever it then contains; a refused activity changes nothing; a
    signer changes nothing that other actors did; and what an Undo that names its
    activity by a bare identifier undoes. *)
From stdpp Require Import relations.
From S2P Require Import Prelude Core Text.
From S2P Require Jobs Notifications Relations Statuses NotificationRequests Interactions Delivery InteractionsInvariant.
From S2P Require Import Inbox InboxFrames.

#[local] Existing Instances Statuses.relations_part Relations.notifications_part
  NotificationRequests.statuses_part Interactions.requests_part Relations.RemoteFollowState_eq_dec.

(** * Reading steps *)

(** An operation that returns a value and changes nothing. *)
Definition reads {S A} (m : Op S A) : Prop := forall w s, exists a, m w s = (Ok a, w, s).

Lemma reads_gets {S A} (f : S -> A) : reads (gets f).
Proof. intros w s. by eexists. Qed.

Lemma reads_ret {S A} (a : A) : reads (mret a : Op S A).
Proof. intros w s. by eexists. Qed.

Lemma reads_bind {S A B} (m : Op S A) (k : A -> Op S B) :
  reads m -> (forall a, reads (k a)) -> reads (m ≫= k).
Proof.
  intros Hm Hk w s. destruct (Hm w s) as [a Ha]. destruct (Hk a w s) as [b Hb].
  exists b. unfold mbind, M_bind. by rewrite Ha.
Qed.

Lemma reads_zoom {T S A} `{Part T S} (m : Op T A) : reads m -> reads (zoom m : Op S A).
Proof.
  intros Hm w s. destruct (Hm w (get_part s)) as [a Ha]. exists a. unfold zoom. rewrite Ha.
  by rewrite put_get_part.
Qed.

(** * Settled requests

    A handler settles the activity [i]: it answers 202, [i] is in the ledger and no row
    of the ledger has changed, or it answers an error and the store is what it was. *)
Definition settled (i : string) (d : Db) (z : Z) (d' : Db) : Prop :=
  z = ACCEPTED /\ is_Some (processed d' !! i) /\ processed d ⊆ processed d' \/
  (z = BAD_REQUEST \/ z = INTERNAL_SERVER_ERROR) /\ d' = d.

Definition settles (i : string) (m : Op Db Z) : Prop := forall w d,
  exists z w' d', m w d = (Ok z, w', d') /\ settled i d z d'.

Lemma settles_refuse i : settles i (mret BAD_REQUEST).
Proof. intros w d. exists BAD_REQUEST, w, d. split; [done|]. right. split; [by left|done]. Qed.

Lemma settles_reads {A} i (m : Op Db A) (k : A -> Op Db Z) :
  reads m -> (forall a, settles i (k a)) -> settles i (m ≫= k).
Proof.
  intros Hm Hk w d. destruct (Hm w d) as [a Ha]. destruct (Hk a w d) as (z & w' & d' & Hz & H).
  exists z, w', d'. split; [|done]. unfold mbind, M_bind. by rewrite Ha.
Qed.

(** A nested transaction settles [i] when each run of its body that commits answers
    202 with [i] recorded. *)
Lemma settles_answered i (body : Op Db (txn Z)) :
  (forall w d c w' d', body w d = (Ok c, w', d') ->
     c = Commit ACCEPTED /\ is_Some (processed d' !! i) /\ processed d ⊆ processed d') ->
  settles i (answered body).
Proof.
  intros Hbody w d. unfold answered, transaction.
  destruct (body w d) as [[[c|e] w'] d'] eqn:E.
  - destruct (Hbody _ _ _ _ _ E) as [-> Hi]. exists ACCEPTED, w', d'. split; [done|]. left. by split.
  - exists INTERNAL_SERVER_ERROR, w', d. split; [done|]. right. split; [by right|done].
Qed.

Lemma classify_row_old md row : classify_row md row <> New.
Proof. unfold classify_row. by repeat case_match. Qed.

Lemma register_activity_run md w d r w' d' :
  register_inbox_activity md w d = (Ok r, w', d') ->
  processed d ⊆ processed d' /\ is_Some (processed d' !! md_activity_id md) /\
  (r = New <-> processed d !! md_activity_id md = None) /\ (r <> New -> d' = d) /\
  interactions d' = interactions d.
Proof.
  intros H. unfold register_inbox_activity in H.
  inv_bind H now w1 d1 H1. injection H1 as _ _ <-. inv_bind H t w2 d2 H2. injection H2 as <- _ <-.
  destruct (processed d !! md_activity_id md) as [row|] eqn:E.
  - inv_bind H f w3 d3 H3. injection H3 as <- _ <-.
    apply lift_option_Ok in H as (Hr & <- & <-). rewrite E in Hr. injection Hr as <-.
    split; [done|]. split; [by eexists|]. split; [|done].
    split; [by intros ?%classify_row_old|done].
  - inv_bind H u w3 d3 H3. injection H3 as _ _ <-. injection H as <- _ <-. cbn.
    split; [by apply insert_subseteq|]. split; [by rewrite lookup_insert_eq; eexists|]. done.
Qed.

Section Settled.
Context (uuid_text : uuid -> string) (parse_uuid : string -> option uuid)
  (public_url : string -> string) (base_url : string)
  (url_origin : string -> option (string * string)) (digest : JsonValue -> option string)
  (prove : JsonValue -> result JsonValue RoostyError).

#[local] Abbreviation replay := (register_inbox_replay uuid_text digest).
#[local] Abbreviation frame := (recorded uuid_text digest).
#[local] Abbreviation ignored := (finish_ignored_inbox_activity uuid_text digest).
#[local] Abbreviation inbox := (process_inbox uuid_text parse_uuid public_url base_url url_origin digest prove).

Lemma replay_run activity signer outcome i w d r w' d' :
  string_member uuid_text "id" activity = Some i ->
  replay activity signer outcome w d = (Ok r, w', d') ->
  processed d ⊆ processed d' /\ is_Some (processed d' !! i) /\
  (r = New <-> processed d !! i = None) /\ (r <> New -> d' = d) /\ interactions d' = interactions d.
Proof.
  intros Hi H. unfold register_inbox_replay in H.
  inv_bind H i' w1 d1 H1. apply lift_option_Ok in H1 as (Hi' & <- & <-).
  inv_bind H kind w2 d2 H2. apply lift_option_Ok in H2 as (_ & <- & <-).
  inv_bind H dg w3 d3 H3. apply lift_option_Ok in H3 as (_ & <- & <-).
  rewrite Hi in Hi'. injection Hi' as <-. by apply register_activity_run in H.
Qed.

Lemma settles_ignored i activity signer :
  string_member uuid_text "id" activity = Some i -> settles i (ignored activity signer).
Proof.
  intros Hi. apply settles_answered. intros w d c w' d' H. inv_bind H r w1 d1 H1.
  injection H as <- _ <-. split; [done|]. by apply (replay_run _ _ _ i) in H1 as (Hsub & Hrow & _).
Qed.

Lemma settles_recorded i activity signer effect :
  string_member uuid_text "id" activity = Some i -> keeps processed effect ->
  settles i (frame activity signer effect).
Proof.
  intros Hi Heffect. apply settles_answered. intros w d c w' d' H.
  inv_bind H new w1 d1 H1. inv_bind H u w2 d2 H2. injection H as <- _ <-. split; [done|].
  inv_bind H1 r w3 d3 H3. injection H1 as Hnew _ <-.
  apply (replay_run _ _ _ i) in H3 as (Hsub & Hrow & _); [|done].
  destruct new; [|by injection H2 as _ _ <-].
  by rewrite (keeps_run processed _ _ _ _ _ _ Heffect H2).
Qed.

Lemma keeps_processed_zoom {A} (m : Op Interactions.Db A) : keeps processed (zoom m : Op Db A).
Proof. by apply keeps_zoom. Qed.

Lemma reads_local_status url : reads (local_status_id_from_url parse_uuid base_url url).
Proof.
  unfold local_status_id_from_url. destruct (_ ≫= _) as [[name id_text]|]; [|apply reads_ret].
  destruct (_ || _); [apply reads_ret|]. destruct (parse_uuid id_text); [|apply reads_ret].
  apply reads_bind; [|intros; apply reads_bind; [apply reads_gets|intros; apply reads_ret]].
  unfold on_statuses, on_requests. do 3 apply reads_zoom. apply reads_gets.
Qed.

Lemma reads_status i : reads (on_statuses (Statuses.find_local_status_by_id i)).
Proof. unfold on_statuses, on_requests. do 3 apply reads_zoom. apply reads_gets. Qed.

Lemma reads_announce target signer : reads (announce_target parse_uuid base_url target signer).
Proof.
  unfold announce_target. apply reads_bind; [apply reads_local_status|]. intros [status|].
  - apply reads_bind; [apply reads_status|]. intros row. apply reads_ret.
  - apply reads_bind; [apply reads_gets|]. intros d. apply reads_ret.
Qed.

(** The handlers keep the ledger but for the row they write. *)
Ltac effect_keeps :=
  unfold on_relations, on_requests, reblog_and_notify, follow_and_notify, accept_follow,
    follow_response_activity;
  repeat first [apply keeps_processed_zoom | solve_keeps].

Ltac settle :=
  repeat lazymatch goal with
    | |- forall _, _ => intro
    | |- settles _ (mret BAD_REQUEST) => apply settles_refuse
    | |- settles _ (finish_ignored_inbox_activity _ _ _ _) => by apply settles_ignored
    | |- settles _ (recorded _ _ _ _ _) => apply settles_recorded; [done|effect_keeps]
    | |- settles _ (_ ≫= _) => apply settles_reads
    | |- reads (gets _) => apply reads_gets
    | |- reads (local_status_id_from_url _ _ _) => apply reads_local_status
    | |- reads (on_statuses _) => apply reads_status
    | |- reads (announce_target _ _ _ _) => apply reads_announce
    | |- settles _ (match ?x with _ => _ end) => destruct x
    | |- settles _ (let x := ?v in _) => cbv zeta
    end.

Lemma settles_arms i activity signer :
  string_member uuid_text "id" activity = Some i ->
  settles i (process_block uuid_text public_url digest activity i signer) /\
  (forall accepted, settles i (process_follow_answer uuid_text digest activity accepted signer)) /\
  settles i (process_like uuid_text parse_uuid base_url digest activity i signer) /\
  settles i (process_announce uuid_text parse_uuid base_url digest activity i signer) /\
  settles i (process_follow uuid_text public_url digest prove activity i signer).
Proof.
  intros Hi. split; [unfold process_block; settle|]. split; [unfold process_follow_answer; settle|].
  split; [unfold process_like; settle|]. split; [unfold process_announce; settle|].
  unfold process_follow. settle.
Qed.

Lemma reads_block actor original :
  reads (on_relations (Relations.find_remote_local_block_by_activity actor original)).
Proof.
  unfold on_relations, Interactions.on_relations, NotificationRequests.on_relations.
  do 4 apply reads_zoom. apply reads_gets.
Qed.

Lemma settles_undo i activity signer :
  string_member uuid_text "id" activity = Some i ->
  settles i (process_undo uuid_text digest activity signer).
Proof.
  intros Hi.
  assert (Hrest : settles i
    (match announce_id uuid_text activity with
     | Some original => process_undo_announce uuid_text digest activity original signer
     | None => match like_id uuid_text activity with
               | Some original => process_undo_like uuid_text digest activity original signer
               | None => process_undo_follow uuid_text digest activity signer
               end
     end)).
  { unfold process_undo_announce, process_undo_like, process_undo_follow. settle. }
  unfold process_undo, process_undo_block.
  destruct (block_id uuid_text activity) as [original|]; [|exact Hrest].
  intros w d. destruct (reads_block (signer_id signer) original w d) as [[local|] Hrow].
  - destruct (settles_recorded i activity signer
      (on_relations (Relations.process_remote_undo_block (signer_id signer) (mkAccountId local) original);;
       mret tt) Hi ltac:(effect_keeps) w d) as (z & w' & d' & Hz & H).
    exists z, w', d'. split; [|done]. unfold mbind, M_bind in *. by rewrite Hrow, Hz.
  - destruct (Hrest w d) as (z & w' & d' & Hz & H). exists z, w', d'. split; [|done].
    unfold mbind, M_bind in *. by rewrite Hrow.
Qed.

(** A request that goes on in another handler has changed nothing; one that is
    answered is settled. *)
Lemma dispatch_settles activity kind i signer w d :
  string_member uuid_text "id" activity = Some i -> kind <> Other ->
  dispatch uuid_text parse_uuid public_url base_url digest prove activity kind i signer w d
    = (Ok None, w, d) \/
  exists z w' d',
    dispatch uuid_text parse_uuid public_url base_url digest prove activity kind i signer w d
      = (Ok (Some z), w', d') /\
    settled i d z d'.
Proof.
  intros Hi Hkind.
  assert (Hanswer : forall m, settles i m -> exists z w' d',
    answer m w d = (Ok (Some z), w', d') /\
    settled i d z d').
  { intros m Hm. destruct (Hm w d) as (z & w' & d' & Hz & H). exists z, w', d'. split; [|done].
    unfold answer, mbind, M_bind. by rewrite Hz. }
  destruct (settles_arms i activity signer Hi) as (Hblock & Hfollow_answer & Hlike & Hannounce & Hfollow).
  unfold dispatch. destruct (is_remote_actor_lifecycle_activity _ _ _); [by left|].
  destruct kind; try (by left); try (right; apply Hanswer; done);
    try (right; apply Hanswer; by apply settles_undo); [|].
  all: unfold mbind at 1 2, M_bind at 1 2; cbn [gets];
    destruct (quote_response_of uuid_text activity); [destruct (bool_decide _)|];
    first [by left | right; apply Hanswer, Hfollow_answer].
Qed.

Lemma inbox_settles activity i signer w d :
  string_member uuid_text "id" activity = Some i ->
  is_Some (inbound_activity_type uuid_text activity ≫= persisted) ->
  inbox activity signer w d = (Ok None, w, d) /\ processed d !! i = None \/
  exists z w' d', inbox activity signer w d = (Ok (Some z), w', d') /\
    settled i d z d' /\
    (is_Some (processed d !! i) -> d' = d).
Proof.
  intros Hi [kind Hkind]. unfold process_inbox. rewrite Hkind, Hi.
  assert (Hrefuse : exists z w' d', (mret (Some BAD_REQUEST) : Op Db (option Z)) w d
      = (Ok (Some z), w', d') /\
    settled i d z d' /\
    (is_Some (processed d !! i) -> d' = d)).
  { exists BAD_REQUEST, w, d. split; [done|]. split; [|done]. right. split; [by left|done]. }
  destruct (same_url_origin _ _ _); cbn [negb]; [|by right].
  destruct (canonical_activity_digest digest activity) as [dg|]; [|by right].
  unfold classify_inbox_activity, mbind, M_bind. cbn [gets md_activity_id].
  assert (Hother : kind <> Other).
  { intros ->. destruct (inbound_activity_type uuid_text activity) as [[]|]; discriminate. }
  destruct (processed d !! i) as [row|] eqn:E.
  - right. exists ACCEPTED, w, d. split.
    + cbn [fmap option_fmap option_map].
      pose proof (classify_row_old (mkMetadata i (signer_id signer) dg kind Accepted) row).
      by destruct (classify_row _ row).
    + split; [|done]. left. split; [done|]. split; [by exists row|done].
  - cbn. destruct (dispatch_settles activity kind i signer w d Hi Hother) as [H|(z & w' & d' & H & Hz)].
    + left. by split.
    + right. exists z, w', d'. split; [exact H|]. split; [exact Hz|]. by intros [? ?].
Qed.

(** ** Histories *)

(** One request to the inbox, by any authenticated actor. *)
Inductive delivered (d d' : Db) : Prop :=
| Delivered activity signer w r w' : inbox activity signer w d = (r, w', d') -> delivered d d'.

Lemma delivered_keeps_ledger d d' : delivered d d' -> processed d ⊆ processed d'.
Proof.
  intros [activity signer w r w' Hrun].
  destruct (decide (is_Some (inbound_activity_type uuid_text activity ≫= persisted))) as [Hkind|Hkind].
  - destruct (string_member uuid_text "id" activity) as [i|] eqn:Hi.
    + destruct (inbox_settles activity i signer w d Hi Hkind)
        as [[H _]|(z & w1 & d1 & H & [(_ & _ & Hsub)|[_ ->]] & _)];
        rewrite H in Hrun; by injection Hrun as _ _ <-.
    + destruct Hkind as [kind Hkind]. unfold process_inbox in Hrun. rewrite Hkind, Hi in Hrun.
      by injection Hrun as _ _ <-.
  - unfold process_inbox in Hrun. destruct (_ ≫= _) as [kind|] eqn:E; [by destruct Hkind; eexists|].
    by injection Hrun as _ _ <-.
Qed.

(** What may happen between two requests: other requests to the inbox, and anything
    else, their other handlers included, that removes no row of the ledger (no statement
    of the server updates or deletes one). *)
Inductive meanwhile (d d' : Db) : Prop :=
| meanwhile_delivered : delivered d d' -> meanwhile d d'
| meanwhile_other : processed d ⊆ processed d' -> meanwhile d d'.

(** C7. The activities that the handlers of follows, answers to follows, blocks, likes,
    boosts and their undoing answer take effect at most once.  When one of these handlers
    ([process_inbox] answers [Some z]) answers 202 to an activity of a known type, the
    activity is in the ledger, and from then on, whatever happens in between that removes
    no row of the ledger, a request with the same identifier - from any signer and with
    any content - is answered without changing the store.  When it answers anything else,
    the store is what it was.  Activities of unknown types, and those that [process_inbox]
    hands to another handler ([None]), are not covered. *)
Theorem inbox_effects_happen_once activity signer i w d z w1 d1 :
  string_member uuid_text "id" activity = Some i ->
  is_Some (inbound_activity_type uuid_text activity ≫= persisted) ->
  inbox activity signer w d = (Ok (Some z), w1, d1) ->
  z <> ACCEPTED /\ d1 = d \/
  z = ACCEPTED /\ is_Some (processed d1 !! i) /\
  forall d2 again signer2 w2 r w3 d3,
    rtc meanwhile d1 d2 ->
    string_member uuid_text "id" again = Some i ->
    inbox again signer2 w2 d2 = (r, w3, d3) -> d3 = d2.
Proof.
  intros Hi Hkind Hrun.
  destruct (inbox_settles activity i signer w d Hi Hkind)
    as [[H _]|(z' & w' & d' & H & Hz & _)]; rewrite H in Hrun; injection Hrun as Hz' _ <-; [done|].
  subst z'. destruct Hz as [(-> & Hrow & _)|[Hz ->]]; [right|left; by destruct Hz; subst].
  split; [done|]. split; [exact Hrow|]. intros d2 again signer2 w2 r w3 d3 Hsteps Hagain Hrun2.
  assert (Hrow2 : is_Some (processed d2 !! i)).
  { destruct Hrow as [row Hrow]. exists row. assert (Hsub : processed d' ⊆ processed d2).
    { clear - Hsteps. induction Hsteps as [|x y z H _ IH]; [done|]. etransitivity; [|exact IH].
      destruct H; [by apply delivered_keeps_ledger|done]. }
    by apply (lookup_weaken _ _ _ _ Hrow). }
  destruct (decide (is_Some (inbound_activity_type uuid_text again ≫= persisted))) as [Hkind2|Hkind2].
  - destruct (inbox_settles again i signer2 w2 d2 Hagain Hkind2)
      as [[H2 Hnone]|(z2 & w4 & d4 & H2 & _ & Hsame)]; rewrite H2 in Hrun2.
    + by injection Hrun2 as _ _ <-.
    + injection Hrun2 as _ _ <-. by apply Hsame.
  - unfold process_inbox in Hrun2. destruct (inbound_activity_type uuid_text again ≫= persisted)
      as [kind|] eqn:E; [by destruct Hkind2; eexists|].
    by injection Hrun2 as _ _ <-.
Qed.

(** ** Undoing by a bare identifier *)

Lemma undo_boost_keeps actor original :
  keeps (fun d => (Interactions.remote_favourites d, Interactions.requests_db d))
    (Interactions.process_remote_undo_reblog actor original).
Proof.
  unfold Interactions.process_remote_undo_reblog, Interactions.delete_remote_reblog,
    Interactions.adjust_status_trend, Interactions.mark_trend_dirty.
  solve_keeps.
Qed.

Lemma keeps_answered {B} (f : Db -> B) (body : Op Db (txn Z)) :
  keeps f body -> keeps f (answered body).
Proof.
  intros Hbody w d. specialize (keeps_transaction f body Hbody w d). unfold store_of, answered.
  by destruct (transaction body w d) as [[[z|e] w'] d'].
Qed.

Lemma keeps_recorded {B} (f : Db -> B) activity signer effect :
  (forall d d', interactions d' = interactions d -> f d' = f d) -> keeps f effect ->
  keeps f (frame activity signer effect).
Proof.
  intros Hf Heffect. apply keeps_answered.
  unfold is_new_inbox_activity, register_inbox_replay, register_inbox_activity,
    classify_inbox_activity, when.
  solve_keeps; intros; by apply Hf.
Qed.

Lemma inbox_undo activity signer i w d :
  inbound_activity_type uuid_text activity = Some Undo ->
  string_member uuid_text "id" activity = Some i ->
  inbox activity signer w d = (Ok (Some BAD_REQUEST), w, d) \/
  is_Some (processed d !! i) /\ inbox activity signer w d = (Ok (Some ACCEPTED), w, d) \/
  inbox activity signer w d = answer (process_undo uuid_text digest activity signer) w d.
Proof.
  intros Hkind Hi. unfold process_inbox. rewrite Hkind, Hi. cbn.
  destruct (same_url_origin _ _ _); cbn [negb]; [|by left].
  destruct (canonical_activity_digest digest activity) as [dg|]; [|by left].
  unfold classify_inbox_activity, mbind, M_bind. cbn [gets md_activity_id].
  destruct (processed d !! i) as [row|]; cbn [fmap option_fmap option_map].
  - right. left. split; [by eexists|].
    pose proof (classify_row_old (mkMetadata i (signer_id signer) dg Undo Accepted) row).
    by destruct (classify_row _ row).
  - right. right. unfold dispatch, is_remote_actor_lifecycle_activity. by rewrite Hkind.
Qed.

(** What the boosts, and they alone, may change without. *)
Definition beside_boosts (d : Db) : gmap uuid Interactions.RemoteFavouriteRow * NotificationRequests.Db :=
  (Interactions.remote_favourites (interactions d), Interactions.requests_db (interactions d)).

(** An Undo may name what it undoes by a bare identifier, and each kind of Undo
    accepts that form.  But an identifier fits the Undo of a boost, which is tried
    before those of a like and of a follow: whatever the identifier names, unless it is a
    block by the signer, every follow and every favourite stays, and as the Undo is in
    the ledger once it is answered 202, sending it again does not help. *)
Theorem bare_undo_undoes_boosts_only activity signer i original w d :
  inbound_activity_type uuid_text activity = Some Undo ->
  string_member uuid_text "id" activity = Some i ->
  Relations.json_get "object" activity = Some (JString original) ->
  value_of (on_relations (Relations.find_remote_local_block_by_activity (signer_id signer) original)) w d
    = Ok None ->
  exists z w' d', inbox activity signer w d = (Ok (Some z), w', d') /\
    relations_of d' = relations_of d /\
    Interactions.remote_favourites (interactions d') = Interactions.remote_favourites (interactions d) /\
    (z = ACCEPTED -> is_Some (processed d' !! i)).
Proof.
  intros Hkind Hi Hobject Hblock.
  set (boost := process_undo_announce uuid_text digest activity original signer).
  assert (Hundo : process_undo uuid_text digest activity signer w d = boost w d).
  { unfold process_undo, process_undo_block.
    assert (Hread : forall name c, undone uuid_text name c activity = Some (Some original))
      by (intros; unfold undone; by rewrite Hobject).
    unfold block_id, announce_id. rewrite !Hread. cbn [mjoin option_join].
    destruct (reads_block (signer_id signer) original w d) as [row Hrow].
    unfold value_of in Hblock. rewrite Hrow in Hblock. injection Hblock as ->.
    unfold mbind, M_bind. by rewrite Hrow. }
  destruct (inbox_undo activity signer i w d Hkind Hi) as [H|[[Hrow H]|H]].
  - by exists BAD_REQUEST, w, d.
  - by exists ACCEPTED, w, d.
  - destruct (settles_recorded i activity signer
      (zoom (Interactions.process_remote_undo_reblog (signer_id signer) original);; mret tt) Hi
      ltac:(solve_keeps) w d) as (z & w' & d' & Hz & Hs).
    assert (Hkept : beside_boosts d' = beside_boosts d).
    { eapply (keeps_run beside_boosts); [|exact Hz]. apply keeps_recorded.
      - intros d1 d2 Hd. unfold beside_boosts. by rewrite Hd.
      - apply keeps_bind; [|done].
        intros w1 d1. unfold store_of, zoom.
        pose proof (undo_boost_keeps (signer_id signer) original w1 (get_part d1)) as Hk.
        unfold store_of in Hk. by destruct (Interactions.process_remote_undo_reblog _ _ _ _) as [[? ?] ?]. }
    injection Hkept as Hf Hr. exists z, w', d'. split.
    + rewrite H. unfold answer, mbind, M_bind. rewrite Hundo. unfold boost. 
      unfold process_undo_announce. by rewrite Hz.
    + unfold relations_of, statuses_of, Interactions.statuses_of. rewrite Hr.
      split; [done|]. split; [done|]. intros ->. by destruct Hs as [(_ & ? & _)|[[?|?] _]].
Qed.

(** ** A signer acts for itself *)

Section Signer.
Context (signer : Signer) (b : uuid) (Hsigner : account_uuid (signer_id signer) <> b).

(** What [b] did, in the tables and in the ledger. *)
Definition others (d : Db) :=
  (deeds b (interactions d), filter (fun kv => pa_actor kv.2 = b) (processed d)).

Definition spares {A} (m : Op Db A) : Prop :=
  forall w d, InteractionsInvariant.keys_ok (interactions d) -> leaves others m w d.

(** The same for the effect of an activity, which leaves the ledger alone. *)
Definition harmless (m : Op Db unit) : Prop :=
  keeps processed m /\ forall w d, InteractionsInvariant.keys_ok (interactions d) ->
    leaves (fun d => deeds b (interactions d)) m w d.

Lemma spares_reads {A B} (m : Op Db A) (k : A -> Op Db B) :
  reads m -> (forall x, spares (k x)) -> spares (m ≫= k).
Proof.
  intros Hm Hk w d Hkeys. destruct (Hm w d) as [x Hx]. apply leaves_bind.
  - unfold leaves, store_of. by rewrite Hx.
  - intros y w' d' Hrun. rewrite Hx in Hrun. injection Hrun as <- <- <-. by apply Hk.
Qed.

Lemma spares_refuse z : spares (mret z : Op Db Z).
Proof. by intros w d _. Qed.

Lemma leaves_answered (body : Op Db (txn Z)) w d :
  leaves others body w d -> leaves others (answered body) w d.
Proof.
  unfold leaves, store_of, answered, transaction. by destruct (body w d) as [[[[z|z]|e] w'] d'].
Qed.

Lemma register_spares activity outcome w d :
  leaves others (replay activity signer outcome) w d.
Proof.
  apply leaves_bind; [by destruct (string_member _ _ _)|]. intros i w1 d1 H1.
  apply lift_option_Ok in H1 as (_ & _ & ->).
  apply leaves_bind; [by destruct (_ ≫= _)|]. intros kind w2 d2 H2.
  apply lift_option_Ok in H2 as (_ & _ & ->).
  apply leaves_bind; [by destruct (canonical_activity_digest _ _)|]. intros dg w3 d3 H3.
  apply lift_option_Ok in H3 as (_ & _ & ->).
  apply leaves_bind; [done|]. intros now w4 d4 H4. injection H4 as _ _ <-.
  apply leaves_bind; [done|]. intros t w5 d5 H5. injection H5 as <- _ <-. cbn [md_activity_id].
  destruct (processed d !! i) as [row|] eqn:E.
  - apply leaves_bind; [done|]. intros found w6 d6 H6. injection H6 as _ _ <-. by destruct found.
  - apply leaves_bind; [|done]. unfold leaves, store_of, others. cbn. apply f_equal2; [done|].
    apply map_filter_insert_not'; cbn; [done|]. intros y. by rewrite E.
Qed.

Lemma spares_ignored activity : spares (ignored activity signer).
Proof. intros w d _. apply leaves_answered, leaves_bind; [apply register_spares|done]. Qed.

Lemma spares_recorded activity effect : harmless effect -> spares (frame activity signer effect).
Proof.
  intros [Hprocessed Heffect] w d Hkeys. apply leaves_answered, leaves_bind.
  - apply leaves_bind; [apply register_spares|done].
  - intros new w1 d1 Hnew. apply leaves_bind; [|done]. destruct new; [|done]. cbn [when].
    assert (Hsame : interactions d1 = interactions d).
    { eapply (keeps_run interactions _ _ _ _ _ _); [|exact Hnew].
      unfold is_new_inbox_activity, register_inbox_replay, register_inbox_activity,
        classify_inbox_activity. solve_keeps. }
    unfold leaves, others. specialize (Hprocessed w1 d1).
    assert (Hdeeds : leaves (fun d => deeds b (interactions d)) effect w1 d1)
      by (apply Heffect; by rewrite Hsame).
    unfold leaves in Hdeeds. by rewrite Hdeeds, Hprocessed.
Qed.

Lemma harmless_keeps (m : Op Db unit) :
  keeps processed m -> keeps (fun d => deeds b (interactions d)) m -> harmless m.
Proof. intros Hp Hm. split; [done|]. intros w d _. apply Hm. Qed.

Lemma deeds_zoom {A} (m : Op Interactions.Db A) :
  keeps (deeds b) m -> keeps (fun d => deeds b (interactions d)) (zoom m : Op Db A).
Proof. by apply keeps_zoom_part. Qed.

Lemma harmless_zoom {A} (m : Op Interactions.Db A) :
  (forall w i, InteractionsInvariant.keys_ok i -> leaves (deeds b) m w i) ->
  harmless (zoom m;; mret tt).
Proof.
  intros Hm. split; [apply keeps_bind; [apply keeps_processed_zoom|done]|].
  intros w d Hkeys. apply leaves_bind; [|done]. specialize (Hm w (interactions d) Hkeys).
  unfold leaves, store_of, zoom in *. cbn [get_part interactions_part].
  by destruct (m w (interactions d)) as [[r w'] i].
Qed.

Lemma harmless_relations {A} (m : Op Relations.Db A) :
  keeps (acts b) m -> harmless (on_relations m;; mret tt).
Proof. intros Hm. apply harmless_zoom. intros w i _. by apply deeds_relations. Qed.

Lemma reads_keeps {S A B} (f : S -> B) (m : Op S A) : reads m -> keeps f m.
Proof. intros Hm w s. unfold store_of. by destruct (Hm w s) as [x ->]. Qed.

Lemma harmless_reblog target i : harmless (reblog_and_notify uuid_text target i signer).
Proof.
  apply harmless_keeps; [effect_keeps|]. unfold reblog_and_notify.
  apply keeps_bind; [by apply deeds_zoom, deeds_reblog|]. intros created.
  destruct target as [status|status]; [|done]. destruct created; [|done].
  apply keeps_bind; [apply reads_keeps, reads_status|]. intros [s|]; [|done].
  apply keeps_bind; [|done]. apply deeds_zoom, deeds_requests.
  by apply (acted_notify _ _ _ _ Notifications.Follow).
Qed.

Lemma harmless_follow activity i local pending :
  harmless (follow_and_notify uuid_text public_url prove activity i local pending signer).
Proof.
  apply harmless_keeps; [effect_keeps|]. unfold follow_and_notify, accept_follow.
  apply keeps_bind.
  - destruct pending; [by apply deeds_zoom, deeds_relations, acts_pending|].
    apply keeps_bind; [unfold follow_response_activity; solve_keeps|]. intros answer. cbv zeta.
    by apply deeds_zoom, deeds_relations, acts_accepted.
  - intros [|]; [|done]. apply keeps_bind; [|done]. apply deeds_zoom, deeds_requests.
    by apply (acted_notify _ _ _ _ _ (mkStatusId 0)).
Qed.

Ltac spare :=
  repeat lazymatch goal with
    | |- forall _, _ => intro
    | |- spares (mret _) => apply spares_refuse
    | |- spares (finish_ignored_inbox_activity _ _ _ _) => apply spares_ignored
    | |- spares (recorded _ _ _ _ _) => apply spares_recorded
    | |- spares (_ ≫= _) => apply spares_reads
    | |- reads (gets _) => apply reads_gets
    | |- reads (local_status_id_from_url _ _ _) => apply reads_local_status
    | |- reads (on_statuses _) => apply reads_status
    | |- reads (announce_target _ _ _ _) => apply reads_announce
    | |- spares (match ?x with _ => _ end) => destruct x
    | |- spares (let x := ?v in _) => cbv zeta
    end.

Lemma spares_undo activity : spares (process_undo uuid_text digest activity signer).
Proof.
  assert (Hrest : spares
    (match announce_id uuid_text activity with
     | Some original => process_undo_announce uuid_text digest activity original signer
     | None => match like_id uuid_text activity with
               | Some original => process_undo_like uuid_text digest activity original signer
               | None => process_undo_follow uuid_text digest activity signer
               end
     end)).
  { unfold process_undo_announce, process_undo_like, process_undo_follow. spare.
    - apply harmless_zoom. intros w i. by apply deeds_undo_reblog.
    - apply harmless_zoom. intros w i. by apply deeds_undo_like.
    - by apply harmless_relations, acts_undo_follow. }
  unfold process_undo, process_undo_block.
  destruct (block_id uuid_text activity) as [original|]; [|exact Hrest].
  intros w d Hkeys. destruct (reads_block (signer_id signer) original w d) as [row Hrow].
  apply leaves_bind.
  - apply leaves_bind; [unfold leaves, store_of; by rewrite Hrow|]. intros found w1 d1 H1.
    rewrite Hrow in H1. injection H1 as <- <- <-. destruct row as [local|]; [|done].
    apply leaves_bind; [|done]. apply spares_recorded; [|exact Hkeys].
    by apply harmless_relations, acts_undo_block.
  - intros x w1 d1 H1. inv_bind H1 found w2 d2 H2. rewrite Hrow in H2. injection H2 as <- <- <-.
    destruct row as [local|].
    + inv_bind H1 z w3 d3 H3. by injection H1 as <- _ _.
    + injection H1 as <- <- <-. by apply Hrest.
Qed.

Lemma spares_dispatch activity kind i :
  spares (dispatch uuid_text parse_uuid public_url base_url digest prove activity kind i signer).
Proof.
  unfold dispatch. destruct (is_remote_actor_lifecycle_activity _ _ _); [by intros w d _|].
  assert (Hanswer : forall m, spares m -> spares (answer m)).
  { intros m Hm w d Hkeys. apply leaves_bind; [by apply Hm|done]. }
  destruct kind; try (by intros w d _); try (apply Hanswer, spares_undo).
  - apply Hanswer. unfold process_follow. spare. apply harmless_follow.
  - apply spares_reads; [apply reads_gets|]. intros t.
    assert (Hfollow : spares (answer (process_follow_answer uuid_text digest activity true signer)))
      by (apply Hanswer; unfold process_follow_answer; spare; by apply harmless_relations, acts_accept).
    destruct (quote_response_of _ _); [destruct (bool_decide _); [by intros w d _|]|]; exact Hfollow.
  - apply spares_reads; [apply reads_gets|]. intros t.
    assert (Hfollow : spares (answer (process_follow_answer uuid_text digest activity false signer)))
      by (apply Hanswer; unfold process_follow_answer; spare; by apply harmless_relations, acts_reject).
    destruct (quote_response_of _ _); [destruct (bool_decide _); [by intros w d _|]|]; exact Hfollow.
  - apply Hanswer. unfold process_like. spare. apply harmless_zoom. intros w i' _.
    by apply leaves_keeps, deeds_like.
  - apply Hanswer. unfold process_announce. spare. apply harmless_reblog.
  - apply Hanswer. unfold process_block. spare. by apply harmless_relations, acts_block.
Qed.
End Signer.

(** C25. The handlers of follows, answers to follows, blocks, likes, boosts and their
    undoing act for the signer alone: when one of them answers an activity
    ([process_inbox] answers [Some z]), the follows, blocks, likes and boosts of every
    other remote actor, the follows of that actor by local accounts, and the activities it
    has in the ledger, are what they were.  In particular an Undo undoes nothing that its
    signer did not do.  An activity that goes on in another handler ([None]) is not
    covered: the Delete of a status, for one, deletes the boosts of it. *)
Theorem inbox_acts_for_its_signer activity signer b w d z w' d' :
  InteractionsInvariant.keys_ok (interactions d) ->
  account_uuid (signer_id signer) <> b ->
  inbox activity signer w d = (Ok (Some z), w', d') ->
  others b d' = others b d.
Proof.
  intros Hkeys Hb Hrun.
  enough (H : leaves (others b) (inbox activity signer) w d)
    by (unfold leaves, store_of in H; by rewrite Hrun in H).
  unfold process_inbox. destruct (inbound_activity_type uuid_text activity ≫= persisted); [|done].
  destruct (string_member uuid_text "id" activity); [|done].
  destruct (same_url_origin _ _ _); cbn [negb]; [|done].
  destruct (canonical_activity_digest digest activity); [|done].
  apply leaves_bind; [done|]. intros existing w1 d1 H1. injection H1 as _ <- <-.
  destruct existing as [[]|]; first [done | by apply spares_dispatch].
Qed.

(** ** Follows *)

Lemma answered_inv {S} (body : Op S (txn Z)) w d z w' d' :
  answered body w d = (Ok z, w', d') -> z <> INTERNAL_SERVER_ERROR ->
  exists c d1, body w d = (Ok c, w', d1) /\ (c = Commit z /\ d' = d1 \/ c = Rollback z /\ d' = d).
Proof.
  unfold answered, transaction. destruct (body w d) as [[[[z'|z']|e] w1] d1]; intros H Hz.
  - injection H as <- <- <-. exists (Commit z'), d1. split; [done|by left].
  - injection H as <- <- <-. exists (Rollback z'), d1. split; [done|by right].
  - by injection H as <- _ _.
Qed.

(** A fresh activity that is answered 202 took effect. *)
Lemma recorded_fresh activity signer effect i w d w' d' :
  string_member uuid_text "id" activity = Some i -> processed d !! i = None ->
  frame activity signer effect w d = (Ok ACCEPTED, w', d') ->
  exists w1 d1 u w2 , interactions d1 = interactions d /\ effect w1 d1 = (Ok u, w2, d').
Proof.
  intros Hi Hfresh H. apply answered_inv in H as (c & d3 & Hbody & Hc); [|done].
  inv_bind Hbody new w1 d1 H1. inv_bind H1 r w2 d2 H2.
  apply (replay_run _ _ _ i) in H2 as (_ & _ & Hr & _ & Hsame); [|done].
  rewrite (proj2 Hr Hfresh) in H1. injection H1 as <- <- <-.
  inv_bind Hbody u w4 d4 H4. injection Hbody as <- <- <-. destruct Hc as [[_ ->]|[[=] _]].
  by exists w2, d2, u, w4.
Qed.

Lemma follows_notify account actor kind :
  keeps (fun d => acts (account_uuid actor) (relations_of d))
    (on_requests (NotificationRequests.notify_remote_actor_follow uuid_text account actor kind)).
Proof.
  apply (keeps_zoom_part _ (fun i => acts (account_uuid actor)
    (Statuses.relations (Interactions.statuses_of i)))); [by intros [] ?|].
  apply (keeps_zoom_part _ (acted (account_uuid actor))); [by intros [] ?|].
  by apply (acted_notify _ _ _ _ _ (mkStatusId 0)).
Qed.

Lemma acts_follow_row a l r r' :
  acts a r' = acts a r -> Relations.remote_follows r' !! (a, l) = Relations.remote_follows r !! (a, l).
Proof.
  intros H. injection H as H _ _. apply option_eq. intros f.
  assert (Hin : forall t, t !! (a, l) = Some f <-> filter (fun kv => kv.1.1 = a) t !! (a, l) = Some f)
    by (intros t; rewrite map_lookup_filter_Some; naive_solver).
  by rewrite (Hin (Relations.remote_follows r')), (Hin (Relations.remote_follows r)), H.
Qed.

(** What storing a follow leaves of the pair. *)
Definition follow_stored (l : uuid) (signer : Signer) (i : string) (state : Relations.RemoteFollowState)
    (before after : Relations.Db) : Prop :=
  let key := (account_uuid (signer_id signer), l) in
  if Relations.remote_pair_blocked l (account_uuid (signer_id signer)) before
  then Relations.remote_follows after !! key = Relations.remote_follows before !! key
  else exists f, Relations.remote_follows after !! key = Some f /\
         Relations.rf_activity_id f = i /\ Relations.rf_state f = state.

Lemma insert_follow_run a l i activity state w r row w' r' :
  Relations.insert_remote_follow a l i activity state w r = (Ok row, w', r') ->
  Relations.remote_follows r' !! (account_uuid a, account_uuid l) = Some row /\
  Relations.rf_activity_id row = i /\ Relations.rf_state row = state.
Proof.
  intros H. unfold Relations.insert_remote_follow in H.
  inv_bind H n w1 r1 H1. injection H1 as _ _ <-. inv_bind H created w2 r2 H2. injection H2 as _ _ <-.
  inv_bind H now w3 r3 H3. injection H3 as _ _ <-. inv_bind H t w4 r4 H4. injection H4 as <- _ <-.
  cbv zeta in H. destruct (Relations.follow_activity_taken _ _ _); [discriminate|].
  inv_bind H u w5 r5 H5. injection H5 as _ _ <-. injection H as <- _ <-. cbn.
  by rewrite lookup_insert_eq.
Qed.

Lemma store_pending_run l i activity signer w r stored w' r' :
  Relations.upsert_processed_pending_remote_follow (signer_id signer) (mkAccountId l) i activity w r
    = (Ok stored, w', r') ->
  follow_stored l signer i Relations.Pending r r'.
Proof.
  intros H. unfold Relations.upsert_processed_pending_remote_follow in H.
  inv_bind H blocked w1 r1 H1. injection H1 as <- <- <-. unfold follow_stored.
  change (account_uuid (mkAccountId l)) with l in H.
  destruct (Relations.remote_pair_blocked _ _ r); [by injection H as _ _ <-|].
  inv_bind H row w2 r2 H2. injection H as _ _ <-. apply insert_follow_run in H2. by exists row.
Qed.

Lemma store_accepted_run l i activity job signer w r stored w' r' :
  Relations.upsert_processed_remote_follow_with_response_job (signer_id signer) (mkAccountId l) i
    activity job w r = (Ok stored, w', r') ->
  follow_stored l signer i Relations.Accepted r r'.
Proof.
  intros H. unfold Relations.upsert_processed_remote_follow_with_response_job in H.
  inv_bind H blocked w1 r1 H1. injection H1 as <- <- <-. unfold follow_stored.
  change (account_uuid (mkAccountId l)) with l in H.
  destruct (Relations.remote_pair_blocked _ _ r); [by injection H as _ _ <-|].
  inv_bind H row w2 r2 H2. inv_bind H u w3 r3 H3. injection H as _ _ <-.
  apply insert_follow_run in H2. exists row. cbn in H2.
  assert (Hjob : keeps Relations.remote_follows (Relations.insert_response_job job))
    by (unfold Relations.insert_response_job, Relations.enqueue; solve_keeps).
  by rewrite (keeps_run _ _ _ _ _ _ _ Hjob H3).
Qed.

Lemma on_relations_run {A} (m : Op Relations.Db A) w d r w' d' :
  on_relations m w d = (r, w', d') ->
  exists t, m w (relations_of d) = (r, w', t) /\ relations_of d' = t.
Proof.
  unfold on_relations, Interactions.on_relations, NotificationRequests.on_relations, zoom.
  cbn. unfold relations_of at 1, statuses_of, Interactions.statuses_of.
  destruct (m w _) as [[x w1] t]. intros [= <- <- <-]. exists t. by split.
Qed.

Lemma follow_run activity i l pending signer w d u w' d' :
  follow_and_notify uuid_text public_url prove activity i l pending signer w d = (Ok u, w', d') ->
  follow_stored l signer i (if pending then Relations.Pending else Relations.Accepted)
    (relations_of d) (relations_of d').
Proof.
  intros H. unfold follow_and_notify in H. inv_bind H stored w1 d1 H1.
  assert (Hstored : follow_stored l signer i (if pending then Relations.Pending else Relations.Accepted)
    (relations_of d) (relations_of d1)).
  { destruct pending.
    - apply on_relations_run in H1 as (t & H1 & ->). by apply store_pending_run in H1.
    - unfold accept_follow in H1. inv_bind H1 reply w2 d2 H2.
      assert (Hkeep : keeps relations_of
        (follow_response_activity uuid_text public_url prove l activity Delivery.RespondAccept))
        by (unfold follow_response_activity; solve_keeps).
      pose proof (keeps_run _ _ _ _ _ _ _ Hkeep H2) as Hd.
      apply on_relations_run in H1 as (t & H1 & ->). apply store_accepted_run in H1. by rewrite <- Hd. }
  destruct stored; [|by injection H as _ _ <-]. inv_bind H n w2 d2 H2. injection H as _ _ <-.
  apply (keeps_run _ _ _ _ _ _ _ (follows_notify _ _ _)) in H2.
  apply (acts_follow_row _ l) in H2. unfold follow_stored in *. by rewrite H2.
Qed.

(** A follow of a local account that is answered 202 for the first time is what the
    pair has from then on - accepted at once if the account is open, waiting for its
    owner if it is locked - unless one of the two blocks the other: then the pair keeps
    what it had. *)
Theorem follow_is_stored_unless_blocked activity signer i name l w d w' d' :
  inbound_activity_type uuid_text activity = Some Follow ->
  string_member uuid_text "id" activity = Some i -> processed d !! i = None ->
  follow_of uuid_text activity = Some (actor_url public_url name) ->
  last_segment (actor_url public_url name) = name ->
  account_named name d = Some l ->
  inbox activity signer w d = (Ok (Some ACCEPTED), w', d') ->
  follow_stored l signer i (if locked d l then Relations.Pending else Relations.Accepted)
    (relations_of d) (relations_of d').
Proof.
  intros Hkind Hi Hfresh Hobject Hsegment Hname Hrun. unfold process_inbox in Hrun.
  rewrite Hkind, Hi in Hrun. cbn in Hrun.
  destruct (same_url_origin _ _ _); cbn [negb] in Hrun; [|discriminate].
  destruct (canonical_activity_digest digest activity) as [dg|]; [|discriminate].
  inv_bind Hrun existing w1 d1 H1. injection H1 as <- <- <-. cbn [md_activity_id] in Hrun.
  rewrite Hfresh in Hrun. cbn [fmap option_fmap option_map] in Hrun.
  unfold dispatch, is_remote_actor_lifecycle_activity in Hrun. rewrite Hkind in Hrun.
  inv_bind Hrun z w2 d2 H2. injection Hrun as -> <- <-.
  unfold process_follow in H2. rewrite Hobject, Hsegment in H2. cbv zeta in H2.
  case_bool_decide; [discriminate|]. rewrite bool_decide_true in H2 by done. cbn [negb] in H2.
  inv_bind H2 d3 w3 d4 H3. injection H3 as <- <- <-. rewrite Hname in H2.
  eapply recorded_fresh in H2 as (w5 & d5 & u & w6 & Hsame & Heffect); [|exact Hi|exact Hfresh].
  apply follow_run in Heffect. unfold relations_of, statuses_of in *. by rewrite Hsame in Heffect.
Qed.
End Settled.

(** * Concrete histories

    A server at here.test, whose accounts have the names "user" and a digit, hears of
    actor 50 of far.test.  Account 2 is locked. *)
Definition sample_public (path : string) : string := ("https://here.test/" ++ path)%string.
Definition sample_origin (url : string) : option (string * string) :=
  if String.prefix "https://far.test/" url then Some ("https", "far.test")%string else None.
Definition sample_digest (activity : JsonValue) : option string := Some "digest"%string.
Definition sample_proof (activity : JsonValue) : result JsonValue RoostyError := Ok activity.
Definition sample_name (account : uuid) : string :=
  if (account =? 1)%N then "user1"%string else "user2"%string.
Definition sample_signer : Signer := mkSigner (mkAccountId 50) "https://far.test/ann".
Definition other_signer : Signer := mkSigner (mkAccountId 51) "https://far.test/eve".

Definition sample_inbox (activity : JsonValue) (signer : Signer) : Op Db (option Z) :=
  process_inbox RequestsInvariant.sample_text (fun _ => None) sample_public "https://here.test"
    sample_origin sample_digest sample_proof activity signer.

Definition sample_store : Db :=
  mkDb InteractionsInvariant.sample_store ∅ sample_name (fun a => (a =? 2)%N) (fun _ => ""%string) ∅.

Definition sample_activity (kind object : string) : JsonValue :=
  JObject [("id"%string, JString ("https://far.test/" ++ kind)%string); ("type"%string, JString kind);
           ("actor"%string, JString "https://far.test/ann"); ("object"%string, JString object)].

Definition sample_follow : JsonValue := sample_activity "Follow" "https://here.test/users/user2".
Definition follow_id_text : string := "https://far.test/Follow".
Definition follow_run1 := sample_inbox sample_follow sample_signer sample_world sample_store.
Definition followed_store : Db := snd follow_run1.

Lemma sample_keys : InteractionsInvariant.keys_ok InteractionsInvariant.sample_store.
Proof. by split; intros k v H; cbn in H; rewrite lookup_empty in H. Qed.

(** The request waits for the owner of the locked account. *)
Lemma follow_is_stored_unless_blocked_witness :
  follow_stored 2 sample_signer follow_id_text Relations.Pending
    (relations_of sample_store) (relations_of followed_store).
Proof.
  apply (follow_is_stored_unless_blocked RequestsInvariant.sample_text (fun _ => None) sample_public
    "https://here.test" sample_origin sample_digest sample_proof sample_follow sample_signer
    follow_id_text "user2" 2 sample_world sample_store (snd (fst follow_run1)) followed_store);
    vm_compute; reflexivity.
Defined.

Definition replayed_run := sample_inbox sample_follow other_signer sample_world followed_store.

(** Another actor that sends the same identifier changes nothing. *)
Lemma inbox_effects_happen_once_witness :
  snd replayed_run = followed_store.
Proof.
  destruct (inbox_effects_happen_once RequestsInvariant.sample_text (fun _ => None) sample_public
    "https://here.test" sample_origin sample_digest sample_proof sample_follow sample_signer
    follow_id_text sample_world sample_store ACCEPTED (snd (fst follow_run1)) followed_store)
    as [[H _]|(_ & _ & H)].
  - vm_compute. reflexivity.
  - vm_compute. by eexists.
  - vm_compute. reflexivity.
  - by destruct H.
  - apply (H followed_store sample_follow other_signer sample_world (fst (fst replayed_run))
      (snd (fst replayed_run)) (snd replayed_run) (rtc_refl _ _)); vm_compute; reflexivity.
Defined.

(** The store after a sequence of activities of actor 50. *)
Definition after (activities : list JsonValue) : Db :=
  foldl (fun d activity => snd (sample_inbox activity sample_signer sample_world d)) sample_store activities.

(** The Undo names the follow by its identifier, and the follow stays; the Undo that
    embeds the follow removes it. *)
Definition sample_undo : JsonValue := sample_activity "Undo" follow_id_text.
Definition embedded_undo : JsonValue :=
  JObject [("id"%string, JString "https://far.test/Undo/2"); ("type"%string, JString "Undo");
           ("actor"%string, JString "https://far.test/ann");
           ("object"%string, JObject [("id"%string, JString follow_id_text);
                                      ("type"%string, JString "Follow")])].

Lemma bare_undo_undoes_boosts_only_witness :
  relations_of (after [sample_follow; sample_undo]) = relations_of followed_store /\
  Relations.remote_follows (relations_of (after [sample_follow; embedded_undo])) = ∅.
Proof.
  split; [|vm_compute; reflexivity].
  destruct (bare_undo_undoes_boosts_only RequestsInvariant.sample_text (fun _ => None) sample_public
    "https://here.test" sample_origin sample_digest sample_proof sample_undo sample_signer
    "https://far.test/Undo" follow_id_text sample_world followed_store) as (z & w' & d' & H & Hr & _);
    [vm_compute; reflexivity..|].
  change (after [sample_follow; sample_undo]) with
    (snd (sample_inbox sample_undo sample_signer sample_world followed_store)).
  unfold sample_inbox. rewrite H. exact Hr.
Defined.

Lemma inbox_acts_for_its_signer_witness :
  others 50 (snd (sample_inbox embedded_undo other_signer sample_world followed_store))
    = others 50 followed_store.
Proof.
  set (run := sample_inbox embedded_undo other_signer sample_world followed_store).
  apply (inbox_acts_for_its_signer RequestsInvariant.sample_text (fun _ => None) sample_public
    "https://here.test" sample_origin sample_digest sample_proof embedded_undo other_signer 50
    sample_world followed_store ACCEPTED (snd (fst run)) (snd run)).
  - split; intros k v H; vm_compute in H; discriminate.
  - intros [=].
  - vm_compute. reflexivity.
Defined.
