(* ===== verification/Scheduled.v ===== *)
(** Scheduled statuses ([crates/db/src/lib.rs] and [crates/server/src/statuses.rs]):
    the limits of an account, the media a schedule reserves, the durable job that
    publishes it, moving and cancelling it, and the two transactions of its
    publication; and the reservations that make the creation of a status idempotent.

    A creation writes to more tables than a schedule touches (mentions, hashtags,
    preview cards, notifications, deliveries, quotes).  What its checks of reply and
    quote targets answer, and whether its statements on those tables succeed, are
    arguments; so are the digest of idempotency keys and the printing of UUIDs.
    Transactions that hold a lock on the account or on a schedule are serial. *)
From S2P Require Import Prelude Core Text.
From S2P Require Jobs Notifications Relations Statuses Polls.

#[local] Existing Instances Polls.notifications_part Polls.jobs_part Statuses.StatusVisibility_eq_dec.

(** * Data *)

Inductive QuoteApprovalPolicy : Type := QuotePublic | QuoteFollowers | QuoteNobody.

(** What a status says, whether it is published or waits. *)
Record Post := mkPost {
  content : text;
  visibility : Statuses.StatusVisibility;
  sensitive : bool;
  spoiler_text : text;
  language : option string;
  in_reply_to_id : option uuid;
  in_reply_to_remote_status_id : option uuid;
  quoted_status_id : option uuid;
  quote_approval_policy : QuoteApprovalPolicy;
}.

#[export] Instance QuoteApprovalPolicy_eq_dec : EqDecision QuoteApprovalPolicy.
Proof. solve_decision. Defined.
#[export] Instance Post_eq_dec : EqDecision Post.
Proof. solve_decision. Defined.

(** Rows of [scheduled_status]. *)
Record ScheduledStatus := mkScheduled {
  ss_id : uuid;
  ss_account : uuid;
  ss_publication : uuid;
  ss_post : Post;
  ss_scheduled_at : time;
  ss_created_at : time;
  ss_updated_at : time;
}.

(** Rows of [local_media_attachment], as far as they belong to somebody. *)
Record MediaRow := mkMedia {
  media_account : uuid;
  media_status : option uuid;
  media_schedule : option uuid;
  media_order : Z;
  media_updated_at : time;
}.

(** Rows of [local_status]. *)
Record StatusRow := mkStatus {
  st_account : uuid;
  st_post : Post;
  st_created_at : time;
  st_deleted_at : option time;
}.

Inductive ExistingStatusCreation : Type :=
| ExistingStatus (id : StatusId)
| ExistingScheduledStatus (id : uuid).

(** Rows of [status_creation_idempotency], keyed by account and digest. *)
Record IdempotencyRow := mkIdempotency {
  idem_result : ExistingStatusCreation;
  idem_expires_at : time;
}.

(** [polls_db] holds the poll tables, a copy of each status's author that they refer
    to, and the job table. *)
Record Db := mkDb {
  accounts : gset uuid;
  schedules : gmap uuid ScheduledStatus;
  media : gmap uuid MediaRow;
  statuses : gmap uuid StatusRow;
  creations : gmap (uuid * string) IdempotencyRow;
  polls_db : Polls.Db;
}.

Definition set_schedules t (d : Db) : Db :=
  mkDb (accounts d) t (media d) (statuses d) (creations d) (polls_db d).
Definition set_media t (d : Db) : Db :=
  mkDb (accounts d) (schedules d) t (statuses d) (creations d) (polls_db d).
Definition set_statuses t (d : Db) : Db :=
  mkDb (accounts d) (schedules d) (media d) t (creations d) (polls_db d).
Definition set_creations t (d : Db) : Db :=
  mkDb (accounts d) (schedules d) (media d) (statuses d) t (polls_db d).

#[export, refine] Instance polls_part : Part Polls.Db Db :=
  {| get_part := polls_db;
     put_part := fun p d => mkDb (accounts d) (schedules d) (media d) (statuses d) (creations d) p |}.
Proof. all: by intros *; try destruct s. Defined.

Definition on_polls {A} (m : Op Polls.Db A) : Op Db A := zoom m.
Definition on_jobs {A} (m : Op Jobs.table A) : Op Db A := on_polls (zoom m).
Definition jobs_of (d : Db) : Jobs.table := Notifications.jobs (Polls.notification_db (polls_db d)).

(** * Limits

    [OffsetDateTime] carries an offset from UTC.  [date()] is the date at that offset,
    and [midnight().assume_utc()] is the midnight of this date in UTC. *)
Record OffsetTime := mkOffsetTime {
  instant : time;
  offset : duration;
}.

Definition DAY : duration := seconds 86400.
Definition day_start (t : OffsetTime) : time := (instant t + offset t) / DAY * DAY.

(** The schedules of an account that fall on the day, without the one that moves. *)
Definition on_day (account : uuid) (start : time) (moving : option uuid) (s : ScheduledStatus) : bool :=
  (ss_account s =? account)%N && negb (bool_decide (Some (ss_id s) = moving))
  && (start <=? ss_scheduled_at s) && (ss_scheduled_at s <? start + DAY).

Definition of_account (account : uuid) (s : ScheduledStatus) : bool := (ss_account s =? account)%N.

Definition count_day (account : uuid) (start : time) (moving : option uuid) (d : Db) : Z :=
  Z.of_nat (count_where (on_day account start moving) (schedules d)).
Definition count_total (account : uuid) (d : Db) : Z :=
  Z.of_nat (count_where (of_account account) (schedules d)).

Inductive ScheduleStatusResult : Type := Created | TotalLimitReached | DailyLimitReached.

Record NewScheduledStatus := mkNewScheduled {
  new_id : option uuid;
  new_account : AccountId;
  new_post : Post;
  new_scheduled_at : OffsetTime;
  new_media_ids : list uuid;
  new_poll : option Polls.NewStatusPoll;
}.

(** * Media *)

Definition available (account : uuid) (m : MediaRow) : bool :=
  (media_account m =? account)%N && bool_decide (media_status m = None)
  && bool_decide (media_schedule m = None).

Definition require_available (account : uuid) (i : uuid) : Op Db unit :=
  d ← gets (fun d => d);
  match media d !! i with
  | Some m => if available account m then mret tt
              else throw (InvalidInput "media attachment is not available")
  | None => throw (InvalidInput "media attachment is not available")
  end.

Definition reserve_media (schedule : uuid) (now : time) (p : nat * uuid) : Op Db unit :=
  d ← gets (fun d => d);
  m ← lift_option (InvalidInput "media attachment disappeared") (media d !! p.2);
  modify (set_media (<[p.2 := mkMedia (media_account m) (media_status m) (Some schedule)
                                (Z.of_nat p.1) now]> (media d))).

(** The attachments of a schedule in the order of the client. *)
Definition media_attachments_for_scheduled_status (schedule : uuid) (d : Db) : list uuid :=
  fst <$> order_by (fun a b : uuid * MediaRow => media_order a.2 <=? media_order b.2)
    (List.filter (fun kv : uuid * MediaRow => bool_decide (media_schedule kv.2 = Some schedule))
       (map_to_list (media d))).

(** * Schedules *)

Section Schedules.
Context (graphemes : text -> Z) (uuid_text : uuid -> string).

Definition publish_payload (schedule : uuid) : JsonValue :=
  JObject [("scheduled_status_id"%string, JUuid schedule)].

Definition insert_schedule (s : ScheduledStatus) : Op Db unit :=
  d ← gets (fun d => d);
  if bool_decide (is_Some (schedules d !! ss_id s)) then
    throw (Database (UniqueViolation "scheduled_status_pkey"))
  else if negb (bool_decide (rows_where (fun r => (ss_publication r =? ss_publication s)%N) (schedules d) = []))
  then throw (Database (UniqueViolation "scheduled_status_publication_status_id_key"))
  else modify (set_schedules (<[ss_id s := s]> (schedules d))).

Definition create_scheduled_status (input : NewScheduledStatus) (total_limit daily_limit : Z) :
    Op Db (ScheduleStatusResult * option ScheduledStatus) :=
  let account := account_uuid (new_account input) in
  d ← gets (fun d => d);
  if negb (bool_decide (account ∈ accounts d)) then throw (InvalidInput "account does not exist")
  else if total_limit <=? count_total account d then mret (TotalLimitReached, None)
  else if daily_limit <=? count_day account (day_start (new_scheduled_at input)) None d
  then mret (DailyLimitReached, None)
  else
    for_each (new_media_ids input) (require_available account);;
    i ← match new_id input with Some i => mret i | None => uuid_now_v7 end;
    publication ← uuid_now_v7;
    now ← now_utc;
    let row := mkScheduled i account publication (new_post input) (instant (new_scheduled_at input))
                 now now in
    insert_schedule row;;
    match new_poll input with
    | Some poll => on_polls (Polls.create_scheduled_poll graphemes i poll)
    | None => mret tt
    end;;
    for_each (imap pair (new_media_ids input)) (reserve_media i now);;
    on_jobs (Jobs.enqueue_job_in_transaction
      (Jobs.mkNewJob Jobs.ScheduledStatusPublish (publish_payload i) (Some (uuid_text i))
         (instant (new_scheduled_at input))));;
    mret (Created, Some row).

Definition find_scheduled_status (account : AccountId) (i : uuid) (d : Db) : option ScheduledStatus :=
  s ← schedules d !! i; if of_account (account_uuid account) s then Some s else None.

(** Jobs of a schedule that are not finished. *)
Definition active_job (schedule : uuid) (j : Jobs.Job) : bool :=
  Jobs.active_duplicate Jobs.ScheduledStatusPublish (Some (uuid_text schedule)) j.

Definition run_at (t : time) (j : Jobs.Job) : Jobs.Job :=
  Jobs.mkJob (Jobs.id j) (Jobs.kind j) (Jobs.payload j) (Jobs.deduplication_key j) t (Jobs.attempts j)
    (Jobs.locked_at j) (Jobs.locked_by j) (Jobs.claim_id j) (Jobs.last_error j) (Jobs.created_at j)
    (Jobs.completed_at j) (Jobs.permanently_failed_at j).

Definition update_jobs (schedule : uuid) (f : Jobs.Job -> Jobs.Job) : Op Db unit :=
  on_jobs (modify (update_where (active_job schedule) f)).

Definition reschedule_status (account : AccountId) (i : uuid) (scheduled_at : OffsetTime)
    (daily_limit : Z) : Op Db (option ScheduledStatus) :=
  d ← gets (fun d => d);
  match find_scheduled_status account i d with
  | None => mret None
  | Some s =>
      if daily_limit <=? count_day (account_uuid account) (day_start scheduled_at) (Some i) d
      then throw (InvalidInput "daily scheduled status limit reached")
      else
        now ← now_utc;
        let row := mkScheduled (ss_id s) (ss_account s) (ss_publication s) (ss_post s)
                     (instant scheduled_at) (ss_created_at s) now in
        modify (fun d => set_schedules (<[i := row]> (schedules d)) d);;
        update_jobs i (run_at (instant scheduled_at));;
        mret (Some row)
  end.

(** DELETE FROM scheduled_status: media lose their reservation, the poll goes with it. *)
Definition release (schedule : uuid) (m : MediaRow) : MediaRow :=
  if bool_decide (media_schedule m = Some schedule)
  then mkMedia (media_account m) (media_status m) None (media_order m) (media_updated_at m)
  else m.

Definition delete_schedule (schedule : uuid) : Op Db unit :=
  modify (fun d => set_schedules (delete schedule (schedules d)) d);;
  modify (fun d => set_media (release schedule <$> media d) d);;
  on_polls (modify (Polls.with_scheduled (delete schedule)
    (filter (fun kv => kv.1.1 <> schedule)))).

Definition finish_job (now : time) (j : Jobs.Job) : Jobs.Job := Jobs.completed now j.

Definition cancel_scheduled_status (account : AccountId) (i : uuid) : Op Db bool :=
  d ← gets (fun d => d);
  match find_scheduled_status account i d with
  | None => mret false
  | Some _ =>
      delete_schedule i;;
      now ← now_utc;
      update_jobs i (finish_job now);;
      mret true
  end.

Definition delete_scheduled_status_in_transaction (i : uuid) : Op Db unit := delete_schedule i.

(** * Creating the status *)

(** [create_local_status_with_media], as far as it concerns the status and its media:
    an attachment must be the author's and free, or reserved by the schedule that is
    published. *)
Definition require_attachable (account : uuid) (schedule : option uuid) (i : uuid) : Op Db unit :=
  d ← gets (fun d => d);
  m ← lift_option (InvalidInput "media attachment not found") (media d !! i);
  if negb (media_account m =? account)%N
     || bool_decide (is_Some (media_status m))
     || bool_decide (is_Some (media_schedule m)) && negb (bool_decide (media_schedule m = schedule))
  then throw (InvalidInput "media attachment is not available")
  else mret tt.

Definition insert_status (i : uuid) (s : StatusRow) : Op Db unit :=
  d ← gets (fun d => d);
  if bool_decide (is_Some (statuses d !! i)) then throw (Database (UniqueViolation "local_status_pkey"))
  else
    modify (fun d => set_statuses (<[i := s]> (statuses d)) d);;
    on_polls (modify (fun p => Polls.mkDb (Polls.polls p) (Polls.poll_options p) (Polls.votes p)
      (Polls.scheduled_polls p) (Polls.scheduled_options p)
      (<[i := st_account s]> (Polls.local_statuses p)) (Polls.remote_statuses p)
      (Polls.notification_db p))).

Definition attach_media (status : uuid) (p : nat * uuid) : Op Db unit :=
  d ← gets (fun d => d);
  m ← lift_option (InvalidInput "media attachment not found") (media d !! p.2);
  now ← now_utc;
  modify (set_media (<[p.2 := mkMedia (media_account m) (Some status) None (Z.of_nat p.1) now]> (media d))).

Definition create_local_status_with_media (i : option StatusId) (account : uuid) (post : Post)
    (media_ids : list uuid) (schedule : option uuid) : Op Db StatusId :=
  status ← match i with Some i => mret (status_uuid i) | None => uuid_now_v7 end;
  created_at ← now_utc;
  for_each media_ids (require_attachable account schedule);;
  insert_status status (mkStatus account post created_at None);;
  for_each (imap pair media_ids) (attach_media status);;
  mret (mkStatusId status).

(** * Requests *)

Definition OK : Z := 200.
Definition BAD_REQUEST : Z := 400.
Definition NOT_FOUND : Z := 404.
Definition UNPROCESSABLE : Z := 422.
Definition SERVER_ERROR : Z := 500.
Definition MAX_STATUS_CHARS : nat := 500.
Definition MAX_MEDIA_ATTACHMENTS : nat := 4.

(** [StatusInput], read from a request or rebuilt from a schedule, after the account's
    defaults and the visibility that a quote allows have been filled in. *)
Record StatusInput := mkInput {
  in_post : Post;
  in_media_ids : list uuid;
  in_poll : option Polls.NewStatusPoll;
}.

Definition parse_media_ids (ids : list uuid) : option (list uuid) :=
  if (MAX_MEDIA_ATTACHMENTS <? length ids)%nat then None
  else if bool_decide (NoDup ids) then Some ids else None.

Definition validate_status_text (status : text) (has_media : bool) : bool :=
  let trimmed := trim status in
  negb (bool_decide (trimmed = []) && negb has_media) && (length trimmed <=? MAX_STATUS_CHARS)%nat.

(** The checks that need no other table; [text_needed] is whether a poll can replace
    the text.  [None] passes. *)
Definition check_input (poll_replaces_text : bool) (input : StatusInput) : option Z :=
  match parse_media_ids (in_media_ids input) with
  | None => Some BAD_REQUEST
  | Some ids =>
      let has_media := negb (bool_decide (ids = [])) in
      let has_poll := bool_decide (is_Some (in_poll input)) in
      if bool_decide (is_Some (quoted_status_id (in_post input))) && has_media then Some BAD_REQUEST
      else if has_poll && has_media then Some UNPROCESSABLE
      else if match in_poll input with
              | Some p => match Polls.validate_poll graphemes p with Err (InvalidInput _) => true | _ => false end
              | None => false
              end then Some UNPROCESSABLE
      else if negb (validate_status_text (content (in_post input)) (has_media || poll_replaces_text && has_poll))
      then Some BAD_REQUEST
      else None
  end.

Definition trimmed_post (p : Post) : Post :=
  mkPost (trim (content p)) (visibility p) (sensitive p) (spoiler_text p) (language p)
    (in_reply_to_id p) (in_reply_to_remote_status_id p) (quoted_status_id p) (quote_approval_policy p).

(** A statement whose failure is answered with a status code. *)
Definition or_answer {A} (code : Z) (m : Op Db A) (k : A -> Op Db (txn Z)) : Op Db (txn Z) := fun w d =>
  match m w d with
  | (Ok a, w', d') => k a w' d'
  | (Err _, w', d') => (Ok (Rollback code), w', d')
  end.

(** What the rest of a creation does: the answer of the checks of reply and quote
    targets, whether the statements on other tables succeed, and whether the response
    can be rendered once everything is committed. *)
Record Rest := mkRest {
  targets : option Z;
  others : bool;
  rendered : bool;
}.

Definition answer (r : Rest) : Z := if rendered r then OK else SERVER_ERROR.

Definition create_status_from_input (account : uuid) (input : StatusInput) (schedule : option uuid)
    (publication : option StatusId) (rest : Rest) : Op Db Z :=
  transaction (
    match check_input true input, targets rest with
    | Some code, _ | None, Some code => mret (Rollback code)
    | None, None =>
        or_answer SERVER_ERROR
          (create_local_status_with_media publication account (trimmed_post (in_post input))
             (in_media_ids input) schedule) (fun status =>
        or_answer SERVER_ERROR
          (match in_poll input with
           | Some poll => on_polls (Polls.create_local_poll graphemes uuid_text status poll);; mret tt
           | None => mret tt
           end) (fun _ =>
        if negb (others rest) then mret (Rollback SERVER_ERROR)
        else
          or_answer SERVER_ERROR
            (match schedule with
             | Some i => delete_scheduled_status_in_transaction i
             | None => mret tt
             end) (fun _ => mret (Commit (answer rest)))))
    end).

Section Requests.
Context (minimum_offset : duration) (total_limit daily_limit : Z).

(** A time in the future by more than the minimum offset. *)
Definition soon (t : OffsetTime) : Op Db bool := now ← now_utc; mret (instant t <=? now + minimum_offset).

(** The endpoint; [None] is a time that does not parse.  A refusal by a limit commits,
    and so does a schedule whose response cannot be rendered. *)
Definition create_scheduled_status_request (account : AccountId) (i : option uuid)
    (scheduled_at : option OffsetTime) (input : StatusInput) (rest : Rest) : Op Db Z :=
  match scheduled_at with
  | None => mret UNPROCESSABLE
  | Some t =>
      early ← soon t;
      if (early : bool) then mret UNPROCESSABLE
      else
        match check_input false input, targets rest with
        | Some code, _ | None, Some code => mret code
        | None, None => fun w d =>
            match create_scheduled_status (mkNewScheduled i account (trimmed_post (in_post input)) t
                    (in_media_ids input) (in_poll input)) total_limit daily_limit w d with
            | (Ok (Created, Some _), w', d') => (Ok (answer rest), w', d')
            | (Ok (Created, None), w', d') => (Ok SERVER_ERROR, w', d')
            | (Ok (TotalLimitReached, _), w', d') | (Ok (DailyLimitReached, _), w', d') =>
                (Ok UNPROCESSABLE, w', d')
            | (Err (InvalidInput _), w', _) => (Ok BAD_REQUEST, w', d)
            | (Err _, w', _) => (Ok SERVER_ERROR, w', d)
            end
        end
  end.

Definition update_scheduled_status (account : AccountId) (i : uuid) (scheduled_at : option OffsetTime)
    (is_rendered : bool) : Op Db Z :=
  match scheduled_at with
  | None => mret UNPROCESSABLE
  | Some t =>
      early ← soon t;
      if (early : bool) then mret UNPROCESSABLE
      else fun w d =>
        match reschedule_status account i t daily_limit w d with
        | (Ok (Some _), w', d') => (Ok (if is_rendered then OK else SERVER_ERROR), w', d')
        | (Ok None, w', _) => (Ok NOT_FOUND, w', d)
        | (Err (InvalidInput _), w', _) => (Ok BAD_REQUEST, w', d)
        | (Err _, w', _) => (Ok SERVER_ERROR, w', d)
        end
  end.

Definition delete_scheduled_status (account : AccountId) (i : uuid) : Op Db Z :=
  transaction (
    found ← cancel_scheduled_status account i;
    mret (if (found : bool) then Commit OK else Rollback NOT_FOUND)).
End Requests.

(** * Edits

    [PUT /api/v1/statuses/:id], as far as it writes the status, its attachments and its
    poll.  Whether hashtags, mentions or the description of an attachment change is an
    argument, and so is what the statements on other tables do. *)

Record StatusEdit := mkEdit {
  edit_content : option text;
  edit_sensitive : option bool;
  edit_spoiler_text : option text;
  edit_language : option (option string);
  edit_quote_policy : option QuoteApprovalPolicy;
  edit_media_ids : option (list uuid);
  edit_attributes : list uuid;
  edit_poll : option Polls.NewStatusPoll;
  edit_quotes : bool;
}.

Definition or_keep {A} (new : option A) (old : A) : A := match new with Some a => a | None => old end.

Definition edited_post (e : StatusEdit) (p : Post) : Post :=
  mkPost (or_keep (trim <$> edit_content e) (content p)) (visibility p) (or_keep (edit_sensitive e) (sensitive p))
    (or_keep (edit_spoiler_text e) (spoiler_text p)) (or_keep (edit_language e) (language p))
    (in_reply_to_id p) (in_reply_to_remote_status_id p) (quoted_status_id p) (quote_approval_policy p).

(** The attachments of a status in order. *)
Definition media_of_status (status : uuid) (d : Db) : list uuid :=
  fst <$> order_by (fun a b : uuid * MediaRow => media_order a.2 <=? media_order b.2)
    (List.filter (fun kv : uuid * MediaRow => bool_decide (media_status kv.2 = Some status))
       (map_to_list (media d))).

(** UPDATE of an attachment: its CHECK refuses a row with a status and a schedule. *)
Definition write_media (i : uuid) (m : MediaRow) : Op Db unit :=
  if bool_decide (is_Some (media_status m)) && bool_decide (is_Some (media_schedule m))
  then throw (Database (CheckViolation "local_media_attachment_owner_check"))
  else modify (fun d => set_media (<[i := m]> (media d)) d).

Definition require_editable (account status i : uuid) : Op Db unit :=
  d ← gets (fun d => d);
  m ← lift_option (InvalidInput "media attachment not found") (media d !! i);
  if negb (media_account m =? account)%N
     || negb (bool_decide (media_status m = None) || bool_decide (media_status m = Some status))
  then throw (InvalidInput "media attachment is not available")
  else mret tt.

Definition detach_media (keep : list uuid) (i : uuid) : Op Db unit :=
  d ← gets (fun d => d);
  m ← lift_option (InvalidInput "media attachment not found") (media d !! i);
  if bool_decide (i ∈ keep) then mret tt
  else now ← now_utc; write_media i (mkMedia (media_account m) None (media_schedule m) 0 now).

Definition keep_media (status : uuid) (p : nat * uuid) : Op Db unit :=
  d ← gets (fun d => d);
  m ← lift_option (InvalidInput "media attachment not found") (media d !! p.2);
  now ← now_utc;
  write_media p.2 (mkMedia (media_account m) (Some status) (media_schedule m) (Z.of_nat p.1) now).

Definition replace_media (account status : uuid) (ids : list uuid) : Op Db unit :=
  for_each ids (require_editable account status);;
  current ← gets (media_of_status status);
  for_each current (detach_media ids);;
  for_each (imap pair ids) (keep_media status).

Definition update_attributes (account status i : uuid) : Op Db unit :=
  d ← gets (fun d => d);
  match media d !! i with
  | Some m =>
      if (media_account m =? account)%N && bool_decide (media_status m = Some status)
      then now ← now_utc;
           write_media i (mkMedia (media_account m) (media_status m) (media_schedule m) (media_order m) now)
      else throw (InvalidInput "media attachment is not available")
  | None => throw (InvalidInput "media attachment is not available")
  end.

Definition owned_status (account i : uuid) (d : Db) : option StatusRow :=
  s ← statuses d !! i;
  if (st_account s =? account)%N && bool_decide (st_deleted_at s = None) then Some s else None.

Definition write_post (i : uuid) (s : StatusRow) (p : Post) : Op Db unit :=
  modify (fun d => set_statuses (<[i := mkStatus (st_account s) p (st_created_at s) (st_deleted_at s)]> (statuses d)) d).

(** [None] is a status that is not there, [Some false] one that would not change. *)
Definition update_owned_local_status (status : StatusId) (account : uuid) (e : StatusEdit)
    (elsewhere : bool) : Op Db (option bool) :=
  let i := status_uuid status in
  d ← gets (fun d => d);
  match owned_status account i d with
  | None => mret None
  | Some s =>
      let current := media_of_status i d in
      poll ← on_polls (Polls.find_poll_for_status (Polls.Local status));
      if negb (negb (bool_decide (edited_post e (st_post s) = st_post s))
               || negb (bool_decide (or_keep (edit_media_ids e) current = current))
               || elsewhere || bool_decide (is_Some poll) || bool_decide (is_Some (edit_poll e)))
      then mret (Some false)
      else
        match edit_media_ids e with Some ids => replace_media account i ids | None => mret tt end;;
        for_each (edit_attributes e) (update_attributes account i);;
        write_post i s (edited_post e (st_post s));;
        on_polls (Polls.replace_local_poll graphemes uuid_text status (edit_poll e));;
        mret (Some true)
  end.

Definition effective_policy (p : Post) (policy : QuoteApprovalPolicy) : QuoteApprovalPolicy :=
  match visibility p with Statuses.Private | Statuses.Direct => QuoteNobody | _ => policy end.

(** [false] when the account does not own the status. *)
Definition update_local_status_quote_policy (account i : uuid) (policy : QuoteApprovalPolicy) : Op Db bool :=
  d ← gets (fun d => d);
  match owned_status account i d with
  | None => mret false
  | Some s =>
      let p := st_post s in
      write_post i s (mkPost (content p) (visibility p) (sensitive p) (spoiler_text p) (language p)
        (in_reply_to_id p) (in_reply_to_remote_status_id p) (quoted_status_id p) (effective_policy p policy));;
      mret true
  end.

Definition check_edit (e : StatusEdit) (current : list uuid) : option Z :=
  if edit_quotes e then Some BAD_REQUEST
  else
    match edit_media_ids e ≫= parse_media_ids, edit_media_ids e with
    | None, Some _ => Some BAD_REQUEST
    | _, ids =>
        let has_media := negb (bool_decide (or_keep ids current = [])) in
        let has_poll := bool_decide (is_Some (edit_poll e)) in
        if has_poll && has_media then Some BAD_REQUEST
        else if match edit_poll e with
                | Some p => match Polls.validate_poll graphemes p with Ok _ => false | Err _ => true end
                | None => false
                end then Some BAD_REQUEST
        else
          match edit_content e with
          | Some t => if validate_status_text t (has_media || has_poll) then None else Some BAD_REQUEST
          | None => None
          end
    end.

Definition finish_edit (account i : uuid) (e : StatusEdit) (rest : Rest) : Op Db (txn Z) :=
  or_answer SERVER_ERROR
    (match edit_quote_policy e with
     | Some policy => update_local_status_quote_policy account i policy
     | None => mret true
     end)
    (fun found : bool =>
       mret (if negb found then Rollback NOT_FOUND
             else if others rest && rendered rest then Commit OK
             else Rollback SERVER_ERROR)).

(** What the answer of [update_owned_local_status] is turned into. *)
Definition answer_edit (m : Op Db (option bool)) (k : Op Db (txn Z)) : Op Db (txn Z) := fun w d =>
  match m w d with
  | (Ok (Some _), w', d') => k w' d'
  | (Ok None, w', d') => (Ok (Rollback NOT_FOUND), w', d')
  | (Err (InvalidInput _), w', d') => (Ok (Rollback BAD_REQUEST), w', d')
  | (Err _, w', d') => (Ok (Rollback SERVER_ERROR), w', d')
  end.

(** The endpoint: whatever is refused or fails is rolled back. *)
Definition update_status (account : AccountId) (status : StatusId) (e : StatusEdit) (elsewhere : bool)
    (rest : Rest) : Op Db Z :=
  let a := account_uuid account in
  let i := status_uuid status in
  transaction (
    d ← gets (fun d : Db => d);
    match owned_status a i d with
    | None => mret (Rollback NOT_FOUND)
    | Some _ =>
        match check_edit e (media_of_status i d), targets rest with
        | Some code, _ | None, Some code => mret (Rollback code)
        | None, None =>
            answer_edit (update_owned_local_status status a e elsewhere) (finish_edit a i e rest)
        end
    end).

(** * Publication *)

(** What the first transaction of [publish_scheduled_status] leads to: nothing to do,
    the status is there already, or a status to create. *)
Inductive Reading : Type :=
| NothingToDo
| AlreadyPublished (s : ScheduledStatus)
| ToPublish (s : ScheduledStatus) (input : StatusInput).

Definition find_published (i : uuid) (d : Db) : option StatusRow :=
  s ← statuses d !! i; if bool_decide (st_deleted_at s = None) then Some s else None.

(** A reply to a remote status comes back as a reply, whose target is looked up again. *)
Definition read_schedule (payload : JsonValue) : Op Db Reading :=
  i ← match Relations.json_get "scheduled_status_id" payload with
      | Some (JUuid i) => mret i
      | Some (JString _) => throw (InvalidInput "scheduled status id is invalid")
      | _ => throw (InvalidInput "scheduled status id is missing")
      end;
  d ← gets (fun d => d);
  match schedules d !! i with
  | None => mret NothingToDo
  | Some s =>
      now ← now_utc;
      if now <? ss_scheduled_at s then throw (InvalidInput "scheduled status is not due yet")
      else if bool_decide (is_Some (find_published (ss_publication s) d)) then mret (AlreadyPublished s)
      else if negb (bool_decide (ss_account s ∈ accounts d)) then mret NothingToDo
      else
        poll ← on_polls (Polls.scheduled_poll i);
        mret (ToPublish s (mkInput (ss_post s) (media_attachments_for_scheduled_status i d) poll))
  end.

(** What follows the first transaction. *)
Definition publish_read (reading : Reading) (rest : Rest) : Op Db unit :=
  match reading with
  | NothingToDo => mret tt
  | AlreadyPublished s => cancel_scheduled_status (mkAccountId (ss_account s)) (ss_id s);; mret tt
  | ToPublish s input =>
      code ← create_status_from_input (ss_account s) input (Some (ss_id s))
               (Some (mkStatusId (ss_publication s))) rest;
      if code =? OK then mret tt
      else if (400 <=? code) && (code <? 500) then
        cancel_scheduled_status (mkAccountId (ss_account s)) (ss_id s);; mret tt
      else throw (InvalidInput "scheduled status publication failed transiently")
  end.

(** The job when nothing else runs in between. *)
Definition publish_scheduled_status (payload : JsonValue) (rest : Rest) : Op Db unit :=
  reading ← read_schedule payload; publish_read reading rest.
End Schedules.

(** * Idempotent creation

    [StatusCreationGuard] is the transaction that holds the advisory lock of an account
    and a key; the locks that are held are part of the history, not of the store. *)
Section Idempotency.
Context (key_digest : string -> string) (graphemes : text -> Z) (uuid_text : uuid -> string)
  (minimum_offset : duration) (total_limit daily_limit : Z).

Definition creation_key (account : AccountId) (key : string) : uuid * string :=
  (account_uuid account, key_digest key).

(** [begin_status_creation], once the lock is held.  An expired row is deleted in the
    transaction of the guard, and only its commit makes that last; a new row replaces
    the expired one. *)
Definition existing_creation (account : AccountId) (key : string) : Op Db (option ExistingStatusCreation) :=
  now ← now_utc;
  gets (fun d => r ← creations d !! creation_key account key;
                 if idem_expires_at r <? now then None else Some (idem_result r)).

(** [StatusCreationGuard::complete]. *)
Definition complete_creation (account : AccountId) (key : string) (result : ExistingStatusCreation) :
    Op Db unit :=
  now ← now_utc;
  _ ← now_utc;
  modify (fun d => set_creations (<[creation_key account key := mkIdempotency result (now + seconds 3600)]>
                                    (creations d)) d).

(** A header value is visible ASCII. *)
Definition key_accepted (key : string) : bool :=
  negb (bool_decide (key = EmptyString)) && (String.length key <=? 1024)%nat.

Definition existing_status_creation_response (account : AccountId) (existing : ExistingStatusCreation)
    (is_rendered : bool) (d : Db) : Z :=
  let found := match existing with
    | ExistingStatus i =>
        match find_published (status_uuid i) d with
        | Some s => (st_account s =? account_uuid account)%N
        | None => false
        end
    | ExistingScheduledStatus i => bool_decide (is_Some (find_scheduled_status account i d))
    end in
  if found then if is_rendered then OK else SERVER_ERROR else NOT_FOUND.

(** The creation itself, with the identifier its result gets.  [scheduled] is the
    time of a scheduled status, itself [None] when it does not parse. *)
Definition create_result (account : AccountId) (scheduled : option (option OffsetTime)) (input : StatusInput)
    (rest : Rest) : Op Db (uuid * Z) :=
  result_id ← uuid_now_v7;
  code ← match scheduled with
         | Some scheduled_at =>
             create_scheduled_status_request graphemes uuid_text minimum_offset total_limit daily_limit
               account (Some result_id) scheduled_at input rest
         | None =>
             create_status_from_input graphemes uuid_text (account_uuid account) input None
               (Some (mkStatusId result_id)) rest
         end;
  mret (result_id, code).

Definition creation_result (scheduled : option (option OffsetTime)) (i : uuid) : ExistingStatusCreation :=
  match scheduled with Some _ => ExistingScheduledStatus i | None => ExistingStatus (mkStatusId i) end.

Definition create_status (account : AccountId) (key : option string)
    (scheduled : option (option OffsetTime)) (input : StatusInput) (rest : Rest) : Op Db Z :=
  match key with
  | None => r ← create_result account scheduled input rest; mret r.2
  | Some k =>
      if negb (key_accepted k) then mret BAD_REQUEST
      else
        existing ← existing_creation account k;
        match existing with
        | Some e => gets (existing_status_creation_response account e (rendered rest))
        | None =>
            r ← create_result account scheduled input rest;
            when (r.2 =? OK) (complete_creation account k (creation_result scheduled r.1));;
            mret r.2
        end
  end.
End Idempotency.
