(* ===== verification/ScheduledInvariant.v ===== *)
(** What holds of scheduled statuses under any interleaving of requests and of the two
    transactions of each publication: who owns the media, the limits of an account,
    what a schedule reads back as when it is due, that a publication ends its schedule
    and publishes once; and what a cancel between the two transactions does. *)
From stdpp Require Import relations pretty.
From S2P Require Import Prelude Core Text.
From S2P Require Jobs Notifications Relations Statuses Polls.
From S2P Require Import Scheduled.

#[local] Existing Instances Polls.notifications_part Polls.jobs_part.

(** * Runs *)

(** The tables of the store besides those of polls and jobs. *)
Definition base (d : Db) := (accounts d, schedules d, media d, statuses d, creations d).

Lemma keeps_on_polls {A} (m : Op Polls.Db A) : keeps base (on_polls m).
Proof. by apply keeps_zoom. Qed.

Lemma on_polls_run {A} (m : Op Polls.Db A) w d r w' d' :
  on_polls m w d = (r, w', d') ->
  accounts d' = accounts d /\ schedules d' = schedules d /\ media d' = media d /\
  statuses d' = statuses d /\ creations d' = creations d.
Proof.
  intros H. pose proof (keeps_run _ _ _ _ _ _ _ (keeps_on_polls m) H) as Hb.
  by injection Hb as -> -> -> -> ->.
Qed.

Lemma or_answer_run {A} code (m : Op Db A) k w d r w' d' :
  or_answer code m k w d = (r, w', d') ->
  (exists a w1 d1, m w d = (Ok a, w1, d1) /\ k a w1 d1 = (r, w', d')) \/ r = Ok (Rollback code).
Proof.
  unfold or_answer. destruct (m w d) as [[[a|e] w1] d1]; [|intros [= <- _ _]; by right].
  intros H. left. by eexists _, _, _.
Qed.

Lemma require_available_run account ids w d u w' d' :
  for_each ids (require_available account) w d = (Ok u, w', d') ->
  d' = d /\ Forall (fun i => exists m, media d !! i = Some m /\ available account m = true) ids.
Proof.
  revert w. induction ids as [|i ids IH]; intros w H; [by injection H as _ _ <-|].
  cbn [for_each] in H. inv_bind H v w1 d1 H1. unfold require_available in H1.
  inv_bind H1 d2 w2 d3 H2. injection H2 as <- _ <-.
  destruct (media d !! i) as [m|] eqn:Em; [|done]. destruct (available account m) eqn:Ea; [|done].
  injection H1 as _ <- <-. apply IH in H as [-> Hall]. split; [done|]. constructor; [by exists m|done].
Qed.

Lemma require_attachable_run account schedule ids w d u w' d' :
  for_each ids (require_attachable account schedule) w d = (Ok u, w', d') ->
  d' = d /\ Forall (fun i => exists m, media d !! i = Some m /\ media_account m = account /\
    media_status m = None /\ (media_schedule m = None \/ media_schedule m = schedule)) ids.
Proof.
  revert w. induction ids as [|i ids IH]; intros w H; [by injection H as _ _ <-|].
  cbn [for_each] in H. inv_bind H v w1 d1 H1. unfold require_attachable in H1.
  inv_bind H1 d2 w2 d3 H2. injection H2 as <- <- <-.
  inv_bind H1 m w3 d4 H3. apply lift_option_Ok in H3 as (Hm & <- & <-).
  destruct (_ || _ || _) eqn:E; [done|]. injection H1 as _ <- <-.
  apply IH in H as [-> Hall]. split; [done|]. constructor; [|done]. exists m. split; [done|].
  apply orb_false_iff in E as [E Es]. apply orb_false_iff in E as [Ea Eo].
  apply negb_false_iff, N.eqb_eq in Ea. apply bool_decide_eq_false in Eo.
  split; [done|]. split; [by destruct (media_status m); [destruct Eo; eexists|]|].
  apply andb_false_iff in Es as [Es|Es].
  - left. apply bool_decide_eq_false in Es. by destruct (media_schedule m); [destruct Es; eexists|].
  - right. apply negb_false_iff in Es. by apply bool_decide_eq_true in Es.
Qed.

(** A loop that rewrites one row of the media per step. *)
Definition retouches (g : nat -> MediaRow -> MediaRow -> Prop) (body : nat * uuid -> Op Db unit) : Prop :=
  forall p w d u w' d', body p w d = (Ok u, w', d') ->
  exists m m', media d !! p.2 = Some m /\ g p.1 m m' /\ d' = set_media (<[p.2 := m']> (media d)) d.

(** What a loop over [ps] has done to the row [k]. *)
Definition retouched (g : nat -> MediaRow -> MediaRow -> Prop) (ps : list (nat * uuid)) (k : uuid)
    (before after : option MediaRow) : Prop :=
  k ∉ ps.*2 /\ after = before \/
  exists n m m', (n, k) ∈ ps /\ before = Some m /\ after = Some m' /\ g n m m'.

Lemma retouch_run g body ps w d u w' d' :
  retouches g body -> (forall n n' a b c, g n a b -> g n' b c -> g n' a c) ->
  for_each ps body w d = (Ok u, w', d') ->
  d' = set_media (media d') d /\ forall k, retouched g ps k (media d !! k) (media d' !! k).
Proof.
  intros Hbody Htrans. revert w d. induction ps as [|[n i] ps IH]; intros w d H.
  { injection H as _ _ <-. split; [by destruct d|]. intros k. left. split; [apply not_elem_of_nil|done]. }
  cbn [for_each] in H. inv_bind H v w1 d1 H1. apply Hbody in H1 as (m & m' & Hm & Hg & ->).
  apply IH in H as [Hd Hk]. split; [by rewrite Hd|]. intros k. specialize (Hk k). cbn in *.
  destruct (decide (i = k)) as [->|Hne].
  - rewrite lookup_insert_eq in Hk. right. destruct Hk as [[_ Hk]|(n' & m1 & m2 & Hin & Hm1 & Hm2 & Hg2)].
    + exists n, m, m'. split; [left|done].
    + injection Hm1 as <-. exists n', m, m2. split; [by right|]. eauto.
  - rewrite lookup_insert_ne in Hk by done. destruct Hk as [[Hn Hk]|(n' & m1 & m2 & Hin & Hrest)].
    + left. split; [|done]. cbn. rewrite not_elem_of_cons. by split.
    + right. exists n', m1, m2. split; [by right|done].
Qed.

Definition reserved_by (schedule : uuid) (n : nat) (m m' : MediaRow) : Prop :=
  media_account m' = media_account m /\ media_status m' = media_status m /\
  media_schedule m' = Some schedule /\ media_order m' = Z.of_nat n.

Definition attached_to (status : uuid) (n : nat) (m m' : MediaRow) : Prop :=
  media_account m' = media_account m /\ media_status m' = Some status /\
  media_schedule m' = None /\ media_order m' = Z.of_nat n.

Lemma reserve_retouches schedule now : retouches (reserved_by schedule) (reserve_media schedule now).
Proof.
  intros p w d u w' d' H. unfold reserve_media in H. inv_bind H d1 w1 d2 H1. injection H1 as <- _ <-.
  inv_bind H m w2 d3 H2. apply lift_option_Ok in H2 as (Hm & _ & <-). injection H as _ _ <-.
  eexists m, _. split; [done|]. apply and_comm. split; [done|]. by repeat split.
Qed.

Lemma attach_retouches status : retouches (attached_to status) (attach_media status).
Proof.
  intros p w d u w' d' H. unfold attach_media in H. inv_bind H d1 w1 d2 H1. injection H1 as <- _ <-.
  inv_bind H m w2 d3 H2. apply lift_option_Ok in H2 as (Hm & _ & <-).
  inv_bind H now w3 d4 H3. injection H3 as _ _ <-. injection H as _ _ <-.
  eexists m, _. split; [done|]. apply and_comm. split; [done|]. by repeat split.
Qed.

Lemma reserved_by_trans schedule n n' a b c :
  reserved_by schedule n a b -> reserved_by schedule n' b c -> reserved_by schedule n' a c.
Proof. intros (? & ? & _ & _) (? & ? & ? & ?). repeat split; congruence. Qed.

Lemma attached_to_trans status n n' a b c :
  attached_to status n a b -> attached_to status n' b c -> attached_to status n' a c.
Proof. intros (? & _ & _ & _) (? & ? & ? & ?). repeat split; congruence. Qed.

(** Deleting a schedule. *)
Definition deleted (i : uuid) (d : Db) : Db :=
  mkDb (accounts d) (delete i (schedules d)) (release i <$> media d) (statuses d) (creations d)
    (Polls.with_scheduled (delete i) (filter (fun kv => kv.1.1 <> i)) (polls_db d)).

Lemma delete_schedule_run i w d : delete_schedule i w d = (Ok tt, w, deleted i d).
Proof. reflexivity. Qed.

Section Runs.
Context (graphemes : text -> Z) (uuid_text : uuid -> string).

(** What a schedule that is created does to the store. *)
Record scheduled (input : NewScheduledStatus) (s : ScheduledStatus) (d d' : Db) : Prop := {
  sc_fresh : schedules d !! ss_id s = None;
  sc_publication : forall j r, schedules d !! j = Some r -> ss_publication r <> ss_publication s;
  sc_id : forall i, new_id input = Some i -> ss_id s = i;
  sc_account : ss_account s = account_uuid (new_account input);
  sc_known : ss_account s ∈ accounts d;
  sc_post : ss_post s = new_post input;
  sc_at : ss_scheduled_at s = instant (new_scheduled_at input);
  sc_accounts : accounts d' = accounts d;
  sc_statuses : statuses d' = statuses d;
  sc_schedules : schedules d' = <[ss_id s := s]> (schedules d);
  sc_available : forall k, k ∈ new_media_ids input ->
    exists m, media d !! k = Some m /\ available (ss_account s) m = true;
  sc_media : forall k, retouched (reserved_by (ss_id s)) (imap pair (new_media_ids input)) k
    (media d !! k) (media d' !! k);
  sc_poll : exists p,
    match new_poll input with
    | Some poll => exists w1 w2, Polls.create_scheduled_poll graphemes (ss_id s) poll w1 (polls_db d) = (Ok tt, w2, p)
    | None => p = polls_db d
    end /\
    Polls.scheduled_polls (polls_db d') = Polls.scheduled_polls p /\
    Polls.scheduled_options (polls_db d') = Polls.scheduled_options p;
}.

Lemma insert_schedule_run s w d u w' d' :
  insert_schedule s w d = (Ok u, w', d') ->
  schedules d !! ss_id s = None /\ (forall j r, schedules d !! j = Some r -> ss_publication r <> ss_publication s) /\
  d' = set_schedules (<[ss_id s := s]> (schedules d)) d.
Proof.
  intros H. unfold insert_schedule in H. inv_bind H d1 w1 d2 H1. injection H1 as <- _ <-.
  destruct (bool_decide (is_Some _)) eqn:E1; [done|].
  destruct (negb (bool_decide (rows_where _ _ = []))) eqn:E2; [done|]. injection H as _ _ <-.
  apply bool_decide_eq_false, eq_None_not_Some in E1. split; [done|]. split; [|done].
  apply negb_false_iff, bool_decide_eq_true in E2. rewrite rows_where_nil in E2.
  intros j r Hj. by apply N.eqb_neq, (E2 j r).
Qed.

Lemma enqueue_keeps_scheduled job w d r w' d' :
  on_jobs (Jobs.enqueue_job_in_transaction job) w d = (r, w', d') ->
  Polls.scheduled_polls (polls_db d') = Polls.scheduled_polls (polls_db d) /\
  Polls.scheduled_options (polls_db d') = Polls.scheduled_options (polls_db d).
Proof.
  unfold on_jobs, on_polls, zoom. destruct (Jobs.enqueue_job_in_transaction job w _) as [[r1 w1] t].
  by intros [= _ _ <-].
Qed.

(** A schedule is refused and nothing has changed, or both limits leave room for it. *)
Lemma create_scheduled_run input total_limit daily_limit w d result row w' d' :
  create_scheduled_status graphemes uuid_text input total_limit daily_limit w d = (Ok (result, row), w', d') ->
  (result <> Created /\ row = None /\ d' = d) \/
  (result = Created /\ count_total (account_uuid (new_account input)) d < total_limit /\
   count_day (account_uuid (new_account input)) (day_start (new_scheduled_at input)) None d < daily_limit /\
   exists s, row = Some s /\ scheduled input s d d').
Proof.
  intros H. unfold create_scheduled_status in H. inv_bind H d0 w0 d0' H0. injection H0 as <- _ <-.
  destruct (negb _) eqn:Eacc; [done|]. apply negb_false_iff, bool_decide_eq_true in Eacc.
  destruct (total_limit <=? _) eqn:Et; [injection H as <- <- _ <-; by left|].
  destruct (daily_limit <=? _) eqn:Ed; [injection H as <- <- _ <-; by left|].
  boolp. right. inv_bind H u1 w1 d1 H1. apply require_available_run in H1 as [-> Hav].
  inv_bind H i w2 d2 H2.
  assert (d2 = d /\ forall j, new_id input = Some j -> i = j) as [-> Hi].
  { destruct (new_id input) as [j|]; [by injection H2 as <- _ <-; split; [|intros ? [=]]|].
    by injection H2 as _ _ <-. }
  inv_bind H pub w3 d3 H3. injection H3 as _ _ <-. inv_bind H now w4 d4 H4. injection H4 as _ _ <-.
  inv_bind H u5 w5 d5 H5. apply insert_schedule_run in H5 as (Hfresh & Hpub & ->).
  set (s := mkScheduled i _ pub _ _ _ _) in *.
  inv_bind H u6 w6 d6 H6. inv_bind H u7 w7 d7 H7. inv_bind H j w8 d8 H8. injection H as <- <- _ <-.
  split; [done|]. split; [done|]. split; [done|]. exists s. split; [done|].
  assert (Hbase : accounts d6 = accounts d /\ schedules d6 = <[ss_id s := s]> (schedules d) /\
      media d6 = media d /\ statuses d6 = statuses d /\ creations d6 = creations d).
  { destruct (new_poll input); [by apply on_polls_run in H6|by injection H6 as _ _ <-]. }
  destruct Hbase as (Ha & Hs & Hm & Hst & _).
  apply (retouch_run (reserved_by i) _ _ _ _ _ _ _ (reserve_retouches _ _) (reserved_by_trans _)) in H7
    as [Hd7 Hk].
  pose proof (enqueue_keeps_scheduled _ _ _ _ _ _ H8) as Hp8. unfold on_jobs in H8.
  apply on_polls_run in H8 as (Ha8 & Hs8 & Hm8 & Hst8 & _). rewrite Hd7 in *. cbn in *.
  split; try done; try congruence.
  - by rewrite Hs8, Hs.
  - by rewrite Forall_forall in Hav.
  - intros k. rewrite Hm8, <- Hm. apply Hk.
  - exists (polls_db d6). split; [|done]. destruct (new_poll input) as [poll|]; [|by injection H6 as _ _ <-].
    unfold on_polls, zoom in H6. cbn in H6.
    destruct (Polls.create_scheduled_poll _ _ _ _ _) as [[[[]|e] w6'] p] eqn:E; [|done].
    injection H6 as _ _ <-. by exists w5, w6'.
Qed.

(** Moving a schedule. *)
Lemma reschedule_run account i t daily_limit w d r w' d' :
  reschedule_status uuid_text account i t daily_limit w d = (Ok r, w', d') ->
  (r = None /\ find_scheduled_status account i d = None /\ d' = d) \/
  exists s s', find_scheduled_status account i d = Some s /\ r = Some s' /\
    ss_id s' = ss_id s /\ ss_account s' = ss_account s /\ ss_publication s' = ss_publication s /\
    ss_post s' = ss_post s /\ ss_scheduled_at s' = instant t /\
    count_day (account_uuid account) (day_start t) (Some i) d < daily_limit /\
    accounts d' = accounts d /\ schedules d' = <[i := s']> (schedules d) /\ media d' = media d /\
    statuses d' = statuses d.
Proof.
  intros H. unfold reschedule_status in H. inv_bind H d0 w0 d0' H0. injection H0 as <- _ <-.
  destruct (find_scheduled_status account i d) as [s|] eqn:Ef; [|injection H as <- _ <-; by left].
  right. destruct (daily_limit <=? _) eqn:El; [done|]. boolp.
  inv_bind H now w1 d1 H1. injection H1 as _ _ <-. inv_bind H u2 w2 d2 H2. injection H2 as _ _ <-.
  inv_bind H u3 w3 d3 H3. injection H as <- _ <-.
  unfold update_jobs, on_jobs in H3. apply on_polls_run in H3 as (Ha & Hs & Hm & Hst & _).
  eexists s, _. split; [done|]. split; [reflexivity|]. by repeat split.
Qed.

(** Cancelling one. *)
Lemma cancel_run account i w d b w' d' :
  cancel_scheduled_status uuid_text account i w d = (Ok b, w', d') ->
  (b = false /\ find_scheduled_status account i d = None /\ d' = d) \/
  (b = true /\ is_Some (find_scheduled_status account i d) /\
   accounts d' = accounts d /\ schedules d' = delete i (schedules d) /\
   media d' = release i <$> media d /\ statuses d' = statuses d).
Proof.
  intros H. unfold cancel_scheduled_status in H. inv_bind H d0 w0 d0' H0. injection H0 as <- _ <-.
  destruct (find_scheduled_status account i d) as [s|] eqn:Ef; [|injection H as <- _ <-; by left].
  right. inv_bind H u1 w1 d1 H1. rewrite delete_schedule_run in H1. injection H1 as _ _ <-.
  inv_bind H now w2 d2 H2. injection H2 as _ _ <-. inv_bind H u3 w3 d3 H3. injection H as <- _ <-.
  unfold update_jobs, on_jobs in H3. apply on_polls_run in H3 as (Ha & Hs & Hm & Hst & _).
  by repeat split.
Qed.

(** What a creation that commits does to the store. *)
Definition freed (schedule : option uuid) (m : option MediaRow) : option MediaRow :=
  match schedule with Some i => release i <$> m | None => m end.

Record created (account : uuid) (input : StatusInput) (schedule : option uuid)
    (publication : option StatusId) (i : uuid) (d d' : Db) : Prop := {
  cr_id : forall p, publication = Some p -> i = status_uuid p;
  cr_fresh : statuses d !! i = None;
  cr_status : exists t, statuses d' =
    <[i := mkStatus account (trimmed_post (in_post input)) t None]> (statuses d);
  cr_accounts : accounts d' = accounts d;
  cr_schedules : schedules d' = match schedule with Some s => delete s (schedules d) | None => schedules d end;
  cr_attachable : forall k, k ∈ in_media_ids input ->
    exists m, media d !! k = Some m /\ media_account m = account /\ media_status m = None;
  cr_media : forall k, exists m,
    retouched (attached_to i) (imap pair (in_media_ids input)) k (media d !! k) m /\
    media d' !! k = freed schedule m;
}.

Lemma insert_status_run i s w d u w' d' :
  insert_status i s w d = (Ok u, w', d') ->
  statuses d !! i = None /\ accounts d' = accounts d /\ schedules d' = schedules d /\
  media d' = media d /\ statuses d' = <[i := s]> (statuses d).
Proof.
  intros H. unfold insert_status in H. inv_bind H d1 w1 d2 H1. injection H1 as <- _ <-.
  destruct (bool_decide (is_Some _)) eqn:E1; [done|]. apply bool_decide_eq_false, eq_None_not_Some in E1.
  inv_bind H u2 w2 d3 H2. injection H2 as _ _ <-. apply on_polls_run in H as (-> & -> & -> & -> & _). done.
Qed.

Lemma create_local_run i account post ids schedule w d st w' d' :
  create_local_status_with_media i account post ids schedule w d = (Ok st, w', d') ->
  (forall p, i = Some p -> st = p) /\ statuses d !! status_uuid st = None /\
  (exists t, statuses d' = <[status_uuid st := mkStatus account post t None]> (statuses d)) /\
  accounts d' = accounts d /\ schedules d' = schedules d /\
  (forall k, k ∈ ids -> exists m, media d !! k = Some m /\ media_account m = account /\ media_status m = None) /\
  forall k, retouched (attached_to (status_uuid st)) (imap pair ids) k (media d !! k) (media d' !! k).
Proof.
  intros H. unfold create_local_status_with_media in H. inv_bind H sid w1 d1 H1.
  assert (d1 = d /\ forall p, i = Some p -> sid = status_uuid p) as [-> Hi].
  { destruct i as [p|]; [injection H1 as <- _ <-; split; [done|by intros ? [= <-]]|by injection H1 as _ _ <-]. }
  inv_bind H t w2 d2 H2. injection H2 as _ _ <-.
  inv_bind H u3 w3 d3 H3. apply require_attachable_run in H3 as [-> Hat].
  inv_bind H u4 w4 d4 H4. apply insert_status_run in H4 as (Hfresh & Ha & Hs & Hm & Hst).
  inv_bind H u5 w5 d5 H5.
  apply (retouch_run (attached_to sid) _ _ _ _ _ _ _ (attach_retouches _) (attached_to_trans _)) in H5
    as [Hd Hk].
  injection H as <- _ <-. rewrite Hd. cbn. rewrite Ha, Hs, Hst. split; [by intros [p] Hp; rewrite (Hi _ Hp)|].
  split; [done|]. split; [by eexists|]. split; [done|]. split; [done|]. split; [|by rewrite <- Hm].
  intros k Hk'. rewrite Forall_forall in Hat. destruct (Hat k Hk') as (m & ? & ? & ? & _). by exists m.
Qed.

(** A creation answers without an effect, or it commits. *)
Definition refusal (rest : Rest) (code : Z) : Prop :=
  code = BAD_REQUEST \/ code = UNPROCESSABLE \/ code = SERVER_ERROR \/ targets rest = Some code.

Lemma check_input_codes b input code :
  check_input graphemes b input = Some code -> code = BAD_REQUEST \/ code = UNPROCESSABLE.
Proof. unfold check_input. repeat case_match; intros [= <-]; tauto. Qed.

Lemma creation_run account input schedule publication rest w d r w' d' :
  create_status_from_input graphemes uuid_text account input schedule publication rest w d = (r, w', d') ->
  exists code, r = Ok code /\
    ((refusal rest code /\ d' = d) \/
     (code = answer rest /\ check_input graphemes true input = None /\ targets rest = None /\
      exists i, created account input schedule publication i d d')).
Proof.
  intros H. unfold create_status_from_input, transaction in H.
  destruct (check_input graphemes true input) as [c|] eqn:Ec.
  { apply check_input_codes in Ec. injection H as <- _ <-. exists c. split; [done|]. left. split; [|done].
    unfold refusal. tauto. }
  destruct (targets rest) as [c|] eqn:Et.
  { injection H as <- _ <-. exists c. split; [done|]. left. split; [|done]. by do 3 right. }
  match type of H with context [?m w d] => destruct (m w d) as [[r0 w0] d0] eqn:Em end.
  assert (Herr : r0 = Ok (Rollback SERVER_ERROR) -> exists code, r = Ok code /\
      ((refusal rest code /\ d' = d) \/ (code = answer rest /\ None = @None Z /\ None = @None Z /\
        exists i, created account input schedule publication i d d'))).
  { intros ->. injection H as <- _ <-. exists SERVER_ERROR. split; [done|]. left. split; [|done].
    unfold refusal. tauto. }
  apply or_answer_run in Em as [(st & w1 & d1 & H1 & Em)|]; [|by apply Herr].
  apply or_answer_run in Em as [(u2 & w2 & d2 & H2 & Em)|]; [|by apply Herr].
  destruct (negb (others rest)); [injection Em as <- _ _; by apply Herr|].
  apply or_answer_run in Em as [(u3 & w3 & d3 & H3 & Em)|]; [|by apply Herr].
  injection Em as <- _ <-. injection H as <- _ <-. exists (answer rest). split; [done|]. right.
  split; [done|]. split; [done|]. split; [done|]. exists (status_uuid st).
  apply create_local_run in H1 as (Hi & Hfresh & Hst & Ha & Hs & Hat & Hm).
  assert (Hbase : accounts d2 = accounts d1 /\ schedules d2 = schedules d1 /\ media d2 = media d1 /\
    statuses d2 = statuses d1 /\ creations d2 = creations d1).
  { destruct (in_poll input) as [poll|]; [|by injection H2 as _ _ <-].
    inv_bind H2 p wp dp Hp. injection H2 as _ _ <-. by apply on_polls_run in Hp. }
  destruct Hbase as (Ha2 & Hs2 & Hm2 & Hst2 & _).
  assert (Hd3 : d3 = match schedule with Some s => deleted s d2 | None => d2 end).
  { destruct schedule; by injection H3 as _ _ <-. }
  subst d3. split.
  - intros p Hp. by rewrite (Hi _ Hp).
  - done.
  - destruct Hst as [t Ht]. exists t. rewrite <- Ht, <- Hst2. by destruct schedule.
  - rewrite <- Ha, <- Ha2. by destruct schedule.
  - rewrite <- Hs, <- Hs2. by destruct schedule.
  - exact Hat.
  - intros k. exists (media d1 !! k). split; [exact (Hm k)|]. rewrite <- Hm2.
    destruct schedule; [apply lookup_fmap|done].
Qed.
End Runs.

(** * Histories *)

(** Every attachment belongs to at most one status or schedule, which exists and has
    the same owner; schedules are filed under their identifiers. *)
Record owned (d : Db) : Prop := {
  own_key : forall i s, schedules d !! i = Some s -> ss_id s = i;
  own_single : forall k m, media d !! k = Some m -> media_status m = None \/ media_schedule m = None;
  own_schedule : forall k m i, media d !! k = Some m -> media_schedule m = Some i ->
    exists s, schedules d !! i = Some s /\ ss_account s = media_account m;
  own_status : forall k m i, media d !! k = Some m -> media_status m = Some i ->
    exists s, statuses d !! i = Some s /\ st_account s = media_account m;
}.

(** What no step undoes: a status stays as it was created, and an attachment stays with
    its owner and, once attached, with its status. *)
Record grows (d d' : Db) : Prop := {
  gr_statuses : statuses d ⊆ statuses d';
  gr_accounts : accounts d' = accounts d;
  gr_media : forall k m, media d !! k = Some m -> exists m', media d' !! k = Some m' /\
    media_account m' = media_account m /\ (forall i, media_status m = Some i -> media_status m' = Some i);
}.

Lemma grows_refl d : grows d d.
Proof. split; [done|done|]. intros k m ->. by exists m. Qed.

Lemma grows_trans d1 d2 d3 : grows d1 d2 -> grows d2 d3 -> grows d1 d3.
Proof.
  intros [S1 A1 M1] [S2 A2 M2]. split; [by transitivity (statuses d2)|by rewrite A2|].
  intros k m Hm. destruct (M1 k m Hm) as (m2 & Hm2 & Ha & Hs). destruct (M2 k m2 Hm2) as (m3 & Hm3 & Ha3 & Hs3).
  exists m3. split; [done|]. split; [congruence|]. eauto.
Qed.

Lemma release_spec i m : media_account (release i m) = media_account m /\
  media_status (release i m) = media_status m /\
  (media_schedule (release i m) = None \/
   media_schedule (release i m) = media_schedule m /\ media_schedule m <> Some i).
Proof.
  unfold release. case_bool_decide as E; cbn; [tauto|]. split; [done|]. split; [done|]. by right.
Qed.

Lemma positions_elem (ids : list uuid) n k : (n, k) ∈ imap pair ids -> ids !! n = Some k.
Proof. rewrite elem_of_lookup_imap. by intros (n' & x & [= -> ->] & Hx). Qed.

Lemma positions_snd (ids : list uuid) : (imap pair ids).*2 = ids.
Proof.
  apply list_eq. intros i. rewrite list_lookup_fmap, list_lookup_imap. by destruct (ids !! i).
Qed.

Lemma owned_scheduled g input s d d' : scheduled g input s d d' -> owned d -> owned d' /\ grows d d'.
Proof.
  intros Hs Hd. pose proof (sc_fresh _ _ _ _ _ Hs) as Hfresh.
  assert (Hnew : forall k n m, (n, k) ∈ imap pair (new_media_ids input) -> media d !! k = Some m ->
    media_account m = ss_account s /\ media_status m = None).
  { intros k n m Hin%positions_elem%list_elem_of_lookup_2 Hm.
    destruct (sc_available _ _ _ _ _ Hs k Hin) as (m1 & Hm1 & Hav). rewrite Hm in Hm1. injection Hm1 as <-.
    unfold available in Hav. boolp. split; [by apply N.eqb_eq|done]. }
  split; [split|split].
  - intros i r. rewrite (sc_schedules _ _ _ _ _ Hs). intros [[<- <-]|[_ Hr]]%lookup_insert_Some; [done|].
    by apply (own_key d).
  - intros k m' Hm'. destruct (sc_media _ _ _ _ _ Hs k) as [[_ E]|(n & m & m2 & Hin & E1 & E2 & _ & Hst & _)].
    + rewrite Hm' in E. symmetry in E. by apply (own_single d Hd k).
    + rewrite E2 in Hm'. injection Hm' as <-. left. rewrite Hst. by eapply Hnew.
  - intros k m' i Hm' Hi. rewrite (sc_schedules _ _ _ _ _ Hs).
    destruct (sc_media _ _ _ _ _ Hs k) as [[_ E]|(n & m & m2 & Hin & E1 & E2 & Ha & _ & Hi2 & _)].
    + rewrite Hm' in E. symmetry in E. destruct (own_schedule d Hd k m' i E Hi) as (r & Hr & Hacc).
      exists r. split; [|done]. rewrite lookup_insert_ne; [done|]. intros <-. congruence.
    + rewrite E2 in Hm'. injection Hm' as <-. rewrite Hi2 in Hi. injection Hi as <-. exists s.
      rewrite lookup_insert_eq. split; [done|]. rewrite Ha. symmetry. by eapply Hnew.
  - intros k m' i Hm' Hi. rewrite (sc_statuses _ _ _ _ _ Hs).
    destruct (sc_media _ _ _ _ _ Hs k) as [[_ E]|(n & m & m2 & Hin & E1 & E2 & _ & Hst & _)].
    + rewrite Hm' in E. symmetry in E. by apply (own_status d Hd k).
    + rewrite E2 in Hm'. injection Hm' as <-. rewrite Hst in Hi.
      destruct (Hnew k n m Hin E1) as [_ Hnone]. congruence.
  - by rewrite (sc_statuses _ _ _ _ _ Hs).
  - apply (sc_accounts _ _ _ _ _ Hs).
  - intros k m Hm. destruct (sc_media _ _ _ _ _ Hs k) as [[_ E]|(n & m1 & m2 & Hin & E1 & E2 & Ha & Hst & _)].
    + exists m. by rewrite E.
    + rewrite Hm in E1. injection E1 as <-. exists m2. rewrite Hst. by split.
Qed.

Lemma owned_moved i s s' d d' :
  schedules d !! i = Some s -> ss_id s' = ss_id s -> ss_account s' = ss_account s ->
  accounts d' = accounts d -> schedules d' = <[i := s']> (schedules d) -> media d' = media d ->
  statuses d' = statuses d -> owned d -> owned d' /\ grows d d'.
Proof.
  intros Hs Hid Hacc Ha Hs' Hm Hst Hd. split; [split|split].
  - intros j r. rewrite Hs'. intros [[<- <-]|[_ Hr]]%lookup_insert_Some; [|by apply (own_key d)].
    rewrite Hid. by apply (own_key d).
  - rewrite Hm. apply own_single, Hd.
  - rewrite Hm, Hs'. intros k m j Hk Hj. destruct (own_schedule d Hd k m j Hk Hj) as (r & Hr & E).
    destruct (decide (i = j)) as [->|]; [|by exists r; rewrite lookup_insert_ne].
    exists s'. rewrite lookup_insert_eq. split; [done|congruence].
  - rewrite Hm, Hst. apply own_status, Hd.
  - by rewrite Hst.
  - done.
  - rewrite Hm. intros k m ->. by exists m.
Qed.

Lemma owned_released i d d' :
  accounts d' = accounts d -> schedules d' = delete i (schedules d) ->
  media d' = release i <$> media d -> statuses d' = statuses d -> owned d -> owned d' /\ grows d d'.
Proof.
  intros Ha Hs Hm Hst Hd.
  assert (Hk : forall k m', media d' !! k = Some m' -> exists m, media d !! k = Some m /\ m' = release i m).
  { intros k m'. rewrite Hm, lookup_fmap. intros (m & -> & ->)%fmap_Some. by exists m. }
  split; [split|split].
  - intros j r. rewrite Hs. intros [_ Hr]%lookup_delete_Some. by apply (own_key d).
  - intros k m' (m & Em & ->)%Hk. destruct (release_spec i m) as (_ & -> & [->|[-> _]]); [by right|].
    by apply (own_single d Hd k).
  - intros k m' j (m & Em & ->)%Hk Hj. destruct (release_spec i m) as (-> & _ & [E|[E Hne]]); [congruence|].
    rewrite E in Hj. destruct (own_schedule d Hd k m j Em Hj) as (r & Hr & Hacc). exists r. split; [|done].
    rewrite Hs, lookup_delete_ne; [done|]. congruence.
  - intros k m' j (m & Em & ->)%Hk. destruct (release_spec i m) as (-> & -> & _). rewrite Hst.
    by apply (own_status d Hd k).
  - by rewrite Hst.
  - done.
  - intros k m Em. exists (release i m). rewrite Hm, lookup_fmap, Em. split; [done|].
    destruct (release_spec i m) as (-> & -> & _). by split.
Qed.

Lemma owned_created account input schedule publication i d d' :
  created account input schedule publication i d d' -> owned d -> owned d' /\ grows d d'.
Proof.
  intros Hc Hd. destruct (cr_status _ _ _ _ _ _ _ Hc) as [t Ht].
  assert (Hfreed : forall m, exists m', freed schedule (Some m) = Some m' /\ media_account m' = media_account m /\
      media_status m' = media_status m /\ (media_schedule m' = None \/
      media_schedule m' = media_schedule m /\ media_schedule m <> schedule)).
  { intros m. destruct schedule as [s|]; cbn.
    - destruct (release_spec s m) as (? & ? & [?|[? ?]]); exists (release s m); tauto.
    - exists m. destruct (media_schedule m) eqn:E; [|tauto]. repeat split. by right. }
  assert (Hk : forall k m', media d' !! k = Some m' -> exists m, media d !! k = Some m /\
      media_account m' = media_account m /\
      (media_status m' = media_status m /\ (media_schedule m' = None \/
         media_schedule m' = media_schedule m /\ media_schedule m <> schedule) \/
       media_status m' = Some i /\ media_schedule m' = None /\ media_account m = account)).
  { intros k m' Hm'. destruct (cr_media _ _ _ _ _ _ _ Hc k) as (m1 & Hr & Hf). rewrite Hm' in Hf.
    destruct Hr as [[_ ->]|(n & m & m2 & Hin & E1 & -> & Ha & Hst & Hsc & _)].
    - destruct (media d !! k) as [m|] eqn:Em; [|by destruct schedule].
      destruct (Hfreed m) as (m3 & E & ? & ? & ?). rewrite E in Hf. injection Hf as <-. exists m. tauto.
    - destruct (Hfreed m2) as (m3 & E & Ha3 & Hs3 & Hsc3). rewrite E in Hf. injection Hf as <-.
      exists m. split; [done|]. split; [congruence|]. right. rewrite Hs3. split; [done|].
      split; [destruct Hsc3 as [?|[? _]]; congruence|].
      apply positions_elem, list_elem_of_lookup_2 in Hin.
      destruct (cr_attachable _ _ _ _ _ _ _ Hc k Hin) as (m4 & E4 & Ha4 & _). congruence. }
  split; [split|split].
  - intros j r. rewrite (cr_schedules _ _ _ _ _ _ _ Hc). destruct schedule as [s|].
    + intros [_ Hr]%lookup_delete_Some. by apply (own_key d).
    + by apply (own_key d).
  - intros k m' (m & Em & _ & [[-> [->|[-> _]]]|(_ & -> & _)])%Hk; [by right| |by right].
    by apply (own_single d Hd k).
  - intros k m' j (m & Em & -> & [[_ [E|[E Hne]]]|(_ & E & _)])%Hk Hj; try congruence. rewrite E in Hj.
    destruct (own_schedule d Hd k m j Em Hj) as (r & Hr & Hacc). exists r. split; [|done].
    rewrite (cr_schedules _ _ _ _ _ _ _ Hc). destruct schedule as [s|]; [|done].
    rewrite lookup_delete_ne; congruence.
  - intros k m' j (m & Em & -> & [[E _]|(E & _ & Hacc)])%Hk; rewrite E, Ht; intros Hj.
    + destruct (own_status d Hd k m j Em Hj) as (r & Hr & Ha). exists r. split; [|done].
      rewrite lookup_insert_ne; [done|]. intros <-. by rewrite (cr_fresh _ _ _ _ _ _ _ Hc) in Hr.
    + injection Hj as <-. eexists. rewrite lookup_insert_eq. split; [done|]. by symmetry.
  - rewrite Ht. apply insert_subseteq, (cr_fresh _ _ _ _ _ _ _ Hc).
  - apply (cr_accounts _ _ _ _ _ _ _ Hc).
  - intros k m Em. destruct (cr_media _ _ _ _ _ _ _ Hc k) as (m1 & Hr & Hf).
    destruct Hr as [[_ ->]|(n & m0 & m2 & Hin & E1 & -> & Ha & Hst & _)].
    + rewrite Em in Hf. destruct (Hfreed m) as (m3 & E & ? & E3 & _). rewrite E in Hf. exists m3.
      split; [done|]. split; [done|]. by rewrite E3.
    + rewrite Em in E1. injection E1 as <-. destruct (Hfreed m2) as (m3 & E & ? & E3 & _).
      rewrite E in Hf. exists m3. split; [done|]. split; [congruence|].
      apply positions_elem, list_elem_of_lookup_2 in Hin. intros j Hj.
      destruct (cr_attachable _ _ _ _ _ _ _ Hc k Hin) as (m4 & E4 & _ & E5). congruence.
Qed.

(** ** Edits *)

(** A row that an edit of the status [i] of [account] may rewrite. *)
Definition mine (i account : uuid) (m : MediaRow) : Prop :=
  media_account m = account /\ (media_status m = None \/ media_status m = Some i).

Definition regrouped (i account : uuid) (before after : option MediaRow) : Prop :=
  after = before \/
  exists m m', before = Some m /\ after = Some m' /\ mine i account m /\
    media_account m' = media_account m /\ media_schedule m' = media_schedule m /\
    (media_status m' = None \/ media_status m' = Some i /\ media_schedule m' = None).

Definition regroups (i account : uuid) (d d' : Db) : Prop :=
  d' = set_media (media d') d /\
  forall k, regrouped i account (media d !! k) (media d' !! k).

Lemma regroups_refl i account d : regroups i account d d.
Proof. split; [by destruct d|]. intros k. by left. Qed.

Lemma regroups_mine i account d d' k m m' :
  regroups i account d d' -> media d !! k = Some m -> media d' !! k = Some m' ->
  mine i account m -> mine i account m' /\ media_account m' = media_account m /\
    media_schedule m' = media_schedule m.
Proof.
  intros [_ H] Hm Hm' Hmine. destruct (H k) as [E|(m1 & m2 & E1 & E2 & _ & Ha & Hs & Hst)].
  - rewrite Hm, Hm' in E. by injection E as ->.
  - rewrite Hm in E1. rewrite Hm' in E2. injection E1 as <-. injection E2 as <-.
    split; [|done]. split; [rewrite Ha; apply Hmine|]. destruct Hst as [?|[? _]]; tauto.
Qed.

(** One UPDATE of an attachment. *)
Lemma regroups_write i account d d1 k m m1 m' w u w' d' :
  regroups i account d d1 -> media d !! k = Some m -> mine i account m -> media d1 !! k = Some m1 ->
  media_account m' = media_account m1 -> media_schedule m' = media_schedule m1 ->
  media_status m' = None \/ media_status m' = Some i ->
  write_media k m' w d1 = (Ok u, w', d') -> regroups i account d d'.
Proof.
  intros Hr Hm Hmine Hm1 Ha Hs Hst H. unfold write_media in H. destruct (_ && _) eqn:Ec; [done|].
  injection H as _ _ <-. destruct (regroups_mine _ _ _ _ _ _ _ Hr Hm Hm1 Hmine) as (_ & Ha1 & Hs1).
  destruct Hr as [Hd Hk]. split; [by rewrite Hd|]. intros j. cbn.
  destruct (decide (k = j)) as [<-|]; [|rewrite lookup_insert_ne by done; apply Hk].
  right. exists m, m'. rewrite lookup_insert_eq. split_and!; [done|done|done|congruence|congruence|].
  destruct Hst as [E|E]; [by left|right]. split; [done|]. apply eq_None_not_Some. intros [x Hx].
  by rewrite E, Hx, !bool_decide_eq_true_2 in Ec by (by eexists).
Qed.

Lemma loop_regroups {A} i account d (xs : list A) (body : A -> Op Db unit) w d1 u w' d' :
  (forall x w1 d2 u w2 d3, x ∈ xs -> regroups i account d d2 -> body x w1 d2 = (Ok u, w2, d3) ->
     regroups i account d d3) ->
  regroups i account d d1 -> for_each xs body w d1 = (Ok u, w', d') -> regroups i account d d'.
Proof.
  intros Hbody. revert w d1. induction xs as [|x xs IH]; intros w d1 Hr H; [by injection H as _ _ <-|].
  cbn [for_each] in H. inv_bind H v w1 d2 H1. apply Hbody in H1; [|by left|done].
  eapply IH; [|exact H1|exact H]. intros y w3 d3 u3 w4 d4 Hy. apply Hbody. by right.
Qed.

Lemma require_editable_run account i ids w d u w' d' :
  for_each ids (require_editable account i) w d = (Ok u, w', d') ->
  d' = d /\ forall k, k ∈ ids -> exists m, media d !! k = Some m /\ mine i account m.
Proof.
  revert w. induction ids as [|k ids IH]; intros w H.
  { injection H as _ _ <-. split; [done|]. by intros k ?%not_elem_of_nil. }
  cbn [for_each] in H. inv_bind H v w1 d1 H1. unfold require_editable in H1.
  inv_bind H1 d2 w2 d3 H2. injection H2 as <- <- <-.
  inv_bind H1 m w3 d4 H3. apply lift_option_Ok in H3 as (Hm & <- & <-).
  destruct (_ || _) eqn:E; [done|]. injection H1 as _ <- <-. apply IH in H as [-> Hall].
  split; [done|]. intros j [->|Hj]%elem_of_cons; [|by apply Hall]. exists m. split; [done|].
  apply orb_false_iff in E as [Ea Es]. apply negb_false_iff, N.eqb_eq in Ea.
  apply negb_false_iff, orb_true_iff in Es. split; [done|].
  by destruct Es as [Es|Es]; apply bool_decide_eq_true in Es; [left|right].
Qed.

Lemma media_of_status_elem i d k :
  k ∈ media_of_status i d -> exists m, media d !! k = Some m /\ media_status m = Some i.
Proof.
  unfold media_of_status. intros ([k' m] & -> & Hin)%list_elem_of_fmap. exists m.
  rewrite order_by_Permutation in Hin. apply list_elem_of_In, filter_In in Hin as [Hin Hs].
  apply list_elem_of_In, elem_of_map_to_list in Hin. split; [done|]. by apply bool_decide_eq_true in Hs.
Qed.

Lemma replace_media_run account i ids w d u w' d' :
  (forall k m, media d !! k = Some m -> media_status m = Some i -> media_account m = account) ->
  replace_media account i ids w d = (Ok u, w', d') -> regroups i account d d'.
Proof.
  intros Hacc H. unfold replace_media in H. inv_bind H u1 w1 d1 H1.
  apply require_editable_run in H1 as [-> Hids]. inv_bind H current w2 d2 H2. injection H2 as <- _ <-.
  inv_bind H u3 w3 d3 H3.
  eapply loop_regroups in H3; [|intros k w4 d4 u4 w5 d5 Hk Hr Hrun|apply regroups_refl].
  - eapply loop_regroups in H; [exact H| |exact H3].
    intros [n k] w4 d4 u4 w5 d5 Hk%positions_elem%list_elem_of_lookup_2 Hr Hrun.
    destruct (Hids k Hk) as (m & Hm & Hmine). unfold keep_media in Hrun.
    inv_bind Hrun d6 w6 d7 H6. injection H6 as <- _ <-. cbn [fst snd] in Hrun.
    inv_bind Hrun m1 w7 d8 H7. apply lift_option_Ok in H7 as (Hm1 & _ & <-).
    inv_bind Hrun now w8 d9 H8. injection H8 as _ _ <-.
    eapply regroups_write; [exact Hr|exact Hm|done|exact Hm1|..|exact Hrun]; [done|done|by right].
  - destruct (media_of_status_elem _ _ _ Hk) as (m & Hm & Hs). unfold detach_media in Hrun.
    inv_bind Hrun d6 w6 d7 H6. injection H6 as <- _ <-.
    inv_bind Hrun m1 w7 d8 H7. apply lift_option_Ok in H7 as (Hm1 & _ & <-).
    case_bool_decide; [by injection Hrun as _ _ <-|].
    inv_bind Hrun now w8 d9 H8. injection H8 as _ _ <-.
    eapply regroups_write; [exact Hr|exact Hm| |exact Hm1|..|exact Hrun]; [|done|done|by left].
    split; [by eapply Hacc|by right].
Qed.

(** What an edit that is not refused does. *)
Record edited (i account : uuid) (d d' : Db) : Prop := {
  ed_row : exists s p, statuses d !! i = Some s /\ st_account s = account /\
    statuses d' = <[i := mkStatus (st_account s) p (st_created_at s) (st_deleted_at s)]> (statuses d);
  ed_accounts : accounts d' = accounts d;
  ed_schedules : schedules d' = schedules d;
  ed_media : forall k, regrouped i account (media d !! k) (media d' !! k);
}.

Lemma owned_status_spec account i d s :
  owned_status account i d = Some s -> statuses d !! i = Some s /\ st_account s = account.
Proof.
  unfold owned_status. destruct (statuses d !! i) as [s'|]; [|done]. cbn.
  destruct (_ && _) eqn:E; [|done]. intros [= ->]. by apply andb_true_iff in E as [?%N.eqb_eq _].
Qed.

Lemma edited_refl i account d s : statuses d !! i = Some s -> st_account s = account -> edited i account d d.
Proof.
  intros Hs Ha. split; [|done|done|by left]. exists s, (st_post s). split; [done|]. split; [done|].
  by destruct s; rewrite insert_id.
Qed.

Lemma edited_trans i account d1 d2 d3 : edited i account d1 d2 -> edited i account d2 d3 -> edited i account d1 d3.
Proof.
  intros [(s & p & Hs & Ha & E) Ha1 Hs1 Hm1] [(s2 & p2 & Hs2 & _ & E2) Ha2 Hs2' Hm2].
  split; [|congruence|congruence|].
  - exists s, p2. split; [done|]. split; [done|]. rewrite E, lookup_insert_eq in Hs2. injection Hs2 as <-.
    by rewrite E2, E, insert_insert_eq.
  - intros k. destruct (Hm1 k) as [E1|(m & m2 & E1 & E1' & Hmine & Ha' & Hs' & Hst)]; [by rewrite <- E1|].
    destruct (Hm2 k) as [E3|(m3 & m4 & E3 & E3' & _ & Ha4 & Hs4 & Hst4)].
    + right. exists m, m2. by rewrite E3.
    + rewrite E1' in E3. injection E3 as <-. right. exists m, m4. split_and!; try done; congruence.
Qed.

Lemma edited_same i account d d' s :
  statuses d !! i = Some s -> st_account s = account -> accounts d' = accounts d ->
  schedules d' = schedules d -> media d' = media d -> statuses d' = statuses d -> edited i account d d'.
Proof.
  intros Hs Ha Ea Es Em Est. destruct (edited_refl _ _ _ _ Hs Ha) as [E _ _ _].
  split; [by rewrite Est|done|done|]. intros k. left. by rewrite Em.
Qed.

Lemma edited_regroups i account d d' s :
  statuses d !! i = Some s -> st_account s = account -> regroups i account d d' -> edited i account d d'.
Proof.
  intros Hs Ha [E Hk]. destruct (edited_refl _ _ _ _ Hs Ha) as [Hrow _ _ _]. rewrite E. by split.
Qed.

Lemma edited_write_post i account d p s w u w' d' :
  statuses d !! i = Some s -> st_account s = account -> write_post i s p w d = (Ok u, w', d') ->
  edited i account d d'.
Proof. intros Hs Ha [= _ _ <-]. split; [|done|done|by left]. by exists s, p. Qed.

Lemma update_attributes_run account i ids w d d1 u w' d' :
  regroups i account d d1 -> for_each ids (update_attributes account i) w d1 = (Ok u, w', d') ->
  regroups i account d d'.
Proof.
  intros Hr0 H. eapply loop_regroups in H; [exact H| |exact Hr0].
  intros k w1 d2 u2 w2 d3 _ Hr Hrun. unfold update_attributes in Hrun.
  inv_bind Hrun d4 w4 d5 H4. injection H4 as <- _ <-. destruct (media d2 !! k) as [m1|] eqn:Hm1; [|done].
  destruct (_ && _) eqn:E; [|done]. inv_bind Hrun now w5 d6 H5. injection H5 as _ _ <-.
  apply andb_true_iff in E as [Ea%N.eqb_eq Est]. apply bool_decide_eq_true in Est.
  assert (exists m, media d !! k = Some m /\ mine i account m) as (m & Hm & Hmine).
  { destruct Hr as [_ Hr]. destruct (Hr k) as [E|(m & m2 & E & _ & Hmine & _)]; [|by exists m].
    exists m1. rewrite <- E. split; [done|]. split; [done|by right]. }
  eapply regroups_write; [exact Hr|exact Hm|done|exact Hm1|..|exact Hrun]; [done|done|by right].
Qed.

Lemma update_owned_run g t status account e elsewhere w d b w' d' :
  owned d -> update_owned_local_status g t status account e elsewhere w d = (Ok (Some b), w', d') ->
  edited (status_uuid status) account d d'.
Proof.
  intros Hd H. unfold update_owned_local_status in H. inv_bind H d1 w1 d2 H1. injection H1 as <- _ <-.
  destruct (owned_status account (status_uuid status) d) as [s|] eqn:Hs; [|done].
  apply owned_status_spec in Hs as [Hs Ha]. inv_bind H poll w2 d3 H2.
  apply on_polls_run in H2 as (Ea & Es & Em & Est & _).
  apply (edited_trans _ _ _ d3); [by eapply edited_same|]. rewrite <- Est in Hs.
  destruct (negb _); [injection H as _ _ <-; by eapply edited_refl|].
  inv_bind H u3 w3 d4 H3. inv_bind H u4 w4 d5 H4.
  assert (Hr : regroups (status_uuid status) account d3 d4).
  { destruct (edit_media_ids e) as [ids|]; [|injection H3 as _ _ <-; apply regroups_refl].
    eapply replace_media_run; [|exact H3]. rewrite Em. intros k m Hk Hst.
    destruct (own_status d Hd k m _ Hk Hst) as (r & Hr & <-). congruence. }
  eapply update_attributes_run in H4; [|exact Hr].
  apply (edited_trans _ _ _ d5); [by eapply edited_regroups|].
  assert (Hs5 : statuses d5 !! status_uuid status = Some s) by (destruct H4 as [-> _]; exact Hs).
  inv_bind H u5 w5 d6 H5. pose proof H5 as Hw. injection Hw as _ _ Hd6.
  eapply edited_write_post in H5; [|exact Hs5|exact Ha]. apply (edited_trans _ _ _ d6); [done|].
  inv_bind H u6 w6 d7 H6. injection H as _ _ <-. apply on_polls_run in H6 as (Ea6 & Es6 & Em6 & Est6 & _).
  eapply edited_same; [rewrite <- Hd6; apply lookup_insert_eq|exact Ha|done..].
Qed.

Lemma policy_run account i policy w d b w' d' :
  update_local_status_quote_policy account i policy w d = (Ok b, w', d') ->
  d' = d \/ edited i account d d'.
Proof.
  intros H. unfold update_local_status_quote_policy in H. inv_bind H d1 w1 d2 H1. injection H1 as <- _ <-.
  destruct (owned_status account i d) as [s|] eqn:Hs; [|injection H as _ _ <-; by left].
  apply owned_status_spec in Hs as [Hs Ha]. inv_bind H u w2 d3 H2. injection H as _ _ <-.
  right. by eapply edited_write_post.
Qed.

Lemma transaction_Err {S E A} (m : M S E (txn A)) w s e w' s' :
  transaction m w s = (Err e, w', s') -> s' = s.
Proof. unfold transaction. by destruct (m w s) as [[[[?|?]|?] ?] ?]; intros [= _ _ <-]. Qed.

(** An edit leaves the store alone, or rewrites the status and its attachments. *)
Lemma update_status_run g t account status e elsewhere rest w d r w' d' :
  owned d -> update_status g t account status e elsewhere rest w d = (r, w', d') ->
  d' = d \/ edited (status_uuid status) (account_uuid account) d d'.
Proof.
  intros Hd H. destruct r as [z|err].
  2: { left. unfold update_status in H. by apply transaction_Err in H. }
  unfold update_status in H. apply transaction_Ok in H as [H|[-> _]]; [|by left]. right.
  inv_bind H d1 w1 d2 H1. injection H1 as <- _ <-.
  destruct (owned_status _ _ d); [|done].
  destruct (check_edit _ _ _); [done|]. destruct (targets rest); [done|]. unfold answer_edit in H.
  destruct (update_owned_local_status _ _ _ _ _ _ _ _) as [[[[b|]|err] w2] d2] eqn:E; [| |by destruct err]; [|done].
  apply update_owned_run in E; [|done]. unfold finish_edit in H.
  apply or_answer_run in H as [(found & w3 & d3 & Hp & H)|[=]].
  assert (d' = d3) as -> by (by destruct found, (others rest), (rendered rest); injection H as _ <-).
  destruct (edit_quote_policy e) as [policy|]; [|by injection Hp as _ _ <-].
  apply policy_run in Hp as [->|Hp]; [done|]. by eapply edited_trans.
Qed.

(** What no step undoes but an edit of a status in [e]: a status is what it was, and an
    attachment stays with its owner and, once attached, with its status.  An edit leaves
    the status its author. *)
Record grows_but (e : uuid -> Prop) (d d' : Db) : Prop := {
  gb_statuses : forall i s, statuses d !! i = Some s -> exists s', statuses d' !! i = Some s' /\
    st_account s' = st_account s /\ (~ e i -> s' = s);
  gb_accounts : accounts d' = accounts d;
  gb_media : forall k m, media d !! k = Some m -> exists m', media d' !! k = Some m' /\
    media_account m' = media_account m /\
    forall i, media_status m = Some i -> ~ e i -> media_status m' = Some i;
}.

Lemma grows_but_of e d d' : grows d d' -> grows_but e d d'.
Proof.
  intros [S A M]. split; [|done|].
  - intros i s Hs. exists s. split; [by apply (lookup_weaken _ _ _ _ Hs S)|done].
  - intros k m Hm. destruct (M k m Hm) as (m' & ? & ? & ?). exists m'. eauto.
Qed.

Lemma grows_but_trans e d1 d2 d3 : grows_but e d1 d2 -> grows_but e d2 d3 -> grows_but e d1 d3.
Proof.
  intros [S1 A1 M1] [S2 A2 M2]. split; [|by rewrite A2|].
  - intros i s Hs. destruct (S1 i s Hs) as (s2 & Hs2 & Ha & He). destruct (S2 i s2 Hs2) as (s3 & Hs3 & Ha3 & He3).
    exists s3. split; [done|]. split; [congruence|]. intros Hne. by rewrite He3, He.
  - intros k m Hm. destruct (M1 k m Hm) as (m2 & Hm2 & Ha & Hs). destruct (M2 k m2 Hm2) as (m3 & Hm3 & Ha3 & Hs3).
    exists m3. split; [done|]. split; [congruence|]. eauto.
Qed.

Lemma owned_edited i account d d' :
  edited i account d d' -> owned d -> owned d' /\ grows_but (fun j => j = i) d d'.
Proof.
  intros [(s & p & Hs & Ha & E) Ea Es Hm] Hd. split; [split|split].
  - rewrite Es. apply (own_key d Hd).
  - intros k m' Hk. destruct (Hm k) as [Ek|(m & m2 & E1 & E2 & _ & _ & _ & Hst)].
    + rewrite Hk in Ek. symmetry in Ek. by apply (own_single d Hd k).
    + rewrite Hk in E2. injection E2 as <-. destruct Hst as [?|[_ ?]]; [by left|by right].
  - rewrite Es. intros k m' j Hk Hj. destruct (Hm k) as [Ek|(m & m2 & E1 & E2 & _ & Ha2 & Hs2 & _)].
    + rewrite Hk in Ek. symmetry in Ek. by apply (own_schedule d Hd k).
    + rewrite Hk in E2. injection E2 as <-. rewrite Ha2. apply (own_schedule d Hd k m j E1). congruence.
  - intros k m' j Hk Hj. rewrite E.
    destruct (Hm k) as [Ek|(m & m2 & E1 & E2 & [Hacc _] & Ha2 & _ & Hst)].
    + rewrite Hk in Ek. symmetry in Ek. destruct (own_status d Hd k m' j Ek Hj) as (r & Hr & Hra).
      destruct (decide (i = j)) as [<-|]; [|by exists r; rewrite lookup_insert_ne].
      rewrite lookup_insert_eq. eexists. split; [done|]. rewrite Hs in Hr. injection Hr as <-. done.
    + rewrite Hk in E2. injection E2 as <-. destruct Hst as [?|[Hi _]]; [congruence|].
      assert (j = i) as -> by congruence. rewrite lookup_insert_eq. eexists. split; [done|]. cbn. congruence.
  - intros j s0 Hs0. rewrite E. destruct (decide (i = j)) as [<-|Hne].
    + rewrite Hs in Hs0. injection Hs0 as <-. rewrite lookup_insert_eq. eexists. by split_and!.
    + exists s0. rewrite lookup_insert_ne by done. by split_and!.
  - done.
  - intros k m Hk. destruct (Hm k) as [Ek|(m1 & m2 & E1 & E2 & [_ Hst] & Ha2 & _ & _)].
    + exists m. rewrite Ek. by split_and!.
    + rewrite Hk in E1. injection E1 as <-. exists m2. split; [done|]. split; [done|].
      intros j Hj Hne. destruct Hst as [?|Hi]; [congruence|]. exfalso. apply Hne. congruence.
Qed.

Section Histories.
Context (key_digest : string -> string) (graphemes : text -> Z) (uuid_text : uuid -> string)
  (minimum_offset : duration) (total_limit daily_limit : Z).

(** The steps that interleave: the requests, and the two transactions of a publication.
    The second may follow any first, also one of long ago. *)
Inductive operation : Type :=
| Create (account : AccountId) (key : option string) (scheduled : option (option OffsetTime))
    (input : StatusInput) (rest : Rest)
| Move (account : AccountId) (i : uuid) (scheduled_at : option OffsetTime) (is_rendered : bool)
| Cancel (account : AccountId) (i : uuid)
| ReadSchedule (payload : JsonValue)
| Finish (reading : Reading) (rest : Rest)
| Edit (account : AccountId) (status : StatusId) (e : StatusEdit) (elsewhere : bool) (rest : Rest).

(** The status that an operation edits. *)
Definition edits (o : operation) (i : uuid) : Prop :=
  match o with Edit _ status _ _ _ => i = status_uuid status | _ => False end.

Definition run (o : operation) : Op Db unit :=
  match o with
  | Create account key at_ input rest =>
      create_status key_digest graphemes uuid_text minimum_offset total_limit daily_limit
        account key at_ input rest;; mret tt
  | Move account i at_ r =>
      update_scheduled_status uuid_text minimum_offset daily_limit account i at_ r;; mret tt
  | Cancel account i => delete_scheduled_status uuid_text account i;; mret tt
  | ReadSchedule payload => read_schedule payload;; mret tt
  | Finish reading rest => publish_read graphemes uuid_text reading rest
  | Edit account status e elsewhere rest =>
      update_status graphemes uuid_text account status e elsewhere rest;; mret tt
  end.

Definition step (allowed : operation -> Prop) (d d' : Db) : Prop :=
  exists o w r w', allowed o /\ run o w d = (r, w', d').

(** What one operation does: nothing to the tables here, or one of five changes. *)
Inductive change (o : operation) (d d' : Db) : Prop :=
| ch_none : base d' = base d -> change o d d'
| ch_idempotency d1 : change o d d1 ->
    accounts d' = accounts d1 -> schedules d' = schedules d1 -> media d' = media d1 ->
    statuses d' = statuses d1 -> change o d d'
| ch_scheduled input s :
    (exists account key t inp rest, o = Create account key (Some (Some t)) inp rest /\
       new_scheduled_at input = t) ->
    count_total (ss_account s) d < total_limit ->
    count_day (ss_account s) (day_start (new_scheduled_at input)) None d < daily_limit ->
    scheduled graphemes input s d d' -> change o d d'
| ch_moved i s s' t :
    (exists account r, o = Move account i (Some t) r) ->
    schedules d !! i = Some s -> ss_id s' = ss_id s -> ss_account s' = ss_account s ->
    ss_scheduled_at s' = instant t -> count_day (ss_account s) (day_start t) (Some i) d < daily_limit ->
    accounts d' = accounts d -> schedules d' = <[i := s']> (schedules d) -> media d' = media d ->
    statuses d' = statuses d -> change o d d'
| ch_released i :
    accounts d' = accounts d -> schedules d' = delete i (schedules d) ->
    media d' = release i <$> media d -> statuses d' = statuses d -> change o d d'
| ch_created account input schedule publication i :
    created account input schedule publication i d d' -> change o d d'
| ch_edited account i : edits o i -> edited i account d d' -> change o d d'.

Lemma request_change account i at_ input rest w d r w' d' key inp rest' :
  create_scheduled_status_request graphemes uuid_text minimum_offset total_limit daily_limit
    account i at_ input rest w d = (r, w', d') ->
  change (Create account key (Some at_) inp rest') d d'.
Proof.
  intros H. unfold create_scheduled_status_request in H.
  destruct at_ as [t|]; [|injection H as _ _ <-; by apply ch_none].
  unfold mbind, M_bind in H. destruct (soon minimum_offset t w d) as [[[early|e] w1] d1] eqn:Es;
    unfold soon in Es; injection Es as Es _ <-; [|done]. subst early.
  destruct (_ <=? _); [injection H as _ _ <-; by apply ch_none|].
  destruct (check_input graphemes false input); [injection H as _ _ <-; by apply ch_none|].
  destruct (targets rest); [injection H as _ _ <-; by apply ch_none|].
  destruct (create_scheduled_status _ _ _ _ _ _ _) as [[[[res row]|e] w2] d2] eqn:E;
    [|destruct e; injection H as _ _ <-; by apply ch_none].
  assert (d' = d2) as -> by (destruct res, row; by injection H as _ _ <-).
  apply create_scheduled_run in E as [(_ & _ & ->)|(_ & Ht & Hd & s & _ & Hs)]; [by apply ch_none|].
  pose proof (sc_account _ _ _ _ _ Hs) as Ha. rewrite <- Ha in Ht, Hd.
  eapply ch_scheduled; [|done|exact Hd|exact Hs]. by repeat eexists.
Qed.

Lemma creation_change o account input schedule publication rest w d r w' d' :
  create_status_from_input graphemes uuid_text account input schedule publication rest w d = (r, w', d') ->
  change o d d'.
Proof.
  intros H. apply creation_run in H as (code & _ & [[_ ->]|(_ & _ & _ & i & Hc)]); [by apply ch_none|].
  by eapply ch_created.
Qed.

Lemma cancel_change o account i w d r w' d' :
  cancel_scheduled_status uuid_text account i w d = (r, w', d') -> change o d d'.
Proof.
  intros H. destruct r as [b|e].
  - apply cancel_run in H as [(_ & _ & ->)|(_ & _ & Ha & Hs & Hm & Hst)]; [by apply ch_none|].
    by eapply ch_released.
  - unfold cancel_scheduled_status, mbind, M_bind, gets in H.
    destruct (find_scheduled_status account i d); done.
Qed.

Lemma create_change account key at_ input rest w d r w' d' :
  create_status key_digest graphemes uuid_text minimum_offset total_limit daily_limit
    account key at_ input rest w d = (r, w', d') -> change (Create account key at_ input rest) d d'.
Proof.
  intros H. assert (Hres : forall w r w' d', create_result graphemes uuid_text minimum_offset total_limit
      daily_limit account at_ input rest w d = (r, w', d') -> change (Create account key at_ input rest) d d').
  { clear. intros w r w' d' H. unfold create_result, mbind, M_bind, uuid_now_v7 in H. cbn in H.
    destruct at_ as [t|].
    - destruct (create_scheduled_status_request _ _ _ _ _ _ _ _ _ _ _ _) as [[[c|e] w1] d1] eqn:E;
        injection H as _ _ <-; by eapply request_change.
    - destruct (create_status_from_input _ _ _ _ _ _ _ _ _) as [[[c|e] w1] d1] eqn:E;
        injection H as _ _ <-; by eapply creation_change. }
  unfold create_status in H. destruct key as [k|].
  - destruct (negb (key_accepted k)); [injection H as _ _ <-; by apply ch_none|].
    unfold existing_creation, mbind, M_bind, now_utc, gets in H. cbn [fst snd] in H.
    destruct (option_bind _ _ _ _) as [e|] eqn:Ee;
      [injection H as _ _ <-; by apply ch_none|].
    match type of H with context [create_result ?a ?b ?c ?t ?l ?ac ?at_ ?inp ?re ?w1 ?d1] =>
      destruct (create_result a b c t l ac at_ inp re w1 d1) as [[[[i c']|e] w2] d2] eqn:E end;
      [|injection H as _ _ <-; by eapply Hres].
    apply Hres in E. cbn [fst snd] in H. unfold when in H. destruct (c' =? OK); [|injection H as _ _ <-; done].
    injection H as _ _ <-. eapply ch_idempotency; [exact E|done..].
  - unfold mbind, M_bind in H.
    destruct (create_result _ _ _ _ _ _ _ _ _ w d) as [[[[i c']|e] w2] d2] eqn:E;
      injection H as _ _ <-; by eapply Hres.
Qed.

Lemma scheduled_poll_run i w d : exists o, on_polls (Polls.scheduled_poll i) w d = (Ok o, w, d).
Proof.
  unfold on_polls, zoom, Polls.scheduled_poll, mbind, M_bind, gets.
  destruct (Polls.scheduled_polls _ !! i); eexists; destruct d; reflexivity.
Qed.

Lemma read_keeps payload : keeps (fun d : Db => d) (read_schedule payload).
Proof.
  intros w d. unfold store_of, read_schedule, mbind, M_bind.
  destruct (match Relations.json_get _ payload with _ => _ end w d) as [[[i|e] w1] d1] eqn:E;
    (assert (d1 = d) as -> by (by repeat case_match; injection E as _ _ <-)); [|done].
  unfold gets. destruct (schedules d !! i) as [s|]; [|done]. unfold now_utc.
  destruct (_ <? _); [done|]. destruct (bool_decide _); [done|]. destruct (negb _); [done|].
  match goal with |- context [on_polls _ ?w2 d] => destruct (scheduled_poll_run i w2 d) as [o Ho] end.
  by rewrite Ho.
Qed.

Lemma publish_change reading rest w d r w' d' :
  publish_read graphemes uuid_text reading rest w d = (r, w', d') -> change (Finish reading rest) d d'.
Proof.
  intros H. destruct reading as [|s|s input]; unfold publish_read in H.
  - injection H as _ _ <-. by apply ch_none.
  - unfold mbind, M_bind in H. destruct (cancel_scheduled_status _ _ _ _ _) as [[[b|e] w1] d1] eqn:E;
      injection H as _ _ <-; by eapply cancel_change.
  - unfold mbind, M_bind in H.
    destruct (create_status_from_input _ _ _ _ _ _ _ _ _) as [[[code|e] w1] d1] eqn:E;
      [|injection H as _ _ <-; by eapply creation_change].
    destruct (code =? OK); [injection H as _ _ <-; by eapply creation_change|].
    destruct (_ && _) eqn:Ec; [|injection H as _ _ <-; by eapply creation_change].
    apply creation_run in E as (c & [= <-] & [[_ ->]|(-> & _)]);
      [|exfalso; revert Ec; unfold answer; by destruct (rendered rest)].
    destruct (cancel_scheduled_status _ _ _ _ _) as [[[b|e] w2] d2] eqn:E2;
      injection H as _ _ <-; by eapply cancel_change.
Qed.

Lemma run_change o w d r w' d' : owned d -> run o w d = (r, w', d') -> change o d d'.
Proof.
  intros Hd. destruct o as [account key at_ input rest|account i at_ rd|account i|payload|reading rest
    |account status e elsewhere rest]; intros H; cbn [run] in H.
  - unfold mbind, M_bind in H. destruct (create_status _ _ _ _ _ _ _ _ _ _ _ _ _) as [[[c|e] w1] d1] eqn:E;
      injection H as _ _ <-; by eapply create_change.
  - unfold mbind, M_bind in H.
    destruct (update_scheduled_status _ _ _ _ _ _ _ _ _) as [[r1 w1] d1] eqn:E.
    assert (d' = d1) as -> by (by destruct r1; injection H as _ _ <-). clear H.
    unfold update_scheduled_status in E. destruct at_ as [t|]; [|injection E as _ _ <-; by apply ch_none].
    unfold soon, mbind, M_bind, now_utc in E. cbn [fst snd] in E.
    destruct (instant t <=? _); [injection E as _ _ <-; by apply ch_none|].
    unfold mret, M_ret in E.
    destruct (reschedule_status _ _ _ _ _ _ _) as [[[[s|]|e] w2] d2] eqn:Er.
    + injection E as _ _ <-.
      apply reschedule_run in Er as [[? _]|(s0 & s' & Hf & _ & ? & ? & ? & ? & ? & Hc & ? & ? & ? & ?)]; [done|].
      unfold find_scheduled_status in Hf. destruct (schedules d !! i) as [s1|] eqn:E1; [|done].
      cbn in Hf. destruct (of_account _ s1) eqn:Ea; [|done]. injection Hf as <-.
      unfold of_account in Ea. apply N.eqb_eq in Ea. rewrite <- Ea in Hc.
      by eapply (ch_moved _ _ _ i s1 s' t); eauto.
    + injection E as _ _ <-. by apply ch_none.
    + destruct e; injection E as _ _ <-; by apply ch_none.
  - unfold mbind, M_bind in H. destruct (delete_scheduled_status _ _ _ _ _) as [[r1 w1] d1] eqn:E.
    assert (d' = d1) as -> by (by destruct r1; injection H as _ _ <-). clear H.
    unfold delete_scheduled_status, transaction, mbind, M_bind in E.
    destruct (cancel_scheduled_status _ _ _ _ _) as [[[b|e] w2] d2] eqn:Ec.
    + destruct b; injection E as _ _ <-; [by eapply cancel_change|by apply ch_none].
    + injection E as _ _ <-. by apply ch_none.
  - unfold mbind, M_bind in H. pose proof (read_keeps payload w d) as Hk. unfold store_of in Hk.
    destruct (read_schedule payload w d) as [[[a|e] w1] d1]; cbn in Hk; injection H as _ _ <-; subst;
      by apply ch_none.
  - by apply publish_change in H.
  - unfold mbind, M_bind in H.
    destruct (update_status _ _ _ _ _ _ _ _ _) as [[r1 w1] d1] eqn:E.
    assert (d' = d1) as -> by (by destruct r1; injection H as _ _ <-).
    apply update_status_run in E as [->|E]; [by apply ch_none|by eapply ch_edited|done].
Qed.

Lemma owned_base d d' : base d' = base d -> owned d -> owned d' /\ grows d d'.
Proof.
  intros [= Ha Hs Hm Hst _] [K1 K2 K3 K4]. split; [split|split]; rewrite ?Hm, ?Hs, ?Hst; try done.
  intros k m ->. by exists m.
Qed.

Lemma change_owned o d d' : change o d d' -> owned d -> owned d' /\ grows_but (edits o) d d'.
Proof.
  intros H Hd.
  assert (Hg : forall d', owned d' /\ grows d d' -> owned d' /\ grows_but (edits o) d d')
    by (intros d2 [? ?]; split; [done|by apply grows_but_of]).
  induction H as [d' Hb|d' d1 Hc [Hd1 [G1 G2 G3]] Ha Hs Hm Hst|d' input s _ _ _ Hc
    |d' i s s' t _ Hs Hid Hacc _ _ Ha Hs' Hm Hst|d' i Ha Hs Hm Hst|d' account input schedule p i Hc
    |d' account i Hi He].
  - by apply Hg, owned_base.
  - destruct Hd1 as [K1 K2 K3 K4]. split; [split|split]; rewrite ?Hm, ?Hs, ?Hst, ?Ha; done.
  - by eapply Hg, owned_scheduled.
  - by eapply Hg, (owned_moved i s s').
  - by eapply Hg, (owned_released i).
  - by eapply Hg, owned_created.
  - destruct (owned_edited _ _ _ _ He Hd) as [Hd' [S A M]]. split; [done|]. split; [|done|].
    + intros j r Hr. destruct (S j r Hr) as (r' & ? & ? & Heq). exists r'. split_and!; try done.
      intros Hne. apply Heq. by intros ->.
    + intros k m Hk. destruct (M k m Hk) as (m' & ? & ? & Heq). exists m'. split_and!; try done.
      intros j Hj Hne. apply Heq; [done|]. by intros ->.
Qed.

(** C17. (Invariant.)  Whatever statuses are created, scheduled and edited, and schedules
    moved, cancelled and published, and however these interleave with the two transactions
    of publications (the transactions run one after another), a media attachment belongs
    to at most one status or schedule, which exists and has the attachment's owner; an
    attachment keeps its owner and a status its author.  A status that is not edited is
    written once: no other step changes it, also not a second publication of the same
    schedule, and no step takes one of its attachments away.  Deletions of statuses
    and attachments and suspensions of accounts are not among the steps. *)
Theorem attachments_follow_their_owner allowed d d' :
  rtc (step allowed) d d' -> owned d ->
  owned d' /\ grows_but (fun i => exists o, allowed o /\ edits o i) d d'.
Proof.
  induction 1 as [d|d d1 d' (o & w & r & w' & Ho & Hrun) _ IH]; intros Hd.
  { split; [done|]. apply grows_but_of, grows_refl. }
  apply run_change in Hrun; [|done]. destruct (change_owned _ _ _ Hrun Hd) as [Hd1 [S A M]].
  destruct (IH Hd1) as [Hd' Hg']. split; [done|]. eapply grows_but_trans; [|exact Hg']. split; [|done|].
  - intros i s Hs. destruct (S i s Hs) as (s' & ? & ? & He). exists s'. split_and!; try done.
    intros Hne. apply He. intros Hi. apply Hne. by exists o.
  - intros k m Hm. destruct (M k m Hm) as (m' & ? & ? & He). exists m'. split_and!; try done.
    intros i Hi Hne. apply He; [done|]. intros Hi2. apply Hne. by exists o.
Qed.

(** * Limits *)

Definition totals (d : Db) : Prop := forall account, count_total account d <= total_limit.
Definition days (d : Db) : Prop :=
  forall account n, count_day account (n * DAY) None d <= daily_limit.

(** The times of an operation are given in UTC. *)
Definition in_utc (o : operation) : Prop :=
  match o with
  | Create _ _ (Some (Some t)) _ _ | Move _ _ (Some t) _ => offset t = 0
  | _ => True
  end.

Lemma count_day_moving account start i d :
  owned d -> count_day account start (Some i) d =
  Z.of_nat (count_where (on_day account start None) (delete i (schedules d))).
Proof.
  intros Hd. unfold count_day. f_equal.
  assert (E : forall k v, delete i (schedules d) !! k = Some v ->
    on_day account start (Some i) v = on_day account start None v).
  { intros k v [Hne Hv]%lookup_delete_Some. apply (own_key d Hd) in Hv. unfold on_day.
    rewrite !bool_decide_eq_false_2; [done|done|congruence]. }
  rewrite <- (count_where_ext _ _ _ E). destruct (schedules d !! i) as [s|] eqn:Es; [|by rewrite delete_id].
  rewrite (count_where_lookup _ _ _ _ Es). unfold on_day at 1.
  rewrite bool_decide_eq_true_2 by (by rewrite (own_key d Hd i s Es)). by rewrite andb_false_r.
Qed.

(** The row of a time in UTC falls on the day that was counted, and on no other. *)
Lemma on_day_utc account n s t :
  ss_scheduled_at s = instant t -> offset t = 0 -> on_day account (n * DAY) None s = true ->
  ss_account s = account /\ n * DAY = day_start t.
Proof.
  intros Hs Ht H. unfold on_day in H. boolp.
  split; [by repeat match goal with H : (_ =? _)%N = true |- _ => apply N.eqb_eq in H end|].
  unfold day_start. rewrite Ht, Z.add_0_r, <- Hs. f_equal.
  apply (Z.div_unique _ _ _ (ss_scheduled_at s - n * DAY)); [left|]; lia.
Qed.

(** The counts of a store whose schedules are others. *)
Lemma limits_unchanged d d' : schedules d' = schedules d ->
  (totals d -> totals d') /\ (days d -> days d').
Proof. intros E. unfold totals, days, count_total, count_day. by rewrite E. Qed.

Lemma limits_deleted i d d' : schedules d' = delete i (schedules d) ->
  (totals d -> totals d') /\ (days d -> days d').
Proof.
  intros E. split; intros H account.
  - etrans; [|apply (H account)]. unfold count_total. rewrite E. apply inj_le, count_where_delete.
  - intros n. etrans; [|apply (H account n)]. unfold count_day. rewrite E. apply inj_le, count_where_delete.
Qed.

(** A schedule that is added or moved, where the day it falls on had room. *)
Lemma days_insert i s t d d' :
  owned d -> schedules d' = <[i := s]> (schedules d) -> ss_scheduled_at s = instant t -> offset t = 0 ->
  count_day (ss_account s) (day_start t) (Some i) d < daily_limit -> days d -> days d'.
Proof.
  intros Hd E Hat Ht Hroom H account n. unfold count_day. rewrite E, count_where_insert.
  destruct (on_day account (n * DAY) None s) eqn:Eo.
  - destruct (on_day_utc _ _ _ _ Hat Ht Eo) as [<- ->]. rewrite (count_day_moving _ _ _ _ Hd) in Hroom. lia.
  - cbn. etrans; [|apply (H account n)]. apply inj_le, count_where_delete.
Qed.

Lemma change_limits o d d' : change o d d' -> owned d ->
  (totals d -> totals d') /\ (in_utc o -> days d -> days d').
Proof.
  intros H Hd. induction H as [d' Hb|d' d1 Hc [IHt IHd] Ha Hs Hm Hst|d' input s Ho Ht Hdy Hc
    |d' i s s' t Ho Hs Hid Hacc Hat Hdy Ha Hs' Hm Hst|d' i Ha Hs Hm Hst|d' account input schedule p i Hc
    |d' account i _ He].
  - injection Hb as _ Hs _ _ _. by destruct (limits_unchanged _ _ Hs).
  - destruct (limits_unchanged _ _ Hs). tauto.
  - pose proof (sc_schedules _ _ _ _ _ Hc) as E. pose proof (sc_fresh _ _ _ _ _ Hc) as Hfresh. split.
    + intros H account. unfold count_total. rewrite E, count_where_insert_fresh by done.
      specialize (H account). unfold count_total in *. unfold of_account at 1.
      destruct (N.eqb_spec (ss_account s) account) as [<-|]; lia.
    + intros Hu. destruct Ho as (account & key & t & inp & rest & -> & <-). cbn in Hu.
      eapply days_insert; [done|exact E|apply (sc_at _ _ _ _ _ Hc)|done|].
      rewrite count_day_moving by done. rewrite delete_id by done. exact Hdy.
  - split.
    + intros H account. specialize (H account). unfold count_total in *.
      rewrite Hs', count_where_insert. rewrite (count_where_lookup _ _ _ _ Hs) in H.
      unfold of_account in *. by rewrite Hacc.
    + intros Hu. destruct Ho as (account & r & ->). rewrite <- Hacc in Hdy. by eapply days_insert.
  - by destruct (limits_deleted i _ _ Hs).
  - pose proof (cr_schedules _ _ _ _ _ _ _ Hc) as Hs. destruct schedule as [j|].
    + by destruct (limits_deleted j _ _ Hs).
    + by destruct (limits_unchanged _ _ Hs).
  - by destruct (limits_unchanged _ _ (ed_schedules _ _ _ _ He)).
Qed.

(** (Bounds.)  In every history an account has at most as many pending schedules as
    the total limit allows.  If moreover every time that was given has offset zero, at
    most as many of them fall on one UTC day as the daily limit allows, whether they were
    created on this day or moved to it. *)
Theorem schedules_stay_within_limits allowed d d' :
  rtc (step allowed) d d' -> owned d ->
  (totals d -> totals d') /\ ((forall o, allowed o -> in_utc o) -> days d -> days d').
Proof.
  induction 1 as [d|d d1 d' (o & w & r & w' & Ho & Hrun) _ IH]; intros Hd; [by split|].
  apply run_change in Hrun; [|done]. destruct (change_owned _ _ _ Hrun Hd) as [Hd1 _].
  destruct (change_limits _ _ _ Hrun Hd) as [Ht Hdy]. destruct (IH Hd1) as [Ht' Hdy']. split; [by eauto|].
  intros Hu H. apply Hdy'; [done|]. apply Hdy; [by apply Hu|done].
Qed.
End Histories.

(** * Reading back *)

(** The rows a query selects, in the order of distinct keys. *)
Lemma order_by_rows {K V} `{Countable K} (t : gmap K V) (p : K * V -> bool) (key : K * V -> Z) xs :
  StronglySorted (fun a b => key a < key b) xs ->
  (forall kv, kv ∈ xs <-> t !! kv.1 = Some kv.2 /\ p kv = true) ->
  order_by (fun a b => key a <=? key b) (List.filter p (map_to_list t)) = xs.
Proof.
  intros Hs Hin. set (l := List.filter p (map_to_list t)).
  assert (Hl : l ≡ₚ xs).
  { apply NoDup_Permutation.
    - apply NoDup_ListNoDup, List.NoDup_filter, NoDup_ListNoDup, NoDup_map_to_list.
    - clear -Hs. induction Hs as [|x xs _ IH Hx]; constructor; [|done]. intros Hin.
      rewrite Forall_forall in Hx. specialize (Hx x Hin). lia.
    - intros [k v]. rewrite Hin. unfold l. rewrite list_elem_of_In, List.filter_In, <- list_elem_of_In.
      by rewrite elem_of_map_to_list. }
  apply (StronglySorted_unique_strong (fun a b => (key a <=? key b) = true)).
  - intros a b Ha Hb Hab Hba. boolp. assert (key a = key b) as E by lia. clear Hab Hba.
    rewrite order_by_Permutation, Hl in Ha. clear -Hs Ha Hb E.
    induction Hs as [|x xs _ IH Hx]; [by apply not_elem_of_nil in Ha|]. rewrite Forall_forall in Hx.
    apply elem_of_cons in Ha as [->|Ha], Hb as [->|Hb]; [done| | |by apply IH].
    + specialize (Hx b Hb). lia.
    + specialize (Hx a Ha). lia.
  - apply order_by_sorted; intros *; cbn; rewrite ?Z.leb_le; lia.
  - clear -Hs. induction Hs as [|x xs Hs IH Hx]; constructor; [done|].
    eapply Forall_impl; [exact Hx|]. intros b Hb. cbn in Hb. apply Z.leb_le. lia.
  - by rewrite order_by_Permutation.
Qed.

Lemma imap_sorted {A B} (f : nat -> A -> B) (key : B -> Z) (l : list A) (c : Z) :
  (forall i a, l !! i = Some a -> key (f i a) = c + Z.of_nat i) ->
  StronglySorted (fun a b => key a < key b) (imap f l).
Proof.
  revert f c. induction l as [|a l IH]; intros f c Hk; cbn; constructor.
  - apply (IH (f ∘ S) (c + 1)). intros i b Hb. cbn. rewrite (Hk (S i)) by done. lia.
  - apply Forall_forall. intros b (i & x & -> & Hx)%elem_of_lookup_imap. cbn.
    rewrite (Hk 0%nat a), (Hk (S i) x) by done. lia.
Qed.

Lemma reserved_media_read_back g input s d d' :
  scheduled g input s d d' -> owned d -> NoDup (new_media_ids input) ->
  media_attachments_for_scheduled_status (ss_id s) d' = new_media_ids input.
Proof.
  intros Hs Hd Hnd. set (ids := new_media_ids input) in *.
  assert (Hrow : forall n k, ids !! n = Some k -> exists m, media d' !! k = Some m /\
    media_schedule m = Some (ss_id s) /\ media_order m = Z.of_nat n).
  { intros n k Hk. destruct (sc_media _ _ _ _ _ Hs k) as [[Hno _]|(n' & m & m' & Hin & _ & E & _ & _ & Hi & Ho)].
    - destruct Hno. rewrite positions_snd. by eapply list_elem_of_lookup_2.
    - apply positions_elem in Hin. rewrite (NoDup_lookup _ _ _ _ Hnd Hk Hin). by exists m'. }
  set (row k := default (mkMedia 0%N None None 0 0) (media d' !! k)).
  unfold media_attachments_for_scheduled_status.
  rewrite (order_by_rows _ _ _ (imap (fun _ k => (k, row k)) ids)).
  - apply list_eq. intros n. rewrite list_lookup_fmap, list_lookup_imap. by destruct (ids !! n).
  - apply (imap_sorted _ _ _ 0). intros n k Hk. unfold row.
    destruct (Hrow n k Hk) as (m & -> & _ & Ho). exact Ho.
  - intros [k m]. rewrite elem_of_lookup_imap, bool_decide_eq_true. cbn. split.
    + intros (n & k' & [= <- ->] & Hk). unfold row. destruct (Hrow n k Hk) as (m' & -> & Hi & _). by split.
    + intros [Hm Hi]. assert (k ∈ ids) as [n Hn]%list_elem_of_lookup_1.
      { destruct (sc_media _ _ _ _ _ Hs k) as [[_ E]|(n' & m1 & m' & Hin & _)].
        - rewrite Hm in E. symmetry in E. destruct (own_schedule d Hd k m _ E Hi) as (r & Hr & _).
          by rewrite (sc_fresh _ _ _ _ _ Hs) in Hr.
        - apply positions_elem in Hin. by eapply list_elem_of_lookup_2. }
      exists n, k. split; [|done]. unfold row. by rewrite Hm.
Qed.

(** The foreign keys of the scheduled polls. *)
Definition polls_filed (d : Db) : Prop :=
  (forall i, is_Some (Polls.scheduled_polls (polls_db d) !! i) -> is_Some (schedules d !! i)) /\
  (forall k, is_Some (Polls.scheduled_options (polls_db d) !! k) -> is_Some (schedules d !! k.1)).

Definition trimmed_poll (p : Polls.NewStatusPoll) : Polls.NewStatusPoll :=
  Polls.mkNewStatusPoll (trim <$> Polls.new_options p) (Polls.expires_in p) (Polls.new_multiple p)
    (Polls.new_hide_totals p).

Lemma scheduled_options_run i ps w p u w' p' :
  for_each ps (Polls.insert_scheduled_option i) w p = (Ok u, w', p') ->
  Polls.scheduled_polls p' = Polls.scheduled_polls p /\
  forall k v, Polls.scheduled_options p' !! k = Some v <->
    Polls.scheduled_options p !! k = Some v \/ exists o, o ∈ ps /\ k = (i, Z.of_nat o.1) /\ v = trim o.2.
Proof.
  revert w p. induction ps as [|o ps IH]; intros w p H.
  { injection H as _ _ <-. split; [done|]. intros k v. split; [by left|].
    intros [?|(? & ?%not_elem_of_nil & _)]; done. }
  cbn [for_each] in H. inv_bind H u1 w1 p1 H1. unfold Polls.insert_scheduled_option in H1.
  inv_bind H1 p0 w0 p2 H0. injection H0 as <- _ <-.
  destruct (Polls.scheduled_options p !! _) eqn:E; [done|]. injection H1 as _ _ <-.
  apply IH in H as [Hp Hk]. split; [done|]. intros k v. rewrite Hk. cbn. split.
  - intros [[[<- <-]|[_ Hv]]%lookup_insert_Some|(o' & Hin & Hrest)]; [|by left|].
    + right. exists o. split; [left|done].
    + right. exists o'. split; [by right|done].
  - intros [Hv|(o' & [->|Hin]%elem_of_cons & -> & ->)].
    + left. rewrite lookup_insert_ne; [done|]. intros <-. by rewrite E in Hv.
    + left. by rewrite lookup_insert_eq.
    + right. by exists o'.
Qed.

Lemma scheduled_poll_reads_back g input s d d' w :
  scheduled g input s d d' -> polls_filed d ->
  on_polls (Polls.scheduled_poll (ss_id s)) w d' = (Ok (trimmed_poll <$> new_poll input), w, d').
Proof.
  intros Hs [Hfp Hfo]. destruct (sc_poll _ _ _ _ _ Hs) as (p & Hp & Ep & Eo).
  pose proof (sc_fresh _ _ _ _ _ Hs) as Hfresh.
  unfold on_polls, zoom, Polls.scheduled_poll, mbind, M_bind, gets, get_part. cbn [polls_part]. rewrite Ep, Eo.
  destruct (new_poll input) as [poll|].
  - destruct Hp as (w1 & w2 & Hp). unfold Polls.create_scheduled_poll in Hp.
    inv_bind Hp u3 w3 p3 H3. apply lift_result_Ok in H3 as (_ & -> & ->).
    inv_bind Hp p4 w4 p4' H4. injection H4 as <- _ <-.
    destruct (Polls.scheduled_polls (polls_db d) !! ss_id s) eqn:E; [done|].
    inv_bind Hp u5 w5 p5 H5. injection H5 as _ _ <-.
    apply scheduled_options_run in Hp as [-> Hopt]. cbn [Polls.with_scheduled Polls.scheduled_polls].
    rewrite lookup_insert_eq. unfold mret, M_ret. cbn [fmap option_fmap option_map].
    rewrite (order_by_rows _ _ (fun kv => kv.1.2)
      (imap (fun n title => ((ss_id s, Z.of_nat n), trim title)) (Polls.new_options poll))).
    + assert (E2 : (imap (fun n title => ((ss_id s, Z.of_nat n), trim title)) (Polls.new_options poll)).*2 =
                trim <$> Polls.new_options poll).
      { apply list_eq. intros n. rewrite !list_lookup_fmap, list_lookup_imap. by destruct (_ !! n). }
      rewrite E2. by destruct d'.
    + by apply (imap_sorted _ _ _ 0).
    + intros [k v]. cbn. rewrite Hopt, elem_of_lookup_imap, N.eqb_eq. split.
      * intros (n & title & [= -> ->] & Hn). split; [|done]. right. exists (n, title). split; [|done].
        apply elem_of_lookup_imap. by exists n, title.
      * intros [[Ho|(o & (n & title & -> & Hn)%elem_of_lookup_imap & -> & ->)] Hk].
        -- destruct (Hfo k) as [r Hr]; [by eexists|]. rewrite Hk in Hr. congruence.
        -- by exists n, title.
  - rewrite Hp. destruct (Polls.scheduled_polls (polls_db d) !! ss_id s) eqn:E; [|by destruct d'].
    destruct (Hfp (ss_id s)) as [r Hr]; [by eexists|]. congruence.
Qed.

Lemma validate_trimmed_poll graphemes p : Polls.validate_poll graphemes (trimmed_poll p) = Polls.validate_poll graphemes p.
Proof.
  unfold Polls.validate_poll. cbn. rewrite !length_fmap, <- list_fmap_compose.
  assert (E : trim ∘ trim <$> Polls.new_options p = trim <$> Polls.new_options p)
    by (apply list_fmap_ext; intros ? x _; apply (trim_idemp x)). by rewrite E.
Qed.

(** The input that a publication reads. *)
Definition read_input (input : StatusInput) : StatusInput :=
  mkInput (trimmed_post (in_post input)) (in_media_ids input) (trimmed_poll <$> in_poll input).

(** What can be scheduled can be published: the checks when a status is created refuse
    nothing that the checks of a schedule let pass. *)
Lemma check_read_input graphemes input :
  check_input graphemes false input = None ->
  NoDup (in_media_ids input) /\ check_input graphemes true (read_input input) = None.
Proof.
  unfold check_input, parse_media_ids. cbn [in_media_ids in_poll in_post read_input].
  destruct (_ <? _)%nat; [done|]. case_bool_decide as Hnd; [|done]. intros H. split; [done|].
  rewrite andb_false_l, orb_false_r in H. revert H.
  cbn [trimmed_post quoted_status_id content].
  destruct (_ && _); [done|].
  destruct (in_poll input) as [p|]; cbn [fmap option_fmap option_map];
    rewrite ?validate_trimmed_poll.
  - rewrite !bool_decide_eq_true_2 by (by eexists).
    destruct (_ && _); [done|]. case_match; [done|].
    unfold validate_status_text. rewrite trim_idemp. cbn [andb]. rewrite orb_true_r.
    cbn [negb]. rewrite andb_false_r. cbn.
    destruct (length _ <=? _)%nat; [done|]. by rewrite andb_false_r.
  - rewrite !bool_decide_eq_false_2 by (by intros []).
    unfold validate_status_text. by rewrite trim_idemp, andb_false_r, orb_false_r.
Qed.

(** The first transaction of a publication. *)
Lemma read_schedule_run i s w d : schedules d !! i = Some s -> exists w1,
  read_schedule (publish_payload i) w d =
    if w_clock w (w_ticks w) <? ss_scheduled_at s then (Err (InvalidInput "scheduled status is not due yet"), w1, d)
    else if bool_decide (is_Some (find_published (ss_publication s) d)) then (Ok (AlreadyPublished s), w1, d)
    else if negb (bool_decide (ss_account s ∈ accounts d)) then (Ok NothingToDo, w1, d)
    else (poll ← on_polls (Polls.scheduled_poll i);
          mret (ToPublish s (mkInput (ss_post s) (media_attachments_for_scheduled_status i d) poll))) w1 d.
Proof.
  intros Hs. eexists. unfold read_schedule.
  change (Relations.json_get _ (publish_payload i)) with (Some (JUuid i)).
  unfold mbind at 1 2, M_bind at 1 2, mret at 1, M_ret at 1, gets. cbv beta iota. rewrite Hs.
  unfold mbind at 1, M_bind at 1, now_utc. cbv beta iota.
  destruct (_ <? _); [reflexivity|]. destruct (bool_decide _); [reflexivity|].
  destruct (negb _); reflexivity.
Qed.

(** C19. (Roundtrip.)  A request for a scheduled status that is answered 200 has stored a
    schedule of the account at the given time.  A worker refuses it before it is due and
    afterwards reads back exactly what was asked for: the trimmed text with its options,
    the media in the client's order, and the poll with trimmed options.  What it reads
    passes every check on the input of a new status, so a publication is never refused
    for its text, its media identifiers or its poll. *)
Theorem scheduling_reads_back_when_due graphemes uuid_text minimum_offset total_limit daily_limit
    account i t input rest w d w' d' :
  owned d -> polls_filed d -> targets rest = None ->
  create_scheduled_status_request graphemes uuid_text minimum_offset total_limit daily_limit
    account i (Some t) input rest w d = (Ok OK, w', d') ->
  check_input graphemes true (read_input input) = None /\
  exists s, schedules d' !! ss_id s = Some s /\ ss_account s = account_uuid account /\
    ss_scheduled_at s = instant t /\
    (statuses d' !! ss_publication s = None -> forall w2, exists w3,
       read_schedule (publish_payload (ss_id s)) w2 d' =
         (if w_clock w2 (w_ticks w2) <? instant t then Err (InvalidInput "scheduled status is not due yet")
          else Ok (ToPublish s (read_input input)), w3, d')).
Proof.
  intros Hd Hfp Htargets H. unfold create_scheduled_status_request in H.
  inv_bind H early w1 d1 H1. unfold soon in H1. injection H1 as _ _ <-.
  destruct early; [done|].
  destruct (check_input graphemes false input) as [c|] eqn:Ec.
  { apply check_input_codes in Ec as [->| ->]; done. }
  apply check_read_input in Ec as [Hnd Hcheck]. split; [done|]. rewrite Htargets in H.
  destruct (create_scheduled_status _ _ _ _ _ _ _) as [[[[res row]|e] w2] d2] eqn:E;
    [|destruct e; done].
  apply create_scheduled_run in E as [(Hno & -> & _)|(-> & _ & _ & s & -> & Hs)].
  { destruct res; done. }
  injection H as _ _ <-. exists s. pose proof (sc_schedules _ _ _ _ _ Hs) as Hss.
  assert (Hlook : schedules d2 !! ss_id s = Some s) by (by rewrite Hss, lookup_insert_eq).
  split; [done|]. split; [apply (sc_account _ _ _ _ _ Hs)|]. split; [apply (sc_at _ _ _ _ _ Hs)|].
  intros Hnew w3. destruct (read_schedule_run (ss_id s) s w3 d2 Hlook) as [w4 ->].
  rewrite (sc_at _ _ _ _ _ Hs). cbn [new_scheduled_at]. destruct (_ <? _); [by eexists|].
  rewrite bool_decide_eq_false_2 by (unfold find_published; rewrite Hnew; by intros []).
  rewrite bool_decide_eq_true_2 by (rewrite (sc_accounts _ _ _ _ _ Hs); apply (sc_known _ _ _ _ _ Hs)).
  cbn [negb]. unfold mbind, M_bind.
  rewrite (scheduled_poll_reads_back _ _ _ _ _ _ Hs Hfp).
  rewrite (reserved_media_read_back _ _ _ _ _ Hs Hd Hnd). rewrite (sc_post _ _ _ _ _ Hs). by eexists.
Qed.

(** * Ending a schedule *)

Lemma cancel_ends uuid_text account i w d b w' d' :
  (forall r, schedules d !! i = Some r -> ss_account r = account_uuid account) ->
  cancel_scheduled_status uuid_text account i w d = (Ok b, w', d') ->
  schedules d' !! i = None /\ statuses d' = statuses d.
Proof.
  intros Hacc H. apply cancel_run in H as [(_ & Hf & ->)|(_ & _ & _ & -> & _ & ->)].
  - split; [|done]. unfold find_scheduled_status in Hf. destruct (schedules d !! i) as [r|] eqn:E; [|done].
    cbn in Hf. unfold of_account in Hf. by rewrite (Hacc r eq_refl), N.eqb_refl in Hf.
  - split; [apply lookup_delete_eq|done].
Qed.

(** C27. (Safety.)  A worker that read a schedule and returns without an error, however
    much later and whatever ran in between, leaves the schedule gone: it has been
    published under the identifier chosen for it, with the post that was read, or
    no status is new.  Every later run of the job finds nothing to do and changes
    nothing, so a job that is retried publishes once. *)
Theorem publication_ends_the_schedule graphemes uuid_text reading s rest w d w' d' :
  (reading = AlreadyPublished s \/ exists input, reading = ToPublish s input) ->
  (forall r, schedules d !! ss_id s = Some r -> ss_account r = ss_account s) ->
  targets rest <> Some OK ->
  publish_read graphemes uuid_text reading rest w d = (Ok tt, w', d') ->
  schedules d' !! ss_id s = None /\
  (statuses d' = statuses d \/ exists input t, reading = ToPublish s input /\
     statuses d !! ss_publication s = None /\
     statuses d' = <[ss_publication s :=
                       mkStatus (ss_account s) (trimmed_post (in_post input)) t None]> (statuses d)) /\
  forall rest2 w2, publish_scheduled_status graphemes uuid_text (publish_payload (ss_id s)) rest2 w2 d' =
    (Ok tt, w2, d').
Proof.
  intros Hreading Hacc Htargets H.
  enough (Hend : schedules d' !! ss_id s = None /\ (statuses d' = statuses d \/ exists input t,
      reading = ToPublish s input /\ statuses d !! ss_publication s = None /\
      statuses d' = <[ss_publication s := mkStatus (ss_account s) (trimmed_post (in_post input)) t None]>
        (statuses d))).
  { destruct Hend as [Hgone Hst]. split; [done|]. split; [done|]. intros rest2 w2.
    unfold publish_scheduled_status, read_schedule.
    change (Relations.json_get _ (publish_payload (ss_id s))) with (Some (JUuid (ss_id s))).
    unfold mbind, M_bind, mret, M_ret, gets. cbv beta iota. by rewrite Hgone. }
  destruct Hreading as [->|[input ->]]; unfold publish_read in H.
  { inv_bind H b w1 d1 H1. injection H as _ <-. apply cancel_ends in H1 as [? ?]; [|done]. tauto. }
  inv_bind H code w1 d1 H1. apply creation_run in H1 as (c & [= <-] & [[Href ->]|(-> & _ & _ & i & Hc)]).
  - destruct (code =? OK) eqn:Eok.
    { apply Z.eqb_eq in Eok as ->. by destruct Href as [?|[?|[?|?]]]. }
    destruct (_ && _); [|done]. inv_bind H b w2 d2 H2. injection H as _ <-.
    apply cancel_ends in H2 as [? ?]; [|done]. tauto.
  - unfold answer in H. destruct (rendered rest); [|done]. injection H as _ <-.
    rewrite (cr_schedules _ _ _ _ _ _ _ Hc). split; [apply lookup_delete_eq|]. right.
    destruct (cr_status _ _ _ _ _ _ _ Hc) as [t Ht]. exists input, t. split; [done|].
    pose proof (cr_id _ _ _ _ _ _ _ Hc _ eq_refl) as Hi. cbn in Hi. rewrite <- Hi.
    split; [apply (cr_fresh _ _ _ _ _ _ _ Hc)|done].
Qed.

(** Runs that go through. *)
Lemma require_attachable_goes account schedule ids w d :
  Forall (fun i => exists m, media d !! i = Some m /\ media_account m = account /\
    media_status m = None /\ media_schedule m = None) ids ->
  for_each ids (require_attachable account schedule) w d = (Ok tt, w, d).
Proof.
  induction 1 as [|i ids (m & Hm & Ha & Hst & Hsc) _ IH]; [done|]. cbn [for_each].
  unfold mbind, M_bind, require_attachable, mbind, M_bind, gets. rewrite Hm. cbn.
  by rewrite Ha, N.eqb_refl, Hst, Hsc.
Qed.

Lemma attach_goes status ps w d :
  Forall (fun p : nat * uuid => is_Some (media d !! p.2)) ps ->
  exists w' t, for_each ps (attach_media status) w d = (Ok tt, w', set_media t d).
Proof.
  revert w d. induction ps as [|p ps IH]; intros w d Hall; [exists w, (media d); by destruct d|].
  inversion Hall as [|? ? [m Hm] Hps]; subst. cbn [for_each].
  set (d1 := set_media (<[p.2 := mkMedia (media_account m) (Some status) None (Z.of_nat p.1)
                             (w_clock w (w_ticks w))]> (media d)) d).
  destruct (IH (world_of (now_utc : Op Db time) w d) d1) as (w' & t & E).
  { eapply Forall_impl; [exact Hps|]. intros q Hq. cbn. destruct (decide (p.2 = q.2)) as [->|].
    - rewrite lookup_insert_eq. by eexists.
    - by rewrite lookup_insert_ne. }
  exists w', t. unfold mbind, M_bind, attach_media, mbind, M_bind, gets. rewrite Hm. exact E.
Qed.

Lemma create_local_goes i account post ids schedule w d :
  statuses d !! status_uuid i = None ->
  Forall (fun k => exists m, media d !! k = Some m /\ media_account m = account /\
    media_status m = None /\ media_schedule m = None) ids ->
  exists w' d', create_local_status_with_media (Some i) account post ids schedule w d = (Ok i, w', d').
Proof.
  intros Hfresh Hall. destruct i as [i]. cbn in Hfresh.
  unfold create_local_status_with_media, mbind, M_bind, mret, M_ret, now_utc, status_uuid. cbv beta iota.
  rewrite require_attachable_goes by done. cbv beta iota.
  unfold insert_status, mbind, M_bind, gets. rewrite Hfresh, bool_decide_eq_false_2 by (by intros []).
  unfold modify, on_polls, zoom. cbv beta iota.
  match goal with |- context [for_each (imap pair ids) (attach_media i) ?w ?d] =>
    destruct (attach_goes i (imap pair ids) w d) as (w3 & t & ->) end; [|by eexists _, _].
  apply Forall_forall. intros [n k] Hin%positions_elem%list_elem_of_lookup_2. cbn.
  rewrite Forall_forall in Hall. destruct (Hall k Hin) as (m & Hm & _). by eexists.
Qed.

Lemma read_media i k d : k ∈ media_attachments_for_scheduled_status i d ->
  exists m, media d !! k = Some m /\ media_schedule m = Some i.
Proof.
  unfold media_attachments_for_scheduled_status. intros ([k' m] & -> & Hin)%list_elem_of_fmap.
  rewrite order_by_Permutation in Hin. apply list_elem_of_In, List.filter_In in Hin as [Hin Hi].
  apply list_elem_of_In, elem_of_map_to_list in Hin. apply bool_decide_eq_true in Hi. by exists m.
Qed.

Lemma read_schedule_Ok payload w d s input w1 d1 :
  read_schedule payload w d = (Ok (ToPublish s input), w1, d1) ->
  d1 = d /\ exists i, schedules d !! i = Some s /\
    in_media_ids input = media_attachments_for_scheduled_status i d.
Proof.
  intros H. pose proof (keeps_run _ _ _ _ _ _ _ (read_keeps payload) H) as ->. split; [done|].
  unfold read_schedule in H. inv_bind H i w2 d2 H2.
  assert (d2 = d) as -> by (by repeat case_match; injection H2 as _ _ <-).
  inv_bind H d3 w3 d3' H3. injection H3 as <- _ <-.
  destruct (schedules d !! i) as [r|] eqn:Er; [|done]. inv_bind H now w4 d4 H4. injection H4 as _ _ <-.
  destruct (_ <? _); [done|]. destruct (bool_decide _); [done|]. destruct (negb _); [done|].
  inv_bind H poll w5 d5 H5. injection H as <- <- _ _. by exists i.
Qed.

(** C38. (Error.)  A publication reads in one transaction and writes in another that does
    not look at the schedule again.  When the owner cancels in between, the request is
    answered 200 and the schedule is gone, and yet the worker goes on to publish what it
    has read, without an error. *)
Theorem cancelled_schedule_is_still_published graphemes uuid_text payload s input w d w1 w2 d2 :
  owned d -> read_schedule payload w d = (Ok (ToPublish s input), w1, d) ->
  in_poll input = None -> check_input graphemes true input = None ->
  statuses d !! ss_publication s = None ->
  delete_scheduled_status uuid_text (mkAccountId (ss_account s)) (ss_id s) w1 d = (Ok OK, w2, d2) ->
  schedules d2 !! ss_id s = None /\
  exists w3 d3 t, publish_read graphemes uuid_text (ToPublish s input) (mkRest None true true) w2 d2 =
      (Ok tt, w3, d3) /\
    statuses d3 !! ss_publication s = Some (mkStatus (ss_account s) (trimmed_post (in_post input)) t None).
Proof.
  intros Hd Hread Hpoll Hcheck Hnew Hdel.
  apply read_schedule_Ok in Hread as (_ & i & Hs & Hids).
  assert (ss_id s = i) as Hi by (by apply (own_key d Hd)). rewrite Hi in Hdel |- *.
  assert (Hcancel : exists b w3 d3, cancel_scheduled_status uuid_text (mkAccountId (ss_account s)) i w1 d =
      (Ok b, w3, d3) /\ b = true /\ d3 = d2).
  { unfold delete_scheduled_status, transaction, mbind, M_bind in Hdel.
    destruct (cancel_scheduled_status _ _ _ _ _) as [[[[]|e] w3] d3]; try done.
    injection Hdel as _ ->. by exists true, w3, d2. }
  destruct Hcancel as (b & w3 & d3 & Hcancel & -> & ->).
  apply cancel_run in Hcancel as [[? _]|(_ & _ & _ & Hs2 & Hm2 & Hst2)]; [done|].
  split; [by rewrite Hs2, lookup_delete_eq|].
  destruct (create_local_goes (mkStatusId (ss_publication s)) (ss_account s) (trimmed_post (in_post input))
    (in_media_ids input) (Some i) w2 d2) as (w4 & d4 & Hcreate).
  { cbn. by rewrite Hst2. }
  { apply Forall_forall. intros k Hk. rewrite Hids in Hk. apply read_media in Hk as (m & Hm & Hsc).
    exists (release i m). rewrite Hm2, lookup_fmap, Hm. split; [done|].
    destruct (own_single d Hd k m Hm) as [Hnone|]; [|congruence].
    destruct (own_schedule d Hd k m i Hm Hsc) as (r & Hr & Ha). rewrite Hs in Hr. injection Hr as <-.
    destruct (release_spec i m) as (-> & -> & [->|[_ ?]]); done. }
  pose proof Hcreate as (_ & _ & [t Ht] & _)%create_local_run.
  exists w4, (deleted i d4), t. split; [|by cbn; rewrite Ht, lookup_insert_eq].
  unfold publish_read, create_status_from_input, transaction. rewrite Hcheck, Hpoll. cbn [targets others].
  unfold mbind at 1, M_bind at 1, or_answer at 1. rewrite Hi, Hcreate. reflexivity.
Qed.

(** * A sample *)
Definition sample_post : Post :=
  mkPost [32; 104; 105] Statuses.Public false [] None None None None QuotePublic.
Definition sample_input : StatusInput := mkInput sample_post [8%N; 7%N] None.
Definition sample_rest : Rest := mkRest None true true.
Definition sample_media : MediaRow := mkMedia 1 None None 0 0.
Definition sample_polls : Polls.Db :=
  Polls.mkDb ∅ ∅ ∅ ∅ ∅ ∅ ∅ (Notifications.mkDb ∅ ∅ ∅ ∅).
Definition sample_db : Db :=
  mkDb {[1%N]} ∅ (<[7%N := sample_media]> (<[8%N := sample_media]> ∅)) ∅ ∅ sample_polls.

Definition sample_graphemes (t : text) : Z := Z.of_nat (length t).
Definition sample_run := run (fun k => k) sample_graphemes pretty (seconds 10) 2 1.
Definition sample_step := step (fun k => k) sample_graphemes pretty (seconds 10) 2 1.

(** Account 1 schedules a post, whose two media come in the order of the request, with
    the key ["k"]; a worker reads it when it is due and publishes it. *)
Definition sample_create : operation :=
  Create (mkAccountId 1) (Some "k"%string) (Some (Some (mkOffsetTime (seconds 700) 0))) sample_input sample_rest.
Definition sample_db1 : Db := store_of (sample_run sample_create) sample_world sample_db.
Definition sample_world1 : World := world_of (sample_run sample_create) sample_world sample_db.
Definition sample_schedule : uuid := 100.
Definition sample_read := read_schedule (publish_payload sample_schedule).
Definition sample_reading : Reading :=
  match value_of sample_read (later_world sample_world1) sample_db1 with Ok r => r | Err _ => NothingToDo end.
Definition sample_finish : operation := Finish sample_reading sample_rest.
Definition sample_db2 : Db := store_of (sample_run sample_finish) (later_world sample_world1) sample_db1.

Lemma run_eq {S E A} (m : M S E A) w s : m w s = (value_of m w s, world_of m w s, store_of m w s).
Proof. unfold value_of, world_of, store_of. by destruct (m w s) as [[]]. Qed.

Lemma sample_steps (allowed : operation -> Prop) o w d :
  allowed o -> sample_step allowed d (store_of (sample_run o) w d).
Proof.
  intros Ho. exists o, w, (value_of (sample_run o) w d), (world_of (sample_run o) w d).
  split; [done|]. apply run_eq.
Qed.

Lemma sample_first (allowed : operation -> Prop) :
  allowed sample_create -> rtc (sample_step allowed) sample_db sample_db1.
Proof. intros H. apply rtc_once. exact (sample_steps allowed sample_create sample_world sample_db H). Qed.

Lemma sample_second (allowed : operation -> Prop) :
  allowed sample_finish -> rtc (sample_step allowed) sample_db1 sample_db2.
Proof.
  intros H. apply rtc_once. exact (sample_steps allowed sample_finish (later_world sample_world1) sample_db1 H).
Qed.

Lemma sample_owned : owned sample_db.
Proof.
  assert (H : forall k m, media sample_db !! k = Some m -> m = sample_media).
  { cbn [media sample_db]. intros k m Hm.
    apply lookup_insert_Some in Hm as [[_ <-]|[_ Hm]]; [done|].
    apply lookup_insert_Some in Hm as [[_ <-]|[_ Hm]]; [done|]. by rewrite lookup_empty in Hm. }
  split; [intros i s; cbn; by rewrite lookup_empty| | |];
    intros k m; [|intros i|intros i]; intros Hm%H; subst m; [by left|done|done].
Qed.

Lemma sample_filed : polls_filed sample_db.
Proof. split; intros k; cbn; rewrite lookup_empty; by intros []. Qed.

Definition anything (_ : operation) : Prop := True.

(** The author then keeps only one of the two attachments. *)
Definition sample_edit : operation :=
  Edit (mkAccountId 1) (mkStatusId 101)
    (mkEdit None None None None None (Some [7%N]) [] None false) false sample_rest.
Definition sample_db3 : Db := store_of (sample_run sample_edit) sample_world1 sample_db2.
Definition edits_the_sample (o : operation) : Prop := forall i, edits o i -> i = 101%N.

Lemma attachments_follow_their_owner_witness :
  owned sample_db3 /\
  grows_but (fun i => exists o, edits_the_sample o /\ edits o i) sample_db2 sample_db3 /\
  (media_status <$> media sample_db2 !! 8%N) = Some (Some 101%N) /\
  (media_status <$> media sample_db3 !! 8%N) = Some None /\
  (media_status <$> media sample_db3 !! 7%N) = Some (Some 101%N) /\
  (media_order <$> media sample_db2 !! 7%N) = Some 1 /\ schedules sample_db2 = ∅.
Proof.
  pose proof (attachments_follow_their_owner (fun k => k) sample_graphemes pretty (seconds 10) 2 1
    edits_the_sample) as H.
  destruct (H _ _ (sample_first edits_the_sample (fun i => False_ind _)) sample_owned) as [Hd1 _].
  destruct (H _ _ (sample_second edits_the_sample (fun i => False_ind _)) Hd1) as [Hd2 _].
  assert (H3 : rtc (sample_step edits_the_sample) sample_db2 sample_db3)
    by (apply rtc_once, sample_steps; by intros i).
  destruct (H _ _ H3 Hd2) as [Hd3 Hg].
  split; [exact Hd3|]. split; [exact Hg|]. split_and!; vm_compute; reflexivity.
Defined.

Lemma schedules_stay_within_limits_witness :
  totals 2 sample_db1 /\ days 1 sample_db1 /\ count_day 1 0 None sample_db1 = 1.
Proof.
  destruct (schedules_stay_within_limits (fun k => k) sample_graphemes pretty (seconds 10) 2 1
    in_utc _ _ (sample_first in_utc eq_refl) sample_owned) as [Ht Hd].
  split; [apply Ht; by intros account|]. split; [apply Hd; [done|]; by intros account n|].
  vm_compute. reflexivity.
Defined.

Lemma scheduling_reads_back_when_due_witness :
  exists s, schedules (store_of (create_scheduled_status_request sample_graphemes pretty (seconds 10) 2 1
      (mkAccountId 1) None (Some (mkOffsetTime (seconds 700) 0)) sample_input sample_rest) sample_world sample_db)
    !! ss_id s = Some s.
Proof.
  destruct (scheduling_reads_back_when_due sample_graphemes pretty (seconds 10) 2 1 (mkAccountId 1) None
    (mkOffsetTime (seconds 700) 0) sample_input sample_rest sample_world sample_db
    _ _ sample_owned sample_filed eq_refl (run_eq _ _ _)) as (_ & s & Hs & _).
  by exists s.
Defined.

(** The row of the schedule, and what the worker reads of it. *)
Definition sample_row : ScheduledStatus :=
  default (mkScheduled 0 0 0 sample_post 0 0 0) (schedules sample_db1 !! sample_schedule).
Definition sample_published : StatusInput := read_input sample_input.

Lemma sample_reads : exists w, sample_read (later_world sample_world1) sample_db1 =
  (Ok (ToPublish sample_row sample_published), w, sample_db1).
Proof. eexists. vm_compute. reflexivity. Qed.

Lemma publication_ends_the_schedule_witness :
  schedules sample_db2 !! ss_id sample_row = None /\
  is_Some (statuses sample_db2 !! ss_publication sample_row).
Proof.
  set (m := publish_read sample_graphemes pretty (ToPublish sample_row sample_published) sample_rest).
  assert (Hrun : m (later_world sample_world1) sample_db1 =
      (Ok tt, world_of m (later_world sample_world1) sample_db1, sample_db2)) by (vm_compute; reflexivity).
  assert (Hacc : forall r, schedules sample_db1 !! ss_id sample_row = Some r -> ss_account r = ss_account sample_row).
  { assert (E : schedules sample_db1 !! ss_id sample_row = Some sample_row) by (vm_compute; reflexivity).
    intros r Hr. rewrite E in Hr. by injection Hr as <-. }
  destruct (publication_ends_the_schedule sample_graphemes pretty
    (ToPublish sample_row sample_published) sample_row sample_rest _ _ _ _
    (or_intror (ex_intro _ sample_published eq_refl))
    Hacc ltac:(discriminate) Hrun) as [Hgone _].
  split; [exact Hgone|]. vm_compute. by eexists.
Defined.

(** The owner cancels after the worker has read the schedule. *)
Lemma cancelled_schedule_is_still_published_witness :
  exists w1 w2 d2, delete_scheduled_status pretty (mkAccountId 1) sample_schedule w1 sample_db1 = (Ok OK, w2, d2) /\
    schedules d2 !! sample_schedule = None /\
    exists w3 d3, publish_read sample_graphemes pretty (ToPublish sample_row sample_published) (mkRest None true true)
      w2 d2 = (Ok tt, w3, d3) /\ is_Some (statuses d3 !! ss_publication sample_row).
Proof.
  destruct sample_reads as [w1 Hread].
  set (m := delete_scheduled_status pretty (mkAccountId 1) sample_schedule).
  set (w2 := world_of m w1 sample_db1). set (d2 := store_of m w1 sample_db1).
  assert (Hrun : m w1 sample_db1 = (Ok OK, w2, d2)).
  { unfold w2, d2. rewrite (run_eq m) at 1. f_equal. }
  assert (Hd : owned sample_db1).
  { exact (proj1 (change_owned _ _ _ _ _ _
      (run_change _ _ _ _ _ _ _ _ _ _ _ _ sample_owned (run_eq (sample_run sample_create) sample_world sample_db)) sample_owned)). }
  destruct (cancelled_schedule_is_still_published sample_graphemes pretty (publish_payload sample_schedule) sample_row
    sample_published (later_world sample_world1) sample_db1 w1 w2 d2 Hd Hread eq_refl)
    as (Hgone & w3 & d3 & t & Hpub & Hst); [vm_compute; reflexivity..|exact Hrun|].
  exists w1, w2, d2. split; [exact Hrun|]. split; [exact Hgone|]. exists w3, d3. split; [exact Hpub|]. by rewrite Hst.
Defined.

(** * Idempotency keys *)

Lemma new_key_remembered key_digest graphemes uuid_text minimum_offset total_limit daily_limit
    account k scheduled input rest w d w' d' :
  (r ← create_result graphemes uuid_text minimum_offset total_limit daily_limit account scheduled input rest;
   when (r.2 =? OK) (complete_creation key_digest account k (creation_result scheduled r.1));;
   mret r.2) w d = (Ok OK, w', d') ->
  exists row, creations d' !! creation_key key_digest account k = Some row.
Proof.
  intros H. inv_bind H r w1 d1 H1. inv_bind H u w2 d2 H2. injection H as Hr _ <-. rewrite Hr in H2.
  unfold when in H2. rewrite Z.eqb_refl in H2. unfold complete_creation in H2.
  inv_bind H2 now w3 d3 H3. injection H3 as _ _ <-. inv_bind H2 t w4 d4 H4. injection H4 as _ _ <-.
  injection H2 as _ _ <-. cbn. rewrite lookup_insert_eq. by eexists.
Qed.

(** (Functional.)  Once a creation with a key has been answered 200, a row remembers
    its result; until this row expires, a request of the same account with the same
    key is answered from the result alone, whatever else it contains, and it
    changes nothing. *)
Theorem retry_with_the_key_creates_nothing key_digest graphemes uuid_text minimum_offset total_limit
    daily_limit account k scheduled input rest w d w' d' :
  create_status key_digest graphemes uuid_text minimum_offset total_limit daily_limit
    account (Some k) scheduled input rest w d = (Ok OK, w', d') ->
  exists row, creations d' !! creation_key key_digest account k = Some row /\
    forall scheduled2 input2 rest2 w2 d2,
      creations d2 !! creation_key key_digest account k = Some row ->
      w_clock w2 (w_ticks w2) <= idem_expires_at row ->
      exists w3, create_status key_digest graphemes uuid_text minimum_offset total_limit daily_limit
          account (Some k) scheduled2 input2 rest2 w2 d2 =
        (Ok (existing_status_creation_response account (idem_result row) (rendered rest2) d2), w3, d2).
Proof.
  intros H. unfold create_status in H. destruct (key_accepted k) eqn:Ek; [|done]. cbn [negb] in H.
  assert (Hrow : exists row, creations d' !! creation_key key_digest account k = Some row).
  { inv_bind H e w1 d1 H1. unfold existing_creation in H1. inv_bind H1 now w0 d0 H0.
    injection H0 as _ _ <-. injection H1 as He _ <-.
    destruct (creations d !! creation_key key_digest account k) as [row|] eqn:Erow.
    - cbn in He. destruct (idem_expires_at row <? now).
      + subst e. exact (new_key_remembered _ _ _ _ _ _ _ _ _ _ _ _ _ _ _ H).
      + subst e. injection H as _ _ <-. by exists row.
    - subst e. exact (new_key_remembered _ _ _ _ _ _ _ _ _ _ _ _ _ _ _ H). }
  destruct Hrow as [row Hrow]. exists row. split; [done|]. intros scheduled2 input2 rest2 w2 d2 Hrow2 Hexp.
  eexists. unfold create_status. rewrite Ek. cbn [negb].
  unfold existing_creation, mbind, M_bind, now_utc, gets. cbv beta iota. rewrite Hrow2. cbn [option_bind].
  destruct (idem_expires_at row <? _) eqn:E; [boolp; lia|]. reflexivity.
Qed.

Lemma retry_with_the_key_creates_nothing_witness :
  exists w3, create_status (fun k => k) sample_graphemes pretty (seconds 10) 2 1 (mkAccountId 1)
    (Some "k"%string) None (mkInput sample_post [] None) sample_rest sample_world1 sample_db1 =
    (Ok OK, w3, sample_db1).
Proof.
  set (m := create_status (fun k => k) sample_graphemes pretty (seconds 10) 2 1 (mkAccountId 1)
    (Some "k"%string) (Some (Some (mkOffsetTime (seconds 700) 0))) sample_input sample_rest).
  assert (Hrun : m sample_world sample_db = (Ok OK, world_of m sample_world sample_db, sample_db1)) by reflexivity.
  destruct (retry_with_the_key_creates_nothing _ _ _ _ _ _ _ _ _ _ _ _ _ _ _ Hrun) as (row & Hrow & Hretry).
  assert (Hexp : w_clock sample_world1 (w_ticks sample_world1) <= idem_expires_at row /\
    existing_status_creation_response (mkAccountId 1) (idem_result row) true sample_db1 = OK).
  { vm_compute in Hrow. injection Hrow as <-. by vm_compute. }
  destruct Hexp as [Hexp Hok].
  destruct (Hretry None (mkInput sample_post [] None) sample_rest sample_world1 sample_db1 Hrow Hexp) as [w3 H].
  exists w3. cbn [rendered sample_rest] in H. rewrite Hok in H. exact H.
Defined.

(** A request whose status is stored but cannot be rendered answers 500 and leaves no
    row for its key, so the retry that the key is for stores a second status. *)
Definition sample_now : option (option OffsetTime) -> Rest -> Op Db Z := fun scheduled rest =>
  create_status (fun k => k) sample_graphemes pretty (seconds 10) 2 1 (mkAccountId 1) (Some "k"%string)
    scheduled (mkInput sample_post [] None) rest.

Lemma failed_rendering_forgets_the_key :
  let m := (c1 ← sample_now None (mkRest None true false); c2 ← sample_now None sample_rest; mret (c1, c2)) in
  value_of m sample_world sample_db = Ok (SERVER_ERROR, OK) /\
  size (statuses (store_of m sample_world sample_db)) = 2%nat.
Proof. split; vm_compute; reflexivity. Qed.

(** The retry of a scheduled creation after its publication is answered 404. *)
Lemma retry_after_publication_is_not_found :
  value_of (sample_run sample_create) (later_world sample_world1) sample_db2 = Ok tt /\
  value_of (create_status (fun k => k) sample_graphemes pretty (seconds 10) 2 1 (mkAccountId 1) (Some "k"%string)
    (Some (Some (mkOffsetTime (seconds 700) 0))) sample_input sample_rest) (later_world sample_world1) sample_db2 =
    Ok NOT_FOUND.
Proof. split; vm_compute; reflexivity. Qed.

(** Two schedules on the same UTC day under a daily limit of one: half past midnight in
    UTC is still the day before where the client is. *)
Lemma daily_limit_counts_the_clients_day :
  let t := mkOffsetTime (DAY + seconds 1800) (- seconds 3600) in
  let m := (c1 ← create_scheduled_status_request sample_graphemes pretty (seconds 10) 9 1 (mkAccountId 1) None
              (Some t) (mkInput sample_post [] None) sample_rest;
            c2 ← create_scheduled_status_request sample_graphemes pretty (seconds 10) 9 1 (mkAccountId 1) None
              (Some t) (mkInput sample_post [] None) sample_rest;
            mret (c1, c2)) in
  value_of m sample_world sample_db = Ok (OK, OK) /\
  count_day 1 DAY None (store_of m sample_world sample_db) = 2.
Proof. split; vm_compute; reflexivity. Qed.

(** A poll without text can be posted now but not scheduled. *)
Lemma polls_without_text_cannot_be_scheduled :
  let input := mkInput (mkPost [] Statuses.Public false [] None None None None QuotePublic) []
    (Some (Polls.mkNewStatusPoll [lit "tea"; lit "coffee"] 300 false false)) in
  check_input sample_graphemes true input = None /\
  check_input sample_graphemes false input = Some BAD_REQUEST.
Proof. split; vm_compute; reflexivity. Qed.

(** An edit that names an attachment of a waiting schedule is not refused by its checks:
    the statement that attaches it fails the CHECK of the table, and the answer is 500. *)
Lemma edit_of_reserved_media_is_a_server_error :
  let d := set_statuses (<[101%N := mkStatus 1 sample_post 0 None]> (statuses sample_db1)) sample_db1 in
  (media_schedule <$> media d !! 7%N) = Some (Some sample_schedule) /\
  value_of (update_status sample_graphemes pretty (mkAccountId 1) (mkStatusId 101)
      (mkEdit None None None None None (Some [7%N]) [] None false) false sample_rest) sample_world1 d
    = Ok SERVER_ERROR.
Proof. vm_compute. by split. Qed.
