(* ===== verification/Markup.v ===== *)
(** The text of statuses ([crates/server/src/statuses.rs]): finding mentions, remote
    handles, hashtags and URLs in plain text, and rendering the text as HTML.

    Offsets are bytes of UTF-8, as the code has them; a slice that does not fall on
    character boundaries panics, and here is [None].  The link finder and the parser
    of URLs are arguments, as are the Unicode tables of the standard library
    ([char::is_alphanumeric], [str::to_lowercase]). *)
From S2P Require Import Prelude Core Text.

(** * Slices *)

(** [&s[n..]] *)
Fixpoint slice_from (n : Z) (s : text) : option text :=
  if n =? 0 then Some s
  else match s with
       | [] => None
       | c :: s => if n <? char_len c then None else slice_from (n - char_len c) s
       end.

(** [&s[..n]] *)
Fixpoint slice_to (n : Z) (s : text) : option text :=
  if n =? 0 then Some []
  else match s with
       | [] => None
       | c :: s => if n <? char_len c then None else cons c <$> slice_to (n - char_len c) s
       end.

(** [&s[a..b]] *)
Definition slice (a b : Z) (s : text) : option text :=
  rest ← slice_from a s; if b <? a then None else slice_to (b - a) rest.

(** * Matches *)

Record MentionMatch := mkMention {
  mention_start : Z;
  mention_end : Z;
  mention_username : text;
}.

Record RemoteMentionMatch := mkRemoteMention {
  remote_start : Z;
  remote_end : Z;
  remote_username : text;
  remote_domain : text;
}.

Record HashtagMatch := mkHashtag {
  hashtag_start : Z;
  hashtag_end : Z;
  hashtag_name : text;
}.

Record UrlMatch := mkUrl {
  url_start : Z;
  url_end : Z;
  url_text : text;
}.

Definition AT : Z := 64.
Definition HASH : Z := 35.
Definition NEWLINE : Z := 10.
Definition DOT : Z := 46.

(** The longest prefix of [s] whose characters satisfy [p]. *)
Fixpoint take_run (p : Z -> bool) (s : text) : text :=
  match s with
  | [] => []
  | c :: s => if p c then c :: take_run p s else []
  end.

Definition valid_mention_prefix (previous : option Z) : bool :=
  match previous with
  | None => true
  | Some c => negb (is_ascii_alphanumeric c || (c =? 95) || (c =? AT))
  end.

Definition valid_mention_name_character (c : Z) : bool := is_ascii_alphanumeric c || (c =? 95).

Definition valid_domain_character (c : Z) : bool := is_ascii_alphanumeric c || (c =? DOT) || (c =? 45).

Definition valid_username_length (name : text) : bool := (2 <=? byte_len name) && (byte_len name <=? 30).

(** The loops over the characters of a text.  At a [mark] after a valid prefix, [read]
    looks at what follows: it answers the match, if there is one, and what it has
    consumed.  [previous] is the character before the rest [s], which begins at [offset]. *)
Section Scan.
Context {A : Type} (mark : Z) (valid_prefix : option Z -> bool) (read : Z -> text -> option A * text).

Fixpoint scan (fuel : nat) (previous : option Z) (offset : Z) (s : text) : list A :=
  match fuel, s with
  | O, _ | _, [] => []
  | S fuel, c :: rest =>
      if negb (c =? mark) || negb (valid_prefix previous)
      then scan fuel (Some c) (offset + char_len c) rest
      else
        let '(found, consumed) := read offset rest in
        let whole := c :: consumed in
        match found with Some m => [m] | None => [] end
        ++ scan fuel (last whole) (offset + byte_len whole) (drop (length consumed) rest)
  end.

Definition scan_all (s : text) : list A := scan (length s) None 0 s.
End Scan.

Definition read_mention (start : Z) (rest : text) : option MentionMatch * text :=
  let username := take_run valid_mention_name_character rest in
  let after := drop (length username) rest in
  (if valid_username_length username && negb (bool_decide (head after = Some AT))
   then Some (mkMention start (start + byte_len (AT :: username)) username) else None,
   username).

Definition local_mention_matches : text -> list MentionMatch :=
  scan_all AT valid_mention_prefix read_mention.

Definition read_remote_mention (start : Z) (rest : text) : option RemoteMentionMatch * text :=
  let username := take_run valid_mention_name_character rest in
  match drop (length username) rest with
  | c :: after =>
      if c =? AT then
        let domain := take_run valid_domain_character after in
        let consumed := username ++ AT :: domain in
        (if valid_username_length username && contains_char DOT domain
            && negb (bool_decide (head domain = Some DOT)) && negb (bool_decide (last domain = Some DOT))
         then Some (mkRemoteMention start (start + byte_len (AT :: consumed)) username domain) else None,
         consumed)
      else (None, username)
  | [] => (None, username)
  end.

Definition remote_mention_matches : text -> list RemoteMentionMatch :=
  scan_all AT valid_mention_prefix read_remote_mention.

(** * Escaping *)

Definition escape_char (c : Z) : text :=
  if c =? 38 then lit "&amp;"
  else if c =? 60 then lit "&lt;"
  else if c =? 62 then lit "&gt;"
  else if c =? 34 then lit "&quot;"
  else if c =? 39 then lit "&#39;"
  else [c].

Definition escape_html (value : text) : text := value ≫= escape_char.

(** [str::split_inclusive]: the pieces that end with the separator, and a last one that
    does not. *)
Fixpoint split_inclusive (c : Z) (s : text) : list text :=
  match s with
  | [] => []
  | x :: s =>
      if x =? c then [x] :: split_inclusive c s
      else match split_inclusive c s with
           | piece :: rest => (x :: piece) :: rest
           | [] => [[x]]
           end
  end.

(** [str::strip_suffix] of one character. *)
Definition strip_suffix (c : Z) (s : text) : option text :=
  match reverse s with
  | x :: rest => if x =? c then Some (reverse rest) else None
  | [] => None
  end.

Definition escaped_html_with_breaks (value : text) : text :=
  split_inclusive NEWLINE value ≫= fun segment =>
    match strip_suffix NEWLINE segment with
    | Some stripped => escape_html stripped ++ lit "<br />"
    | None => escape_html segment
    end.

Definition quoted (s : string) : text := [34] ++ lit s ++ [34].

(** [push_url_html]: the scheme and the end of a long URL are not shown. *)
Definition url_prefixes : list text :=
  [lit "https://www."; lit "http://www."; lit "https://"; lit "http://"].

Definition split_url_prefix (url : text) : text * text :=
  match List.find (fun prefix => starts_with prefix url) url_prefixes with
  | Some prefix => (take (length prefix) url, drop (length prefix) url)
  | None => ([], url)
  end.

Definition url_html (url : text) : text :=
  let '(prefix, remainder) := split_url_prefix url in
  let visible := take 30 remainder in
  let suffix := drop 30 remainder in
  let '(visible, suffix, cutoff) :=
    if (length suffix =? 1)%nat then (remainder, [], false)
    else (visible, suffix, negb (bool_decide (suffix = []))) in
  lit "<a href=" ++ [34] ++ escape_html url ++ [34] ++ lit " target=" ++ quoted "_blank"
  ++ lit " rel=" ++ quoted "nofollow noopener" ++ lit " translate=" ++ quoted "no" ++ lit ">"
  ++ lit "<span class=" ++ quoted "invisible" ++ lit ">" ++ escape_html prefix ++ lit "</span><span"
  ++ (if cutoff then lit " class=" ++ quoted "ellipsis" else []) ++ lit ">" ++ escape_html visible ++ lit "</span>"
  ++ (if bool_decide (suffix = []) then []
      else lit "<span class=" ++ quoted "invisible" ++ lit ">" ++ escape_html suffix ++ lit "</span>")
  ++ lit "</a>".

(** * Links *)

Inductive TextLinkMatch : Type :=
| Mention (m : MentionMatch)
| RemoteMention (m : RemoteMentionMatch)
| Hashtag (m : HashtagMatch)
| Url (m : UrlMatch).

Definition link_start (link : TextLinkMatch) : Z :=
  match link with
  | Mention m => mention_start m
  | RemoteMention m => remote_start m
  | Hashtag m => hashtag_start m
  | Url m => url_start m
  end.

Definition link_end (link : TextLinkMatch) : Z :=
  match link with
  | Mention m => mention_end m
  | RemoteMention m => remote_end m
  | Hashtag m => hashtag_end m
  | Url m => url_end m
  end.

(** The sort key [(start, Reverse(end))]. *)
Definition link_le (a b : TextLinkMatch) : bool :=
  (link_start a <? link_start b) || (link_start a =? link_start b) && (link_end b <=? link_end a).

Definition overlaps_url (start end_ : Z) (urls : list UrlMatch) : bool :=
  existsb (fun u => (url_start u <? end_) && (start <? url_end u)) urls.

Section Unicode.
Context (alphanumeric : Z -> bool) (to_lowercase : text -> text)
  (finder_links : text -> list (Z * Z)) (parsed_scheme : text -> option text).

Definition valid_hashtag_prefix (previous : option Z) : bool :=
  match previous with None => true | Some c => negb (alphanumeric c || (c =? 95)) end.

Definition valid_hashtag_character (c : Z) : bool := alphanumeric c || (c =? 95).

Definition read_hashtag (start : Z) (rest : text) : option HashtagMatch * text :=
  let name := take_run valid_hashtag_character rest in
  (if existsb alphanumeric name
   then Some (mkHashtag start (start + byte_len (HASH :: name)) (to_lowercase name)) else None,
   name).

Definition local_hashtag_matches : text -> list HashtagMatch :=
  scan_all HASH valid_hashtag_prefix read_hashtag.

(** A link of the finder is a range of the text. *)
Definition url_matches (content : text) : list UrlMatch :=
  omap (fun range : Z * Z =>
    link ← slice range.1 range.2 content;
    scheme ← parsed_scheme link;
    if bool_decide (scheme = lit "http") || bool_decide (scheme = lit "https")
    then Some (mkUrl range.1 range.2 link) else None) (finder_links content).

Definition mention_usernames (content : text) : list text :=
  let urls := url_matches content in
  mention_username <$>
    List.filter (fun m => negb (overlaps_url (mention_start m) (mention_end m) urls))
      (local_mention_matches content).

(** The elements of a list without those seen before. *)
Fixpoint first_seen (seen names : list text) : list text :=
  match names with
  | [] => []
  | name :: names =>
      if bool_decide (name ∈ seen) then first_seen seen names
      else name :: first_seen (name :: seen) names
  end.

Definition hashtag_names (content : text) : list text :=
  let urls := url_matches content in
  first_seen [] (hashtag_name <$>
    List.filter (fun m => negb (overlaps_url (hashtag_start m) (hashtag_end m) urls))
      (local_hashtag_matches content)).

Definition handle (m : RemoteMentionMatch) : text := remote_username m ++ [AT] ++ remote_domain m.

Definition remote_mention_handles (content : text) : list text :=
  let urls := url_matches content in
  first_seen [] (handle <$>
    List.filter (fun m => negb (overlaps_url (remote_start m) (remote_end m) urls))
      (remote_mention_matches content)).

(** * Rendering *)

(** The accounts and tags that a status links: usernames, handles and names with their
    URLs; of several URLs for one key a [HashMap] keeps the last. *)
Definition url_map (entries : list (text * text)) : gmap text text := list_to_map (reverse entries).

Section Render.
Context (mention_urls remote_mention_urls tag_urls : gmap text text) (content : text).

Definition mention_html (url shown : text) : text :=
  lit "<a href=" ++ [34] ++ escape_html url ++ [34] ++ lit " class=" ++ quoted "u-url mention" ++ lit ">@"
  ++ escape_html shown ++ lit "</a>".

Definition hashtag_html (url name : text) : text :=
  lit "<a href=" ++ [34] ++ escape_html url ++ [34] ++ lit " class=" ++ quoted "mention hashtag"
  ++ lit " rel=" ++ quoted "tag" ++ lit ">#<span>" ++ escape_html name ++ lit "</span></a>".

Definition unlinked (link : TextLinkMatch) : option text :=
  escaped_html_with_breaks <$> slice (link_start link) (link_end link) content.

Definition link_html (link : TextLinkMatch) : option text :=
  match link with
  | Mention m =>
      match mention_urls !! mention_username m with
      | Some url => Some (mention_html url (mention_username m))
      | None => unlinked link
      end
  | RemoteMention m =>
      match remote_mention_urls !! handle m with
      | Some url => Some (mention_html url (handle m))
      | None => unlinked link
      end
  | Hashtag m =>
      match tag_urls !! hashtag_name m with
      | Some url => Some (hashtag_html url (hashtag_name m))
      | None => unlinked link
      end
  | Url m => Some (url_html (url_text m))
  end.

(** All candidates in the order of the sort, which is stable. *)
Definition link_matches : list TextLinkMatch :=
  order_by link_le
    ((Mention <$> local_mention_matches content) ++ (RemoteMention <$> remote_mention_matches content)
     ++ (Hashtag <$> local_hashtag_matches content) ++ (Url <$> url_matches content)).

(** A link that begins before the end of the one rendered last is skipped. *)
Fixpoint render_links (links : list TextLinkMatch) (last : Z) : option text :=
  match links with
  | [] => escaped_html_with_breaks <$> slice_from last content
  | link :: links =>
      if link_start link <? last then render_links links last
      else
        before ← slice last (link_start link) content;
        html ← link_html link;
        after ← render_links links (link_end link);
        Some (escaped_html_with_breaks before ++ html ++ after)
  end.

Definition status_content_html_with_mentions_and_tags : option text :=
  html ← render_links link_matches 0; Some (lit "<p>" ++ html ++ lit "</p>").
End Render.
End Unicode.
