(* ===== verification/MarkupInvariant.v ===== *)
(** What the text of statuses guarantees: which mentions and hashtags the scanners
    find, and that the rendered HTML reads back as the text that was written, with no
    other tags, no attributes and no destinations than those of its links. *)
From S2P Require Import Prelude Core Text Markup.

(** * Offsets *)

Lemma char_len_pos c : 1 <= char_len c.
Proof. unfold char_len. repeat case_match; lia. Qed.

Lemma byte_len_cons c s : byte_len (c :: s) = char_len c + byte_len s.
Proof. reflexivity. Qed.

Lemma byte_len_app a b : byte_len (a ++ b) = byte_len a + byte_len b.
Proof. induction a as [|c a IH]; [done|]. cbn [app]. rewrite !byte_len_cons, IH. lia. Qed.

Lemma byte_len_nonneg s : 0 <= byte_len s.
Proof. induction s as [|c s IH]; [done|]. rewrite byte_len_cons. pose proof (char_len_pos c). lia. Qed.

Lemma byte_len_zero s : byte_len s <= 0 -> s = [].
Proof.
  destruct s as [|c s]; [done|]. rewrite byte_len_cons.
  pose proof (char_len_pos c). pose proof (byte_len_nonneg s). lia.
Qed.

Lemma slice_from_app a b : slice_from (byte_len a) (a ++ b) = Some b.
Proof.
  induction a as [|c a IH]; [by destruct b|]. cbn [app slice_from]. rewrite byte_len_cons.
  pose proof (char_len_pos c). pose proof (byte_len_nonneg a).
  destruct (_ =? 0) eqn:E; [boolp; lia|]. destruct (_ <? _) eqn:E2; [boolp; lia|].
  by replace (char_len c + byte_len a - char_len c) with (byte_len a) by lia.
Qed.

Lemma slice_to_app a b : slice_to (byte_len a) (a ++ b) = Some a.
Proof.
  induction a as [|c a IH]; [by destruct b|]. cbn [app slice_to]. rewrite byte_len_cons.
  pose proof (char_len_pos c). pose proof (byte_len_nonneg a).
  destruct (_ =? 0) eqn:E; [boolp; lia|]. destruct (_ <? _) eqn:E2; [boolp; lia|].
  replace (char_len c + byte_len a - char_len c) with (byte_len a) by lia. by rewrite IH.
Qed.

Lemma slice_app a b c : slice (byte_len a) (byte_len (a ++ b)) (a ++ b ++ c) = Some b.
Proof.
  unfold slice. rewrite slice_from_app. cbn. rewrite byte_len_app.
  pose proof (byte_len_nonneg b). destruct (_ <? _) eqn:E; [boolp; lia|].
  replace (byte_len a + byte_len b - byte_len a) with (byte_len b) by lia. apply slice_to_app.
Qed.

Lemma slice_from_Some n s r : slice_from n s = Some r -> exists a, s = a ++ r /\ n = byte_len a.
Proof.
  revert n. induction s as [|c s IH]; intros n; cbn [slice_from].
  - destruct (n =? 0) eqn:E; [|done]. intros [= <-]. boolp. by exists [].
  - destruct (n =? 0) eqn:E; [intros [= <-]; boolp; by exists []|].
    destruct (n <? char_len c); [done|]. intros (a & -> & Hn)%IH. exists (c :: a).
    split; [done|]. rewrite byte_len_cons. lia.
Qed.

Lemma slice_to_Some n s r : slice_to n s = Some r -> exists b, s = r ++ b /\ n = byte_len r.
Proof.
  revert n r. induction s as [|c s IH]; intros n r; cbn [slice_to].
  - destruct (n =? 0) eqn:E; [|done]. intros [= <-]. boolp. by exists [].
  - destruct (n =? 0) eqn:E; [intros [= <-]; boolp; by exists (c :: s)|].
    destruct (n <? char_len c); [done|]. intros (r' & (b & -> & Hn)%IH & ->)%fmap_Some.
    exists b. split; [done|]. rewrite byte_len_cons. lia.
Qed.

(** The range of [part] in [s]. *)
Definition placed (s : text) (start end_ : Z) (part : text) : Prop :=
  exists before after, s = before ++ part ++ after /\ start = byte_len before /\
    end_ = byte_len (before ++ part).

Lemma slice_placed s a b part : slice a b s = Some part <-> placed s a b part.
Proof.
  split.
  - unfold slice. destruct (slice_from a s) as [r|] eqn:Er; [|done]. cbn.
    apply slice_from_Some in Er as (before & -> & ->). destruct (b <? _) eqn:E; [done|].
    intros (after & -> & Hb)%slice_to_Some. exists before, after. split; [done|]. split; [done|].
    rewrite byte_len_app. lia.
  - intros (before & after & -> & -> & ->). apply slice_app.
Qed.

(** * Scanning *)

Definition last_or (previous : option Z) (s : text) : option Z :=
  match last s with Some c => Some c | None => previous end.

Lemma last_or_cons previous c s : last_or previous (c :: s) = last_or (Some c) s.
Proof. unfold last_or. rewrite last_cons. by destruct (last s). Qed.

Lemma last_or_app previous a b : last_or previous (a ++ b) = last_or (last_or previous a) b.
Proof. unfold last_or. rewrite last_app. by destruct (last b). Qed.

Section Scan.
Context {A : Type} (mark : Z) (valid_prefix : option Z -> bool) (read : Z -> text -> option A * text).

(** What [read] consumes comes from the text and holds no further mark that could begin
    a match. *)
Context (consumes : forall offset rest, exists after, rest = (read offset rest).2 ++ after)
  (no_mark : forall offset rest a b, (read offset rest).2 = a ++ mark :: b ->
     valid_prefix (last (mark :: a)) = false).

Lemma scan_spec fuel previous offset s x : (length s <= fuel)%nat ->
  x ∈ scan mark valid_prefix read fuel previous offset s <->
  exists a b, s = a ++ mark :: b /\ valid_prefix (last_or previous a) = true /\
    (read (offset + byte_len a) b).1 = Some x.
Proof using consumes no_mark.
  revert previous offset s. induction fuel as [|fuel IH]; intros previous offset s Hfuel.
  { destruct s; [|cbn in Hfuel; lia]. cbn. split; [by intros ?%not_elem_of_nil|by intros ([] & ? & ? & _)]. }
  destruct s as [|c rest].
  { cbn. split; [by intros ?%not_elem_of_nil|by intros ([] & ? & ? & _)]. }
  cbn [scan length] in *. destruct (negb (c =? mark) || negb (valid_prefix previous)) eqn:E.
  { rewrite IH by lia. split.
    - intros (a & b & -> & Hp & Hr). exists (c :: a), b. split; [done|]. rewrite last_or_cons.
      split; [done|]. by rewrite byte_len_cons, Z.add_assoc.
    - intros ([|c' a] & b & Heq & Hp & Hr).
      + injection Heq as -> ->. unfold last_or in Hp. cbn in Hp. by rewrite Z.eqb_refl, Hp in E.
      + injection Heq as -> ->. exists a, b. rewrite last_or_cons in Hp. rewrite byte_len_cons, Z.add_assoc in Hr. done. }
  apply orb_false_iff in E as [Ec Ep]. apply negb_false_iff in Ec, Ep. apply Z.eqb_eq in Ec as ->.
  destruct (read offset rest) as [found consumed] eqn:Er.
  destruct (consumes offset rest) as [after Hafter]. rewrite Er in Hafter. cbn in Hafter. subst rest.
  rewrite drop_app_length, elem_of_app, IH by (rewrite length_app in Hfuel; lia). split.
  - intros [Hx|(a & b & -> & Hp & Hr)].
    + destruct found as [y|]; [|by apply not_elem_of_nil in Hx]. apply list_elem_of_singleton in Hx as ->.
      exists [], (consumed ++ after). split; [done|]. split; [done|]. cbn [byte_len foldr].
      by rewrite Z.add_0_r, Er.
    + exists (mark :: consumed ++ a), b. split; [by cbn; rewrite <- app_assoc|].
      rewrite app_comm_cons, last_or_app. unfold last_or at 2. rewrite last_cons.
      split; [by unfold last_or in *; rewrite last_cons in Hp; destruct (last consumed)|].
      by rewrite byte_len_app, Z.add_assoc.
  - intros ([|c a] & b & Heq & Hp & Hr).
    { injection Heq as <-. cbn [byte_len foldr] in Hr. rewrite Z.add_0_r, Er in Hr. cbn in Hr. subst found.
      left. by apply list_elem_of_singleton. }
    injection Heq as <- Heq. right.
    apply app_eq_inv in Heq as [(k & -> & Hk)|(k & -> & Hk)].
    + destruct k as [|m k].
      * cbn in Hk. rewrite app_nil_r. exists [], b. split; [done|]. cbn [byte_len foldr]. rewrite Z.add_0_r.
        split; [by rewrite <- Hp; unfold last_or; rewrite !last_cons; destruct (last a)|].
        by rewrite app_nil_r in *.
      * injection Hk as <- ->. rewrite last_or_cons in Hp.
        assert (Hno : valid_prefix (last (mark :: a)) = false)
          by (apply (no_mark offset ((a ++ mark :: k) ++ after) a k); by rewrite Er).
        rewrite last_cons in Hno. unfold last_or in Hp. destruct (last a); congruence.
    + exists k, b. split; [done|]. rewrite app_comm_cons, last_or_app in Hp.
      split; [by rewrite <- Hp; unfold last_or; rewrite !last_cons; destruct (last consumed)|].
      by rewrite app_comm_cons, byte_len_app, Z.add_assoc in Hr.
Qed.
End Scan.

(** * Runs of characters *)

(** [name] is a run of [p] that what follows does not continue. *)
Definition maximal_run (p : Z -> bool) (name after : text) : Prop :=
  Forall (fun c => p c = true) name /\ (forall c, head after = Some c -> p c = false).

Lemma take_run_split p s : exists after, s = take_run p s ++ after /\ maximal_run p (take_run p s) after.
Proof.
  induction s as [|c s (after & Hs & Hrun & Hmax)]; [by exists []|]. cbn [take_run]. destruct (p c) eqn:E.
  - exists after. split; [by rewrite Hs at 1|]. by split; [constructor|].
  - exists (c :: s). split; [done|]. split; [done|]. by intros ? [= <-].
Qed.

Lemma take_run_maximal p name after : maximal_run p name after -> take_run p (name ++ after) = name.
Proof.
  intros [Hrun Hmax]. induction Hrun as [|c name Hc _ IH]; cbn.
  - destruct after as [|c after]; [done|]. cbn. by rewrite (Hmax c eq_refl).
  - by rewrite Hc, IH.
Qed.

Lemma maximal_run_unique p name after name' after' :
  maximal_run p name after -> maximal_run p name' after' -> name ++ after = name' ++ after' ->
  name = name' /\ after = after'.
Proof.
  intros H%take_run_maximal H'%take_run_maximal E. assert (name = name') as -> by congruence.
  split; [done|]. by apply (app_inv_head name').
Qed.

Lemma run_free (p : Z -> bool) (name a b : text) c : p c = false -> Forall (fun x => p x = true) name -> name <> a ++ c :: b.
Proof. intros Hc Hall ->. apply Forall_app in Hall as [_ Hall]. inversion Hall; subst. congruence. Qed.

Lemma name_character_is_no_prefix c : valid_mention_name_character c = true -> valid_mention_prefix (Some c) = false.
Proof. unfold valid_mention_name_character. cbn. intros ->. by rewrite orb_true_l. Qed.

Lemma last_name name : Forall (fun c => valid_mention_name_character c = true) name ->
  valid_mention_prefix (last (AT :: name)) = false.
Proof.
  intros Hall. rewrite last_cons. destruct (last name) as [c|] eqn:E; [|done].
  apply name_character_is_no_prefix. apply last_Some in E as [l ->].
  apply Forall_app in Hall as [_ Hall]. by inversion Hall.
Qed.

Lemma read_mention_spec start rest m :
  (read_mention start rest).1 = Some m <-> exists name after, rest = name ++ after /\
    maximal_run valid_mention_name_character name after /\ valid_username_length name = true /\
    head after <> Some AT /\ m = mkMention start (start + byte_len (AT :: name)) name.
Proof.
  unfold read_mention. destruct (take_run_split valid_mention_name_character rest) as (after & Hrest & Hmax).
  remember (take_run _ rest) as name eqn:Hn. clear Hn. subst rest. rewrite drop_app_length. cbn. split.
  - destruct (_ && _) eqn:E; [|done]. intros [= <-]. apply andb_true_iff in E as [El Eh].
    apply negb_true_iff, bool_decide_eq_false in Eh. by exists name, after.
  - intros (name' & after' & Heq & Hmax' & Hl & Hh & ->).
    destruct (maximal_run_unique _ _ _ _ _ Hmax Hmax' Heq) as [<- <-].
    by rewrite Hl, bool_decide_eq_false_2.
Qed.

Lemma last_or_None a : last_or None a = last a.
Proof. unfold last_or. by destruct (last a). Qed.

Lemma mention_occurs content m :
  m ∈ local_mention_matches content <-> exists a b, content = a ++ AT :: b /\
    valid_mention_prefix (last a) = true /\ (read_mention (byte_len a) b).1 = Some m.
Proof.
  unfold local_mention_matches, scan_all. rewrite scan_spec; [| | |done].
  - by setoid_rewrite last_or_None.
  - intros offset rest. destruct (take_run_split valid_mention_name_character rest) as (after & E & _).
    by exists after.
  - intros offset rest a b E. exfalso. destruct (take_run_split valid_mention_name_character rest) as (_ & _ & Hall & _).
    by apply (run_free _ _ a b AT eq_refl Hall).
Qed.

(** Letters, digits and underscores. *)
Definition word_character (c : Z) : bool := is_ascii_alphanumeric c || (c =? 95).
Definition domain_character (c : Z) : bool := is_ascii_alphanumeric c || (c =? 46) || (c =? 45).

Lemma mention_prefix_spec before : valid_mention_prefix (last before) = true <->
  (forall c, last before = Some c -> word_character c = false /\ c <> AT).
Proof.
  destruct (last before) as [c|]; cbn; [|by split].
  rewrite negb_true_iff, orb_false_iff, Z.eqb_neq. fold (word_character c). naive_solver.
Qed.

(** A name is ASCII, so it has as many bytes as characters. *)
Lemma username_length_spec name after : maximal_run valid_mention_name_character name after ->
  valid_username_length name = true <-> (2 <= length name <= 30)%nat.
Proof.
  intros [Hall _]. assert (E : byte_len name = Z.of_nat (length name)).
  { induction Hall as [|c name Hc _ IH]; [done|]. rewrite byte_len_cons, IH. cbn [length].
    assert (char_len c = 1); [|lia]. unfold char_len. destruct (c <=? 127) eqn:El; [done|].
    unfold valid_mention_name_character, is_ascii_alphanumeric, is_ascii_digit, is_ascii_lowercase,
      is_ascii_uppercase in Hc. lia. }
  unfold valid_username_length. rewrite E, andb_true_iff, !Z.leb_le. lia.
Qed.

(** (Equivalence.)  The scanner for mentions finds exactly the names of 2 to 30 letters,
    digits and underscores that follow an at sign, are not continued by another such
    character or by a second at sign, and whose at sign does not follow a letter, a digit,
    an underscore or another at sign; and it reports where they are. *)
Theorem local_mentions_are_the_names content m :
  m ∈ local_mention_matches content <->
  exists before name after, content = before ++ (AT :: name) ++ after /\
    (forall c, last before = Some c -> word_character c = false /\ c <> AT) /\
    maximal_run word_character name after /\
    (2 <= length name <= 30)%nat /\ head after <> Some AT /\
    m = mkMention (byte_len before) (byte_len (before ++ AT :: name)) name.
Proof.
  rewrite mention_occurs. setoid_rewrite read_mention_spec. setoid_rewrite mention_prefix_spec. split.
  - intros (a & b & -> & Hp & name & after & -> & Hmax & Hl & Hh & ->). exists a, name, after.
    split; [done|]. split; [done|]. split; [done|]. rewrite byte_len_app.
    by apply (username_length_spec _ _ Hmax) in Hl.
  - intros (a & name & after & -> & Hp & Hmax & Hl & Hh & ->). exists a, (name ++ after).
    split; [done|]. split; [done|]. exists name, after. rewrite byte_len_app.
    by apply (username_length_spec _ _ Hmax) in Hl.
Qed.

Lemma read_remote_spec start rest m :
  (read_remote_mention start rest).1 = Some m <-> exists name domain after, rest = name ++ AT :: domain ++ after /\
    maximal_run valid_mention_name_character name [AT] /\ maximal_run valid_domain_character domain after /\
    valid_username_length name = true /\ contains_char DOT domain = true /\
    head domain <> Some DOT /\ last domain <> Some DOT /\
    m = mkRemoteMention start (start + byte_len (AT :: name ++ AT :: domain)) name domain.
Proof.
  unfold read_remote_mention. destruct (take_run_split valid_mention_name_character rest) as (after & Hrest & Hmax).
  remember (take_run _ rest) as name eqn:Hn. clear Hn. subst rest. rewrite drop_app_length. split.
  - destruct after as [|c after]; [done|]. destruct (Z.eqb_spec c AT) as [->|]; [|done].
    destruct (take_run_split valid_domain_character after) as (after' & Hafter & Hmax').
    remember (take_run _ after) as domain eqn:Hd. clear Hd. subst after. cbn [fst]. destruct (_ && _) eqn:E; [|done]. intros [= <-].
    apply andb_true_iff in E as [E El]. apply andb_true_iff in E as [E Eh]. apply andb_true_iff in E as [E Ec].
    apply negb_true_iff, bool_decide_eq_false in El, Eh. exists name, domain, after'.
    split; [done|]. by split.
  - intros (name' & domain' & after' & Heq & Hmax' & Hmaxd & Hl & Hc & Hh & Hlast & ->).
    assert (Hmax2 : maximal_run valid_mention_name_character name' (AT :: domain' ++ after'))
      by (destruct Hmax' as [? _]; split; [done|by intros c [= <-]]).
    destruct (maximal_run_unique _ _ _ _ _ Hmax Hmax2 Heq) as [<- ->]. rewrite Z.eqb_refl.
    rewrite (take_run_maximal _ _ _ Hmaxd). cbn [fst].
    by rewrite Hl, Hc, !bool_decide_eq_false_2 by done.
Qed.

Lemma remote_occurs content m :
  m ∈ remote_mention_matches content <-> exists a b, content = a ++ AT :: b /\
    valid_mention_prefix (last a) = true /\ (read_remote_mention (byte_len a) b).1 = Some m.
Proof.
  unfold remote_mention_matches, scan_all. rewrite scan_spec; [| | |done].
  - by setoid_rewrite last_or_None.
  - intros offset rest. unfold read_remote_mention.
    destruct (take_run_split valid_mention_name_character rest) as (after & E & _).
    remember (take_run _ rest) as name eqn:Hn. clear Hn. subst rest. rewrite drop_app_length.
    destruct after as [|c after]; [by exists []|]. destruct (Z.eqb_spec c AT) as [->|]; [|by exists (c :: after)].
    destruct (take_run_split valid_domain_character after) as (after' & E' & _). exists after'. cbn [snd].
    rewrite <- app_assoc. cbn. by rewrite <- E'.
  - intros offset rest a b. unfold read_remote_mention.
    destruct (take_run_split valid_mention_name_character rest) as (after & E & Hall & _).
    remember (take_run _ rest) as name eqn:Hn. clear Hn.
    assert (Hname : forall b, name <> a ++ AT :: b) by (intros b'; by apply run_free with (p := valid_mention_name_character)).
    destruct (drop (length name) rest) as [|c after']; [by intros ?%Hname|].
    destruct (c =? AT); [|by intros ?%Hname]. cbn [snd]. intros Heq.
    destruct (take_run_split valid_domain_character after') as (_ & _ & Halld & _).
    apply app_eq_inv in Heq as [(k & -> & Hk)|(k & -> & Hk)].
    + destruct k as [|c' k]; [rewrite app_nil_r in Hall; by apply last_name|].
      injection Hk as <- _. by destruct (Hname k).
    + destruct k as [|c' k]; [rewrite app_nil_r; by apply last_name|].
      injection Hk as <- Hk. exfalso. by apply (run_free _ _ k b AT eq_refl Halld).
Qed.

(** (Equivalence.)  The scanner for remote handles finds exactly the names of such
    characters that follow an at sign and are followed by a second one and the longest
    possible domain of letters, digits, dots and hyphens, which has a dot but neither
    begins nor ends with one. *)
Theorem remote_mentions_are_the_handles content m :
  m ∈ remote_mention_matches content <->
  exists before name domain after, content = before ++ (AT :: name ++ AT :: domain) ++ after /\
    (forall c, last before = Some c -> word_character c = false /\ c <> AT) /\
    maximal_run word_character name [AT] /\ maximal_run domain_character domain after /\
    (2 <= length name <= 30)%nat /\ DOT ∈ domain /\
    head domain <> Some DOT /\ last domain <> Some DOT /\
    m = mkRemoteMention (byte_len before) (byte_len (before ++ AT :: name ++ AT :: domain)) name domain.
Proof.
  rewrite remote_occurs. setoid_rewrite read_remote_spec. setoid_rewrite mention_prefix_spec.
  assert (Hdot : forall domain, contains_char DOT domain = true <-> DOT ∈ domain).
  { intros domain. unfold contains_char. rewrite existsb_exists. setoid_rewrite Z.eqb_eq.
    setoid_rewrite <- list_elem_of_In. naive_solver. }
  setoid_rewrite Hdot. split.
  - intros (a & b & -> & Hp & name & domain & after & -> & Hmax & Hmaxd & Hl & Hrest). exists a, name, domain, after.
    split; [by cbn; rewrite <- app_assoc|]. split; [done|]. split; [done|]. split; [done|].
    rewrite byte_len_app. by apply (username_length_spec _ _ Hmax) in Hl.
  - intros (a & name & domain & after & -> & Hp & Hmax & Hmaxd & Hl & Hrest). exists a, (name ++ AT :: domain ++ after).
    split; [by cbn; rewrite <- app_assoc|]. split; [done|].
    exists name, domain, after. rewrite byte_len_app in Hrest. by apply (username_length_spec _ _ Hmax) in Hl.
Qed.

Section Hashtags.
Context (alphanumeric : Z -> bool) (to_lowercase : text -> text)
  (hash_is_no_letter : alphanumeric HASH = false).

#[local] Abbreviation tag_character := (valid_hashtag_character alphanumeric).

Lemma read_hashtag_spec start rest m :
  (read_hashtag alphanumeric to_lowercase start rest).1 = Some m <-> exists name after, rest = name ++ after /\
    maximal_run tag_character name after /\ existsb alphanumeric name = true /\
    m = mkHashtag start (start + byte_len (HASH :: name)) (to_lowercase name).
Proof.
  unfold read_hashtag. destruct (take_run_split tag_character rest) as (after & Hrest & Hmax).
  remember (take_run _ rest) as name eqn:Hn. clear Hn. subst rest. cbn. split.
  - destruct (existsb _ _) eqn:E; [|done]. intros [= <-]. by exists name, after.
  - intros (name' & after' & Heq & Hmax' & Hl & ->).
    destruct (maximal_run_unique _ _ _ _ _ Hmax Hmax' Heq) as [<- <-]. by rewrite Hl.
Qed.

Lemma hashtag_occurs content m :
  m ∈ local_hashtag_matches alphanumeric to_lowercase content <-> exists a b, content = a ++ HASH :: b /\
    valid_hashtag_prefix alphanumeric (last a) = true /\
    (read_hashtag alphanumeric to_lowercase (byte_len a) b).1 = Some m.
Proof.
  unfold local_hashtag_matches, scan_all. rewrite scan_spec; [| | |done].
  - by setoid_rewrite last_or_None.
  - intros offset rest. destruct (take_run_split tag_character rest) as (after & E & _). by exists after.
  - intros offset rest a b E. exfalso. destruct (take_run_split tag_character rest) as (_ & _ & Hall & _).
    refine (run_free _ _ a b HASH _ Hall E). unfold valid_hashtag_character. by rewrite hash_is_no_letter.
Qed.

(** (Equivalence.)  The scanner for hashtags finds exactly the longest runs of letters,
    digits and underscores with at least one letter or digit that follow a hash sign
    which does not itself follow such a character, and names them in lower case. *)
Theorem hashtags_are_the_names content m :
  m ∈ local_hashtag_matches alphanumeric to_lowercase content <->
  exists before name after, content = before ++ (HASH :: name) ++ after /\
    (forall c, last before = Some c -> alphanumeric c = false /\ c <> 95) /\
    maximal_run (fun c => alphanumeric c || (c =? 95)) name after /\ (exists c, c ∈ name /\ alphanumeric c = true) /\
    m = mkHashtag (byte_len before) (byte_len (before ++ HASH :: name)) (to_lowercase name).
Proof.
  rewrite hashtag_occurs. setoid_rewrite read_hashtag_spec.
  assert (Hletter : forall name, existsb alphanumeric name = true <-> exists c, c ∈ name /\ alphanumeric c = true).
  { intros name. rewrite existsb_exists. by setoid_rewrite <- list_elem_of_In. }
  assert (Hprefix : forall before, valid_hashtag_prefix alphanumeric (last before) = true <->
    (forall c, last before = Some c -> alphanumeric c = false /\ c <> 95)).
  { intros before. destruct (last before) as [c|]; cbn; [|by split].
    rewrite negb_true_iff, orb_false_iff, Z.eqb_neq. naive_solver. }
  setoid_rewrite Hletter. setoid_rewrite Hprefix. split.
  - intros (a & b & -> & Hp & name & after & -> & Hmax & Hl & ->). exists a, name, after.
    split; [done|]. split; [done|]. by rewrite byte_len_app.
  - intros (a & name & after & -> & Hp & Hmax & Hl & ->). exists a, (name ++ after).
    split; [done|]. split; [done|]. exists name, after. by rewrite byte_len_app.
Qed.
End Hashtags.

(** * Reading HTML

    A reader that knows only the tags of statuses and the five entities.  It answers the
    text that is shown, a line break as a newline, and the destinations of the links; it
    refuses every other tag or attribute, a quote or an angle bracket in text, an unknown
    entity, and tags that do not nest. *)

Definition entity (name : text) : option Z :=
  if bool_decide (name = lit "amp") then Some 38
  else if bool_decide (name = lit "lt") then Some 60
  else if bool_decide (name = lit "gt") then Some 62
  else if bool_decide (name = lit "quot") then Some 34
  else if bool_decide (name = lit "#39") then Some 39
  else None.

Definition special (c : Z) : bool := (c =? 60) || (c =? 62) || (c =? 34) || (c =? 39).

(** The value of an attribute; [pending] is an entity that has begun. *)
Fixpoint unescape (pending : option text) (s : text) : option text :=
  match s, pending with
  | [], None => Some []
  | [], Some _ => None
  | c :: s, None =>
      if c =? 38 then unescape (Some []) s
      else if special c then None else cons c <$> unescape None s
  | c :: s, Some name =>
      if c =? 59 then x ← entity name; cons x <$> unescape None s
      else unescape (Some (name ++ [c])) s
  end.

Inductive tag : Type :=
| Opens (name : text) (destination : option text)
| Closes (name : text)
| Break.

(** What follows the destination of a link. *)
Definition link_attributes : list text :=
  [lit " class=" ++ quoted "u-url mention";
   lit " class=" ++ quoted "mention hashtag" ++ lit " rel=" ++ quoted "tag";
   lit " target=" ++ quoted "_blank" ++ lit " rel=" ++ quoted "nofollow noopener" ++ lit " translate=" ++ quoted "no"].

Definition plain_tags : list (text * tag) :=
  [(lit "p", Opens (lit "p") None); (lit "/p", Closes (lit "p"));
   (lit "span", Opens (lit "span") None); (lit "/span", Closes (lit "span"));
   (lit "span class=" ++ quoted "invisible", Opens (lit "span") None);
   (lit "span class=" ++ quoted "ellipsis", Opens (lit "span") None);
   (lit "/a", Closes (lit "a")); (lit "br /", Break)].

Definition tag_of (t : text) : option tag :=
  match List.find (fun entry => bool_decide (entry.1 = t)) plain_tags with
  | Some entry => Some entry.2
  | None =>
      rest ← strip_prefix (lit "a href=" ++ [34]) t;
      parts ← split_once 34 rest;
      if bool_decide (parts.2 ∈ link_attributes)
      then (fun url => Opens (lit "a") (Some url)) <$> unescape None parts.1 else None
  end.

Inductive mode : Type := Plain | Tag (t : text) | Entity (name : text).

Definition shown : Type := text * list text.
Definition show_char (c : Z) (r : shown) : shown := (c :: r.1, r.2).
Definition show_link (url : option text) (r : shown) : shown :=
  (r.1, match url with Some url => url :: r.2 | None => r.2 end).

Fixpoint read_html (open : list text) (m : mode) (h : text) : option shown :=
  match h, m with
  | [], Plain => if bool_decide (open = []) then Some ([], []) else None
  | [], _ => None
  | c :: h, Plain =>
      if c =? 60 then read_html open (Tag []) h
      else if c =? 38 then read_html open (Entity []) h
      else if special c then None
      else show_char c <$> read_html open Plain h
  | c :: h, Tag t =>
      if c =? 62 then
        match tag_of t with
        | Some (Opens name url) => show_link url <$> read_html (name :: open) Plain h
        | Some (Closes name) =>
            match open with
            | inner :: open => if bool_decide (inner = name) then read_html open Plain h else None
            | [] => None
            end
        | Some Break => show_char NEWLINE <$> read_html open Plain h
        | None => None
        end
      else if c =? 60 then None
      else read_html open (Tag (t ++ [c])) h
  | c :: h, Entity name =>
      if c =? 59 then
        match entity name with
        | Some x => show_char x <$> read_html open Plain h
        | None => None
        end
      else read_html open (Entity (name ++ [c])) h
  end.

(** [h] shows [s] and links to [urls], wherever it stands. *)
Definition shows (h s : text) (urls : list text) : Prop := forall open rest,
  read_html open Plain (h ++ rest) = (fun r : shown => (s ++ r.1, urls ++ r.2)) <$> read_html open Plain rest.

Lemma shows_nil : shows [] [] [].
Proof. intros open rest. cbn. by destruct (read_html open Plain rest) as [[]|]. Qed.

Lemma shows_app h1 s1 u1 h2 s2 u2 : shows h1 s1 u1 -> shows h2 s2 u2 -> shows (h1 ++ h2) (s1 ++ s2) (u1 ++ u2).
Proof.
  intros H1 H2 open rest. rewrite <- !app_assoc, H1, H2.
  destruct (read_html open Plain rest) as [[]|]; cbn; by rewrite ?app_assoc.
Qed.

Lemma read_tag open t t' rest :
  Forall (fun c => c <> 60 /\ c <> 62) t' ->
  read_html open (Tag t) (t' ++ 62 :: rest) = read_html open (Tag (t ++ t')) (62 :: rest).
Proof.
  intros H. revert t. induction H as [|c t' [H1 H2] _ IH]; intros t; [by rewrite app_nil_r|].
  cbn [app read_html]. apply Z.eqb_neq in H1, H2. rewrite H1, H2, IH. by rewrite <- app_assoc.
Qed.

(** An element: an opening tag, what it holds, and its closing tag. *)
Lemma shows_element t name url h s urls close :
  Forall (fun c => c <> 60 /\ c <> 62) t -> tag_of t = Some (Opens name url) ->
  Forall (fun c => c <> 60 /\ c <> 62) close -> tag_of close = Some (Closes name) ->
  shows h s urls ->
  shows (lit "<" ++ t ++ lit ">" ++ h ++ lit "<" ++ close ++ lit ">") s
    (match url with Some url => url :: urls | None => urls end).
Proof.
  intros Ht Htag Hc Hclose Hs open rest. change (lit "<") with [60]. change (lit ">") with [62].
  rewrite <- !app_assoc. cbn [app read_html].
  change (60 =? 60) with true. cbv iota.
  rewrite (read_tag _ [] t) by done. cbn [app read_html]. change (62 =? 62) with true. cbv iota.
  rewrite Htag, Hs. cbn [read_html]. change (60 =? 60) with true. cbv iota.
  rewrite (read_tag _ [] close) by done. cbn [app read_html]. change (62 =? 62) with true. cbv iota.
  rewrite Hclose, bool_decide_eq_true_2 by done.
  destruct (read_html open Plain rest) as [[]|]; [|done]. cbn. unfold show_link. by destruct url.
Qed.

(** * Escaped text *)

Lemma shows_escaped_char c : shows (escape_char c) [c] [].
Proof.
  intros open rest. unfold escape_char.
  destruct (Z.eqb_spec c 38) as [->|H1]; [by cbn; destruct (read_html open Plain rest) as [[]|]|].
  destruct (Z.eqb_spec c 60) as [->|H2]; [by cbn; destruct (read_html open Plain rest) as [[]|]|].
  destruct (Z.eqb_spec c 62) as [->|H3]; [by cbn; destruct (read_html open Plain rest) as [[]|]|].
  destruct (Z.eqb_spec c 34) as [->|H4]; [by cbn; destruct (read_html open Plain rest) as [[]|]|].
  destruct (Z.eqb_spec c 39) as [->|H5]; [by cbn; destruct (read_html open Plain rest) as [[]|]|].
  cbn [app read_html]. unfold special. apply Z.eqb_neq in H1, H2, H3, H4, H5. rewrite H2, H1, H3, H4, H5. cbn.
  by destruct (read_html open Plain rest) as [[]|].
Qed.

Lemma shows_escaped s : shows (escape_html s) s [].
Proof.
  unfold escape_html. induction s as [|c s IH]; [apply shows_nil|].
  exact (shows_app _ [c] [] _ s [] (shows_escaped_char c) IH).
Qed.

Lemma unescape_escaped s rest : unescape None (escape_html s ++ rest) = (app s) <$> unescape None rest.
Proof.
  unfold escape_html. induction s as [|c s IH]; [by cbn; destruct (unescape None rest)|].
  cbn [mbind list_bind]. rewrite <- app_assoc.
  assert (Hc : forall r, unescape None (escape_char c ++ r) = cons c <$> unescape None r).
  { intros r. unfold escape_char. destruct (Z.eqb_spec c 38) as [->|H1]; [by cbn; destruct (unescape None r)|].
    destruct (Z.eqb_spec c 60) as [->|H2]; [by cbn; destruct (unescape None r)|].
    destruct (Z.eqb_spec c 62) as [->|H3]; [by cbn; destruct (unescape None r)|].
    destruct (Z.eqb_spec c 34) as [->|H4]; [by cbn; destruct (unescape None r)|].
    destruct (Z.eqb_spec c 39) as [->|H5]; [by cbn; destruct (unescape None r)|].
    cbn [app unescape]. unfold special. apply Z.eqb_neq in H1, H2, H3, H4, H5. by rewrite H1, H2, H3, H4, H5. }
  rewrite Hc, IH. by destruct (unescape None rest).
Qed.

Lemma escaped_free s c : In c [60; 62; 34; 39] -> Forall (fun x => x <> c) (escape_html s).
Proof.
  intros Hc. unfold escape_html. induction s as [|x s IH]; [constructor|]. cbn. apply Forall_app. split; [|exact IH].
  unfold escape_char. repeat case_match; boolp; repeat constructor; cbn in Hc; intros E; subst;
    decompose [or] Hc; subst; try lia; try done.
Qed.

Lemma tag_of_link url attributes : In attributes link_attributes ->
  tag_of ((lit "a href=" ++ [34]) ++ escape_html url ++ [34] ++ attributes) = Some (Opens (lit "a") (Some url)).
Proof.
  intros Hin. unfold tag_of. cbn [List.find plain_tags].
  rewrite !bool_decide_eq_false_2 by (intros E; discriminate E). rewrite strip_prefix_app. cbn [mbind option_bind].
  cbn [app]. rewrite split_once_free by (by apply escaped_free; cbn; tauto). cbn [mbind option_bind fst snd].
  rewrite bool_decide_eq_true_2 by (by apply list_elem_of_In).
  rewrite <- (app_nil_r (escape_html url)), unescape_escaped. cbn. by rewrite app_nil_r.
Qed.

Lemma attributes_free attributes c : In attributes link_attributes -> In c [60; 62] ->
  Forall (fun x => x <> c) attributes.
Proof.
  intros Ha Hc. cbn in Ha, Hc. destruct Ha as [<-|[<-|[<-|[]]]]; destruct Hc as [<-|[<-|[]]];
    (apply Forall_forall; intros x Hx ->; revert Hx; apply (bool_decide_unpack _); vm_compute; exact I).
Qed.

Lemma shows_link url attributes h s urls : In attributes link_attributes -> shows h s urls ->
  shows (lit "<a href=" ++ [34] ++ escape_html url ++ [34] ++ attributes ++ lit ">" ++ h ++ lit "</a>")
    s (url :: urls).
Proof.
  intros Ha Hs. pose proof (shows_element ((lit "a href=" ++ [34]) ++ escape_html url ++ [34] ++ attributes)
    (lit "a") (Some url) h s urls (lit "/a")) as H.
  assert (E : forall x, lit "<a href=" ++ [34] ++ x = lit "<" ++ (lit "a href=" ++ [34]) ++ x) by done.
  rewrite E. revert H. rewrite <- !app_assoc. intros H.
  apply H; [|rewrite app_assoc; by apply tag_of_link|by repeat constructor|reflexivity|done].
  repeat (apply Forall_app; split);
    first [by repeat constructor
      |apply Forall_and; split; apply escaped_free; cbn; tauto
      |apply Forall_and; split; apply attributes_free; cbn; tauto].
Qed.

Lemma shows_span t h s urls :
  In (t, Opens (lit "span") None) plain_tags -> shows h s urls ->
  shows (lit "<" ++ t ++ lit ">" ++ h ++ lit "</span>") s urls.
Proof.
  intros Ht Hs. apply (shows_element t (lit "span") None h s urls (lit "/span"));
    [| |by repeat constructor|reflexivity|done];
    cbn in Ht; decompose [or] Ht; simplify_eq; try done; by repeat constructor.
Qed.

(** Line breaks and everything else of a piece of text. *)
Lemma split_inclusive_filled c s : Forall (fun piece => piece <> []) (split_inclusive c s).
Proof.
  induction s as [|x s IH]; cbn; [done|]. destruct (x =? c); [by constructor|].
  destruct IH; by repeat constructor.
Qed.

Lemma strip_suffix_cons c x s : s <> [] -> strip_suffix c (x :: s) = cons x <$> strip_suffix c s.
Proof.
  intros Hs. unfold strip_suffix. rewrite reverse_cons. destruct (reverse s) as [|y r] eqn:E.
  { destruct Hs. by rewrite <- (reverse_involutive s), E. }
  cbn. destruct (y =? c); [|done]. cbn. by rewrite reverse_snoc.
Qed.

Lemma escaped_html_with_breaks_chars s :
  escaped_html_with_breaks s = s ≫= fun c => if c =? NEWLINE then lit "<br />" else escape_char c.
Proof.
  unfold escaped_html_with_breaks. induction s as [|x s IH]; [done|]. cbn [mbind list_bind]. rewrite <- IH.
  cbn [split_inclusive]. destruct (Z.eqb_spec x NEWLINE) as [->|Hx]; [done|].
  pose proof (split_inclusive_filled NEWLINE s) as Hfilled.
  destruct (split_inclusive NEWLINE s) as [|piece pieces].
  - cbn [mbind list_bind]. apply Z.eqb_neq in Hx.
    change (strip_suffix NEWLINE [x]) with (if x =? NEWLINE then Some (@nil Z) else None). rewrite Hx.
    by rewrite app_nil_r.
  - inversion Hfilled as [|? ? Hpiece _]; subst. cbn [mbind list_bind].
    rewrite (strip_suffix_cons _ _ _ Hpiece).
    assert (E : forall p, escape_html (x :: p) = escape_char x ++ escape_html p) by done.
    by destruct (strip_suffix NEWLINE piece); cbn [fmap option_fmap option_map]; rewrite E, <- !app_assoc.
Qed.

Lemma shows_breaks s : shows (escaped_html_with_breaks s) s [].
Proof.
  rewrite escaped_html_with_breaks_chars. induction s as [|c s IH]; [apply shows_nil|].
  apply (shows_app _ [c] [] _ s []); [|exact IH]. destruct (Z.eqb_spec c NEWLINE) as [->|_].
  - intros open rest. cbn. by destruct (read_html open Plain rest) as [[]|].
  - apply shows_escaped_char.
Qed.

(** * Links *)

Lemma shows_mention url name : shows (mention_html url name) (AT :: name) [url].
Proof.
  unfold mention_html.
  pose proof (shows_link url (lit " class=" ++ quoted "u-url mention") ([AT] ++ escape_html name) (AT :: name) []) as H.
  revert H. rewrite <- !app_assoc. intros H. apply H; [by left|].
  apply (shows_app [AT] [AT] [] _ name []); [|apply shows_escaped].
  intros open rest. cbn. by destruct (read_html open Plain rest) as [[]|].
Qed.

Lemma shows_hashtag url name : shows (hashtag_html url name) (HASH :: name) [url].
Proof.
  unfold hashtag_html.
  pose proof (shows_link url (lit " class=" ++ quoted "mention hashtag" ++ lit " rel=" ++ quoted "tag")
    ([HASH] ++ lit "<" ++ lit "span" ++ lit ">" ++ escape_html name ++ lit "</span>") (HASH :: name) []) as H.
  revert H. rewrite <- !app_assoc. intros H. apply H; [by right; left|].
  apply (shows_app [HASH] [HASH] [] _ name []).
  - intros open rest. cbn. by destruct (read_html open Plain rest) as [[]|].
  - apply shows_span; [by do 2 right; left|apply shows_escaped].
Qed.

Lemma split_url_prefix_app url : (split_url_prefix url).1 ++ (split_url_prefix url).2 = url.
Proof. unfold split_url_prefix. destruct (List.find _ _); [apply take_drop|done]. Qed.

Lemma shows_url url : shows (url_html url) url [url].
Proof.
  unfold url_html. pose proof (split_url_prefix_app url) as Hsplit.
  destruct (split_url_prefix url) as [prefix remainder]. cbn [fst snd] in Hsplit.
  assert (Hparts : forall visible suffix (cutoff : bool), visible ++ suffix = remainder ->
    shows (lit "<span class=" ++ quoted "invisible" ++ lit ">" ++ escape_html prefix ++ lit "</span><span"
      ++ (if cutoff then lit " class=" ++ quoted "ellipsis" else []) ++ lit ">" ++ escape_html visible ++ lit "</span>"
      ++ (if bool_decide (suffix = []) then []
          else lit "<span class=" ++ quoted "invisible" ++ lit ">" ++ escape_html suffix ++ lit "</span>"))
      url []).
  { intros visible suffix cutoff <-. rewrite <- Hsplit.
    pose proof (shows_span (lit "span class=" ++ quoted "invisible") (escape_html prefix) prefix []) as H1.
    pose proof (shows_span (lit "span" ++ if cutoff then lit " class=" ++ quoted "ellipsis" else [])
      (escape_html visible) visible []) as H2.
    pose proof (shows_span (lit "span class=" ++ quoted "invisible") (escape_html suffix) suffix []) as H3.
    specialize (H1 ltac:(cbn; tauto) (shows_escaped prefix)).
    specialize (H2 ltac:(destruct cutoff; cbn; tauto) (shows_escaped visible)).
    specialize (H3 ltac:(cbn; tauto) (shows_escaped suffix)).
    assert (H4 : shows (if bool_decide (suffix = []) then []
        else lit "<span class=" ++ quoted "invisible" ++ lit ">" ++ escape_html suffix ++ lit "</span>") suffix []).
    { case_bool_decide as E; [subst; apply shows_nil|]. revert H3. by rewrite <- !app_assoc. }
    pose proof (shows_app _ _ _ _ _ _ H1 (shows_app _ _ _ _ _ _ H2 H4)) as H. revert H.
    rewrite <- !app_assoc. exact id. }
  set (tail := if (length (drop 30 remainder) =? 1)%nat then _ else _).
  assert (Htail : tail.1.1 ++ tail.1.2 = remainder).
  { unfold tail. destruct (_ =? _)%nat; cbn; [apply app_nil_r|apply take_drop]. }
  destruct tail as [[visible suffix] cutoff]. cbn [fst snd] in Htail.
  pose proof (shows_link url (lit " target=" ++ quoted "_blank" ++ lit " rel=" ++ quoted "nofollow noopener"
    ++ lit " translate=" ++ quoted "no") _ _ _ ltac:(cbn; tauto) (Hparts visible suffix cutoff Htail)) as H.
  revert H. rewrite <- !app_assoc. exact id.
Qed.

(** * Rendering *)

(** [s'] is [s] with some hashtags in lower case. *)
Inductive lowered (to_lowercase : text -> text) : text -> text -> Prop :=
| lowered_nil : lowered to_lowercase [] []
| lowered_char c s s' : lowered to_lowercase s s' -> lowered to_lowercase (c :: s) (c :: s')
| lowered_tag name s s' : lowered to_lowercase s s' ->
    lowered to_lowercase (HASH :: name ++ s) (HASH :: to_lowercase name ++ s').

Lemma lowered_refl f s : lowered f s s.
Proof. induction s; by constructor. Qed.

Lemma lowered_app f a a' b b' : lowered f a a' -> lowered f b b' -> lowered f (a ++ b) (a' ++ b').
Proof.
  intros Ha Hb. induction Ha as [|c s s' _ IH|name s s' _ IH]; cbn; [done|by constructor|].
  rewrite <- !app_assoc. by constructor.
Qed.

Section Rendering.
Context (alphanumeric : Z -> bool) (to_lowercase : text -> text)
  (finder_links : text -> list (Z * Z)) (parsed_scheme : text -> option text)
  (hash_is_no_letter : alphanumeric HASH = false)
  (mention_urls remote_mention_urls tag_urls : gmap text text) (content : text).

#[local] Abbreviation links :=
  (link_matches alphanumeric to_lowercase finder_links parsed_scheme content).
#[local] Abbreviation html_of := (link_html mention_urls remote_mention_urls tag_urls content).
#[local] Abbreviation rendered_from := (render_links mention_urls remote_mention_urls tag_urls content).

(** A destination that a status may link to: the page of an account or of a hashtag, or a
    part of the text that parses as a web address. *)
Definition known (url : text) : Prop :=
  (exists key, mention_urls !! key = Some url) \/ (exists key, remote_mention_urls !! key = Some url) \/
  (exists key, tag_urls !! key = Some url) \/
  (exists a b, placed content a b url) /\
    (parsed_scheme url = Some (lit "http") \/ parsed_scheme url = Some (lit "https")).

(** A link, where it stands and what it is rendered as. *)
Definition good_link (link : TextLinkMatch) : Prop := exists part html s urls,
  placed content (link_start link) (link_end link) part /\ html_of link = Some html /\
  shows html s urls /\ lowered to_lowercase part s /\ Forall known urls.

Lemma unlinked_good link part :
  placed content (link_start link) (link_end link) part ->
  exists html s urls, unlinked content link = Some html /\ shows html s urls /\
    lowered to_lowercase part s /\ Forall known urls.
Proof.
  intros Hp. pose proof Hp as Hs%slice_placed. unfold unlinked. rewrite Hs.
  exists (escaped_html_with_breaks part), part, []. split; [done|]. split; [apply shows_breaks|].
  split; [apply lowered_refl|constructor].
Qed.

Lemma mention_good m : m ∈ local_mention_matches content -> good_link (Mention m).
Proof.
  intros (a & b & Hc & _ & (name & after & -> & _ & _ & _ & ->)%read_mention_spec)%mention_occurs.
  assert (Hp : placed content (byte_len a) (byte_len a + byte_len (AT :: name)) (AT :: name)).
  { exists a, after. by rewrite byte_len_app. }
  exists (AT :: name). cbn [link_start link_end link_html mention_username mention_start mention_end].
  destruct (mention_urls !! name) as [url|] eqn:E.
  - exists (mention_html url name), (AT :: name), [url]. split; [done|]. split; [done|].
    split; [apply shows_mention|]. split; [apply lowered_refl|]. constructor; [left; by exists name|constructor].
  - destruct (unlinked_good (Mention (mkMention _ _ name)) _ Hp) as (html & s & urls & H).
    by exists html, s, urls.
Qed.

Lemma remote_good m : m ∈ remote_mention_matches content -> good_link (RemoteMention m).
Proof.
  intros (a & b & Hc & _ & (name & domain & after & -> & _ & _ & _ & _ & _ & _ & ->)%read_remote_spec)%remote_occurs.
  assert (Hp : placed content (byte_len a) (byte_len a + byte_len (AT :: name ++ AT :: domain)) (AT :: name ++ AT :: domain)).
  { exists a, after. split; [by rewrite Hc; cbn; rewrite <- app_assoc|]. by rewrite byte_len_app. }
  exists (AT :: name ++ AT :: domain). cbn [link_start link_end link_html remote_start remote_end].
  unfold handle. cbn [remote_username remote_domain].
  destruct (remote_mention_urls !! (name ++ [AT] ++ domain)) as [url|] eqn:E.
  - exists (mention_html url (name ++ [AT] ++ domain)), (AT :: name ++ AT :: domain), [url].
    split; [done|]. split; [done|]. split; [apply shows_mention|]. split; [apply lowered_refl|].
    constructor; [right; left; by eexists|constructor].
  - destruct (unlinked_good (RemoteMention (mkRemoteMention _ _ name domain)) _ Hp) as (html & s & urls & H).
    by exists html, s, urls.
Qed.

Lemma hashtag_good m : m ∈ local_hashtag_matches alphanumeric to_lowercase content -> good_link (Hashtag m).
Proof using hash_is_no_letter.
  intros (a & b & Hc & _ & (name & after & -> & _ & _ & ->)%read_hashtag_spec)%hashtag_occurs; [|done].
  assert (Hp : placed content (byte_len a) (byte_len a + byte_len (HASH :: name)) (HASH :: name)).
  { exists a, after. by rewrite byte_len_app. }
  exists (HASH :: name). cbn [link_start link_end link_html hashtag_name hashtag_start hashtag_end].
  destruct (tag_urls !! to_lowercase name) as [url|] eqn:E.
  - exists (hashtag_html url (to_lowercase name)), (HASH :: to_lowercase name), [url]. split; [done|]. split; [done|].
    split; [apply shows_hashtag|].
    split; [|constructor; [do 2 right; left; by eexists|constructor]].
    pose proof (lowered_tag to_lowercase name [] [] (lowered_nil _)) as H. by rewrite !app_nil_r in H.
  - destruct (unlinked_good (Hashtag (mkHashtag _ _ (to_lowercase name))) _ Hp) as (html & s & urls & H).
    by exists html, s, urls.
Qed.

Lemma url_good u : u ∈ url_matches finder_links parsed_scheme content -> good_link (Url u).
Proof.
  unfold url_matches. intros ([start end_] & _ & Hu)%list_elem_of_omap. cbn [fst snd] in Hu.
  destruct (slice start end_ content) as [url|] eqn:Es; [|done]. cbn in Hu.
  destruct (parsed_scheme url) as [scheme|] eqn:Ep; [|done]. cbn in Hu.
  destruct (_ || _) eqn:E; [|done]. injection Hu as <-. apply slice_placed in Es.
  exists url, (url_html url), url, [url]. split; [done|]. split; [done|]. split; [apply shows_url|].
  split; [apply lowered_refl|]. constructor; [|constructor]. do 3 right. split; [by eexists _, _|].
  apply orb_true_iff in E as [->%bool_decide_eq_true| ->%bool_decide_eq_true]; tauto.
Qed.

Lemma links_good : Forall good_link links.
Proof using hash_is_no_letter.
  apply Forall_forall. intros link Hin. unfold link_matches in Hin. rewrite order_by_Permutation in Hin.
  repeat (apply elem_of_app in Hin as [Hin|Hin]); apply list_elem_of_fmap in Hin as (m & -> & Hm);
    [by apply mention_good|by apply remote_good|by apply hashtag_good|by apply url_good].
Qed.

(** Two ways to cut a text, the second further to the right. *)
Lemma cut_further (a b c d : text) : a ++ b = c ++ d -> byte_len a <= byte_len c ->
  exists k, c = a ++ k /\ b = k ++ d.
Proof.
  intros [(k & -> & ->)|(k & -> & ->)]%app_eq_inv Hle; [|by exists k].
  rewrite byte_len_app in Hle. rewrite (byte_len_zero k) by lia. exists []. by rewrite !app_nil_r.
Qed.

(** What follows a point between two links is rendered, to the end. *)
Lemma rest_rendered ls before rest :
  Forall good_link ls -> content = before ++ rest ->
  exists html s urls, rendered_from ls (byte_len before) = Some html /\ shows html s urls /\
    lowered to_lowercase rest s /\ Forall known urls.
Proof.
  intros Hls. revert before rest.
  induction Hls as [|link ls (part & lhtml & ls' & lurls & (a & b & Hc & Ha & Hb) & Hhtml & Hshows & Hlow & Hknown) _ IH];
    intros before rest Hcontent; cbn [render_links].
  { rewrite Hcontent, slice_from_app. exists (escaped_html_with_breaks rest), rest, [].
    split; [done|]. split; [apply shows_breaks|]. split; [apply lowered_refl|constructor]. }
  destruct (link_start link <? byte_len before) eqn:E; [by apply IH|]. boolp. rewrite Ha in E |- *.
  destruct (cut_further before rest a (part ++ b)) as (k & -> & ->); [congruence|done|].
  assert (Hslice : slice (byte_len before) (byte_len (before ++ k)) content = Some k)
    by (rewrite Hcontent; apply slice_app).
  rewrite Hb, Hhtml, Hslice. cbn [mbind option_bind].
  destruct (IH ((before ++ k) ++ part) b) as (html & s & urls & Hr & Hs & Hl & Hk); [by rewrite <- !app_assoc|].
  rewrite Hr. cbn [mbind option_bind]. eexists _, (k ++ ls' ++ s), (lurls ++ urls). split; [done|].
  split; [exact (shows_app _ _ [] _ _ _ (shows_breaks k) (shows_app _ _ _ _ _ _ Hshows Hs))|].
  split; [|by apply Forall_app]. apply lowered_app; [apply lowered_refl|]. by apply lowered_app.
Qed.

(** C11. (Roundtrip.)  Rendering a status never fails, whatever it contains.  A reader that
    knows only the paragraph, the line breaks, the spans and the links of statuses and
    five entities accepts the result; what it shows is the text of the status, to the
    character, except that hashtags may be in lower case; and every link leads to
    the page of a mentioned account, of a hashtag, or to a part of the text that
    parses as an http or https URL.  So no status can bring markup of its own into a
    page. *)
Theorem status_html_shows_its_text : exists html shown urls,
  status_content_html_with_mentions_and_tags alphanumeric to_lowercase finder_links parsed_scheme
    mention_urls remote_mention_urls tag_urls content = Some html /\
  read_html [] Plain html = Some (shown, urls) /\ lowered to_lowercase content shown /\ Forall known urls.
Proof using hash_is_no_letter.
  destruct (rest_rendered links [] content links_good eq_refl) as (html & s & urls & Hr & Hs & Hl & Hk).
  exists (lit "<p>" ++ html ++ lit "</p>"), s, urls. unfold status_content_html_with_mentions_and_tags.
  change (byte_len []) with 0 in Hr. rewrite Hr. split; [done|]. split; [|done].
  pose proof (shows_element (lit "p") (lit "p") None html s urls (lit "/p")) as H.
  specialize (H ltac:(by repeat constructor) eq_refl ltac:(by repeat constructor) eq_refl Hs [] []).
  cbn [read_html] in H. rewrite bool_decide_eq_true_2 in H by done. cbn in H. rewrite !app_nil_r in H. exact H.
Qed.
End Rendering.

(** * Samples *)

Definition no_links (_ : text) : list (Z * Z) := [].
Definition no_scheme (_ : text) : option text := None.
Definition web_scheme (_ : text) : option text := Some (lit "https").

Example mentions_of_a_text :
  mention_usernames no_links no_scheme (lit "@alice test x@y @bo_b") = [lit "alice"; lit "bo_b"] /\
  mention_usernames no_links no_scheme (lit "@alice@example.test") = [] /\
  remote_mention_handles no_links no_scheme (lit "hello @alice@example.test!") = [lit "alice@example.test"] /\
  mention_usernames (fun _ => [(0, 28)]) web_scheme (lit "https://example.test/@alice @bob") = [lit "bob"].
Proof. by vm_compute. Qed.

Example hashtags_of_a_text :
  hashtag_names is_ascii_alphanumeric to_ascii_lowercase no_links no_scheme
    (lit "#Rust text##ignored word#skip #web_dev") = [lit "rust"; lit "ignored"; lit "web_dev"] /\
  hashtag_names is_ascii_alphanumeric to_ascii_lowercase (fun _ => [(0, 28)]) web_scheme
    (lit "https://example.test/#inside #outside") = [lit "outside"].
Proof. by vm_compute. Qed.

Definition sample_text : text := lit "<b> @alice & #Rust https://www.example.test/abcdefghijklmnopqrstuvwxyz0123456789" ++ [NEWLINE] ++ lit "end".
Definition sample_html : option text :=
  status_content_html_with_mentions_and_tags is_ascii_alphanumeric to_ascii_lowercase
    (fun _ => [(19, 80)]) web_scheme {[lit "alice" := lit "https://me/@alice"]} ∅
    {[lit "rust" := lit "https://me/tags/rust"]} sample_text.

Example sample_html_reads : sample_html ≫= read_html [] Plain =
  Some (lit "<b> @alice & #rust https://www.example.test/abcdefghijklmnopqrstuvwxyz0123456789" ++ [NEWLINE] ++ lit "end",
        [lit "https://me/@alice"; lit "https://me/tags/rust";
         lit "https://www.example.test/abcdefghijklmnopqrstuvwxyz0123456789"]).
Proof. by vm_compute. Qed.

(** A handle at the end of a sentence is not found: the full stop counts as part of the
    domain, which must not end with one. *)
Example handle_before_a_full_stop_is_missed :
  remote_mention_handles no_links no_scheme (lit "I know @alice@example.test.") = [] /\
  remote_mention_handles no_links no_scheme (lit "I know @alice@example.test!") = [lit "alice@example.test"].
Proof. by vm_compute. Qed.

(** The reader refuses what a status must not contain. *)
Example markup_is_refused :
  read_html [] Plain (lit "<p><script>alert(1)</script></p>") = None /\
  read_html [] Plain (lit "<p><a href=" ++ quoted "x" ++ lit " onclick=" ++ quoted "y" ++ lit ">z</a></p>") = None /\
  read_html [] Plain (lit "<p></span></p>") = None.
Proof. by vm_compute. Qed.

Lemma hashtags_are_the_names_witness :
  mkHashtag 0 5 (lit "rust") ∈
    local_hashtag_matches is_ascii_alphanumeric to_ascii_lowercase (lit "#Rust!") /\
  mkHashtag 0 4 (lit "rus") ∉
    local_hashtag_matches is_ascii_alphanumeric to_ascii_lowercase (lit "#Rust!").
Proof.
  split.
  - apply (hashtags_are_the_names is_ascii_alphanumeric to_ascii_lowercase eq_refl).
    exists [], (lit "Rust"), (lit "!"). split; [done|]. split; [by intros c|].
    split; [split; [by repeat constructor|by intros c [= <-]]|]. split; [exists 82; split; [left|done]|done].
  - intros (before & name & after & Hc & _ & Hmax & _ & Hm)%(hashtags_are_the_names is_ascii_alphanumeric
      to_ascii_lowercase eq_refl).
    destruct before as [|b before].
    + injection Hc as Hc. assert (Hmax' : maximal_run (fun c => is_ascii_alphanumeric c || (c =? 95)) (lit "Rust") (lit "!")).
      { split; [by repeat constructor|]. by intros c [= <-]. }
      destruct (maximal_run_unique _ _ _ _ _ Hmax' Hmax Hc) as [<- _]. by vm_compute in Hm.
    + apply (f_equal hashtag_start) in Hm. change (0 = byte_len (b :: before)) in Hm. rewrite byte_len_cons in Hm. pose proof (char_len_pos b).
      pose proof (byte_len_nonneg before). lia.
Defined.

Lemma status_html_shows_its_text_witness : exists html shown,
  sample_html = Some html /\ read_html [] Plain html = Some shown /\
  lowered to_ascii_lowercase sample_text shown.1.
Proof.
  destruct (status_html_shows_its_text is_ascii_alphanumeric to_ascii_lowercase
    (fun _ => [(19, 80)]) web_scheme eq_refl {[lit "alice" := lit "https://me/@alice"]} ∅
    {[lit "rust" := lit "https://me/tags/rust"]} sample_text) as (html & shown & urls & H & Hread & Hlow & _).
  by exists html, (shown, urls).
Defined.
