(* ===== verification/ClientAddress.v ===== *)
(** The address of a client ([crates/server/src/client_address.rs]), under whose group
    the attempts to register are counted.

    An address is a number of 32 or 128 bits.  Parsing and printing of addresses, the
    networks of the configuration and the masking of an IPv6 address are arguments.
    A request may carry the forwarding header on several lines; a line is [None] when it
    is not visible ASCII. *)
From S2P Require Import Prelude Core Text.

Inductive IpAddr : Type := V4 (bits : Z) | V6 (bits : Z).

#[export] Instance IpAddr_eq_dec : EqDecision IpAddr.
Proof. solve_decision. Defined.

(** [Ipv6Addr::to_ipv4_mapped]: the addresses [::ffff:a.b.c.d]. *)
Definition to_ipv4_mapped (bits : Z) : option Z :=
  if Z.shiftr bits 32 =? 65535 then Some (Z.land bits (2 ^ 32 - 1)) else None.

Definition normalize (address : IpAddr) : IpAddr :=
  match address with
  | V6 bits => match to_ipv4_mapped bits with Some bits => V4 bits | None => address end
  | V4 _ => address
  end.

Definition COMMA : Z := 44.
Definition MAX_HOPS : nat := 32.

Section Address.
Context {IpNet : Type} (contains : IpNet -> IpAddr -> bool) (parse_ip : text -> option IpAddr)
  (show_ip : IpAddr -> text) (mask_ipv6 : Z -> Z -> option Z).

Definition is_trusted (address : IpAddr) (trusted_proxies : list IpNet) : bool :=
  existsb (fun network => contains network address) trusted_proxies.

(** [HeaderMap::get] answers the first line. *)
Definition forwarded_for (lines : list (option text)) : option text := mjoin (head lines).

Definition resolve (peer : IpAddr) (headers : list (option text)) (trusted_proxies : list IpNet) : IpAddr :=
  let peer := normalize peer in
  if negb (is_trusted peer trusted_proxies) then peer
  else
    match forwarded_for headers with
    | None => peer
    | Some value =>
        let parts := trim <$> split_on COMMA value in
        if bool_decide (parts = []) || (MAX_HOPS <? length parts)%nat then peer
        else
          match mapM (fun part => normalize <$> parse_ip part) parts with
          | None => peer
          | Some chain =>
              default peer (List.find (fun address => negb (is_trusted address trusted_proxies)) (reverse chain))
          end
    end.

Definition group (address : IpAddr) (ipv6_prefix_length : Z) : text :=
  match normalize address with
  | V4 bits => show_ip (V4 bits)
  | V6 bits =>
      match mask_ipv6 bits ipv6_prefix_length with
      | Some network => show_ip (V6 network)
      | None => show_ip (V6 bits)
      end
  end.

(** * Theorems *)

Lemma find_app {A} (p : A -> bool) (a b : list A) :
  List.find p (a ++ b) = match List.find p a with Some x => Some x | None => List.find p b end.
Proof. induction a as [|x a IH]; [done|]. cbn. by destruct (p x). Qed.

Lemma mapM_app_Some {A B} (f : A -> option B) a b c :
  mapM f (a ++ b) = Some c -> exists ca cb, mapM f a = Some ca /\ mapM f b = Some cb /\ c = ca ++ cb.
Proof.
  revert c. induction a as [|x a IH]; intros c; cbn.
  - intros H. by exists [], c.
  - intros (y & Hy & (ca' & H & [= <-])%bind_Some)%bind_Some.
    destruct (IH _ H) as (ca & cb & Ha & Hb & ->). rewrite Hy, Ha. cbn. by exists (y :: ca), cb.
Qed.

(** The chain of addresses of a header value. *)
Definition chain_of (value : text) : option (list IpAddr) :=
  mapM (fun part => normalize <$> parse_ip part) (trim <$> split_on COMMA value).

Lemma resolve_header peer value lines trusted :
  is_trusted (normalize peer) trusted = true ->
  resolve peer (Some value :: lines) trusted = normalize peer \/
  exists chain, chain_of value = Some chain /\ (length (split_on COMMA value) <= MAX_HOPS)%nat /\
    resolve peer (Some value :: lines) trusted =
      default (normalize peer) (List.find (fun address => negb (is_trusted address trusted)) (reverse chain)).
Proof.
  intros Ht. unfold resolve, chain_of. rewrite Ht. cbn [negb forwarded_for head mjoin option_join].
  destruct (_ || _) eqn:E; [by left|]. apply orb_false_iff in E as [_ E].
  apply Nat.ltb_ge in E. rewrite length_fmap in E.
  destruct (mapM _ _) as [chain|]; [|by left]. right. by exists chain.
Qed.

(** C29. (Safety.)  A request that does not come from a trusted proxy is counted under its
    own address, whatever its headers say.  When a trusted proxy appends to one header line
    what it saw, after anything that its client has written there, and the last
    address that is no proxy's is [seen], then the result is [seen] or, if the client's
    part made the line unreadable or too long, the address of the peer: no address that
    the client made up is ever the result. *)
Theorem forged_hops_are_never_believed peer trusted :
  (is_trusted (normalize peer) trusted = false -> forall headers, resolve peer headers trusted = normalize peer) /\
  forall appended chain seen forged,
    chain_of appended = Some chain ->
    List.find (fun address => negb (is_trusted address trusted)) (reverse chain) = Some seen ->
    resolve peer [Some (forged ++ COMMA :: appended)] trusted = seen \/
    resolve peer [Some (forged ++ COMMA :: appended)] trusted = normalize peer.
Proof.
  split; [by intros Ht headers; unfold resolve; rewrite Ht|]. intros appended chain seen forged Hchain Hseen.
  destruct (is_trusted (normalize peer) trusted) eqn:Ht; [|by right; unfold resolve; rewrite Ht].
  destruct (resolve_header peer (forged ++ COMMA :: appended) [] trusted Ht) as [->|(all & Hall & _ & ->)]; [by right|].
  left. unfold chain_of in Hall. rewrite split_on_app, fmap_app in Hall.
  apply mapM_app_Some in Hall as (cf & ca & _ & Ha & ->). unfold chain_of in Hchain. rewrite Hchain in Ha.
  injection Ha as <-. by rewrite reverse_app, find_app, Hseen.
Qed.

(** (Error.)  Only the first line of the header is read.  When the proxy adds what it
    saw on a line of its own, the line that the client has sent comes first, and the
    client is counted under whatever untrusted address it has written there. *)
Theorem first_header_line_is_believed peer trusted forged address appended :
  is_trusted (normalize peer) trusted = true -> split_on COMMA forged = [forged] ->
  parse_ip (trim forged) = Some address -> is_trusted (normalize address) trusted = false ->
  resolve peer (Some forged :: appended) trusted = normalize address.
Proof.
  intros Ht Hsplit Hparse Hun. unfold resolve. rewrite Ht. cbn [negb forwarded_for head mjoin option_join].
  rewrite Hsplit. cbn [fmap list_fmap mapM mbind option_bind length]. rewrite Hparse. cbn.
  by rewrite Hun.
Qed.

(** (Equivalence.)  An IPv4 client has one group, written as an IPv4 address or as the
    IPv6 address that maps it. *)
Theorem mapped_addresses_share_a_group bits prefix :
  0 <= bits < 2 ^ 32 -> group (V6 (65535 * 2 ^ 32 + bits)) prefix = group (V4 bits) prefix.
Proof.
  intros Hb. unfold group. cbn [normalize]. unfold to_ipv4_mapped.
  rewrite Z.shiftr_div_pow2, Z.add_comm, Z.div_add, Z.div_small by lia. cbn [Z.eqb Z.add].
  change (65535 =? 65535) with true. cbv iota.
  replace (2 ^ 32 - 1) with (Z.ones 32) by done. rewrite Z.land_ones by lia.
  by rewrite Z.mod_add, Z.mod_small by lia.
Qed.
End Address.

(** * Samples

    Addresses written as one character; 100 and 101 are proxies. *)
Definition sample_parse (s : text) : option IpAddr := match s with [c] => Some (V4 c) | _ => None end.
Definition sample_proxies : list (IpAddr -> bool) :=
  [fun address => bool_decide (address = V4 100 \/ address = V4 101)].
Definition sample_resolve := resolve (fun network => network) sample_parse.

Example resolve_cases :
  sample_resolve (V4 50) [Some [70]] sample_proxies = V4 50 /\
  sample_resolve (V4 100) [Some [70; COMMA; 32; 71; COMMA; 101]] sample_proxies = V4 71 /\
  sample_resolve (V4 100) [Some [70; 70; COMMA; 71]] sample_proxies = V4 100 /\
  sample_resolve (V6 (65535 * 2 ^ 32 + 100)) [Some [70]] sample_proxies = V4 70.
Proof. by vm_compute. Qed.

Lemma forged_hops_are_never_believed_witness :
  sample_resolve (V4 50) [Some [70]] sample_proxies = V4 50 /\
  (sample_resolve (V4 100) [Some ([70] ++ COMMA :: [71; COMMA; 101])] sample_proxies = V4 71 \/
   sample_resolve (V4 100) [Some ([70] ++ COMMA :: [71; COMMA; 101])] sample_proxies = V4 100).
Proof.
  split.
  - by apply (forged_hops_are_never_believed (fun network => network) sample_parse (V4 50) sample_proxies).
  - apply (forged_hops_are_never_believed (fun network => network) sample_parse (V4 100) sample_proxies)
      with (chain := [V4 71; V4 101]); by vm_compute.
Defined.

Lemma first_header_line_is_believed_witness :
  sample_resolve (V4 100) [Some [70]; Some [71]] sample_proxies = V4 70.
Proof.
  apply (first_header_line_is_believed (fun network => network) sample_parse (V4 100) sample_proxies [70] (V4 70));
    by vm_compute.
Defined.

Lemma mapped_addresses_share_a_group_witness :
  group (fun a => match a with V4 n => [n] | V6 n => [n; 58] end) (fun n _ => Some n) (V6 (65535 * 2 ^ 32 + 70)) 64 =
  group (fun a => match a with V4 n => [n] | V6 n => [n; 58] end) (fun n _ => Some n) (V4 70) 64.
Proof. apply mapped_addresses_share_a_group. lia. Defined.
