(* ===== verification/TagUsage.v ===== *)
(** Hashtags of statuses and their daily usage ([crates/db/src/lib.rs]): the tag rows of
    local and remote statuses, the counters per actor and per day that trends and the
    history of a hashtag are read from, and the operations that create, edit, delete
    and purge statuses, as far as they touch either.

    Transactions are serial here, except that a deletion, which takes no lock, is also
    split into what it reads and what it writes.  [normalize] is
    [normalize_tag_name], whose lower-casing is a table of the standard library. *)
From S2P Require Import Prelude Core Text.
From S2P Require Statuses.

#[local] Existing Instances Statuses.StatusVisibility_eq_dec.

(** * Data *)

Inductive Origin : Type := Local | Remote.

#[export] Instance Origin_eq_dec : EqDecision Origin.
Proof. solve_decision. Defined.

#[export] Instance Origin_countable : Countable Origin.
Proof.
  apply (inj_countable' (fun o => match o with Local => true | Remote => false end)
    (fun b : bool => if b then Local else Remote)). by intros [].
Defined.

(** A row of [local_status] or [remote_status] with its rows of [local_status_tag] or
    [remote_status_tag]. *)
Record StatusRow := mkStatus {
  author : uuid;
  visibility : Statuses.StatusVisibility;
  posted_at : time;
  updated_at : time;
  deleted_at : option time;
  status_tags : gset uuid;
}.

(** (tag, day, origin, actor) of [tag_daily_actor_usage] and (tag, day) of
    [tag_daily_usage]; days are numbered from the epoch. *)
Definition actor_key : Type := uuid * Z * Origin * uuid.
Definition daily_key : Type := uuid * Z.

Record Db := mkDb {
  tags : gmap text uuid;
  local_statuses : gmap uuid StatusRow;
  remote_statuses : gmap string StatusRow;
  actor_usage : gmap actor_key Z;
  daily_usage : gmap daily_key (Z * Z);
  dirty_tags : gset uuid;
}.

Definition with_tags f (d : Db) : Db :=
  mkDb (f (tags d)) (local_statuses d) (remote_statuses d) (actor_usage d) (daily_usage d) (dirty_tags d).
Definition with_local f (d : Db) : Db :=
  mkDb (tags d) (f (local_statuses d)) (remote_statuses d) (actor_usage d) (daily_usage d) (dirty_tags d).
Definition with_remote f (d : Db) : Db :=
  mkDb (tags d) (local_statuses d) (f (remote_statuses d)) (actor_usage d) (daily_usage d) (dirty_tags d).
Definition with_actor_usage f (d : Db) : Db :=
  mkDb (tags d) (local_statuses d) (remote_statuses d) (f (actor_usage d)) (daily_usage d) (dirty_tags d).
Definition with_daily f (d : Db) : Db :=
  mkDb (tags d) (local_statuses d) (remote_statuses d) (actor_usage d) (f (daily_usage d)) (dirty_tags d).
Definition with_dirty f (d : Db) : Db :=
  mkDb (tags d) (local_statuses d) (remote_statuses d) (actor_usage d) (daily_usage d) (f (dirty_tags d)).

Definition utc_date (t : time) : Z := t / seconds 86400.

(** * Usage *)

(** The sum of the uses and the number of the rows of a tag on a day. *)
Definition totals (tag : uuid) (day : Z) (usage : gmap actor_key Z) : Z * Z :=
  let uses := snd <$> List.filter (fun kv : actor_key * Z => bool_decide (kv.1.1.1 = (tag, day)))
    (map_to_list usage) in
  (foldr Z.add 0 uses, Z.of_nat (length uses)).

Definition raise (uses : option Z) (delta : Z) : option Z :=
  Some (match uses with Some n => n + delta | None => delta end).

Definition lower (uses : option Z) : option Z :=
  match uses with
  | Some n => if 1 <? n then Some (n - 1) else if n =? 1 then None else Some n
  | None => None
  end.

(** One tag of [adjust_tag_usage]. *)
Definition adjust_tag (day : Z) (origin : Origin) (actor : uuid) (delta : Z) (tag : uuid) : Op Db unit :=
  modify (with_daily (fun t => if bool_decide (is_Some (t !! (tag, day))) then t else <[(tag, day) := (0, 0)]> t));;
  modify (with_actor_usage (partial_alter
    (fun uses => if 0 <? delta then raise uses delta else lower uses) (tag, day, origin, actor)));;
  modify (fun d => with_daily <[(tag, day) := totals tag day (actor_usage d)]> d);;
  modify (with_daily (fun t => if bool_decide (t !! (tag, day) = Some (0, 0)) then delete (tag, day) t else t));;
  modify (with_dirty (fun s => {[tag]} ∪ s)).

Definition adjust_tag_usage (tag_ids : list uuid) (day : Z) (origin : Origin) (actor : uuid) (delta : Z) :
    Op Db unit :=
  for_each (dedup (order_by N.leb tag_ids)) (adjust_tag day origin actor delta).

(** The usage that a status contributes, while it is public and not deleted. *)
Definition counts (s : StatusRow) : bool :=
  bool_decide (deleted_at s = None) && bool_decide (visibility s = Statuses.Public).

Definition account_for (origin : Origin) (s : StatusRow) (delta : Z) : Op Db unit :=
  adjust_tag_usage (elements (status_tags s)) (utc_date (posted_at s)) origin (author s) delta.

(** [maintain_trends] drops the usage of days that are long past. *)
Definition prune_usage (today : Z) : Op Db unit :=
  modify (with_actor_usage (filter (fun kv : actor_key * Z => today - 8 <= kv.1.1.1.2)));;
  modify (with_daily (filter (fun kv : daily_key * (Z * Z) => today - 8 <= kv.1.2))).

Definition days_of (tag : uuid) (usage : gmap actor_key Z) : list Z :=
  (fun kv : actor_key * Z => kv.1.1.1.2) <$>
    List.filter (fun kv : actor_key * Z => (kv.1.1.1.1 =? tag)%N) (map_to_list usage).

(** [refresh_tag_trend] sums the days of a tag up again before it ranks the tag. *)
Definition refresh_tag_usage (tag : uuid) : Op Db unit :=
  modify (fun d => with_daily (fun t =>
    foldr (fun day => <[(tag, day) := totals tag day (actor_usage d)]>) t (days_of tag (actor_usage d))) d);;
  modify (fun d => with_daily (filter (fun kv : daily_key * (Z * Z) =>
    kv.1.1 = tag -> kv.1.2 ∈ days_of tag (actor_usage d))) d).

Section Tags.
Context (normalize : text -> text).

Definition find_or_create_local_tag (name : text) : Op Db uuid :=
  let name := normalize name in
  d ← gets (fun d => d);
  match tags d !! name with
  | Some tag => mret tag
  | None =>
      i ← uuid_now_v7;
      if bool_decide (map_Exists (fun _ tag => tag = i) (tags d))
      then throw (Database (UniqueViolation "local_tag_pkey"))
      else modify (with_tags <[name := i]>);; mret i
  end.

(** The rows for a status, whose primary key refuses a tag twice. *)
Definition insert_tags (names : list text) : Op Db (gset uuid) :=
  (fix go (names : list text) (inserted : gset uuid) : Op Db (gset uuid) :=
     match names with
     | [] => mret inserted
     | name :: names =>
         tag ← find_or_create_local_tag name;
         if bool_decide (tag ∈ inserted) then throw (Database (UniqueViolation "status_tag_pkey"))
         else go names ({[tag]} ∪ inserted)
     end) names ∅.

Definition set_row_tags (tag_ids : gset uuid) (s : StatusRow) : StatusRow :=
  mkStatus (author s) (visibility s) (posted_at s) (updated_at s) (deleted_at s) tag_ids.

Definition sorted_names (names : list text) : list text := dedup (order_by text_le names).

(** * Local statuses *)

(** [create_local_status_with_media]: the status and its tags. *)
Definition create_local_status (i author : uuid) (visibility : Statuses.StatusVisibility)
    (tag_names : list text) : Op Db unit :=
  now ← now_utc;
  d ← gets (fun d => d);
  if bool_decide (is_Some (local_statuses d !! i)) then throw (Database (UniqueViolation "local_status_pkey"))
  else
    tag_ids ← insert_tags (sorted_names tag_names);
    let s := mkStatus author visibility now now None tag_ids in
    modify (with_local <[i := s]>);;
    when (bool_decide (visibility = Statuses.Public)) (account_for Local s 1).

(** The names of the tags of a status. *)
Definition names_of (tag_ids : gset uuid) (d : Db) : list text :=
  order_by text_le (fst <$> List.filter (fun kv : text * uuid => bool_decide (kv.2 ∈ tag_ids)) (map_to_list (tags d))).

(** [update_owned_local_status]; [others_changed] is whether anything but the tags is
    edited.  Answers whether the status was changed, if it was found. *)
Definition update_owned_local_status (i account : uuid) (others_changed : bool) (tag_names : list text) :
    Op Db (option bool) :=
  d ← gets (fun d => d);
  match local_statuses d !! i with
  | Some s =>
      if negb (author s =? account)%N || negb (bool_decide (deleted_at s = None)) then mret None
      else
        if negb others_changed
           && bool_decide (dedup (order_by text_le (normalize <$> tag_names)) = names_of (status_tags s) d)
        then mret (Some false)
        else
          now ← now_utc;
          when (bool_decide (visibility s = Statuses.Public)) (account_for Local s (-1));;
          tag_ids ← insert_tags (sorted_names tag_names);
          let s' := mkStatus (author s) (visibility s) (posted_at s) now (deleted_at s) tag_ids in
          modify (with_local <[i := s']>);;
          when (bool_decide (visibility s = Statuses.Public)) (account_for Local s' 1);;
          mret (Some true)
  | None => mret None
  end.

(** [replace_local_status_tags]. *)
Definition replace_local_status_tags (i : uuid) (tag_names : list text) : Op Db unit :=
  transaction (
    d ← gets (fun d => d);
    match local_statuses d !! i with
    | Some s =>
        when (counts s) (account_for Local s (-1));;
        tag_ids ← insert_tags (sorted_names tag_names);
        modify (with_local <[i := set_row_tags tag_ids s]>);;
        when (counts s) (account_for Local (set_row_tags tag_ids s) 1);;
        mret (Commit tt)
    | None =>
        (* the rows would name a status that does not exist *)
        if bool_decide (tag_names = []) then mret (Commit tt)
        else throw (Database (ForeignKeyViolation "local_status_tag_status_id_fkey"))
    end).

(** [delete_owned_local_status], which locks no row: what it reads, and what it writes. *)
Definition read_owned_local_status (i account : uuid) : Op Db (option StatusRow) :=
  d ← gets (fun d => d);
  match local_statuses d !! i with
  | Some s =>
      if negb (bool_decide (deleted_at s = None)) then mret None
      else if negb (author s =? account)%N then throw (InvalidInput "status is owned by another account")
      else mret (Some s)
  | None => mret None
  end.

Definition delete_read_status (i : uuid) (s : StatusRow) : Op Db unit :=
  when (bool_decide (visibility s = Statuses.Public)) (account_for Local s (-1));;
  now ← now_utc;
  modify (with_local (alter (fun s =>
    mkStatus (author s) (visibility s) (posted_at s) now (Some now) (status_tags s)) i)).

Definition delete_owned_local_status (i account : uuid) : Op Db bool :=
  found ← read_owned_local_status i account;
  match found with
  | Some s => delete_read_status i s;; mret true
  | None => mret false
  end.

(** [purge_suspended_local_account]: the statuses and, by cascade, their tags. *)
Definition purge_local_statuses (account : uuid) : Op Db unit :=
  modify (with_local (delete_where (fun s => (author s =? account)%N))).

(** * Remote statuses *)

Record NewRemoteStatus := mkNewRemote {
  new_url : string;
  new_actor : uuid;
  new_visibility : Statuses.StatusVisibility;
  new_published_at : time;
  new_updated_at : time;
  new_tag_names : list text;
}.

Context (tag_character : Z -> bool).

Definition remote_tag_names (names : list text) : list text :=
  sorted_names (List.filter (fun name => negb (bool_decide (name = [])) && forallb tag_character name)
    (normalize <$> names)).

(** [upsert_remote_status_on]: the row keeps its tags for the moment. *)
Definition upsert_remote_status_on (n : NewRemoteStatus) : Op Db unit :=
  d ← gets (fun d => d);
  match remote_statuses d !! new_url n with
  | Some s =>
      if negb (author s =? new_actor n)%N
      then throw (InvalidInput "remote status author does not match cached author")
      else modify (with_remote <[new_url n :=
        mkStatus (author s) (new_visibility n) (new_published_at n) (new_updated_at n) None (status_tags s)]>)
  | None =>
      modify (with_remote <[new_url n :=
        mkStatus (new_actor n) (new_visibility n) (new_published_at n) (new_updated_at n) None ∅]>)
  end.

Definition replace_remote_status_tags (url : string) (names : list text) : Op Db unit :=
  d ← gets (fun d => d);
  match remote_statuses d !! url with
  | Some s =>
      tag_ids ← insert_tags (remote_tag_names names);
      modify (with_remote <[url := set_row_tags tag_ids s]>);;
      when (counts s) (account_for Remote (set_row_tags tag_ids s) 1)
  | None => mret tt
  end.

Inductive RemoteStatusUpsertResult : Type := Created | Updated | Unchanged.

(** [process_remote_status_upsert]; [changed] is whether the content, the projected
    properties or the media differ. *)
Definition process_remote_status_upsert (n : NewRemoteStatus) (changed : bool) : Op Db RemoteStatusUpsertResult :=
  d ← gets (fun d => d);
  match remote_statuses d !! new_url n with
  | None =>
      upsert_remote_status_on n;;
      replace_remote_status_tags (new_url n) (new_tag_names n);;
      mret Created
  | Some s =>
      if negb (author s =? new_actor n)%N
      then throw (InvalidInput "remote status author does not match cached author")
      else if (new_updated_at n <=? updated_at s) || negb changed then mret Unchanged
      else
        when (counts s) (account_for Remote s (-1));;
        upsert_remote_status_on n;;
        replace_remote_status_tags (new_url n) (new_tag_names n);;
        mret Updated
  end.

(** [process_remote_status_delete] and [repair_one_remote_status_delete]. *)
Definition process_remote_status_delete (url : string) (actor : uuid) : Op Db bool :=
  d ← gets (fun d => d);
  match remote_statuses d !! url with
  | Some s =>
      if negb (author s =? actor)%N || negb (bool_decide (deleted_at s = None)) then mret false
      else
        when (bool_decide (visibility s = Statuses.Public)) (account_for Remote s (-1));;
        now ← now_utc;
        modify (with_remote <[url :=
          mkStatus (author s) (visibility s) (posted_at s) (updated_at s) (Some now) (status_tags s)]>);;
        mret true
  | None => mret false
  end.

(** [purge_remote_actor_cache]: every status of the actor, at once. *)
Definition purge_remote_statuses (actor : uuid) (now : time) : Op Db unit :=
  modify (with_remote (update_where (fun s => (author s =? actor)%N) (fun s =>
    mkStatus (author s) (visibility s) (posted_at s) (updated_at s) (Some now) (status_tags s)))).
End Tags.

(** * Reading the history of a hashtag *)

Record LocalTagHistory := mkHistory { day : Z; uses : Z; history_accounts : Z }.

(** [tag_history] and [fill_tag_history]: the seven days up to [now]. *)
Definition tag_history (tag : uuid) (now : time) (d : Db) : list LocalTagHistory :=
  let today := utc_date now in
  omap (fun days_ago : nat =>
     let n := today - Z.of_nat days_ago in
     if n * 86400 <? 0 then None
     else match daily_usage d !! (tag, n) with
          | Some (uses, accounts) => Some (mkHistory (n * 86400) uses accounts)
          | None => Some (mkHistory (n * 86400) 0 0)
          end) (seq 0 7).
