(* ===== verification/TagUsageInvariant.v ===== *)
(** What the usage of hashtags guarantees: while statuses are created, edited, received,
    revived and deleted one after the other, the counters are exactly the number of
    public statuses that are not deleted, per hashtag, day and author.  Purges break
    this, and so do two deletions at once. *)
From stdpp Require Import relations.
From S2P Require Import Prelude Core Text TagUsage.
From S2P Require Statuses.

#[local] Existing Instances Statuses.StatusVisibility_eq_dec.

(** * Counting *)

(** A status that counts for a tag, a day and an author. *)
Definition counted (tag : uuid) (day : Z) (actor : uuid) (s : StatusRow) : bool :=
  counts s && bool_decide (tag ∈ status_tags s) && (utc_date (posted_at s) =? day) && (author s =? actor)%N.

Definition count (k : actor_key) (d : Db) : nat :=
  let '(tag, day, origin, actor) := k in
  match origin with
  | Local => count_where (counted tag day actor) (local_statuses d)
  | Remote => count_where (counted tag day actor) (remote_statuses d)
  end.

(** A counter has no row when it would be zero. *)
Definition recorded (n : nat) : option Z := match n with O => None | _ => Some (Z.of_nat n) end.

Definition key_day (k : actor_key) : Z := k.1.1.2.

Section Since.
Context (since : Z).

(** The counters of the days from [since] on record [n], and all the days sum them up. *)
Record tallies (n : actor_key -> nat) (d : Db) : Prop := {
  ta_actors : forall k, since <= key_day k -> actor_usage d !! k = recorded (n k);
  ta_days : forall tag day, daily_usage d !! (tag, day) =
    if bool_decide (totals tag day (actor_usage d) = (0, 0)) then None
    else Some (totals tag day (actor_usage d));
}.

Definition exact (d : Db) : Prop := tallies (fun k => count k d) d.

Lemma tallies_ext n n' d : (forall k, n k = n' k) -> tallies n d -> tallies n' d.
Proof. intros E [Ha Hd]. split; [|done]. intros k. rewrite <- E. apply Ha. Qed.

Lemma raise_recorded n : raise (recorded n) 1 = recorded (S n).
Proof. destruct n; cbn; [done|]. unfold raise. f_equal. lia. Qed.

Lemma lower_recorded n : lower (recorded n) = recorded (pred n).
Proof.
  destruct n as [|[|n]]; [done|done|]. unfold recorded, lower.
  destruct (1 <? Z.of_nat (S (S n))) eqn:E; [|boolp; lia]. cbn [pred]. f_equal. lia.
Qed.

(** * One adjustment *)

Lemma sum_permutation (l l' : list Z) : l ≡ₚ l' -> foldr Z.add 0 l = foldr Z.add 0 l'.
Proof. induction 1; cbn; lia. Qed.

(** The totals of a day depend on the rows of that day. *)
Lemma totals_ext tag day usage usage' :
  (forall k, k.1.1 = (tag, day) -> usage' !! k = usage !! k) -> totals tag day usage' = totals tag day usage.
Proof.
  intros Hk.
  enough (H : List.filter (fun kv : actor_key * Z => bool_decide (kv.1.1.1 = (tag, day))) (map_to_list usage') ≡ₚ
    List.filter (fun kv : actor_key * Z => bool_decide (kv.1.1.1 = (tag, day))) (map_to_list usage)).
  { unfold totals. by rewrite (sum_permutation _ _ (fmap_Permutation snd _ _ H)), H. }
  apply NoDup_Permutation.
  - apply NoDup_ListNoDup, List.NoDup_filter, NoDup_ListNoDup, NoDup_map_to_list.
  - apply NoDup_ListNoDup, List.NoDup_filter, NoDup_ListNoDup, NoDup_map_to_list.
  - intros [k u]. rewrite !list_elem_of_In, !List.filter_In, <- !list_elem_of_In, !elem_of_map_to_list.
    cbn. rewrite bool_decide_eq_true. split; intros [Hu E]; split; try done; [rewrite <- Hk|rewrite Hk]; done.
Qed.

Lemma totals_other tag day usage f k :
  k.1.1 <> (tag, day) -> totals tag day (partial_alter f k usage) = totals tag day usage.
Proof. intros Hne. apply totals_ext. intros k' Hk'. apply lookup_partial_alter_ne. congruence. Qed.

Lemma totals_none tag day usage :
  totals tag day usage = (0, 0) <-> forall k, k.1.1 = (tag, day) -> usage !! k = None.
Proof.
  unfold totals. split.
  - intros [= _ Hl] k Hk. rewrite length_fmap in Hl. destruct (usage !! k) as [u|] eqn:E; [|done]. exfalso.
    assert (Hin : (k, u) ∈ List.filter (fun kv : actor_key * Z => bool_decide (kv.1.1.1 = (tag, day)))
        (map_to_list usage)).
    { rewrite list_elem_of_In, List.filter_In, <- list_elem_of_In, elem_of_map_to_list. cbn.
      by rewrite bool_decide_eq_true. }
    destruct (List.filter _ _); [set_solver|done].
  - intros Hk. enough (E : List.filter (fun kv : actor_key * Z => bool_decide (kv.1.1.1 = (tag, day)))
      (map_to_list usage) = []) by by rewrite E.
    apply elem_of_nil_inv. intros [k u]. rewrite list_elem_of_In, List.filter_In, <- list_elem_of_In,
      elem_of_map_to_list, bool_decide_eq_true. cbn.
      intros [Hu E]. apply Hk in E. pose proof (eq_trans (eq_sym E) Hu). discriminate.
Qed.

Definition bump (f : nat -> nat) (day : Z) (origin : Origin) (actor : uuid) (touched : list uuid)
    (n : actor_key -> nat) (k : actor_key) : nat :=
  let '(tag, day', origin', actor') := k in
  if bool_decide (tag ∈ touched) && (day' =? day) && bool_decide (origin' = origin) && (actor' =? actor)%N
  then f (n k) else n k.

(** What an adjustment does to a counter. *)
Definition shift (delta : Z) : nat -> nat := if 0 <? delta then S else pred.

Definition same_statuses (d d' : Db) : Prop :=
  local_statuses d' = local_statuses d /\ remote_statuses d' = remote_statuses d /\ tags d' = tags d.

Lemma bump_one f day origin actor tag n k :
  bump f day origin actor [tag] n k =
  if bool_decide (k = (tag, day, origin, actor)) then f (n k) else n k.
Proof.
  destruct k as [[[tag' day'] origin'] actor']. unfold bump.
  destruct (decide ((tag', day', origin', actor') = (tag, day, origin, actor))) as [[= -> -> -> ->]|E'].
  - rewrite !bool_decide_true by set_solver. by rewrite Z.eqb_refl, N.eqb_refl.
  - rewrite (bool_decide_false ((tag', day', origin', actor') = _)) by done.
    case_bool_decide as E; destruct (day' =? day) eqn:E2; try done;
    destruct (bool_decide (origin' = origin)) eqn:E3; try done; destruct (actor' =? actor)%N eqn:E4; try done.
    exfalso. apply E'. apply list_elem_of_singleton in E. apply bool_decide_eq_true in E3.
    apply Z.eqb_eq in E2. apply N.eqb_eq in E4. by subst.
Qed.

Lemma adjust_tag_tallies day origin actor delta tag n w d :
  delta = 1 \/ delta = -1 -> tallies n d ->
  exists d', adjust_tag day origin actor delta tag w d = (Ok tt, w, d') /\
    tallies (bump (shift delta) day origin actor [tag] n) d' /\ same_statuses d d'.
Proof.
  intros Hdelta [Ha Hd]. eexists. split; [reflexivity|]. split; [|done]. split.
  - intros k Hk. rewrite bump_one. cbn. destruct (bool_decide (k = (tag, day, origin, actor))) eqn:E.
    + apply bool_decide_eq_true in E as ->. rewrite lookup_partial_alter_eq, Ha by done.
      destruct Hdelta as [->| ->]; [apply raise_recorded|apply lower_recorded].
    + apply bool_decide_eq_false in E. rewrite lookup_partial_alter_ne by done. by apply Ha.
  - intros tag' day'. cbn [daily_usage actor_usage with_daily with_dirty with_actor_usage].
    destruct (decide ((tag, day) = (tag', day'))) as [[= <- <-]|Hne].
    + rewrite lookup_insert_eq. destruct (bool_decide (totals _ _ _ = (0, 0))) eqn:E.
      * apply bool_decide_eq_true in E. rewrite E, bool_decide_true by done. by rewrite lookup_delete_eq.
      * apply bool_decide_eq_false in E. rewrite bool_decide_false by congruence. by rewrite lookup_insert_eq.
    + rewrite lookup_insert_eq, (totals_other tag' day') by done.
      transitivity (daily_usage d !! (tag', day')); [|apply Hd].
      repeat case_bool_decide; rewrite ?lookup_delete_ne, ?lookup_insert_ne by done; done.
Qed.

Lemma adjust_tags_tallies day origin actor delta touched n w d :
  delta = 1 \/ delta = -1 -> NoDup touched -> tallies n d ->
  exists d', for_each touched (adjust_tag day origin actor delta) w d = (Ok tt, w, d') /\
    tallies (bump (shift delta) day origin actor touched n) d' /\ same_statuses d d'.
Proof.
  intros Hdelta. revert n d. induction touched as [|tag touched IH]; intros n d Hnd Ht.
  - exists d. split; [done|]. split; [|done]. eapply tallies_ext, Ht. by intros [[[? ?] ?] ?].
  - apply NoDup_cons in Hnd as [Hin Hnd].
    destruct (adjust_tag_tallies day origin actor delta tag n w d Hdelta Ht) as (d1 & E1 & Ht1 & S1).
    destruct (IH _ d1 Hnd Ht1) as (d2 & E2 & Ht2 & S2). exists d2. split; [|split].
    + cbn [for_each]. apply bind_Ok. eauto.
    + eapply tallies_ext, Ht2. intros [[[tag' day'] origin'] actor']. unfold bump.
      destruct (day' =? day), (bool_decide (origin' = origin)), (actor' =? actor)%N;
        rewrite ?andb_false_r, ?andb_true_r; try done.
      destruct (decide (tag' = tag)) as [->|Hne].
      * by rewrite (bool_decide_false (tag ∈ touched)), !bool_decide_true by set_solver.
      * rewrite (bool_decide_false (tag' ∈ [tag])) by set_solver.
        by rewrite (bool_decide_ext (tag' ∈ tag :: touched) (tag' ∈ touched)) by set_solver.
    + destruct S1 as (? & ? & ?), S2 as (? & ? & ?). repeat split; congruence.
Qed.

(** * Accounting for a status *)

Definition contributes (origin : Origin) (s : StatusRow) (k : actor_key) : bool :=
  let '(tag, day, origin', actor) := k in
  bool_decide (tag ∈ status_tags s) && (day =? utc_date (posted_at s)) && bool_decide (origin' = origin)
  && (actor =? author s)%N.

Lemma account_for_tallies origin s delta n w d :
  delta = 1 \/ delta = -1 -> tallies n d ->
  exists d', account_for origin s delta w d = (Ok tt, w, d') /\
    tallies (fun k => if contributes origin s k then shift delta (n k) else n k) d' /\ same_statuses d d'.
Proof.
  intros Hdelta Ht. unfold account_for, adjust_tag_usage.
  edestruct (adjust_tags_tallies (utc_date (posted_at s)) origin (author s) delta
    (dedup (order_by N.leb (elements (status_tags s)))) n w d Hdelta) as (d' & E & Ht' & Hs).
  - apply sorted_dedup_NoDup; intros; rewrite ?N.leb_le in *; try lia.
  - done.
  - exists d'. split; [exact E|]. split; [|exact Hs]. eapply tallies_ext, Ht'.
    intros [[[tag day] origin'] actor]. unfold bump, contributes. erewrite bool_decide_ext; [done|].
    by rewrite elem_of_sorted_dedup, elem_of_elements.
Qed.

(** What the statuses other than one contribute. *)
Definition local_rest (i : uuid) (k : actor_key) (d : Db) : nat := count k (with_local (delete i) d).
Definition remote_rest (url : string) (k : actor_key) (d : Db) : nat := count k (with_remote (delete url) d).

Definition share (origin : Origin) (s : StatusRow) (k : actor_key) : nat :=
  if counts s && contributes origin s k then 1%nat else 0%nat.

Lemma counted_share tag day origin actor s :
  (if counted tag day actor s then 1 else 0)%nat = share origin s (tag, day, origin, actor).
Proof.
  unfold counted, share, contributes. rewrite (bool_decide_true (origin = origin)), andb_true_r by done.
  rewrite (Z.eqb_sym day), (N.eqb_sym actor). by rewrite !andb_assoc.
Qed.

Lemma other_share tag day origin origin' actor s :
  origin' <> origin -> share origin s (tag, day, origin', actor) = 0%nat.
Proof.
  intros Hne. unfold share, contributes. rewrite (bool_decide_false (origin' = origin)) by done.
  by rewrite !andb_false_r.
Qed.

Lemma local_count i s k d :
  local_statuses d !! i = Some s -> count k d = (share Local s k + local_rest i k d)%nat.
Proof.
  intros Hs. destruct k as [[[tag day] []] actor].
  - rewrite <- counted_share. exact (count_where_lookup _ _ _ _ Hs).
  - by rewrite other_share.
Qed.

Lemma remote_count url s k d :
  remote_statuses d !! url = Some s -> count k d = (share Remote s k + remote_rest url k d)%nat.
Proof.
  intros Hs. destruct k as [[[tag day] []] actor].
  - by rewrite other_share.
  - rewrite <- counted_share. exact (count_where_lookup _ _ _ _ Hs).
Qed.

Lemma when_account_for (b : bool) origin s delta n w d a w' d' :
  delta = 1 \/ delta = -1 -> tallies n d -> when b (account_for origin s delta) w d = (Ok a, w', d') ->
  tallies (fun k => if b && contributes origin s k then shift delta (n k) else n k) d' /\ same_statuses d d'.
Proof.
  intros Hdelta Ht. destruct b; cbn [when andb].
  - destruct (account_for_tallies origin s delta n w d Hdelta Ht) as (d1 & -> & Ht' & Hs).
    by injection 1 as _ _ <-.
  - by injection 1 as _ _ <-.
Qed.

(** * Operations *)

(** Tags change neither statuses nor counters. *)
Definition but_tags (d : Db) := (local_statuses d, remote_statuses d, actor_usage d, daily_usage d).

Lemma tallies_but_tags n d d' : but_tags d' = but_tags d -> tallies n d -> tallies n d'.
Proof. intros [= _ _ Ea Ed] [Ha Hd]. split; rewrite ?Ea, ?Ed; done. Qed.

Section Operations.
Context (normalize : text -> text) (tag_character : Z -> bool).

Lemma keeps_insert_tags names : keeps but_tags (insert_tags normalize names).
Proof.
  unfold insert_tags. generalize (∅ : gset uuid).
  induction names as [|name names IH]; intros inserted; [done|].
  unfold find_or_create_local_tag. solve_keeps.
Qed.

Definition preserves {A} (m : Op Db A) : Prop :=
  forall w d a w' d', m w d = (Ok a, w', d') -> exact d -> exact d'.

(** The rest does not see what happens to the status. *)
Lemma local_rest_other i k d d' :
  delete i (local_statuses d') = delete i (local_statuses d) -> remote_statuses d' = remote_statuses d ->
  local_rest i k d' = local_rest i k d.
Proof. intros El Er. unfold local_rest, count. destruct k as [[[tag day] []] actor]; cbn; by rewrite ?El, ?Er. Qed.

(** A status is taken out of the counters, changed, and counted again. *)
Lemma local_out b i s w d a w' d' :
  exact d -> local_statuses d !! i = Some s -> b = counts s ->
  when b (account_for Local s (-1)) w d = (Ok a, w', d') ->
  tallies (fun k => local_rest i k d') d' /\ local_statuses d' !! i = Some s.
Proof.
  intros He Hs -> Hrun. eapply when_account_for in Hrun as [Ht (El & Er & _)]; [|by right|exact He].
  split; [|by rewrite El]. eapply tallies_ext, Ht. intros k. cbv beta. rewrite (local_count i s) by done.
  rewrite (local_rest_other i k d d') by (by rewrite ?El). unfold share. destruct (counts s && contributes Local s k); cbn; lia.
Qed.

Lemma local_in b i s w d a w' d' :
  tallies (fun k => local_rest i k d) d -> local_statuses d !! i = Some s -> b = counts s ->
  when b (account_for Local s 1) w d = (Ok a, w', d') -> exact d'.
Proof.
  intros Ht Hs -> Hrun. eapply when_account_for in Hrun as [Ht' (El & Er & _)]; [|by left|exact Ht].
  eapply tallies_ext, Ht'. intros k. rewrite (local_count i s k d') by by rewrite El.
  rewrite (local_rest_other i k d d') by (by rewrite ?El). unfold share. destruct (counts s && contributes Local s k); cbn; lia.
Qed.

Lemma local_set i s d :
  tallies (fun k => local_rest i k d) d ->
  tallies (fun k => local_rest i k (with_local <[i := s]> d)) (with_local <[i := s]> d).
Proof.
  intros [Ha Hd]. split; [|exact Hd]. intros k Hk. rewrite (local_rest_other i k d); [by apply Ha| |done].
  cbn. by rewrite delete_insert_eq.
Qed.

Lemma local_tags_set i d d' :
  but_tags d' = but_tags d -> tallies (fun k => local_rest i k d) d -> tallies (fun k => local_rest i k d') d'.
Proof.
  intros E Ht. apply (tallies_but_tags _ _ _ E) in Ht. eapply tallies_ext, Ht. intros k.
  injection E as El Er _ _. apply local_rest_other; by rewrite ?El.
Qed.

Lemma local_fresh i d : exact d -> local_statuses d !! i = None -> tallies (fun k => local_rest i k d) d.
Proof.
  intros He Hi. eapply tallies_ext, He. intros k. unfold local_rest, count.
  destruct k as [[[tag day] []] actor]; cbn; by rewrite ?delete_id.
Qed.

Lemma create_local_preserves i who vis names : preserves (create_local_status normalize i who vis names).
Proof.
  intros w d a w' d' Hrun He. unfold create_local_status in Hrun.
  inv_bind Hrun now w1 d1 Hnow. injection Hnow as _ _ <-.
  inv_bind Hrun d2 w2 d3 Hget. injection Hget as <- _ <-. case_bool_decide as Hi; [done|].
  apply eq_None_not_Some in Hi. inv_bind Hrun tag_ids w4 d4 Htags.
  pose proof (keeps_run _ _ _ _ _ _ _ (keeps_insert_tags _) Htags) as Hk.
  inv_bind Hrun u w5 d5 Hset. injection Hset as _ _ <-.
  eapply local_in in Hrun; [exact Hrun|..].
  - apply local_set, (local_tags_set i d); [done|by apply local_fresh].
  - apply lookup_insert_eq.
  - done.
Qed.

Lemma update_local_preserves i who others names :
  preserves (update_owned_local_status normalize i who others names).
Proof.
  intros w d a w' d' Hrun He. unfold update_owned_local_status in Hrun.
  inv_bind Hrun d1 w1 d2 Hget. injection Hget as <- _ <-.
  destruct (local_statuses d !! i) as [s|] eqn:Hs; [|by injection Hrun as _ _ <-].
  destruct (negb _ || negb _) eqn:Hok; [by injection Hrun as _ _ <-|].
  apply orb_false_iff in Hok as [_ Hlive%negb_false_iff].
  destruct (negb others && _); [by injection Hrun as _ _ <-|].
  inv_bind Hrun now w2 d2 Hnow. injection Hnow as _ _ <-.
  inv_bind Hrun u w3 d3 Hout. apply (local_out _ i) in Hout as [Ht Hs3]; [|done|done|];
    [|unfold counts; by rewrite Hlive].
  inv_bind Hrun tag_ids w4 d4 Htags.
  pose proof (keeps_run _ _ _ _ _ _ _ (keeps_insert_tags _) Htags) as Hk.
  inv_bind Hrun u2 w5 d5 Hset. injection Hset as _ _ <-. inv_bind Hrun u3 w6 d6 Hin.
  injection Hrun as _ _ <-. eapply local_in in Hin; [exact Hin|..].
  - apply local_set, (local_tags_set i d3); done.
  - apply lookup_insert_eq.
  - unfold counts. cbn. by rewrite Hlive.
Qed.

Lemma replace_local_preserves i names : preserves (replace_local_status_tags normalize i names).
Proof.
  intros w d a w' d' Hrun He. unfold replace_local_status_tags in Hrun.
  apply transaction_Ok in Hrun as [Hrun|[-> _]]; [|done].
  inv_bind Hrun d1 w1 d2 Hget. injection Hget as <- _ <-.
  destruct (local_statuses d !! i) as [s|] eqn:Hs; [|by case_bool_decide; [injection Hrun as _ _ <-|]].
  inv_bind Hrun u w3 d3 Hout. apply (local_out _ i) in Hout as [Ht Hs3]; [|done..].
  inv_bind Hrun tag_ids w4 d4 Htags.
  pose proof (keeps_run _ _ _ _ _ _ _ (keeps_insert_tags _) Htags) as Hk.
  inv_bind Hrun u2 w5 d5 Hset. injection Hset as _ _ <-. inv_bind Hrun u3 w6 d6 Hin.
  injection Hrun as _ _ <-. eapply local_in in Hin; [exact Hin|..].
  - apply local_set, (local_tags_set i d3); done.
  - apply lookup_insert_eq.
  - done.
Qed.

Lemma delete_local_preserves i who : preserves (delete_owned_local_status i who).
Proof.
  intros w d a w' d' Hrun He. unfold delete_owned_local_status in Hrun.
  inv_bind Hrun found w1 d1 Hread. unfold read_owned_local_status in Hread.
  inv_bind Hread d2 w2 d3 Hget. injection Hget as <- _ <-.
  destruct (local_statuses d !! i) as [s|] eqn:Hs; [|by injection Hread as <- _ <-; injection Hrun as _ _ <-].
  destruct (negb _) eqn:Hlive; [by injection Hread as <- _ <-; injection Hrun as _ _ <-|].
  apply negb_false_iff in Hlive. destruct (negb _); [done|]. injection Hread as <- <- <-.
  inv_bind Hrun u w3 d3 Hdel. injection Hrun as _ _ <-. unfold delete_read_status in Hdel.
  inv_bind Hdel u2 w4 d4 Hout. apply (local_out _ i) in Hout as [Ht Hs4]; [|done|done|];
    [|unfold counts; by rewrite Hlive].
  inv_bind Hdel now w5 d5 Hnow. injection Hnow as _ _ <-. injection Hdel as _ _ <-.
  set (s' := mkStatus (author s) (visibility s) (posted_at s) now (Some now) (status_tags s)).
  assert (E : forall f, f s = s' -> with_local (alter f i) d4 = with_local <[i := s']> d4).
  { intros f Ef. unfold with_local. f_equal. apply map_eq. intros j. destruct (decide (i = j)) as [<-|Hne].
    - by rewrite lookup_alter_eq, lookup_insert_eq, Hs4, <- Ef.
    - by rewrite lookup_alter_ne, lookup_insert_ne. }
  match goal with |- context [alter ?g i] => rewrite (E g eq_refl) end.
  eapply (local_in false i s' w5 _ tt w5); [by apply local_set|apply lookup_insert_eq| |reflexivity].
  unfold counts. by rewrite bool_decide_false.
Qed.

(** The same for remote statuses. *)
Lemma remote_rest_other url k d d' :
  delete url (remote_statuses d') = delete url (remote_statuses d) -> local_statuses d' = local_statuses d ->
  remote_rest url k d' = remote_rest url k d.
Proof. intros Er El. unfold remote_rest, count. destruct k as [[[tag day] []] actor]; cbn; by rewrite ?El, ?Er. Qed.

Lemma remote_out b url s w d a w' d' :
  exact d -> remote_statuses d !! url = Some s -> b = counts s ->
  when b (account_for Remote s (-1)) w d = (Ok a, w', d') ->
  tallies (fun k => remote_rest url k d') d' /\ remote_statuses d' !! url = Some s.
Proof.
  intros He Hs -> Hrun. eapply when_account_for in Hrun as [Ht (El & Er & _)]; [|by right|exact He].
  split; [|by rewrite Er]. eapply tallies_ext, Ht. intros k. cbv beta. rewrite (remote_count url s) by done.
  rewrite (remote_rest_other url k d d') by (by rewrite ?Er). unfold share.
  destruct (counts s && contributes Remote s k); cbn; lia.
Qed.

Lemma remote_in b url s w d a w' d' :
  tallies (fun k => remote_rest url k d) d -> remote_statuses d !! url = Some s -> b = counts s ->
  when b (account_for Remote s 1) w d = (Ok a, w', d') -> exact d'.
Proof.
  intros Ht Hs -> Hrun. eapply when_account_for in Hrun as [Ht' (El & Er & _)]; [|by left|exact Ht].
  eapply tallies_ext, Ht'. intros k. rewrite (remote_count url s k d') by by rewrite Er.
  rewrite (remote_rest_other url k d d') by (by rewrite ?Er). unfold share.
  destruct (counts s && contributes Remote s k); cbn; lia.
Qed.

Lemma remote_set url s d :
  tallies (fun k => remote_rest url k d) d ->
  tallies (fun k => remote_rest url k (with_remote <[url := s]> d)) (with_remote <[url := s]> d).
Proof.
  intros [Ha Hd]. split; [|exact Hd]. intros k Hk. rewrite (remote_rest_other url k d); [by apply Ha| |done].
  cbn. by rewrite delete_insert_eq.
Qed.

Lemma remote_tags_set url d d' :
  but_tags d' = but_tags d -> tallies (fun k => remote_rest url k d) d ->
  tallies (fun k => remote_rest url k d') d' /\ remote_statuses d' = remote_statuses d.
Proof.
  intros E Ht. apply (tallies_but_tags _ _ _ E) in Ht. injection E as El Er _ _. split; [|done].
  eapply tallies_ext, Ht. intros k. apply remote_rest_other; by rewrite ?Er.
Qed.

Lemma remote_fresh url d : exact d -> remote_statuses d !! url = None -> tallies (fun k => remote_rest url k d) d.
Proof.
  intros He Hi. eapply tallies_ext, He. intros k. unfold remote_rest, count.
  destruct k as [[[tag day] []] actor]; cbn; by rewrite ?delete_id.
Qed.

(** A received status is stored and tagged after it was taken out of the counters. *)
Lemma store_remote n w d a w' d' :
  tallies (fun k => remote_rest (new_url n) k d) d ->
  (upsert_remote_status_on n;; replace_remote_status_tags normalize tag_character (new_url n) (new_tag_names n))
    w d = (Ok a, w', d') -> exact d'.
Proof.
  intros Ht Hrun. inv_bind Hrun u w1 d1 Hup.
  assert (H1 : exists s, d1 = with_remote <[new_url n := s]> d).
  { unfold upsert_remote_status_on in Hup. inv_bind Hup d2 w2 d3 Hget. injection Hget as <- _ <-.
    destruct (remote_statuses d !! _) as [s|]; [destruct (negb _); [done|]|];
      injection Hup as _ _ <-; eexists; reflexivity. }
  destruct H1 as [s ->]. apply (remote_set _ s) in Ht. unfold replace_remote_status_tags in Hrun.
  inv_bind Hrun d2 w2 d3 Hget. injection Hget as <- _ <-.
  cbn [remote_statuses with_remote] in Hrun. rewrite lookup_insert_eq in Hrun.
  inv_bind Hrun tag_ids w4 d4 Htags.
  pose proof (keeps_run _ _ _ _ _ _ _ (keeps_insert_tags _) Htags) as Hk.
  apply (remote_tags_set _ _ _ Hk) in Ht as [Ht _].
  inv_bind Hrun u2 w5 d5 Hset. injection Hset as _ _ <-.
  eapply remote_in in Hrun; [exact Hrun|by apply remote_set|apply lookup_insert_eq|done].
Qed.

Lemma upsert_remote_preserves n changed :
  preserves (process_remote_status_upsert normalize tag_character n changed).
Proof.
  intros w d a w' d' Hrun He. unfold process_remote_status_upsert in Hrun.
  inv_bind Hrun d1 w1 d2 Hget. injection Hget as <- _ <-.
  destruct (remote_statuses d !! new_url n) as [s|] eqn:Hs.
  - destruct (negb _); [done|]. destruct (_ || _); [by injection Hrun as _ _ <-|].
    inv_bind Hrun u w3 d3 Hout. apply (remote_out _ (new_url n)) in Hout as [Ht _]; [|done..].
    inv_bind Hrun u1 w4 d4 Hup. inv_bind Hrun u2 w5 d5 Htag. injection Hrun as _ _ <-.
    eapply store_remote; [exact Ht|]. apply bind_Ok. eauto.
  - inv_bind Hrun u1 w4 d4 Hup. inv_bind Hrun u2 w5 d5 Htag. injection Hrun as _ _ <-.
    eapply store_remote; [by apply remote_fresh|]. apply bind_Ok. eauto.
Qed.

Lemma delete_remote_preserves url who : preserves (process_remote_status_delete url who).
Proof.
  intros w d a w' d' Hrun He. unfold process_remote_status_delete in Hrun.
  inv_bind Hrun d1 w1 d2 Hget. injection Hget as <- _ <-.
  destruct (remote_statuses d !! url) as [s|] eqn:Hs; [|by injection Hrun as _ _ <-].
  destruct (negb _ || negb _) eqn:Hok; [by injection Hrun as _ _ <-|].
  apply orb_false_iff in Hok as [_ Hlive%negb_false_iff].
  inv_bind Hrun u w3 d3 Hout. apply (remote_out _ url) in Hout as [Ht _]; [|done|done|];
    [|unfold counts; by rewrite Hlive].
  inv_bind Hrun now w4 d4 Hnow. injection Hnow as _ _ <-. inv_bind Hrun u2 w5 d5 Hset.
  injection Hset as _ _ <-. injection Hrun as _ _ <-.
  eapply (remote_in false url _ w4 _ tt w4); [by apply remote_set|apply lookup_insert_eq| |reflexivity].
  unfold counts. by rewrite bool_decide_false.
Qed.

(** Maintenance keeps the counters of the days that it does not drop. *)
Lemma prune_preserves today : today - 8 <= since -> preserves (prune_usage today).
Proof.
  intros Hle w d a w' d' Hrun [Ha Hd]. unfold prune_usage in Hrun. injection Hrun as _ _ <-. split.
  - intros k Hk. etransitivity; [|apply (Ha k Hk)]. cbn. rewrite map_lookup_filter. unfold key_day in Hk.
    destruct (actor_usage d !! k) as [u|]; [|done]. cbn. by rewrite option_guard_True by lia.
  - intros tag day. cbn. rewrite map_lookup_filter, Hd. destruct (Z.le_gt_cases (today - 8) day).
    + rewrite (totals_ext tag day (actor_usage d) (filter _ _)).
      * case_bool_decide; [done|]. cbn. by rewrite option_guard_True by done.
      * intros k Hk. rewrite map_lookup_filter. destruct (actor_usage d !! k) as [u|]; [|done]. cbn.
        rewrite option_guard_True; [done|]. by rewrite Hk.
    + rewrite (bool_decide_true (totals _ _ (filter _ _) = _)).
      * case_bool_decide; [done|]. cbn. by rewrite option_guard_False by lia.
      * apply totals_none. intros k Hk. rewrite map_lookup_filter. destruct (actor_usage d !! k) as [u|]; [|done].
        cbn. rewrite option_guard_False; [done|]. rewrite Hk. cbn. lia.
Qed.

Lemma elem_of_days_of tag day usage : day ∈ days_of tag usage <-> totals tag day usage <> (0, 0).
Proof.
  rewrite totals_none. unfold days_of. rewrite list_elem_of_fmap. split.
  - intros ([[[[tag' day'] o] a'] u] & -> & Hin) Hk. rewrite list_elem_of_In, List.filter_In, <- list_elem_of_In,
      elem_of_map_to_list in Hin. cbn in Hin. destruct Hin as [Hu ->%N.eqb_eq]. by rewrite Hk in Hu.
  - intros Hk. destruct (decide (Exists (fun kv : actor_key * Z => kv.1.1.1 = (tag, day)) (map_to_list usage)))
      as [He|Hne].
    + apply Exists_exists in He as ([[[[tag' day'] o] a'] u] & Hin & [= -> ->]). eexists. split; [|rewrite
        list_elem_of_In, List.filter_In, <- list_elem_of_In; split; [exact Hin|by apply N.eqb_refl]]. done.
    + exfalso. apply Hk. intros k E. destruct (usage !! k) as [u|] eqn:Hu; [|done]. exfalso. apply Hne.
      apply Exists_exists. exists (k, u). by rewrite elem_of_map_to_list.
Qed.

Lemma lookup_refreshed (tag : uuid) (usage : gmap actor_key Z) (days : list Z) (t : gmap daily_key (Z * Z)) (tag' : uuid) (day : Z) :
  foldr (fun (day : Z) (t : gmap daily_key (Z * Z)) => <[(tag, day) := totals tag day usage]> t) t days
    !! (tag', day) =
  if bool_decide (tag' = tag /\ day ∈ days) then Some (totals tag day usage) else t !! (tag', day).
Proof.
  induction days as [|day' days IH]; cbn.
  - rewrite bool_decide_false by set_solver. done.
  - destruct (decide ((tag, day') = (tag', day))) as [[= <- ->]|Hne].
    + rewrite lookup_insert_eq, bool_decide_true by set_solver. done.
    + rewrite lookup_insert_ne, IH by done. erewrite bool_decide_ext; [done|]. rewrite elem_of_cons. naive_solver.
Qed.

Lemma refresh_preserves tag : preserves (refresh_tag_usage tag).
Proof.
  intros w d a w' d' Hrun [Ha Hd]. unfold refresh_tag_usage in Hrun. injection Hrun as _ _ <-.
  split; [exact Ha|]. intros tag' day.
  cbn [daily_usage with_daily actor_usage]. rewrite map_lookup_filter, lookup_refreshed, Hd.
  destruct (decide (tag' = tag)) as [->|Hne]; [|rewrite bool_decide_false by naive_solver].
  - destruct (decide (day ∈ days_of tag (actor_usage d))) as [Hin|Hin].
    + rewrite bool_decide_true by done. pose proof (proj1 (elem_of_days_of _ _ _) Hin).
      rewrite bool_decide_false by done. cbn. by rewrite option_guard_True.
    + rewrite bool_decide_false by naive_solver. rewrite elem_of_days_of in Hin.
      rewrite bool_decide_true; [done|]. by destruct (decide (totals tag day (actor_usage d) = (0, 0))).
  - case_bool_decide; [done|]. cbn. by rewrite option_guard_True.
Qed.
End Operations.
End Since.

(** * Histories *)

(** What changes the statuses, each in a transaction of its own. *)
Inductive operation : Type :=
| Post (i who : uuid) (vis : Statuses.StatusVisibility) (names : list text)
| Edit (i who : uuid) (others_changed : bool) (names : list text)
| Retag (i : uuid) (names : list text)
| Remove (i who : uuid)
| Receive (n : NewRemoteStatus) (changed : bool)
| Withdraw (url : string) (who : uuid)
| Prune (today : Z)
| Refresh (tag : uuid).

Section History.
Context (normalize : text -> text) (tag_character : Z -> bool).

Definition perform (o : operation) : Op Db unit :=
  match o with
  | Post i who vis names => create_local_status normalize i who vis names
  | Edit i who others names => update_owned_local_status normalize i who others names;; mret tt
  | Retag i names => replace_local_status_tags normalize i names
  | Remove i who => delete_owned_local_status i who;; mret tt
  | Receive n changed => process_remote_status_upsert normalize tag_character n changed;; mret tt
  | Withdraw url who => process_remote_status_delete url who;; mret tt
  | Prune today => prune_usage today
  | Refresh tag => refresh_tag_usage tag
  end.

(** Maintenance ran on the day [latest] for the last time. *)
Definition until (latest : Z) (o : operation) : Prop :=
  match o with Prune today => today <= latest | _ => True end.

Definition committed {A} (m : Op Db A) : Op Db A := transaction (a ← m; mret (Commit a)).

(** A step of a history, which succeeds or fails. *)
Inductive step (latest : Z) : World * Db -> World * Db -> Prop :=
| step_operation o w d r w' d' :
    until latest o -> committed (perform o) w d = (r, w', d') -> step latest (w, d) (w', d').

Lemma preserves_ignoring {A} since (m : Op Db A) : preserves since m -> preserves since (m;; mret tt).
Proof. intros Hm w d a w' d' Hrun He. inv_bind Hrun x w1 d1 Hx. injection Hrun as _ _ <-. by eapply Hm. Qed.

Lemma perform_preserves latest o : until latest o -> preserves (latest - 8) (perform o).
Proof.
  intros Ho. destruct o; cbn [perform until] in *; try apply preserves_ignoring;
    try (apply prune_preserves; lia); eauto using refresh_preserves, create_local_preserves, update_local_preserves, replace_local_preserves,
      delete_local_preserves, upsert_remote_preserves, delete_remote_preserves.
Qed.

Lemma committed_exact {A} since (m : Op Db A) : preserves since m -> stays (exact since) (committed m).
Proof.
  intros Hm w d He. unfold store_of, committed, transaction, mbind, M_bind.
  destruct (m w d) as [[[a|e] w1] d1] eqn:E; [|done]. by eapply Hm.
Qed.

Definition empty_db : Db := mkDb ∅ ∅ ∅ ∅ ∅ ∅.

Definition reachable (latest : Z) (d : Db) : Prop := exists w w', rtc (step latest) (w, empty_db) (w', d).

Lemma reachable_exact latest d : reachable latest d -> exact (latest - 8) d.
Proof.
  intros (w & w' & Hh).
  refine (rtc_ind_r (R := step latest) (fun wd => exact (latest - 8) wd.2) (w, empty_db) _ _ (w', d) Hh).
  - split; [by intros [[[? ?] []] ?]|done].
  - intros [w1 d1] [w2 d2] _ Hstep He. inversion Hstep as [o ? ? r ? ? Ho Hrun]; subst.
    pose proof (committed_exact _ _ (perform_preserves latest o Ho) w1 d1 He) as Hs.
    unfold store_of in Hs. by rewrite Hrun in Hs.
Qed.
End History.

(** * What the history of a hashtag shows *)

(** The public statuses that are not deleted and carry a tag on a day, and their authors. *)
Definition tagged_on (tag : uuid) (day : Z) (d : Db) : list (Origin * StatusRow) :=
  List.filter (fun x => bool_decide (tag ∈ status_tags x.2) && (utc_date (posted_at x.2) =? day))
    (((Local,.) <$> rows_where counts (local_statuses d)) ++ ((Remote,.) <$> rows_where counts (remote_statuses d))).

Definition authors_of (l : list (Origin * StatusRow)) : gset (Origin * uuid) :=
  list_to_set ((fun x => (x.1, author x.2)) <$> l).

Section Sums.
Context {X K : Type} `{EqDecision K} (key : X -> K).

Definition with_key (a : K) (l : list X) : list X := List.filter (fun x => bool_decide (key x = a)) l.

Lemma sum_by_key (keys : list K) (l : list X) :
  NoDup keys -> (forall x, x ∈ l -> key x ∈ keys) ->
  foldr Z.add 0 ((fun a => Z.of_nat (length (with_key a l))) <$> keys) = Z.of_nat (length l).
Proof.
  revert l. induction keys as [|a keys IH]; intros l Hnd Hin.
  - destruct l as [|x l]; [done|]. specialize (Hin x ltac:(set_solver)). set_solver.
  - apply NoDup_cons in Hnd as [Ha Hnd].
    set (l' := List.filter (fun x => negb (bool_decide (key x = a))) l).
    assert (Hl : (length (with_key a l) + length l')%nat = length l).
    { unfold with_key, l'. clear. induction l as [|x l IH]; cbn; [done|].
      destruct (bool_decide (key x = a)); cbn; lia. }
    assert (E : forall b, b ∈ keys -> with_key b l = with_key b l').
    { intros b Hb. unfold with_key, l'. rewrite filter_filter. apply List.filter_ext. intros x.
      destruct (decide (key x = b)) as [Hx|Hx]; [|by rewrite (bool_decide_false (_ = b)), andb_false_r].
      by rewrite (bool_decide_false (_ = a)) by congruence. }
    specialize (IH l' Hnd). cbn. rewrite <- Hl, Nat2Z.inj_add. f_equal. rewrite <- IH.
    + f_equal. apply list_fmap_ext. intros i b Hb. by rewrite E by by eapply list_elem_of_lookup_2.
    + intros x Hx. unfold l' in Hx. rewrite list_elem_of_In, List.filter_In in Hx. destruct Hx as [Hx Hk].
      apply negb_true_iff, bool_decide_eq_false in Hk. apply list_elem_of_In, Hin in Hx. set_solver.
Qed.
End Sums.

Lemma count_tagged tag day origin actor d :
  count (tag, day, origin, actor) d =
  length (with_key (fun x : Origin * StatusRow => (x.1, author x.2)) (origin, actor) (tagged_on tag day d)).
Proof.
  unfold with_key, tagged_on. rewrite filter_filter, List.filter_app, length_app, !filter_fmap, !length_fmap.
  unfold count, count_where, rows_where. rewrite !filter_filter.
  assert (E : forall o s, bool_decide (tag ∈ status_tags s) && (utc_date (posted_at s) =? day) &&
      bool_decide ((o, author s) = (origin, actor)) =
      bool_decide (o = origin) && (bool_decide (tag ∈ status_tags s) && (utc_date (posted_at s) =? day) &&
      (author s =? actor)%N)).
  { intros o s. rewrite (andb_comm (bool_decide (o = origin))), <- !andb_assoc. do 2 f_equal.
    apply eq_bool_prop_intro. rewrite andb_True, !bool_decide_spec. cbn. rewrite Is_true_true, N.eqb_eq. naive_solver. }
  destruct origin.
  - rewrite (filter_false _ (rows (remote_statuses d))), Nat.add_0_r.
    + f_equal. apply List.filter_ext. intros s. cbn. rewrite E. unfold counted. by rewrite <- !andb_assoc.
    + intros s. cbn. by rewrite E, andb_false_r.
  - rewrite (filter_false _ (rows (local_statuses d))), Nat.add_0_l.
    + f_equal. apply List.filter_ext. intros s. cbn. rewrite E. unfold counted. by rewrite <- !andb_assoc.
    + intros s. cbn. by rewrite E, andb_false_r.
Qed.

(** The rows of a tag and a day, by author. *)
Definition day_rows (tag : uuid) (day : Z) (usage : gmap actor_key Z) : list (actor_key * Z) :=
  List.filter (fun kv : actor_key * Z => bool_decide (kv.1.1.1 = (tag, day))) (map_to_list usage).

Lemma elem_of_day_rows tag day usage k u :
  (k, u) ∈ day_rows tag day usage <-> usage !! k = Some u /\ k.1.1 = (tag, day).
Proof.
  unfold day_rows. rewrite list_elem_of_In, List.filter_In, <- list_elem_of_In, elem_of_map_to_list. cbn.
  by rewrite bool_decide_eq_true.
Qed.

Definition row_author (kv : actor_key * Z) : Origin * uuid := (kv.1.1.2, kv.1.2).

Lemma day_rows_authors tag day usage : NoDup (row_author <$> day_rows tag day usage).
Proof.
  apply NoDup_fmap_2_strong.
  - intros [k u] [k' u'] Hk Hk'. apply elem_of_day_rows in Hk as [Hu Hk], Hk' as [Hu' Hk'].
    destruct k as [[[? ?] ?] ?], k' as [[[? ?] ?] ?]. cbn in *. intros [= -> ->]. simplify_eq. congruence.
  - apply NoDup_ListNoDup, List.NoDup_filter, NoDup_ListNoDup, NoDup_map_to_list.
Qed.

Lemma totals_exact since tag day d :
  since <= day -> exact since d -> totals tag day (actor_usage d) =
    (Z.of_nat (length (tagged_on tag day d)), Z.of_nat (size (authors_of (tagged_on tag day d)))).
Proof.
  intros Hday [Ha _]. set (l := tagged_on tag day d). set (key := fun x : Origin * StatusRow => (x.1, author x.2)).
  set (rows := day_rows tag day (actor_usage d)).
  assert (Hrow : forall kv, kv ∈ rows -> kv.2 = Z.of_nat (length (with_key key (row_author kv) l)) /\
      (0 < length (with_key key (row_author kv) l))%nat).
  { intros [[[[t y] o] a] u] [Hu Hk]%elem_of_day_rows. cbn in Hk. injection Hk as -> ->.
    rewrite Ha, count_tagged in Hu by done. cbn. fold key l in Hu |- *.
    destruct (length _); [done|]. injection Hu as <-. split; [done|lia]. }
  assert (Hall : forall x, x ∈ l -> key x ∈ row_author <$> rows).
  { intros x Hx. apply list_elem_of_fmap.
    assert (Hn : (0 < length (with_key key (key x) l))%nat).
    { assert (Hx' : x ∈ with_key key (key x) l); [|destruct (with_key _ _ _); [set_solver|cbn; lia]].
      unfold with_key. rewrite list_elem_of_In, List.filter_In, <- list_elem_of_In. by rewrite bool_decide_eq_true. }
    exists ((tag, day, x.1, author x.2), Z.of_nat (length (with_key key (key x) l))). split; [done|].
    apply elem_of_day_rows. split; [|done]. rewrite Ha, count_tagged by done. fold key l. unfold key in *.
    by destruct (length _); [lia|]. }
  unfold totals. f_equal.
  - fold (day_rows tag day (actor_usage d)). fold rows.
    rewrite <- (sum_by_key key (row_author <$> rows)); [|apply day_rows_authors|done]. f_equal.
    rewrite <- list_fmap_compose. apply list_fmap_ext. intros i kv Hkv.
    apply list_elem_of_lookup_2, Hrow in Hkv as [-> _]. done.
  - fold (day_rows tag day (actor_usage d)). fold rows. f_equal. rewrite length_fmap.
    rewrite <- (length_fmap row_author), <- (size_list_to_set (C := gset (Origin * uuid))) by apply day_rows_authors.
    f_equal. apply set_eq. intros a. unfold authors_of. fold l key. rewrite !elem_of_list_to_set. split.
    + intros (kv & -> & Hkv)%list_elem_of_fmap. apply Hrow in Hkv as [_ Hn].
      destruct (with_key key (row_author kv) l) as [|x r] eqn:E; [cbn in Hn; lia|].
      apply list_elem_of_fmap. exists x. assert (Hx : x ∈ with_key key (row_author kv) l) by (rewrite E; set_solver).
      unfold with_key in Hx. rewrite list_elem_of_In, List.filter_In, <- list_elem_of_In in Hx.
      destruct Hx as [Hx Hk]. by apply bool_decide_eq_true in Hk.
    + intros (x & -> & Hx)%list_elem_of_fmap. by apply Hall.
Qed.

(** C15. While statuses are posted, edited, retagged, deleted, received, revived and withdrawn
    by their authors, each in a transaction that may fail, and maintenance prunes and sums
    up the counters of days long past, the history of a hashtag shows for each of the last seven days exactly the number of public statuses that carry the
    hashtag and are not deleted, and the number of their different authors, the local and
    the remote ones together. *)
Theorem history_shows_what_is_public normalize tag_character d tag now :
  reachable normalize tag_character (utc_date now) d -> seconds (7 * 86400) <= now ->
  tag_history tag now d =
  (fun days_ago : nat => let day := utc_date now - Z.of_nat days_ago in
     mkHistory (day * 86400) (Z.of_nat (length (tagged_on tag day d)))
       (Z.of_nat (size (authors_of (tagged_on tag day d))))) <$> seq 0 7.
Proof.
  intros Hd%reachable_exact Hnow. unfold tag_history.
  assert (Hday : 7 <= utc_date now) by (apply Z.div_le_lower_bound; [done|unfold seconds in *; lia]).
  apply omap_all. intros n Hn%elem_of_seq.
  destruct (Z.ltb_spec ((utc_date now - Z.of_nat n) * 86400) 0); [lia|].
  rewrite (ta_days _ _ _ Hd), (totals_exact (utc_date now - 8)) by (exact Hd || lia).
  case_bool_decide as E; [|done]. by injection E as -> ->.
Qed.

(** * What breaks the counters *)

(** The purge of a suspended local account, or of a remote actor at a time. *)
Definition purge (origin : Origin) (who : uuid) (at_time : time) : Op Db unit :=
  match origin with
  | Local => purge_local_statuses who
  | Remote => purge_remote_statuses who at_time
  end.

Lemma purged_count tag day origin who at_time w d :
  count (tag, day, origin, who) (store_of (purge origin who at_time) w d) = 0%nat.
Proof.
  destruct origin; cbn; apply count_where_none; intros k s.
  - rewrite lookup_delete_where. destruct (local_statuses d !! k) as [s'|]; [|done].
    destruct (author s' =? who)%N eqn:E; [done|]. intros [= ->]. unfold counted. by rewrite E, andb_false_r.
  - rewrite lookup_update_where. destruct (remote_statuses d !! k) as [s'|]; [|done]. cbn.
    destruct (author s' =? who)%N eqn:E; intros [= <-]; unfold counted, counts.
    + by rewrite bool_decide_false.
    + by rewrite E, andb_false_r.
Qed.

(** A purge takes the statuses of an account or actor away and leaves the usage of
    their hashtags: the author's counter still says how many public statuses there were
    while none is left, and the history of every hashtag is what it was. *)
Theorem purged_statuses_stay_in_the_history normalize tag_character latest d tag day now origin who at_time w :
  reachable normalize tag_character latest d -> latest - 8 <= day ->
  let k := (tag, day, origin, who) in
  let d' := store_of (purge origin who at_time) w d in
  count k d' = 0%nat /\ actor_usage d' !! k = recorded (count k d) /\ tag_history tag now d' = tag_history tag now d.
Proof.
  intros Hd%reachable_exact Hday k d'. split; [apply purged_count|].
  assert (E : actor_usage d' = actor_usage d /\ daily_usage d' = daily_usage d) by by destruct origin.
  destruct E as [Ea Ed]. split; [rewrite Ea; by apply Hd|]. unfold tag_history. by rewrite Ed.
Qed.

Lemma delete_read_tallies since i s n w d :
  visibility s = Statuses.Public -> tallies since n d ->
  exists w' d' at_time, delete_read_status i s w d = (Ok tt, w', d') /\
    tallies since (fun k => if contributes Local s k then pred (n k) else n k) d' /\
    local_statuses d' = alter (fun s =>
      mkStatus (author s) (visibility s) (posted_at s) at_time (Some at_time) (status_tags s)) i (local_statuses d) /\
    remote_statuses d' = remote_statuses d.
Proof.
  intros Hv Ht. destruct (account_for_tallies since Local s (-1) n w d) as (d1 & E & Ht1 & El & Er & _); [by right|done|].
  do 3 eexists. split; [|split; [|split]].
  - unfold delete_read_status. rewrite bool_decide_true by done. cbn [when]. apply bind_Ok.
    do 3 eexists. split; [exact E|reflexivity].
  - destruct Ht1 as [Ha Hd]. split; [exact Ha|exact Hd].
  - cbn. by rewrite El.
  - exact Er.
Qed.

(** The deletion of a status locks nothing, so two requests of its author may both read
    the status before either deletes it.  Both then succeed, and both take the status out
    of the counters: they miss one of the author's other public statuses of that day. *)
Theorem deletions_at_once_count_twice normalize tag_character latest d i who s tag w :
  reachable normalize tag_character latest d -> latest - 8 <= utc_date (posted_at s) ->
  value_of (read_owned_local_status i who) w d = Ok (Some s) ->
  visibility s = Statuses.Public -> tag ∈ status_tags s ->
  let k := (tag, utc_date (posted_at s), Local, who) in
  exists w1 d1 w2 d2,
    delete_read_status i s w d = (Ok tt, w1, d1) /\ delete_read_status i s w1 d1 = (Ok tt, w2, d2) /\
    count k d2 = pred (count k d) /\ actor_usage d2 !! k = recorded (pred (pred (count k d))).
Proof.
  intros Hd%reachable_exact Hday Hread Hv Htag k.
  assert (Hs : local_statuses d !! i = Some s /\ deleted_at s = None /\ author s = who).
  { revert Hread. unfold value_of, read_owned_local_status, mbind, M_bind, gets, mret, M_ret, throw. cbn.
    destruct (local_statuses d !! i) as [s'|]; [|done]. case_bool_decide as Hlive; [|done]. cbn.
    destruct (author s' =? who)%N eqn:E; [|done]. intros [= ->]. by apply N.eqb_eq in E. }
  destruct Hs as (Hs & Hlive & Hwho).
  destruct (delete_read_tallies _ i s _ w d Hv Hd) as (w1 & d1 & t1 & E1 & Ht1 & El1 & Er1).
  destruct (delete_read_tallies _ i s _ w1 d1 Hv Ht1) as (w2 & d2 & t2 & E2 & Ht2 & El2 & Er2).
  exists w1, d1, w2, d2. split; [done|]. split; [done|].
  assert (Hc : contributes Local s k = true).
  { unfold contributes, k. rewrite !bool_decide_true by done. by rewrite Z.eqb_refl, <- Hwho, N.eqb_refl. }
  split; [|rewrite (ta_actors _ _ _ Ht2), Hc by exact Hday; reflexivity].
  rewrite (local_count i s k d Hs). erewrite (local_count i _ k d2) by (by rewrite El2, El1, !lookup_alter_eq, Hs).
  rewrite (local_rest_other i k d d2); [| |by rewrite Er2].
  - unfold share. rewrite Hc. unfold counts. cbn [deleted_at visibility].
    rewrite Hlive, Hv, (bool_decide_false (Some _ = None)), !bool_decide_true by done. done.
  - rewrite El2, El1. apply map_eq. intros j. destruct (decide (i = j)) as [<-|Hne];
      [by rewrite !lookup_delete_eq|by rewrite !lookup_delete_ne, !lookup_alter_ne].
Qed.

(** * A history *)

(** A history as a function, from the empty store. *)
Definition play (os : list operation) (wd : World * Db) : World * Db :=
  foldl (fun wd o => let '(_, w, d) := committed (perform (fun name => name) (fun _ => true) o) wd.1 wd.2 in (w, d)) wd os.

Lemma play_steps latest os wd :
  Forall (until latest) os -> rtc (step (fun name => name) (fun _ => true) latest) wd (play os wd).
Proof.
  intros Hos. revert wd. induction Hos as [|o os Ho Hos IH]; intros [w d]; [constructor|]. cbn [play foldl].
  eapply rtc_l; [|apply IH]. cbn [fst snd]. destruct (committed _ w d) as [[r w'] d'] eqn:E. by econstructor.
Qed.

Lemma play_reachable latest os w :
  Forall (until latest) os -> reachable (fun name => name) (fun _ => true) latest (play os (w, empty_db)).2.
Proof.
  intros Hos. exists w, (play os (w, empty_db)).1. pose proof (play_steps latest os (w, empty_db) Hos) as H.
  by destruct (play os (w, empty_db)).
Qed.

(** The clock starts ten days after the epoch; the first hashtag has the identifier 100. *)
Definition tenth_day : World :=
  mkWorld (fun n => seconds (10 * 86400 + 100 * Z.of_nat n)) 0 (fun n => 100 + N.of_nat n)%N 0
    (fun n => "token"%string) 0.

Definition cats : text := [99; 97; 116; 115].
Definition dogs : text := [100; 111; 103; 115].

Definition received (updated : Z) (names : list text) : NewRemoteStatus :=
  mkNewRemote "https://example.org/1" 20 Statuses.Public (seconds (9 * 86400)) (seconds updated) names.

(** Two accounts and a remote actor use a hashtag; one status is edited away from it, one
    is deleted, and one is only for followers. *)
Definition sample_operations : list operation :=
  [Post 1 10 Statuses.Public [cats; dogs]; Post 2 10 Statuses.Public [cats]; Post 3 11 Statuses.Private [cats];
   Post 4 11 Statuses.Public [cats]; Post 5 12 Statuses.Public [cats]; Remove 5 12; Post 1 13 Statuses.Public [cats];
   Receive (received (9 * 86400) [dogs]) true; Receive (received (9 * 86400 + 5) [cats]) true;
   Post 6 12 Statuses.Public [cats]; Edit 6 12 false [dogs]; Prune 11; Refresh 100].

Definition sample_db : Db := (play sample_operations (tenth_day, empty_db)).2.

Lemma sample_db_reachable : reachable (fun name => name) (fun _ => true) 11 sample_db.
Proof. apply play_reachable. repeat constructor. cbn. lia. Qed.

Lemma history_shows_what_is_public_witness :
  tag_history 100 (seconds (11 * 86400)) sample_db =
    [mkHistory 950400 0 0; mkHistory 864000 3 2; mkHistory 777600 1 1; mkHistory 691200 0 0;
     mkHistory 604800 0 0; mkHistory 518400 0 0; mkHistory 432000 0 0].
Proof.
  rewrite (history_shows_what_is_public _ _ _ 100 (seconds (11 * 86400)) sample_db_reachable).
  - vm_compute. reflexivity.
  - vm_compute. discriminate.
Defined.

Lemma purged_statuses_stay_in_the_history_witness :
  let d' := store_of (purge Remote 20 (seconds (12 * 86400))) tenth_day sample_db in
  count (100%N, 9, Remote, 20%N) d' = 0%nat /\ actor_usage d' !! (100%N, 9, Remote, 20%N) = Some 1.
Proof.
  destruct (purged_statuses_stay_in_the_history _ _ 11 sample_db 100%N 9 (seconds (11 * 86400)) Remote 20%N
    (seconds (12 * 86400)) tenth_day sample_db_reachable ltac:(lia)) as (Hc & Hu & _).
  split; [exact Hc|]. rewrite Hu. vm_compute. reflexivity.
Defined.

Definition twice_deleted : StatusRow :=
  mkStatus 10 Statuses.Public (seconds (10 * 86400)) (seconds (10 * 86400)) None {[100%N; 101%N]}.

Lemma deletions_at_once_count_twice_witness :
  value_of (read_owned_local_status 1 10) tenth_day sample_db = Ok (Some twice_deleted) /\
  exists w1 d1 w2 d2,
    delete_read_status 1 twice_deleted tenth_day sample_db = (Ok tt, w1, d1) /\
    delete_read_status 1 twice_deleted w1 d1 = (Ok tt, w2, d2) /\
    count (100%N, 10, Local, 10%N) d2 = 1%nat /\ actor_usage d2 !! (100%N, 10, Local, 10%N) = None.
Proof.
  assert (Hread : value_of (read_owned_local_status 1 10) tenth_day sample_db = Ok (Some twice_deleted))
    by (vm_compute; reflexivity).
  split; [exact Hread|].
  destruct (deletions_at_once_count_twice _ _ 11 sample_db 1%N 10%N twice_deleted 100%N tenth_day
    sample_db_reachable ltac:(vm_compute; discriminate) Hread eq_refl ltac:(apply elem_of_union_l; set_solver))
    as (w1 & d1 & w2 & d2 & E1 & E2 & Hc & Hu).
  exists w1, d1, w2, d2. split; [exact E1|]. split; [exact E2|]. split.
  - transitivity (pred (count (100%N, 10, Local, 10%N) sample_db)); [exact Hc|vm_compute; reflexivity].
  - transitivity (recorded (pred (pred (count (100%N, 10, Local, 10%N) sample_db)))); [exact Hu|vm_compute; reflexivity].
Defined.

(** A status that is received again after its author was purged counts twice. *)
Lemma revived_status_counts_twice :
  let d := store_of (purge_remote_statuses 20 (seconds (12 * 86400))) tenth_day sample_db in
  let d' := (play [Receive (received (13 * 86400) [cats]) true] (tenth_day, d)).2 in
  count (100%N, 9, Remote, 20%N) d' = 1%nat /\ actor_usage d' !! (100%N, 9, Remote, 20%N) = Some 2.
Proof. vm_compute. split; reflexivity. Qed.
