(* ===== verification/Pins.v ===== *)
(** Pinned statuses: those of local accounts ([pin_local_status] and its neighbours in
    [crates/db/src/lib.rs], the endpoints of [crates/server/src/statuses.rs], the featured
    collection of [crates/server/src/federation.rs]), and the cache of the featured
    collections of remote actors, which their activities and a refresh job change.

    A transaction's [now()] is the clock reading at which its row is inserted.  The pages
    of a remote collection that are fetched are recorded in the store, in order. *)
From S2P Require Import Prelude Core Text.
From S2P Require Jobs Notifications Relations Statuses DomainPolicy Interactions Pagination Delivery Inbox.

#[local] Existing Instances Statuses.StatusVisibility_eq_dec Statuses.relations_part
  DomainPolicy.statuses_part Delivery.rules_part Inbox.interactions_part.

(** * Data *)

(** Rows of [local_status_pin] and [remote_status_pin], keyed by their identifiers. *)
Record Pin := mkPin {
  pin_owner : uuid;
  pin_status : uuid;
  pinned_at : time;
}.

Abbreviation pin_table := (gmap uuid Pin).

Definition pins_of_account (account : uuid) (p : Pin) : bool := (pin_owner p =? account)%N.
Definition pins_of_status (status : uuid) (p : Pin) : bool := (pin_status p =? status)%N.

(** An INSERT, refused when the identifier or the status is taken. *)
Definition insert_pin (table : string) (i : uuid) (p : Pin) (t : pin_table) : result pin_table DbErr :=
  if bool_decide (is_Some (t !! i)) then Err (UniqueViolation (table ++ "_pkey"))
  else if (0 <? count_where (pins_of_status (pin_status p)) t)%nat
       then Err (UniqueViolation (table ++ "_status_id_key"))
  else Ok (<[i := p]> t).

Inductive PinStatusResult : Type :=
| Pinned | AlreadyPinned | Unpinned | AlreadyUnpinned | NotFound | NotOwned
| UnsupportedVisibility | LimitReached.

Definition MAX_PINNED_STATUSES : Z := 5.

(** ** Pages of pins *)

(** ORDER BY pinned_at DESC, id DESC. *)
Definition latest_first (a b : uuid * Pin) : bool :=
  (pinned_at b.2 <? pinned_at a.2) || ((pinned_at b.2 =? pinned_at a.2) && (b.1 <=? a.1)%N).

Section Pages.
Context {A : Type} (live_status : uuid -> option A).

(** [pinned_local_statuses_by_account] and [pinned_remote_statuses_by_account]. *)
Definition pinned_statuses_by_account (account : uuid) (limit : Z) (cursor : Pagination.CollectionCursor)
    (t : pin_table) : Pagination.CollectionPage A :=
  let rows := List.filter (fun p : uuid * Pin => pins_of_account account p.2) (map_to_list t) in
  let rows := order_by latest_first (Pagination.apply_collection_cursor fst cursor rows) in
  Pagination.page_of fst limit (omap (fun p : uuid * Pin => live_status (pin_status p.2)))
    (take (Z.to_nat (Pagination.page_query_limit limit)) rows).
End Pages.

(** * Local pins *)

Module Local.

Record Db := mkDb {
  delivery : Delivery.Db;
  pins : pin_table;
}.

#[export, refine] Instance delivery_part : Part Delivery.Db Db :=
  {| get_part := delivery; put_part := fun x d => mkDb x (pins d) |}.
Proof. all: by intros *; try destruct s. Defined.

Definition with_pins (f : pin_table -> pin_table) (d : Db) : Db := mkDb (delivery d) (f (pins d)).

Definition statuses_of (d : Db) : Statuses.Db := Delivery.statuses_of (delivery d).

Definition on_statuses {A} (m : Op Statuses.Db A) : Op Db A :=
  zoom (zoom (zoom m : Op DomainPolicy.Db A) : Op Delivery.Db A).

Definition pin_local_status (status : StatusId) (account : uuid) (limit : Z) : Op Db PinStatusResult :=
  found ← on_statuses (Statuses.find_local_status_by_id status);
  match found with
  | None => mret NotFound
  | Some s =>
      if negb (Statuses.ls_account s =? account)%N then mret NotOwned
      else if negb (bool_decide (Statuses.ls_visibility s = Statuses.Public)
                    || bool_decide (Statuses.ls_visibility s = Statuses.Unlisted))
      then mret UnsupportedVisibility
      else
        d ← gets (fun d => d);
        if (0 <? count_where (pins_of_status (status_uuid status)) (pins d))%nat then mret AlreadyPinned
        else if limit <=? Z.of_nat (count_where (pins_of_account account) (pins d)) then mret LimitReached
        else
          i ← uuid_now_v7;
          now ← now_utc;
          t ← lift_result (match insert_pin "local_status_pin" i (mkPin account (status_uuid status) now) (pins d) with
                           | Ok t => Ok t | Err e => Err (Database e) end);
          modify (with_pins (fun _ => t));;
          mret Pinned
  end.

Definition unpin_local_status (status : StatusId) (account : uuid) : Op Db PinStatusResult :=
  found ← on_statuses (Statuses.find_local_status_by_id status);
  match found with
  | None => mret NotFound
  | Some s =>
      if negb (Statuses.ls_account s =? account)%N then mret NotOwned
      else
        d ← gets (fun d => d);
        let own p := pins_of_status (status_uuid status) p && pins_of_account account p in
        modify (with_pins (delete_where own));;
        mret (if (count_where own (pins d) =? 0)%nat then AlreadyUnpinned else Unpinned)
  end.

Definition is_local_status_pinned (status : uuid) (d : Db) : bool :=
  (0 <? count_where (pins_of_status status) (pins d))%nat.

Definition pinned_local_status_ids (status_ids : list uuid) (d : Db) : gset uuid :=
  list_to_set (pin_status <$> rows_where (fun p => bool_decide (pin_status p ∈ status_ids)) (pins d)).

Definition live_status (d : Db) (i : uuid) : option (uuid * Statuses.LocalStatus) :=
  match Statuses.local_statuses (statuses_of d) !! i with
  | Some s => if bool_decide (Statuses.ls_deleted_at s = None) then Some (i, s) else None
  | None => None
  end.

Definition pinned_local_statuses_by_account (account : uuid) (limit : Z) (cursor : Pagination.CollectionCursor)
    (d : Db) : Pagination.CollectionPage (uuid * Statuses.LocalStatus) :=
  pinned_statuses_by_account (live_status d) account limit cursor (pins d).

(** The Notes that [featured] serves. *)
Definition featured (account : uuid) (d : Db) : list (uuid * Statuses.LocalStatus) :=
  Pagination.items (pinned_local_statuses_by_account account MAX_PINNED_STATUSES Pagination.no_cursor d).

(** The pins that [delete_owned_local_status] deletes with the status. *)
Definition delete_owned_local_status (status : uuid) (account : uuid) : Op Db bool :=
  found ← on_statuses (Statuses.find_local_status_by_id (mkStatusId status));
  match found with
  | None => mret false
  | Some s =>
      if negb (Statuses.ls_account s =? account)%N
      then throw (InvalidInput "status is owned by another account")
      else
        now ← now_utc;
        on_statuses (modify (fun d => Statuses.mkDb
          (alter (fun s => Statuses.mkLocalStatus (Statuses.ls_account s) (Statuses.ls_visibility s)
             (Statuses.ls_sensitive s) (Statuses.ls_spoiler_text s) (Statuses.ls_in_reply_to s)
             (Statuses.ls_in_reply_to_remote s) (Statuses.ls_created_at s) (Some now)) status
             (Statuses.local_statuses d))
          (Statuses.remote_statuses d) (Statuses.local_mentions d) (Statuses.remote_mentions d)
          (Statuses.relations d)));;
        modify (with_pins (delete_where (pins_of_status status)));;
        mret true
  end.

(** ** Requests *)

Section Requests.
Context (uuid_text : uuid -> string) (public_url : string -> string)
  (federation_enabled : bool) (prove : JsonValue -> result JsonValue RoostyError).

Definition pin_activity (name : string) (status : uuid) (pinned : bool) (i : uuid) : string * JsonValue :=
  let actor := public_url ("users/" ++ name)%string in
  let activity_id := (actor ++ "#" ++ (if pinned then "add" else "remove") ++ "-pin-" ++ uuid_text i)%string in
  (activity_id,
   JObject [("@context"%string, JString "https://www.w3.org/ns/activitystreams");
            ("id"%string, JString activity_id);
            ("type"%string, JString (if pinned then "Add" else "Remove"));
            ("actor"%string, JString actor);
            ("object"%string, JString (public_url ("users/" ++ name ++ "/statuses/" ++ uuid_text status)));
            ("target"%string, JString (actor ++ "/collections/featured"));
            ("to"%string, JString (actor ++ "/followers"))]).

Definition enqueue_pin_activity_in_transaction (status : uuid) (s : Statuses.LocalStatus) (pinned : bool) :
    Op Db unit :=
  if negb federation_enabled then mret tt
  else
    let account := mkAccountId (Statuses.ls_account s) in
    zoom (Delivery.require_local account "local status actor does not exist");;
    d ← gets (fun d => d);
    i ← uuid_now_v7;
    let '(activity_id, activity) := pin_activity (Delivery.username (delivery d) (Statuses.ls_account s)) status pinned i in
    activity ← lift_result (prove activity);
    recipients ← zoom (Delivery.accepted_remote_followers account);
    zoom (Delivery.enqueue_status_delivery_groups account recipients activity activity_id false).

(** What follows the change of a pin: the announcement and the answer. *)
Definition announce_pin (status : StatusId) (pin changed : bool) : Op Db (txn Z) :=
  found ← on_statuses (Statuses.find_local_status_by_id status);
  match found with
  | None => mret (Rollback 404)
  | Some s =>
      when changed (enqueue_pin_activity_in_transaction (status_uuid status) s pin);;
      mret (Commit 200)
  end.

(** [mutate_status_pin]: the code of the answer. *)
Definition mutate_status_pin (account : uuid) (status : StatusId) (pin : bool) : Op Db (txn Z) :=
  result ← if pin then pin_local_status status account MAX_PINNED_STATUSES
           else unpin_local_status status account;
  match result with
  | Pinned | Unpinned => announce_pin status pin true
  | AlreadyPinned | AlreadyUnpinned => announce_pin status pin false
  | NotFound => mret (Rollback 404)
  | NotOwned | UnsupportedVisibility | LimitReached => mret (Rollback 422)
  end.

(** [pin_status] and [unpin_status]. *)
Definition pin_request (account : uuid) (status : StatusId) (pin : bool) : Op Db Z :=
  transaction (mutate_status_pin account status pin).
End Requests.
End Local.

(** * The cache of remote featured collections *)

Module Remote.

(** The parts of a parsed URL that are read here. *)
Record Url := mkUrl {
  href : string;
  url_scheme : string;
  url_username : string;
  url_password : option string;
  url_origin : string;
}.

(** The collections that the rows of [remote_actor] name. *)
Record Db := mkDb {
  inbox : Inbox.Db;
  featured_url : uuid -> option string;
  featured_tags_url : uuid -> option string;
  pins : pin_table;
  fetched : list Url;
}.

#[export, refine] Instance inbox_part : Part Inbox.Db Db :=
  {| get_part := inbox; put_part := fun x d => mkDb x (featured_url d) (featured_tags_url d) (pins d) (fetched d) |}.
Proof. all: by intros *; try destruct s. Defined.

Definition with_pins (f : pin_table -> pin_table) (d : Db) : Db :=
  mkDb (inbox d) (featured_url d) (featured_tags_url d) (f (pins d)) (fetched d).
Definition with_fetched (f : list Url -> list Url) (d : Db) : Db :=
  mkDb (inbox d) (featured_url d) (featured_tags_url d) (pins d) (f (fetched d)).

Definition insert (i : uuid) (p : Pin) : Op Db unit :=
  d ← gets (fun d => d);
  t ← lift_result (match insert_pin "remote_status_pin" i p (pins d) with
                   | Ok t => Ok t | Err e => Err (Database e) end);
  modify (with_pins (fun _ => t)).

Definition insert_at (actor : uuid) (now : time) (p : nat * uuid) : Op Db unit :=
  i ← uuid_now_v7;
  insert i (mkPin actor p.2 (now - 1000 * Z.of_nat p.1)).

Definition replace_remote_status_pins (actor : uuid) (status_ids : list uuid) : Op Db unit :=
  modify (with_pins (delete_where (pins_of_account actor)));;
  now ← now_utc;
  for_each (imap pair status_ids) (insert_at actor now).

Definition pins_latest_first (actor : uuid) (t : pin_table) : list (uuid * Pin) :=
  order_by latest_first (List.filter (fun p : uuid * Pin => pins_of_account actor p.2) (map_to_list t)).

Definition apply_remote_status_pin_activity (actor status : uuid) (pin : bool) : Op Db unit :=
  if pin then
    i ← uuid_now_v7;
    now ← now_utc;
    d ← gets (fun d => d);
    when (negb (0 <? count_where (pins_of_status status) (pins d))%nat) (insert i (mkPin actor status now));;
    d ← gets (fun d => d);
    let stale := (drop 20 (pins_latest_first actor (pins d))).*1 in
    modify (with_pins (fun t => foldr delete t stale))
  else
    modify (with_pins (delete_where (fun p => pins_of_account actor p && pins_of_status status p))).

(** The pins that [repair_one_remote_status_delete] deletes with the status. *)
Definition delete_pins_of_status (status : uuid) : Op Db unit :=
  modify (with_pins (delete_where (pins_of_status status))).

Definition live_status (d : Db) (i : uuid) : option (uuid * Statuses.RemoteStatus) :=
  match Statuses.remote_statuses (Inbox.statuses_of (inbox d)) !! i with
  | Some s => if bool_decide (Statuses.rs_deleted_at s = None) then Some (i, s) else None
  | None => None
  end.

Definition pinned_remote_statuses_by_account (actor : uuid) (limit : Z) (cursor : Pagination.CollectionCursor)
    (d : Db) : Pagination.CollectionPage (uuid * Statuses.RemoteStatus) :=
  pinned_statuses_by_account (live_status d) actor limit cursor (pins d).

Definition is_remote_status_pinned (status : uuid) (d : Db) : bool :=
  (0 <? count_where (pins_of_status status) (pins d))%nat.

Definition pinned_remote_status_ids (status_ids : list uuid) (d : Db) : gset uuid :=
  list_to_set (pin_status <$> rows_where (fun p => bool_decide (pin_status p ∈ status_ids)) (pins d)).

(** ** Activities *)

Section Activities.
Context (uuid_text : uuid -> string) (digest : JsonValue -> option string).

(** [activitypub_reference]. *)
Definition activitypub_reference (v : JsonValue) : option string :=
  match v with
  | JObject _ => Relations.json_get "id" v ≫= Delivery.read_string uuid_text
  | _ => Delivery.read_string uuid_text v
  end.

(** [InboundFeaturedActivity]: actor, object and target. *)
Definition featured_of (activity : JsonValue) : option (string * string * string) :=
  actor ← Inbox.string_member uuid_text "actor" activity;
  object ← Delivery.required (Inbox.reference uuid_text) "object" activity;
  target ← Delivery.required (Inbox.reference uuid_text) "target" activity;
  Some (actor, object, target).

(** The Add and Remove arm of the inbox; featured hashtags are handled elsewhere. *)
Definition process_featured (activity : JsonValue) (signer : Inbox.Signer) (add : bool) : Op Db (option Z) :=
  d ← gets (fun d => d);
  let actor := account_uuid (Inbox.signer_id signer) in
  let target := Relations.json_get "target" activity ≫= activitypub_reference in
  if bool_decide (featured_tags_url d actor = target) then mret None
  else
    match featured_of activity with
    | None => mret (Some Inbox.BAD_REQUEST)
    | Some (by_actor, object, target) =>
        if negb (bool_decide (by_actor = Inbox.signer_url signer))
           || negb (bool_decide (featured_url d actor = Some target))
        then mret (Some Inbox.BAD_REQUEST)
        else
          match Inbox.remote_status_of_url object (inbox d) with
          | Some (i, s) =>
              if (Statuses.rs_actor s =? actor)%N
              then
                z ← Inbox.answered (
                  is_new ← zoom (Inbox.is_new_inbox_activity uuid_text digest activity signer);
                  when is_new (apply_remote_status_pin_activity actor i add);;
                  mret (Commit Inbox.ACCEPTED));
                mret (Some z)
              else mret (Some Inbox.BAD_REQUEST)
          | None => mret (Some Inbox.BAD_REQUEST)
          end
    end.

(** ** Refreshing a collection *)

Context (parse_url : string -> option Url) (fetch_json : Url -> result JsonValue RoostyError).

Definition fetch (url : Url) : Op Db JsonValue :=
  modify (with_fetched (fun urls => urls ++ [url]));;
  lift_result (fetch_json url).

Definition validated_featured_member_url (featured : Url) (member : string) : result Url RoostyError :=
  match parse_url member with
  | None => Err (InvalidInput "remote featured member URL is invalid")
  | Some url =>
      if negb (bool_decide (url_scheme url = "https"%string)) || negb (bool_decide (url_username url = EmptyString))
         || bool_decide (is_Some (url_password url)) || negb (bool_decide (url_origin url = url_origin featured))
      then Err (InvalidInput "remote featured member URL is outside the actor origin")
      else Ok url
  end.

(** The members of one page of a collection. *)
Definition page_items (document : JsonValue) : result (list JsonValue) RoostyError :=
  let kind := Relations.json_get "type" document ≫= Delivery.read_string uuid_text in
  if negb (bool_decide (kind = Some "OrderedCollection"%string)
           || bool_decide (kind = Some "OrderedCollectionPage"%string))
  then Err (InvalidInput "remote featured document is not an ordered collection")
  else
    match (match Relations.json_get "orderedItems" document with
           | Some v => Some v | None => Relations.json_get "items" document end) with
    | None => Ok []
    | Some (JArray items) => Ok items
    | Some _ => Err (InvalidInput "remote featured items are invalid")
    end.

(** What is known after a page, and the page to follow if there is one. *)
Definition read_page (so_far : list JsonValue) (document : JsonValue) :
    result (list JsonValue * option string) RoostyError :=
  match page_items document with
  | Err e => Err e
  | Ok items =>
      let item_values := so_far ++ items in
      if (20 <=? length item_values)%nat then Ok (take 20 item_values, None)
      else
        Ok (item_values,
            match Relations.json_get "next" document with
            | Some v => Some v
            | None => if bool_decide (item_values = []) then Relations.json_get "first" document else None
            end ≫= activitypub_reference)
  end.

(** The loop over the pages; [more] of them may be followed. *)
Fixpoint collect_items (more : nat) (featured url : Url) (so_far : list JsonValue) : Op Db (list JsonValue) :=
  document ← fetch url;
  page ← lift_result (read_page so_far document);
  match page.2, more with
  | None, _ | _, O => mret page.1
  | Some next, S more =>
      url ← lift_result (validated_featured_member_url featured next);
      collect_items more featured url page.1
  end.

Definition featured_items (featured : Url) : Op Db (list JsonValue) := collect_items 4 featured featured [].

(** What is checked of a Note once it is cached. *)
Definition featured_note (actor : uuid) (note : string) : Op Db uuid :=
  d ← gets (fun d => d);
  match Inbox.remote_status_of_url note (inbox d) with
  | None => throw (InvalidInput "remote featured Note was not cached")
  | Some (i, s) =>
      if negb (Statuses.rs_actor s =? actor)%N || negb (Inbox.is_open (Statuses.rs_visibility s))
      then throw (InvalidInput "remote featured Note is not owned and visible")
      else mret i
  end.

(** The identifiers of the Notes, each the first time that it occurs. *)
Fixpoint first_occurrences (seen notes : list string) : list string :=
  match notes with
  | [] => []
  | note :: notes =>
      if bool_decide (note ∈ seen) then first_occurrences seen notes
      else note :: first_occurrences (note :: seen) notes
  end.

(** The end of [refresh_remote_featured], when the Notes of the items are cached. *)
Definition reconcile_featured (actor : uuid) (notes : list string) : Op Db unit :=
  transaction (
    status_ids ← collect (first_occurrences [] notes) (featured_note actor);
    replace_remote_status_pins actor status_ids;;
    mret (Commit tt)).

End Activities.
End Remote.
