(* ===== verification/PinsInvariant.v ===== *)
(** What pins guarantee: an account has at most five, on its own public and unlisted
    statuses, and its featured collection serves exactly these; a remote collection is
    cached with at most twenty entries of its owner, and a refresh reads a bounded number
    of documents of one server.  The pages of cached collections, whose cursors are not
    what the entries are ordered by, repeat themselves. *)
From stdpp Require Import relations.
From S2P Require Import Prelude Core Text.
From S2P Require Jobs Notifications Relations Statuses DomainPolicy Interactions Pagination Delivery Inbox.
From S2P Require DeliveryInvariant InboxInvariant.
From S2P Require Import Pins.

#[local] Existing Instances Statuses.StatusVisibility_eq_dec Statuses.relations_part
  DomainPolicy.statuses_part Delivery.rules_part Inbox.interactions_part
  Local.delivery_part Remote.inbox_part.

(** * Tables of pins *)

(** A status is pinned once. *)
Definition once (t : pin_table) : Prop :=
  forall i j p q, t !! i = Some p -> t !! j = Some q -> pin_status p = pin_status q -> i = j.

Definition at_most (n : nat) (t : pin_table) : Prop :=
  forall account, (count_where (pins_of_account account) t <= n)%nat.

Lemma count_positive p (t : pin_table) : (0 < count_where p t)%nat <-> exists i v, t !! i = Some v /\ p v = true.
Proof.
  unfold count_where. split.
  - intros Hn. destruct (rows_where p t) as [|v l] eqn:E; [cbn in Hn; lia|].
    assert (Hv : v ∈ rows_where p t) by (rewrite E; set_solver).
    apply elem_of_rows_where in Hv as [[i Hi] Hp]. by exists i, v.
  - intros (i & v & Hi & Hp). assert (Hv : v ∈ rows_where p t).
    { apply elem_of_rows_where. eauto. }
    destruct (rows_where p t); [set_solver|cbn; lia].
Qed.

Lemma insert_pin_Ok table i p t t' :
  insert_pin table i p t = Ok t' ->
  t !! i = None /\ count_where (pins_of_status (pin_status p)) t = 0%nat /\ t' = <[i := p]> t.
Proof.
  unfold insert_pin. case_bool_decide as Hi; [done|]. apply eq_None_not_Some in Hi.
  destruct (0 <? _)%nat eqn:E; [done|]. intros [= <-]. apply Nat.ltb_ge in E. split; [done|]. split; [lia|done].
Qed.

Lemma once_insert i p t : once t -> count_where (pins_of_status (pin_status p)) t = 0%nat -> once (<[i := p]> t).
Proof.
  intros Ht Hp j k q r Hq Hr E.
  assert (Hno : forall l s, t !! l = Some s -> pin_status s = pin_status p -> False).
  { intros l s Hs Es. assert (0 < count_where (pins_of_status (pin_status p)) t)%nat; [|lia].
    apply count_positive. exists l, s. split; [done|]. unfold pins_of_status. by rewrite Es, N.eqb_refl. }
  apply lookup_insert_Some in Hq as [[<- <-]|[? Hq]], Hr as [[<- <-]|[? Hr]]; [done|..].
  - exfalso. by apply (Hno k r).
  - exfalso. by apply (Hno j q).
  - by apply (Ht j k q r).
Qed.

Lemma once_shrinks t t' : (forall i p, t' !! i = Some p -> t !! i = Some p) -> once t -> once t'.
Proof. intros H Ht i j p q Hp Hq. apply (Ht i j p q); auto. Qed.

Lemma lookup_delete_where_Some (q : Pin -> bool) (t : pin_table) i p :
  delete_where q t !! i = Some p -> t !! i = Some p /\ q p = false.
Proof.
  intros H. rewrite lookup_delete_where in H. destruct (t !! i) as [v|]; [|done]. destruct (q v) eqn:E; [done|].
  injection H as <-. done.
Qed.

Lemma at_most_delete n q t : at_most n t -> at_most n (delete_where q t).
Proof. intros H a. specialize (H a). pose proof (count_where_delete_where (pins_of_account a) q t). lia. Qed.

(** * Local pins *)

Section LocalPins.
Import Pins.Local.
Context (uuid_text : uuid -> string) (public_url : string -> string) (federation_enabled : bool)
  (prove : JsonValue -> result JsonValue RoostyError).

Definition tables (d : Db) := (Statuses.local_statuses (statuses_of d), pins d).

(** The announcement of a pin queues jobs and draws an identifier. *)
Lemma keeps_announce status s pinned :
  keeps tables (enqueue_pin_activity_in_transaction uuid_text public_url federation_enabled prove status s pinned).
Proof.
  assert (Hjob : forall job, keeps (fun d => Statuses.local_statuses (Delivery.statuses_of d)) (Delivery.enqueue job)).
  { intros job. unfold Delivery.enqueue, Delivery.on_relations, DomainPolicy.on_relations.
    apply (keeps_zoom_part _ (fun d => Statuses.local_statuses (DomainPolicy.statuses_db d))); [intros ? ? E; exact E|].
    apply (keeps_zoom_part _ Statuses.local_statuses); [intros ? ? E; exact E|].
    by apply keeps_zoom. }
  assert (Hzoom : forall A (m : Op Delivery.Db A),
    keeps (fun d => Statuses.local_statuses (Delivery.statuses_of d)) m -> keeps tables (zoom m : Op Db A)).
  { intros A m. apply keeps_zoom_part. intros s' t E. unfold tables, statuses_of. cbn. by rewrite E. }
  unfold enqueue_pin_activity_in_transaction, Delivery.require_local, Delivery.accepted_remote_followers,
    Delivery.enqueue_status_delivery_groups, Delivery.enqueue_groups.
  destruct (negb _); [done|]. cbv zeta.
  apply keeps_bind; [apply Hzoom; solve_keeps|intros _].
  apply keeps_bind; [done|intros d]. apply keeps_bind; [done|intros i]. destruct (pin_activity _ _ _ _ _) as [a b].
  apply keeps_bind; [solve_keeps|intros proved]. apply keeps_bind.
  - apply Hzoom. apply keeps_bind; [|solve_keeps]. unfold Delivery.on_relations, DomainPolicy.on_relations.
    unfold Relations.accepted_remote_follower_ids.
    apply (keeps_zoom_part _ (fun d => Statuses.local_statuses (DomainPolicy.statuses_db d))); [intros ? ? E; exact E|].
    apply (keeps_zoom_part _ Statuses.local_statuses); [intros ? ? E; exact E|].
    by apply keeps_zoom.
  - intros recipients. apply Hzoom. apply keeps_for_each. intros g. destruct (Delivery.group_actors g); [done|].
    apply keeps_bind; [done|intros now; apply Hjob].
Qed.

(** ** The invariant *)

Record pins_ok (d : Db) : Prop := {
  po_own : forall i p, pins d !! i = Some p -> exists s,
    Statuses.local_statuses (statuses_of d) !! pin_status p = Some s /\ Statuses.ls_account s = pin_owner p /\
    Statuses.ls_deleted_at s = None /\ Statuses.ls_visibility s ∈ [Statuses.Public; Statuses.Unlisted];
  po_once : once (pins d);
  po_few : at_most 5 (pins d);
}.

Lemma pins_ok_tables d d' : tables d' = tables d -> pins_ok d -> pins_ok d'.
Proof. intros [= El Ep] [Ho Hu Hn]. split; rewrite ?El, ?Ep; done. Qed.

Lemma find_run status w d r w' d' :
  on_statuses (Statuses.find_local_status_by_id status) w d = (r, w', d') ->
  w' = w /\ d' = d /\ r = Ok (snd <$> live_status d (status_uuid status)).
Proof.
  unfold on_statuses, zoom, Statuses.find_local_status_by_id, live_status. cbn.
  unfold statuses_of, Delivery.statuses_of, DomainPolicy.statuses_db. intros H. injection H as <- <- <-.
  split; [done|]. split; [by destruct d as [[[? ? ?] ? ? ? ? ?] ?]|].
  destruct (_ !! _) as [s|]; [|done]. by case_bool_decide.
Qed.

(** A pin is added, or nothing happens. *)
Lemma pin_run status account limit w d r w' d' :
  pin_local_status status account limit w d = (Ok r, w', d') ->
  (d' = d /\ (r ∈ [NotFound; NotOwned; UnsupportedVisibility; LimitReached] \/
     r = AlreadyPinned /\ exists s, live_status d (status_uuid status) = Some (status_uuid status, s) /\
        Statuses.ls_account s = account /\ Statuses.ls_visibility s ∈ [Statuses.Public; Statuses.Unlisted] /\
        is_local_status_pinned (status_uuid status) d = true)) \/
  r = Pinned /\ exists i s now,
    live_status d (status_uuid status) = Some (status_uuid status, s) /\ Statuses.ls_account s = account /\
    Statuses.ls_visibility s ∈ [Statuses.Public; Statuses.Unlisted] /\
    Z.of_nat (count_where (pins_of_account account) (pins d)) < limit /\ pins d !! i = None /\
    count_where (pins_of_status (status_uuid status)) (pins d) = 0%nat /\
    d' = with_pins (<[i := mkPin account (status_uuid status) now]>) d.
Proof.
  intros H. unfold pin_local_status in H. inv_bind H found w1 d1 Hf.
  apply find_run in Hf as (-> & -> & [= ->]).
  destruct (live_status d (status_uuid status)) as [[i s]|] eqn:Hl; cbn [fmap option_fmap option_map snd] in H;
    [|injection H as <- _ <-; left; split; [done|]; first [left; set_solver|set_solver]].
  assert (i = status_uuid status) as ->.
  { revert Hl. unfold live_status. repeat case_match; intros; simplify_eq; done. }
  destruct (negb _) eqn:Ha; [injection H as <- _ <-; left; split; [done|]; first [left; set_solver|set_solver]|]. apply negb_false_iff, N.eqb_eq in Ha.
  destruct (negb _) eqn:Hv; [injection H as <- _ <-; left; split; [done|]; first [left; set_solver|set_solver]|].
  assert (Hopen : Statuses.ls_visibility s ∈ [Statuses.Public; Statuses.Unlisted]).
  { apply negb_false_iff, orb_true_iff in Hv as [Hv|Hv]; apply bool_decide_eq_true in Hv as ->; set_solver. }
  inv_bind H d2 w2 d3 Hg. injection Hg as <- <- <-.
  destruct (0 <? _)%nat eqn:Hp; [injection H as <- _ <-; left; split; [done|]; right; split; [done|]; by exists s|].
  apply Nat.ltb_ge in Hp.
  destruct (limit <=? _) eqn:Hlim; [injection H as <- _ <-; left; split; [done|]; first [left; set_solver|set_solver]|]. apply Z.leb_gt in Hlim.
  inv_bind H i w3 d4 Hi. injection Hi as _ <- <-. inv_bind H now w4 d5 Hn. injection Hn as _ <- <-.
  inv_bind H t w5 d6 Ht. apply lift_result_Ok in Ht as (Ht & -> & ->).
  destruct (insert_pin _ _ _ _) as [t'|e] eqn:E; [|done]. injection Ht as ->.
  apply insert_pin_Ok in E as (Hfree & Hnone & ->). inv_bind H u w6 d7 Hm. injection Hm as _ _ <-.
  injection H as <- _ <-. right. split; [done|]. exists i, s, now. repeat split; done || lia.
Qed.

Lemma unpin_run status account w d r w' d' :
  unpin_local_status status account w d = (Ok r, w', d') ->
  (d' = d /\ r ∈ [NotFound; NotOwned]) \/
  (exists s, live_status d (status_uuid status) = Some (status_uuid status, s) /\ Statuses.ls_account s = account /\
   let own p := pins_of_status (status_uuid status) p && pins_of_account account p in
   d' = with_pins (delete_where own) d /\
   r = if (count_where own (pins d) =? 0)%nat then AlreadyUnpinned else Unpinned).
Proof.
  intros H. unfold unpin_local_status in H. inv_bind H found w1 d1 Hf.
  apply find_run in Hf as (-> & -> & [= ->]).
  destruct (live_status d (status_uuid status)) as [[i s]|] eqn:Hl; cbn [fmap option_fmap option_map snd] in H;
    [|injection H as <- _ <-; left; split; [done|]; first [left; set_solver|set_solver]].
  assert (i = status_uuid status) as ->.
  { revert Hl. unfold live_status. repeat case_match; intros; simplify_eq; done. }
  destruct (negb _) eqn:Ha; [injection H as <- _ <-; left; split; [done|]; first [left; set_solver|set_solver]|]. apply negb_false_iff, N.eqb_eq in Ha.
  inv_bind H d2 w2 d3 Hg. injection Hg as <- <- <-. inv_bind H u w3 d4 Hm. injection Hm as _ _ <-.
  injection H as <- _ <-. right. exists s. done.
Qed.

(** What a request does to the tables. *)
Inductive changed (d d' : Db) : Prop :=
| nothing : tables d' = tables d -> changed d d'
| added i status s now :
    live_status d status = Some (status, s) -> Statuses.ls_visibility s ∈ [Statuses.Public; Statuses.Unlisted] ->
    (count_where (pins_of_account (Statuses.ls_account s)) (pins d) < 5)%nat -> pins d !! i = None ->
    count_where (pins_of_status status) (pins d) = 0%nat ->
    tables d' = tables (with_pins (<[i := mkPin (Statuses.ls_account s) status now]>) d) -> changed d d'
| removed q : tables d' = tables (with_pins (delete_where q) d) -> changed d d'.

Lemma changed_tables d d1 d' : tables d1 = tables d' -> changed d d1 -> changed d d'.
Proof. intros E [H|i status s now ? ? ? ? ? H|q H]; rewrite E in H; [by apply nothing|by eapply added|by eapply removed]. Qed.

Lemma announced_tables status pin b z w d w' d' :
  announce_pin uuid_text public_url federation_enabled prove status pin b w d = (Ok (Commit z), w', d') ->
  tables d' = tables d.
Proof.
  intros E. unfold announce_pin in E. inv_bind E found w3 d3 Hf. apply find_run in Hf as (-> & -> & [= ->]).
  destruct (snd <$> live_status d (status_uuid status)); [|done]. inv_bind E u w4 d4 Ha.
  injection E as _ _ <-. destruct b; [|by injection Ha as _ _ <-].
  exact (keeps_run _ _ _ _ _ _ _ (keeps_announce _ _ _) Ha).
Qed.

Lemma request_changed account status pin w d r w' d' :
  pin_request uuid_text public_url federation_enabled prove account status pin w d = (r, w', d') -> changed d d'.
Proof.
  intros H. unfold pin_request, transaction in H.
  destruct (mutate_status_pin _ _ _ _ _ _ _ w d) as [[[[z|z]|e] w1] d1] eqn:E; injection H as _ _ <-;
    [|by apply nothing..].
  unfold mutate_status_pin in E. inv_bind E res w2 d2 Hres.
  assert (Hc : changed d d2).
  { destruct pin.
    - apply pin_run in Hres as [[-> _]|(_ & i & s & now & Hl & Ha & Hv & Hn & Hi & Hs & ->)]; [by apply nothing|].
      eapply added; [exact Hl|exact Hv| |exact Hi|exact Hs|by subst]. subst. unfold MAX_PINNED_STATUSES in Hn. lia.
    - apply unpin_run in Hres as [[-> _]|(s & _ & _ & -> & _)]; [by apply nothing|]. by eapply removed. }
  eapply changed_tables, Hc. symmetry. clear Hc Hres.
  destruct res; try done; eauto using announced_tables.
Qed.

(** ** Histories *)

(** Requests, deletions, new statuses, and whatever leaves statuses and pins alone. *)
Inductive step : World * Db -> World * Db -> Prop :=
| step_request account status pin w d r w' d' :
    pin_request uuid_text public_url federation_enabled prove account status pin w d = (r, w', d') ->
    step (w, d) (w', d')
| step_delete status account w d r w' d' :
    delete_owned_local_status status account w d = (r, w', d') -> step (w, d) (w', d')
| step_post i s w d w' d' :
    Statuses.local_statuses (statuses_of d) !! i = None ->
    tables d' = (<[i := s]> (Statuses.local_statuses (statuses_of d)), pins d) -> step (w, d) (w', d')
| step_elsewhere w d w' d' : tables d' = tables d -> step (w, d) (w', d').

Definition reachable (d : Db) : Prop :=
  exists w w' d0, pins d0 = ∅ /\ rtc step (w, d0) (w', d).

Lemma changed_ok d d' : changed d d' -> pins_ok d -> pins_ok d'.
Proof.
  intros [H|i status s now Hl Hv Hn Hi Hs H|q H] Hok; eapply pins_ok_tables; try exact H; [done|..]; clear H.
  - destruct Hok as [Ho Hu Hf]. split; cbn [pins with_pins].
    + intros j p [[<- <-]|[_ Hp]]%lookup_insert_Some; [|by apply (Ho j)]. exists s. revert Hl. unfold live_status.
      cbn. repeat case_match; intros; simplify_eq. by case_bool_decide.
    + by apply once_insert.
    + intros account. rewrite count_where_insert_fresh by done. specialize (Hf account).
      unfold pins_of_account at 1. cbn. destruct (_ =? account)%N eqn:E; [|lia]. apply N.eqb_eq in E as <-. lia.
  - destruct Hok as [Ho Hu Hf]. split; cbn [pins with_pins].
    + intros j p [Hp _]%lookup_delete_where_Some. by apply (Ho j).
    + eapply once_shrinks, Hu. by intros j p [Hp _]%lookup_delete_where_Some.
    + by apply at_most_delete.
Qed.

Lemma delete_ok status account w d r w' d' :
  delete_owned_local_status status account w d = (r, w', d') -> pins_ok d -> pins_ok d'.
Proof.
  unfold delete_owned_local_status. intros H Hok.
  destruct (on_statuses (Statuses.find_local_status_by_id (mkStatusId status)) w d) as [[rf w1] d1] eqn:E.
  apply find_run in E as E1. destruct E1 as (-> & -> & ->). unfold mbind, M_bind in H. rewrite E in H.
  destruct (snd <$> live_status d _) as [s|]; [|by injection H as _ _ <-].
  destruct (negb _); [by injection H as _ _ <-|]. injection H as _ _ <-. destruct Hok as [Ho Hu Hf].
  split; cbn [pins with_pins].
  - intros j p [Hp Hq]%lookup_delete_where_Some. destruct (Ho j p Hp) as (s' & Hs' & Hrest). exists s'.
    split; [|done]. unfold pins_of_status in Hq. apply N.eqb_neq in Hq.
    etransitivity; [|exact Hs']. apply lookup_alter_ne. congruence.
  - eapply once_shrinks, Hu. by intros j p [Hp _]%lookup_delete_where_Some.
  - by apply at_most_delete.
Qed.

Lemma pins_step_ok wd wd' : step wd wd' -> pins_ok wd.2 -> pins_ok wd'.2.
Proof.
  intros [account status pin w d r w' d' H|status account w d r w' d' H|i s w d w' d' Hi H|w d w' d' H] Hok; cbn in *.
  - eapply changed_ok, Hok. by eapply request_changed.
  - by eapply delete_ok.
  - injection H as El Ep. destruct Hok as [Ho Hu Hf]. split; rewrite ?Ep; try done.
    intros j p Hp. destruct (Ho j p Hp) as (s' & Hs' & Hrest). exists s'. split; [|done]. rewrite El.
    rewrite lookup_insert_ne; [done|]. intros ->. by rewrite Hi in Hs'.
  - by eapply pins_ok_tables.
Qed.

Lemma reachable_pins_ok d : reachable d -> pins_ok d.
Proof.
  intros (w & w' & d0 & H0 & Hh).
  refine (rtc_ind_r (R := step) (fun wd => pins_ok wd.2) (w, d0) _ _ (w', d) Hh).
  - split; cbn; rewrite H0; [done|done|]. intros account. rewrite count_where_none; [lia|done].
  - intros wd1 wd2 _ Hstep Hok. by eapply pins_step_ok.
Qed.

(** ** The featured collection *)

Lemma rows_of_account account (t : pin_table) :
  length (List.filter (fun p : uuid * Pin => pins_of_account account p.2) (map_to_list t)) =
  count_where (pins_of_account account) t.
Proof. unfold count_where, rows_where, rows. by rewrite filter_fmap, length_fmap. Qed.

(** A page that has room for every pin of the account lists them all. *)
Lemma whole_page {A} (live : uuid -> option A) account limit (t : pin_table) :
  0 <= limit < u64_modulus - 1 -> Z.of_nat (count_where (pins_of_account account) t) <= limit ->
  Pagination.items (pinned_statuses_by_account live account limit Pagination.no_cursor t) =
  omap (fun p : uuid * Pin => live (pin_status p.2)) (order_by latest_first
    (List.filter (fun p : uuid * Pin => pins_of_account account p.2) (map_to_list t))).
Proof.
  intros Hlimit Hn. unfold pinned_statuses_by_account, Pagination.page_of. cbn.
  set (rows := order_by _ _). assert (Hl : (length rows <= Z.to_nat limit)%nat).
  { unfold rows. rewrite order_by_Permutation, rows_of_account. lia. }
  rewrite take_ge by (unfold Pagination.page_query_limit; lia). unfold Pagination.trim_to_page.
  by rewrite bool_decide_false by lia.
Qed.

Lemma pinned_iff status d :
  is_local_status_pinned status d = true <-> exists i p, pins d !! i = Some p /\ pin_status p = status.
Proof.
  unfold is_local_status_pinned. rewrite Nat.ltb_lt, count_positive. unfold pins_of_status.
  by setoid_rewrite N.eqb_eq.
Qed.

(** Whatever is posted, pinned, unpinned and deleted, an account has at most five pins,
    each on a status of its own that is public or unlisted and not deleted, and its
    featured collection serves exactly the pinned statuses, each once. *)
Theorem featured_is_what_is_pinned d account :
  reachable d ->
  (length (featured account d) <= 5)%nat /\ NoDup (featured account d).*1 /\
  forall i s, (i, s) ∈ featured account d <->
    is_local_status_pinned i d = true /\ Statuses.local_statuses (statuses_of d) !! i = Some s /\
    Statuses.ls_account s = account /\ Statuses.ls_deleted_at s = None /\
    Statuses.ls_visibility s ∈ [Statuses.Public; Statuses.Unlisted].
Proof.
  intros Hr%reachable_pins_ok. pose proof (po_few _ Hr account) as Hfew.
  unfold featured, pinned_local_statuses_by_account, MAX_PINNED_STATUSES. rewrite whole_page by (unfold u64_modulus; lia).
  set (rows := List.filter _ _).
  assert (Hrows : forall i p, (i, p) ∈ rows <-> pins d !! i = Some p /\ pin_owner p = account).
  { intros i p. unfold rows. rewrite list_elem_of_In, List.filter_In, <- list_elem_of_In, elem_of_map_to_list.
    unfold pins_of_account. cbn. by rewrite N.eqb_eq. }
  assert (Hnd : NoDup rows) by apply NoDup_ListNoDup, List.NoDup_filter, NoDup_ListNoDup, NoDup_map_to_list.
  set (found := fun i => default (Statuses.sample_status 0 None) (Statuses.local_statuses (statuses_of d) !! i)).
  assert (Hfound : forall i p, (i, p) ∈ rows -> live_status d (pin_status p) = Some (pin_status p, found (pin_status p))).
  { intros i p [Hp _]%Hrows. destruct (po_own _ Hr i p Hp) as (s & Hs & _ & Hd & _).
    unfold live_status, found. rewrite Hs. by rewrite bool_decide_true. }
  rewrite (omap_all _ (fun p : uuid * Pin => (pin_status p.2, found (pin_status p.2)))) by
    (intros [i p] Hp; apply (Hfound i p); by rewrite order_by_Permutation in Hp).
  split; [|split].
  - rewrite length_fmap, order_by_Permutation. unfold rows. rewrite rows_of_account. lia.
  - rewrite <- list_fmap_compose, order_by_Permutation. apply NoDup_fmap_2_strong; [|done].
    intros [i p] [j q] [Hp _]%Hrows [Hq _]%Hrows E. cbn in E.
    pose proof (po_once _ Hr i j p q Hp Hq E) as ->. by simplify_eq.
  - intros i s. rewrite order_by_Permutation, list_elem_of_fmap, pinned_iff. split.
    + intros ([j p] & [= -> ->] & Hp). apply Hrows in Hp as [Hp Ha].
      destruct (po_own _ Hr j p Hp) as (s & Hs & Ho & Hd & Hv). unfold found. cbn [snd]. rewrite Hs. cbn.
      split; [by exists j, p|]. split; [done|]. split; [congruence|done].
    + intros ((j & p & Hp & <-) & Hs & Ha & _). exists (j, p). split; [unfold found; cbn [snd]; by rewrite Hs|].
      apply Hrows. split; [done|]. destruct (po_own _ Hr j p Hp) as (s' & Hs' & Ho & _). congruence.
Qed.

Lemma find_eq status w d :
  on_statuses (Statuses.find_local_status_by_id status) w d = (Ok (snd <$> live_status d (status_uuid status)), w, d).
Proof.
  destruct (on_statuses _ w d) as [[r w'] d'] eqn:E. apply find_run in E as (-> & -> & ->). done.
Qed.

Lemma unpinned_tables own d : count_where own (pins d) = 0%nat -> with_pins (delete_where own) d = d.
Proof.
  intros Hn. destruct d as [x t]. unfold with_pins. f_equal. apply map_eq. intros i. rewrite lookup_delete_where.
  cbn in *. destruct (t !! i) as [p|] eqn:E; [|done]. destruct (own p) eqn:Ep; [|done].
  assert (0 < count_where own t)%nat; [|lia]. apply count_positive. eauto.
Qed.

Lemma announce_idle status pin w d s :
  live_status d (status_uuid status) = Some (status_uuid status, s) ->
  announce_pin uuid_text public_url federation_enabled prove status pin false w d = (Ok (Commit 200), w, d).
Proof.
  intros Hl. unfold announce_pin, mbind, M_bind. rewrite find_eq, Hl. done.
Qed.

Lemma mutation_answered_200 account status pin w d w' d' :
  pin_request uuid_text public_url federation_enabled prove account status pin w d = (Ok 200, w', d') ->
  exists res w1 d1,
    (if pin then pin_local_status status account MAX_PINNED_STATUSES else unpin_local_status status account) w d =
      (Ok res, w1, d1) /\
    res ∈ [Pinned; AlreadyPinned; Unpinned; AlreadyUnpinned] /\ tables d' = tables d1.
Proof.
  intros H. unfold pin_request, transaction in H.
  destruct (mutate_status_pin _ _ _ _ _ _ _ w d) as [[[[z|z]|e] w1] d1] eqn:E; [| |done];
    injection H as -> <- <-; unfold mutate_status_pin in E; inv_bind E res w3 d3 Hres.
  - exists res, w3, d3. split; [done|].
    destruct res; first [by injection E|split; [set_solver|by eapply announced_tables]].
  - exfalso. destruct res; try (by injection E); unfold announce_pin in E; inv_bind E found w4 d4 Hf;
      (destruct found; [inv_bind E u w5 d5 Hu|]; by injection E).
Qed.

Lemma pin_again status account s w d :
  live_status d (status_uuid status) = Some (status_uuid status, s) -> Statuses.ls_account s = account ->
  Statuses.ls_visibility s ∈ [Statuses.Public; Statuses.Unlisted] ->
  is_local_status_pinned (status_uuid status) d = true ->
  pin_request uuid_text public_url federation_enabled prove account status true w d = (Ok 200, w, d).
Proof.
  intros Hl Ha Hv Hp. unfold pin_request, transaction, mutate_status_pin.
  assert (E : pin_local_status status account MAX_PINNED_STATUSES w d = (Ok AlreadyPinned, w, d)).
  { unfold pin_local_status, mbind, M_bind. rewrite find_eq, Hl. cbn [fmap option_fmap option_map snd].
    rewrite Ha, N.eqb_refl. cbn [negb].
    assert (Eopen : bool_decide (Statuses.ls_visibility s = Statuses.Public)
      || bool_decide (Statuses.ls_visibility s = Statuses.Unlisted) = true).
    { apply orb_true_iff. rewrite !bool_decide_eq_true. set_solver. }
    rewrite Eopen. unfold is_local_status_pinned in Hp. cbn [negb gets]. by rewrite Hp. }
  unfold mbind, M_bind. rewrite E. by rewrite (announce_idle _ _ _ _ s).
Qed.

Lemma unpin_again status account s w d :
  live_status d (status_uuid status) = Some (status_uuid status, s) -> Statuses.ls_account s = account ->
  count_where (pins_of_status (status_uuid status)) (pins d) = 0%nat ->
  pin_request uuid_text public_url federation_enabled prove account status false w d = (Ok 200, w, d).
Proof.
  intros Hl Ha Hn. unfold pin_request, transaction, mutate_status_pin.
  set (own := fun p => pins_of_status (status_uuid status) p && pins_of_account account p).
  assert (Hown : count_where own (pins d) = 0%nat).
  { apply count_where_none. intros i p Hp. unfold own. destruct (pins_of_status _ p) eqn:Es; [|done]. exfalso.
    assert (0 < count_where (pins_of_status (status_uuid status)) (pins d))%nat; [|lia]. apply count_positive; eauto. }
  assert (E : unpin_local_status status account w d = (Ok AlreadyUnpinned, w, d)).
  { unfold unpin_local_status, mbind, M_bind. rewrite find_eq, Hl. cbn [fmap option_fmap option_map snd].
    rewrite Ha, N.eqb_refl. cbn [negb gets modify]. fold own. rewrite Hown. cbn. by rewrite unpinned_tables. }
  unfold mbind, M_bind. rewrite E. by rewrite (announce_idle _ _ _ _ s).
Qed.

(** A request to pin or unpin that is answered 200 leaves the status pinned or not, as
    asked; the same request once more is answered 200 again, and changes nothing and
    announces nothing. *)
Theorem pinning_is_idempotent account status pin w d w' d' w2 :
  reachable d ->
  pin_request uuid_text public_url federation_enabled prove account status pin w d = (Ok 200, w', d') ->
  is_local_status_pinned (status_uuid status) d' = pin /\
  pin_request uuid_text public_url federation_enabled prove account status pin w2 d' = (Ok 200, w2, d').
Proof.
  intros Hr%reachable_pins_ok H. apply mutation_answered_200 in H as (res & w1 & d1 & Hres & Hin & [= El Ep]).
  assert (Hlive : forall i, live_status d' i = live_status d1 i) by (intros i; unfold live_status; by rewrite El).
  assert (Hpinned : forall i, is_local_status_pinned i d' = is_local_status_pinned i d1)
    by (intros i; unfold is_local_status_pinned; by rewrite Ep).
  rewrite Hpinned. destruct pin.
  - assert (Hp : exists s, live_status d1 (status_uuid status) = Some (status_uuid status, s) /\
        Statuses.ls_account s = account /\ Statuses.ls_visibility s ∈ [Statuses.Public; Statuses.Unlisted] /\
        is_local_status_pinned (status_uuid status) d1 = true).
    { apply pin_run in Hres as [(-> & [Hno|(_ & s & Hs)])|(_ & i & s & now & Hl & Ha & Hv & _ & _ & _ & ->)].
      - exfalso. set_solver.
      - exists s. done.
      - exists s. split; [done|]. split; [done|]. split; [done|]. apply pinned_iff. cbn. exists i. eexists.
        split; [apply lookup_insert_eq|done]. }
    destruct Hp as (s & Hl & Ha & Hv & Hp). split; [done|].
    apply (pin_again _ _ s); rewrite ?Hlive, ?Hpinned; done.
  - apply unpin_run in Hres as [[-> Hne]|(s & Hl & Ha & -> & _)]; [exfalso; set_solver|].
    assert (Hgone : count_where (pins_of_status (status_uuid status)) (pins d') = 0%nat).
    { rewrite Ep. cbn. apply count_where_none. intros i p [Hp Hq]%lookup_delete_where_Some.
      destruct (pins_of_status _ p) eqn:Es; [|done]. exfalso. cbn in Hq. apply N.eqb_neq in Hq. apply Hq.
      destruct (po_own _ Hr i p Hp) as (s' & Hs' & Ho & _). apply N.eqb_eq in Es. rewrite Es in Hs'.
      revert Hl. unfold live_status. rewrite Hs'. case_bool_decide; intros; by simplify_eq. }
    rewrite <- Hpinned. split; [unfold is_local_status_pinned; by rewrite Hgone|].
    apply (unpin_again _ _ s); rewrite ?Hlive; done.
Qed.
End LocalPins.

(** * Cached collections *)

Section RemotePins.
Import Pins.Remote.

(** ** Refreshing *)

Section Refresh.
Context (uuid_text : uuid -> string) (parse_url : string -> option Url) (fetch_json : Url -> result JsonValue RoostyError).

(** A URL that a document of a collection may lead to. *)
Definition on_the_same_server (featured url : Url) : Prop :=
  url_scheme url = "https"%string /\ url_username url = EmptyString /\ url_password url = None /\
  url_origin url = url_origin featured.

Lemma member_url_ok featured member url :
  validated_featured_member_url parse_url featured member = Ok url -> on_the_same_server featured url.
Proof.
  unfold validated_featured_member_url. destruct (parse_url member) as [u|]; [|done].
  destruct (_ || _) eqn:E; [done|]. intros [= <-]. rewrite !orb_false_iff, !negb_false_iff in E.
  destruct E as [[[H1 H2] H3] H4]. apply bool_decide_eq_true in H1, H2, H4. apply bool_decide_eq_false in H3.
  unfold on_the_same_server. by rewrite eq_None_not_Some.
Qed.

Lemma read_page_length so_far document page :
  read_page uuid_text so_far document = Ok page -> (length page.1 <= 20)%nat.
Proof.
  unfold read_page. destruct (page_items _ _) as [items|]; [|done]. destruct (20 <=? _)%nat eqn:E; intros [= <-]; cbn.
  - rewrite length_take. lia.
  - apply Nat.leb_gt in E. lia.
Qed.

Lemma collect_items_bounds more featured url so_far w d r w' d' :
  collect_items uuid_text parse_url fetch_json more featured url so_far w d = (r, w', d') ->
  pins d' = pins d /\
  exists urls, fetched d' = fetched d ++ url :: urls /\ (length urls <= more)%nat /\
    Forall (on_the_same_server featured) urls /\ (forall items, r = Ok items -> (length items <= 20)%nat).
Proof.
  revert url so_far w d r w' d'. induction more as [|more IH]; intros url so_far w d r w' d' H; cbn [collect_items] in H;
    unfold fetch, mbind, M_bind, lift_result, mret, M_ret, throw, modify in H; cbn [fst snd] in H;
    (destruct (fetch_json url) as [doc|e]; [|injection H as <- _ <-; split; [done|exists []; split; [done|split; [cbn; lia|done]]]]);
    (destruct (read_page uuid_text so_far doc) as [page|e] eqn:Hp;
      [|injection H as <- _ <-; split; [done|exists []; split; [done|split; [cbn; lia|done]]]]);
    apply read_page_length in Hp.
  - assert (E : (Ok page.1, w, with_fetched (fun urls => urls ++ [url]) d) = (r, w', d')) by (by destruct page.2).
    injection E as <- _ <-. split; [done|]. exists []. split; [done|]. split; [done|]. split; [done|]. by intros items [= <-].
  - destruct (page.2) as [next|].
    + destruct (validated_featured_member_url parse_url featured next) as [url'|e] eqn:Hu;
        [|injection H as <- _ <-; split; [done|exists []; split; [done|split; [cbn; lia|done]]]].
      apply IH in H as (Hpins & urls & Hf & Hn & Hall & Hitems). split; [done|]. exists (url' :: urls).
      split; [rewrite Hf; cbn; by rewrite <- app_assoc|]. split; [cbn; lia|]. split; [|done].
      constructor; [by eapply member_url_ok|done].
    + injection H as <- _ <-. split; [done|]. exists []. split; [done|]. split; [cbn; lia|]. split; [done|].
      by intros items [= <-].
Qed.

(** A refresh of a featured collection ends after at most five requests, the first to
    the collection itself and the others over https to its server and port, without
    credentials, wherever the documents point, and yields at most twenty entries. *)
Theorem refresh_is_bounded featured w d r w' d' :
  featured_items uuid_text parse_url fetch_json featured w d = (r, w', d') ->
  pins d' = pins d /\
  exists urls, fetched d' = fetched d ++ featured :: urls /\ (length urls <= 4)%nat /\
    Forall (on_the_same_server featured) urls /\ (forall items, r = Ok items -> (length items <= 20)%nat).
Proof. apply collect_items_bounds. Qed.
End Refresh.

(** ** Replacing a collection *)

(** The entries of a refresh: the identifiers ascend while the times descend. *)
Definition entry (source : nat -> uuid) (actor : uuid) (now : time) (first : nat) (k : nat) (status : uuid) :
    uuid * Pin :=
  (source (first + k)%nat, mkPin actor status (now - 1000 * Z.of_nat k)).

Lemma insert_all_run actor now (l : list (nat * uuid)) w d r w' d' :
  for_each l (insert_at actor now) w d = (Ok r, w', d') ->
  inbox d' = inbox d /\ map_to_list (pins d') ≡ₚ
    imap (fun k p => (w_uuid_source w (w_uuids w + k)%nat, mkPin actor p.2 (now - 1000 * Z.of_nat p.1))) l
      ++ map_to_list (pins d).
Proof.
  revert w d. induction l as [|p l IH]; intros w d H; [by injection H as _ _ <-|].
  cbn [for_each] in H. inv_bind H u w1 d1 Hp. unfold insert_at in Hp.
  inv_bind Hp i w2 d2 Hi. injection Hi as <- <- <-. unfold insert in Hp. inv_bind Hp d3 w3 d4 Hg. injection Hg as <- <- <-.
  inv_bind Hp t w4 d5 Ht. apply lift_result_Ok in Ht as (Ht & -> & ->).
  destruct (insert_pin _ _ _ _) as [t'|e] eqn:E; [|done]. injection Ht as ->.
  apply insert_pin_Ok in E as (Hfree & _ & ->). injection Hp as _ <- <-.
  apply IH in H as [Hinbox Hl]. split; [done|]. cbn [imap]. rewrite Hl. cbn [pins with_pins].
  rewrite map_to_list_insert by done. rewrite Nat.add_0_r, <- Permutation_middle. cbn.
  apply Permutation_cons; [done|]. apply Permutation_app; [|done]. erewrite imap_ext; [done|].
  intros k q Hq. cbn. by rewrite Nat.add_succ_r.
Qed.

Lemma order_by_strict {A} (le : A -> A -> bool) (l xs : list A) :
  (forall a b, le a b = true \/ le b a = true) ->
  (forall a b c, le a b = true -> le b c = true -> le a c = true) ->
  StronglySorted (fun a b => le a b = true /\ le b a = false) xs -> l ≡ₚ xs -> order_by le l = xs.
Proof.
  intros Htotal Htrans Hs Hl. apply (StronglySorted_unique_strong (fun a b => le a b = true)).
  - intros a b Ha Hb Hab Hba. rewrite order_by_Permutation, Hl in Ha. clear -Hs Ha Hb Hab Hba.
    induction Hs as [|x xs _ IH Hx]; [by apply not_elem_of_nil in Ha|]. rewrite Forall_forall in Hx.
    apply elem_of_cons in Ha as [->|Ha], Hb as [->|Hb]; [done| | |by apply IH].
    + destruct (Hx b Hb). congruence.
    + destruct (Hx a Ha). congruence.
  - by apply order_by_sorted.
  - clear -Hs. induction Hs as [|x xs Hs IH Hx]; constructor; [done|].
    eapply Forall_impl; [exact Hx|]. by intros b [Hb _].
  - by rewrite order_by_Permutation.
Qed.

Lemma latest_first_total a b : latest_first a b = true \/ latest_first b a = true.
Proof.
  unfold latest_first. destruct (Z.lt_trichotomy (pinned_at a.2) (pinned_at b.2)) as [H|[H|H]].
  - right. apply orb_true_iff. left. by apply Z.ltb_lt.
  - rewrite H, Z.ltb_irrefl, Z.eqb_refl. cbn. rewrite !N.leb_le. lia.
  - left. apply orb_true_iff. left. by apply Z.ltb_lt.
Qed.

Lemma latest_first_trans a b c : latest_first a b = true -> latest_first b c = true -> latest_first a c = true.
Proof. unfold latest_first. rewrite !orb_true_iff, !andb_true_iff, !Z.ltb_lt, !Z.eqb_eq, !N.leb_le. lia. Qed.

Lemma entries_sorted source actor now first status_ids :
  StronglySorted (fun a b => latest_first a b = true /\ latest_first b a = false)
    (imap (entry source actor now first) status_ids).
Proof.
  assert (H : forall l k, StronglySorted (fun a b => latest_first a b = true /\ latest_first b a = false)
      (imap (fun j => entry source actor now first (k + j)) l)).
  { induction l as [|i l IH]; intros k; cbn; constructor.
    - specialize (IH (S k)). erewrite imap_ext; [exact IH|]. intros j x _. cbn. by rewrite Nat.add_succ_r.
    - apply Forall_forall. intros e (j & x & -> & _)%elem_of_lookup_imap. unfold latest_first, entry. cbn.
      rewrite orb_true_iff, orb_false_iff, andb_false_iff, Z.ltb_lt, Z.ltb_ge, Z.eqb_neq. lia. }
  exact (H status_ids 0%nat).
Qed.

(** A page cuts a strictly sorted list of rows. *)
Lemma filter_prefix {A B} (p : B -> bool) (f : nat -> A -> B) n l :
  (forall k a, l !! k = Some a -> p (f k a) = (k <? n)%nat) -> List.filter p (imap f l) = take n (imap f l).
Proof.
  revert f n. induction l as [|a l IH]; intros f n Hp; [by destruct n|]. cbn [imap List.filter].
  rewrite (Hp 0%nat a eq_refl). destruct n as [|n]; cbn.
  - rewrite (IH (f ∘ S) 0%nat); [done|]. intros k b Hk. exact (Hp (S k) b Hk).
  - f_equal. apply IH. intros k b Hk. exact (Hp (S k) b Hk).
Qed.
(** The actor's rows after a refresh, in the order of its collection. *)
Lemma replaced_rows actor status_ids w d r w' d' :
  replace_remote_status_pins actor status_ids w d = (Ok r, w', d') ->
  inbox d' = inbox d /\ exists now,
    List.filter (fun p : uuid * Pin => pins_of_account actor p.2) (map_to_list (pins d')) ≡ₚ
    imap (entry (w_uuid_source w) actor now (w_uuids w)) status_ids.
Proof.
  intros H. unfold replace_remote_status_pins in H. inv_bind H u w1 d1 Hm. injection Hm as _ <- <-.
  inv_bind H now w2 d2 Hn. injection Hn as _ <- <-. apply insert_all_run in H as [Hinbox Hl].
  split; [done|]. exists now. rewrite (filter_Permutation _ _ _ Hl), List.filter_app. cbn [pins with_pins].
  assert (Enone : List.filter (fun p : uuid * Pin => pins_of_account actor p.2)
      (map_to_list (delete_where (pins_of_account actor) (pins d))) = []).
  { apply elem_of_nil_inv. intros [i p]. rewrite list_elem_of_In, List.filter_In, <- list_elem_of_In,
      elem_of_map_to_list. intros [[_ Hp]%lookup_delete_where_Some Hq]. cbn in *. congruence. }
  rewrite Enone, app_nil_r, filter_prefix with (n := length (imap pair status_ids)).
  - rewrite take_ge by by rewrite length_imap. erewrite <- (list_eq _ (imap (entry _ _ _ _) status_ids)); [done|].
    intros k. rewrite !list_lookup_imap. by destruct (status_ids !! k).
  - intros k [j i] Hk. pose proof (lookup_lt_Some _ _ _ Hk) as Hlt. apply Nat.ltb_lt in Hlt. rewrite Hlt.
    unfold pins_of_account. cbn. apply N.eqb_refl.
Qed.


Lemma take_imap {A B} (f : nat -> A -> B) n l : take n (imap f l) = imap f (take n l).
Proof.
  revert f n. induction l as [|a l IH]; intros f n; [by destruct n|]. destruct n as [|n]; [done|]. cbn. by rewrite IH.
Qed.

Lemma live_items {A} (live : uuid -> option (uuid * A)) source actor now first status_ids :
  (forall i, i ∈ status_ids -> exists s, live i = Some (i, s)) ->
  (omap (fun p : uuid * Pin => live (pin_status p.2)) (imap (entry source actor now first) status_ids)).*1 = status_ids.
Proof.
  intros Hlive. enough (H : forall l k, (forall i, i ∈ l -> exists s, live i = Some (i, s)) ->
    (omap (fun p : uuid * Pin => live (pin_status p.2))
       (imap (fun j => entry source actor now first (k + j)) l)).*1 = l) by exact (H status_ids 0%nat Hlive).
  clear. induction l as [|i l IH]; intros k Hlive; [done|]. cbn [imap]. csimpl.
  destruct (Hlive i) as [s ->]; [by left|]. csimpl. f_equal. rewrite <- (IH (S k)) at 2 by (intros; apply Hlive; by right).
  do 2 f_equal. apply imap_ext. intros j x _. cbn. by rewrite Nat.add_succ_r.
Qed.

(** The entries of a refreshed collection are ordered by falling times, while their
    identifiers rise and the cursors of a page are identifiers.  So the first page is the
    beginning of the collection, but the page that its Link header names as the next one
    repeats the first page without its last entry and claims to be the last page: the
    entries after the first page are never shown. *)
Theorem second_page_repeats_the_first actor status_ids limit w d r w' d' :
  (forall m n, (m < n)%nat -> (w_uuid_source w m < w_uuid_source w n)%N) ->
  replace_remote_status_pins actor status_ids w d = (Ok r, w', d') ->
  (forall i, i ∈ status_ids -> is_Some (live_status d' i)) ->
  0 < limit < Z.of_nat (length status_ids) -> limit < u64_modulus - 1 ->
  let page1 := pinned_remote_statuses_by_account actor limit Pagination.no_cursor d' in
  let page2 := pinned_remote_statuses_by_account actor limit
    (Pagination.mkCursor (Pagination.last_cursor page1) None None) d' in
  (Pagination.items page1).*1 = take (Z.to_nat limit) status_ids /\ Pagination.has_more page1 = true /\
  (Pagination.items page2).*1 = take (Z.to_nat limit - 1) status_ids /\ Pagination.has_more page2 = false.
Proof.
  intros Hsource Hrun Hlive Hlimit Hwidth. apply replaced_rows in Hrun as [_ [now Hrows]].
  set (n := Z.to_nat limit). set (P := imap (entry (w_uuid_source w) actor now (w_uuids w))) in *.
  assert (HP : length (P status_ids) = length status_ids) by apply length_imap.
  assert (Hlive' : forall k i, i ∈ take k status_ids -> exists s, live_status d' i = Some (i, s)).
  { intros k i Hi. assert (Hi' : i ∈ status_ids) by (rewrite <- (take_drop k status_ids), elem_of_app; by left).
     destruct (Hlive i Hi') as [[j s] Hj].
    exists s. rewrite Hj. revert Hj. unfold live_status. repeat case_match; intros; by simplify_eq. }
  assert (Hsorted : forall k l, l ≡ₚ P (take k status_ids) -> order_by latest_first l = P (take k status_ids)).
  { intros k l Hl. eapply order_by_strict; [apply latest_first_total|apply latest_first_trans|apply entries_sorted|done]. }
  assert (Hq : Z.to_nat (Pagination.page_query_limit limit) = S n) by (unfold Pagination.page_query_limit; lia).
  assert (E1 : pinned_remote_statuses_by_account actor limit Pagination.no_cursor d' =
    Pagination.mkPage (omap (fun p : uuid * Pin => live_status d' (pin_status p.2)) (P (take n status_ids)))
      (fst <$> head (P (take n status_ids))) (Some (w_uuid_source w (w_uuids w + (n - 1))%nat)) true).
  { unfold pinned_remote_statuses_by_account, pinned_statuses_by_account, Pagination.page_of.
    cbn [Pagination.apply_collection_cursor Pagination.no_cursor Pagination.max_id Pagination.since_id Pagination.min_id].
    assert (Eall : take (length status_ids) status_ids = status_ids) by by apply take_ge.
    rewrite (Hsorted (length status_ids)) by (rewrite Eall; exact Hrows). rewrite Eall, Hq.
    unfold Pagination.trim_to_page. fold n. rewrite bool_decide_true by (rewrite length_take, HP; lia).
    rewrite take_take, Nat.min_l by lia. unfold P. rewrite !take_imap. f_equal.
    rewrite last_lookup, length_imap, length_take, list_lookup_imap. rewrite lookup_take_lt by lia.
    rewrite Nat.min_l by lia. destruct (lookup_lt_is_Some_2 status_ids (pred n)) as [i Hi]; [lia|]. rewrite Hi. cbn.
    do 2 f_equal. lia. }
  cbv zeta. rewrite E1. cbn [Pagination.last_cursor Pagination.items Pagination.has_more].
  set (page2 := pinned_remote_statuses_by_account actor limit _ d'). split; [exact (live_items _ _ _ _ _ _ (Hlive' n))|]. split; [done|].
  assert (E2 : page2 = Pagination.mkPage
    (omap (fun p : uuid * Pin => live_status d' (pin_status p.2)) (P (take (n - 1) status_ids)))
    (fst <$> head (P (take (n - 1) status_ids))) (fst <$> last (P (take (n - 1) status_ids))) false).
  { unfold page2, pinned_remote_statuses_by_account, pinned_statuses_by_account, Pagination.page_of.
    cbn [Pagination.apply_collection_cursor Pagination.max_id Pagination.since_id Pagination.min_id].
    rewrite (Hsorted (n - 1)%nat).
    - rewrite Hq, take_ge by (unfold P; rewrite length_imap, length_take; lia). unfold Pagination.trim_to_page.
      fold n. by rewrite bool_decide_false by (unfold P; rewrite length_imap, length_take; lia).
    - rewrite (filter_Permutation _ _ _ Hrows). unfold P. rewrite <- take_imap, (filter_prefix _ _ (n - 1)); [done|].
      intros k i _. unfold entry. cbn [fst]. destruct (k <? n - 1)%nat eqn:E.
      + apply N.ltb_lt, Hsource. apply Nat.ltb_lt in E. lia.
      + apply N.ltb_ge. apply Nat.ltb_ge in E. destruct (decide (k = n - 1)%nat) as [->|Hne]; [done|].
        apply N.lt_le_incl, Hsource. lia. }
  rewrite E2. cbn. split; [exact (live_items _ _ _ _ _ _ (Hlive' (n - 1)%nat))|done].
Qed.

(** ** The cache *)

Definition statuses (d : Db) := Statuses.remote_statuses (Inbox.statuses_of (inbox d)).

Record cache_ok (d : Db) : Prop := {
  co_own : forall i p, pins d !! i = Some p ->
    exists s, statuses d !! pin_status p = Some s /\ Statuses.rs_actor s = pin_owner p;
  co_once : once (pins d);
  co_few : at_most 20 (pins d);
}.

Lemma pins_smaller d d' :
  statuses d' = statuses d -> (forall i p, pins d' !! i = Some p -> pins d !! i = Some p) ->
  at_most 20 (pins d') -> cache_ok d -> cache_ok d'.
Proof.
  intros Es Hsub Hfew [Ho Hu _]. split; [|by eapply once_shrinks|done].
  intros i p Hp. rewrite Es. eauto.
Qed.

Lemma insert_pin_run i p w d r w' d' :
  insert i p w d = (Ok r, w', d') ->
  w' = w /\ pins d !! i = None /\ count_where (pins_of_status (pin_status p)) (pins d) = 0%nat /\
  d' = with_pins <[i := p]> d.
Proof.
  intros H. unfold insert in H. inv_bind H d1 w1 d2 Hg. injection Hg as <- <- <-.
  inv_bind H t w2 d3 Ht. apply lift_result_Ok in Ht as (Ht & -> & ->).
  destruct (insert_pin _ _ _ _) as [t'|e] eqn:E; [|done]. injection Ht as ->.
  apply insert_pin_Ok in E as (Hfree & Hnone & ->). by injection H as _ <- <-.
Qed.

(** Deleting the stale rows leaves the first twenty. *)
Lemma pins_after_cleanup actor (t : pin_table) :
  let t' := foldr delete t (drop 20 (pins_latest_first actor t)).*1 in
  (forall i p, t' !! i = Some p -> t !! i = Some p) /\
  (count_where (pins_of_account actor) t' <= 20)%nat.
Proof.
  intros t'. set (rows := pins_latest_first actor t).
  assert (Hsub : forall i p, t' !! i = Some p -> t !! i = Some p /\ i ∉ (drop 20 rows).*1).
  { intros i p Hp. unfold t' in Hp. destruct (decide (i ∈ (drop 20 rows).*1)) as [Hin|Hin].
    - by rewrite lookup_foldr_delete in Hp.
    - rewrite lookup_foldr_delete_not_elem_of in Hp; done. }
  split; [naive_solver|]. rewrite <- rows_of_account.
  set (l := List.filter _ _). assert (Hnd : NoDup l)
    by apply NoDup_ListNoDup, List.NoDup_filter, NoDup_ListNoDup, NoDup_map_to_list.
  transitivity (length (take 20 rows)); [|rewrite length_take; lia].
  apply submseteq_length, NoDup_submseteq; [exact Hnd|]. intros [i p] Hp. unfold l in Hp.
  rewrite list_elem_of_In, List.filter_In, <- list_elem_of_In, elem_of_map_to_list in Hp.
  destruct Hp as [[Hp Hi]%Hsub Ha]. assert (Hin : (i, p) ∈ rows).
  { unfold rows, pins_latest_first. rewrite order_by_Permutation, list_elem_of_In, List.filter_In, <- list_elem_of_In.
    by rewrite elem_of_map_to_list. }
  rewrite <- (take_drop 20 rows), elem_of_app in Hin. destruct Hin as [Hin|Hin]; [done|].
  exfalso. apply Hi. apply list_elem_of_fmap. by exists (i, p).
Qed.

Lemma count_foldr_delete q (l : list uuid) (t : pin_table) : (count_where q (foldr delete t l) <= count_where q t)%nat.
Proof. induction l as [|i l IH]; cbn; [done|]. pose proof (count_where_delete q (foldr delete t l) i). lia. Qed.

Lemma count_other actor b i status now (t : pin_table) :
  b <> actor -> t !! i = None ->
  count_where (pins_of_account b) (<[i := mkPin actor status now]> t) = count_where (pins_of_account b) t.
Proof.
  intros Hb Hi. rewrite count_where_insert_fresh by done. unfold pins_of_account at 1. cbn.
  apply N.eqb_neq in Hb. by rewrite N.eqb_sym, Hb.
Qed.

Lemma apply_ok actor status pin s w d r w' d' :
  statuses d !! status = Some s -> Statuses.rs_actor s = actor -> cache_ok d ->
  apply_remote_status_pin_activity actor status pin w d = (Ok r, w', d') ->
  cache_ok d' /\ statuses d' = statuses d.
Proof.
  intros Hs Ha Hok H. unfold apply_remote_status_pin_activity in H. destruct pin.
  - inv_bind H i w1 d1 Hi. injection Hi as <- <- <-. inv_bind H now w2 d2 Hn. injection Hn as <- <- <-.
    inv_bind H d3 w3 d4 Hg. injection Hg as <- <- <-. inv_bind H u w4 d5 Hins. inv_bind H d6 w6 d7 Hg. injection Hg as <- <- <-.
    injection H as _ <- <-.
    destruct (pins_after_cleanup actor (pins d5)) as [Hsub Hfew].
    assert (Hmid : statuses d5 = statuses d /\
      (forall j p, pins d5 !! j = Some p -> exists s, statuses d !! pin_status p = Some s /\ Statuses.rs_actor s = pin_owner p) /\
      once (pins d5) /\
      (forall b, b <> actor -> (count_where (pins_of_account b) (pins d5) <= 20)%nat)).
    { destruct Hok as [Ho Hu Hf]. destruct (negb _); cbn [when] in Hins.
      - apply insert_pin_run in Hins as (_ & Hfree & Hnone & ->). cbn [pins with_pins]. split; [done|]. split; [|split].
        + intros j p [[<- <-]|[_ Hp]]%lookup_insert_Some; [by exists s|by apply (Ho j)].
        + by apply once_insert.
        + intros b Hb. by rewrite count_other.
      - injection Hins as _ _ <-. split; [done|]. split; [done|]. split; [done|]. intros b _. apply Hf. }
    destruct Hmid as (Es & Ho & Hu & Hf). split; [|exact Es]. split; cbn [pins with_pins].
    + intros j p Hp%Hsub. destruct (Ho j p Hp) as (s' & Hs' & Ha'). exists s'. split; [|done].
      unfold statuses in *. cbn. by rewrite Es.
    + eapply once_shrinks, Hu. exact Hsub.
    + intros b. destruct (decide (b = actor)) as [->|Hb]; [done|].
      pose proof (count_foldr_delete (pins_of_account b) (drop 20 (pins_latest_first actor (pins d5))).*1 (pins d5)).
      specialize (Hf b Hb). lia.
  - injection H as _ _ <-. split; [|done]. eapply pins_smaller, Hok; [done| |].
    + by intros i p [Hp _]%lookup_delete_where_Some.
    + apply at_most_delete, Hok.
Qed.

Lemma insert_all_ok actor now (l : list (nat * uuid)) w d r w' d' n :
  (forall k i, (k, i) ∈ l -> exists s, statuses d !! i = Some s /\ Statuses.rs_actor s = actor) ->
  (count_where (pins_of_account actor) (pins d) + length l <= n <= 20)%nat -> cache_ok d ->
  for_each l (insert_at actor now) w d = (Ok r, w', d') -> cache_ok d' /\ statuses d' = statuses d.
Proof.
  revert w d. induction l as [|[k i] l IH]; intros w d Hl Hn Hok H; [by injection H as _ _ <-|].
  cbn [for_each] in H. inv_bind H u w1 d1 Hp. unfold insert_at in Hp. inv_bind Hp j w2 d2 Hj. injection Hj as <- <- <-.
  apply insert_pin_run in Hp as (-> & Hfree & Hnone & ->). cbn [snd pin_status] in Hnone.
  cbn [length] in Hn. pose proof (count_where_insert_fresh (pins_of_account actor) (pins d)
    (w_uuid_source w (w_uuids w)) (mkPin actor i (now - 1000 * Z.of_nat k)) Hfree) as Hc.
  unfold pins_of_account in Hc at 2. cbn in Hc. rewrite N.eqb_refl in Hc.
  apply IH in H as [Hok' Es]; [by split| | |].
  - intros k' i' Hi. apply (Hl k' i'). by right.
  - cbn [pins with_pins fst snd]. lia.
  - destruct Hok as [Ho Hu Hf]. split; cbn [pins with_pins].
    + intros j p [[<- <-]|[_ Hp]]%lookup_insert_Some; [|by apply (Ho j)]. cbn. apply (Hl k i). by left.
    + by apply once_insert.
    + intros b. destruct (decide (b = actor)) as [->|Hb]; [cbn [fst snd]; lia|]. rewrite count_other by done. apply Hf.
Qed.

Lemma replace_ok actor status_ids w d r w' d' :
  (forall i, i ∈ status_ids -> exists s, statuses d !! i = Some s /\ Statuses.rs_actor s = actor) ->
  (length status_ids <= 20)%nat -> cache_ok d ->
  replace_remote_status_pins actor status_ids w d = (Ok r, w', d') -> cache_ok d' /\ statuses d' = statuses d.
Proof.
  intros Hids Hn Hok H. unfold replace_remote_status_pins in H. inv_bind H u w1 d1 Hm. injection Hm as _ <- <-.
  inv_bind H now w2 d2 Hnow. injection Hnow as _ <- <-. eapply (insert_all_ok _ _ _ _ _ _ _ _ 20) in H; [exact H|..].
  - intros k i (j & i' & E & Hi)%elem_of_lookup_imap. injection E as -> ->. apply Hids. by eapply list_elem_of_lookup_2.
  - rewrite length_imap. cbn [pins with_pins]. rewrite count_where_none; [lia|]. intros j p [_ Hp]%lookup_delete_where_Some. done.
  - eapply pins_smaller, Hok; [done| |].
    + by intros i p [Hp _]%lookup_delete_where_Some.
    + apply at_most_delete, Hok.
Qed.

Lemma cache_ok_view d d' : statuses d' = statuses d -> pins d' = pins d -> cache_ok d -> cache_ok d'.
Proof. intros Es Ep [Ho Hu Hf]. split; rewrite ?Es, ?Ep; done. Qed.

Section Histories.
Context (uuid_text : uuid -> string) (digest : JsonValue -> option string).

Lemma keeps_new_activity activity signer :
  keeps (fun d => (statuses d, pins d)) (zoom (Inbox.is_new_inbox_activity uuid_text digest activity signer)).
Proof.
  apply (keeps_zoom_part _ (fun i => Statuses.remote_statuses (Inbox.statuses_of i))).
  - intros d i E. unfold statuses. cbn. by rewrite E.
  - unfold Inbox.is_new_inbox_activity, Inbox.register_inbox_replay, Inbox.register_inbox_activity. solve_keeps.
Qed.

Lemma url_status url x i s : Inbox.remote_status_of_url url x = Some (i, s) ->
  Statuses.remote_statuses (Inbox.statuses_of x) !! i = Some s.
Proof.
  unfold Inbox.remote_status_of_url. intros H. apply head_Some_elem_of in H.
  rewrite list_elem_of_In, List.filter_In, <- list_elem_of_In, elem_of_map_to_list in H. tauto.
Qed.

Lemma featured_ok activity signer add w d r w' d' :
  process_featured uuid_text digest activity signer add w d = (r, w', d') -> cache_ok d -> cache_ok d'.
Proof.
  intros H Hok. unfold process_featured, mbind at 1, M_bind at 1, gets in H.
  case_bool_decide; [by injection H as _ _ <-|].
  destruct (featured_of uuid_text activity) as [[[by_actor object] target]|]; [|by injection H as _ _ <-].
  destruct (_ || _); [by injection H as _ _ <-|].
  destruct (Inbox.remote_status_of_url object (inbox d)) as [[i s]|] eqn:Hi; [|by injection H as _ _ <-].
  apply url_status in Hi. destruct (_ =? _)%N eqn:Ha; [|by injection H as _ _ <-]. apply N.eqb_eq in Ha.
  unfold mbind at 1, M_bind at 1, Inbox.answered, transaction in H.
  destruct ((zoom _ ≫= _) w d) as [[[[z|z]|e] w1] d1] eqn:E; try (by injection H as _ _ <-).
  injection H as _ _ <-. inv_bind E is_new w2 d2 Hnew. apply (keeps_run _ _ _ _ _ _ _ (keeps_new_activity _ _)) in Hnew.
  injection Hnew as Es Ep. inv_bind E u w3 d3 Happly. injection E as _ _ <-.
  assert (Hok2 : cache_ok d2) by by eapply cache_ok_view. destruct is_new; [|by injection Happly as _ _ <-].
  eapply apply_ok in Happly as [Hok3 _]; [exact Hok3| |exact Ha|exact Hok2]. by rewrite Es.
Qed.

Lemma first_occurrences_length seen notes : (length (first_occurrences seen notes) <= length notes)%nat.
Proof. revert seen. induction notes as [|n notes IH]; intros seen; cbn; [done|]. case_bool_decide; cbn; [specialize (IH seen)|specialize (IH (n :: seen))]; lia. Qed.

Lemma featured_notes_run actor notes w d r w' d' :
  collect notes (featured_note actor) w d = (Ok r, w', d') ->
  d' = d /\ length r = length notes /\
  forall i, i ∈ r -> exists s, statuses d !! i = Some s /\ Statuses.rs_actor s = actor.
Proof.
  revert w d r w' d'. induction notes as [|n notes IH]; intros w d r w' d' H; cbn [collect] in H.
  { injection H as <- _ <-. split; [done|]. split; [done|]. set_solver. }
  inv_bind H i w1 d1 Hn. inv_bind H l w2 d2 Hl. injection H as <- _ <-. unfold featured_note in Hn.
  inv_bind Hn d3 w3 d4 Hg. injection Hg as <- <- <-.
  destruct (Inbox.remote_status_of_url n (inbox d)) as [[j s]|] eqn:Hj; [|done].
  destruct (_ || _) eqn:E; [done|]. injection Hn as <- <- <-.
  apply orb_false_iff in E as [E _]. apply negb_false_iff, N.eqb_eq in E.
  apply IH in Hl as (-> & Hlen & Hin). split; [done|]. split; [cbn; by rewrite Hlen|].
  intros i [->|Hi]%elem_of_cons; [|by apply Hin]. exists s. split; [by eapply url_status|done].
Qed.

Lemma reconcile_pins_ok actor notes w d r w' d' :
  (length notes <= 20)%nat -> reconcile_featured actor notes w d = (r, w', d') -> cache_ok d -> cache_ok d'.
Proof.
  intros Hn H Hok. unfold reconcile_featured, transaction in H.
  destruct ((collect _ _ ≫= _) w d) as [[[[u|u]|e] w1] d1] eqn:E; try (by injection H as _ _ <-).
  injection H as _ _ <-. inv_bind E ids w2 d2 Hids. apply featured_notes_run in Hids as (-> & Hlen & Hids).
  inv_bind E u2 w3 d3 Hrep. injection E as _ _ <-. eapply replace_ok in Hrep as [Hok' _]; [exact Hok'|exact Hids| |done].
  pose proof (first_occurrences_length [] notes). lia.
Qed.

(** Activities of signers, refreshes, deletions of notes, and whatever keeps the notes with
    their authors and leaves the pins alone. *)
Inductive remote_step : World * Db -> World * Db -> Prop :=
| step_activity activity signer add w d r w' d' :
    process_featured uuid_text digest activity signer add w d = (r, w', d') -> remote_step (w, d) (w', d')
| step_reconcile actor notes w d r w' d' :
    (length notes <= 20)%nat -> reconcile_featured actor notes w d = (r, w', d') -> remote_step (w, d) (w', d')
| step_note_deleted status w d r w' d' :
    delete_pins_of_status status w d = (r, w', d') -> remote_step (w, d) (w', d')
| step_other w d w' d' :
    pins d' = pins d ->
    (forall i s, statuses d !! i = Some s ->
       exists s', statuses d' !! i = Some s' /\ Statuses.rs_actor s' = Statuses.rs_actor s) ->
    remote_step (w, d) (w', d').

Definition remote_reachable (d : Db) : Prop := exists w w' d0, pins d0 = ∅ /\ rtc remote_step (w, d0) (w', d).

(** Whatever actors send and refreshes read, the cache of a featured collection never
    holds more than twenty entries of an actor, each a stored status of that actor, and no
    status twice. *)
Theorem featured_cache_is_bounded d : remote_reachable d -> cache_ok d.
Proof.
  intros (w & w' & d0 & H0 & Hh).
  refine (rtc_ind_r (R := remote_step) (fun wd => cache_ok wd.2) (w, d0) _ _ (w', d) Hh).
  - split; cbn; rewrite H0; [done|done|]. intros account. rewrite count_where_none; [lia|done].
  - intros wd1 wd2 _ Hstep Hok.
    destruct Hstep as [a s add ? ? ? ? ? H|actor notes ? ? ? ? ? Hn H|status ? ? ? ? ? H|? ? ? ? Hp Hs]; cbn in *.
    + by eapply featured_ok.
    + by eapply reconcile_pins_ok.
    + injection H as _ _ <-. eapply pins_smaller, Hok; [done| |].
      * by intros i p [Hp _]%lookup_delete_where_Some.
      * apply at_most_delete, Hok.
    + destruct Hok as [Ho Hu Hf]. split; rewrite ?Hp; try done. intros i p Hi.
      destruct (Ho i p Hi) as (s & Hs1 & Ha). destruct (Hs _ _ Hs1) as (s' & Hs2 & Ha'). exists s'. split; [done|congruence].
Qed.
End Histories.
End RemotePins.

(** * Samples *)

Definition sample_posts : gmap uuid Statuses.LocalStatus :=
  let post visibility := Statuses.mkLocalStatus 1 visibility false "" None None 0 None in
  <[1%N := post Statuses.Public]> (<[2%N := post Statuses.Private]> {[3%N := post Statuses.Unlisted]}).

Definition unpinned_store : Local.Db :=
  let x := DeliveryInvariant.sample_federation ∅ in
  let st := Statuses.mkDb sample_posts ∅ ∅ ∅ (Delivery.relations_of x) in
  Local.mkDb (put_part (put_part st (Delivery.rules x)) x) ∅.

Definition sample_pin (status : uuid) (pin : bool) : Op Local.Db Z :=
  Local.pin_request (fun _ => "id"%string) (fun path => ("https://here.test/" ++ path)%string) true (fun a => Ok a)
    1 (mkStatusId status) pin.

Definition pinned_once := sample_pin 1 true sample_world unpinned_store.
Definition pinned_twice := sample_pin 3 true (snd (fst pinned_once)) (snd pinned_once).

Definition sample_local_step :=
  step (fun _ => "id"%string) (fun path => ("https://here.test/" ++ path)%string) true (fun a => Ok a).

Lemma pinned_reachable :
  reachable (fun _ => "id"%string) (fun path => ("https://here.test/" ++ path)%string) true (fun a => Ok a)
    (snd pinned_twice).
Proof.
  exists sample_world, (snd (fst pinned_twice)), unpinned_store. split; [reflexivity|].
  eapply (rtc_l _ _ (snd (fst pinned_once), snd pinned_once)); [|eapply rtc_l; [|apply rtc_refl]].
  - eapply (step_request _ _ _ _ 1%N (mkStatusId 1) true _ _ (fst (fst pinned_once))). unfold pinned_once, sample_pin.
    by destruct (Local.pin_request _ _ _ _ _ _ _ _ _) as [[? ?] ?].
  - eapply (step_request _ _ _ _ 1%N (mkStatusId 3) true _ _ (fst (fst pinned_twice))). unfold pinned_twice, sample_pin.
    by destruct (Local.pin_request _ _ _ _ _ _ _ (snd (fst pinned_once)) _) as [[? ?] ?].
Qed.

Lemma featured_is_what_is_pinned_witness :
  (Local.featured 1 (snd pinned_twice)).*1 = [3%N; 1%N] /\ NoDup (Local.featured 1 (snd pinned_twice)).*1.
Proof.
  destruct (featured_is_what_is_pinned _ _ _ _ (snd pinned_twice) 1 pinned_reachable) as (_ & Hnd & _).
  split; [vm_compute; reflexivity|exact Hnd].
Defined.

Lemma pinning_is_idempotent_witness :
  fst (fst pinned_twice) = Ok 200 /\
  Local.is_local_status_pinned 3 (snd pinned_twice) = true /\
  sample_pin 3 true sample_world (snd pinned_twice) = (Ok 200, sample_world, snd pinned_twice).
Proof.
  assert (H : fst (fst pinned_twice) = Ok 200) by (vm_compute; reflexivity). split; [exact H|].
  assert (Hr : reachable (fun _ => "id"%string) (fun path => ("https://here.test/" ++ path)%string) true
    (fun a => Ok a) (snd pinned_once)).
  { exists sample_world, (snd (fst pinned_once)), unpinned_store. split; [reflexivity|]. apply rtc_once.
    eapply (step_request _ _ _ _ 1%N (mkStatusId 1) true _ _ (fst (fst pinned_once))). unfold pinned_once, sample_pin.
    by destruct (Local.pin_request _ _ _ _ _ _ _ _ _) as [[? ?] ?]. }
  apply (pinning_is_idempotent _ _ _ _ 1 (mkStatusId 3) true (snd (fst pinned_once)) (snd pinned_once)
    (snd (fst pinned_twice)) (snd pinned_twice) sample_world Hr).
  fold (sample_pin 3 true). fold pinned_twice. rewrite <- H. by destruct pinned_twice as [[? ?] ?].
Defined.

(** ** A remote collection *)

Definition sample_notes : gmap uuid Statuses.RemoteStatus :=
  let note := Statuses.mkRemoteStatus 50 Statuses.Public false "" None None None 0 None in
  <[1%N := note]> (<[2%N := note]> {[3%N := note]}).

#[local] Existing Instances NotificationRequests.statuses_part Interactions.requests_part.

Definition sample_collection : Remote.Db :=
  let x := InboxInvariant.sample_store in
  let i := Inbox.interactions x in
  let q := Interactions.requests_db i in
  let st := Statuses.mkDb ∅ sample_notes ∅ ∅ (Inbox.relations_of x) in
  Remote.mkDb (put_part (put_part (put_part st q) i) x) (fun _ => None) (fun _ => None) ∅ [].

Definition refreshed := Remote.replace_remote_status_pins 50 [1%N; 2%N; 3%N] sample_world sample_collection.

Lemma second_page_repeats_the_first_witness :
  let page := Remote.pinned_remote_statuses_by_account 50 2 in
  (Pagination.items (page Pagination.no_cursor (snd refreshed))).*1 = [1%N; 2%N] /\
  (Pagination.items (page (Pagination.mkCursor (Some 101%N) None None) (snd refreshed))).*1 = [1%N].
Proof.
  destruct (second_page_repeats_the_first 50 [1%N; 2%N; 3%N] 2 sample_world sample_collection tt
    (snd (fst refreshed)) (snd refreshed)) as (H1 & _ & H2 & _).
  - intros m n Hmn. cbn. lia.
  - vm_compute. reflexivity.
  - intros i Hi. assert (Hc : i = 1%N \/ i = 2%N \/ i = 3%N) by set_solver.
    destruct Hc as [->|[->| ->]]; vm_compute; eauto.
  - vm_compute. split; reflexivity.
  - vm_compute. reflexivity.
  - split; [exact H1|]. etransitivity; [|exact H2]. vm_compute. reflexivity.
Defined.

Lemma featured_cache_is_bounded_witness :
  cache_ok (snd (Remote.reconcile_featured 50 [""%string] sample_world sample_collection)) /\
  size (Remote.pins (snd (Remote.reconcile_featured 50 [""%string] sample_world sample_collection))) = 1%nat.
Proof.
  split; [|vm_compute; reflexivity].
  apply (featured_cache_is_bounded (fun _ => "id"%string) InboxInvariant.sample_digest).
  exists sample_world, (snd (fst (Remote.reconcile_featured 50 [""%string] sample_world sample_collection))), sample_collection.
  split; [reflexivity|]. apply rtc_once.
  eapply (step_reconcile _ _ 50 [""%string] _ _ (fst (fst (Remote.reconcile_featured 50 [""%string] sample_world sample_collection)))).
  - cbn. lia.
  - by destruct (Remote.reconcile_featured _ _ _ _) as [[? ?] ?].
Defined.

(** A collection whose page names itself as the next one is read five times. *)
Definition circular : Remote.Url := Remote.mkUrl "https://far.test/featured" "https" "" None "https://far.test".
Definition circular_page : JsonValue :=
  JObject [("type"%string, JString "OrderedCollection"); ("orderedItems"%string, JArray [JString "note"]);
           ("next"%string, JString "https://far.test/featured")].

Lemma refresh_is_bounded_witness :
  let run := Remote.featured_items (fun _ => "id"%string) (fun _ => Some circular) (fun _ => Ok circular_page)
    circular sample_world sample_collection in
  fst (fst run) = Ok (repeat (JString "note") 5) /\ length (Remote.fetched (snd run)) = 5%nat /\
  exists urls, Remote.fetched (snd run) = circular :: urls /\ Forall (on_the_same_server circular) urls.
Proof.
  intros run. destruct (refresh_is_bounded (fun _ => "id"%string) (fun _ => Some circular) (fun _ => Ok circular_page)
    circular sample_world sample_collection (fst (fst run)) (snd (fst run)) (snd run)) as (_ & urls & Hf & _ & Hall & _).
  - unfold run. by destruct (Remote.featured_items _ _ _ _ _ _) as [[? ?] ?].
  - split; [vm_compute; reflexivity|]. split; [vm_compute; reflexivity|]. exists urls. by rewrite Hf.
Defined.
