(* ===== verification/Timelines.v ===== *)
(** Timelines ([crates/db/src/lib.rs] and [crates/server/src/statuses.rs]): home,
    list, public and hashtag timelines and the timeline of a profile; the responses
    made from their pages, with the checks that are left to the response.

    A handler reads one snapshot and writes nothing.  A [StatusResponse] names the
    status that is shown, and who boosted it; the other members are decorations of it
    (counts, pins, cards, quotes).  Parsing UUIDs and domains and lower-casing
    hashtags are parameters. *)
From S2P Require Import Prelude Core Text.
From S2P Require Notifications Relations Statuses NotificationRequests Interactions DomainPolicy Threads Pagination Inbox.

#[local] Existing Instances Statuses.StatusVisibility_eq_dec Relations.RemoteFollowState_eq_dec Inbox.interactions_part DomainPolicy.DomainBlockSeverity_eq_dec.

(** * Data *)

(** The recipients, tags and attachments of statuses are pairs (status, account),
    pairs (status, tag) and statuses that have an attachment; [tag_follows] are pairs
    (account, tag). *)
Record Db := mkDb {
  inbox : Inbox.Db;
  domain_blocks : gmap uuid DomainPolicy.FederationDomainBlock;
  purged_actors : gset uuid;
  local_recipients : gset (uuid * uuid);
  remote_recipients : gset (uuid * uuid);
  tags : gmap text uuid;
  local_status_tags : gset (uuid * uuid);
  remote_status_tags : gset (uuid * uuid);
  tag_follows : gset (uuid * uuid);
  local_media : gset uuid;
  remote_media : gset uuid;
}.

#[export, refine] Instance inbox_part : Part Inbox.Db Db :=
  {| get_part := inbox;
     put_part := fun i d => mkDb i (domain_blocks d) (purged_actors d) (local_recipients d)
       (remote_recipients d) (tags d) (local_status_tags d) (remote_status_tags d) (tag_follows d)
       (local_media d) (remote_media d) |}.
Proof. all: by intros *; try destruct s. Defined.

Definition on_interactions {A} (m : Op Interactions.Db A) : Op Db A := zoom (zoom m : Op Inbox.Db A).
Definition on_relations {A} (m : Op Relations.Db A) : Op Db A := on_interactions (Interactions.on_relations m).

Definition interactions_of (d : Db) : Interactions.Db := Inbox.interactions (inbox d).
Definition statuses_of (d : Db) : Statuses.Db := Inbox.statuses_of (inbox d).
Definition relations_of (d : Db) : Relations.Db := Statuses.relations (statuses_of d).

(** The tables that decide who may see a status. *)
Definition threads_db (d : Db) : Threads.Db :=
  Threads.mkDb (DomainPolicy.mkDb (domain_blocks d) ∅ (statuses_of d)) (local_recipients d)
    (remote_recipients d) (purged_actors d).

Definition find_local (d : Db) (i : uuid) : option Statuses.LocalStatus :=
  match Statuses.local_statuses (statuses_of d) !! i with
  | Some s => if bool_decide (Statuses.ls_deleted_at s = None) then Some s else None
  | None => None
  end.

Definition find_remote (d : Db) (i : uuid) : option Statuses.RemoteStatus :=
  match Statuses.remote_statuses (statuses_of d) !! i with
  | Some s => if bool_decide (Statuses.rs_deleted_at s = None) then Some s else None
  | None => None
  end.

Abbreviation TimelineCursor := Pagination.CollectionCursor.
Abbreviation TimelinePage := Pagination.CollectionPage.

(** Boosts carry their row's identifier, the booster and the status. *)
Inductive HomeTimelineItem : Type :=
| Status (id : uuid) (status : Statuses.LocalStatus)
| Reblog (id booster status : uuid)
| RemoteStatus (id : uuid) (status : Statuses.RemoteStatus)
| LocalRemoteReblog (id booster status : uuid)
| RemoteReblog (id actor : uuid) (target : Interactions.RemoteStatusReblogTarget).

Definition timeline_item_id (item : HomeTimelineItem) : uuid :=
  match item with
  | Status i _ | Reblog i _ _ | RemoteStatus i _ | LocalRemoteReblog i _ _ | RemoteReblog i _ _ => i
  end.

(** The items of the public timeline: local and remote statuses. *)
Abbreviation PublicTimelineItem := Threads.StatusContextItem.

(** * Queries *)

(** [filter(p)] over a table keyed by its identifiers. *)
Definition select {V} (p : uuid -> V -> bool) (t : gmap uuid V) : list (uuid * V) :=
  List.filter (fun kv => p kv.1 kv.2) (map_to_list t).

Definition page_rows {V T} (item : uuid * V -> T) (limit : Z) (cursor : TimelineCursor)
    (rows : list (uuid * V)) : list T :=
  item <$> Pagination.cursor_query fst limit cursor rows.

Definition status_item (r : uuid * Statuses.LocalStatus) : HomeTimelineItem := Status r.1 r.2.
Definition remote_status_item (r : uuid * Statuses.RemoteStatus) : HomeTimelineItem := RemoteStatus r.1 r.2.
Definition local_item (r : uuid * Statuses.LocalStatus) : PublicTimelineItem := Threads.LocalItem r.1 r.2.
Definition remote_item (r : uuid * Statuses.RemoteStatus) : PublicTimelineItem := Threads.RemoteItem r.1 r.2.

(** Rows of the three tables of boosts, as (identifier, rest). *)
Definition local_reblog_rows (p : uuid -> bool) (d : Db) : list (uuid * (uuid * uuid)) :=
  (fun kv => (Interactions.act_id kv.2, kv.1)) <$>
    List.filter (fun kv : (uuid * uuid) * Interactions.ActionRow => p kv.1.1)
      (map_to_list (Interactions.local_reblogs (interactions_of d))).

Definition outgoing_reblog_rows (p : uuid -> bool) (d : Db) : list (uuid * Interactions.OutgoingRow) :=
  select (fun _ o => p (Interactions.out_account o)) (Interactions.outgoing_reblogs (interactions_of d)).

Definition remote_reblog_rows (p : uuid -> bool) (d : Db) : list (uuid * Interactions.RemoteReblogRow) :=
  select (fun _ r => p (Interactions.rrb_actor r)) (Interactions.remote_reblogs (interactions_of d)).

Definition reblog_item (r : uuid * (uuid * uuid)) : HomeTimelineItem := Reblog r.1 r.2.1 r.2.2.
Definition local_remote_reblog_item (r : uuid * Interactions.OutgoingRow) : HomeTimelineItem :=
  LocalRemoteReblog r.1 (Interactions.out_account r.2) (Interactions.out_status r.2).

(** [remote_status_reblog_from_model]: a row without exactly one target is left out. *)
Definition remote_reblog_item (r : uuid * Interactions.RemoteReblogRow) : option HomeTimelineItem :=
  RemoteReblog r.1 (Interactions.rrb_actor r.2) <$> Interactions.reblog_target r.2.

(** [local_status.id IN (SELECT status_id .. WHERE tag_id IN tags)]. *)
Definition tagged (table : gset (uuid * uuid)) (any : list uuid) (i : uuid) : bool :=
  existsb (fun t => bool_decide ((i, t) ∈ table)) any.

Definition listed (i : uuid) (l : list uuid) : bool := bool_decide (i ∈ l).

Definition shared_visibility (v : Statuses.StatusVisibility) : bool :=
  bool_decide (v ∈ [Statuses.Public; Statuses.Unlisted; Statuses.Private]).

(** ** The home timeline *)

Section Home.
Context (d : Db) (me : uuid) (hidden_local hidden_remote : list uuid).

Definition follows : list (uuid * Relations.FollowRow) :=
  (fun kv => (kv.1.2, kv.2)) <$>
    List.filter (fun kv : (uuid * uuid) * Relations.FollowRow => (kv.1.1 =? me)%N)
      (map_to_list (Relations.local_follows (relations_of d))).

Definition exclusive_list_ids : list uuid :=
  fst <$> select (fun _ l => (Relations.list_owner l =? me)%N && Relations.list_exclusive l)
            (Relations.lists (relations_of d)).

Definition members_of_lists (lists : list uuid) (t : gmap (uuid * uuid) uuid) : list uuid :=
  (fun kv => kv.1.2) <$> List.filter (fun kv : (uuid * uuid) * uuid => listed kv.1.1 lists) (map_to_list t).

Definition exclusive_local_ids : list uuid :=
  members_of_lists exclusive_list_ids (Relations.list_local_members (relations_of d)).
Definition exclusive_remote_ids : list uuid :=
  members_of_lists exclusive_list_ids (Relations.list_remote_members (relations_of d)).

Definition followed_ids : list uuid :=
  fst <$> List.filter (fun f => negb (listed f.1 exclusive_local_ids)) follows.

Definition reblog_followed_ids : list uuid :=
  fst <$> List.filter (fun f => negb (listed f.1 exclusive_local_ids) && Relations.follow_show_reblogs f.2) follows.

Definition followed_tag_ids : list uuid :=
  snd <$> List.filter (fun f => (f.1 =? me)%N) (elements (tag_follows d)).

(** An accepted follow of a remote actor. *)
Definition remote_followed (boosts : bool) (actor : uuid) : bool :=
  existsb (fun f => (Relations.fg_local f =? me)%N && (Relations.fg_remote f =? actor)%N
                    && bool_decide (Relations.fg_state f = Relations.Accepted)
                    && bool_decide (Relations.fg_deactivated_at f = None)
                    && (negb boosts || Relations.fg_show_reblogs f))
    (rows (Relations.remote_followings (relations_of d))).

Definition home_status (i : uuid) (s : Statuses.LocalStatus) : bool :=
  ((Statuses.ls_account s =? me)%N
   || listed (Statuses.ls_account s) followed_ids && shared_visibility (Statuses.ls_visibility s)
   || bool_decide (Statuses.ls_visibility s = Statuses.Private) && bool_decide ((i, me) ∈ local_recipients d)
   || bool_decide (Statuses.ls_visibility s = Statuses.Public) && tagged (local_status_tags d) followed_tag_ids i)
  && bool_decide (Statuses.ls_deleted_at s = None)
  && negb (listed (Statuses.ls_account s) hidden_local)
  && negb (listed (Statuses.ls_account s) exclusive_local_ids).

Definition home_reblogger (booster : uuid) : bool :=
  listed booster (me :: reblog_followed_ids) && negb (listed booster hidden_local).

Definition home_remote_status (i : uuid) (s : Statuses.RemoteStatus) : bool :=
  (remote_followed false (Statuses.rs_actor s) && negb (listed (Statuses.rs_actor s) exclusive_remote_ids)
     && shared_visibility (Statuses.rs_visibility s)
   || bool_decide (Statuses.rs_visibility s = Statuses.Private) && bool_decide ((i, me) ∈ remote_recipients d)
   || bool_decide (Statuses.rs_visibility s = Statuses.Public) && tagged (remote_status_tags d) followed_tag_ids i)
  && bool_decide (Statuses.rs_deleted_at s = None)
  && negb (listed (Statuses.rs_actor s) hidden_remote)
  && negb (listed (Statuses.rs_actor s) exclusive_remote_ids).

Definition home_remote_reblogger (actor : uuid) : bool :=
  remote_followed true actor && negb (listed actor exclusive_remote_ids) && negb (listed actor hidden_remote).

Definition page_of_items (limit : Z) (items : list HomeTimelineItem) : TimelinePage HomeTimelineItem :=
  Pagination.page_of timeline_item_id limit (fun rows => rows)
    (Pagination.newest_first timeline_item_id items).

Definition home_page (limit : Z) (cursor : TimelineCursor) : TimelinePage HomeTimelineItem :=
  page_of_items limit
    (page_rows status_item limit cursor (select home_status (Statuses.local_statuses (statuses_of d)))
     ++ page_rows reblog_item limit cursor (local_reblog_rows home_reblogger d)
     ++ page_rows remote_status_item limit cursor
          (select home_remote_status (Statuses.remote_statuses (statuses_of d)))
     ++ page_rows local_remote_reblog_item limit cursor
          (outgoing_reblog_rows (fun a => listed a (me :: reblog_followed_ids)) d)
     ++ omap remote_reblog_item
          (Pagination.cursor_query fst limit cursor (remote_reblog_rows home_remote_reblogger d))).
End Home.

Definition home_timeline_for_account (account : AccountId) (limit : Z) (cursor : TimelineCursor) :
    Op Db (TimelinePage HomeTimelineItem) :=
  hidden_local ← on_relations (Relations.hidden_local_account_ids_for_account account);
  hidden_remote ← on_relations (Relations.hidden_remote_actor_ids_for_account account);
  gets (fun d => home_page d (account_uuid account) hidden_local hidden_remote limit cursor).

(** ** The timeline of a list *)

Section List.
Context (d : Db) (me : uuid) (list_row : Relations.ListRow) (list_id : uuid) (hidden_local hidden_remote : list uuid).

Definition local_member_ids : list uuid :=
  members_of_lists [list_id] (Relations.list_local_members (relations_of d)).
Definition remote_member_ids : list uuid :=
  members_of_lists [list_id] (Relations.list_remote_members (relations_of d)).

(** Whose statuses may be replied to: [reply_local_ids] and [reply_remote_ids]. *)
Definition reply_local (author : uuid) : bool :=
  match Relations.list_replies_policy list_row with
  | Relations.PolicyNone => false
  | Relations.PolicyList => listed author local_member_ids
  | Relations.PolicyFollowed => listed author (fst <$> follows d me)
  end.

Definition reply_remote (author : uuid) : bool :=
  match Relations.list_replies_policy list_row with
  | Relations.PolicyNone => false
  | Relations.PolicyList => listed author remote_member_ids
  | Relations.PolicyFollowed => remote_followed d me false author
  end.

(** [IN (SELECT id FROM local_status WHERE account_id IN ..)]; deleted rows count. *)
Definition replies_to_local (parent : option uuid) : bool :=
  match parent with
  | Some p => match Statuses.local_statuses (statuses_of d) !! p with
              | Some s => reply_local (Statuses.ls_account s) | None => false end
  | None => false
  end.

Definition replies_to_remote (parent : option uuid) : bool :=
  match parent with
  | Some p => match Statuses.remote_statuses (statuses_of d) !! p with
              | Some s => reply_remote (Statuses.rs_actor s) | None => false end
  | None => false
  end.

Definition visible_local_member (author : uuid) : bool :=
  listed author local_member_ids && negb (listed author hidden_local).
Definition visible_remote_member (author : uuid) : bool :=
  listed author remote_member_ids && negb (listed author hidden_remote).

Definition is_local_root (s : Statuses.LocalStatus) : bool :=
  bool_decide (Statuses.ls_in_reply_to s = None) && bool_decide (Statuses.ls_in_reply_to_remote s = None).

Definition list_status (_ : uuid) (s : Statuses.LocalStatus) : bool :=
  visible_local_member (Statuses.ls_account s) && shared_visibility (Statuses.ls_visibility s)
  && bool_decide (Statuses.ls_deleted_at s = None)
  && (is_local_root s || replies_to_local (Statuses.ls_in_reply_to s)
      || replies_to_remote (Statuses.ls_in_reply_to_remote s)).

Definition list_remote_status (_ : uuid) (s : Statuses.RemoteStatus) : bool :=
  visible_remote_member (Statuses.rs_actor s) && shared_visibility (Statuses.rs_visibility s)
  && bool_decide (Statuses.rs_deleted_at s = None)
  && (bool_decide (Statuses.rs_in_reply_to s = None) || replies_to_local (Statuses.rs_in_reply_to_local s)
      || replies_to_remote (Statuses.rs_in_reply_to_remote s)).

Definition list_page (limit : Z) (cursor : TimelineCursor) : TimelinePage HomeTimelineItem :=
  page_of_items limit
    (page_rows status_item limit cursor (select list_status (Statuses.local_statuses (statuses_of d)))
     ++ page_rows remote_status_item limit cursor
          (select list_remote_status (Statuses.remote_statuses (statuses_of d)))
     ++ page_rows reblog_item limit cursor (local_reblog_rows visible_local_member d)
     ++ page_rows local_remote_reblog_item limit cursor (outgoing_reblog_rows visible_local_member d)
     ++ omap remote_reblog_item
          (Pagination.cursor_query fst limit cursor (remote_reblog_rows visible_remote_member d))).
End List.

Definition local_list_timeline (owner : AccountId) (list_id : uuid) (limit : Z) (cursor : TimelineCursor) :
    Op Db (option (TimelinePage HomeTimelineItem)) :=
  found ← on_relations (Relations.find_owned_local_list owner list_id);
  match found with
  | None => mret None
  | Some row =>
      hidden_local ← on_relations (Relations.hidden_local_account_ids_for_account owner);
      hidden_remote ← on_relations (Relations.hidden_remote_actor_ids_for_account owner);
      gets (fun d => Some (list_page d (account_uuid owner) row list_id hidden_local hidden_remote limit cursor))
  end.

(** ** Public statuses *)

Inductive PublicTimelineOrigin : Type := Federated | Local | Remote.

Record PublicTimelineOptions := mkOptions {
  origin : PublicTimelineOrigin;
  only_media : bool;
  viewer : option AccountId;
  allowed_remote_domains : list text;
  blocked_remote_domains : list text;
}.

Definition wants_local (o : PublicTimelineOrigin) : bool :=
  match o with Remote => false | _ => true end.
Definition wants_remote (o : PublicTimelineOrigin) : bool :=
  match o with Local => false | _ => true end.

Section Public.
Context (d : Db) (options : PublicTimelineOptions) (hidden_local hidden_remote : list uuid).

(** The subqueries over [local_account] and [remote_actor]. *)
Definition listed_account (author : uuid) : bool :=
  match Relations.local_accounts (relations_of d) !! author with
  | Some a => bool_decide (Relations.account_limited_at a = None)
              && bool_decide (Relations.account_suspended_at a = None)
  | None => false
  end.

Definition allowed_actor (actor : uuid) : bool :=
  match Relations.remote_actors (relations_of d) !! actor with
  | Some a =>
      bool_decide (Relations.actor_deleted_at a = None) && bool_decide (Relations.actor_limited_at a = None)
      && bool_decide (Relations.actor_suspended_at a = None)
      && (bool_decide (lit "*" ∈ allowed_remote_domains options)
          || bool_decide (Relations.actor_domain a ∈ allowed_remote_domains options))
      && forallb (fun domain => negb (DomainPolicy.selected_by_rule domain (Relations.actor_domain a)))
           (blocked_remote_domains options)
  | None => false
  end.

Definition media_matches (table : gset uuid) (i : uuid) : bool :=
  negb (only_media options) || bool_decide (i ∈ table).

Definition public_status (i : uuid) (s : Statuses.LocalStatus) : bool :=
  bool_decide (Statuses.ls_visibility s = Statuses.Public) && bool_decide (Statuses.ls_deleted_at s = None)
  && is_local_root s && listed_account (Statuses.ls_account s)
  && negb (listed (Statuses.ls_account s) hidden_local) && media_matches (local_media d) i.

Definition public_remote_status (i : uuid) (s : Statuses.RemoteStatus) : bool :=
  bool_decide (Statuses.rs_visibility s = Statuses.Public) && bool_decide (Statuses.rs_deleted_at s = None)
  && bool_decide (Statuses.rs_in_reply_to s = None) && allowed_actor (Statuses.rs_actor s)
  && negb (listed (Statuses.rs_actor s) hidden_remote) && media_matches (remote_media d) i.

(** The pages of the public and of the hashtag timelines, from the conditions on local
    and on remote statuses. *)
Definition public_items (local : uuid -> Statuses.LocalStatus -> bool)
    (remote : uuid -> Statuses.RemoteStatus -> bool) (limit : Z) (cursor : TimelineCursor) :
    TimelinePage PublicTimelineItem :=
  Pagination.page_of Threads.item_id limit (fun rows => rows)
    (Pagination.newest_first Threads.item_id
       ((if wants_local (origin options)
         then page_rows local_item limit cursor (select local (Statuses.local_statuses (statuses_of d)))
         else [])
        ++ (if wants_remote (origin options) && negb (bool_decide (allowed_remote_domains options = []))
            then page_rows remote_item limit cursor (select remote (Statuses.remote_statuses (statuses_of d)))
            else []))).
End Public.

Definition hidden_local_of (viewer : option AccountId) : Op Db (list uuid) :=
  match viewer with
  | Some v => on_relations (Relations.hidden_local_account_ids_for_account v)
  | None => mret []
  end.

Definition hidden_remote_of (viewer : option AccountId) : Op Db (list uuid) :=
  match viewer with
  | Some v => on_relations (Relations.hidden_remote_actor_ids_for_account v)
  | None => mret []
  end.

Definition public_timeline_with_options (limit : Z) (cursor : TimelineCursor) (options : PublicTimelineOptions) :
    Op Db (TimelinePage PublicTimelineItem) :=
  hidden_local ← hidden_local_of (viewer options);
  hidden_remote ← hidden_remote_of (viewer options);
  gets (fun d => public_items d options (public_status d options hidden_local)
                   (public_remote_status d options hidden_remote) limit cursor).

(** ** Hashtags and profiles *)

Section Tagged.
Context (normalize : text -> text).

Definition find_local_tag_by_name (name : text) (d : Db) : option uuid :=
  let name := normalize name in
  if bool_decide (name = []) then None else tags d !! name.

Record TagTimelineOptions := mkTagOptions {
  any_tags : list text;
  all_tags : list text;
  none_tags : list text;
  public_options : PublicTimelineOptions;
}.

Definition local_tags_by_names (names : list text) (d : Db) : list uuid :=
  omap (fun n => find_local_tag_by_name n d) names.

Definition empty_page {T} : TimelinePage T := Pagination.mkPage [] None None false.

(** The tags that a status must and must not have. *)
Definition tag_matches (table : gset (uuid * uuid)) (primary : uuid) (all any none : list uuid) (i : uuid) : bool :=
  tagged table [primary] i && forallb (fun t => tagged table [t] i) all
  && (bool_decide (any = []) || tagged table any i)
  && (bool_decide (none = []) || negb (tagged table none i)).

Section Conditions.
Context (d : Db) (options : PublicTimelineOptions) (hidden_local hidden_remote : list uuid).

Definition tag_status (matches : uuid -> bool) (i : uuid) (s : Statuses.LocalStatus) : bool :=
  bool_decide (Statuses.ls_visibility s = Statuses.Public) && bool_decide (Statuses.ls_deleted_at s = None)
  && matches i && listed_account d (Statuses.ls_account s) && media_matches options (local_media d) i
  && negb (listed (Statuses.ls_account s) hidden_local).

Definition tag_remote_status (matches : uuid -> bool) (i : uuid) (s : Statuses.RemoteStatus) : bool :=
  bool_decide (Statuses.rs_visibility s = Statuses.Public) && bool_decide (Statuses.rs_deleted_at s = None)
  && allowed_actor d options (Statuses.rs_actor s) && matches i
  && media_matches options (remote_media d) i && negb (listed (Statuses.rs_actor s) hidden_remote).
End Conditions.

Definition tag_timeline (tag : text) (options : TagTimelineOptions) (limit : Z) (cursor : TimelineCursor) :
    Op Db (TimelinePage PublicTimelineItem) :=
  d ← gets (fun d => d);
  match find_local_tag_by_name tag d with
  | None => mret empty_page
  | Some primary =>
      match mapM (fun n => find_local_tag_by_name n d) (all_tags options) with
      | None => mret empty_page
      | Some all =>
          let any := local_tags_by_names (any_tags options) d in
          if negb (bool_decide (any_tags options = [])) && bool_decide (any = []) then mret empty_page
          else
            let none := local_tags_by_names (none_tags options) d in
            hidden_local ← hidden_local_of (viewer (public_options options));
            hidden_remote ← hidden_remote_of (viewer (public_options options));
            gets (fun d => public_items d (public_options options)
              (tag_status d (public_options options) hidden_local
                 (tag_matches (local_status_tags d) primary all any none))
              (tag_remote_status d (public_options options) hidden_remote
                 (tag_matches (remote_status_tags d) primary all any none)) limit cursor)
      end
  end.

Record AccountStatusTimelineOptions := mkAccountOptions {
  exclude_replies : bool;
  profile_only_media : bool;
  profile_tagged : option text;
}.

Section Profile.
Context (d : Db) (account : uuid) (who : option AccountId) (options : AccountStatusTimelineOptions).

Definition is_recipient (table : gset (uuid * uuid)) (i : uuid) : bool :=
  match who with Some v => bool_decide ((i, account_uuid v) ∈ table) | None => false end.

Definition follows_author (author : uuid) : bool :=
  match who with
  | Some v => listed author (fst <$> follows d (account_uuid v))
  | None => false
  end.

(** The owner sees everything. *)
Definition profile_visible (i : uuid) (s : Statuses.LocalStatus) : bool :=
  match who with Some v => bool_decide (account_uuid v = account) | None => false end
  || Threads.is_public (Statuses.ls_visibility s)
  || bool_decide (Statuses.ls_visibility s = Statuses.Private)
     && (is_recipient (local_recipients d) i || follows_author (Statuses.ls_account s))
  || bool_decide (Statuses.ls_visibility s = Statuses.Direct) && is_recipient (local_recipients d) i.

Definition profile_status (tag : list uuid) (i : uuid) (s : Statuses.LocalStatus) : bool :=
  (Statuses.ls_account s =? account)%N && bool_decide (Statuses.ls_deleted_at s = None)
  && profile_visible i s && (negb (exclude_replies options) || is_local_root s)
  && (negb (profile_only_media options) || bool_decide (i ∈ local_media d))
  && forallb (fun t => tagged (local_status_tags d) [t] i) tag.

Definition profile_remote_visible (i : uuid) (s : Statuses.RemoteStatus) : bool :=
  Threads.is_public (Statuses.rs_visibility s)
  || bool_decide (Statuses.rs_visibility s = Statuses.Private)
     && (is_recipient (remote_recipients d) i
         || match who with
            | Some v => remote_followed d (account_uuid v) false (Statuses.rs_actor s)
            | None => false
            end).

Definition profile_remote_status (tag : list uuid) (i : uuid) (s : Statuses.RemoteStatus) : bool :=
  (Statuses.rs_actor s =? account)%N && bool_decide (Statuses.rs_deleted_at s = None)
  && profile_remote_visible i s
  && (negb (exclude_replies options) || bool_decide (Statuses.rs_in_reply_to s = None))
  && (negb (profile_only_media options) || bool_decide (i ∈ remote_media d))
  && forallb (fun t => tagged (remote_status_tags d) [t] i) tag.

(** The tag of the options: no condition, an unknown tag, or a tag. *)
Definition tag_filter : option (list uuid) :=
  match profile_tagged options with
  | None => Some []
  | Some name => (fun t => [t]) <$> find_local_tag_by_name name d
  end.

Definition profile_page {V} (p : list uuid -> uuid -> V -> bool) (t : gmap uuid V) (limit : Z)
    (cursor : TimelineCursor) : TimelinePage (uuid * V) :=
  match tag_filter with
  | None => empty_page
  | Some tag => Pagination.page_of fst limit (fun rows => rows)
                  (Pagination.cursor_query fst limit cursor (select (p tag) t))
  end.
End Profile.

Definition local_statuses_by_account (account : AccountId) (who : option AccountId) (limit : Z)
    (cursor : TimelineCursor) (options : AccountStatusTimelineOptions) :
    Op Db (TimelinePage (uuid * Statuses.LocalStatus)) :=
  gets (fun d => profile_page d options (profile_status d (account_uuid account) who options)
                   (Statuses.local_statuses (statuses_of d)) limit cursor).

Definition remote_statuses_by_account (account : AccountId) (who : option AccountId) (limit : Z)
    (cursor : TimelineCursor) (options : AccountStatusTimelineOptions) :
    Op Db (TimelinePage (uuid * Statuses.RemoteStatus)) :=
  gets (fun d => profile_page d options (profile_remote_status d (account_uuid account) who options)
                   (Statuses.remote_statuses (statuses_of d)) limit cursor).
End Tagged.

(** * Responses *)

Inductive Booster : Type := BoostedBy (account : uuid) | BoostedByRemote (actor : uuid).

(** The identifier of the entry, the status it shows, and the booster of a boost. *)
Record StatusResponse := mkResponse {
  response_id : uuid;
  shown : Threads.StatusContextItem;
  booster : option Booster;
}.

Definition status_with_author (i : uuid) (s : Statuses.LocalStatus) : Op Db StatusResponse :=
  d ← gets (fun d => d);
  match Relations.local_accounts (relations_of d) !! Statuses.ls_account s with
  | Some _ => mret (mkResponse i (Threads.LocalItem i s) None)
  | None => throw (InvalidInput "status author does not exist")
  end.

Definition remote_status_response_for_viewer (i : uuid) (s : Statuses.RemoteStatus) : Op Db StatusResponse :=
  d ← gets (fun d => d);
  match Relations.remote_actors (relations_of d) !! Statuses.rs_actor s with
  | Some _ => mret (mkResponse i (Threads.RemoteItem i s) None)
  | None => throw (InvalidInput "remote status author does not exist")
  end.

Definition wrapped (i : uuid) (by_ : Booster) (original : StatusResponse) : StatusResponse :=
  mkResponse i (shown original) (Some by_).

Definition reblog_response (i by_ status : uuid) (viewer : option AccountId) : Op Db (option StatusResponse) :=
  d ← gets (fun d => d);
  match find_local d status with
  | None => mret None
  | Some original =>
      if negb (Threads.status_visible_to_viewer (threads_db d) status original viewer) then mret None
      else
        match Relations.local_accounts (relations_of d) !! by_ with
        | None => mret None
        | Some _ =>
            original ← status_with_author status original;
            mret (Some (wrapped i (BoostedBy by_) original))
        end
  end.

Definition local_remote_reblog_response (i by_ status : uuid) : Op Db (option StatusResponse) :=
  d ← gets (fun d => d);
  match find_remote d status, Relations.local_accounts (relations_of d) !! by_ with
  | Some original, Some _ =>
      original ← remote_status_response_for_viewer status original;
      mret (Some (wrapped i (BoostedBy by_) original))
  | _, _ => mret None
  end.

Section Responses.
Context (host_domain : text -> option text).

Definition domain_is_suspended (domain : text) : Op Db bool :=
  d ← gets (fun d => d);
  policy ← lift_result (Threads.domain_policy host_domain (threads_db d) domain);
  mret (DomainPolicy.is_suspended policy).

Definition remote_status_available (s : Statuses.RemoteStatus) : Op Db bool :=
  d ← gets (fun d => d);
  match Relations.remote_actors (relations_of d) !! Statuses.rs_actor s with
  | None => mret false
  | Some actor =>
      if negb (bool_decide (Relations.actor_suspended_at actor = None)) then mret false
      else suspended ← domain_is_suspended (Relations.actor_domain actor); mret (negb suspended)
  end.

Definition remote_original (target : Interactions.RemoteStatusReblogTarget) (viewer : option AccountId) :
    Op Db (option StatusResponse) :=
  d ← gets (fun d => d);
  match target with
  | Interactions.TargetLocal (mkStatusId status) =>
      match find_local d status with
      | None => mret None
      | Some s => if negb (Threads.status_visible_to_viewer (threads_db d) status s viewer) then mret None
                  else original ← status_with_author status s; mret (Some original)
      end
  | Interactions.TargetRemote (mkStatusId status) =>
      match find_remote d status with
      | None => mret None
      | Some s =>
          if negb (match viewer with
                   | Some v => Threads.remote_status_visible_to_account (threads_db d) status s v
                   | None => Threads.is_public (Statuses.rs_visibility s)
                   end) then mret None
          else original ← remote_status_response_for_viewer status s; mret (Some original)
      end
  end.

Definition hidden_from (viewer : option AccountId) (actor : uuid) : Op Db bool :=
  match viewer with
  | None => mret false
  | Some v => on_relations (Relations.remote_account_is_hidden_for_viewer v (mkAccountId actor))
  end.

Definition remote_reblog_response (i by_ : uuid) (target : Interactions.RemoteStatusReblogTarget)
    (viewer : option AccountId) : Op Db (option StatusResponse) :=
  d ← gets (fun d => d);
  match Relations.remote_actors (relations_of d) !! by_ with
  | None => throw (InvalidInput "remote boost actor does not exist")
  | Some actor =>
      if negb (bool_decide (Relations.actor_suspended_at actor = None)) then mret None
      else
        suspended ← domain_is_suspended (Relations.actor_domain actor);
        if (suspended : bool) then mret None
        else
          hidden ← hidden_from viewer by_;
          if (hidden : bool) then mret None
          else
            original ← remote_original target viewer;
            mret (wrapped i (BoostedByRemote by_) <$> original)
  end.

Definition models_of {A} (model : A -> Op Db (option StatusResponse)) (items : list A) :
    Op Db (list StatusResponse) :=
  responses ← collect items model; mret (omap id responses).

(** One turn of the loop of [home_timeline_models]. *)
Definition home_timeline_model (me : AccountId) (item : HomeTimelineItem) : Op Db (option StatusResponse) :=
  match item with
  | Status i s => response ← status_with_author i s; mret (Some response)
  | Reblog i by_ status => reblog_response i by_ status (Some me)
  | RemoteStatus i s =>
      available ← remote_status_available s;
      if (available : bool) then response ← remote_status_response_for_viewer i s; mret (Some response)
      else mret None
  | LocalRemoteReblog i by_ status =>
      d ← gets (fun d => d);
      match find_remote d status with
      | None => mret None
      | Some original =>
          available ← remote_status_available original;
          if negb available then mret None
          else
            hidden ← hidden_from (Some me) (Statuses.rs_actor original);
            if (hidden : bool) then mret None else local_remote_reblog_response i by_ status
      end
  | RemoteReblog i by_ target => remote_reblog_response i by_ target (Some me)
  end.

Definition home_timeline_models (me : AccountId) : list HomeTimelineItem -> Op Db (list StatusResponse) :=
  models_of (home_timeline_model me).

Definition public_timeline_model (item : PublicTimelineItem) : Op Db StatusResponse :=
  match item with
  | Threads.LocalItem i s => status_with_author i s
  | Threads.RemoteItem i s => remote_status_response_for_viewer i s
  end.

Definition public_timeline_models (items : list PublicTimelineItem) : Op Db (list StatusResponse) :=
  collect items public_timeline_model.

(** [status_models] of one status. *)
Definition status_model (viewer : option AccountId) (r : uuid * Statuses.LocalStatus) :
    Op Db (option StatusResponse) :=
  d ← gets (fun d => d);
  if Threads.status_visible_to_viewer (threads_db d) r.1 r.2 viewer
  then response ← status_with_author r.1 r.2; mret (Some response)
  else mret None.

(** The statuses of a remote profile that pass [remote_timeline_response]. *)
Definition remote_timeline_model (viewer : option AccountId) (r : uuid * Statuses.RemoteStatus) :
    Op Db (option StatusResponse) :=
  d ← gets (fun d => d);
  if match viewer with
     | Some v => Threads.remote_status_visible_to_account (threads_db d) r.1 r.2 v
     | None => Threads.is_public (Statuses.rs_visibility r.2)
     end
  then response ← remote_status_response_for_viewer r.1 r.2; mret (Some response)
  else mret None.

(** * Handlers *)

(** The errors of [crates/server/src/http.rs], without their messages. *)
Inductive ApiError : Type := BadRequest | NotFound | Forbidden | Internal (error : RoostyError).

Definition api_error (e : RoostyError) : ApiError :=
  match e with
  | AccountRelationship FollowTargetNotFound | AccountRelationship ModerationTargetNotFound => NotFound
  | AccountRelationship FollowBlocked => Forbidden
  | AccountRelationship _ | InvalidInput _ => BadRequest
  | FederationDiscovery (PolicyRejected _) => NotFound
  | _ => Internal e
  end.

Abbreviation Handler := (M Db ApiError).
Definition api {A} (m : Op Db A) : Handler A := map_err api_error m.

(** The body and the queries of the links to the previous and to the next page.  A body
    that cannot be made is answered by [server_error]. *)
Inductive Response (P : Type) : Type :=
| Page (items : list StatusResponse) (links : option (P * P))
| ServerError (error : RoostyError).
#[global] Arguments Page {P} _ _.
#[global] Arguments ServerError {P} _.

Definition respond {P} (m : Op Db (list StatusResponse)) (links : option (P * P)) : Handler (Response P) :=
  fun w s => match m w s with
             | (Ok items, w', s') => (Ok (Page items links), w', s')
             | (Err e, w', s') => (Ok (ServerError e), w', s')
             end.

(** ** Queries *)

Context (parse_uuid : text -> option uuid) (uuid_text : uuid -> text) (normalize : text -> text).

Record TimelineParams := mkTimelineParams {
  limit : option Z;
  max_id : option text;
  since_id : option text;
  min_id : option text;
}.

(** [timeline_limit]: 20 by default, between 1 and 40. *)
Definition timeline_limit (limit : option Z) : Z := Pagination.clamp_limit 20 40 limit.

(** An empty parameter is an absent one. *)
Definition parse_optional_status_id (value : option text) : result (option uuid) ApiError :=
  match value with
  | None => Ok None
  | Some v =>
      if bool_decide (trim v = []) then Ok None
      else match parse_uuid (trim v) with Some i => Ok (Some i) | None => Err BadRequest end
  end.

(** [parse_uuid] of [lists.rs]: an empty parameter is not an identifier. *)
Definition parse_list_uuid (value : option text) : result (option uuid) ApiError :=
  match value with
  | None => Ok None
  | Some v => match parse_uuid v with Some i => Ok (Some i) | None => Err BadRequest end
  end.

Definition cursor_with (parse : option text -> result (option uuid) ApiError) (params : TimelineParams) :
    Handler TimelineCursor :=
  max ← lift_result (parse (max_id params));
  since ← lift_result (parse (since_id params));
  min ← lift_result (parse (min_id params));
  mret (Pagination.mkCursor max since min).

Definition timeline_query (params : TimelineParams) : Handler (Z * TimelineCursor) :=
  cursor ← cursor_with parse_optional_status_id params;
  mret (timeline_limit (limit params), cursor).

(** The queries of a Link header: both have the clamped limit and one cursor. *)
Definition link_params (limit : Z) (cursor : TimelineCursor) : TimelineParams :=
  mkTimelineParams (Some limit) (uuid_text <$> Pagination.max_id cursor)
    (uuid_text <$> Pagination.since_id cursor) (uuid_text <$> Pagination.min_id cursor).

Definition links_of {T P} (limit : Z) (rest : TimelineParams -> P) (page : TimelinePage T) : option (P * P) :=
  (fun c => (rest (link_params limit c.1), rest (link_params limit c.2))) <$> Pagination.header_links page.

(** ** Home and lists *)

Definition home_timeline_response (page : TimelinePage HomeTimelineItem) (limit : Z) (viewer : AccountId) :
    Handler (Response TimelineParams) :=
  respond (home_timeline_models viewer (Pagination.items page)) (links_of limit id page).

Definition home_timeline (account : AccountId) (params : TimelineParams) : Handler (Response TimelineParams) :=
  query ← timeline_query params;
  items ← api (home_timeline_for_account account query.1 query.2);
  home_timeline_response items query.1 account.

Definition list_timeline (account : AccountId) (list_id : uuid) (params : TimelineParams) :
    Handler (Response TimelineParams) :=
  cursor ← cursor_with parse_list_uuid params;
  let n := timeline_limit (limit params) in
  found ← api (local_list_timeline account list_id n cursor);
  page ← lift_option NotFound found;
  home_timeline_response page n account.

(** ** Public and hashtag timelines *)

Record PublicTimelineParams := mkPublicParams {
  cursor_params : TimelineParams;
  param_local : option bool;
  param_remote : option bool;
  param_only_media : option bool;
}.

Definition origin_of (params : PublicTimelineParams) : PublicTimelineOrigin :=
  match bool_decide (param_local params = Some true), bool_decide (param_remote params = Some true) with
  | true, false => Local
  | false, true => Remote
  | _, _ => Federated
  end.

(** Only the filters that are on are in the links. *)
Definition only_on (filter : option bool) : option bool :=
  if bool_decide (filter = Some true) then Some true else None.

Definition with_filters (params : PublicTimelineParams) (p : TimelineParams) : PublicTimelineParams :=
  mkPublicParams p (only_on (param_local params)) (only_on (param_remote params))
    (only_on (param_only_media params)).

Context (federation_allowed_domains : list text).

Definition options_of (viewer : option AccountId) (params : PublicTimelineParams) (hidden : list text) :
    PublicTimelineOptions :=
  mkOptions (origin_of params) (bool_decide (param_only_media params = Some true)) viewer
    federation_allowed_domains hidden.

Definition hidden_federation_domains : Op Db (list text) :=
  gets (fun d => DomainPolicy.block_domain <$>
    rows_where (fun r => bool_decide (DomainPolicy.block_severity r ∈ [DomainPolicy.Silence; DomainPolicy.Suspend]))
      (domain_blocks d)).

Definition public_timeline (viewer : option AccountId) (params : PublicTimelineParams) :
    Handler (Response PublicTimelineParams) :=
  query ← timeline_query (cursor_params params);
  hidden ← api hidden_federation_domains;
  page ← api (public_timeline_with_options query.1 query.2 (options_of viewer params hidden));
  respond (public_timeline_models (Pagination.items page)) (links_of query.1 (with_filters params) page).

Record TagTimelineParams := mkTagParams {
  tag_any : list text;
  tag_all : list text;
  tag_none : list text;
  tag_filters : PublicTimelineParams;
}.

(** [HeaderValue::from_str]: visible ASCII, blanks and tabs. *)
Definition header_text (s : text) : bool :=
  forallb (fun c => (32 <=? c) && (c <=? 126) || (c =? 9)) s.

(** The path holds the hashtag of the request, decoded. *)
Definition tag_timeline_page (viewer : option AccountId) (hashtag : text) (params : TagTimelineParams) :
    Handler (Response TagTimelineParams) :=
  query ← timeline_query (cursor_params (tag_filters params));
  hidden ← api hidden_federation_domains;
  page ← api (tag_timeline normalize hashtag
                (mkTagOptions (tag_any params) (tag_all params) (tag_none params)
                   (options_of viewer (tag_filters params) hidden)) query.1 query.2);
  respond (public_timeline_models (Pagination.items page))
    (if header_text hashtag
     then links_of query.1 (fun p => mkTagParams (tag_any params) (tag_all params) (tag_none params)
                                       (with_filters (tag_filters params) p)) page
     else None).

(** ** Profiles *)

Record AccountStatusesParams := mkAccountParams {
  account_cursor : TimelineParams;
  param_exclude_replies : option bool;
  account_only_media : option bool;
  param_tagged : option text;
}.

Definition account_options (params : AccountStatusesParams) : AccountStatusTimelineOptions :=
  mkAccountOptions (default false (param_exclude_replies params)) (default false (account_only_media params))
    (match param_tagged params with
     | Some t => if bool_decide (trim t = []) then None else Some t
     | None => None
     end).

(** The links of a profile have the cursor and the limit, and no filter. *)
Definition without_filters (p : TimelineParams) : AccountStatusesParams := mkAccountParams p None None None.

Definition actor_is_suspended (actor : Relations.RemoteActorRow) : Op Db bool :=
  if negb (bool_decide (Relations.actor_deleted_at actor = None))
     || negb (bool_decide (Relations.actor_suspended_at actor = None)) then mret true
  else domain_is_suspended (Relations.actor_domain actor).

(** A request without [pinned]; pinned statuses are pages of [Pins]. *)
Definition account_statuses (viewer : option AccountId) (account : AccountId) (params : AccountStatusesParams) :
    Handler (Response AccountStatusesParams) :=
  cursor ← cursor_with parse_optional_status_id (account_cursor params);
  let n := timeline_limit (limit (account_cursor params)) in
  d ← gets (fun d => d);
  match Relations.local_accounts (relations_of d) !! account_uuid account with
  | Some row =>
      if negb (bool_decide (Relations.account_suspended_at row = None)) then mret (Page [] None)
      else
        page ← api (local_statuses_by_account normalize account viewer n cursor (account_options params));
        respond (models_of (status_model viewer) (Pagination.items page)) (links_of n without_filters page)
  | None =>
      actor ← lift_option NotFound (Relations.remote_actors (relations_of d) !! account_uuid account);
      suspended ← api (actor_is_suspended actor);
      if (suspended : bool) then throw NotFound
      else
        page ← api (remote_statuses_by_account normalize account viewer n cursor (account_options params));
        respond (models_of (remote_timeline_model viewer) (Pagination.items page)) (links_of n without_filters page)
  end.
End Responses.
