(* ===== verification/StatusActions.v ===== *)
(** Favourites, bookmarks and boosts through the client API
    ([status_collection_action] of [crates/server/src/statuses.rs]) with the activities
    that go to the author's server ([crates/server/src/federation.rs]), the
    notifications and the events of the streaming API that follow the commit.

    The integrity proof of an activity and the texts of URLs and UUIDs are parameters. *)
From S2P Require Import Prelude Core Text.
From S2P Require Jobs Notifications Relations Statuses NotificationRequests Interactions Threads Inbox Timelines.

#[local] Existing Instances Statuses.StatusVisibility_eq_dec Inbox.interactions_part Timelines.inbox_part
  Interactions.requests_part.

Abbreviation Db := Timelines.Db.
Abbreviation Handler := (M Timelines.Db Timelines.ApiError).

Inductive StatusCollectionAction : Type := Favourite | Unfavourite | Bookmark | Unbookmark | Reblog | Unreblog.

#[export] Instance StatusCollectionAction_eq_dec : EqDecision StatusCollectionAction.
Proof. solve_decision. Defined.

Definition is_boost (action : StatusCollectionAction) : bool :=
  match action with Reblog | Unreblog => true | _ => false end.

(** An update carries the entry as it is shown to the account that acts. *)
Inductive CommittedStatusEvent : Type :=
| Update (status : Timelines.StatusResponse) (recipients : list uuid)
| Delete (status_id : uuid) (visibility : Statuses.StatusVisibility) (recipients : list uuid).

Record PendingStatusNotification := mkPending {
  pending_account : uuid;
  pending_kind : Notifications.LocalNotificationType;
  pending_status : uuid;
}.

Record StatusCollectionOutcome := mkOutcome {
  response : Timelines.StatusResponse;
  notifications : list PendingStatusNotification;
  stream_events : list CommittedStatusEvent;
}.

Section Actions.
Context (uuid_text : uuid -> string) (public_url : string -> string)
  (prove : JsonValue -> result JsonValue RoostyError).

(** * Activities for the author's server *)

Definition actor_of (account : uuid) (d : Db) : string :=
  Inbox.actor_url public_url (Inbox.username (Timelines.inbox d) account).
Definition activitypub_id_of (status : uuid) (d : Db) : string :=
  Inbox.status_activitypub_id (Timelines.inbox d) status.

Definition ACTIVITYSTREAMS_CONTEXT : JsonValue := JString "https://www.w3.org/ns/activitystreams".

(** [FavouriteDelivery] and [ReblogDelivery] have the same members. *)
Definition delivery_job (kind : Jobs.JobKind) (local remote : uuid) (activity : JsonValue)
    (activity_id : string) : Op Db Jobs.NewJob :=
  now ← now_utc;
  mret (Jobs.mkNewJob kind
    (JObject [("local_account_id"%string, JUuid local); ("remote_actor_id"%string, JUuid remote);
              ("activity"%string, activity)]) (Some activity_id) now).

(** The accounts of an activity: both have to exist. *)
Definition parties (local remote : uuid) (no_local no_remote : string) : Op Db unit :=
  d ← gets (fun d => d);
  lift_option (InvalidInput no_local) (Relations.local_accounts (Timelines.relations_of d) !! local);;
  lift_option (InvalidInput no_remote) (Relations.remote_actors (Timelines.relations_of d) !! remote);;
  mret tt.

Definition activity_id (local : uuid) (fragment : string) : Op Db string :=
  d ← gets (fun d => d);
  i ← uuid_now_v7;
  mret (actor_of local d ++ "#" ++ fragment ++ "-" ++ uuid_text i)%string.

(** A Like or an Announce of a status. *)
Definition prepare_remote (kind : Jobs.JobKind) (fragment name no_local no_remote : string)
    (account status : uuid) (s : Statuses.RemoteStatus) : Op Db (string * Jobs.NewJob) :=
  parties account (Statuses.rs_actor s) no_local no_remote;;
  i ← activity_id account fragment;
  d ← gets (fun d => d);
  activity ← lift_result (prove (JObject
    [("@context"%string, ACTIVITYSTREAMS_CONTEXT); ("id"%string, JString i); ("type"%string, JString name);
     ("actor"%string, JString (actor_of account d)); ("object"%string, JString (activitypub_id_of status d))]));
  job ← delivery_job kind account (Statuses.rs_actor s) activity i;
  mret (i, job).

Definition prepare_remote_favourite :=
  prepare_remote Jobs.FederationFavouriteDelivery "like" "Like" "local favourite actor does not exist"
    "remote status author does not exist".
Definition prepare_remote_reblog :=
  prepare_remote Jobs.FederationReblogDelivery "announce" "Announce" "local boost actor does not exist"
    "remote boost status author does not exist".

(** The Undo of a stored Like or Announce. *)
Definition prepare_undo (kind : Jobs.JobKind) (fragment name no_local no_status no_remote : string)
    (row : Interactions.OutgoingRow) : Op Db Jobs.NewJob :=
  let account := Interactions.out_account row in
  let status := Interactions.out_status row in
  d ← gets (fun d => d);
  lift_option (InvalidInput no_local) (Relations.local_accounts (Timelines.relations_of d) !! account);;
  s ← lift_option (InvalidInput no_status) (Timelines.find_remote d status);
  lift_option (InvalidInput no_remote)
    (Relations.remote_actors (Timelines.relations_of d) !! Statuses.rs_actor s);;
  i ← activity_id account fragment;
  let actor := JString (actor_of account d) in
  activity ← lift_result (prove (JObject
    [("@context"%string, ACTIVITYSTREAMS_CONTEXT); ("id"%string, JString i); ("type"%string, JString "Undo");
     ("actor"%string, actor);
     ("object"%string, JObject
        [("id"%string, JString (Interactions.out_activity row)); ("type"%string, JString name);
         ("actor"%string, actor); ("object"%string, JString (activitypub_id_of status d))])]));
  delivery_job kind account (Statuses.rs_actor s) activity i.

Definition prepare_remote_unfavourite :=
  prepare_undo Jobs.FederationFavouriteDelivery "undo-like" "Like" "local favourite actor does not exist"
    "remote favourite status does not exist" "remote status author does not exist".
Definition prepare_remote_unreblog :=
  prepare_undo Jobs.FederationReblogDelivery "undo-announce" "Announce" "local boost actor does not exist"
    "remote boosted status does not exist" "remote boost status author does not exist".

(** * Recipients of events *)

(** The followers of an account that did not turn its boosts off. *)
Definition local_follower_ids_for_account (account : uuid) (include_reblog_muted : bool) (d : Db) : list uuid :=
  (fun kv => kv.1.1) <$>
    List.filter (fun kv : (uuid * uuid) * Relations.FollowRow =>
                   (kv.1.2 =? account)%N && (include_reblog_muted || Relations.follow_show_reblogs kv.2))
      (map_to_list (Relations.local_follows (Timelines.relations_of d))).

Fixpoint filter_stream_recipients (author : AccountId) (recipients : list uuid) : Op Db (list uuid) :=
  match recipients with
  | [] => mret []
  | r :: recipients =>
      hidden ← Timelines.on_relations (Relations.local_account_is_hidden_for_viewer (mkAccountId r) author);
      rest ← filter_stream_recipients author recipients;
      mret (if hidden : bool then rest else r :: rest)
  end.

Definition reblog_stream_recipients (account : AccountId) : Op Db (list uuid) :=
  recipients ← gets (local_follower_ids_for_account (account_uuid account) false);
  filter_stream_recipients account recipients.

(** * The action on a remote status *)

Definition favourite_remote_status (account : AccountId) (status : uuid) (s : Statuses.RemoteStatus) : Op Db unit :=
  already ← Timelines.on_interactions (Interactions.is_remote_status_favourited account (mkStatusId status));
  if (already : bool) then mret tt
  else
    prepared ← prepare_remote_favourite (account_uuid account) status s;
    Timelines.on_interactions
      (Interactions.favourite_remote_status_with_job account (mkStatusId status) prepared.1 prepared.2).

Definition unfavourite_remote_status (account : AccountId) (status : uuid) : Op Db unit :=
  found ← Timelines.on_interactions (Interactions.find_remote_status_favourite account (mkStatusId status));
  match found with
  | None => mret tt
  | Some row =>
      job ← prepare_remote_unfavourite row;
      Timelines.on_interactions
        (Interactions.unfavourite_remote_status_with_job account (mkStatusId status) job);;
      mret tt
  end.

Definition reblog_remote_status (account : AccountId) (status : uuid) (s : Statuses.RemoteStatus) :
    Op Db Interactions.OutgoingRow :=
  already ← Timelines.on_interactions (Interactions.is_remote_status_reblogged account (mkStatusId status));
  if (already : bool)
  then Timelines.on_interactions (Interactions.reblog_remote_status account (mkStatusId status) "")
  else
    prepared ← prepare_remote_reblog (account_uuid account) status s;
    Timelines.on_interactions
      (Interactions.reblog_remote_status_with_job account (mkStatusId status) prepared.1 prepared.2).

Definition unreblog_remote_status (account : AccountId) (status : uuid) : Op Db (list CommittedStatusEvent) :=
  found ← Timelines.on_interactions (Interactions.find_remote_status_reblog account (mkStatusId status));
  match found with
  | None => mret []
  | Some row =>
      job ← prepare_remote_unreblog row;
      Timelines.on_interactions
        (Interactions.unreblog_remote_status_with_job account (mkStatusId status) job);;
      recipients ← reblog_stream_recipients account;
      mret [Delete (Interactions.out_id row) Statuses.Unlisted recipients]
  end.

Definition shown_outcome (status : uuid) (s : Statuses.RemoteStatus) (events : list CommittedStatusEvent) :
    Op Db StatusCollectionOutcome :=
  shown ← Timelines.remote_status_response_for_viewer status s;
  mret (mkOutcome shown [] events).

Definition remote_action (account : AccountId) (status : uuid) (s : Statuses.RemoteStatus)
    (action : StatusCollectionAction) : Handler StatusCollectionOutcome :=
  match action with
  | Favourite =>
      Timelines.api (favourite_remote_status account status s);;
      Timelines.api (shown_outcome status s [])
  | Unfavourite =>
      Timelines.api (unfavourite_remote_status account status);;
      Timelines.api (shown_outcome status s [])
  | Reblog =>
      row ← Timelines.api (reblog_remote_status account status s);
      made ← Timelines.api (Timelines.local_remote_reblog_response (Interactions.out_id row)
               (Interactions.out_account row) (Interactions.out_status row));
      shown ← lift_option Timelines.NotFound made;
      recipients ← Timelines.api (reblog_stream_recipients account);
      mret (mkOutcome shown [] [Update shown recipients])
  | Unreblog =>
      events ← Timelines.api (unreblog_remote_status account status);
      Timelines.api (shown_outcome status s events)
  | Bookmark | Unbookmark => throw Timelines.NotFound
  end.

(** * The action on a local status *)

Definition change_local (account : AccountId) (status : StatusId) (action : StatusCollectionAction) :
    Op Interactions.Db (option Interactions.ActionRow) :=
  match action with
  | Favourite => Interactions.favourite_local_status account status;; mret None
  | Unfavourite => Interactions.unfavourite_local_status account status;; mret None
  | Bookmark => Interactions.bookmark_local_status account status;; mret None
  | Unbookmark => Interactions.unbookmark_local_status account status;; mret None
  | Reblog => row ← Interactions.reblog_local_status account status; mret (Some row)
  | Unreblog => Interactions.unreblog_local_status account status
  end.

Definition notified_kind (action : StatusCollectionAction) : option Notifications.LocalNotificationType :=
  match action with
  | Favourite => Some Notifications.Favourite
  | Reblog => Some Notifications.Reblog
  | _ => None
  end.

Definition pending (account : AccountId) (status : uuid) (s : Statuses.LocalStatus)
    (action : StatusCollectionAction) : list PendingStatusNotification :=
  if bool_decide (Statuses.ls_account s = account_uuid account) then []
  else match notified_kind action with
       | Some kind => [mkPending (Statuses.ls_account s) kind status]
       | None => []
       end.

Definition local_action (account : AccountId) (status : uuid) (s : Statuses.LocalStatus)
    (action : StatusCollectionAction) : Handler StatusCollectionOutcome :=
  row ← Timelines.api (Timelines.on_interactions (change_local account (mkStatusId status) action));
  match row, action with
  | Some row, Reblog =>
      made ← Timelines.api (Timelines.reblog_response (Interactions.act_id row) (account_uuid account) status
               (Some account));
      shown ← lift_option Timelines.NotFound made;
      recipients ← Timelines.api (reblog_stream_recipients account);
      mret (mkOutcome shown (pending account status s action) [Update shown recipients])
  | _, _ =>
      events ← (match row with
                | Some row => recipients ← Timelines.api (reblog_stream_recipients account);
                              mret [Delete (Interactions.act_id row) Statuses.Direct recipients]
                | None => mret []
                end : Handler (list CommittedStatusEvent));
      shown ← Timelines.api (Timelines.status_with_author status s);
      mret (mkOutcome shown (pending account status s action) events)
  end.

(** * The handler *)

Definition visible_status_for_account (status : uuid) (account : AccountId) (d : Db) : option Statuses.LocalStatus :=
  match Timelines.find_local d status with
  | Some s => if Threads.status_visible_to_viewer (Timelines.threads_db d) status s (Some account)
              then Some s else None
  | None => None
  end.

Definition status_collection_action (account : AccountId) (status : uuid) (action : StatusCollectionAction) :
    Handler StatusCollectionOutcome :=
  d ← gets (fun d => d);
  match visible_status_for_account status account d with
  | None =>
      remote ← lift_option Timelines.NotFound (Timelines.find_remote d status);
      if negb (Threads.remote_status_visible_to_account (Timelines.threads_db d) status remote account)
      then throw Timelines.NotFound
      else if bool_decide (Statuses.rs_visibility remote = Statuses.Private) && is_boost action
      then throw Timelines.BadRequest
      else remote_action account status remote action
  | Some s =>
      if bool_decide (Statuses.ls_visibility s = Statuses.Private)
         && negb (bool_decide (Statuses.ls_account s = account_uuid account)) && is_boost action
      then throw Timelines.BadRequest
      else local_action account status s action
  end.

(** After the commit each notification is a transaction of its own, whose failure is
    only logged. *)
Definition create_notification (actor : AccountId) (n : PendingStatusNotification) : Handler unit :=
  fun w s =>
    match transaction (Timelines.on_interactions (zoom
            (NotificationRequests.notify_local_account_with_policy uuid_text (mkAccountId (pending_account n))
               (pending_kind n) actor (Some (mkStatusId (pending_status n)))));; mret (Commit tt)) w s with
    | (_, w', s') => (Ok tt, w', s')
    end.

(** What the client gets, and the events that are published. *)
Definition status_collection_action_with_database (account : AccountId) (status : uuid)
    (action : StatusCollectionAction) : Handler (Timelines.StatusResponse * list CommittedStatusEvent) :=
  outcome ← transaction (o ← status_collection_action account status action; mret (Commit o));
  for_each (notifications outcome) (create_notification account);;
  mret (response outcome, stream_events outcome).
End Actions.
