(* ===== verification/TimelinesInvariant.v ===== *)
(** Timelines: following the links of a home timeline reads every entry of it once;
    what a home timeline, a list and the public timeline may show; boosts of direct
    messages, boosts by muted accounts, and lists that keep an actor who rejected
    the follow. *)
From S2P Require Import Prelude Core Text.
From S2P Require Jobs Notifications Relations RelationsInvariant Statuses NotificationRequests Interactions DomainPolicy DomainPolicyInvariant Threads Pagination PaginationWalk Inbox.
From S2P Require Import Timelines.

#[local] Existing Instances Statuses.StatusVisibility_eq_dec Relations.RemoteFollowState_eq_dec
  Inbox.interactions_part Interactions.requests_part DomainPolicy.DomainBlockSeverity_eq_dec.

(** * Pages merged from several tables *)

Section Merge.
Context {R : Type} (rid : R -> uuid).

Abbreviation nf := (Pagination.newest_first rid).
Abbreviation top m l := (take m (nf l)).

Lemma top_top m l : NoDup (rid <$> l) -> top m (top m l) = top m l.
Proof.
  intros Hnd. rewrite (PaginationWalk.sorted_newest_first rid (top m l)).
  - by rewrite take_take, Nat.min_id.
  - eapply PaginationWalk.NoDup_fmap_submseteq; [apply PaginationWalk.top_submseteq|done].
  - apply PaginationWalk.sorted_take, PaginationWalk.newest_first_sorted.
Qed.

Lemma tops_submseteq m ls : concat ((fun l => top m l) <$> ls) ⊆+ concat ls.
Proof.
  induction ls as [|l ls IH]; [done|]. simpl.
  apply submseteq_app; [apply PaginationWalk.top_submseteq|done].
Qed.

(** The first [m] rows of many parts are those of their union. *)
Lemma top_concat m ls :
  NoDup (rid <$> concat ls) ->
  top m (concat ((fun l => top m l) <$> ls)) = top m (concat ls).
Proof.
  induction ls as [|l ls IH]; [done|]. intros Hnd. cbn [concat fmap list_fmap].
  assert (Hrest : NoDup (rid <$> concat ls)).
  { eapply PaginationWalk.NoDup_fmap_submseteq; [|exact Hnd]. cbn [concat]. apply submseteq_inserts_l. done. }
  assert (Hl : NoDup (rid <$> l)).
  { eapply PaginationWalk.NoDup_fmap_submseteq; [|exact Hnd]. cbn [concat]. apply submseteq_inserts_r. done. }
  rewrite <- (PaginationWalk.top_app rid m (top m l)), IH, top_top by
    first [done | eapply PaginationWalk.NoDup_fmap_submseteq; [|exact Hnd]; cbn [concat];
                  apply submseteq_app; [apply PaginationWalk.top_submseteq|apply tops_submseteq]].
  by apply PaginationWalk.top_app.
Qed.

(** A page cut from limited queries of several tables is the page of their union. *)
Lemma merged_pages {T} (project : list R -> list T) limit c ls :
  0 <= limit < u64_modulus - 1 -> NoDup (rid <$> concat ls) ->
  Pagination.page_of rid limit project (nf (concat (Pagination.cursor_query rid limit c <$> ls)))
  = Pagination.page_of rid limit project
      (nf (List.filter (fun r => Pagination.collection_cursor_matches (rid r) c) (concat ls))).
Proof.
  intros Hl Hnd. set (keep := List.filter (fun r => Pagination.collection_cursor_matches (rid r) c)).
  assert (Hf : keep (concat ls) = concat (keep <$> ls)).
  { unfold keep. clear. induction ls as [|l ls IH]; [done|]. simpl. by rewrite List.filter_app, IH. }
  rewrite Hf. rewrite <- (PaginationWalk.page_of_one_more rid _ (nf (concat (keep <$> ls)))) by done.
  rewrite <- top_concat.
  - rewrite PaginationWalk.page_of_one_more by done. f_equal. f_equal. f_equal.
    rewrite <- list_fmap_compose. apply list_fmap_ext. intros _ l _. cbn. unfold Pagination.cursor_query.
    by rewrite PaginationWalk.apply_cursor_filter.
  - rewrite <- Hf. by apply PaginationWalk.NoDup_fmap_filter.
Qed.
End Merge.

(** * The home timeline *)

(** The CHECK constraint of [remote_status_reblog]: one target. *)
Definition boosts_have_targets (d : Db) : Prop :=
  forall i r, Interactions.remote_reblogs (interactions_of d) !! i = Some r ->
    Interactions.reblog_target r <> None.

Section Feed.
Context (d : Db) (me : uuid) (hidden_local hidden_remote : list uuid).

(** Everything that the home timeline of an account has, in no order. *)
Definition home_parts : list (list HomeTimelineItem) :=
  [status_item <$> select (home_status d me hidden_local) (Statuses.local_statuses (statuses_of d));
   reblog_item <$> local_reblog_rows (home_reblogger d me hidden_local) d;
   remote_status_item <$> select (home_remote_status d me hidden_remote) (Statuses.remote_statuses (statuses_of d));
   local_remote_reblog_item <$> outgoing_reblog_rows (fun a => listed a (me :: reblog_followed_ids d me)) d;
   omap remote_reblog_item (remote_reblog_rows (home_remote_reblogger d me hidden_remote) d)].

Definition home_feed : list HomeTimelineItem := concat home_parts.

Lemma page_rows_query {V} (item : uuid * V -> HomeTimelineItem) limit c rows :
  (forall r, timeline_item_id (item r) = r.1) ->
  page_rows item limit c rows = Pagination.cursor_query timeline_item_id limit c (item <$> rows).
Proof using Type. intros Hid. unfold page_rows. by rewrite (PaginationWalk.cursor_query_fmap fst timeline_item_id item Hid). Qed.

Lemma cursor_query_sub {V} limit c (rows : list (uuid * V)) x :
  x ∈ Pagination.cursor_query fst limit c rows -> x ∈ rows.
Proof using Type.
  unfold Pagination.cursor_query. rewrite PaginationWalk.apply_cursor_filter. intros Hx.
  eapply elem_of_submseteq in Hx; [|apply PaginationWalk.top_submseteq].
  by apply list_elem_of_In, List.filter_In in Hx as [?%list_elem_of_In _].
Qed.

Lemma remote_reblogs_query p limit c :
  boosts_have_targets d ->
  omap remote_reblog_item (Pagination.cursor_query fst limit c (remote_reblog_rows p d))
  = Pagination.cursor_query timeline_item_id limit c (omap remote_reblog_item (remote_reblog_rows p d)).
Proof using Type.
  intros Ht.
  set (g := fun r : uuid * Interactions.RemoteReblogRow =>
              RemoteReblog r.1 (Interactions.rrb_actor r.2)
                (default (Interactions.TargetLocal (mkStatusId 0)) (Interactions.reblog_target r.2))).
  assert (Hg : forall l : list _, (forall r, r ∈ l -> r ∈ remote_reblog_rows p d) -> omap remote_reblog_item l = g <$> l).
  { intros l Hl. apply omap_all. intros [i r] Hr%Hl.
    unfold remote_reblog_rows, select in Hr. rewrite list_elem_of_In, List.filter_In, <- list_elem_of_In, elem_of_map_to_list in Hr.
    destruct Hr as [Hr _]. specialize (Ht i r Hr). unfold remote_reblog_item, g. cbn [fst snd].
    by destruct (Interactions.reblog_target r). }
  rewrite !Hg by first [done | intros r; apply cursor_query_sub].
  by rewrite (PaginationWalk.cursor_query_fmap fst timeline_item_id g).
Qed.

Lemma home_page_feed limit c :
  0 <= limit < u64_modulus - 1 -> boosts_have_targets d -> NoDup (timeline_item_id <$> home_feed) ->
  home_page d me hidden_local hidden_remote limit c
  = Pagination.page_of timeline_item_id limit (omap Some)
      (Pagination.newest_first timeline_item_id
         (List.filter (fun r => Pagination.collection_cursor_matches (timeline_item_id r) c) home_feed)).
Proof using Type.
  intros Hl Ht Hnd. rewrite (PaginationWalk.page_of_ext _ _ (omap Some) (fun rows => rows))
    by (intros l' _; apply PaginationWalk.omap_Some_id).
  unfold home_feed. rewrite <- merged_pages by done. unfold home_page, page_of_items, home_parts.
  cbn [fmap list_fmap concat]. rewrite !page_rows_query, remote_reblogs_query by (done || by intros []).
  by rewrite app_nil_r.
Qed.

#[local] Instance home_paged limit :
  0 <= limit < u64_modulus - 1 -> boosts_have_targets d -> NoDup (timeline_item_id <$> home_feed) ->
  PaginationWalk.Paged timeline_item_id Some home_feed limit (home_page d me hidden_local hidden_remote limit).
Proof using Type. intros Hl Ht Hnd. split; [done|]. intros c. by apply home_page_feed. Qed.
End Feed.

(** C34. Following the links of a home timeline, whatever the size of its pages, reads
    every entry of the five tables that belongs to the account's feed exactly once,
    newest first, and stops: no entry is lost or repeated where the tables meet. *)
Theorem home_timeline_walk_reads_the_feed (d : Db) (me : uuid) (hidden_local hidden_remote : list uuid)
    (params : TimelineParams) (fuel : nat) :
  boosts_have_targets d ->
  NoDup (timeline_item_id <$> home_feed d me hidden_local hidden_remote) ->
  (length (home_feed d me hidden_local hidden_remote) < fuel)%nat ->
  Pagination.walk (home_page d me hidden_local hidden_remote (timeline_limit (limit params))) fuel
    Pagination.no_cursor
  = (Pagination.newest_first timeline_item_id (home_feed d me hidden_local hidden_remote), true).
Proof.
  intros Ht Hnd Hfuel. assert (Hl : 1 <= timeline_limit (limit params) <= 40).
  { unfold timeline_limit, Pagination.clamp_limit. lia. }
  pose proof (home_paged d me hidden_local hidden_remote (timeline_limit (limit params))
                ltac:(unfold u64_modulus; lia) Ht Hnd) as Hpaged.
  rewrite (PaginationWalk.walk_all timeline_item_id Some _ _ _ (proj1 Hl) fuel Hfuel).
  by rewrite PaginationWalk.omap_Some_id.
Qed.

(** ** Reading *)

Abbreviation reads_only m := (keeps (fun d => d) m).

Lemma reads_zoom_all {T S E A} `{Part T S} (m : M T E A) :
  reads_only m -> reads_only (zoom m : M S E A).
Proof.
  apply (keeps_zoom_part (fun s : S => s) (fun t : T => t)). intros s t ->. apply put_get_part.
Qed.

Lemma reads_on_relations {A} (m : Op Relations.Db A) : reads_only m -> reads_only (Timelines.on_relations m).
Proof.
  intros Hm. unfold Timelines.on_relations, on_interactions, Interactions.on_relations,
    NotificationRequests.on_relations.
  repeat apply reads_zoom_all. exact Hm.
Qed.

(** Running an operation on the relationships that reads. *)
Lemma relations_zoom_run {A} (m : Op Relations.Db A) w d r w' d' :
  reads_only m -> Timelines.on_relations m w d = (r, w', d') ->
  d' = d /\ m w (relations_of d) = (r, w', relations_of d).
Proof.
  intros Hm Hrun. pose proof (keeps_run _ _ _ _ _ _ _ (reads_on_relations m Hm) Hrun) as Hd. split; [done|].
  specialize (Hm w (relations_of d)). revert Hrun Hm. unfold Timelines.on_relations, on_interactions,
    Interactions.on_relations, NotificationRequests.on_relations, zoom, store_of.
  cbn. change (Statuses.relations (NotificationRequests.statuses (Interactions.requests_db
    (Inbox.interactions (inbox d))))) with (relations_of d).
  destruct (m w (relations_of d)) as [[r1 w1] t]. intros [= <- <- _]. by intros <-.
Qed.

Lemma collect_run {S E A B} (f : A -> M S E B) items w d rs w' d' :
  (forall x, reads_only (f x)) -> collect items f w d = (Ok rs, w', d') ->
  d' = d /\ length rs = length items /\
  forall r, r ∈ rs -> exists x w1 w2, x ∈ items /\ f x w1 d = (Ok r, w2, d).
Proof.
  intros Hf. revert w rs w'. induction items as [|x items IH]; intros w rs w' H.
  - injection H as <- _ <-. split; [done|]. split; [done|]. intros r Hr. by apply elem_of_nil in Hr.
  - cbn [collect] in H. inv_bind H r w1 d1 H1. inv_bind H rest w2 d2 H2. injection H as <- _ <-.
    assert (d1 = d) as -> by exact (keeps_run _ _ _ _ _ _ _ (Hf x) H1). apply IH in H2 as (-> & Hlen & Hin).
    split; [done|]. split; [cbn; lia|]. intros r' [->|Hr]%elem_of_cons.
    + exists x, w, w1. split; [left|done].
    + destruct (Hin r' Hr) as (y & u & v & Hy & Hrun). exists y, u, v. split; [by right|done].
Qed.

(** ** What a home timeline may show *)

Lemma hidden_local_sub account d w r w' d' :
  Relations.hidden_local_account_ids_for_account account w d = (Ok r, w', d') ->
  forall a, Relations.local_blocks d !! (account_uuid account, a) <> None
            \/ Relations.local_blocks d !! (a, account_uuid account) <> None -> a ∈ r.
Proof.
  unfold Relations.hidden_local_account_ids_for_account. intros H a Ha.
  inv_bind H blocked w1 d1 H1. injection H1 as <- _ <-. inv_bind H now w2 d2 H2. injection H2 as _ _ <-.
  inv_bind H d3 w3 d4 H3. injection H3 as <- _ <-. injection H as <- _ _.
  apply elem_of_sorted_dedup; [apply _..|]. apply elem_of_app. left.
  unfold Relations.blocked_local_account_ids. apply list_elem_of_fmap.
  assert (Hcase : forall k row, Relations.local_blocks d !! k = Some row ->
    (k.1 =? account_uuid account)%N || (k.2 =? account_uuid account)%N = true ->
    (k, row) ∈ List.filter (fun kv : uuid * uuid * uuid => (kv.1.1 =? account_uuid account)%N
       || (kv.1.2 =? account_uuid account)%N) (map_to_list (Relations.local_blocks d))).
  { intros k row Hk Hp. apply list_elem_of_In, List.filter_In. split; [|done].
    by apply list_elem_of_In, elem_of_map_to_list. }
  destruct Ha as [Ha|Ha].
  - destruct (Relations.local_blocks d !! (account_uuid account, a)) as [row|] eqn:Hrow; [|done].
    exists ((account_uuid account, a), row). cbn. rewrite N.eqb_refl. split; [done|].
    apply Hcase; [done|]. cbn. by rewrite N.eqb_refl.
  - destruct (Relations.local_blocks d !! (a, account_uuid account)) as [row|] eqn:Hrow; [|done].
    exists ((a, account_uuid account), row). cbn. split; [|apply Hcase; [done|cbn; by rewrite N.eqb_refl, orb_true_r]].
    by destruct (N.eqb_spec a (account_uuid account)) as [->|].
Qed.

Lemma hidden_remote_sub account w d r w' d' :
  Relations.hidden_remote_actor_ids_for_account account w d = (Ok r, w', d') ->
  forall a, Relations.local_remote_blocks d !! (account_uuid account, a) <> None -> a ∈ r.
Proof.
  unfold Relations.hidden_remote_actor_ids_for_account. intros H a Ha.
  inv_bind H now w1 d1 H1. injection H1 as _ _ <-. inv_bind H d2 w2 d3 H2. injection H2 as <- _ <-.
  injection H as <- _ _. apply elem_of_sorted_dedup; [apply _..|]. apply elem_of_app. left.
  destruct (Relations.local_remote_blocks d !! (account_uuid account, a)) as [row|] eqn:Hrow; [|done].
  apply list_elem_of_fmap. exists ((account_uuid account, a), row). split; [done|].
  apply list_elem_of_In, List.filter_In. split; [by apply list_elem_of_In, elem_of_map_to_list|]. cbn.
  by rewrite N.eqb_refl.
Qed.

Lemma reads_hidden_local account : reads_only (Relations.hidden_local_account_ids_for_account account).
Proof.
  unfold Relations.hidden_local_account_ids_for_account, Relations.blocked_local_account_ids_for_account.
  solve_keeps.
Qed.

Lemma reads_hidden_remote account : reads_only (Relations.hidden_remote_actor_ids_for_account account).
Proof. unfold Relations.hidden_remote_actor_ids_for_account. solve_keeps. Qed.

Lemma page_of_items_sub limit items x :
  x ∈ Pagination.items (page_of_items limit items) -> x ∈ items.
Proof.
  unfold page_of_items, Pagination.page_of. rewrite PaginationWalk.trim_to_page_take. cbn.
  intros Hx%elem_of_take. destruct Hx as (i & Hx & _). apply list_elem_of_lookup_2 in Hx.
  unfold Pagination.newest_first in Hx. by rewrite order_by_Permutation in Hx.
Qed.

Lemma page_of_items_length limit items :
  (length (Pagination.items (page_of_items limit items)) <= Z.to_nat limit)%nat.
Proof.
  unfold page_of_items, Pagination.page_of. rewrite PaginationWalk.trim_to_page_take. cbn.
  rewrite length_take. lia.
Qed.

Lemma page_rows_sub {V} (item : uuid * V -> HomeTimelineItem) limit c rows x :
  x ∈ page_rows item limit c rows -> x ∈ item <$> rows.
Proof.
  unfold page_rows. intros (r & -> & Hr)%list_elem_of_fmap. apply list_elem_of_fmap_2.
  by eapply cursor_query_sub.
Qed.

(** Every entry of a page is in the feed. *)
Lemma home_page_sub d me hidden_local hidden_remote limit c x :
  x ∈ Pagination.items (home_page d me hidden_local hidden_remote limit c) ->
  x ∈ home_feed d me hidden_local hidden_remote.
Proof.
  unfold home_page. intros Hx%page_of_items_sub. unfold home_feed, home_parts. cbn [concat].
  rewrite app_nil_r. rewrite !elem_of_app in *.
  destruct Hx as [Hx|[Hx|[Hx|[Hx|Hx]]]]; [apply page_rows_sub in Hx; tauto..|].
  right; right; right; right. apply list_elem_of_omap in Hx as (r & Hr & Hx).
  apply list_elem_of_omap. exists r. split; [by eapply cursor_query_sub|done].
Qed.

(** A response shows a status that exists and that the account may read.  The boost of
    a remote status by a local account is the exception: what is known is only that
    the account does not block the author. *)
Definition readable (d : Db) (me : AccountId) (r : StatusResponse) : Prop :=
  match shown r with
  | Threads.LocalItem i s =>
      find_local d i = Some s /\
      Threads.status_visible_to_viewer (threads_db d) i s (Some me) = true
  | Threads.RemoteItem i s =>
      find_remote d i = Some s /\
      Relations.local_remote_blocks (relations_of d) !! (account_uuid me, Statuses.rs_actor s) = None /\
      (Threads.remote_status_visible_to_account (threads_db d) i s me = true
       \/ exists b, booster r = Some (BoostedBy b))
  end.

Lemma elem_of_select {V} (p : uuid -> V -> bool) (t : gmap uuid V) i v :
  (i, v) ∈ select p t <-> t !! i = Some v /\ p i v = true.
Proof.
  unfold select. by rewrite list_elem_of_In, List.filter_In, <- list_elem_of_In, elem_of_map_to_list.
Qed.

Lemma find_local_live d i s :
  Statuses.local_statuses (statuses_of d) !! i = Some s -> Statuses.ls_deleted_at s = None ->
  find_local d i = Some s.
Proof. unfold find_local. intros -> Hl. by rewrite bool_decide_true. Qed.

Lemma find_remote_live d i s :
  Statuses.remote_statuses (statuses_of d) !! i = Some s -> Statuses.rs_deleted_at s = None ->
  find_remote d i = Some s.
Proof. unfold find_remote. intros -> Hl. by rewrite bool_decide_true. Qed.

Section Readable.
Context (d : Db) (me : AccountId) (hidden_local hidden_remote : list uuid).
Context (Hlocal : forall a, Relations.local_blocks (relations_of d) !! (account_uuid me, a) <> None
                            \/ Relations.local_blocks (relations_of d) !! (a, account_uuid me) <> None ->
                            a ∈ hidden_local).
Context (Hremote : forall a, Relations.local_remote_blocks (relations_of d) !! (account_uuid me, a) <> None ->
                             a ∈ hidden_remote).

Lemma followed_has_row author :
  author ∈ fst <$> follows d (account_uuid me) ->
  is_Some (Relations.local_follows (relations_of d) !! (account_uuid me, author)).
Proof using Type.
  unfold follows. intros ([a row] & -> & Hf)%list_elem_of_fmap. apply list_elem_of_fmap in Hf as ([[x y] f] & Hf & Hin).
  injection Hf as -> ->. apply list_elem_of_In, List.filter_In in Hin as [Hin%list_elem_of_In Hx].
  apply elem_of_map_to_list in Hin. cbn in *. apply N.eqb_eq in Hx as ->. by eexists.
Qed.

Lemma followed_ids_sub author :
  author ∈ followed_ids d (account_uuid me) -> author ∈ fst <$> follows d (account_uuid me).
Proof using Type.
  unfold followed_ids. intros (f & -> & Hf)%list_elem_of_fmap. apply list_elem_of_fmap_2.
  by apply list_elem_of_In, List.filter_In in Hf as [?%list_elem_of_In _].
Qed.

Lemma unblocked_author author :
  author ∉ hidden_local -> Relations.local_pair_blocked me (mkAccountId author) (relations_of d) = false.
Proof using Hlocal.
  intros Hn. unfold Relations.local_pair_blocked. cbn. apply orb_false_iff.
  split; apply bool_decide_eq_false; intros [x Hx]; apply Hn, Hlocal; [left|right]; by rewrite Hx.
Qed.

(** An author the account follows, who addressed it, or a public status. *)
Lemma local_visible i s :
  Statuses.ls_account s ∉ hidden_local ->
  Statuses.ls_account s = account_uuid me
  \/ Statuses.ls_visibility s = Statuses.Public
  \/ Statuses.ls_visibility s = Statuses.Unlisted
  \/ Statuses.ls_visibility s = Statuses.Private
     /\ (is_Some (Relations.local_follows (relations_of d) !! (account_uuid me, Statuses.ls_account s))
         \/ (i, account_uuid me) ∈ local_recipients d) ->
  Threads.status_visible_to_viewer (threads_db d) i s (Some me) = true.
Proof using Hlocal.
  intros Hn Hv. unfold Threads.status_visible_to_viewer. cbn [Threads.relations_db threads_db].
  change (Threads.relations_db (threads_db d)) with (relations_of d).
  rewrite (unblocked_author _ Hn), andb_false_r. unfold Threads.can_view_status.
  destruct Hv as [Hv|[Hv|[Hv|[Hv Hf]]]].
  - by rewrite Hv, bool_decide_true, orb_true_r.
  - by rewrite Hv.
  - by rewrite Hv.
  - rewrite Hv. cbn [Threads.is_public orb]. case_bool_decide; [done|].
    unfold Threads.local_status_visible_to_account. rewrite Hv. cbn [Threads.is_public orb].
    case_bool_decide; [done|]. change (Threads.relations_db (threads_db d)) with (relations_of d).
    change (Threads.local_recipients (threads_db d)) with (local_recipients d).
    destruct Hf as [Hf|Hf]; [by rewrite bool_decide_true|].
    by rewrite (bool_decide_true ((i, account_uuid me) ∈ _)), orb_true_r.
Qed.

Lemma home_status_visible i s :
  home_status d (account_uuid me) hidden_local i s = true ->
  Threads.status_visible_to_viewer (threads_db d) i s (Some me) = true /\ Statuses.ls_deleted_at s = None.
Proof using Hlocal.
  unfold home_status, listed, shared_visibility. rewrite !andb_true_iff, !orb_true_iff, !andb_true_iff, !negb_true_iff.
  intros [[[Hc Hlive] Hhid] _]. apply bool_decide_eq_false in Hhid. apply bool_decide_eq_true in Hlive.
  split; [|done]. apply local_visible; [done|].
  destruct Hc as [[[Hme|[Hf Hv]]|[Hp Hr]]|[Hp _]].
  - left. by apply N.eqb_eq.
  - apply bool_decide_eq_true in Hf, Hv. apply followed_ids_sub, followed_has_row in Hf.
    set_unfold in Hv. naive_solver.
  - apply bool_decide_eq_true in Hp, Hr. naive_solver.
  - apply bool_decide_eq_true in Hp. naive_solver.
Qed.

(** Follows of remote actors are found under the pair they are of. *)
Context (Hkeyed : RelationsInvariant.followings_keyed (Relations.remote_followings (relations_of d))).

Lemma remote_followed_row boosts actor :
  remote_followed d (account_uuid me) boosts actor = true ->
  exists f, Relations.remote_followings (relations_of d) !! (account_uuid me, actor) = Some f /\
    Relations.fg_state f = Relations.Accepted /\ Relations.fg_deactivated_at f = None.
Proof using Hkeyed.
  unfold remote_followed. intros (f & Hf & Hc)%existsb_exists.
  rewrite !andb_true_iff, !bool_decide_eq_true, !N.eqb_eq in Hc. destruct Hc as [[[[Hl Hr] Hs] Hd] _].
  apply list_elem_of_In, elem_of_rows in Hf as [k Hk]. exists f. split; [|done].
  pose proof (Hkeyed _ _ Hk) as <-. by rewrite <- Hl, <- Hr.
Qed.

Lemma home_remote_status_visible i s :
  home_remote_status d (account_uuid me) hidden_remote i s = true ->
  Threads.remote_status_visible_to_account (threads_db d) i s me = true /\
  Relations.local_remote_blocks (relations_of d) !! (account_uuid me, Statuses.rs_actor s) = None /\
  Statuses.rs_deleted_at s = None.
Proof using Hremote Hkeyed.
  clear Hlocal hidden_local.
  unfold home_remote_status, listed, shared_visibility.
  rewrite !andb_true_iff, !orb_true_iff, !andb_true_iff, !negb_true_iff.
  intros [[[Hc Hlive] Hhid] _]. apply bool_decide_eq_false in Hhid. apply bool_decide_eq_true in Hlive.
  assert (Hb : Relations.local_remote_blocks (relations_of d) !! (account_uuid me, Statuses.rs_actor s) = None).
  { destruct (Relations.local_remote_blocks (relations_of d) !! (account_uuid me, Statuses.rs_actor s)) eqn:Hb; [|done].
    destruct Hhid. apply Hremote. by rewrite Hb. }
  split; [|done]. unfold Threads.remote_status_visible_to_account.
  change (Threads.relations_db (threads_db d)) with (relations_of d).
  change (Threads.remote_recipients (threads_db d)) with (remote_recipients d).
  rewrite Hb, bool_decide_false by (by intros []).
  destruct Hc as [[[[Hf _] Hv]|[Hp Hr]]|[Hp _]].
  - apply bool_decide_eq_true in Hv. apply remote_followed_row in Hf as (f & Hf & Hs & Hd).
    rewrite Hf, (bool_decide_true (Relations.fg_state f = _)), (bool_decide_true (Relations.fg_deactivated_at f = None)) by done.
    assert (Hv3 : Statuses.rs_visibility s = Statuses.Public \/ Statuses.rs_visibility s = Statuses.Unlisted \/
      Statuses.rs_visibility s = Statuses.Private) by set_solver. by destruct Hv3 as [Hv3|[Hv3|Hv3]]; rewrite Hv3.
  - apply bool_decide_eq_true in Hp, Hr. rewrite Hp. cbn. by rewrite (bool_decide_true ((i, account_uuid me) ∈ _)), orb_true_r.
  - apply bool_decide_eq_true in Hp. by rewrite Hp.
Qed.
End Readable.

(** ** Responses *)

Lemma reads_status_with_author i s : reads_only (status_with_author i s).
Proof. unfold status_with_author. solve_keeps. Qed.

Lemma reads_remote_response i s : reads_only (remote_status_response_for_viewer i s).
Proof. unfold remote_status_response_for_viewer. solve_keeps. Qed.

Lemma status_with_author_ok i s w d r w' d' :
  status_with_author i s w d = (Ok r, w', d') -> d' = d /\ r = mkResponse i (Threads.LocalItem i s) None.
Proof.
  intros H. unfold status_with_author in H. inv_bind H d0 w1 d1 H1. injection H1 as <- _ <-.
  destruct (_ !! _); [by injection H as <- _ <-|done].
Qed.

Lemma remote_response_ok i s w d r w' d' :
  remote_status_response_for_viewer i s w d = (Ok r, w', d') ->
  d' = d /\ r = mkResponse i (Threads.RemoteItem i s) None.
Proof.
  intros H. unfold remote_status_response_for_viewer in H. inv_bind H d0 w1 d1 H1. injection H1 as <- _ <-.
  destruct (_ !! _); [by injection H as <- _ <-|done].
Qed.

Section Host.
Context (host_domain : text -> option text).

Lemma reads_hidden_from viewer actor : reads_only (hidden_from viewer actor).
Proof using Type.
  destruct viewer as [v|]; [|done]. apply reads_on_relations.
  unfold Relations.remote_account_is_hidden_for_viewer, Relations.find_local_remote_account_block,
    Relations.active_local_remote_account_mute. solve_keeps.
Qed.

Lemma hidden_from_blocks me actor w d w' d' :
  hidden_from (Some me) actor w d = (Ok false, w', d') ->
  Relations.local_remote_blocks (relations_of d) !! (account_uuid me, actor) = None.
Proof using Type.
  intros H. unfold hidden_from in H. apply relations_zoom_run in H as [_ H].
  2:{ unfold Relations.remote_account_is_hidden_for_viewer, Relations.find_local_remote_account_block,
        Relations.active_local_remote_account_mute. solve_keeps. }
  unfold Relations.remote_account_is_hidden_for_viewer in H. inv_bind H b w1 d1 H1. cbn in H1.
  injection H1 as <- _ <-. by destruct (_ !! _).
Qed.

Lemma reads_suspended domain : reads_only (domain_is_suspended host_domain domain).
Proof using Type. unfold domain_is_suspended. solve_keeps. Qed.

Lemma reads_available s : reads_only (remote_status_available host_domain s).
Proof using Type.
  unfold remote_status_available. apply keeps_bind; [done|]. intros d. destruct (_ !! _); [|done].
  destruct (negb _); [done|]. apply keeps_bind; [apply reads_suspended|done].
Qed.

Lemma reads_remote_original target viewer : reads_only (remote_original target viewer).
Proof using Type.
  unfold remote_original. apply keeps_bind; [done|]. intros d.
  destruct target as [[i]|[i]]; destruct (_ d i); try done; destruct (negb _); try done;
    (apply keeps_bind; [first [apply reads_status_with_author|apply reads_remote_response]|done]).
Qed.

Lemma reads_reblog_response i b s viewer : reads_only (reblog_response i b s viewer).
Proof using Type.
  unfold reblog_response. apply keeps_bind; [done|]. intros d. destruct (find_local d s); [|done].
  destruct (negb _); [done|]. destruct (_ !! _); [|done]. apply keeps_bind; [apply reads_status_with_author|done].
Qed.

Lemma reads_local_remote_reblog i b s : reads_only (local_remote_reblog_response i b s).
Proof using Type.
  unfold local_remote_reblog_response. apply keeps_bind; [done|]. intros d. destruct (find_remote d s); [|done].
  destruct (_ !! _); [|done]. apply keeps_bind; [apply reads_remote_response|done].
Qed.

Lemma reads_remote_reblog i b target viewer : reads_only (remote_reblog_response host_domain i b target viewer).
Proof using Type.
  unfold remote_reblog_response. apply keeps_bind; [done|]. intros d. destruct (_ !! _); [|done].
  destruct (negb _); [done|]. apply keeps_bind; [apply reads_suspended|]. intros [|]; [done|].
  apply keeps_bind; [apply reads_hidden_from|]. intros [|]; [done|].
  apply keeps_bind; [apply reads_remote_original|done].
Qed.

Lemma reads_model me item : reads_only (home_timeline_model host_domain me item).
Proof using Type.
  destruct item as [i s|i b s|i s|i b s|i b t]; cbn [home_timeline_model].
  - apply keeps_bind; [apply reads_status_with_author|done].
  - apply reads_reblog_response.
  - apply keeps_bind; [apply reads_available|]. intros [|]; [|done].
    apply keeps_bind; [apply reads_remote_response|done].
  - apply keeps_bind; [done|]. intros d. destruct (find_remote d s); [|done].
    apply keeps_bind; [apply reads_available|]. intros [|]; [|done]. cbn [negb].
    apply keeps_bind; [apply reads_hidden_from|]. intros [|]; [done|]. apply reads_local_remote_reblog.
  - apply reads_remote_reblog.
Qed.
End Host.

Lemma feed_status d me hidden_local hidden_remote i s :
  Status i s ∈ home_feed d me hidden_local hidden_remote ->
  Statuses.local_statuses (statuses_of d) !! i = Some s /\ home_status d me hidden_local i s = true.
Proof.
  unfold home_feed, home_parts. cbn [concat]. rewrite app_nil_r, !elem_of_app, !list_elem_of_fmap, list_elem_of_omap.
  intros [([j s'] & Heq & Hr)|[(r & [=] & _)|[(r & [=] & _)|[(r & [=] & _)|(r & _ & Hr)]]]].
  - injection Heq as -> ->. by apply elem_of_select.
  - unfold remote_reblog_item in Hr. by destruct (Interactions.reblog_target r.2).
Qed.

Lemma feed_remote_status d me hidden_local hidden_remote i s :
  RemoteStatus i s ∈ home_feed d me hidden_local hidden_remote ->
  Statuses.remote_statuses (statuses_of d) !! i = Some s /\ home_remote_status d me hidden_remote i s = true.
Proof.
  unfold home_feed, home_parts. cbn [concat]. rewrite app_nil_r, !elem_of_app, !list_elem_of_fmap, list_elem_of_omap.
  intros [(r & [=] & _)|[(r & [=] & _)|[([j s'] & Heq & Hr)|[(r & [=] & _)|(r & _ & Hr)]]]].
  - injection Heq as -> ->. by apply elem_of_select.
  - unfold remote_reblog_item in Hr. by destruct (Interactions.reblog_target r.2).
Qed.

Section Models.
Context (host_domain : text -> option text) (d : Db) (me : AccountId).

Lemma reblog_response_readable i b s w w' d' r :
  reblog_response i b s (Some me) w d = (Ok (Some r), w', d') -> readable d me r.
Proof using Type.
  intros H. unfold reblog_response in H. inv_bind H d0 w1 d1 H1. injection H1 as <- _ <-.
  destruct (find_local d s) as [st|] eqn:Hs; [|done].
  destruct (Threads.status_visible_to_viewer (threads_db d) s st (Some me)) eqn:Hv; [|done]. cbn [negb] in H.
  destruct (_ !! b); [|done]. inv_bind H o w2 d2 H2. apply status_with_author_ok in H2 as [-> ->].
  by injection H as <- _ _.
Qed.

Lemma remote_original_readable t w w' d' r b :
  remote_original t (Some me) w d = (Ok (Some r), w', d') -> readable d me (wrapped (response_id r) b r).
Proof using Type.
  intros H. unfold remote_original in H. inv_bind H d0 w1 d1 H1. injection H1 as <- _ <-.
  destruct t as [[i]|[i]].
  - destruct (find_local d i) as [s|] eqn:Hs; [|done].
    destruct (Threads.status_visible_to_viewer (threads_db d) i s (Some me)) eqn:Hv; [|done]. cbn [negb] in H.
    inv_bind H o w2 d2 H2. apply status_with_author_ok in H2 as [-> ->]. by injection H as <- _ _.
  - destruct (find_remote d i) as [s|] eqn:Hs; [|done].
    destruct (Threads.remote_status_visible_to_account (threads_db d) i s me) eqn:Hv; [|done]. cbn [negb] in H.
    inv_bind H o w2 d2 H2. apply remote_response_ok in H2 as [-> ->]. injection H as <- _ _.
    unfold readable. cbn. split; [done|]. split; [|by left].
    unfold Threads.remote_status_visible_to_account in Hv. case_bool_decide as Hb; [done|].
    change (Threads.relations_db (threads_db d)) with (relations_of d) in Hb.
    by apply eq_None_not_Some.
Qed.

Lemma remote_reblog_readable i b t w w' d' r :
  remote_reblog_response host_domain i b t (Some me) w d = (Ok (Some r), w', d') -> readable d me r.
Proof using Type.
  intros H. unfold remote_reblog_response in H. inv_bind H d0 w1 d1 H1. injection H1 as <- _ <-.
  destruct (_ !! b) as [actor|]; [|done]. destruct (negb _); [done|].
  inv_bind H suspended w2 d2 H2. assert (d2 = d) as -> by exact (keeps_run _ _ _ _ _ _ _ (reads_suspended host_domain _) H2).
  destruct suspended; [done|]. inv_bind H hidden w3 d3 H3.
  assert (d3 = d) as -> by exact (keeps_run _ _ _ _ _ _ _ (reads_hidden_from (Some me) b) H3).
  destruct hidden; [done|]. inv_bind H o w4 d4 H4. destruct o as [o|]; [|done].
  apply (remote_original_readable _ _ _ _ _ (BoostedByRemote b)) in H4. by injection H as <- _ _.
Qed.

Lemma local_remote_reblog_readable i b s w w' d' r original :
  find_remote d s = Some original ->
  Relations.local_remote_blocks (relations_of d) !! (account_uuid me, Statuses.rs_actor original) = None ->
  local_remote_reblog_response i b s w d = (Ok (Some r), w', d') -> readable d me r.
Proof using Type.
  intros Hs Hb H. unfold local_remote_reblog_response in H. inv_bind H d0 w1 d1 H1. injection H1 as <- _ <-.
  rewrite Hs in H. destruct (_ !! b); [|done]. inv_bind H o w2 d2 H2. apply remote_response_ok in H2 as [-> ->].
  injection H as <- _ _. unfold readable. cbn. eauto.
Qed.

Lemma model_readable hidden_local hidden_remote item w w' d' r :
  (forall a, Relations.local_blocks (relations_of d) !! (account_uuid me, a) <> None
             \/ Relations.local_blocks (relations_of d) !! (a, account_uuid me) <> None -> a ∈ hidden_local) ->
  (forall a, Relations.local_remote_blocks (relations_of d) !! (account_uuid me, a) <> None -> a ∈ hidden_remote) ->
  RelationsInvariant.followings_keyed (Relations.remote_followings (relations_of d)) ->
  item ∈ home_feed d (account_uuid me) hidden_local hidden_remote ->
  home_timeline_model host_domain me item w d = (Ok (Some r), w', d') -> readable d me r.
Proof using Type.
  intros Hl Hr Hk Hin H. destruct item as [i s|i b s|i s|i b s|i b t]; cbn [home_timeline_model] in H.
  - apply feed_status in Hin as [Hrow Hp]. apply (home_status_visible d me hidden_local Hl) in Hp as [Hv Hlive].
    inv_bind H o w1 d1 H1. apply status_with_author_ok in H1 as [-> ->]. injection H as <- _ _.
    split; [by apply find_local_live|done].
  - by apply reblog_response_readable in H.
  - apply feed_remote_status in Hin as [Hrow Hp].
    apply (home_remote_status_visible d me hidden_remote Hr Hk) in Hp as (Hv & Hb & Hlive).
    inv_bind H av w1 d1 H1. assert (d1 = d) as -> by exact (keeps_run _ _ _ _ _ _ _ (reads_available host_domain s) H1).
    destruct av; [|done]. inv_bind H o w2 d2 H2. apply remote_response_ok in H2 as [-> ->]. injection H as <- _ _.
    unfold readable. cbn. split; [by apply find_remote_live|]. eauto.
  - inv_bind H d0 w0 d1 H0. injection H0 as <- _ <-. destruct (find_remote d s) as [original|] eqn:Hs; [|done].
    inv_bind H av w1 d1 H1. assert (d1 = d) as -> by exact (keeps_run _ _ _ _ _ _ _ (reads_available host_domain _) H1).
    destruct av; [|done]. cbn [negb] in H. inv_bind H hidden w2 d2 H2.
    assert (d2 = d) as -> by exact (keeps_run _ _ _ _ _ _ _ (reads_hidden_from (Some me) _) H2).
    destruct hidden; [done|]. apply hidden_from_blocks in H2. by eapply local_remote_reblog_readable.
  - by apply remote_reblog_readable in H.
Qed.
End Models.

Lemma api_ok {A} (m : Op Db A) w d r w' d' : api m w d = (Ok r, w', d') -> m w d = (Ok r, w', d').
Proof. unfold api, map_err. destruct (m w d) as [[[a|e] u] v]; by intros [= <- <- <-]. Qed.

Lemma respond_page {P} (m : Op Db (list StatusResponse)) (l : option (P * P)) w d items links w' d' :
  respond m l w d = (Ok (Page items links), w', d') -> m w d = (Ok items, w', d') /\ links = l.
Proof. unfold respond. destruct (m w d) as [[[a|e] u] v]; by intros [= <- <- <- <-]. Qed.

Lemma cursor_with_reads parse params : reads_only (cursor_with parse params).
Proof. unfold cursor_with. solve_keeps. Qed.

Lemma timeline_limit_range l : 1 <= timeline_limit l <= 40.
Proof. unfold timeline_limit, Pagination.clamp_limit. lia. Qed.

Lemma models_run {A} (model : A -> Op Db (option StatusResponse)) items w d rs w' d' :
  (forall x, reads_only (model x)) -> models_of model items w d = (Ok rs, w', d') ->
  d' = d /\ (length rs <= length items)%nat /\
  forall r, r ∈ rs -> exists x w1 w2, x ∈ items /\ model x w1 d = (Ok (Some r), w2, d).
Proof.
  intros Hm H. unfold models_of in H. inv_bind H os w1 d1 H1. injection H as <- _ <-.
  apply collect_run in H1 as (-> & Hlen & Hin); [|done]. split; [done|]. split.
  - rewrite <- Hlen. clear. induction os as [|[r|] os IH]; csimpl; lia.
  - intros r (o & Ho & Hr)%list_elem_of_omap. unfold id in Hr. subst o. apply Hin in Ho as (x & u & v & Hx & Hrun). eauto.
Qed.

(** The runs that a home timeline is made of. *)
Lemma home_timeline_run host_domain parse_uuid uuid_text me params w d items links w' d' :
  home_timeline host_domain parse_uuid uuid_text me params w d = (Ok (Page items links), w', d') ->
  exists hidden_local hidden_remote c w1,
    (forall a, Relations.local_blocks (relations_of d) !! (account_uuid me, a) <> None
               \/ Relations.local_blocks (relations_of d) !! (a, account_uuid me) <> None -> a ∈ hidden_local) /\
    (forall a, Relations.local_remote_blocks (relations_of d) !! (account_uuid me, a) <> None -> a ∈ hidden_remote) /\
    home_timeline_models host_domain me
      (Pagination.items (home_page d (account_uuid me) hidden_local hidden_remote (timeline_limit (limit params)) c))
      w1 d = (Ok items, w', d').
Proof.
  intros H. unfold home_timeline in H. inv_bind H q w1 d1 H1.
  unfold timeline_query in H1. inv_bind H1 c w2 d2 H2.
  assert (d2 = d) as -> by exact (keeps_run _ _ _ _ _ _ _ (cursor_with_reads _ params) H2).
  injection H1 as <- _ <-. inv_bind H page w3 d3 H3. apply api_ok in H3.
  unfold home_timeline_for_account in H3. inv_bind H3 hl w4 d4 H4.
  apply relations_zoom_run in H4 as [-> H4]; [|apply reads_hidden_local].
  inv_bind H3 hr w5 d5 H5. apply relations_zoom_run in H5 as [-> H5]; [|apply reads_hidden_remote].
  injection H3 as <- _ <-. unfold home_timeline_response in H. apply respond_page in H as [H _].
  exists hl, hr, c, w3. split_and!; [by eapply hidden_local_sub|by eapply hidden_remote_sub|exact H].
Qed.


(** * Boosts by accounts that are muted *)

Lemma feed_reblog d me hidden_local hidden_remote i b s :
  Reblog i b s ∈ home_feed d me hidden_local hidden_remote -> b ∉ hidden_local.
Proof.
  unfold home_feed, home_parts. cbn [concat]. rewrite app_nil_r, !elem_of_app, !list_elem_of_fmap, list_elem_of_omap.
  intros [(r & [=] & _)|[(r & Heq & Hr)|[(r & [=] & _)|[(r & [=] & _)|(r & _ & Hr)]]]].
  - destruct r as [j [b' s']]. injection Heq as -> -> ->. unfold local_reblog_rows in Hr.
    apply list_elem_of_fmap in Hr as ([[x y] row] & Heq & Hr). injection Heq as -> -> ->.
    apply list_elem_of_In, List.filter_In in Hr as [_ Hr]. cbn in Hr. unfold home_reblogger, listed in Hr.
    rewrite andb_true_iff, negb_true_iff in Hr. by destruct Hr as [_ ?%bool_decide_eq_false].
  - unfold remote_reblog_item in Hr. by destruct (Interactions.reblog_target r.2).
Qed.

(** Muting (or blocking) a followed account takes its statuses and its boosts of
    local statuses off the home timeline, but not its boosts of remote statuses: that
    query alone has no condition on hidden accounts. *)
Theorem muted_boosts_of_remote_statuses_remain (d : Db) (me b : uuid) (hidden_local hidden_remote : list uuid)
    (i : uuid) (row : Interactions.OutgoingRow) :
  b ∈ hidden_local -> b ∈ reblog_followed_ids d me ->
  Interactions.outgoing_reblogs (interactions_of d) !! i = Some row -> Interactions.out_account row = b ->
  (forall j s, Status j s ∈ home_feed d me hidden_local hidden_remote -> Statuses.ls_account s <> b) /\
  (forall j s, Reblog j b s ∉ home_feed d me hidden_local hidden_remote) /\
  LocalRemoteReblog i b (Interactions.out_status row) ∈ home_feed d me hidden_local hidden_remote.
Proof.
  intros Hb Hf Hrow Hacc. split; [|split].
  - intros j s [_ Hs]%feed_status <-. unfold home_status, listed in Hs.
    rewrite !andb_true_iff, !negb_true_iff in Hs. destruct Hs as [[_ Hs%bool_decide_eq_false] _]. done.
  - intros j s Hin. by apply feed_reblog in Hin.
  - unfold home_feed, home_parts. cbn [concat]. rewrite !elem_of_app. right; right; right; left.
    apply list_elem_of_fmap. exists (i, row). split; [unfold local_remote_reblog_item; cbn; by rewrite Hacc|].
    apply elem_of_select. split; [done|]. rewrite Hacc. unfold listed. apply bool_decide_eq_true. by right.
Qed.

(** * Lists after a rejection *)

(** What a home timeline model makes of a remote status: it looks at the author only. *)
Definition shows_author (host_domain : text -> option text) (d : Db) (author : uuid) : Prop :=
  exists actor policy, Relations.remote_actors (relations_of d) !! author = Some actor /\
    Relations.actor_suspended_at actor = None /\
    Threads.domain_policy host_domain (threads_db d) (Relations.actor_domain actor) = Ok policy /\
    DomainPolicy.is_suspended policy = false.

Lemma available_run host_domain d s w :
  shows_author host_domain d (Statuses.rs_actor s) -> remote_status_available host_domain s w d = (Ok true, w, d).
Proof.
  intros (actor & policy & Ha & Hsus & Hp & His).
  unfold remote_status_available, domain_is_suspended, mbind, M_bind, gets, mret, M_ret.
  cbn -[relations_of]. rewrite Ha, Hsus. cbn -[threads_db]. rewrite Hp. cbn. by rewrite His.
Qed.

Lemma remote_status_shown host_domain d me i s :
  shows_author host_domain d (Statuses.rs_actor s) ->
  forall w, home_timeline_model host_domain me (RemoteStatus i s) w d
    = (Ok (Some (mkResponse i (Threads.RemoteItem i s) None)), w, d).
Proof.
  intros Hs w. cbn [home_timeline_model]. unfold mbind at 1, M_bind at 1. rewrite (available_run host_domain d s w Hs).
  destruct Hs as (actor & policy & Ha & _). unfold remote_status_response_for_viewer, mbind, M_bind, gets, mret, M_ret.
  cbn -[relations_of]. by rewrite Ha.
Qed.

(** The page of a list that one request reads. *)
Definition list_feed (d : Db) (me : uuid) (row : Relations.ListRow) (list_id : uuid)
    (hidden_local hidden_remote : list uuid) : list HomeTimelineItem :=
  (status_item <$> select (list_status d me row list_id hidden_local) (Statuses.local_statuses (statuses_of d)))
  ++ (remote_status_item <$>
        select (list_remote_status d me row list_id hidden_remote) (Statuses.remote_statuses (statuses_of d))).

(** After a remote actor took back its acceptance of a follow, the lists it is in
    still show the private statuses it wrote for its followers: the rejection deletes
    the follow but leaves the membership, and the timeline of a list trusts the
    membership.  Everywhere else the same status is hidden. *)
Theorem list_shows_private_statuses_after_rejection host_domain (me actor : AccountId) (activity : string)
    (w w' : World) (d d' : Db) (b : bool) (list_id i member : uuid) (row : Relations.ListRow)
    (s : Statuses.RemoteStatus) (f : Relations.FollowingRow) (hidden_local hidden_remote : list uuid) :
  Relations.list_remote_members (relations_of d) !! (list_id, account_uuid actor) = Some member ->
  Relations.remote_followings (relations_of d) !! (account_uuid me, account_uuid actor) = Some f ->
  Relations.following_of_activity actor activity f = true ->
  Statuses.remote_statuses (statuses_of d) !! i = Some s -> Statuses.rs_actor s = account_uuid actor ->
  Statuses.rs_visibility s = Statuses.Private -> Statuses.rs_deleted_at s = None ->
  Statuses.rs_in_reply_to s = None -> (i, account_uuid me) ∉ remote_recipients d ->
  account_uuid actor ∉ hidden_remote -> shows_author host_domain d (account_uuid actor) ->
  Timelines.on_relations (Relations.reject_remote_following actor activity) w d = (Ok b, w', d') ->
  Threads.remote_status_visible_to_account (threads_db d') i s me = false /\
  RemoteStatus i s ∈ list_feed d' (account_uuid me) row list_id hidden_local hidden_remote /\
  forall now, home_timeline_model host_domain me (RemoteStatus i s) now d'
    = (Ok (Some (mkResponse i (Threads.RemoteItem i s) None)), now, d').
Proof.
  intros Hm Hf Ha Hs Hauthor Hpriv Hlive Hroot Hrec Hhid Hshow H.
  assert (Hd : statuses_of d' = Statuses.mkDb (Statuses.local_statuses (statuses_of d))
     (Statuses.remote_statuses (statuses_of d)) (Statuses.local_mentions (statuses_of d))
     (Statuses.remote_mentions (statuses_of d))
     (Relations.set_remote_followings (relations_of d)
        (delete_where (Relations.following_of_activity actor activity) (Relations.remote_followings (relations_of d))))
     /\ remote_recipients d' = remote_recipients d /\ domain_blocks d' = domain_blocks d).
  { unfold Timelines.on_relations, on_interactions, Interactions.on_relations, NotificationRequests.on_relations, zoom,
      Relations.reject_remote_following in H. cbn in H. by injection H as <- <- <-. }
  destruct Hd as (Hd & Hr & Hblocks).
  assert (Hrel : relations_of d' = Relations.set_remote_followings (relations_of d)
        (delete_where (Relations.following_of_activity actor activity) (Relations.remote_followings (relations_of d))))
    by (unfold relations_of; by rewrite Hd).
  split; [|split].
  - unfold Threads.remote_status_visible_to_account. case_bool_decide; [done|]. rewrite Hpriv. cbn [Threads.is_public].
    change (Threads.remote_recipients (threads_db d')) with (remote_recipients d'). rewrite Hr.
    rewrite (bool_decide_false ((i, _) ∈ _)) by done. rewrite orb_false_r, Hauthor.
    change (Threads.relations_db (threads_db d')) with (relations_of d'). rewrite Hrel. cbn [Relations.set_remote_followings Relations.remote_followings].
    by rewrite lookup_delete_where, Hf, Ha.
  - unfold list_feed. apply elem_of_app. right. apply list_elem_of_fmap. exists (i, s). split; [done|].
    apply elem_of_select. rewrite Hd. split; [done|]. unfold list_remote_status, visible_remote_member, listed, shared_visibility.
    rewrite Hauthor, Hpriv, Hlive, Hroot, (bool_decide_false (_ ∈ hidden_remote)) by done.
    rewrite (bool_decide_true (account_uuid actor ∈ _)).
    + cbn. by rewrite bool_decide_true by set_solver.
    + unfold remote_member_ids, members_of_lists. apply list_elem_of_fmap. exists ((list_id, account_uuid actor), member).
      split; [done|]. apply list_elem_of_In, List.filter_In. split.
      * apply list_elem_of_In, elem_of_map_to_list. by rewrite Hrel.
      * unfold listed. cbn. by rewrite bool_decide_true by set_solver.
  - apply remote_status_shown. rewrite Hauthor. destruct Hshow as (a & p & H1 & H2 & H3 & H4). exists a, p.
    rewrite Hrel. split; [done|]. split; [done|]. split; [|done]. rewrite <- H3. unfold Threads.domain_policy.
    destruct (DomainPolicy.federation_domain_suffixes _ _); [|done]. cbn. unfold DomainPolicy.combined_policy. cbn.
    by rewrite Hblocks.
Qed.

(** * Public timelines and the rules for domains *)

Section PublicRules.
Context (host_domain : text -> option text) (allowed : list text).

(** The domain rules of the store, as the public timeline gets them. *)
Definition hidden_domains (d : Db) : list text :=
  DomainPolicy.block_domain <$>
    rows_where (fun r => bool_decide (DomainPolicy.block_severity r ∈ [DomainPolicy.Silence; DomainPolicy.Suspend]))
      (domain_blocks d).

(** Stored rules, none with a character that LIKE interprets. *)
Definition plain_rules (d : Db) : Prop :=
  DomainPolicyInvariant.rules_ok (Threads.policy_db (threads_db d)) /\
  forall i r, domain_blocks d !! i = Some r -> DomainPolicyInvariant.plain (DomainPolicy.block_domain r).

Lemma not_hidden_domain d domain :
  plain_rules d ->
  forallb (fun b => negb (DomainPolicy.selected_by_rule b domain)) (hidden_domains d) = true <->
  forall r, DomainPolicyInvariant.covers (Threads.policy_db (threads_db d)) domain r ->
    DomainPolicy.block_severity r = DomainPolicy.Noop.
Proof using Type.
  intros [_ Hplain]. rewrite List.forallb_forall. unfold hidden_domains, DomainPolicyInvariant.covers.
  change (DomainPolicy.domain_blocks (Threads.policy_db (threads_db d))) with (domain_blocks d). split.
  - intros H r [[i Hi] Hc]. destruct (DomainPolicy.block_severity r) eqn:Hsev; [done| |];
      (assert (Hin : List.In (DomainPolicy.block_domain r) (DomainPolicy.block_domain <$>
         rows_where (fun r => bool_decide (DomainPolicy.block_severity r ∈ [DomainPolicy.Silence; DomainPolicy.Suspend]))
           (domain_blocks d))); [|apply H in Hin; rewrite DomainPolicyInvariant.selected_plain, Hc in Hin; [done|by eapply Hplain]]);
      apply list_elem_of_In, list_elem_of_fmap_2, elem_of_rows_where;
      (split; [by exists i|]); rewrite Hsev; by apply bool_decide_eq_true; clear; set_solver.
  - intros H b Hb. apply list_elem_of_In, list_elem_of_fmap in Hb as (r & -> & Hr).
    apply elem_of_rows_where in Hr as [[i Hi] Hsev]. apply negb_true_iff.
    rewrite DomainPolicyInvariant.selected_plain by (by eapply Hplain).
    destruct (Relations.domain_covers (DomainPolicy.block_domain r) domain) eqn:Hc; [|done].
    rewrite (H r) in Hsev by eauto. apply bool_decide_eq_true in Hsev. clear -Hsev. set_solver.
Qed.

(** The policy of a domain that is stored in its normal form. *)
Lemma policy_is_noop d domain :
  plain_rules d -> DomainPolicy.normalize_federation_domain host_domain domain = Ok domain ->
  exists p, Threads.domain_policy host_domain (threads_db d) domain = Ok p /\
    (DomainPolicy.severity p = DomainPolicy.Noop <->
     forall r, DomainPolicyInvariant.covers (Threads.policy_db (threads_db d)) domain r ->
       DomainPolicy.block_severity r = DomainPolicy.Noop).
Proof using Type.
  intros [Hok _] Hn. unfold Threads.domain_policy, DomainPolicy.federation_domain_suffixes. rewrite Hn.
  eexists. split; [reflexivity|]. unfold DomainPolicy.combined_policy.
  destruct (DomainPolicyInvariant.fold_rules (rows_where (fun r => bool_decide
    (DomainPolicy.block_domain r ∈ DomainPolicy.label_suffixes (split_on 46 domain)))
      (DomainPolicy.domain_blocks (Threads.policy_db (threads_db d)))) DomainPolicy.default_policy) as (_ & Hall & Hex & _).
  set (p := foldl _ _ _) in *. clearbody p. rewrite Forall_forall in Hall.
  setoid_rewrite (DomainPolicyInvariant.elem_of_applied host_domain _ domain) in Hex; [|done].
  assert (Hall' : forall r, DomainPolicyInvariant.covers (Threads.policy_db (threads_db d)) domain r ->
    DomainPolicy.rank (DomainPolicy.block_severity r) <= DomainPolicy.rank (DomainPolicy.severity p)).
  { intros r Hr. apply Hall. by apply (DomainPolicyInvariant.elem_of_applied host_domain). }
  clear Hall. split.
  - intros Hp r Hr. specialize (Hall' r Hr). rewrite Hp in Hall'. by destruct (DomainPolicy.block_severity r).
  - intros H. destruct Hex as [->|(r & Hr & <-)]; [done|by apply H].
Qed.

(** C39. When the stored rules are as the server stores them, with one rule per normalised
    domain, and none contains a character that LIKE treats as a wildcard ([plain_rules]), the condition that the public and the hashtag timelines put on remote
    authors in SQL, with LIKE patterns over every silencing or suspending rule, admits,
    of the actors whose stored domain is normalised, exactly those whose domain has
    neither of the two by the policy that the rest of the server computes from the
    suffixes of the name, besides being allowed and not being deleted, limited or
    suspended. *)
Theorem public_timeline_follows_the_domain_policy (d : Db) (viewer : option AccountId)
    (params : PublicTimelineParams) (author : uuid) (actor : Relations.RemoteActorRow) :
  plain_rules d -> Relations.remote_actors (relations_of d) !! author = Some actor ->
  DomainPolicy.normalize_federation_domain host_domain (Relations.actor_domain actor) = Ok (Relations.actor_domain actor) ->
  exists p, Threads.domain_policy host_domain (threads_db d) (Relations.actor_domain actor) = Ok p /\
    (allowed_actor d (options_of allowed viewer params (hidden_domains d)) author = true <->
     DomainPolicy.severity p = DomainPolicy.Noop /\
     (lit "*" ∈ allowed \/ Relations.actor_domain actor ∈ allowed) /\
     Relations.actor_deleted_at actor = None /\ Relations.actor_limited_at actor = None /\
     Relations.actor_suspended_at actor = None).
Proof using Type.
  intros Hplain Ha Hn. destruct (policy_is_noop d _ Hplain Hn) as (p & Hp & Hnoop). exists p. split; [done|].
  rewrite Hnoop, <- (not_hidden_domain d _ Hplain). unfold allowed_actor. rewrite Ha.
  rewrite !andb_true_iff, orb_true_iff, !bool_decide_eq_true. cbn [options_of blocked_remote_domains allowed_remote_domains].
  tauto.
Qed.
End PublicRules.

(** * Profiles *)

Lemma follows_author_lookup d who v author :
  who = Some v ->
  follows_author d who author
  = bool_decide (is_Some (Relations.local_follows (relations_of d) !! (account_uuid v, author))).
Proof.
  intros ->. unfold follows_author, listed. apply bool_decide_ext. split; [apply followed_has_row|].
  intros [row Hrow]. apply list_elem_of_fmap. exists (author, row). split; [done|]. unfold follows.
  apply list_elem_of_fmap. exists ((account_uuid v, author), row). split; [done|].
  apply list_elem_of_In, List.filter_In. split; [by apply list_elem_of_In, elem_of_map_to_list|]. cbn.
  by rewrite N.eqb_refl.
Qed.

Lemma remote_followed_lookup d me actor :
  RelationsInvariant.followings_keyed (Relations.remote_followings (relations_of d)) ->
  remote_followed d me false actor
  = match Relations.remote_followings (relations_of d) !! (me, actor) with
    | Some f => bool_decide (Relations.fg_state f = Relations.Accepted)
                && bool_decide (Relations.fg_deactivated_at f = None)
    | None => false
    end.
Proof.
  intros Hk. destruct (remote_followed d me false actor) eqn:Hf.
  - apply (remote_followed_row d (mkAccountId me) Hk) in Hf as (f & Hrow & Hs & Hd). cbn [account_uuid] in Hrow.
    rewrite Hrow, Hs. by rewrite (bool_decide_true (Relations.fg_deactivated_at f = None)).
  - destruct (Relations.remote_followings (relations_of d) !! (me, actor)) as [f|] eqn:Hrow; [|done].
    symmetry. apply not_true_is_false. intros Ht. apply not_true_iff_false in Hf. apply Hf.
    unfold remote_followed. apply existsb_exists. exists f.
    split; [apply list_elem_of_In, elem_of_rows; by eexists|].
    pose proof (Hk _ _ Hrow) as [= -> ->]. apply andb_true_iff in Ht as [Ht1 Ht2].
    by rewrite !N.eqb_refl, Ht1, Ht2.
Qed.

(** The conditions that the timeline of a profile puts on visibility in SQL (for the
    owner, for followers, for accounts that a status addresses, for everybody else and
    for anonymous viewers) are those of the visibility checks that the responses make
    status by status, as long as nobody blocks anybody: nothing readable is missing from
    a profile, and no entry of a page is dropped when it is shown.  Only the direct
    messages of remote accounts are never on their profiles. *)
Theorem profile_queries_are_the_visibility_checks (d : Db) (who : option AccountId) :
  RelationsInvariant.followings_keyed (Relations.remote_followings (relations_of d)) ->
  (forall i s,
     (forall v, who = Some v -> Relations.local_pair_blocked v (mkAccountId (Statuses.ls_account s)) (relations_of d) = false) ->
     profile_visible d (Statuses.ls_account s) who i s
     = Threads.status_visible_to_viewer (threads_db d) i s who) /\
  (forall i s,
     (forall v, who = Some v ->
        Relations.local_remote_blocks (relations_of d) !! (account_uuid v, Statuses.rs_actor s) = None) ->
     profile_remote_visible d who i s
     = negb (bool_decide (Statuses.rs_visibility s = Statuses.Direct)) &&
       match who with
       | Some v => Threads.remote_status_visible_to_account (threads_db d) i s v
       | None => Threads.is_public (Statuses.rs_visibility s)
       end).
Proof.
  intros Hk. split; intros i s Hb; destruct who as [v|].
  - unfold Threads.status_visible_to_viewer, Threads.can_view_status, Threads.local_status_visible_to_account,
      profile_visible. change (Threads.relations_db (threads_db d)) with (relations_of d).
    change (Threads.local_recipients (threads_db d)) with (local_recipients d).
    rewrite (Hb v eq_refl), andb_false_r, (follows_author_lookup d (Some v) v) by done. cbn [is_recipient].
    rewrite (bool_decide_ext (Statuses.ls_account s = account_uuid v) (account_uuid v = Statuses.ls_account s)) by done.
    destruct (bool_decide (account_uuid v = _)), (Statuses.ls_visibility s), (bool_decide (is_Some _)),
      (bool_decide ((i, _) ∈ _)); done.
  - unfold profile_visible, Threads.status_visible_to_viewer, Threads.can_view_status, is_recipient, follows_author.
    by destruct (Statuses.ls_visibility s).
  - unfold Threads.remote_status_visible_to_account, profile_remote_visible.
    change (Threads.relations_db (threads_db d)) with (relations_of d).
    change (Threads.remote_recipients (threads_db d)) with (remote_recipients d).
    rewrite (Hb v eq_refl), (bool_decide_false (is_Some None)) by (by intros []).
    rewrite (remote_followed_lookup d _ _ Hk). cbn [is_recipient].
    destruct (Statuses.rs_visibility s); [done|done| |done].
    change (bool_decide (Statuses.Private = Statuses.Private)) with true.
    change (bool_decide (Statuses.Private = Statuses.Direct)) with false. cbn.
    by rewrite orb_comm.
  - unfold profile_remote_visible, is_recipient. by destruct (Statuses.rs_visibility s).
Qed.

(** * Witnesses

    Account 3 follows account 2, account 1 follows both account 2 and actor 50, which
    is in list 7 of account 1.  Status 20 is a message from actor 50 to account 2,
    status 21 is for the followers of actor 50, status 22 is public and boosted by
    account 2.  Status 11 is a message from account 1 to account 2. *)
Definition sample_account : Relations.AccountRow := Relations.mkAccountRow true None None 0.
Definition sample_actor : Relations.RemoteActorRow :=
  Relations.mkRemoteActorRow (lit "b.example") None None None None None 0.
Definition sample_follow : Relations.FollowRow := Relations.mkFollowRow 5 true false 0 0.
Definition sample_following : Relations.FollowingRow :=
  Relations.mkFollowingRow 60 1 50 "follow-50" Relations.Accepted true false None 0.
Definition sample_list : Relations.ListRow := Relations.mkListRow 7 1 "friends" Relations.PolicyList false 0 0.

Definition sample_relations : Relations.Db :=
  Relations.mkDb {[1%N := sample_account; 2%N := sample_account; 3%N := sample_account]}
    {[(3%N, 2%N) := sample_follow; (1%N, 2%N) := sample_follow]} ∅ ∅ {[50%N := sample_actor]} ∅ ∅ ∅ ∅
    {[(1%N, 50%N) := sample_following]} {[7%N := sample_list]} ∅ {[(7%N, 50%N) := 61%N]}
    (Notifications.mkDb ∅ ∅ ∅ ∅).

Definition sample_local (author : uuid) (v : Statuses.StatusVisibility) : Statuses.LocalStatus :=
  Statuses.mkLocalStatus author v false "" None None 0 None.
Definition sample_remote (v : Statuses.StatusVisibility) : Statuses.RemoteStatus :=
  Statuses.mkRemoteStatus 50 v false "" None None None 0 None.

Definition sample_statuses : Statuses.Db :=
  Statuses.mkDb
    {[10%N := sample_local 1 Statuses.Public; 11%N := sample_local 1 Statuses.Direct;
      12%N := sample_local 2 Statuses.Private]}
    {[20%N := sample_remote Statuses.Direct; 21%N := sample_remote Statuses.Private;
      22%N := sample_remote Statuses.Public]} ∅ ∅ sample_relations.

Definition sample_boost : Interactions.OutgoingRow := Interactions.mkOutgoing 70 2 22 "announce-70" 0.

Definition sample_interactions : Interactions.Db :=
  Interactions.mkDb ∅ ∅ ∅ ∅ ∅ {[70%N := sample_boost]} ∅ ∅ ∅ (NotificationRequests.mkDb ∅ ∅ ∅ sample_statuses).

Definition sample_rule : DomainPolicy.FederationDomainBlock :=
  DomainPolicy.mkBlock 90 (lit "c.example") DomainPolicy.Silence false false None None false 0 0.

Definition sample_timelines : Db :=
  mkDb (Inbox.mkDb sample_interactions ∅ (fun _ => "alice"%string) (fun _ => false) (fun _ => "url"%string) ∅)
    {[90%N := sample_rule]} ∅ {[(11%N, 2%N)]} {[(20%N, 2%N)]} ∅ ∅ ∅ ∅ ∅ ∅.

Definition no_params : TimelineParams := mkTimelineParams None None None None.

Lemma sample_keyed :
  RelationsInvariant.followings_keyed (Relations.remote_followings (relations_of sample_timelines)).
Proof. intros k f Hk. revert k f Hk. apply map_Forall_to_list. repeat constructor. Qed.

Lemma home_timeline_walk_reads_the_feed_witness :
  Pagination.walk (home_page sample_timelines 1 [] [] (timeline_limit (Some 1))) 9 Pagination.no_cursor
  = (Pagination.newest_first timeline_item_id (home_feed sample_timelines 1 [] []), true) /\
  timeline_item_id <$> (Pagination.newest_first timeline_item_id (home_feed sample_timelines 1 [] []))
  = [70; 22; 21; 12; 11; 10]%N.
Proof.
  split; [|vm_compute; reflexivity].
  apply (home_timeline_walk_reads_the_feed sample_timelines 1 [] [] (mkTimelineParams (Some 1) None None None)).
  - intros i r Hr. change ((∅ : gmap uuid Interactions.RemoteReblogRow) !! i = Some r) in Hr.
    by rewrite lookup_empty in Hr.
  - assert (H : timeline_item_id <$> home_feed sample_timelines 1 [] [] ≡ₚ [70; 22; 21; 12; 11; 10]%N).
    { rewrite <- (order_by_Permutation (fun a b => (b <=? a)%N)). vm_compute. reflexivity. }
    rewrite H. repeat constructor; set_solver.
  - vm_compute. lia.
Defined.


Lemma muted_boosts_of_remote_statuses_remain_witness :
  LocalRemoteReblog 70 2 22 ∈ home_feed sample_timelines 1 [2%N] [].
Proof.
  refine (proj2 (proj2 (muted_boosts_of_remote_statuses_remain sample_timelines 1 2 [2%N] [] 70 sample_boost
    _ _ eq_refl eq_refl))).
  - left.
  - vm_compute. left.
Defined.

Lemma sample_shows_author : shows_author Some sample_timelines 50.
Proof.
  exists sample_actor. eexists. split; [vm_compute; reflexivity|]. split; [done|]. split; [vm_compute; reflexivity|done].
Qed.

Lemma list_shows_private_statuses_after_rejection_witness :
  let rejected := Timelines.on_relations (Relations.reject_remote_following (mkAccountId 50) "follow-50") in
  Threads.remote_status_visible_to_account (threads_db (store_of rejected sample_world sample_timelines)) 21
    (sample_remote Statuses.Private) (mkAccountId 1) = false.
Proof.
  intros rejected. destruct (run_ok rejected sample_world sample_timelines) as (b & _ & Hrun); [vm_compute; reflexivity|].
  refine (proj1 (list_shows_private_statuses_after_rejection Some (mkAccountId 1) (mkAccountId 50) "follow-50"
    sample_world _ sample_timelines _ b 7 21 61 sample_list (sample_remote Statuses.Private) sample_following [] []
    eq_refl eq_refl eq_refl eq_refl eq_refl eq_refl eq_refl eq_refl _ _ sample_shows_author Hrun)).
  - vm_compute. set_solver.
  - set_solver.
Defined.

Lemma sample_plain_rules : plain_rules sample_timelines.
Proof.
  assert (Hone : forall i r, domain_blocks sample_timelines !! i = Some r -> i = 90%N /\ r = sample_rule).
  { intros i r Hi. change (({[90%N := sample_rule]} : gmap uuid DomainPolicy.FederationDomainBlock) !! i = Some r) in Hi.
    by apply lookup_singleton_Some in Hi as [<- <-]. }
  split; [split|].
  - by intros i r [-> ->]%Hone.
  - intros i r [-> ->]%Hone. vm_compute. set_solver.
  - by intros i j r r' [-> ->]%Hone [-> ->]%Hone.
  - intros i r [-> ->]%Hone. vm_compute. repeat constructor; discriminate.
Qed.

Lemma public_timeline_follows_the_domain_policy_witness :
  allowed_actor sample_timelines
    (options_of [lit "*"] None (mkPublicParams no_params None None None) (hidden_domains sample_timelines)) 50 = true.
Proof.
  destruct (public_timeline_follows_the_domain_policy Some [lit "*"] sample_timelines None
    (mkPublicParams no_params None None None) 50 sample_actor sample_plain_rules eq_refl) as (p & Hp & Hiff).
  - vm_compute. reflexivity.
  - apply Hiff. split_and!; [|left; left|done|done|done].
    vm_compute in Hp. by injection Hp as <-.
Defined.

Lemma profile_queries_are_the_visibility_checks_witness :
  profile_visible sample_timelines 2 (Some (mkAccountId 1)) 12 (sample_local 2 Statuses.Private)
  = Threads.status_visible_to_viewer (threads_db sample_timelines) 12 (sample_local 2 Statuses.Private)
      (Some (mkAccountId 1)).
Proof.
  refine (proj1 (profile_queries_are_the_visibility_checks sample_timelines (Some (mkAccountId 1)) sample_keyed)
    12%N (sample_local 2 Statuses.Private) _). intros v Hv. injection Hv as <-. vm_compute. reflexivity.
Defined.
