(* ===== verification/StatusActionsInvariant.v ===== *)
(** What boosting a direct message does: the entry is streamed to the booster's
    followers, and a remote message stays on their home timelines; and what the
    action refuses. *)
From S2P Require Import Prelude Core Text.
From S2P Require Jobs Notifications Relations RelationsInvariant Statuses NotificationRequests Interactions DomainPolicy Threads Pagination Inbox Timelines TimelinesInvariant.
From S2P Require Import StatusActions.

#[local] Existing Instances Statuses.StatusVisibility_eq_dec Relations.RemoteFollowState_eq_dec
  Inbox.interactions_part Interactions.requests_part Timelines.inbox_part Statuses.relations_part
  NotificationRequests.statuses_part.

(** * What a boost leaves alone *)

(** The tables of relationships and of statuses that decide who sees what. *)
Definition ties (r : Relations.Db) :=
  (Relations.local_accounts r, Relations.local_follows r, Relations.local_blocks r, Relations.local_mutes r,
   (Relations.remote_actors r, Relations.local_remote_blocks r, Relations.remote_mutes r,
    Relations.remote_followings r), (Relations.lists r, Relations.list_local_members r)).

Definition posts (s : Statuses.Db) :=
  (Statuses.local_statuses s, Statuses.remote_statuses s, ties (Statuses.relations s)).

Definition audience (d : Db) :=
  (posts (Timelines.statuses_of d), Timelines.local_recipients d, Timelines.remote_recipients d,
   Timelines.domain_blocks d).

Abbreviation posts_i := (fun i => posts (Interactions.statuses_of i)).

Lemma keeps_audience {A} (m : Op Interactions.Db A) :
  keeps posts_i m -> keeps audience (Timelines.on_interactions m).
Proof.
  intros Hm. unfold Timelines.on_interactions.
  apply (keeps_zoom_part audience (fun i => posts (Inbox.statuses_of i))).
  - intros s t Heq. unfold audience. f_equal. f_equal. f_equal. exact Heq.
  - apply (keeps_zoom_part _ posts_i); [|done]. intros s t Heq. exact Heq.
Qed.

Lemma keeps_posts_enqueue job : keeps posts_i (Interactions.enqueue job).
Proof.
  unfold Interactions.enqueue. apply keeps_bind; [|done].
  apply (keeps_zoom_part _ (fun q => posts (NotificationRequests.statuses q))); [intros s t Heq; exact Heq|].
  unfold NotificationRequests.on_jobs, NotificationRequests.on_notifications, NotificationRequests.on_relations.
  apply (keeps_zoom_part _ posts); [intros s t Heq; exact Heq|].
  apply (keeps_zoom_part _ ties); [intros s t Heq; unfold posts; cbn; by rewrite Heq|].
  by apply keeps_zoom.
Qed.

Lemma keeps_posts_adjust t a b : keeps posts_i (Interactions.adjust_status_trend t a b).
Proof. unfold Interactions.adjust_status_trend, Interactions.mark_trend_dirty. destruct t; solve_keeps. Qed.

Lemma keeps_posts_reblog account status activity :
  keeps posts_i (Interactions.reblog_remote_status account status activity).
Proof.
  unfold Interactions.reblog_remote_status, Interactions.find_remote_status_reblog, Interactions.new_outgoing,
    Interactions.insert_outgoing_reblog, Interactions.foreign_key.
  repeat first [apply keeps_posts_adjust | progress solve_keeps].
Qed.

Lemma keeps_reblogs_adjust t a b : keeps Interactions.outgoing_reblogs (Interactions.adjust_status_trend t a b).
Proof. unfold Interactions.adjust_status_trend, Interactions.mark_trend_dirty. destruct t; solve_keeps. Qed.

(** The boost that an account has of a status after it boosted. *)
Definition boost_row (account : AccountId) (status : uuid) (k : uuid) (row : Interactions.OutgoingRow)
    (d : Interactions.Db) : Prop :=
  Interactions.outgoing_reblogs d !! k = Some row /\
  Interactions.out_account row = account_uuid account /\ Interactions.out_status row = status.

Lemma reblog_row account status activity w d row w' d' :
  Interactions.reblog_remote_status account (mkStatusId status) activity w d = (Ok row, w', d') ->
  exists k, boost_row account status k row d'.
Proof.
  unfold Interactions.reblog_remote_status, Interactions.find_remote_status_reblog. intros H.
  inv_bind H found w1 d1 H1. injection H1 as <- _ <-.
  destruct (head _) as [o|] eqn:Hh.
  - injection H as <- _ <-. apply head_Some_elem_of, elem_of_rows_where in Hh as [[k Hk] Hp].
    unfold Interactions.outgoing_of in Hp. rewrite andb_true_iff, !N.eqb_eq in Hp. cbn in Hp. by exists k.
  - inv_bind H o w2 d2 H2. unfold Interactions.new_outgoing in H2. inv_bind H2 i w3 d3 H3. inv_bind H2 now w4 d4 H4.
    injection H3 as _ _ <-. injection H4 as _ _ <-. injection H2 as <- _ <-.
    inv_bind H u w5 d5 H5. injection H as <- _ <-. unfold Interactions.insert_outgoing_reblog in H5.
    inv_bind H5 d6 w6 d7 H6. injection H6 as <- _ <-. destruct (Interactions.outgoing_conflict _ _); [done|].
    inv_bind H5 v w7 d8 H7. unfold Interactions.foreign_key in H7. destruct (Interactions.has_remote_status _ _); [|done].
    injection H7 as _ _ <-. inv_bind H5 v' w8 d9 H8. injection H8 as _ _ <-.
    exists i. unfold boost_row. rewrite (keeps_run _ _ _ _ _ _ _ (keeps_reblogs_adjust _ _ _) H5). cbn.
    by rewrite lookup_insert_eq.
Qed.

Lemma reblog_job_row account status activity job w d row w' d' :
  Interactions.reblog_remote_status_with_job account (mkStatusId status) activity job w d = (Ok row, w', d') ->
  exists k, boost_row account status k row d'.
Proof.
  unfold Interactions.reblog_remote_status_with_job. intros H. inv_bind H o w1 d1 H1. inv_bind H u w2 d2 H2.
  injection H as <- _ <-. apply reblog_row in H1 as (k & Hk & Hrest). exists k. split; [|done].
  rewrite <- Hk. f_equal. unfold Interactions.enqueue in H2. inv_bind H2 b w3 d3 H3. injection H2 as _ _ <-.
  by eapply (keeps_run Interactions.outgoing_reblogs); [apply keeps_zoom|exact H3].
Qed.

(** Running an operation on the interactions. *)
Lemma on_interactions_run {A} (m : Op Interactions.Db A) w d r w' d' :
  Timelines.on_interactions m w d = (r, w', d') ->
  m w (Timelines.interactions_of d) = (r, w', Timelines.interactions_of d').
Proof.
  unfold Timelines.on_interactions, zoom. cbn.
  change (Inbox.interactions (Timelines.inbox d)) with (Timelines.interactions_of d).
  destruct (m w (Timelines.interactions_of d)) as [[r1 w1] t]. by intros [= <- <- <-].
Qed.

Section Actions.
Context (uuid_text : uuid -> string) (public_url : string -> string)
  (prove : JsonValue -> result JsonValue RoostyError).

Lemma reads_prepare kind fragment name a b account status s :
  TimelinesInvariant.reads_only (prepare_remote uuid_text public_url prove kind fragment name a b account status s).
Proof using Type. unfold prepare_remote, parties, activity_id, delivery_job. solve_keeps. Qed.

Lemma reblog_remote_run account status s w d row w' d' :
  reblog_remote_status uuid_text public_url prove account status s w d = (Ok row, w', d') ->
  audience d' = audience d /\ exists k, boost_row account status k row (Timelines.interactions_of d').
Proof using Type.
  intros H. unfold reblog_remote_status in H. inv_bind H already w1 d1 H1.
  assert (Hd1 : audience d1 = audience d).
  { eapply (keeps_run audience); [|exact H1]. by apply keeps_audience. }
  destruct already.
  - pose proof (keeps_run audience _ _ _ _ _ _ (keeps_audience _ (keeps_posts_reblog account (mkStatusId status) "")) H) as Hd2.
    split; [congruence|]. apply on_interactions_run in H. by apply reblog_row in H.
  - inv_bind H prepared w2 d2 H2.
    assert (d2 = d1) as -> by exact (keeps_run _ _ _ _ _ _ _ (reads_prepare _ _ _ _ _ _ _ _) H2).
    split; [|apply on_interactions_run in H; by apply reblog_job_row in H].
    rewrite <- Hd1. eapply (keeps_run audience); [|exact H]. apply keeps_audience.
    unfold Interactions.reblog_remote_status_with_job. apply keeps_bind; [apply keeps_posts_reblog|].
    intros o. apply keeps_bind; [apply keeps_posts_enqueue|done].
Qed.
End Actions.

(** * Who is told of a boost *)

(** An account that follows another with its boosts, and neither blocks nor mutes it. *)
Record hears (d : Db) (v author : uuid) : Prop := {
  hears_follow : exists row, Relations.local_follows (Timelines.relations_of d) !! (v, author) = Some row /\
    Relations.follow_show_reblogs row = true;
  hears_unblocked : Relations.local_blocks (Timelines.relations_of d) !! (v, author) = None /\
    Relations.local_blocks (Timelines.relations_of d) !! (author, v) = None;
  hears_unmuted : Relations.local_mutes (Timelines.relations_of d) !! (v, author) = None;
}.

Lemma hears_audience d d' v a : audience d' = audience d -> hears d v a -> hears d' v a.
Proof.
  intros Ha [H1 H2 H3].
  assert (Hr : ties (Timelines.relations_of d') = ties (Timelines.relations_of d))
    by exact (f_equal (fun x => x.1.1.1.2) Ha).
  unfold ties in Hr. injection Hr as _ Hf Hb Hm _ _ _ _ _ _. split; by rewrite ?Hf, ?Hb, ?Hm.
Qed.

Lemma no_mute v a w d :
  Relations.local_mutes d !! (account_uuid v, account_uuid a) = None ->
  value_of (Relations.active_local_account_mute v a) w d = Ok None.
Proof.
  intros Hm. change (Ok (Relations.find_active (account_uuid v, account_uuid a) (w_clock w (w_ticks w))
    (Relations.local_mutes d)) = (Ok None : result (option Relations.MuteRow) RoostyError)).
  unfold Relations.find_active. by rewrite Hm.
Qed.

Lemma reads_hidden_viewer v a :
  TimelinesInvariant.reads_only (Relations.local_account_is_hidden_for_viewer v a).
Proof.
  unfold Relations.local_account_is_hidden_for_viewer, Relations.local_accounts_are_blocked,
    Relations.active_local_account_mute. solve_keeps.
Qed.

Lemma hidden_for_viewer_run v a w d r w' d' :
  hears d v (account_uuid a) ->
  Timelines.on_relations (Relations.local_account_is_hidden_for_viewer (mkAccountId v) a) w d = (Ok r, w', d') ->
  r = false.
Proof.
  intros [_ [Hb1 Hb2] Hm] H. apply TimelinesInvariant.relations_zoom_run in H as [_ H];
    [|apply reads_hidden_viewer].
  unfold Relations.local_account_is_hidden_for_viewer in H. inv_bind H b w1 d1 H1.
  assert (b = false /\ d1 = Timelines.relations_of d) as [-> ->].
  { unfold Relations.local_accounts_are_blocked in H1. case_decide; [by injection H1 as <- _ <-|].
    injection H1 as <- _ <-. unfold Relations.local_pair_blocked. cbn [account_uuid].
    by rewrite Hb1, Hb2, !bool_decide_false by (by intros []). }
  inv_bind H m w2 d2 H2. injection H as <- _ _. pose proof (no_mute (mkAccountId v) a w1 _ Hm) as Hn.
  unfold value_of in Hn. rewrite H2 in Hn. by injection Hn as ->.
Qed.

Lemma reads_filter_stream author rs : TimelinesInvariant.reads_only (filter_stream_recipients author rs).
Proof.
  induction rs as [|r rs IH]; [done|]. cbn [filter_stream_recipients]. apply keeps_bind.
  - apply TimelinesInvariant.reads_on_relations, reads_hidden_viewer.
  - intros hidden. apply keeps_bind; [done|]. done.
Qed.

Lemma filter_stream_run author rs w d out w' d' :
  filter_stream_recipients author rs w d = (Ok out, w', d') ->
  forall v, v ∈ rs -> hears d v (account_uuid author) -> v ∈ out.
Proof.
  revert w out w' d'. induction rs as [|r rs IH]; intros w out w' d' H v Hv Hh; [by apply elem_of_nil in Hv|].
  cbn [filter_stream_recipients] in H. inv_bind H hidden w1 d1 H1. inv_bind H rest w2 d2 H2.
  injection H as <- _ _.
  assert (d1 = d) as -> by exact (proj1 (TimelinesInvariant.relations_zoom_run _ _ _ _ _ _
    (reads_hidden_viewer _ _) H1)).
  specialize (IH _ _ _ _ H2 v). apply elem_of_cons in Hv as [->|Hv].
  - rewrite (hidden_for_viewer_run _ _ _ _ _ _ _ Hh H1). left.
  - destruct hidden; [by apply IH|]. right. by apply IH.
Qed.

(** Everybody who hears the booster gets the event. *)
Lemma reblog_stream_run account w d out w' d' :
  reblog_stream_recipients account w d = (Ok out, w', d') ->
  d' = d /\ forall v, hears d v (account_uuid account) -> v ∈ out.
Proof.
  intros H. unfold reblog_stream_recipients in H. inv_bind H rs w1 d1 H1. injection H1 as <- _ <-.
  split; [exact (keeps_run _ _ _ _ _ _ _ (reads_filter_stream _ _) H)|]. intros v Hv.
  eapply filter_stream_run; [exact H| |exact Hv]. destruct (hears_follow _ _ _ Hv) as (row & Hrow & Hshow).
  unfold local_follower_ids_for_account. apply list_elem_of_fmap. exists ((v, account_uuid account), row).
  split; [done|]. apply list_elem_of_In, List.filter_In. split; [by apply list_elem_of_In, elem_of_map_to_list|].
  cbn. by rewrite N.eqb_refl, Hshow.
Qed.

Lemma keeps_posts_reblog_local account status :
  keeps posts_i (Interactions.reblog_local_status account status).
Proof.
  unfold Interactions.reblog_local_status, Interactions.foreign_key.
  repeat first [apply keeps_posts_adjust | progress solve_keeps].
Qed.

Lemma audience_find d d' i :
  audience d' = audience d ->
  Timelines.find_local d' i = Timelines.find_local d i /\ Timelines.find_remote d' i = Timelines.find_remote d i.
Proof.
  intros Ha. unfold Timelines.find_local, Timelines.find_remote.
  pose proof (f_equal (fun x => x.1.1.1.1.1) Ha) as Hl. pose proof (f_equal (fun x => x.1.1.1.1.2) Ha) as Hr.
  cbn in Hl, Hr. by rewrite Hl, Hr.
Qed.

(** * Boosting a direct message *)

Section Boost.
Context (uuid_text : uuid -> string) (public_url : string -> string)
  (prove : JsonValue -> result JsonValue RoostyError).

#[local] Abbreviation act := (status_collection_action uuid_text public_url prove).

Lemma lift_ok {E A} (e : E) (o : option A) (w : World) (d : Db) a w' d' :
  lift_option e o w d = (Ok a, w', d') -> o = Some a /\ d' = d.
Proof. destruct o; by intros [= -> -> ->]. Qed.

(** Nobody but the author and the recipients may see a direct status. *)
Lemma direct_hidden_local d i s v :
  Statuses.ls_visibility s = Statuses.Direct -> Statuses.ls_account s <> v ->
  (i, v) ∉ Timelines.local_recipients d ->
  Threads.status_visible_to_viewer (Timelines.threads_db d) i s (Some (mkAccountId v)) = false.
Proof.
  intros Hd Ha Hr. unfold Threads.status_visible_to_viewer, Threads.can_view_status,
    Threads.local_status_visible_to_account. cbn [account_uuid]. rewrite Hd. cbn [Threads.is_public orb].
  rewrite !(bool_decide_false (_ = _)) by congruence.
  change (Threads.local_recipients (Timelines.threads_db d)) with (Timelines.local_recipients d).
  rewrite (bool_decide_false (_ ∈ _)) by done. by destruct (_ && _).
Qed.

Lemma direct_hidden_remote d i s v :
  Statuses.rs_visibility s = Statuses.Direct -> (i, v) ∉ Timelines.remote_recipients d ->
  Threads.remote_status_visible_to_account (Timelines.threads_db d) i s (mkAccountId v) = false.
Proof.
  intros Hd Hr. unfold Threads.remote_status_visible_to_account. cbn [account_uuid].
  case_bool_decide; [done|]. rewrite Hd. cbn [Threads.is_public].
  change (Threads.remote_recipients (Timelines.threads_db d)) with (Timelines.remote_recipients d).
  by rewrite bool_decide_false.
Qed.

(** Boosting a local direct message one was addressed in publishes it, as it is
    shown to the booster, to every follower of the booster, though none of them may
    read it: only private statuses are refused. *)
Theorem boosted_direct_status_is_streamed (booster : AccountId) (status v : uuid) (s : Statuses.LocalStatus)
    (w w' : World) (d d' : Db) (o : StatusCollectionOutcome) :
  visible_status_for_account status booster d = Some s -> Statuses.ls_visibility s = Statuses.Direct ->
  act booster status Reblog w d = (Ok o, w', d') ->
  hears d v (account_uuid booster) -> Statuses.ls_account s <> v -> (status, v) ∉ Timelines.local_recipients d ->
  Threads.status_visible_to_viewer (Timelines.threads_db d) status s (Some (mkAccountId v)) = false /\
  exists recipients, stream_events o = [Update (response o) recipients] /\
    Timelines.shown (response o) = Threads.LocalItem status s /\ v ∈ recipients.
Proof.
  intros Hvis Hdirect H Hhears Hauthor Hrec. split; [by apply direct_hidden_local|].
  unfold status_collection_action in H. inv_bind H d0 w0 d1 H0. injection H0 as <- _ <-.
  rewrite Hvis, Hdirect in H. cbn [bool_decide andb] in H. unfold local_action in H.
  inv_bind H row w1 d1 H1. apply TimelinesInvariant.api_ok in H1.
  assert (Ha : audience d1 = audience d).
  { eapply (keeps_run audience); [|exact H1]. apply keeps_audience. cbn [change_local].
    apply keeps_bind; [apply keeps_posts_reblog_local|done]. }
  apply on_interactions_run in H1. cbn [change_local] in H1. inv_bind H1 r w2 i2 H2. injection H1 as <- _ _.
  inv_bind H made w3 d3 H3. apply TimelinesInvariant.api_ok in H3.
  inv_bind H shown w4 d4 H4. apply lift_ok in H4 as [-> ->].
  inv_bind H recipients w5 d5 H5. apply TimelinesInvariant.api_ok, reblog_stream_run in H5 as [-> Hout].
  injection H as <- _ _. exists recipients. split; [done|].
  assert (Hfind : Timelines.find_local d status = Some s).
  { unfold visible_status_for_account in Hvis. destruct (Timelines.find_local d status); [|done].
    by destruct (Threads.status_visible_to_viewer _ _ _ _); simplify_eq. }
  unfold Timelines.reblog_response in H3. inv_bind H3 d6 w6 d7 H6. injection H6 as <- _ <-.
  rewrite (proj1 (audience_find _ _ status Ha)), Hfind in H3. destruct (negb _); [done|].
  destruct (_ !! _); [|done]. inv_bind H3 original w7 d8 H7.
  apply TimelinesInvariant.status_with_author_ok in H7 as [-> ->]. injection H3 as <- <- <-. cbn. split; [done|].
  apply Hout. by apply (hears_audience d).
Qed.

(** A remote author whose statuses are shown to an account. *)
Record shows (host_domain : text -> option text) (d : Db) (v author : uuid) : Prop := {
  shows_actor : exists actor policy,
    Relations.remote_actors (Timelines.relations_of d) !! author = Some actor /\
    Relations.actor_suspended_at actor = None /\
    Threads.domain_policy host_domain (Timelines.threads_db d) (Relations.actor_domain actor) = Ok policy /\
    DomainPolicy.is_suspended policy = false;
  shows_unblocked : Relations.local_remote_blocks (Timelines.relations_of d) !! (v, author) = None;
  shows_unmuted : Relations.remote_mutes (Timelines.relations_of d) !! (v, author) = None;
}.

Lemma audience_ties d d' : audience d' = audience d -> ties (Timelines.relations_of d') = ties (Timelines.relations_of d).
Proof using Type. intros Ha. exact (f_equal (fun x => x.1.1.1.2) Ha). Qed.

Lemma shows_audience host_domain d d' v a : audience d' = audience d -> shows host_domain d v a -> shows host_domain d' v a.
Proof using Type.
  intros Ha [(actor & policy & H1 & H2 & H3 & H4) H5 H6]. pose proof (audience_ties _ _ Ha) as Hr.
  pose proof (f_equal (fun x => x.2) Ha) as Hb. cbn in Hb.
  unfold ties in Hr. injection Hr as _ _ _ _ Hactors Hblocks Hmutes _ _ _. split; [|by rewrite Hblocks|by rewrite Hmutes].
  exists actor, policy. rewrite Hactors. split; [done|]. split; [done|]. split; [|done]. rewrite <- H3.
  unfold Threads.domain_policy. destruct (DomainPolicy.federation_domain_suffixes _ _); [|done]. cbn.
  unfold DomainPolicy.combined_policy. cbn. by rewrite Hb.
Qed.

Lemma no_remote_mute v a w d :
  Relations.remote_mutes d !! (account_uuid v, account_uuid a) = None ->
  value_of (Relations.active_local_remote_account_mute v a) w d = Ok None.
Proof using Type.
  intros Hm. change (Ok (Relations.find_active (account_uuid v, account_uuid a) (w_clock w (w_ticks w))
    (Relations.remote_mutes d)) = (Ok None : result (option Relations.MuteRow) RoostyError)).
  unfold Relations.find_active. by rewrite Hm.
Qed.

(** The boost of a remote status by a local account is shown whoever may read it. *)
Lemma local_boost_is_shown host_domain d v i booster status s row :
  Timelines.find_remote d status = Some s ->
  Relations.local_accounts (Timelines.relations_of d) !! booster = Some row ->
  shows host_domain d v (Statuses.rs_actor s) ->
  forall w, exists w', Timelines.home_timeline_model host_domain (mkAccountId v)
      (Timelines.LocalRemoteReblog i booster status) w d
    = (Ok (Some (Timelines.mkResponse i (Threads.RemoteItem status s) (Some (Timelines.BoostedBy booster)))), w', d).
Proof using Type.
  intros Hs Hrow [(actor & policy & Ha & Hsus & Hp & His) Hb Hm] w.
  assert (Hav : Timelines.remote_status_available host_domain s w d = (Ok true, w, d)).
  { unfold Timelines.remote_status_available, Timelines.domain_is_suspended, mbind, M_bind, gets, mret, M_ret.
    cbn -[Timelines.relations_of]. rewrite Ha, Hsus. cbn -[Timelines.threads_db]. rewrite Hp. cbn. by rewrite His. }
  destruct (Timelines.hidden_from (Some (mkAccountId v)) (Statuses.rs_actor s) w d) as [[rh wh] dh] eqn:Hh.
  assert (Hhid : rh = Ok false /\ dh = d).
  { unfold Timelines.hidden_from in Hh. apply TimelinesInvariant.relations_zoom_run in Hh as [-> Hh].
    2:{ unfold Relations.remote_account_is_hidden_for_viewer, Relations.find_local_remote_account_block,
          Relations.active_local_remote_account_mute. solve_keeps. }
    split; [|done]. unfold Relations.remote_account_is_hidden_for_viewer, Relations.find_local_remote_account_block,
      mbind, M_bind, gets, mret, M_ret in Hh. cbn -[Timelines.relations_of] in Hh. rewrite Hb in Hh.
    pose proof (no_remote_mute (mkAccountId v) (mkAccountId (Statuses.rs_actor s)) w _ Hm) as Hn.
    unfold value_of in Hn. destruct (Relations.active_local_remote_account_mute _ _ w _) as [[rm wm] dm].
    cbn in Hn. subst rm. by injection Hh as <- _ _. }
  destruct Hhid as [-> ->]. exists wh. unfold Timelines.home_timeline_model, mbind, M_bind, gets, mret, M_ret.
  cbn -[Timelines.find_remote Timelines.hidden_from]. rewrite Hs, Hav. cbn [negb]. rewrite Hh.
  unfold Timelines.local_remote_reblog_response, Timelines.remote_status_response_for_viewer, mbind, M_bind, gets, mret, M_ret.
  cbn -[Timelines.find_remote Timelines.relations_of]. rewrite Hs, Hrow. by rewrite Ha.
Qed.

(** Followers of the booster whose lists do not take its posts from the home timeline. *)
Definition at_home (d : Db) (v author : uuid) : Prop :=
  hears d v author /\ author ∉ Timelines.exclusive_local_ids d v.

Lemma at_home_boosts d v booster k row status hidden_local hidden_remote :
  at_home d v (account_uuid booster) -> boost_row booster status k row (Timelines.interactions_of d) ->
  Timelines.LocalRemoteReblog k (account_uuid booster) status
    ∈ TimelinesInvariant.home_feed d v hidden_local hidden_remote.
Proof using Type.
  intros [[(f & Hf & Hshow) _ _] Hex] (Hk & Ho & Hs). unfold TimelinesInvariant.home_feed, TimelinesInvariant.home_parts.
  cbn [concat]. rewrite !elem_of_app. right; right; right; left. apply list_elem_of_fmap. exists (k, row).
  split; [unfold Timelines.local_remote_reblog_item; cbn; by rewrite Ho, Hs|].
  unfold Timelines.outgoing_reblog_rows. apply TimelinesInvariant.elem_of_select. split; [done|].
  unfold Timelines.listed. rewrite Ho. apply bool_decide_eq_true. right. unfold Timelines.reblog_followed_ids.
  apply list_elem_of_fmap. exists (account_uuid booster, f). split; [done|].
  apply list_elem_of_In, List.filter_In. split.
  - apply list_elem_of_In. unfold Timelines.follows. apply list_elem_of_fmap. exists ((v, account_uuid booster), f).
    split; [done|]. apply list_elem_of_In, List.filter_In. split; [by apply list_elem_of_In, elem_of_map_to_list|].
    cbn. by rewrite N.eqb_refl.
  - cbn. rewrite Hshow, andb_true_r. unfold Timelines.listed. by rewrite bool_decide_false.
Qed.

Lemma exclusive_audience d d' v :
  audience d' = audience d -> Timelines.exclusive_local_ids d' v = Timelines.exclusive_local_ids d v.
Proof using Type.
  intros Ha. pose proof (audience_ties _ _ Ha) as Hr. unfold ties in Hr. injection Hr as _ _ _ _ _ _ _ _ Hl Hm.
  unfold Timelines.exclusive_local_ids, Timelines.exclusive_list_ids. by rewrite Hl, Hm.
Qed.

Lemma at_home_audience d d' v a : audience d' = audience d -> at_home d v a -> at_home d' v a.
Proof using Type.
  intros Ha [H1 H2]. split; [by apply (hears_audience d)|]. by rewrite (exclusive_audience _ _ _ Ha).
Qed.

(** C13. Boosting a remote direct message one was addressed in puts it on the home
    timelines of the booster's followers, where its text is shown to them though the
    rules of visibility hide it, and it stays there: the boost is stored, and the
    timeline does not look at the visibility of what a local account boosted. *)
Theorem boosted_direct_message_reaches_home_timelines host_domain (booster : AccountId) (status v : uuid)
    (s : Statuses.RemoteStatus) (w w' : World) (d d' : Db) (o : StatusCollectionOutcome) :
  Timelines.find_local d status = None -> Timelines.find_remote d status = Some s ->
  Statuses.rs_visibility s = Statuses.Direct ->
  act booster status Reblog w d = (Ok o, w', d') ->
  at_home d v (account_uuid booster) -> shows host_domain d v (Statuses.rs_actor s) ->
  (status, v) ∉ Timelines.remote_recipients d ->
  Threads.remote_status_visible_to_account (Timelines.threads_db d') status s (mkAccountId v) = false /\
  exists k, forall hidden_local hidden_remote,
    Timelines.LocalRemoteReblog k (account_uuid booster) status
      ∈ TimelinesInvariant.home_feed d' v hidden_local hidden_remote /\
    forall now, exists later, Timelines.home_timeline_model host_domain (mkAccountId v)
        (Timelines.LocalRemoteReblog k (account_uuid booster) status) now d'
      = (Ok (Some (Timelines.mkResponse k (Threads.RemoteItem status s)
                     (Some (Timelines.BoostedBy (account_uuid booster))))), later, d').
Proof using Type.
  intros Hlocal Hs Hdirect H Hhome Hshows Hrec. unfold status_collection_action in H.
  inv_bind H d0 w0 d1 H0. injection H0 as <- _ <-. unfold visible_status_for_account in H. rewrite Hlocal in H.
  inv_bind H s' w1 d1 H1. apply lift_ok in H1 as [H1 ->]. rewrite Hs in H1. injection H1 as <-.
  destruct (negb _); [done|]. rewrite Hdirect in H. cbn [bool_decide andb] in H. unfold remote_action in H.
  inv_bind H row w2 d2 H2. apply TimelinesInvariant.api_ok, reblog_remote_run in H2 as (Ha & k & Hk).
  inv_bind H made w3 d3 H3. apply TimelinesInvariant.api_ok in H3. inv_bind H shown w4 d4 H4. apply lift_ok in H4 as [-> ->].
  assert (d3 = d2) as -> by exact (keeps_run _ _ _ _ _ _ _ (TimelinesInvariant.reads_local_remote_reblog _ _ _) H3).
  inv_bind H recipients w5 d5 H5. apply TimelinesInvariant.api_ok, reblog_stream_run in H5 as [-> _]. injection H as _ _ <-.
  assert (Hrow : exists a, Relations.local_accounts (Timelines.relations_of d2) !! account_uuid booster = Some a).
  { destruct Hk as (_ & Ho & _). unfold Timelines.local_remote_reblog_response in H3. inv_bind H3 d6 w6 d7 H6.
    injection H6 as <- _ <-. rewrite Ho in H3. destruct (Timelines.find_remote d2 _); [|done].
    destruct (_ !! account_uuid booster) as [a|]; [by exists a|done]. }
  destruct Hrow as [a Hrow]. split.
  - apply direct_hidden_remote; [done|]. by rewrite (f_equal (fun x => x.1.2) Ha : Timelines.remote_recipients d2 = _).
  - exists k. intros hl hr. split.
    + by eapply at_home_boosts; [apply (at_home_audience d)|].
    + eapply local_boost_is_shown; [|exact Hrow|by apply (shows_audience host_domain d)].
      by rewrite (proj2 (audience_find _ _ status Ha)).
Qed.
End Boost.

(** * Witnesses

    In the store of [TimelinesInvariant], account 2 boosts the messages it was sent,
    and account 3, which follows account 2, is told. *)
Abbreviation sample := TimelinesInvariant.sample_timelines.
Abbreviation sample_action := (status_collection_action (fun _ => "id"%string) (fun p => p) (fun j => Ok j)).

Lemma sample_hears : hears sample 3 2.
Proof. split; [by exists TimelinesInvariant.sample_follow|done|done]. Qed.

Lemma sample_recipients i :
  (i, 3%N) ∉ Timelines.local_recipients sample /\ (i, 3%N) ∉ Timelines.remote_recipients sample.
Proof. cbn. set_solver. Qed.

Lemma boosted_direct_status_is_streamed_witness :
  let boost := sample_action (mkAccountId 2) 11%N Reblog in
  exists o recipients, value_of boost sample_world sample = Ok o /\
    stream_events o = [Update (response o) recipients] /\ 3%N ∈ recipients.
Proof.
  intros boost.
  destruct (run_ok boost sample_world sample) as (o & Hv & Hrun); [vm_compute; reflexivity|].
  destruct (boosted_direct_status_is_streamed (fun _ => "id"%string) (fun p => p) (fun j => Ok j) (mkAccountId 2)
    11 3 (TimelinesInvariant.sample_local 1 Statuses.Direct) sample_world
    (world_of boost sample_world sample) sample (store_of boost sample_world sample) o)
    as (_ & recipients & Hev & _ & Hin).
  - vm_compute. reflexivity.
  - done.
  - exact Hrun.
  - exact sample_hears.
  - done.
  - apply sample_recipients.
  - exists o, recipients. exact (conj Hv (conj Hev Hin)).
Defined.

Lemma boosted_direct_message_reaches_home_timelines_witness :
  let boost := sample_action (mkAccountId 2) 20%N Reblog in
  Threads.remote_status_visible_to_account (Timelines.threads_db (store_of boost sample_world sample)) 20
    (TimelinesInvariant.sample_remote Statuses.Direct) (mkAccountId 3) = false /\
  exists k, Timelines.LocalRemoteReblog k 2 20
    ∈ TimelinesInvariant.home_feed (store_of boost sample_world sample) 3 [] [].
Proof.
  intros boost.
  destruct (run_ok boost sample_world sample) as (o & _ & Hrun); [vm_compute; reflexivity|].
  destruct (boosted_direct_message_reaches_home_timelines (fun _ => "id"%string) (fun p => p) (fun j => Ok j) Some
    (mkAccountId 2) 20 3 (TimelinesInvariant.sample_remote Statuses.Direct) sample_world
    (world_of boost sample_world sample) sample (store_of boost sample_world sample) o)
    as (Hhid & k & Hk).
  - vm_compute. reflexivity.
  - vm_compute. reflexivity.
  - done.
  - exact Hrun.
  - split; [exact sample_hears|].
    assert (He : Timelines.exclusive_local_ids sample 3 = []) by (vm_compute; reflexivity).
    rewrite He. apply not_elem_of_nil.
  - split; [exact TimelinesInvariant.sample_shows_author|done|done].
  - apply sample_recipients.
  - split; [exact Hhid|]. exists k. destruct (Hk [] []) as [Hin _].
    change (account_uuid (mkAccountId 2)) with 2%N in Hin. exact Hin.
Defined.
