(* ===== verification/Quotes.v ===== *)
(** Quotes of statuses: the consent states of [status_quote] ([crates/db/src/lib.rs]),
    quoting through the client API, the listing and revocation of quotes
    ([crates/server/src/statuses.rs]), and what the inbox, the notes of this server and
    the document of an authorization do with quotes ([crates/server/src/federation.rs]).

    Of a note that arrives only its quote is stored here, and of the document that a
    status becomes only the members that name its quote are; the rest of the document is
    a parameter, as are requests over the network, integrity proofs, the texts of URLs
    and UUIDs and the letters of Unicode. *)
From S2P Require Import Prelude Core Text.
From S2P Require Jobs Notifications Relations Statuses NotificationRequests Interactions DomainPolicy Threads Pagination Delivery Inbox Timelines.

#[local] Existing Instances Statuses.StatusVisibility_eq_dec Relations.RemoteFollowState_eq_dec Inbox.InboundActivityType_eq_dec
  Inbox.interactions_part Timelines.inbox_part Interactions.requests_part NotificationRequests.statuses_part.

(** * Data *)

Inductive QuoteState : Type := Pending | Accepted | Rejected | Revoked | Deleted.

Inductive QuoteApprovalPolicy : Type := PolicyPublic | PolicyFollowers | PolicyNobody.

Inductive StatusReference : Type := Local (id : uuid) | Remote (id : uuid).

#[export] Instance QuoteState_eq_dec : EqDecision QuoteState.
Proof. solve_decision. Defined.
#[export] Instance QuoteApprovalPolicy_eq_dec : EqDecision QuoteApprovalPolicy.
Proof. solve_decision. Defined.
#[export] Instance StatusReference_eq_dec : EqDecision StatusReference.
Proof. solve_decision. Defined.

(** Rows of [status_quote].  The columns of the quoting and of the quoted status are
    one reference each, as [status_quote_from_model] reads them. *)
Record StatusQuote := mkQuote {
  quote_id : uuid;
  quoting_status : StatusReference;
  quoted_status : option StatusReference;
  quoted_activitypub_id : string;
  state : QuoteState;
  quote_request_id : option string;
  authorization_id : option string;
  created_at : time;
  updated_at : time;
}.

(** The policies of local statuses ([nobody] when there is no entry) and of remote ones,
    and the columns of [remote_actor] and [local_account] that quotes read. *)
Record Db := mkDb {
  timelines : Timelines.Db;
  quotes : gmap uuid StatusQuote;
  quote_policies : gmap uuid QuoteApprovalPolicy;
  quote_automatic_policy : uuid -> list string;
  quote_manual_policy : uuid -> list string;
  actor_activitypub_id : uuid -> string;
  actor_username : uuid -> text;
  followers_url : uuid -> option string;
  inbox_url : uuid -> string;
  shared_inbox_url : uuid -> option string;
}.

#[export, refine] Instance timelines_part : Part Timelines.Db Db :=
  {| get_part := timelines;
     put_part := fun t d => mkDb t (quotes d) (quote_policies d) (quote_automatic_policy d)
       (quote_manual_policy d) (actor_activitypub_id d) (actor_username d) (followers_url d)
       (inbox_url d) (shared_inbox_url d) |}.
Proof. all: by intros *; try destruct s. Defined.

Definition inbox_of (d : Db) : Inbox.Db := Timelines.inbox (timelines d).
Definition statuses_of (d : Db) : Statuses.Db := Timelines.statuses_of (timelines d).
Definition relations_of (d : Db) : Relations.Db := Timelines.relations_of (timelines d).
Definition threads_db (d : Db) : Threads.Db := Timelines.threads_db (timelines d).

Definition on_timelines {A} (m : Op Timelines.Db A) : Op Db A := zoom m.
Definition on_inbox {A} (m : Op Inbox.Db A) : Op Db A := on_timelines (zoom m).
Definition on_relations {A} (m : Op Relations.Db A) : Op Db A := on_timelines (Timelines.on_relations m).
Definition on_requests {A} (m : Op NotificationRequests.Db A) : Op Db A :=
  on_inbox (Inbox.on_requests m).

Definition find_local (d : Db) (i : uuid) : option Statuses.LocalStatus := Timelines.find_local (timelines d) i.
Definition find_remote (d : Db) (i : uuid) : option Statuses.RemoteStatus := Timelines.find_remote (timelines d) i.
Definition username (d : Db) (account : uuid) : string := Inbox.username (inbox_of d) account.
Definition has_account (d : Db) (account : uuid) : bool :=
  bool_decide (is_Some (Relations.local_accounts (relations_of d) !! account)).
Definition policy_of (d : Db) (status : uuid) : QuoteApprovalPolicy :=
  default PolicyNobody (quote_policies d !! status).

(** The inbox looks for the identifiers of requests in the same table. *)
Definition request_ids (t : gmap uuid StatusQuote) : gset string :=
  list_to_set (omap quote_request_id (rows t)).

Definition set_quotes (t : gmap uuid StatusQuote) (d : Db) : Db :=
  let i := inbox_of d in
  mkDb (put_part (Inbox.mkDb (Inbox.interactions i) (Inbox.processed i) (Inbox.username i) (Inbox.locked i)
                    (Inbox.status_activitypub_id i) (request_ids t)) (timelines d))
    t (quote_policies d) (quote_automatic_policy d) (quote_manual_policy d) (actor_activitypub_id d)
    (actor_username d) (followers_url d) (inbox_url d) (shared_inbox_url d).

Definition set_policies (t : gmap uuid QuoteApprovalPolicy) (d : Db) : Db :=
  mkDb (timelines d) (quotes d) t (quote_automatic_policy d) (quote_manual_policy d)
    (actor_activitypub_id d) (actor_username d) (followers_url d) (inbox_url d) (shared_inbox_url d).

(** * The table of quotes *)

Definition find_quote (p : StatusQuote -> bool) (d : Db) : option StatusQuote := head (rows_where p (quotes d)).

Definition quotes_by (r : StatusReference) (q : StatusQuote) : bool := bool_decide (quoting_status q = r).
Definition targets (r : StatusReference) (q : StatusQuote) : bool := bool_decide (quoted_status q = Some r).
Definition requested_as (i : string) (q : StatusQuote) : bool := bool_decide (quote_request_id q = Some i).
Definition authorized_as (i : string) (q : StatusQuote) : bool := bool_decide (authorization_id q = Some i).
Definition in_state (s : QuoteState) (q : StatusQuote) : bool := bool_decide (state q = s).

Definition quote_for_status (status : StatusReference) : Op Db (option StatusQuote) :=
  gets (find_quote (quotes_by status)).
Definition quote_by_request_id (i : string) : Op Db (option StatusQuote) := gets (find_quote (requested_as i)).
Definition quote_by_authorization_id (i : string) : Op Db (option StatusQuote) :=
  gets (find_quote (authorized_as i)).

(** The unique indexes of the table. *)
Definition same_some (a b : option string) : bool := bool_decide (is_Some a) && bool_decide (a = b).

Definition collision (q : StatusQuote) (q' : StatusQuote) : option string :=
  if negb (bool_decide (quote_id q' = quote_id q)) then
    if bool_decide (quoting_status q' = quoting_status q)
    then Some match quoting_status q with
              | Local _ => "status_quote_local_quoting_idx" | Remote _ => "status_quote_remote_quoting_idx"
              end%string
    else if same_some (quote_request_id q') (quote_request_id q) then Some "status_quote_request_idx"%string
    else if same_some (authorization_id q') (authorization_id q) then Some "status_quote_authorization_idx"%string
    else None
  else None.

Definition unique (q : StatusQuote) (d : Db) : option string :=
  head (omap (collision q) (rows (quotes d))).

(** An INSERT or an UPDATE of one row. *)
Definition write (q : StatusQuote) : Op Db StatusQuote :=
  violated ← gets (unique q);
  match violated with
  | Some index => throw (Database (UniqueViolation index))
  | None => modify (fun d => set_quotes (<[quote_id q := q]> (quotes d)) d);; mret q
  end.

Definition referenced (r : StatusReference) (d : Db) : bool :=
  match r with
  | Local i => bool_decide (is_Some (Statuses.local_statuses (statuses_of d) !! i))
  | Remote i => bool_decide (is_Some (Statuses.remote_statuses (statuses_of d) !! i))
  end.

Definition target_key (r : StatusReference) : string :=
  match r with
  | Local _ => "status_quote_quoted_local_status_id_fkey"
  | Remote _ => "status_quote_quoted_remote_status_id_fkey"
  end.

Definition insert_quote (quoting quoted : StatusReference) (url : string) (s : QuoteState)
    (request authorization : option string) : Op Db StatusQuote :=
  i ← uuid_now_v7;
  now ← now_utc;
  taken ← gets (fun d => bool_decide (is_Some (quotes d !! i)));
  present ← gets (referenced quoted);
  if taken : bool then throw (Database (UniqueViolation "status_quote_pkey"))
  else if negb present then throw (Database (ForeignKeyViolation (target_key quoted)))
  else write (mkQuote i quoting (Some quoted) url s request authorization now now).

Definition create_local_status_quote (quoting : uuid) (quoted : StatusReference) (url : string) (s : QuoteState)
    (request authorization : option string) : Op Db StatusQuote :=
  present ← gets (referenced (Local quoting));
  if negb present then throw (InvalidInput "quoting status does not exist")
  else insert_quote (Local quoting) quoted url s request authorization.

Definition with_state (s : QuoteState) (authorization : option string) (now : time) (q : StatusQuote) : StatusQuote :=
  mkQuote (quote_id q) (quoting_status q) (quoted_status q) (quoted_activitypub_id q) s (quote_request_id q)
    authorization (created_at q) now.

Definition upsert_remote_status_quote (quoting : uuid) (quoted : StatusReference) (url : string) (s : QuoteState)
    (authorization : option string) : Op Db StatusQuote :=
  present ← gets (referenced (Remote quoting));
  if negb present then throw (InvalidInput "remote quoting status does not exist")
  else
    existing ← quote_for_status (Remote quoting);
    match existing with
    | Some q =>
        if negb (bool_decide (quoted_activitypub_id q = url))
        then throw (InvalidInput "a remote quote target cannot change")
        else now ← now_utc; write (with_state s authorization now q)
    | None => insert_quote (Remote quoting) quoted url s None authorization
    end.

Definition transition_quote_request (request : string) (s : QuoteState) (authorization : option string) :
    Op Db (option StatusQuote) :=
  found ← quote_by_request_id request;
  match found with
  | None => mret None
  | Some q =>
      if negb (in_state Pending q) then mret (Some q)
      else now ← now_utc; q ← write (with_state s authorization now q); mret (Some q)
  end.

(** The common end of the two revocations. *)
Definition revoke (q : StatusQuote) : Op Db (option StatusQuote) :=
  if in_state Revoked q then mret (Some q)
  else now ← now_utc; q ← write (with_state Revoked (authorization_id q) now q); mret (Some q).

Definition revoke_quote_authorization (authorization : string) : Op Db (option StatusQuote) :=
  found ← quote_by_authorization_id authorization;
  match found with None => mret None | Some q => revoke q end.

Definition revoke_status_quote (quoted quoting : StatusReference) : Op Db (option StatusQuote) :=
  found ← quote_for_status quoting;
  match found with
  | None => mret None
  | Some q => if negb (targets quoted q) then mret None else revoke q
  end.

Definition mark_quotes_target_deleted (target : StatusReference) : Op Db unit :=
  now ← now_utc;
  modify (fun d => set_quotes (update_where (fun q => targets target q && in_state Accepted q)
                                 (fun q => with_state Deleted (authorization_id q) now q) (quotes d)) d).

(** Rows of [local_status] are deleted only with the data of a suspended account.  The
    columns of quoting statuses cascade, those of quoted statuses and of the targets of
    replies become NULL. *)
Definition purged_quote (gone : uuid -> bool) (q : StatusQuote) : option StatusQuote :=
  let left := match quoted_status q with
              | Some (Local i) => if gone i then None else Some (Local i)
              | r => r
              end in
  match quoting_status q with
  | Local i =>
      if gone i then None
      else Some (mkQuote (quote_id q) (Local i) left (quoted_activitypub_id q) (state q) (quote_request_id q)
                   (authorization_id q) (created_at q) (updated_at q))
  | Remote i =>
      Some (mkQuote (quote_id q) (Remote i) left (quoted_activitypub_id q) (state q) (quote_request_id q)
              (authorization_id q) (created_at q) (updated_at q))
  end.

Definition without_target (gone : uuid -> bool) (target : option uuid) : option uuid :=
  i ← target; if gone i then None else Some i.

Definition purged_statuses (gone : uuid -> bool) (s : Statuses.Db) : Statuses.Db :=
  Statuses.mkDb
    (map_imap (fun i r =>
       if gone i then None
       else Some (Statuses.mkLocalStatus (Statuses.ls_account r) (Statuses.ls_visibility r)
                    (Statuses.ls_sensitive r) (Statuses.ls_spoiler_text r)
                    (without_target gone (Statuses.ls_in_reply_to r)) (Statuses.ls_in_reply_to_remote r)
                    (Statuses.ls_created_at r) (Statuses.ls_deleted_at r))) (Statuses.local_statuses s))
    ((fun r => Statuses.mkRemoteStatus (Statuses.rs_actor r) (Statuses.rs_visibility r)
                 (Statuses.rs_sensitive r) (Statuses.rs_summary r) (Statuses.rs_in_reply_to r)
                 (without_target gone (Statuses.rs_in_reply_to_local r)) (Statuses.rs_in_reply_to_remote r)
                 (Statuses.rs_published_at r) (Statuses.rs_deleted_at r)) <$> Statuses.remote_statuses s)
    (filter (fun p => gone p.1 = false) (Statuses.local_mentions s))
    (filter (fun p => gone p.1 = false) (Statuses.remote_mentions s))
    (Statuses.relations s).

Definition written_by (account : uuid) (d : Db) (i : uuid) : bool :=
  match Statuses.local_statuses (statuses_of d) !! i with
  | Some s => (Statuses.ls_account s =? account)%N
  | None => false
  end.

(** [due]: the account is suspended and was not purged before.  Of the tables that the
    deletion reaches, the ones of statuses, mentions and quotes are here; a deletion that
    fails on another table (that of reported statuses has a CHECK) changes nothing. *)
Definition purge_suspended_local_account (due : bool) (account : uuid) : Op Db unit :=
  when due (
    gone ← gets (written_by account);
    on_requests (zoom (modify (purged_statuses gone)));;
    modify (fun d => set_quotes (omap (purged_quote gone) (quotes d)) d)).

Definition count_accepted_quotes (status : StatusReference) : Op Db Z :=
  gets (fun d => Z.of_nat (count_where (fun q => in_state Accepted q && targets status q) (quotes d))).

(** The first [limit] accepted quotes of a status, newest first. *)
Definition accepted_quotes_for_status (status : StatusReference) (max_id since_id : option uuid) (limit : Z) :
    Op Db (list StatusQuote) :=
  gets (fun d => take (Z.to_nat limit) (Pagination.newest_first quote_id
    (Pagination.apply_collection_cursor quote_id (Pagination.mkCursor max_id since_id None)
       (rows_where (fun q => in_state Accepted q && targets status q) (quotes d))))).

(** Followers-only and direct statuses are never open to quotes. *)
Definition effective_policy (v : Statuses.StatusVisibility) (policy : QuoteApprovalPolicy) : QuoteApprovalPolicy :=
  match v with Statuses.Private | Statuses.Direct => PolicyNobody | _ => policy end.

(** The policy after the update, when the account owns the status. *)
Definition update_local_status_quote_policy (status : uuid) (account : AccountId) (policy : QuoteApprovalPolicy) :
    Op Db (option (Statuses.LocalStatus * QuoteApprovalPolicy)) :=
  d ← gets (fun d => d);
  match find_local d status with
  | Some s =>
      if negb (Statuses.ls_account s =? account_uuid account)%N then mret None
      else
        let effective := effective_policy (Statuses.ls_visibility s) policy in
        when (negb (bool_decide (policy_of d status = effective)))
          (_ ← now_utc; modify (set_policies (<[status := effective]> (quote_policies d))));;
        mret (Some (s, effective))
  | None => mret None
  end.

(** * Notifications *)

Section Notify.
Context (uuid_text : uuid -> string).

(** Authors of accepted quotes hear of an edit of the status that they quote. *)
Definition notify_quoting_author (author : uuid) (q : StatusQuote) : Op Db (list Notifications.LocalNotification) :=
  d ← gets (fun d => d);
  match quoting_status q with
  | Remote _ => mret []
  | Local i =>
      match Statuses.local_statuses (statuses_of d) !! i with
      | None => mret []
      | Some quoting =>
          if (Statuses.ls_account quoting =? author)%N then mret []
          else
            n ← on_requests (NotificationRequests.notify_local_account uuid_text
                   (mkAccountId (Statuses.ls_account quoting)) Notifications.QuotedUpdate (mkAccountId author)
                   (Some (mkStatusId i)));
            mret [n]
      end
  end.

Definition notify_local_quoted_status_update (status : uuid) (s : Statuses.LocalStatus) :
    Op Db (list Notifications.LocalNotification) :=
  quoted ← gets (fun d => rows_where (fun q => targets (Local status) q && in_state Accepted q) (quotes d));
  found ← collect quoted (notify_quoting_author (Statuses.ls_account s));
  mret (concat found).
End Notify.

Abbreviation Handler := (M Db Timelines.ApiError).
Definition api {A} (m : Op Db A) : Handler A := map_err Timelines.api_error m.

(** * Activities and documents *)

(** What the document of a note says about its quote. *)
Record NoteQuote := mkNoteQuote {
  note_quote : string;
  note_authorization : option string;
}.

Inductive StatusActivityKind : Type := Create | Update.

(** [QuoteAuthorizationObject] and [InboundQuoteAuthorization], but for the type. *)
Record QuoteAuthorization := mkAuthorization {
  auth_id : string;
  attributed_to : string;
  interacting_object : string;
  interaction_target : string;
}.

Definition QUOTE_AUTHORIZATION : string := "https://w3id.org/fep/044f#QuoteAuthorization".
Definition QUOTE_REQUEST : string := "https://w3id.org/fep/044f#QuoteRequest".
Definition ACTIVITYSTREAMS_CONTEXT : JsonValue := JString "https://www.w3.org/ns/activitystreams".
Definition QUOTE_CONTEXT : JsonValue := JArray [ACTIVITYSTREAMS_CONTEXT; JString "https://w3id.org/fep/044f"].

Definition authorization_value (a : QuoteAuthorization) : JsonValue :=
  JObject [("id"%string, JString (auth_id a)); ("type"%string, JString QUOTE_AUTHORIZATION);
           ("attributedTo"%string, JString (attributed_to a));
           ("interactingObject"%string, JString (interacting_object a));
           ("interactionTarget"%string, JString (interaction_target a))].

Section Federation.
Context (uuid_text : uuid -> string) (parse_uuid : string -> option uuid) (public_url : string -> string)
  (base_url : string) (url_origin : string -> option (string * string)) (digest : JsonValue -> option string)
  (prove : JsonValue -> result JsonValue RoostyError) (federation_enabled : bool)
  (status_document : StatusActivityKind -> uuid -> Statuses.LocalStatus -> option NoteQuote ->
                     result (JsonValue * string) RoostyError)
  (fetch_json : string -> option JsonValue).

Definition actor_url (d : Db) (account : uuid) : string := Inbox.actor_url public_url (username d account).
Definition status_url (d : Db) (account status : uuid) : string :=
  public_url ("users/" ++ username d account ++ "/statuses/" ++ uuid_text status)%string.
Definition authorization_url (i : uuid) : string := public_url ("quote-authorizations/" ++ uuid_text i)%string.
Definition activitypub_id_of (d : Db) (remote_status : uuid) : string :=
  Inbox.status_activitypub_id (inbox_of d) remote_status.

Definition enqueue (job : Jobs.NewJob) : Op Db unit := on_relations (Relations.enqueue job).

(** The tables of a delivery, and what it leaves in them. *)
Definition delivery_db (d : Db) : Delivery.Db :=
  Delivery.mkDb (Threads.policy_db (threads_db d)) (inbox_url d) (shared_inbox_url d) (username d) ∅ [].

Definition on_delivery {A} (m : Op Delivery.Db A) : Op Db A :=
  d ← gets (fun d => d);
  on_requests (fun w r =>
    match m w (delivery_db d) with
    | (found, w', d') => (found, w', put_part (Delivery.statuses_of d') r)
    end).

(** The quote in the document of a note, whatever the state of the quote. *)
Definition note_quote_of (status : uuid) : Op Db (option NoteQuote) :=
  found ← quote_for_status (Local status);
  mret ((fun q => mkNoteQuote (quoted_activitypub_id q) (authorization_id q)) <$> found).

Definition enqueue_status_activity (kind : StatusActivityKind) (status : uuid) (s : Statuses.LocalStatus) :
    Op Db unit :=
  if negb federation_enabled then mret tt
  else
    present ← gets (fun d => has_account d (Statuses.ls_account s));
    if negb present then throw (InvalidInput "local status actor does not exist")
    else
      quote ← note_quote_of status;
      document ← lift_result (status_document kind status s quote);
      activity ← lift_result (prove document.1);
      on_delivery (Delivery.queue_status_activity (mkStatusId status) s activity document.2 []).

(** A [StatusDelivery] to one actor, in its personal inbox. *)
Definition quote_job (local remote : uuid) (activity : JsonValue) (key : string) : Op Db unit :=
  now ← now_utc;
  enqueue (Jobs.mkNewJob Jobs.FederationQuoteDelivery
    (Delivery.status_delivery_value (Delivery.mkStatusDelivery local remote [] None activity true))
    (Some key) now).

Definition request_document (d : Db) (account status target : uuid) (request : string) : JsonValue :=
  JObject [("@context"%string, QUOTE_CONTEXT); ("id"%string, JString request);
           ("type"%string, JString QUOTE_REQUEST); ("actor"%string, JString (actor_url d account));
           ("object"%string, JString (activitypub_id_of d target));
           ("instrument"%string, JString (status_url d account status))].

Definition enqueue_quote_request_in_transaction (status : uuid) (s : Statuses.LocalStatus) (q : StatusQuote) :
    Op Db unit :=
  if negb federation_enabled || negb (in_state Pending q) then mret tt
  else
    match quoted_status q with
    | Some (Remote target) =>
        d ← gets (fun d => d);
        t ← lift_option (InvalidInput "quoted remote status does not exist") (find_remote d target);
        if negb (has_account d (Statuses.ls_account s))
        then throw (InvalidInput "local quote author does not exist")
        else
          request ← lift_option (InvalidInput "pending quote has no request ID") (quote_request_id q);
          activity ← lift_result (prove (request_document d (Statuses.ls_account s) status target request));
          quote_job (Statuses.ls_account s) (Statuses.rs_actor t) activity request
    | _ => mret tt
    end.

Definition delete_document (d : Db) (account quoting : uuid) (authorization : string) (i : uuid) : JsonValue :=
  JObject [("@context"%string, ACTIVITYSTREAMS_CONTEXT);
           ("id"%string, JString (authorization ++ "#delete-" ++ uuid_text i)%string);
           ("type"%string, JString "Delete"); ("actor"%string, JString (actor_url d account));
           ("to"%string, JArray [JString (activitypub_id_of d quoting)]); ("cc"%string, JArray []);
           ("object"%string, JString authorization)].

Definition enqueue_quote_revocation_in_transaction (author : uuid) (q : StatusQuote) : Op Db unit :=
  if negb federation_enabled then mret tt
  else
    match quoting_status q, authorization_id q with
    | Remote quoting, Some authorization =>
        d ← gets (fun d => d);
        r ← lift_option (InvalidInput "remote quoting status does not exist") (find_remote d quoting);
        if negb (has_account d author) then throw (InvalidInput "quoted status author does not exist")
        else
          i ← uuid_now_v7;
          activity ← lift_result (prove (delete_document d author quoting authorization i));
          quote_job author (Statuses.rs_actor r) activity ("quote-revoke:" ++ authorization)%string
    | _, _ => mret tt
    end.

(** * Quotes of remote notes *)

(** Who may quote a local status without being asked. *)
Definition remote_actor_may_quote (actor : AccountId) (status : uuid) (s : Statuses.LocalStatus) : Op Db bool :=
  d ← gets (fun d => d);
  match policy_of d status with
  | PolicyPublic => mret true
  | PolicyFollowers =>
      on_relations (Relations.remote_actor_follows_local_account actor (mkAccountId (Statuses.ls_account s)))
  | PolicyNobody => mret false
  end.

Record ResolvedInboundQuote := mkResolvedInbound {
  in_target : StatusReference;
  in_url : string;
  in_authorization : option string;
  in_author : option AccountId;
}.

(** The identifier of a note and the members of it that name its quote. *)
Record InboundNote := mkNote {
  in_note_id : string;
  in_note_quote : option string;
  in_note_authorization : option string;
}.

Definition is_authorization_type (v : JsonValue) : bool :=
  bool_decide (Inbox.unit_variant uuid_text v = Some QUOTE_AUTHORIZATION).

Definition authorization_members (i t a o g : JsonValue) : option QuoteAuthorization :=
  i ← Delivery.read_string uuid_text i;
  a ← Delivery.read_string uuid_text a;
  o ← Delivery.read_string uuid_text o;
  g ← Delivery.read_string uuid_text g;
  if is_authorization_type t then Some (mkAuthorization i a o g) else None.

(** The five members, by name or in order. *)
Definition authorization_of (v : JsonValue) : option QuoteAuthorization :=
  match v with
  | JArray [i; t; a; o; g] => authorization_members i t a o g
  | JObject _ =>
      i ← Relations.json_get "id" v;
      t ← Relations.json_get "type" v;
      a ← Relations.json_get "attributedTo" v;
      o ← Relations.json_get "interactingObject" v;
      g ← Relations.json_get "interactionTarget" v;
      authorization_members i t a o g
  | _ => None
  end.

Definition resolve_local_target (url : string) (actor : AccountId) (target : uuid) (s : Statuses.LocalStatus) :
    Op Db (option ResolvedInboundQuote) :=
  blocked ← on_relations (Relations.local_remote_accounts_are_blocked (mkAccountId (Statuses.ls_account s)) actor);
  if bool_decide (Statuses.ls_visibility s = Statuses.Direct) || blocked then mret None
  else
    allowed ← remote_actor_may_quote actor target s;
    if negb allowed then mret None
    else
      i ← uuid_now_v7;
      mret (Some (mkResolvedInbound (Local target) url (Some (authorization_url i))
                    (Some (mkAccountId (Statuses.ls_account s))))).

(** The authorization that a note names for its quote of somebody else. *)
Definition fetched_authorization (note : InboundNote) (target_author target_url : string) : option string :=
  named ← in_note_authorization note;
  if negb (Inbox.same_url_origin url_origin named target_author) then None
  else
    a ← fetch_json named ≫= authorization_of;
    if bool_decide (auth_id a = named) && bool_decide (attributed_to a = target_author)
       && bool_decide (interacting_object a = in_note_id note)
       && bool_decide (interaction_target a = target_url)
    then Some (auth_id a) else None.

Definition resolve_remote_target (note : InboundNote) (url : string) (actor : AccountId) :
    Op Db (option ResolvedInboundQuote) :=
  d ← gets (fun d => d);
  match Inbox.remote_status_of_url url (inbox_of d) with
  | None => mret None
  | Some (target, s) =>
      if (Statuses.rs_actor s =? account_uuid actor)%N
      then mret (Some (mkResolvedInbound (Remote target) url (in_note_authorization note) None))
      else
        match in_note_authorization note with
        | None => mret None
        | Some _ =>
            lift_option (InvalidInput "quoted remote author does not exist")
              (Relations.remote_actors (relations_of d) !! Statuses.rs_actor s);;
            mret ((fun a => mkResolvedInbound (Remote target) url (Some a) None) <$>
                    fetched_authorization note (actor_activitypub_id d (Statuses.rs_actor s))
                      (activitypub_id_of d target))
        end
  end.

Definition resolve_inbound_quote (note : InboundNote) (actor : AccountId) : Op Db (option ResolvedInboundQuote) :=
  match in_note_quote note with
  | None => mret None
  | Some url =>
      if negb (Inbox.is_https url) then mret None
      else
        found ← on_inbox (Inbox.local_status_id_from_url parse_uuid base_url url);
        d ← gets (fun d => d);
        match found with
        | Some (mkStatusId target) =>
            match find_local d target with
            | Some s => resolve_local_target url actor target s
            | None => resolve_remote_target note url actor
            end
        | None => resolve_remote_target note url actor
        end
  end.

(** What the transaction that stores a note does with its quote. *)
Definition store_inbound_quote (status : uuid) (edited : bool) (actor : AccountId)
    (resolved : option ResolvedInboundQuote) : Op Db (list Notifications.LocalNotification) :=
  match resolved with
  | None => mret []
  | Some r =>
      upsert_remote_status_quote status (in_target r) (in_url r) Accepted (in_authorization r);;
      match in_author r with
      | Some author =>
          if edited then mret []
          else
            n ← on_requests (NotificationRequests.notify_remote_actor_quote uuid_text author actor (mkStatusId status));
            mret (option_list n)
      | None => mret []
      end
  end.

(** A note that is created ([edited] is false) or updated, with respect to its quote. *)
Definition process_inbound_quote (note : InboundNote) (status : uuid) (edited : bool) (actor : AccountId) :
    Op Db (list Notifications.LocalNotification) :=
  resolved ← resolve_inbound_quote note actor;
  transaction (stored ← store_inbound_quote status edited actor resolved; mret (Commit stored)).

(** * The inbox *)

Section Arms.
Context (activity : JsonValue) (i : string) (signer : Inbox.Signer).

Definition finish_ignored : Op Db Z := on_inbox (Inbox.finish_ignored_inbox_activity uuid_text digest activity signer).

(** The activity is recorded, and takes effect if it is new, in one transaction. *)
Definition recorded (effect : Op Db unit) : Op Db Z :=
  Inbox.answered (
    is_new ← on_inbox (Inbox.is_new_inbox_activity uuid_text digest activity signer);
    when is_new effect;;
    mret (Commit Inbox.ACCEPTED)).

(** ** Requests *)

Record InboundQuoteRequest := mkRequest {
  request_id : string;
  request_actor : string;
  request_object : string;
  request_instrument : string;
}.

Definition quote_request_of : option InboundQuoteRequest :=
  i ← Inbox.string_member uuid_text "id" activity;
  a ← Inbox.string_member uuid_text "actor" activity;
  o ← Inbox.string_member uuid_text "object" activity;
  n ← Inbox.string_member uuid_text "instrument" activity;
  Some (mkRequest i a o n).

Definition response_document (actor : string) (r : InboundQuoteRequest) (fragment name : string) (j : uuid)
    (authorization : option QuoteAuthorization) : JsonValue :=
  JObject ([("@context"%string, QUOTE_CONTEXT);
            ("id"%string, JString (request_id r ++ "#" ++ fragment ++ "-" ++ uuid_text j)%string);
            ("type"%string, JString name); ("actor"%string, JString actor);
            ("object"%string, JObject [("id"%string, JString (request_id r));
                                       ("type"%string, JString QUOTE_REQUEST)])]
           ++ match authorization with
              | Some a => [("result"%string, authorization_value a)]
              | None => []
              end).

(** The answer is queued, and the quoting note is updated if it is stored. *)
Definition answer_request (r : InboundQuoteRequest) (target author : uuid) (accepted : bool)
    (authorization : option string) (response : JsonValue) : Op Db unit :=
  quote_job author (account_uuid (Inbox.signer_id signer)) response ("quote-response:" ++ request_id r)%string;;
  d ← gets (fun d => d);
  match Inbox.remote_status_of_url (request_instrument r) (inbox_of d) with
  | None => mret tt
  | Some (quoting, _) =>
      upsert_remote_status_quote quoting (Local target) (request_object r)
        (if accepted then Accepted else Rejected) authorization;;
      if accepted
      then on_requests (NotificationRequests.notify_remote_actor_quote uuid_text (mkAccountId author) (Inbox.signer_id signer)
                          (mkStatusId quoting));; mret tt
      else mret tt
  end.

Definition accepts (target : uuid) (s : Statuses.LocalStatus) : Op Db bool :=
  blocked ← on_relations (Relations.local_remote_accounts_are_blocked (mkAccountId (Statuses.ls_account s))
                            (Inbox.signer_id signer));
  allowed ← remote_actor_may_quote (Inbox.signer_id signer) target s;
  mret (negb blocked && negb (bool_decide (Statuses.ls_visibility s = Statuses.Direct)) && allowed).

Definition process_quote_request : Op Db Z :=
  match quote_request_of with
  | None => mret Inbox.BAD_REQUEST
  | Some r =>
      if negb (bool_decide (request_actor r = Inbox.signer_url signer)) || negb (bool_decide (request_id r = i))
      then mret Inbox.BAD_REQUEST
      else
        found ← on_inbox (Inbox.local_status_id_from_url parse_uuid base_url (request_object r));
        d ← gets (fun d => d);
        match found with
        | None => finish_ignored
        | Some (mkStatusId target) =>
            match find_local d target with
            | None => finish_ignored
            | Some s =>
                accepted ← accepts target s;
                let author := Statuses.ls_account s in
                if negb (has_account d author) then mret Inbox.BAD_REQUEST
                else
                  authorization ← (if accepted : bool
                    then a ← uuid_now_v7;
                         mret (Some (mkAuthorization (authorization_url a) (actor_url d author)
                                       (request_instrument r) (request_object r)))
                    else mret None);
                  j ← uuid_now_v7;
                  recorded (answer_request r target author accepted (auth_id <$> authorization)
                    (response_document (actor_url d author) r (if accepted then "accept" else "reject")
                       (if accepted then "Accept" else "Reject") j authorization))
            end
        end
  end.

(** ** The end of an authorization *)

(** [InboundDeleteActivity]: its actor and its object, an identifier or a tombstone. *)
Definition delete_of : option (string * string) :=
  actor ← Inbox.string_member uuid_text "actor" activity;
  target ← Delivery.required (Inbox.reference uuid_text) "object" activity;
  Some (actor, target).

(** Servers that show the quoting status are told of the change. *)
Definition announce_change (q : option StatusQuote) (quoting : StatusReference) : Op Db unit :=
  d ← gets (fun d => d);
  match q, quoting with
  | Some _, Local status =>
      match find_local d status with
      | Some s => enqueue_status_activity Update status s
      | None => mret tt
      end
  | _, _ => mret tt
  end.

(** [None]: the activity does not delete the authorization of a quote of a remote
    status. *)
Definition process_authorization_delete : Op Db (option Z) :=
  match delete_of with
  | None => mret None
  | Some (actor, object) =>
      found ← quote_by_authorization_id object;
      d ← gets (fun d => d);
      match found with
      | Some q =>
          match quoted_status q with
          | Some (Remote target) =>
              let authored := match find_remote d target with
                              | Some s => (Statuses.rs_actor s =? account_uuid (Inbox.signer_id signer))%N
                              | None => false
                              end in
              if negb authored || negb (bool_decide (actor = Inbox.signer_url signer))
              then mret (Some Inbox.BAD_REQUEST)
              else
                z ← recorded (revoked ← revoke_quote_authorization object; announce_change revoked (quoting_status q));
                mret (Some z)
          | _ => mret None
          end
      | None => mret None
      end
  end.

(** ** Answers to requests of this server *)

(** [InboundQuoteResponse]: the actor, the request and the authorization of the answer. *)
Definition quote_answer_of : option (string * string * option QuoteAuthorization) :=
  actor ← Inbox.string_member uuid_text "actor" activity;
  request ← Delivery.required (Inbox.reference uuid_text) "object" activity;
  match Relations.json_get "result" activity with
  | None | Some JNull => Some (actor, request, None)
  | Some v => a ← authorization_of v; Some (actor, request, Some a)
  end.

(** The authorization that an Accept carries is for this quote and of its author. *)
Definition authorizes (d : Db) (a : QuoteAuthorization) (account quoting target : uuid) : bool :=
  bool_decide (attributed_to a = Inbox.signer_url signer)
  && bool_decide (interacting_object a = status_url d account quoting)
  && bool_decide (interaction_target a = activitypub_id_of d target)
  && Inbox.is_https (auth_id a)
  && Inbox.same_url_origin url_origin (auth_id a) (Inbox.signer_url signer).

Definition apply_answer (request : string) (quoting : uuid) (s : QuoteState) (authorization : option string) :
    Op Db Z :=
  recorded (answered ← transition_quote_request request s authorization; announce_change answered (Local quoting)).

Definition process_acceptance (request : string) (quoting target : uuid) (result : option QuoteAuthorization) :
    Op Db Z :=
  d ← gets (fun d => d);
  match result with
  | None => mret Inbox.BAD_REQUEST
  | Some a =>
      match find_local d quoting with
      | None => finish_ignored
      | Some s =>
          if negb (has_account d (Statuses.ls_account s)) || negb (authorizes d a (Statuses.ls_account s) quoting target)
          then mret Inbox.BAD_REQUEST
          else apply_answer request quoting Accepted (Some (auth_id a))
      end
  end.

(** [None]: the activity does not answer a request of a stored quote. *)
Definition process_quote_answer (accepted : bool) : Op Db (option Z) :=
  match quote_answer_of with
  | None => mret None
  | Some (actor, request, result) =>
      found ← quote_by_request_id request;
      d ← gets (fun d => d);
      match found with
      | None => mret None
      | Some q =>
          z ← (if negb (bool_decide (actor = Inbox.signer_url signer)) then mret Inbox.BAD_REQUEST
               else
                 match quoting_status q, quoted_status q with
                 | Local quoting, Some (Remote target) =>
                     match find_remote d target with
                     | Some t =>
                         if negb (Statuses.rs_actor t =? account_uuid (Inbox.signer_id signer))%N then finish_ignored
                         else if accepted : bool then process_acceptance request quoting target result
                         else apply_answer request quoting Rejected None
                     | None => finish_ignored
                     end
                 | _, _ => finish_ignored
                 end);
          mret (Some z)
      end
  end.
End Arms.

(** The inbox with the arms for quotes; [None] is left for the other handlers. *)
Definition process_inbox (activity : JsonValue) (signer : Inbox.Signer) : Op Db (option Z) :=
  z ← on_inbox (Inbox.process_inbox uuid_text parse_uuid public_url base_url url_origin digest prove activity signer);
  match z with
  | Some z => mret (Some z)
  | None =>
      if Inbox.is_remote_actor_lifecycle_activity uuid_text activity (Inbox.signer_url signer) then mret None
      else
        match Inbox.inbound_activity_type uuid_text activity, Inbox.string_member uuid_text "id" activity with
        | Some Inbox.QuoteRequest, Some i => z ← process_quote_request activity i signer; mret (Some z)
        | Some Inbox.Delete, _ => process_authorization_delete activity signer
        | Some Inbox.Accept, _ => process_quote_answer activity signer true
        | Some Inbox.Reject, _ => process_quote_answer activity signer false
        | _, _ => mret None
        end
  end.

(** * The document of an authorization *)

Definition interacting (d : Db) (quoting : StatusReference) : option string :=
  match quoting with
  | Local i =>
      s ← find_local d i;
      if has_account d (Statuses.ls_account s) then Some (status_url d (Statuses.ls_account s) i) else None
  | Remote i => (fun _ => activitypub_id_of d i) <$> find_remote d i
  end.

Definition quote_authorization (authorization : uuid) : Handler QuoteAuthorization :=
  if negb federation_enabled then throw Timelines.NotFound
  else
    let i := authorization_url authorization in
    found ← api (quote_by_authorization_id i);
    d ← gets (fun d => d);
    lift_option Timelines.NotFound (
      q ← found;
      if negb (in_state Accepted q) then None
      else
        match quoted_status q with
        | Some (Local target) =>
            s ← find_local d target;
            if negb (has_account d (Statuses.ls_account s)) then None
            else
              o ← interacting d (quoting_status q);
              Some (mkAuthorization i (actor_url d (Statuses.ls_account s)) o (quoted_activitypub_id q))
        | _ => None
        end).
End Federation.

(** * Quoting through the client API *)

Definition PUBLIC : string := "https://www.w3.org/ns/activitystreams#Public".

Record ResolvedQuoteTarget := mkTarget {
  target : StatusReference;
  target_url : string;
  target_state : QuoteState;
  target_author : option AccountId;
  target_authorization : option string;
  target_request : option string;
}.

(** A quote of a followers-only status is shown to followers at most. *)
Definition effective_visibility (quoted requested : Statuses.StatusVisibility) : Statuses.StatusVisibility :=
  match quoted, requested with
  | Statuses.Private, (Statuses.Public | Statuses.Unlisted) => Statuses.Private
  | _, _ => requested
  end.

Section Client.
Context (uuid_text : uuid -> string) (public_url : string -> string) (prove : JsonValue -> result JsonValue RoostyError)
  (federation_enabled : bool)
  (status_document : StatusActivityKind -> uuid -> Statuses.LocalStatus -> option NoteQuote ->
                     result (JsonValue * string) RoostyError)
  (parse_uuid : text -> option uuid) (alphanumeric : Z -> bool).

Definition mentions_word (name : string) (content : text) : bool :=
  let strip c := negb (alphanumeric c) && negb (c =? 64) && negb (c =? 95) in
  existsb (fun word => bool_decide (trim_end_matches strip (trim_start_matches strip word) = 64 :: lit name))
    (split_whitespace content).

(** Whether the policy of a local status lets the account quote it. *)
Definition local_quote_allowed (me : AccountId) (status : uuid) (s : Statuses.LocalStatus) (d : Db) : bool :=
  bool_decide (Statuses.ls_account s = account_uuid me)
  || match policy_of d status with
     | PolicyPublic => true
     | PolicyFollowers =>
         bool_decide (is_Some (Relations.local_follows (relations_of d) !! (account_uuid me, Statuses.ls_account s)))
     | PolicyNobody => false
     end.

Definition resolve_local_quote (me : AccountId) (status : uuid) (s : Statuses.LocalStatus)
    (requested : Statuses.StatusVisibility) (content : text) :
    Op Db (ResolvedQuoteTarget * Statuses.StatusVisibility) :=
  let author := Statuses.ls_account s in
  d ← gets (fun d => d);
  blocked ← on_relations (Relations.local_accounts_are_blocked me (mkAccountId author));
  if negb (Threads.status_visible_to_viewer (threads_db d) status s (Some me))
     || bool_decide (Statuses.ls_visibility s = Statuses.Direct) || blocked
  then throw (InvalidInput "quoted status does not exist or quoting is denied")
  else if negb (has_account d author) then throw (InvalidInput "quoted status author does not exist")
  else if negb (local_quote_allowed me status s d)
  then throw (InvalidInput "quoted status does not allow this quote")
  else if bool_decide (requested = Statuses.Direct) && negb (mentions_word (username d author) content)
  then throw (InvalidInput "direct quote posts must mention the quoted author")
  else
    authorization ← (if bool_decide (author = account_uuid me) then mret None
                     else i ← uuid_now_v7; mret (Some (authorization_url uuid_text public_url i)));
    mret (mkTarget (Local status) (status_url uuid_text public_url d author status) Accepted
            (Some (mkAccountId author)) authorization None,
          effective_visibility (Statuses.ls_visibility s) requested).

(** Whether one of the audiences is everybody, or the followers and the account follows
    the author. *)
Definition audience_matches (d : Db) (follows : bool) (author : uuid) (audiences : list string) : bool :=
  existsb (fun a => bool_decide (a = PUBLIC) || follows && bool_decide (followers_url d author = Some a)) audiences.

Definition follows_author (me : AccountId) (author : uuid) : Op Db bool :=
  found ← on_relations (Relations.find_remote_following me (mkAccountId author));
  mret (match found with Some f => bool_decide (Relations.fg_state f = Relations.Accepted) | None => false end).

Definition resolve_remote_quote (me : AccountId) (status : uuid) (s : Statuses.RemoteStatus)
    (requested : Statuses.StatusVisibility) (content : text) :
    Op Db (ResolvedQuoteTarget * Statuses.StatusVisibility) :=
  let author := Statuses.rs_actor s in
  d ← gets (fun d => d);
  blocked ← on_relations (Relations.local_remote_accounts_are_blocked me (mkAccountId author));
  if negb (Threads.remote_status_visible_to_account (threads_db d) status s me)
     || bool_decide (Statuses.rs_visibility s = Statuses.Direct) || blocked
  then throw (InvalidInput "quoted status does not exist or quoting is denied")
  else
    actor ← lift_option (InvalidInput "quoted status author does not exist")
              (Relations.remote_actors (relations_of d) !! author);
    if bool_decide (requested = Statuses.Direct)
       && negb (contains (64 :: actor_username d author ++ 64 :: Relations.actor_domain actor) content)
    then throw (InvalidInput "direct quote posts must mention the quoted author")
    else
      follows ← follows_author me author;
      if audience_matches d follows author (quote_automatic_policy d status)
         || audience_matches d follows author (quote_manual_policy d status)
         || negb (bool_decide (quote_manual_policy d status = []))
      then
        i ← uuid_now_v7;
        mret (mkTarget (Remote status) (activitypub_id_of d status) Pending None None
                (Some (public_url ("activities/quote-request/" ++ uuid_text i)%string)),
              effective_visibility (Statuses.rs_visibility s) requested)
      else throw (InvalidInput "quoted status does not allow this quote").

Definition resolve_quote_target (me : AccountId) (raw_id : text) (requested : Statuses.StatusVisibility)
    (content : text) : Op Db (ResolvedQuoteTarget * Statuses.StatusVisibility) :=
  status ← lift_option (InvalidInput "quoted status does not exist") (parse_uuid raw_id);
  d ← gets (fun d => d);
  match find_local d status with
  | Some s => resolve_local_quote me status s requested content
  | None =>
      s ← lift_option (InvalidInput "quoted status does not exist") (find_remote d status);
      resolve_remote_quote me status s requested content
  end.

(** The quote of a status that was just stored. *)
Definition attach_quote (status : uuid) (s : Statuses.LocalStatus) (t : ResolvedQuoteTarget) :
    Op Db (list Notifications.LocalNotification) :=
  q ← create_local_status_quote status (target t) (target_url t) (target_state t) (target_request t)
        (target_authorization t);
  enqueue_quote_request_in_transaction uuid_text public_url prove federation_enabled status s q;;
  match target_author t with
  | Some author =>
      if bool_decide (target_state t = Accepted) && negb (bool_decide (author = mkAccountId (Statuses.ls_account s)))
      then
        n ← on_requests (NotificationRequests.notify_local_status_quote uuid_text author (mkAccountId (Statuses.ls_account s))
                           (mkStatusId status));
        mret (option_list n)
      else mret []
  | None => mret []
  end.

(** From the activity of a new status to its quote, in the order of the code. *)
Definition publish_with_quote (status : uuid) (s : Statuses.LocalStatus) (t : option ResolvedQuoteTarget) :
    Op Db (list Notifications.LocalNotification) :=
  enqueue_status_activity prove federation_enabled status_document Create status s;;
  match t with
  | Some t => attach_quote status s t
  | None => mret []
  end.

(** ** What a status says about quotes of it *)

Inductive QuoteApprovalAudience : Type := AudiencePublic | AudienceFollowers | UnsupportedPolicy.
Inductive QuoteApprovalDecision : Type := Automatic | Manual | Denied | Unknown.

#[local] Instance QuoteApprovalAudience_eq_dec : EqDecision QuoteApprovalAudience.
Proof using Type. solve_decision. Defined.

Record QuoteApprovalResponse := mkApproval {
  automatic : list QuoteApprovalAudience;
  manual : list QuoteApprovalAudience;
  current_user : QuoteApprovalDecision;
}.

Definition local_quote_approval (status : uuid) (s : Statuses.LocalStatus) (viewer : option AccountId) :
    Op Db QuoteApprovalResponse :=
  d ← gets (fun d => d);
  let audiences := match policy_of d status with
                   | PolicyPublic => [AudiencePublic]
                   | PolicyFollowers => [AudienceFollowers]
                   | PolicyNobody => []
                   end in
  decision ← match viewer with
    | None => mret Denied
    | Some v =>
        if bool_decide (account_uuid v = Statuses.ls_account s) then mret Automatic
        else
          blocked ← on_relations (Relations.local_accounts_are_blocked v (mkAccountId (Statuses.ls_account s)));
          if blocked : bool then mret Denied
          else mret (match policy_of d status with
                     | PolicyPublic => Automatic
                     | PolicyFollowers =>
                         if bool_decide (is_Some (Relations.local_follows (relations_of d)
                                                    !! (account_uuid v, Statuses.ls_account s)))
                         then Automatic else Denied
                     | PolicyNobody => Denied
                     end)
    end;
  mret (mkApproval audiences [] decision).

Definition project (d : Db) (author : uuid) (audiences : list string) : list QuoteApprovalAudience :=
  foldl (fun found a =>
    let category :=
      if bool_decide (a = PUBLIC) then AudiencePublic
      else if bool_decide (is_Some (Relations.remote_actors (relations_of d) !! author))
              && bool_decide (followers_url d author = Some a) then AudienceFollowers
      else UnsupportedPolicy in
    if bool_decide (category ∈ found) then found else found ++ [category]) [] audiences.

Definition remote_quote_approval (status : uuid) (s : Statuses.RemoteStatus) (viewer : option AccountId) :
    Op Db QuoteApprovalResponse :=
  d ← gets (fun d => d);
  let automatic := project d (Statuses.rs_actor s) (quote_automatic_policy d status) in
  let manual := project d (Statuses.rs_actor s) (quote_manual_policy d status) in
  mret (mkApproval automatic manual (
    if bool_decide (viewer = None) then Denied
    else if bool_decide (AudiencePublic ∈ automatic) then Automatic
    else if bool_decide (AudiencePublic ∈ manual) then Manual
    else if bool_decide (UnsupportedPolicy ∈ automatic) || bool_decide (UnsupportedPolicy ∈ manual) then Unknown
    else Denied)).

(** The policy of a new status, or of one whose owner changes it. *)
Definition quote_approval_policy (visibility : Statuses.StatusVisibility) (requested : option QuoteApprovalPolicy)
    (default_policy : QuoteApprovalPolicy) : QuoteApprovalPolicy :=
  effective_policy visibility (default default_policy requested).

Definition update_interaction_policy (me : AccountId) (status : uuid) (requested : option QuoteApprovalPolicy) :
    Handler QuoteApprovalPolicy :=
  match requested with
  | None => throw Timelines.BadRequest
  | Some policy =>
      transaction (
        d ← gets (fun d => d);
        s ← lift_option Timelines.NotFound (find_local d status);
        if negb (Statuses.ls_account s =? account_uuid me)%N then throw Timelines.NotFound
        else
          let before := policy_of d status in
          updated ← api (update_local_status_quote_policy status me policy);
          u ← lift_option Timelines.NotFound updated;
          when (negb (bool_decide (u.2 = before)))
            (api (enqueue_status_activity prove federation_enabled status_document Update status u.1));;
          mret (Commit u.2))
  end.

(** ** The quote in a response *)

Inductive QuoteResponseState : Type :=
| Stored (s : QuoteState) | Unauthorized | BlockedAccount | BlockedDomain | MutedAccount.

Record QuoteResponse := mkQuoteResponse {
  response_state : QuoteResponseState;
  response_status : option Threads.StatusContextItem;
}.

Definition visible_remote (d : Db) (i : uuid) (s : Statuses.RemoteStatus) (viewer : option AccountId) : bool :=
  match viewer with
  | Some v => Threads.remote_status_visible_to_account (threads_db d) i s v
  | None => Threads.is_public (Statuses.rs_visibility s)
  end.

(** The state that the viewer's blocks and mutes give to a quote that is shown. *)
Definition relation_state (viewer : option AccountId) (blocked : AccountId -> Op Relations.Db bool)
    (muted : AccountId -> Op Relations.Db (option Relations.MuteRow)) : Op Db QuoteResponseState :=
  match viewer with
  | None => mret (Stored Accepted)
  | Some v =>
      b ← on_relations (blocked v);
      if b : bool then mret BlockedAccount
      else m ← on_relations (muted v); mret (match m with Some _ => MutedAccount | None => Stored Accepted end)
  end.

Section Shown.
Context (host_domain : text -> option text).

Definition local_quote_response (i : uuid) (viewer : option AccountId) : Op Db QuoteResponse :=
  d ← gets (fun d => d);
  match find_local d i with
  | None => mret (mkQuoteResponse (Stored Deleted) None)
  | Some s =>
      let author := mkAccountId (Statuses.ls_account s) in
      if negb (Threads.status_visible_to_viewer (threads_db d) i s viewer)
      then mret (mkQuoteResponse Unauthorized None)
      else if negb (has_account d (Statuses.ls_account s))
      then throw (InvalidInput "quoted status author does not exist")
      else
        shown ← relation_state viewer (fun v => Relations.local_accounts_are_blocked v author)
                  (fun v => Relations.active_local_account_mute v author);
        mret (mkQuoteResponse shown (Some (Threads.LocalItem i s)))
  end.

(** An actor that is not stored is not suspended. *)
Definition actor_suspended (author : uuid) : Op Db bool :=
  d ← gets (fun d => d);
  match Relations.remote_actors (relations_of d) !! author with
  | None => mret false
  | Some a =>
      if negb (bool_decide (Relations.actor_suspended_at a = None)) then mret true
      else on_timelines (Timelines.domain_is_suspended host_domain (Relations.actor_domain a))
  end.

Definition remote_quote_response (i : uuid) (viewer : option AccountId) : Op Db QuoteResponse :=
  d ← gets (fun d => d);
  match find_remote d i with
  | None => mret (mkQuoteResponse (Stored Deleted) None)
  | Some s =>
      let author := mkAccountId (Statuses.rs_actor s) in
      suspended ← actor_suspended (Statuses.rs_actor s);
      shown ← (if suspended : bool then mret BlockedDomain
               else relation_state viewer (fun v => Relations.local_remote_accounts_are_blocked v author)
                      (fun v => Relations.active_local_remote_account_mute v author));
      if negb (visible_remote d i s viewer) then mret (mkQuoteResponse Unauthorized None)
      else
        (_ ← on_timelines (Timelines.remote_status_response_for_viewer i s);
         mret (mkQuoteResponse shown (Some (Threads.RemoteItem i s))))
  end.

Definition status_quote_response (quoting : StatusReference) (viewer : option AccountId) : Op Db (option QuoteResponse) :=
  found ← quote_for_status quoting;
  match found with
  | None => mret None
  | Some q =>
      if negb (in_state Accepted q) then mret (Some (mkQuoteResponse (Stored (state q)) None))
      else
        shown ← match quoted_status q with
          | Some (Local i) => local_quote_response i viewer
          | Some (Remote i) => remote_quote_response i viewer
          | None => mret (mkQuoteResponse (Stored Deleted) None)
          end;
        mret (Some shown)
  end.
End Shown.

(** ** The quotes of a status *)

(** A quoting status that is gone is left out. *)
Definition quoting_response (q : StatusQuote) : Op Db (option Timelines.StatusResponse) :=
  d ← gets (fun d => d);
  match quoting_status q with
  | Local i =>
      match find_local d i with
      | Some s => r ← on_timelines (Timelines.status_with_author i s); mret (Some r)
      | None => mret None
      end
  | Remote i =>
      match find_remote d i with
      | Some s => r ← on_timelines (Timelines.remote_status_response_for_viewer i s); mret (Some r)
      | None => mret None
      end
  end.

Definition listed_target (d : Db) (status : uuid) (me : AccountId) : option StatusReference :=
  match find_local d status with
  | Some s => if Threads.status_visible_to_viewer (threads_db d) status s (Some me)
              then Some (Local status) else None
  | None =>
      s ← find_remote d status;
      if Threads.remote_status_visible_to_account (threads_db d) status s me then Some (Remote status) else None
  end.

Definition parse_cursor (value : option text) : result (option uuid) Timelines.ApiError :=
  match value with
  | None => Ok None
  | Some v => match parse_uuid v with Some i => Ok (Some i) | None => Err Timelines.BadRequest end
  end.

Definition quotes_page (status : StatusReference) (max_id since_id : option uuid) (limit : Z) :
    Op Db (Pagination.CollectionPage StatusQuote) :=
  quotes ← accepted_quotes_for_status status max_id since_id (limit + 1);
  mret (Pagination.page_of quote_id limit (fun rows => rows) quotes).

(** The responses and the cursors of the links. *)
Definition status_quotes (me : AccountId) (status : uuid) (params : Timelines.TimelineParams) :
    Handler (list Timelines.StatusResponse * option (Pagination.CollectionCursor * Pagination.CollectionCursor)) :=
  d ← gets (fun d => d);
  quoted ← lift_option Timelines.NotFound (listed_target d status me);
  max ← lift_result (parse_cursor (Timelines.max_id params));
  since ← lift_result (parse_cursor (Timelines.since_id params));
  page ← api (quotes_page quoted max since (Timelines.timeline_limit (Timelines.limit params)));
  responses ← api (collect (Pagination.items page) quoting_response);
  mret (omap id responses, Pagination.header_links page).

(** ** Revocation *)

Definition revoke_quote (me : AccountId) (status quoting : uuid) : Handler Timelines.StatusResponse :=
  transaction (
    d ← gets (fun d => d);
    quoted ← lift_option Timelines.NotFound (find_local d status);
    if negb (Statuses.ls_account quoted =? account_uuid me)%N then throw Timelines.Forbidden
    else
      item ← lift_option Timelines.NotFound
        (match find_local d quoting with
         | Some s => Some (Local quoting, Timelines.status_with_author quoting s)
         | None => (fun s => (Remote quoting, Timelines.remote_status_response_for_viewer quoting s))
                     <$> find_remote d quoting
         end);
      revoked ← api (revoke_status_quote (Local status) item.1);
      q ← lift_option Timelines.NotFound revoked;
      api (enqueue_quote_revocation_in_transaction uuid_text public_url prove federation_enabled
             (Statuses.ls_account quoted) q);;
      response ← api (on_timelines item.2);
      mret (Commit response)).
End Client.
