(* ===== verification/QuotesInvariant.v ===== *)
(** Quotes: in every history the table of quotes has one row per quoting status and the
    consent to the quotes of local statuses only moves forward; a remote author alone
    accepts a quote of its status; what a status announces about quotes is what quoting
    it does, and quotes show only what may be read.  The quotes of remote notes are not
    as well kept: anybody may decide on them, an edit takes a revocation back, and the
    first authorization is lost. *)
From S2P Require Import Prelude Core Text.
From S2P Require Jobs Notifications Relations Statuses NotificationRequests Interactions DomainPolicy Threads Pagination Delivery Inbox InboxInvariant Timelines TimelinesInvariant.
From S2P Require Import Quotes.

#[local] Existing Instances Statuses.StatusVisibility_eq_dec Relations.RemoteFollowState_eq_dec Inbox.interactions_part
  Timelines.inbox_part Interactions.requests_part NotificationRequests.statuses_part.

(** * Edits of the table *)

(** The life of the consent to a quote of a local status. *)
Inductive advances : QuoteState -> QuoteState -> Prop :=
| advances_accept : advances Pending Accepted
| advances_reject : advances Pending Rejected
| advances_delete : advances Accepted Deleted
| advances_revoke : advances Accepted Revoked
| advances_revoke_deleted : advances Deleted Revoked.

(** What a row of the table looks like.  A local quote of a local status (which may have
    been purged since) needs no request; one of a remote status has a request, and an
    authorization once it was accepted. *)
Definition shape (q : StatusQuote) : Prop :=
  match quoting_status q, quoted_status q with
  | Local _, Some (Remote _) =>
      is_Some (quote_request_id q) /\
      match state q with
      | Pending | Rejected => authorization_id q = None
      | Accepted | Revoked => is_Some (authorization_id q)
      | Deleted => False
      end
  | Local _, _ => quote_request_id q = None /\ (state q = Accepted \/ state q = Deleted \/ state q = Revoked)
  | Remote _, _ => quote_request_id q = None
  end.

(** A row as its statement finds it: keyed by its identifier, of the right shape, and
    clear of every other row. *)
Definition fits (t : gmap uuid StatusQuote) (q : StatusQuote) : Prop :=
  forall j q', t !! j = Some q' -> collision q q' = None.

Section Edits.
(** Which quotes may be accepted, and with which authorization. *)
Context (allow : StatusQuote -> string -> Prop).

Inductive edit (t : gmap uuid StatusQuote) : gmap uuid StatusQuote -> Prop :=
| edit_none : edit t t
| edit_insert q :
    t !! quote_id q = None -> fits t q -> shape q ->
    (forall a, quoting_status q = Local a -> state q = Accepted -> exists b, quoted_status q = Some (Local b)) ->
    edit t (<[quote_id q := q]> t)
| edit_accept q a now :
    t !! quote_id q = Some q -> state q = Pending -> allow q a ->
    fits t (with_state Accepted (Some a) now q) ->
    edit t (<[quote_id q := with_state Accepted (Some a) now q]> t)
| edit_reject q now :
    t !! quote_id q = Some q -> state q = Pending ->
    edit t (<[quote_id q := with_state Rejected None now q]> t)
| edit_revoke q now :
    t !! quote_id q = Some q -> state q <> Revoked ->
    is_Some (authorization_id q) \/ (exists b, quoted_status q = Some (Local b)) ->
    edit t (<[quote_id q := with_state Revoked (authorization_id q) now q]> t)
| edit_delete i now :
    edit t (update_where (fun q => targets (Local i) q && in_state Accepted q)
              (fun q => with_state Deleted (authorization_id q) now q) t)
| edit_remote q s a now i :
    t !! quote_id q = Some q -> quoting_status q = Remote i -> fits t (with_state s a now q) ->
    edit t (<[quote_id q := with_state s a now q]> t).
End Edits.

Definition nothing (q : StatusQuote) (a : string) : Prop := False.

(** The invariant. *)
Record quotes_ok (d : Db) : Prop := {
  ok_keyed : forall i q, quotes d !! i = Some q -> quote_id q = i;
  ok_fits : forall i q, quotes d !! i = Some q -> fits (quotes d) q;
  ok_shape : forall i q, quotes d !! i = Some q -> shape q;
  ok_mirror : Inbox.quote_requests (inbox_of d) = request_ids (quotes d);
}.

(** What nothing ever changes of a row; but a quoted local status may be purged. *)
Definition same_target (r r' : option StatusReference) : Prop :=
  r' = r \/ r' = None /\ exists i, r = Some (Local i).

Definition same_edge (q q' : StatusQuote) : Prop :=
  quote_id q' = quote_id q /\ quoting_status q' = quoting_status q /\
  same_target (quoted_status q) (quoted_status q') /\
  quoted_activitypub_id q' = quoted_activitypub_id q /\ quote_request_id q' = quote_request_id q.

Lemma same_edge_state s a now q : same_edge q (with_state s a now q).
Proof. split_and!; [done|done|by left|done|done]. Qed.

Definition follows_on (q q' : StatusQuote) : Prop :=
  same_edge q q' /\ forall i, quoting_status q = Local i -> rtc advances (state q) (state q').

#[export] Instance follows_on_refl : Reflexive follows_on.
Proof. intros q. split; [split_and!; [done|done|by left|done|done]|done]. Qed.

#[export] Instance follows_on_trans : Transitive follows_on.
Proof.
  intros q1 q2 q3 [(? & Hq & Ht1 & ? & ?) Ha] [(? & ? & Ht2 & ? & ?) Hb].
  split; [split_and!; [congruence|congruence| |congruence|congruence]|].
  { destruct Ht1 as [E1|[E1 [b Hr]]], Ht2 as [E2|[E2 [b' Hr']]]; unfold same_target; rewrite E2 in *; rewrite ?E1 in *; eauto. }
  intros i Hi. etrans; [by eapply Ha|]. apply (Hb i). congruence.
Qed.

Definition kept (t t' : gmap uuid StatusQuote) : Prop :=
  forall i q, t !! i = Some q -> exists q', t' !! i = Some q' /\ follows_on q q'.

#[export] Instance kept_refl : Reflexive kept.
Proof. intros t i q Hq. by exists q. Qed.

#[export] Instance kept_trans : Transitive kept.
Proof.
  intros t1 t2 t3 H1 H2 i q Hq. apply H1 in Hq as (q2 & Hq2 & H12). apply H2 in Hq2 as (q3 & Hq3 & H23).
  exists q3. split; [done|]. by etrans.
Qed.

Lemma kept_insert t k q' :
  (forall q, t !! k = Some q -> follows_on q q') -> kept t (<[k := q']> t).
Proof.
  intros Hq j q Hj. destruct (decide (k = j)) as [<-|Hne].
  - exists q'. rewrite lookup_insert_eq. auto.
  - exists q. by rewrite lookup_insert_ne.
Qed.

Lemma same_some_sym a b : same_some a b = same_some b a.
Proof. unfold same_some. repeat case_bool_decide; naive_solver. Qed.

Lemma collision_None q q' :
  collision q q' = None <->
  quote_id q' = quote_id q \/
  (quoting_status q' <> quoting_status q /\ same_some (quote_request_id q') (quote_request_id q) = false /\
   same_some (authorization_id q') (authorization_id q) = false).
Proof.
  unfold collision. destruct (bool_decide_reflect (quote_id q' = quote_id q)); [naive_solver|].
  cbn [negb]. destruct (bool_decide_reflect (quoting_status q' = quoting_status q)); [naive_solver|].
  repeat case_match; naive_solver.
Qed.

Lemma collision_sym q q' : collision q q' = None -> collision q' q = None.
Proof.
  rewrite !collision_None, (same_some_sym (quote_request_id q)), (same_some_sym (authorization_id q)). naive_solver.
Qed.

(** A changed row keeps clear of the others when its authorization is its own or none. *)
Lemma fits_with_state t q s a now :
  fits t q -> a = authorization_id q \/ a = None -> fits t (with_state s a now q).
Proof.
  intros Hq Ha j q' Hj. specialize (Hq j q' Hj). apply collision_None in Hq. apply collision_None. cbn.
  destruct Hq as [|(? & ? & ?)]; [by left|right]. split_and!; [done|done|].
  destruct Ha as [->| ->]; [done|]. unfold same_some. case_bool_decide as Hs; [|done].
  cbn. apply bool_decide_eq_false. intros Hn. rewrite Hn in Hs. by destruct Hs.
Qed.

(** Replacing or adding a row that fits. *)
Lemma fits_insert t q :
  (forall i x, t !! i = Some x -> quote_id x = i) -> (forall i x, t !! i = Some x -> fits t x) -> fits t q ->
  forall i x, <[quote_id q := q]> t !! i = Some x -> fits (<[quote_id q := q]> t) x.
Proof.
  intros Hk Hfits Hq i x Hx j y Hy.
  apply lookup_insert_Some in Hx as [[<- <-]|[Hi Hx]], Hy as [[<- <-]|[Hj Hy]].
  - apply collision_None. by left.
  - by eapply Hq.
  - apply collision_sym. by eapply Hq.
  - by eapply Hfits.
Qed.

Section Edited.
Context (allow : StatusQuote -> string -> Prop) (t : gmap uuid StatusQuote)
  (Hkeyed : forall i q, t !! i = Some q -> quote_id q = i)
  (Hfits : forall i q, t !! i = Some q -> fits t q)
  (Hshape : forall i q, t !! i = Some q -> shape q).

Lemma edit_keyed t' : edit allow t t' -> forall i q, t' !! i = Some q -> quote_id q = i.
Proof using Hkeyed.
  intros He i q. destruct He; [apply Hkeyed|..];
    try (rewrite lookup_insert_Some; intros [[<- <-]|[_ Hq]]; [done|by apply Hkeyed]).
  rewrite lookup_update_where. destruct (t !! i) as [x|] eqn:Hx; [|done]. apply Hkeyed in Hx.
  intros [= <-]. by destruct (_ && _).
Qed.

Lemma edit_fits t' : edit allow t t' -> forall i q, t' !! i = Some q -> fits t' q.
Proof using Hfits Hkeyed.
  intros He. destruct He as [|q _ Hq|q a now Hq _ _ Ha|q now Hq _|q now Hq _ _|i now|q s a now i Hq _ Ha].
  1: done.
  1: by apply fits_insert.
  1,5: by apply (fits_insert t (with_state _ _ now q)).
  1,2: apply (fits_insert t (with_state _ _ now q)); [done|done|apply fits_with_state; [by eapply Hfits|auto]].
  intros j x Hx k y Hy. rewrite lookup_update_where in Hx, Hy.
  destruct (t !! j) as [x0|] eqn:Hj; [|done]. destruct (t !! k) as [y0|] eqn:Hk; [|done].
  specialize (Hfits j x0 Hj k y0 Hk). apply collision_None in Hfits. apply collision_None.
  injection Hx as <-. injection Hy as <-. by repeat case_match.
Qed.

Lemma edit_shape t' : edit allow t t' -> forall i q, t' !! i = Some q -> shape q.
Proof using Hshape.
  intros He i x. destruct He as [|q _ _ Hq|q a now Hq Hs _ _|q now Hq Hs|q now Hq Hs Ha|j now|q s a now j Hq Hr _];
    [apply Hshape|..];
    try (rewrite lookup_insert_Some; intros [[_ <-]|[_ Hx]]; [|by eapply Hshape]); [done|..].
  1-3,5: specialize (Hshape _ _ Hq); unfold shape in *; cbn.
  - rewrite Hs in Hshape. destruct (quoting_status q), (quoted_status q) as [[]|]; naive_solver.
  - rewrite Hs in Hshape. destruct (quoting_status q), (quoted_status q) as [[]|]; naive_solver.
  - destruct (quoting_status q), (quoted_status q) as [[]|]; naive_solver.
  - rewrite Hr in *. by destruct (quoted_status q) as [[]|].
  - rewrite lookup_update_where. destruct (t !! i) as [q|] eqn:Hq; [|done]. specialize (Hshape _ _ Hq).
    intros [= <-]. destruct (targets (Local j) q && in_state Accepted q) eqn:Hc; [|done].
    apply andb_true_iff in Hc as [Ht _]. unfold targets in Ht. boolp.
    unfold shape in *. cbn. rewrite Ht in *. destruct (quoting_status q); naive_solver.
Qed.

(** An edit keeps every row, and moves the consent of local quotes only forward. *)
Lemma edit_kept t' : edit allow t t' -> kept t t'.
Proof using Hshape.
  intros He. destruct He as [|q Hq|q a now Hq Hs _ _|q now Hq Hs|q now Hq Hs Ha|j now|q s a now j Hq Hr _];
    [done|apply kept_insert; congruence|..].
  1-3,5: apply kept_insert; rewrite Hq; intros q' [= <-]; split; [apply same_edge_state|]; intros i Hi; cbn.
  - rewrite Hs. apply rtc_once. constructor.
  - rewrite Hs. apply rtc_once. constructor.
  - specialize (Hshape _ _ Hq). unfold shape in Hshape. rewrite Hi in Hshape.
    destruct (quoted_status q) as [[b|b]|].
    1,3: destruct Hshape as (_ & [Hx | [Hx | Hx]]); rewrite Hx in *; [..|done]; apply rtc_once; constructor.
    + destruct Ha as [[a Ha]|[? [=]]]. rewrite Ha in Hshape. destruct Hshape as [_ Hstate].
      destruct (state q); try done; apply rtc_once; constructor.
  - congruence.
  - intros i q Hq. rewrite lookup_update_where, Hq. eexists. split; [done|].
    destruct (_ && _) eqn:Hc; [|done]. apply andb_true_iff in Hc as [_ Hc]. unfold in_state in Hc. boolp.
    split; [apply same_edge_state|]. intros _ _. rewrite Hc. apply rtc_once. constructor.
Qed.

(** A local quote of a remote status is accepted by an edit that is allowed to. *)
Lemma edit_accepted t' i q l r :
  edit allow t t' -> t' !! i = Some q -> quoting_status q = Local l -> quoted_status q = Some (Remote r) ->
  state q = Accepted ->
  t !! i = Some q \/ exists q0 a now, t !! i = Some q0 /\ state q0 = Pending /\ allow q0 a /\
    q = with_state Accepted (Some a) now q0.
Proof using Type.
  intros He Hi Hl Hr Hs.
  destruct He as [|x Hx _ _ Hnew|x a now Hx Hp Ha _|x now Hx _|x now Hx _ _|j now|x s a now j Hx Hj _]; [by left|..];
    try (apply lookup_insert_Some in Hi as [[<- <-]|[_ Hi]]; [|by left]); cbn in *; try done.
  - destruct (Hnew l Hl Hs) as [b Hb]. congruence.
  - right. exists x, a, now. auto.
  - rewrite lookup_update_where in Hi. destruct (t !! i) as [x|] eqn:Hx; [|done]. injection Hi as <-.
    destruct (_ && _); [done|by left].
  - congruence.
Qed.
End Edited.

Lemma edit_ok allow d d' :
  quotes_ok d -> edit allow (quotes d) (quotes d') -> Inbox.quote_requests (inbox_of d') = request_ids (quotes d') ->
  quotes_ok d'.
Proof.
  intros [Hk Hf Hs _] He Hm. split; [by eapply edit_keyed|by eapply edit_fits|by eapply edit_shape|done].
Qed.

(** * Purges *)

Lemma purged_quote_Some gone q q' :
  purged_quote gone q = Some q' ->
  follows_on q q' /\ authorization_id q' = authorization_id q /\ (shape q -> shape q') /\
  (q' = q \/ quoted_status q' = None).
Proof.
  unfold purged_quote. destruct q as [i quoting target url s r a c u]. cbn.
  destruct quoting as [l|l], target as [[b|b]|]; try destruct (gone l) eqn:El; try destruct (gone b) eqn:Eb;
    intros [= <-]; (split; [split; [split_and!; cbn; [done|done| |done|done]|done]|]);
    first [by left | right; split; [done|by exists b] | by split_and!; auto].
Qed.

Lemma purged_quote_None gone q :
  purged_quote gone q = None -> exists l, quoting_status q = Local l /\ gone l = true.
Proof.
  unfold purged_quote. destruct (quoting_status q) as [l|l]; [|done].
  destruct (gone l) eqn:E; [|done]. by exists l.
Qed.

Definition view (d : Db) := (quotes d, Inbox.quote_requests (inbox_of d)).

Definition purge_in (due : bool) (account : uuid) (d : Db) : gmap uuid StatusQuote :=
  if due then omap (purged_quote (written_by account d)) (quotes d) else quotes d.

Lemma purge_quotes due account w d :
  quotes_ok d ->
  view (store_of (purge_suspended_local_account due account) w d) =
  (purge_in due account d, request_ids (purge_in due account d)).
Proof. intros Hok. unfold view. destruct due; [done|]. cbn. by rewrite (ok_mirror _ Hok). Qed.

Lemma purge_ok due account w d :
  quotes_ok d -> quotes_ok (store_of (purge_suspended_local_account due account) w d).
Proof.
  intros Hok. pose proof (purge_quotes due account w d Hok) as Hv. unfold view in Hv.
  injection Hv as Hq Hm. set (d' := store_of _ w d) in *.
  assert (H : forall i q', quotes d' !! i = Some q' -> exists q, quotes d !! i = Some q /\ follows_on q q' /\
    authorization_id q' = authorization_id q /\ (shape q -> shape q')).
  { intros i q' Hi. rewrite Hq in Hi. unfold purge_in in Hi. destruct due.
    - rewrite lookup_omap in Hi. destruct (quotes d !! i) as [q|]; [|done]. exists q. split; [done|].
      by apply purged_quote_Some in Hi as (? & ? & ? & _).
    - exists q'. by split_and!. }
  split.
  - intros i q' Hi. destruct (H i q' Hi) as (q & Hi0 & [(Hid & _) _] & _). rewrite Hid. by apply (ok_keyed d Hok).
  - intros i q' Hi j r' Hj. destruct (H i q' Hi) as (q & Hi0 & [(Hid & Hby & _ & _ & Hr) _] & Ha & _).
    destruct (H j r' Hj) as (r & Hj0 & [(Hid' & Hby' & _ & _ & Hr') _] & Ha' & _).
    pose proof (ok_fits d Hok i q Hi0 j r Hj0) as Hf. apply collision_None in Hf. apply collision_None.
    by rewrite Hid, Hid', Hby, Hby', Hr, Hr', Ha, Ha'.
  - intros i q' Hi. destruct (H i q' Hi) as (q & Hi0 & _ & _ & Hs). by apply Hs, (ok_shape d Hok i).
  - by rewrite Hm, Hq.
Qed.

(** * Operations are edits *)

(** What a run that ends in [d'] did to the table. *)
Definition edited (allow : StatusQuote -> string -> Prop) (d d' : Db) : Prop :=
  edit allow (quotes d) (quotes d') /\ Inbox.quote_requests (inbox_of d') = request_ids (quotes d').

Definition edits (allow : StatusQuote -> string -> Prop) {E A} (m : M Db E A) : Prop :=
  forall w d, quotes_ok d -> edited allow d (store_of m w d).

Lemma view_ok d d' : view d' = view d -> quotes_ok d -> quotes_ok d'.
Proof. intros [= Hq Hr] [Hk Hf Hs Hm]. split; rewrite ?Hq, ?Hr; auto. Qed.

Lemma edited_view allow d d' : quotes_ok d -> view d' = view d -> edited allow d d'.
Proof. intros Hok [= Hq Hr]. split; rewrite ?Hq; [constructor|]. rewrite Hr. apply Hok. Qed.

Section Run.
Context (allow : StatusQuote -> string -> Prop).

Lemma edits_keeps {E A} (m : M Db E A) : keeps view m -> edits allow m.
Proof using Type. intros Hm w d Hok. by apply edited_view. Qed.

(** An edit after and before runs that leave the table alone. *)
Lemma edits_after {E A B} (m : M Db E A) (k : A -> M Db E B) :
  keeps view m -> (forall a, edits allow (k a)) -> edits allow (m ≫= k).
Proof using Type.
  intros Hm Hk w d Hok. specialize (Hm w d). unfold store_of, mbind, M_bind in *.
  destruct (m w d) as [[[a|e] w1] d1]; cbn in *; [|by apply edited_view].
  specialize (Hk a w1 d1 (view_ok d d1 Hm Hok)). injection Hm as Hq _. unfold edited in *. by rewrite <- Hq.
Qed.

Lemma edited_bind {E A B} (m : M Db E A) (k : A -> M Db E B) w d :
  edited allow d (store_of m w d) -> (forall a, keeps view (k a)) -> edited allow d (store_of (m ≫= k) w d).
Proof using Type.
  intros Hm Hk. unfold store_of, mbind, M_bind in *. destruct (m w d) as [[[a|e] w1] d1]; cbn in *; [|done].
  specialize (Hk a w1 d1). unfold store_of in Hk. injection Hk as Hq Hr. unfold edited in *. by rewrite Hr, Hq.
Qed.

Lemma edited_now {E A} (k : time -> M Db E A) w d :
  (forall now w', edited allow d (store_of (k now) w' d)) -> edited allow d (store_of (now ← now_utc; k now) w d).
Proof using Type. intros Hk. apply Hk. Qed.

Lemma edits_before {E A B} (m : M Db E A) (k : A -> M Db E B) :
  edits allow m -> (forall a, keeps view (k a)) -> edits allow (m ≫= k).
Proof using Type. intros Hm Hk w d Hok. apply edited_bind; auto. Qed.

Lemma edits_transaction {E A} (m : M Db E (txn A)) : edits allow m -> edits allow (transaction m).
Proof using Type.
  intros Hm w d Hok. specialize (Hm w d Hok). unfold store_of, transaction in *.
  destruct (m w d) as [[[[a|a]|e] w1] d1]; cbn in *; try done; by apply edited_view.
Qed.

Lemma edits_answered (m : Op Db (txn Z)) : edits allow m -> edits allow (Inbox.answered m).
Proof using Type.
  intros Hm w d Hok. specialize (edits_transaction m Hm w d Hok). unfold store_of, Inbox.answered.
  by destruct (transaction m w d) as [[[z|e] w1] d1].
Qed.

Lemma edits_map_err {E1 E2 A} (g : E1 -> E2) (m : M Db E1 A) : edits allow m -> edits allow (map_err g m).
Proof using Type.
  intros Hm w d Hok. specialize (Hm w d Hok). unfold store_of, map_err in *. by destruct (m w d) as [[[a|e] w1] d1].
Qed.

(** ** Writing a row *)

Lemma find_quote_Some p d q :
  quotes_ok d -> find_quote p d = Some q -> quotes d !! quote_id q = Some q /\ p q = true.
Proof using Type. intros Hok. apply head_row_keyed. apply Hok. Qed.

Lemma unique_fits q d : unique q d = None -> fits (quotes d) q.
Proof using Type.
  unfold unique. intros Hu j q' Hj. destruct (collision q q') eqn:Hc; [|done].
  assert (Hin : s ∈ omap (collision q) (rows (quotes d))).
  { apply list_elem_of_omap. exists q'. split; [|done]. apply elem_of_rows. by exists j. }
  destruct (omap _ _); [by apply not_elem_of_nil in Hin|done].
Qed.

Lemma write_edited q w d :
  quotes_ok d -> (fits (quotes d) q -> edit allow (quotes d) (<[quote_id q := q]> (quotes d))) ->
  edited allow d (store_of (write q) w d).
Proof using Type.
  intros Hok Hedit. unfold store_of, write, mbind, M_bind. cbn. destruct (unique q d) eqn:Hu; cbn.
  - by apply edited_view.
  - split; [|done]. by apply Hedit, unique_fits.
Qed.

Lemma transition_edits request s a :
  match s with
  | Accepted => exists b, a = Some b /\ forall q, quote_request_id q = Some request -> allow q b
  | Rejected => a = None
  | _ => False
  end -> edits allow (transition_quote_request request s a).
Proof using Type.
  intros Hs w d Hok. unfold transition_quote_request, quote_by_request_id.
  change (store_of _ w d) with (store_of (match find_quote (requested_as request) d with
    | None => mret None
    | Some q => if negb (in_state Pending q) then mret (Some q)
                else now ← now_utc; q ← write (with_state s a now q); mret (Some q) end) w d).
  destruct (find_quote _ d) as [q|] eqn:Hq; [|by apply edited_view].
  apply find_quote_Some in Hq as [Hq Hr]; [|done]. unfold requested_as in Hr. boolp.
  destruct (in_state Pending q) eqn:Hp; cbn [negb]; [|by apply edited_view]. unfold in_state in Hp. boolp.
  apply edited_now. intros now w'. apply (edited_bind (write _)); [|done]. apply write_edited; [done|]. intros Hfits. cbn.
  destruct s; try done.
  - destruct Hs as (b & -> & Hb). constructor; auto.
  - subst a. by constructor.
Qed.

Lemma revoke_edits q d w :
  quotes_ok d -> quotes d !! quote_id q = Some q ->
  is_Some (authorization_id q) \/ (exists b, quoted_status q = Some (Local b)) ->
  edited allow d (store_of (revoke q) w d).
Proof using Type.
  intros Hok Hq Ha. unfold revoke. destruct (in_state Revoked q) eqn:Hs; [by apply edited_view|].
  unfold in_state in Hs. boolp. apply edited_now. intros now w'.
  apply (edited_bind (write _)); [|done]. apply write_edited; [done|].
  intros _. by apply (edit_revoke allow _ q).
Qed.

Lemma revoke_authorization_edits a : edits allow (revoke_quote_authorization a).
Proof using Type.
  intros w d Hok. unfold revoke_quote_authorization, quote_by_authorization_id.
  change (store_of _ w d) with (store_of (match find_quote (authorized_as a) d with
    | None => mret None | Some q => revoke q end) w d).
  destruct (find_quote _ d) as [q|] eqn:Hq; [|by apply edited_view].
  apply find_quote_Some in Hq as [Hq Ha]; [|done]. unfold authorized_as in Ha. boolp.
  apply revoke_edits; [done|done|]. left. by exists a.
Qed.

Lemma revoke_status_edits i r : edits allow (revoke_status_quote (Local i) r).
Proof using Type.
  intros w d Hok. unfold revoke_status_quote, quote_for_status.
  change (store_of _ w d) with (store_of (match find_quote (quotes_by r) d with
    | None => mret None
    | Some q => if negb (targets (Local i) q) then mret None else revoke q end) w d).
  destruct (find_quote _ d) as [q|] eqn:Hq; [|by apply edited_view].
  apply find_quote_Some in Hq as [Hq _]; [|done].
  destruct (targets (Local i) q) eqn:Ht; [|by apply edited_view]. unfold targets in Ht. boolp.
  apply revoke_edits; [done|done|]. right. by exists i.
Qed.

Lemma mark_edits i : edits allow (mark_quotes_target_deleted (Local i)).
Proof using Type. intros w d Hok. split; [|done]. cbn. constructor. Qed.

Lemma insert_edits r t url s request a :
  (forall i now, shape (mkQuote i r (Some t) url s request a now now)) ->
  (forall i, r = Local i -> s = Accepted -> exists b, t = Local b) ->
  edits allow (insert_quote r t url s request a).
Proof using Type.
  intros Hshape Hnew. unfold insert_quote. intros w d Hok. cbn.
  unfold store_of, mbind, M_bind. cbn. case_bool_decide as Htaken; [by apply edited_view|].
  destruct (referenced t d); [|by apply edited_view]. cbn [negb].
  match goal with |- context [write ?q ?v d] =>
    pose proof (write_edited q v d Hok) as Hw; unfold store_of in Hw; apply Hw end.
  intros Hfits. cbn. apply (edit_insert allow (quotes d) (mkQuote _ r (Some t) url s request a _ _)); cbn; [|done..|].
  - by apply eq_None_not_Some.
  - intros i Hi Hs. destruct (Hnew i Hi Hs) as [b ->]. by exists b.
Qed.

Lemma upsert_edits quoting t url s a : edits allow (upsert_remote_status_quote quoting t url s a).
Proof using Type.
  unfold upsert_remote_status_quote, quote_for_status. apply edits_after; [done|]. intros present.
  destruct present; cbn [negb]; [|by apply edits_keeps].
  intros w d Hok.
  change (store_of _ w d) with (store_of (match find_quote (quotes_by (Remote quoting)) d with
    | Some q => if negb (bool_decide (quoted_activitypub_id q = url))
                then throw (InvalidInput "a remote quote target cannot change")
                else now ← now_utc; write (with_state s a now q)
    | None => insert_quote (Remote quoting) t url s None a end) w d).
  destruct (find_quote _ d) as [q|] eqn:Hq; [|by apply insert_edits].
  apply find_quote_Some in Hq as [Hq Hr]; [|done]. unfold quotes_by in Hr. boolp.
  case_bool_decide; cbn [negb]; [|by apply edited_view]. apply edited_now. intros now w'.
  apply write_edited; [done|]. intros Hfits. by apply (edit_remote allow _ q s a _ quoting).
Qed.

Lemma create_edits quoting t url s request a :
  (forall i now, shape (mkQuote i (Local quoting) (Some t) url s request a now now)) ->
  (s = Accepted -> exists b, t = Local b) ->
  edits allow (create_local_status_quote quoting t url s request a).
Proof using Type.
  intros Hshape Hnew. unfold create_local_status_quote. apply edits_after; [done|]. intros [|]; cbn [negb];
    [|by apply edits_keeps]. apply insert_edits; auto.
Qed.
End Run.

(** * Frames *)

Section Frames.
Context (uuid_text : uuid -> string) (parse_uuid : string -> option uuid) (public_url : string -> string)
  (base_url : string) (url_origin : string -> option (string * string)) (digest : JsonValue -> option string)
  (prove : JsonValue -> result JsonValue RoostyError) (federation_enabled : bool)
  (status_document : StatusActivityKind -> uuid -> Statuses.LocalStatus -> option NoteQuote ->
                     result (JsonValue * string) RoostyError)
  (fetch_json : string -> option JsonValue).

(** The inbox without quotes does not touch the requests of quotes. *)
Lemma requests_zoom {T A} `{Part T Interactions.Db} (m : Op T A) :
  keeps Inbox.quote_requests (zoom (zoom m : Op Interactions.Db A)).
Proof using Type. by apply keeps_zoom. Qed.

Lemma requests_replay activity signer outcome :
  keeps Inbox.quote_requests (Inbox.register_inbox_replay uuid_text digest activity signer outcome).
Proof using Type.
  unfold Inbox.register_inbox_replay, Inbox.register_inbox_activity, Inbox.classify_inbox_activity. solve_keeps.
Qed.

Lemma requests_ignored activity signer :
  keeps Inbox.quote_requests (Inbox.finish_ignored_inbox_activity uuid_text digest activity signer).
Proof using Type.
  apply InboxInvariant.keeps_answered. apply keeps_bind; [apply requests_replay|done].
Qed.

Lemma requests_new activity signer :
  keeps Inbox.quote_requests (Inbox.is_new_inbox_activity uuid_text digest activity signer).
Proof using Type. apply keeps_bind; [apply requests_replay|done]. Qed.

Lemma requests_recorded activity signer effect :
  keeps Inbox.quote_requests effect ->
  keeps Inbox.quote_requests (Inbox.recorded uuid_text digest activity signer effect).
Proof using Type.
  intros He. apply InboxInvariant.keeps_answered, keeps_bind; [apply requests_new|].
  intros [|]; cbn [when]; solve_keeps.
Qed.

Lemma requests_local_status url :
  keeps Inbox.quote_requests (Inbox.local_status_id_from_url parse_uuid base_url url).
Proof using Type. apply InboxInvariant.reads_keeps, InboxInvariant.reads_local_status. Qed.

Ltac requests :=
  repeat first
    [ apply requests_ignored
    | apply requests_recorded
    | apply requests_local_status
    | progress unfold Inbox.dispatch, Inbox.answer, Inbox.process_block, Inbox.process_undo, Inbox.process_undo_block,
        Inbox.process_undo_announce, Inbox.process_undo_like, Inbox.process_undo_follow, Inbox.process_follow_answer,
        Inbox.process_like, Inbox.process_announce, Inbox.announce_target, Inbox.reblog_and_notify,
        Inbox.process_follow, Inbox.follow_and_notify, Inbox.accept_follow, Inbox.follow_response_activity
    | progress solve_keeps ].

Lemma requests_inbox activity signer :
  keeps Inbox.quote_requests
    (Inbox.process_inbox uuid_text parse_uuid public_url base_url url_origin digest prove activity signer).
Proof using Type. unfold Inbox.process_inbox. requests. Qed.

(** Inner operations do not touch the quotes. *)
Lemma view_inbox {A} (m : Op Inbox.Db A) : keeps Inbox.quote_requests m -> keeps view (on_inbox m).
Proof using Type.
  intros Hm. unfold on_inbox, on_timelines.
  apply (keeps_zoom_part view (fun t => Inbox.quote_requests (Timelines.inbox t))).
  - intros s t Ht. unfold view. cbn. f_equal. exact Ht.
  - by apply (keeps_zoom_part _ Inbox.quote_requests).
Qed.

Lemma view_requests {A} (m : Op NotificationRequests.Db A) : keeps view (on_requests m).
Proof using Type. apply view_inbox. by apply keeps_zoom. Qed.

Lemma view_relations {A} (m : Op Relations.Db A) : keeps view (on_relations m).
Proof using Type.
  unfold on_relations, on_timelines.
  apply (keeps_zoom_part view (fun t => Inbox.quote_requests (Timelines.inbox t))).
  - intros s t Ht. unfold view. cbn. f_equal. exact Ht.
  - unfold Timelines.on_relations, Timelines.on_interactions.
    apply (keeps_zoom_part _ Inbox.quote_requests); [done|]. by apply keeps_zoom.
Qed.

Lemma view_local_status url :
  keeps view (on_inbox (Inbox.local_status_id_from_url parse_uuid base_url url)).
Proof using Type. apply view_inbox, requests_local_status. Qed.

Lemma view_ignored activity signer : keeps view (finish_ignored uuid_text digest activity signer).
Proof using Type. apply view_inbox, requests_ignored. Qed.

Lemma view_delivery {A} (m : Op Delivery.Db A) : keeps view (on_delivery m).
Proof using Type. apply keeps_bind; [done|]. intros d. apply view_requests. Qed.

Ltac viewed :=
  repeat first
    [ done
    | match goal with |- forall _, _ => intro end
    | apply view_requests | apply view_relations | apply view_local_status | apply view_ignored | apply view_delivery
    | apply keeps_bind | apply keeps_lift_option | apply keeps_lift_result
    | progress unfold quote_job, enqueue, note_quote_of, quote_for_status, quote_by_request_id,
        quote_by_authorization_id, remote_actor_may_quote, accepts, enqueue_status_activity,
        enqueue_quote_request_in_transaction, enqueue_quote_revocation_in_transaction, announce_change,
        resolve_local_target, resolve_remote_target, resolve_inbound_quote, follows_author
    | match goal with |- keeps _ (match ?x with _ => _ end) => destruct x end ].

Lemma view_announce q quoting :
  keeps view (announce_change prove federation_enabled status_document q quoting).
Proof using Type. viewed. Qed.

Lemma edits_recorded allow activity signer effect :
  edits allow effect -> edits allow (recorded uuid_text digest activity signer effect).
Proof using Type.
  intros He. apply edits_answered, edits_after; [apply view_inbox, requests_new|].
  intros [|]; cbn [when]; [|by apply edits_keeps]. by apply edits_before.
Qed.

Lemma request_edits allow activity i signer :
  edits allow (process_quote_request uuid_text parse_uuid public_url base_url digest activity i signer).
Proof using Type.
  unfold process_quote_request. destruct (quote_request_of uuid_text activity) as [r|]; [|by apply edits_keeps].
  destruct (_ || _); [by apply edits_keeps|]. apply edits_after; [viewed|]. intros found.
  apply edits_after; [viewed|]. intros d. destruct found as [[target]|]; [|apply edits_keeps; viewed].
  destruct (find_local d target) as [s|]; [|apply edits_keeps; viewed].
  apply edits_after; [viewed|]. intros accepted. destruct (negb _); [by apply edits_keeps|].
  apply edits_after; [destruct accepted; viewed|]. intros a. apply edits_after; [viewed|]. intros j.
  apply edits_recorded. unfold answer_request. apply edits_after; [viewed|]. intros _.
  apply edits_after; [viewed|]. intros d1. destruct (Inbox.remote_status_of_url _ _) as [[quoting row]|];
    [|by apply edits_keeps].
  apply edits_before; [apply upsert_edits|]. intros _. destruct accepted; viewed.
Qed.

Lemma delete_edits allow activity signer :
  edits allow (process_authorization_delete uuid_text digest prove federation_enabled status_document activity signer).
Proof using Type.
  unfold process_authorization_delete. destruct (delete_of uuid_text activity) as [[actor object]|];
    [|by apply edits_keeps].
  apply edits_after; [viewed|]. intros found. apply edits_after; [viewed|]. intros d.
  destruct found as [q|]; [|by apply edits_keeps].
  destruct (quoted_status q) as [[|target]|]; try by apply edits_keeps.
  cbv zeta. destruct (_ || _); [by apply edits_keeps|]. apply edits_before; [|done].
  apply edits_recorded, edits_before; [apply revoke_authorization_edits|]. intros. apply view_announce.
Qed.

(** The one who wrote a remote status. *)
Definition authored (d : Db) (r author : uuid) : Prop :=
  exists s, find_remote d r = Some s /\ Statuses.rs_actor s = author.

(** What an answer of [signer] may make an accepted quote. *)
Definition consented (d : Db) (signer : Inbox.Signer) (q : StatusQuote) (a : string) : Prop :=
  forall l r, quoting_status q = Local l -> quoted_status q = Some (Remote r) ->
  authored d r (account_uuid (Inbox.signer_id signer)) /\ Inbox.is_https a = true /\
  Inbox.same_url_origin url_origin a (Inbox.signer_url signer) = true.

Lemma edit_mono (allow allow' : StatusQuote -> string -> Prop) t t' :
  (forall q a, t !! quote_id q = Some q -> allow q a -> allow' q a) -> edit allow t t' -> edit allow' t t'.
Proof using Type.
  intros Hallow He. destruct He; [constructor|by constructor|..].
  - constructor; auto.
  - by apply edit_reject.
  - by apply edit_revoke.
  - constructor.
  - by eapply edit_remote.
Qed.

(** Requests are unique. *)
Lemma request_unique d q q0 request :
  quotes_ok d -> quotes d !! quote_id q = Some q -> quotes d !! quote_id q0 = Some q0 ->
  quote_request_id q = Some request -> quote_request_id q0 = Some request -> q = q0.
Proof using Type.
  intros Hok Hq Hq0 Hr Hr0. destruct (decide (quote_id q = quote_id q0)) as [Heq|Hne]; [congruence|].
  pose proof (ok_fits d Hok _ _ Hq0 _ _ Hq) as Hf. apply collision_None in Hf as [|(_ & Hf & _)]; [done|].
  exfalso. unfold same_some in Hf. rewrite Hr, Hr0 in Hf. rewrite !bool_decide_eq_true_2 in Hf by done. done.
Qed.

Lemma apply_answer_edits activity signer request l s a w d q0 (P : StatusQuote -> string -> Prop) :
  quotes_ok d -> find_quote (requested_as request) d = Some q0 ->
  match s with Accepted => exists b, a = Some b /\ P q0 b | Rejected => a = None | _ => False end ->
  edited P d (store_of (apply_answer uuid_text digest prove federation_enabled status_document activity signer
                          request l s a) w d).
Proof using Type.
  intros Hok Hq Hs.
  apply find_quote_Some in Hq as [Hq Hreq]; [|done]. unfold requested_as in Hreq. boolp.
  assert (He : edits (fun q b => quote_request_id q = Some request /\ a = Some b)
    (apply_answer uuid_text digest prove federation_enabled status_document activity signer request l s a)).
  { apply edits_recorded, edits_before; [|intros; apply view_announce]. apply transition_edits.
    destruct s; try done. destruct Hs as (b & -> & _). by exists b. }
  destruct (He w d Hok) as [He1 Hm]. split; [|done]. revert He1. apply edit_mono. intros q b Hqq [Hr ->].
  rewrite (request_unique d q q0 request) by done. destruct s; try done. by destruct Hs as (? & [= <-] & ?).
Qed.

Lemma answer_edited activity signer accepted w d :
  quotes_ok d ->
  edited (fun q a => accepted = true /\ consented d signer q a) d (store_of (process_quote_answer uuid_text public_url url_origin digest prove
    federation_enabled status_document activity signer accepted) w d).
Proof using Type.
  intros Hok. set (P := fun q a => _). unfold process_quote_answer.
  destruct (quote_answer_of uuid_text activity) as [[[actor request] result]|]; [|by apply edited_view].
  unfold quote_by_request_id.
  match goal with |- edited _ _ (store_of (gets ?f ≫= ?k) _ _) => change (store_of (gets f ≫= k) w d) with (store_of (k (f d)) w d) end.
  cbv beta.
  match goal with |- edited _ _ (store_of (gets ?f ≫= ?k) _ _) => change (store_of (gets f ≫= k) w d) with (store_of (k (f d)) w d) end.
  cbv beta. destruct (find_quote _ d) as [q0|] eqn:Hq; [|by apply edited_view].
  apply edited_bind; [|done]. destruct (negb _); [by apply edited_view|].
  assert (Hignored : edited P d (store_of (finish_ignored uuid_text digest activity signer) w d)).
  { apply edited_view; [done|apply view_ignored]. }
  destruct (quoting_status q0) as [l|l] eqn:Hl; [|done].
  destruct (quoted_status q0) as [[r|r]|] eqn:Hr; try done.
  destruct (find_remote d r) as [t|] eqn:Ht; [|done].
  destruct (Statuses.rs_actor t =? _)%N eqn:Hauthor; cbn [negb]; [|done]. apply N.eqb_eq in Hauthor.
  destruct accepted; [|by eapply apply_answer_edits]. unfold process_acceptance.
  match goal with |- edited _ _ (store_of (gets ?f ≫= ?k) _ _) => change (store_of (gets f ≫= k) w d) with (store_of (k (f d)) w d) end.
  cbv beta. destruct result as [a|]; [|by apply edited_view].
  destruct (find_local d l) as [s|]; [|done].
  destruct (_ || _) eqn:Hc; [by apply edited_view|]. apply orb_false_iff in Hc as [_ Hc].
  apply negb_false_iff in Hc. unfold authorizes in Hc. apply andb_true_iff in Hc as [Hc Horigin].
  apply andb_true_iff in Hc as [_ Hhttps].
  eapply apply_answer_edits; [done|done|]. exists (auth_id a). split; [done|]. split; [done|].
  intros l' r' _ Hr'. split; [|done]. exists t. split; [|done]. congruence.
Qed.

Abbreviation inner_inbox :=
  (Inbox.process_inbox uuid_text parse_uuid public_url base_url url_origin digest prove).

(** What the inbox leaves to the handlers of quotes, it has not changed. *)
Lemma inner_none activity signer w d :
  inner_inbox activity signer w d = (Ok None, w, d) \/
  exists z w' d', inner_inbox activity signer w d = (Ok (Some z), w', d').
Proof using Type.
  destruct (Inbox.inbound_activity_type uuid_text activity ≫= Inbox.persisted) as [kind|] eqn:Hk.
  2:{ right. unfold Inbox.process_inbox. rewrite Hk. by eexists _, _, _. }
  destruct (Inbox.string_member uuid_text "id" activity) as [i|] eqn:Hi.
  2:{ right. unfold Inbox.process_inbox. rewrite Hk, Hi. by eexists _, _, _. }
  destruct (InboxInvariant.inbox_settles uuid_text parse_uuid public_url base_url url_origin digest prove
              activity i signer w d Hi) as [[H _]|(z & w' & d' & H & _)].
  - by exists kind.
  - by left.
  - right. by exists z, w', d'.
Qed.

Lemma inbox_edited activity signer w d :
  quotes_ok d ->
  edited (fun q a => Inbox.inbound_activity_type uuid_text activity = Some Inbox.Accept /\ consented d signer q a) d
    (store_of (process_inbox uuid_text parse_uuid public_url base_url url_origin digest prove federation_enabled
                 status_document activity signer) w d).
Proof using Type.
  clear fetch_json. intros Hok. unfold process_inbox.
  assert (Hin : on_inbox (inner_inbox activity signer) w d = (Ok None, w, d) \/
    exists z w' d', on_inbox (inner_inbox activity signer) w d = (Ok (Some z), w', d') /\ view d' = view d).
  { pose proof (view_inbox _ (requests_inbox activity signer) w d) as Hv. unfold store_of in Hv.
    destruct (inner_none activity signer w (inbox_of d)) as [H|(z & w' & i' & H)].
    - left. unfold on_inbox, on_timelines, zoom. change (get_part (get_part d)) with (inbox_of d).
      rewrite H. cbn. by destruct d as [[] ? ? ? ? ? ? ? ? ?].
    - right. unfold on_inbox, on_timelines, zoom in *. change (get_part (get_part d)) with (inbox_of d) in *.
      rewrite H in *. by eexists _, _, _. }
  destruct Hin as [H|(z & w' & d' & H & Hv)].
  2:{ unfold store_of, mbind, M_bind. rewrite H. by apply edited_view. }
  match goal with |- edited _ _ (store_of (_ ≫= ?k) _ _) => replace (store_of _ w d) with (store_of (k None) w d)
    by (unfold store_of, mbind, M_bind; by rewrite H) end.
  cbv beta iota. destruct (Inbox.is_remote_actor_lifecycle_activity _ _ _); [by apply edited_view|].
  destruct (Inbox.inbound_activity_type uuid_text activity) as [[]|] eqn:Hk; try by apply edited_view.
  - destruct (answer_edited activity signer true w d Hok) as [He Hm]. split; [|done].
    revert He. apply edit_mono. naive_solver.
  - destruct (answer_edited activity signer false w d Hok) as [He Hm]. split; [|done].
    revert He. apply edit_mono. naive_solver.
  - by apply delete_edits.
  - destruct (Inbox.string_member uuid_text "id" activity); [|by apply edited_view].
    apply edited_bind; [by apply request_edits|done].
Qed.

(** * The other operations *)

Lemma stored_edits allow status edited_ actor resolved :
  edits allow (transaction (stored ← store_inbound_quote uuid_text status edited_ actor resolved; mret (Commit stored))).
Proof using Type.
  apply edits_transaction, edits_before; [|done]. unfold store_inbound_quote.
  destruct resolved as [r|]; [|by apply edits_keeps]. apply edits_before; [apply upsert_edits|].
  intros _. viewed.
Qed.

Lemma view_resolve note actor :
  keeps view (resolve_inbound_quote uuid_text parse_uuid public_url base_url url_origin fetch_json note actor).
Proof using Type. viewed. Qed.

Lemma note_edits allow note status edited_ actor :
  edits allow (process_inbound_quote uuid_text parse_uuid public_url base_url url_origin fetch_json note status edited_ actor).
Proof using Type.
  unfold process_inbound_quote. apply edits_after; [apply view_resolve|]. intros resolved. apply stored_edits.
Qed.

Section Client.
Context (parse_text : text -> option uuid) (alphanumeric : Z -> bool).

Abbreviation resolve := (resolve_quote_target uuid_text public_url parse_text alphanumeric).

(** What quoting resolves to. *)
Definition resolved (t : ResolvedQuoteTarget) : Prop :=
  exists me raw requested content v w d w' d', resolve me raw requested content w d = (Ok (t, v), w', d').

Lemma resolve_local_shape me status s requested content w d t v w' d' :
  resolve_local_quote uuid_text public_url alphanumeric me status s requested content w d = (Ok (t, v), w', d') ->
  target t = Local status /\ target_state t = Accepted /\ target_request t = None.
Proof using Type.
  unfold resolve_local_quote. intros H. apply bind_Ok in H as (d0 & w1 & d1 & _ & H).
  apply bind_Ok in H as (b & w2 & d2 & _ & H).
  repeat match type of H with (if ?c then _ else _) _ _ = _ => destruct c; [done|] end.
  apply bind_Ok in H as (a & w3 & d3 & _ & H). by injection H as <- <- <- <-.
Qed.

Lemma resolve_remote_shape me status s requested content w d t v w' d' :
  resolve_remote_quote uuid_text public_url me status s requested content w d = (Ok (t, v), w', d') ->
  target t = Remote status /\ target_state t = Pending /\ is_Some (target_request t) /\ target_authorization t = None.
Proof using Type.
  unfold resolve_remote_quote. intros H. apply bind_Ok in H as (d0 & w1 & d1 & _ & H).
  apply bind_Ok in H as (b & w2 & d2 & _ & H). destruct (_ || _ || _); [done|].
  apply bind_Ok in H as (actor & w3 & d3 & _ & H). destruct (_ && _); [done|].
  apply bind_Ok in H as (f & w4 & d4 & _ & H). destruct (_ || _ || _); [|done].
  apply bind_Ok in H as (i & w5 & d5 & _ & H). injection H as <- <- <- <-. by split_and!.
Qed.

Lemma resolve_shape t :
  resolved t ->
  (exists b, target t = Local b) /\ target_state t = Accepted /\ target_request t = None \/
  (exists r, target t = Remote r) /\ target_state t = Pending /\ is_Some (target_request t) /\
    target_authorization t = None.
Proof using Type.
  intros (me & raw & requested & content & v & w & d & w' & d' & H). unfold resolve_quote_target in H.
  apply bind_Ok in H as (status & w1 & d1 & _ & H). apply bind_Ok in H as (d0 & w2 & d2 & _ & H).
  destruct (find_local d0 status).
  - apply resolve_local_shape in H as (? & ? & ?). left. split_and!; [by exists status|done|done].
  - apply bind_Ok in H as (s & w3 & d3 & _ & H). apply resolve_remote_shape in H as (? & ? & ? & ?).
    right. split_and!; [by exists status|done..].
Qed.

Lemma publish_edits allow status s t :
  resolved t ->
  edits allow (publish_with_quote uuid_text public_url prove federation_enabled status_document status s (Some t)).
Proof using Type.
  intros Ht. apply resolve_shape in Ht. unfold publish_with_quote, attach_quote.
  apply edits_after; [viewed|]. intros _. apply edits_before.
  - apply create_edits.
    + intros i now. unfold shape. cbn. destruct Ht as [([b ->] & -> & ->)|([r ->] & -> & Hr & ->)]; auto.
    + intros Hs. destruct Ht as [(Hb & _)|(_ & Hp & _)]; [done|]. congruence.
  - intros q. apply keeps_bind; [viewed|]. intros _. destruct (target_author t); viewed.
Qed.

Lemma local_shown (i : uuid) (s : Statuses.LocalStatus) :
  keeps (fun t : Timelines.Db => t) (Timelines.status_with_author i s).
Proof using Type. unfold Timelines.status_with_author. solve_keeps. Qed.

Lemma remote_shown (i : uuid) (s : Statuses.RemoteStatus) :
  keeps (fun t : Timelines.Db => t) (Timelines.remote_status_response_for_viewer i s).
Proof using Type. unfold Timelines.remote_status_response_for_viewer. solve_keeps. Qed.

Lemma view_shown {A} (m : Op Timelines.Db A) :
  keeps (fun t => t) m -> keeps view (api (on_timelines m)).
Proof using Type.
  intros Hm. apply keeps_map_err. apply (keeps_zoom_part view (fun t => t)); [|done].
  intros s t Ht. unfold view, inbox_of. cbn. by rewrite Ht.
Qed.

Lemma revoke_item_edits allow author status item :
  keeps (fun t => t) item.2 ->
  edits allow (revoked ← api (revoke_status_quote (Local status) item.1);
    q ← lift_option Timelines.NotFound revoked;
    api (enqueue_quote_revocation_in_transaction uuid_text public_url prove federation_enabled author q);;
    response ← api (on_timelines item.2);
    mret (Commit response) : M Db Timelines.ApiError (txn Timelines.StatusResponse)).
Proof using Type.
  intros Hitem. apply edits_before; [apply edits_map_err, revoke_status_edits|]. intros revoked.
  apply keeps_bind; [viewed|]. intros q. apply keeps_bind; [apply keeps_map_err; viewed|]. intros _.
  apply keeps_bind; [by apply view_shown|done].
Qed.

Lemma revoke_quote_edits allow me status quoting :
  edits allow (revoke_quote uuid_text public_url prove federation_enabled me status quoting).
Proof using Type.
  apply edits_transaction, edits_after; [done|]. intros d. apply edits_after; [viewed|]. intros quoted.
  destruct (negb _); [by apply edits_keeps|].
  destruct (find_local d quoting) as [s|]; [|destruct (find_remote d quoting) as [s|]].
  - apply (revoke_item_edits allow (Statuses.ls_account quoted) status (Local quoting, Timelines.status_with_author quoting s)).
    apply local_shown.
  - apply (revoke_item_edits allow (Statuses.ls_account quoted) status
             (Remote quoting, Timelines.remote_status_response_for_viewer quoting s)).
    apply remote_shown.
  - by apply edits_keeps.
Qed.

Lemma policy_view me status requested :
  keeps view (update_interaction_policy prove federation_enabled status_document me status requested).
Proof using Type.
  unfold update_interaction_policy, update_local_status_quote_policy. destruct requested; [|done].
  apply keeps_transaction. repeat first [progress viewed | apply keeps_map_err | progress unfold when | apply keeps_modify].
Qed.

(** ** Histories

    One step of the server: an activity, a note with a quote, a status that is published
    with a quote that was resolved at any time before, a revocation, a change of policy,
    the deletion of a local status, the purge of a suspended account; or anything that
    leaves the table of quotes alone. *)
Inductive step (d : Db) : option (JsonValue * Inbox.Signer) -> Db -> Prop :=
| step_inbox activity signer w :
    step d (Some (activity, signer)) (store_of (process_inbox uuid_text parse_uuid public_url base_url url_origin
      digest prove federation_enabled status_document activity signer) w d)
| step_note note status edited_ actor w :
    step d None (store_of (process_inbound_quote uuid_text parse_uuid public_url base_url url_origin fetch_json
      note status edited_ actor) w d)
| step_publish status s t w :
    resolved t ->
    step d None (store_of (transaction (n ← publish_with_quote uuid_text public_url prove federation_enabled
      status_document status s (Some t); mret (Commit n))) w d)
| step_revoke me status quoting w :
    step d None (store_of (revoke_quote uuid_text public_url prove federation_enabled me status quoting) w d)
| step_policy me status requested w :
    step d None (store_of (update_interaction_policy prove federation_enabled status_document me status requested) w d)
| step_delete status w : step d None (store_of (mark_quotes_target_deleted (Local status)) w d)
| step_purge due account w : step d None (store_of (purge_suspended_local_account due account) w d)
| step_other d' : view d' = view d -> step d None d'.

Definition may_accept (d : Db) (l : option (JsonValue * Inbox.Signer)) (q : StatusQuote) (a : string) : Prop :=
  match l with
  | Some (activity, signer) =>
      Inbox.inbound_activity_type uuid_text activity = Some Inbox.Accept /\ consented d signer q a
  | None => False
  end.

Lemma step_edited d l d' : quotes_ok d -> step d l d' ->
  edited (may_accept d l) d d' \/
  exists due account w, l = None /\ d' = store_of (purge_suspended_local_account due account) w d.
Proof using Type.
  intros Hok Hstep. destruct Hstep as [activity signer w|note status edited_ actor w|status s t w Ht
    |me status quoting w|me status requested w|status w|due account w|d' Hd];
    [left..|right; by exists due, account, w|left].
  - by apply inbox_edited.
  - by apply note_edits.
  - apply edits_transaction; [|done]. apply edits_before; [by apply publish_edits|done].
  - by apply revoke_quote_edits.
  - apply edited_view; [done|]. apply policy_view.
  - by apply mark_edits.
  - by apply edited_view.
Qed.

Inductive history (d : Db) : Db -> Prop :=
| history_start : history d d
| history_step d1 l d2 : history d d1 -> step d1 l d2 -> history d d2.

(** The local status [l] was deleted with the data of its author at some point. *)
Inductive purged_in (l : uuid) (d d' : Db) : Prop :=
| Purged d1 account w :
    history d d1 -> written_by account d1 l = true ->
    history (store_of (purge_suspended_local_account true account) w d1) d' -> purged_in l d d'.

Lemma history_kept d d' : quotes_ok d -> history d d' -> quotes_ok d' /\
  forall i q, quotes d !! i = Some q ->
    (exists q', quotes d' !! i = Some q' /\ follows_on q q') \/
    exists l, quoting_status q = Local l /\ purged_in l d d'.
Proof using Type.
  intros Hok Hh. induction Hh as [|d1 l d2 Hh1 [Hok1 Hkept] Hstep].
  { split; [done|]. intros i q Hq. left. by exists q. }
  assert (Hpast : forall l0, purged_in l0 d d1 -> purged_in l0 d d2).
  { intros l0 [d3 account w H1 H2 H3]. econstructor; [exact H1|exact H2|]. by eapply history_step. }
  pose proof Hstep as Hs. apply step_edited in Hs as [[He Hm]|(due & account & w & -> & ->)]; [| |done].
  - split; [by eapply edit_ok|]. intros i q Hq.
    destruct (Hkept i q Hq) as [(q1 & Hq1 & H1)|(l0 & Hl & Hp)]; [|right; eauto].
    apply edit_kept in He; [|apply Hok1]. destruct (He i q1 Hq1) as (q2 & Hq2 & H2). left. exists q2.
    split; [done|]. by etrans.
  - split; [by apply purge_ok|]. intros i q Hq.
    destruct (Hkept i q Hq) as [(q1 & Hq1 & H1)|(l0 & Hl & Hp)]; [|right; eauto].
    pose proof (purge_quotes due account w d1 Hok1) as Hv. unfold view in Hv. injection Hv as Hv _.
    unfold purge_in in Hv. rewrite Hv. destruct due; [|left; by exists q1].
    rewrite lookup_omap, Hq1. cbn. destruct (purged_quote _ q1) as [q2|] eqn:E.
    + left. exists q2. split; [done|]. etrans; [exact H1|]. by apply purged_quote_Some in E as [? _].
    + right. apply purged_quote_None in E as (l0 & Hl0 & Hg). exists l0.
      split; [destruct H1 as [(_ & Hby & _) _]; congruence|]. econstructor; [exact Hh1|exact Hg|constructor].
Qed.

Lemma history_ok d d' : quotes_ok d -> history d d' -> quotes_ok d'.
Proof using Type. intros Hok Hh. exact (proj1 (history_kept _ _ Hok Hh)). Qed.


(** C12. Nobody accepts the quote that a local status makes of a remote status but the
    author of that status: when a step of any history makes such a quote accepted, the
    step is an Accept, its signer wrote the quoted status, and the authorization that is
    stored is an https URL of the signer's own server.  (The quotes that remote notes make
    are accepted in other ways.) *)
Theorem remote_authors_accept_their_quotes d0 d l d' i q status target :
  quotes_ok d0 -> history d0 d -> step d l d' ->
  quotes d' !! i = Some q -> quoting_status q = Local status -> quoted_status q = Some (Remote target) ->
  state q = Accepted -> quotes d !! i <> Some q ->
  exists activity signer a,
    l = Some (activity, signer) /\ Inbox.inbound_activity_type uuid_text activity = Some Inbox.Accept /\
    authored d target (account_uuid (Inbox.signer_id signer)) /\
    authorization_id q = Some a /\ Inbox.is_https a = true /\
    Inbox.same_url_origin url_origin a (Inbox.signer_url signer) = true.
Proof using Type.
  intros Hok Hh Hstep Hq Hl Hr Hs Hnew. apply history_ok in Hh as Hok'; [|done].
  apply step_edited in Hstep as [[He _]|(due & account & w & -> & ->)]; [| |done].
  2: { exfalso. apply Hnew. pose proof (purge_quotes due account w d Hok') as Hv. unfold view in Hv.
       injection Hv as Hv _. rewrite Hv in Hq. unfold purge_in in Hq. destruct due; [|done].
       rewrite lookup_omap in Hq. destruct (quotes d !! i) as [q0|]; [|done]. cbn in Hq.
       apply purged_quote_Some in Hq as (_ & _ & _ & [->|]); [done|congruence]. }
  destruct (edit_accepted _ _ _ _ _ _ _ He Hq Hl Hr Hs) as [|(q0 & a & now & Hq0 & _ & Ha & ->)]; [done|].
  destruct l as [[activity signer]|]; [|done]. destruct Ha as [Hkind Hc].
  destruct (Hc status target Hl Hr) as (Hauthor & Hhttps & Horigin). by exists activity, signer, a.
Qed.
End Client.
End Frames.

(** * A sample

    Status 12 of account 2 waits for actor 50, whose status 22 it quotes; status 22
    quotes status 10 of account 1, which anybody may quote; and so does status 11, a
    message of account 1 to account 2. *)
Definition sample_text (u : uuid) : string := String (Ascii.ascii_of_N u) EmptyString.
Definition sample_parse (s : string) : option uuid :=
  match s with String c EmptyString => Some (Ascii.N_of_ascii c) | _ => None end.
Definition sample_document (kind : StatusActivityKind) (i : uuid) (s : Statuses.LocalStatus) (q : option NoteQuote) :
  result (JsonValue * string) RoostyError := Ok (JNull, "document"%string).

Definition far_note : string := "https://far.test/notes/22".
Definition here_note : string := InboxInvariant.sample_public ("users/alice/statuses/" ++ sample_text 10).
Definition sample_request : string := InboxInvariant.sample_public "activities/quote-request/1".
Definition sample_authorization : string := authorization_url sample_text InboxInvariant.sample_public 7.

Definition waiting_quote : StatusQuote :=
  mkQuote 40 (Local 12) (Some (Remote 22)) far_note Pending (Some sample_request) None 0 0.
Definition remote_quote (s : QuoteState) : StatusQuote :=
  mkQuote 41 (Remote 22) (Some (Local 10)) here_note s None (Some sample_authorization) 0 0.
Definition own_quote : StatusQuote := mkQuote 42 (Local 11) (Some (Local 10)) here_note Accepted None None 0 0.

Definition sample_quotes (s : QuoteState) : gmap uuid StatusQuote :=
  {[40%N := waiting_quote; 41%N := remote_quote s; 42%N := own_quote]}.

Definition sample_store (s : QuoteState) : Db :=
  mkDb (put_part (Inbox.mkDb TimelinesInvariant.sample_interactions ∅ (fun _ => "alice"%string) (fun _ => false)
                    (fun i => if (i =? 22)%N then far_note else "")%string (request_ids (sample_quotes s)))
          TimelinesInvariant.sample_timelines)
    (sample_quotes s) {[10%N := PolicyPublic]} (fun _ => []) (fun _ => []) (fun _ => "https://far.test/ann"%string)
    (fun _ => lit "ann") (fun _ => None) (fun _ => "https://far.test/inbox"%string) (fun _ => None).

(** The invariant, decided on the rows. *)
Lemma quotes_ok_rows d :
  Forall (fun r => quote_id r.2 = r.1 /\ shape r.2 /\
                   Forall (fun r' => collision r.2 r'.2 = None) (map_to_list (quotes d))) (map_to_list (quotes d)) ->
  Inbox.quote_requests (inbox_of d) = request_ids (quotes d) ->
  quotes_ok d.
Proof.
  intros Hrows Hm. rewrite Forall_forall in Hrows.
  assert (H : forall i q, quotes d !! i = Some q -> _) by
    (intros i q Hq; exact (Hrows (i, q) (proj2 (elem_of_map_to_list _ _ _) Hq))).
  split; [naive_solver| |naive_solver|done].
  intros i q Hq j q' Hq'. destruct (H i q Hq) as (_ & _ & Hf). rewrite Forall_forall in Hf.
  by apply (Hf (j, q')), elem_of_map_to_list.
Qed.

Lemma sample_ok s : quotes_ok (sample_store s).
Proof.
  apply quotes_ok_rows; [|done].
  change (map_to_list (quotes (sample_store s)))
    with (map_to_list (sample_quotes s)).
  assert (Hl : map_to_list (sample_quotes s) ≡ₚ [(40, waiting_quote); (41, remote_quote s); (42, own_quote)]%N).
  { unfold sample_quotes. rewrite !map_to_list_insert, map_to_list_singleton by done. done. }
  rewrite Hl. repeat constructor. by eexists.
Qed.

Definition accept_quote (signer : Inbox.Signer) : JsonValue :=
  JObject [("id"%string, JString "https://far.test/accepts/1"); ("type"%string, JString "Accept");
           ("actor"%string, JString (Inbox.signer_url signer)); ("object"%string, JString sample_request);
           ("result"%string, authorization_value (mkAuthorization "https://far.test/authorizations/1"
              "https://far.test/ann" (InboxInvariant.sample_public ("users/alice/statuses/" ++ sample_text 12)) far_note))].

Definition sample_inbox (activity : JsonValue) (signer : Inbox.Signer) (d : Db) : Db :=
  store_of (process_inbox sample_text sample_parse InboxInvariant.sample_public "https://here.test"
    InboxInvariant.sample_origin InboxInvariant.sample_digest InboxInvariant.sample_proof true sample_document
    activity signer) sample_world d.

Definition accepted_store : Db :=
  sample_inbox (accept_quote InboxInvariant.sample_signer) InboxInvariant.sample_signer (sample_store Accepted).
Definition accepted_quote : StatusQuote :=
  with_state Accepted (Some "https://far.test/authorizations/1"%string) (seconds 100) waiting_quote.

Lemma accepted_step fetch_json parse_text alphanumeric d :
  d = sample_store Accepted ->
  step sample_text sample_parse InboxInvariant.sample_public "https://here.test" InboxInvariant.sample_origin
    InboxInvariant.sample_digest InboxInvariant.sample_proof true sample_document fetch_json parse_text alphanumeric
    d (Some (accept_quote InboxInvariant.sample_signer, InboxInvariant.sample_signer)) accepted_store.
Proof. intros ->. unfold accepted_store, sample_inbox. constructor. Qed.

Definition purged_store : Db :=
  store_of (purge_suspended_local_account true 2) sample_world accepted_store.


Lemma remote_authors_accept_their_quotes_witness :
  exists signer a, signer = InboxInvariant.sample_signer /\ authored (sample_store Accepted) 22 (account_uuid (Inbox.signer_id signer)) /\
    authorization_id accepted_quote = Some a /\
    Inbox.same_url_origin InboxInvariant.sample_origin a (Inbox.signer_url signer) = true.
Proof.
  destruct (remote_authors_accept_their_quotes sample_text sample_parse InboxInvariant.sample_public
    "https://here.test" InboxInvariant.sample_origin InboxInvariant.sample_digest InboxInvariant.sample_proof true
    sample_document (fun _ => None) (fun _ => None) (fun _ => false) (sample_store Accepted) (sample_store Accepted)
    (Some (accept_quote InboxInvariant.sample_signer, InboxInvariant.sample_signer)) accepted_store 40 accepted_quote
    12 22) as (activity & signer & a & Hl & _ & Hauthor & Ha & _ & Horigin).
  - apply sample_ok.
  - apply history_start.
  - by apply accepted_step.
  - vm_compute. reflexivity.
  - reflexivity.
  - reflexivity.
  - reflexivity.
  - intros H. vm_compute in H. discriminate.
  - injection Hl as <- <-. exists InboxInvariant.sample_signer, a. done.
Defined.
