(* ===== verification/QuotesOutcomes.v ===== *)
(** What quotes come to: a status announces the decision that quoting it gets, a quote
    shows what its viewer may read, the document of an authorization is that of the
    accepted quote.  And what the quotes of remote notes come to: a request decides on
    the quote of any note, an edit takes back a revocation, the authorization that a
    request is answered with is lost, and the list of quotes shows private statuses. *)
From S2P Require Import Prelude Core Text.
From S2P Require Jobs Notifications Relations Statuses NotificationRequests Interactions DomainPolicy Threads Pagination Delivery Inbox InboxInvariant Timelines TimelinesInvariant.
From S2P Require Import Quotes QuotesInvariant.

#[local] Existing Instances Statuses.StatusVisibility_eq_dec Relations.RemoteFollowState_eq_dec Inbox.interactions_part
  Timelines.inbox_part Interactions.requests_part NotificationRequests.statuses_part.

Section Outcomes.
Context (uuid_text : uuid -> string) (parse_uuid : string -> option uuid) (public_url : string -> string)
  (base_url : string) (url_origin : string -> option (string * string)) (digest : JsonValue -> option string)
  (prove : JsonValue -> result JsonValue RoostyError) (federation_enabled : bool)
  (status_document : StatusActivityKind -> uuid -> Statuses.LocalStatus -> option NoteQuote ->
                     result (JsonValue * string) RoostyError)
  (fetch_json : string -> option JsonValue) (parse_text : text -> option uuid) (alphanumeric : Z -> bool).

(** * The announced decision *)

Lemma relations_gets {A} (f : Relations.Db -> A) w d :
  on_relations (gets f) w d = (Ok (f (relations_of d)), w, d).
Proof using Type.
  destruct d as [t ? ? ? ? ? ? ? ? ?]. destruct t as [b ? ? ? ? ? ? ? ? ? ?]. destruct b as [n ? ? ? ? ?].
  destruct n as [? ? ? ? ? ? ? ? ? r]. by destruct r as [? ? ? []].
Qed.

Lemma block_check_run (me author : AccountId) w d :
  on_relations (Relations.local_accounts_are_blocked me author) w d
  = (Ok (negb (bool_decide (me = author)) && Relations.local_pair_blocked me author (relations_of d)), w, d).
Proof using Type.
  unfold Relations.local_accounts_are_blocked. destruct (decide (me = author)) as [Heq|Hne].
  - rewrite (bool_decide_eq_true_2 _ Heq). apply (relations_gets (fun _ => false)).
  - rewrite (bool_decide_eq_false_2 _ Hne). apply relations_gets.
Qed.

Ltac denied :=
  split; [intros (r & Hr & Hc); lazy beta iota zeta delta [mret M_ret fst] in Hr; injection Hr as <-; discriminate
         |intros (t & Ht); lazy beta iota zeta delta [throw fst negb] in Ht; discriminate].


(** * What quotes show *)

Definition item_reference (item : Threads.StatusContextItem) : StatusReference :=
  match item with Threads.LocalItem i _ => Local i | Threads.RemoteItem i _ => Remote i end.

(** A stored status that the viewer may read. *)
Definition readable (d : Db) (viewer : option AccountId) (item : Threads.StatusContextItem) : Prop :=
  match item with
  | Threads.LocalItem i s =>
      find_local d i = Some s /\ Threads.status_visible_to_viewer (threads_db d) i s viewer = true
  | Threads.RemoteItem i s => find_remote d i = Some s /\ visible_remote d i s viewer = true
  end.

Lemma local_response_shows i viewer w d r w' d' item :
  local_quote_response i viewer w d = (Ok r, w', d') -> response_status r = Some item ->
  item_reference item = Local i /\ readable d viewer item.
Proof using Type.
  unfold local_quote_response. intros H Hitem. apply bind_Ok in H as (d0 & w1 & d1 & Hd & H). injection Hd as <- <- <-.
  destruct (find_local d i) as [s|] eqn:Hs; [|by injection H as <- <- <-].
  destruct (Threads.status_visible_to_viewer _ _ _ _) eqn:Hv; cbn [negb] in H; [|by injection H as <- <- <-].
  destruct (negb _); [done|]. apply bind_Ok in H as (shown & w1 & d1 & _ & H). injection H as <- <- <-.
  injection Hitem as <-. done.
Qed.

Lemma remote_response_shows host_domain i viewer w d r w' d' item :
  remote_quote_response host_domain i viewer w d = (Ok r, w', d') -> response_status r = Some item ->
  item_reference item = Remote i /\ readable d viewer item.
Proof using Type.
  unfold remote_quote_response. intros H Hitem. apply bind_Ok in H as (d0 & w1 & d1 & Hd & H). injection Hd as <- <- <-.
  destruct (find_remote d i) as [s|] eqn:Hs; [|by injection H as <- <- <-].
  apply bind_Ok in H as (suspended & w1 & d1 & _ & H). apply bind_Ok in H as (shown & w2 & d2 & _ & H).
  destruct (visible_remote _ _ _ _) eqn:Hv; cbn [negb] in H; [|by injection H as <- <- <-].
  apply bind_Ok in H as (x & w3 & d3 & _ & H). injection H as <- <- <-. by injection Hitem as <-.
Qed.

(** C26. The status that a response shows as quoted is the target of an accepted quote, it
    is stored, and the viewer passes the visibility check of that status ([readable]): a
    pending, refused, revoked or withdrawn quote shows nothing, and neither does the quote
    of a status that is gone or hidden from the viewer.  (That check does not look at a
    suspension of the quoted author.) *)
Theorem quotes_show_what_may_be_read host_domain quoting viewer w d r item :
  quotes_ok d ->
  value_of (status_quote_response host_domain quoting viewer) w d = Ok (Some r) -> response_status r = Some item ->
  readable d viewer item /\
  exists i q, quotes d !! i = Some q /\ quoting_status q = quoting /\ quoted_status q = Some (item_reference item) /\
    state q = Accepted.
Proof using Type.
  intros Hok. unfold value_of. destruct (status_quote_response _ _ _ w d) as [[res w'] d'] eqn:H. cbn. intros -> Hitem.
  unfold status_quote_response in H. apply bind_Ok in H as (found & w1 & d1 & Hf & H). injection Hf as <- <- <-.
  destruct (find_quote _ d) as [q|] eqn:Hq; [|done]. apply find_quote_Some in Hq as [Hq Hr]; [|done].
  unfold quotes_by in Hr. boolp. destruct (in_state Accepted q) eqn:Hs; cbn [negb] in H;
    [|injection H as <- <- <-; done].
  unfold in_state in Hs. boolp. apply bind_Ok in H as (shown & w1 & d1 & Hshown & H). injection H as <- <- <-.
  assert (quoted_status q = Some (item_reference item) /\ readable d viewer item) as [Ht Hread].
  { destruct (quoted_status q) as [[i|i]|].
    - destruct (local_response_shows _ _ _ _ _ _ _ _ Hshown Hitem) as [-> ?]. done.
    - destruct (remote_response_shows _ _ _ _ _ _ _ _ _ Hshown Hitem) as [-> ?]. done.
    - by injection Hshown as <- <- <-. }
  split; [done|]. by exists (quote_id q), q.
Qed.

(** * Quotes of remote notes *)

(** The row that a quote of a stored note becomes, whatever it was. *)
Definition decided (d' : Db) (q : StatusQuote) (s : QuoteState) (a : option string) : Prop :=
  exists q', quotes d' !! quote_id q = Some q' /\ same_edge q q' /\ state q' = s /\ authorization_id q' = a.

Lemma decided_view d d' q s a : view d' = view d -> decided d q s a -> decided d' q s a.
Proof using Type. intros [= Hq _]. unfold decided. by rewrite Hq. Qed.

Lemma upsert_decides quoting t url s a q w d x w' d' :
  quotes_ok d -> find_quote (quotes_by (Remote quoting)) d = Some q ->
  upsert_remote_status_quote quoting t url s a w d = (Ok x, w', d') ->
  decided d' q s a /\ quoted_activitypub_id q = url.
Proof using Type.
  intros Hok Hq H. unfold upsert_remote_status_quote in H. apply bind_Ok in H as (present & w1 & d1 & Hp & H).
  injection Hp as <- <- <-. destruct (negb _) in H; [done|].
  apply bind_Ok in H as (found & w1 & d1 & Hf & H). injection Hf as <- <- <-. rewrite Hq in H.
  destruct (bool_decide _) eqn:Hurl in H; [|done]. boolp. split; [|done].
  apply bind_Ok in H as (now & w1 & d1 & Hn & H). injection Hn as <- <- <-. unfold write in H. apply bind_Ok in H as (v & w2 & d2 & Hv & H). injection Hv as <- <- <-.
  destruct (unique _ d); [done|]. injection H as <- <- <-.
  eexists. split; [apply lookup_insert_eq|]. split; [apply same_edge_state|done].
Qed.

(** The notes that are stored, by their identifiers. *)
Definition noted (d : Db) := (Inbox.status_activitypub_id (inbox_of d), Statuses.remote_statuses (statuses_of d)).

Lemma noted_url d d' url :
  noted d' = noted d -> Inbox.remote_status_of_url url (inbox_of d') = Inbox.remote_status_of_url url (inbox_of d).
Proof using Type.
  intros [= Hi Hs]. unfold Inbox.remote_status_of_url. f_equal.
  change (Inbox.statuses_of (inbox_of d')) with (statuses_of d').
  change (Inbox.statuses_of (inbox_of d)) with (statuses_of d). by rewrite Hi, Hs.
Qed.

Lemma noted_relations {A} (m : Op Relations.Db A) : keeps noted (on_relations m).
Proof using Type.
  intros w d. unfold on_relations, on_timelines, Timelines.on_relations, Timelines.on_interactions,
    Interactions.on_relations, NotificationRequests.on_relations, store_of, zoom. cbn.
  match goal with |- context [m w ?x] => by destruct (m w x) as [[r w'] t] end.
Qed.

Lemma noted_job local remote activity key : keeps noted (quote_job local remote activity key).
Proof using Type. apply keeps_bind; [done|]. intros now. apply noted_relations. Qed.

Lemma view_job local remote activity key : keeps view (quote_job local remote activity key).
Proof using Type. apply keeps_bind; [done|]. intros now. apply view_relations. Qed.

Lemma answer_decides signer r target author accepted authorization response quoting row q w d w' d' :
  quotes_ok d -> Inbox.remote_status_of_url (request_instrument r) (inbox_of d) = Some (quoting, row) ->
  find_quote (quotes_by (Remote quoting)) d = Some q ->
  answer_request uuid_text signer r target author accepted authorization response w d = (Ok tt, w', d') ->
  decided d' q (if accepted then Accepted else Rejected) authorization /\
  quoted_activitypub_id q = request_object r.
Proof using Type.
  intros Hok Hnote Hq H. unfold answer_request in H. apply bind_Ok in H as ([] & w1 & d1 & Hjob & H).
  pose proof (keeps_run noted _ _ _ _ _ _ (noted_job _ _ _ _) Hjob) as Hn.
  pose proof (keeps_run view _ _ _ _ _ _ (view_job _ _ _ _) Hjob) as Hv.
  apply bind_Ok in H as (d2 & w2 & d3 & Hd & H). injection Hd as <- <- <-.
  rewrite (noted_url _ _ _ Hn), Hnote in H. apply bind_Ok in H as (x & w2 & d2 & Hup & H).
  apply (upsert_decides _ _ _ _ _ q) in Hup as [Hup Hurl]; [|by apply (view_ok d)|].
  2:{ injection Hv as Hv _. unfold find_quote in *. by rewrite Hv. }
  split; [|done].
  eapply decided_view; [|exact Hup]. destruct accepted; [|by injection H as <- <-].
  eapply keeps_run; [|exact H]. apply keeps_bind; [apply view_requests|done].
Qed.

(** An edit of the quoting note takes back what its quoted author decided: when the
    edited note still names the quote and the policy of the quoted status would let it
    be made, the quote is accepted again, with a new authorization, also after it was
    revoked. *)
Theorem edits_take_revocations_back note status actor r q w d w1 d1 ns w' d' :
  quotes_ok d -> find_quote (quotes_by (Remote status)) d = Some q ->
  resolve_inbound_quote uuid_text parse_uuid public_url base_url url_origin fetch_json note actor w d
    = (Ok (Some r), w1, d1) ->
  process_inbound_quote uuid_text parse_uuid public_url base_url url_origin fetch_json note status true actor w d
    = (Ok ns, w', d') ->
  decided d' q Accepted (in_authorization r).
Proof using Type.
  intros Hok Hq Hr H. unfold process_inbound_quote in H. apply bind_Ok in H as (r' & w2 & d2 & Hr' & H).
  rewrite Hr in Hr'. injection Hr' as <- <- <-.
  assert (Hv : view d1 = view d).
  { eapply (keeps_run view); [|exact Hr]. apply view_resolve. }
  apply transaction_Ok in H as [H|[_ (s1 & H)]].
  2:{ apply bind_Ok in H as (? & ? & ? & _ & H). discriminate. }
  apply bind_Ok in H as (stored & w3 & d3 & Hs & H). injection H as <- <- <-.
  unfold store_inbound_quote in Hs. apply bind_Ok in Hs as (x & w4 & d4 & Hup & Hs).
  apply (upsert_decides _ _ _ _ _ q) in Hup as [Hup _]; [|by apply (view_ok d)|].
  2:{ injection Hv as Hv _. unfold find_quote in *. by rewrite Hv. }
  by destruct (in_author r); injection Hs as <- <- <-.
Qed.

(** * Authorizations *)

Lemma find_quote_is p d q :
  quotes d !! quote_id q = Some q -> p q = true ->
  (forall i x, quotes d !! i = Some x -> p x = true -> x = q) -> find_quote p d = Some q.
Proof using Type.
  intros Hq Hp Hone. unfold find_quote.
  assert (Hin : q ∈ rows_where p (quotes d)) by (apply elem_of_rows_where; eauto).
  destruct (rows_where p (quotes d)) as [|x l] eqn:Hrows; [by apply not_elem_of_nil in Hin|].
  assert (Hx : x ∈ rows_where p (quotes d)) by (rewrite Hrows; left).
  apply elem_of_rows_where in Hx as [[i Hi] Hpx]. cbn. f_equal. by eapply Hone.
Qed.

Lemma authorization_unique d i x q a :
  quotes_ok d -> quotes d !! i = Some x -> quotes d !! quote_id q = Some q ->
  authorization_id x = Some a -> authorization_id q = Some a -> x = q.
Proof using Type.
  intros Hok Hx Hq Ha Ha'. pose proof (ok_keyed d Hok i x Hx) as Hi.
  pose proof (ok_fits d Hok _ _ Hq _ _ Hx) as Hf. apply collision_None in Hf as [|(_ & _ & Hf)]; [congruence|].
  exfalso. unfold same_some in Hf. rewrite Ha, Ha', !bool_decide_eq_true_2 in Hf by done. done.
Qed.

(** The document of an authorization is that of the accepted quote that holds it: it
    is served exactly while the quote is accepted and both statuses are there, it names
    the author of the quoted status, and any other identifier is not found. *)
Theorem authorization_document_is_the_accepted_quote authorization doc w d :
  quotes_ok d ->
  value_of (quote_authorization uuid_text public_url federation_enabled authorization) w d = Ok doc <->
  federation_enabled = true /\
  exists i q target s o,
    quotes d !! i = Some q /\ authorization_id q = Some (authorization_url uuid_text public_url authorization) /\
    state q = Accepted /\ quoted_status q = Some (Local target) /\ find_local d target = Some s /\
    has_account d (Statuses.ls_account s) = true /\ interacting uuid_text public_url d (quoting_status q) = Some o /\
    doc = mkAuthorization (authorization_url uuid_text public_url authorization)
            (actor_url public_url d (Statuses.ls_account s)) o (quoted_activitypub_id q).
Proof using Type.
  clear base_url prove url_origin digest parse_uuid fetch_json parse_text alphanumeric status_document.
  intros Hok. unfold quote_authorization, value_of. destruct federation_enabled; cbn [negb]; [|by split; [|intros [? _]]].
  cbv zeta. set (a := authorization_url uuid_text public_url authorization).
  lazy beta iota zeta delta [api map_err mbind M_bind quote_by_authorization_id gets].
  split.
  - destruct (find_quote _ d) as [q|] eqn:Hq; cbn -[find_local interacting]; [|done]. intros H.
    apply find_quote_Some in Hq as [Hq Ha]; [|done]. unfold authorized_as in Ha. boolp.
    destruct (in_state Accepted q) eqn:Hs; [|done]. unfold in_state in Hs. boolp.
    destruct (quoted_status q) as [[target|]|] eqn:Ht; try done. cbn -[find_local interacting] in H.
    destruct (find_local d target) as [s|] eqn:Hl; [|done]. cbn -[find_local interacting] in H.
    destruct (has_account d (Statuses.ls_account s)) eqn:Hc; [|done]. cbn -[find_local interacting] in H.
    destruct (interacting uuid_text public_url d (quoting_status q)) as [o|] eqn:Ho; [|done].
    injection H as <-. split; [done|]. by exists (quote_id q), q, target, s, o.
  - intros (_ & i & q & target & s & o & Hi & Ha & Hs & Ht & Hl & Hc & Ho & ->).
    pose proof (ok_keyed d Hok i q Hi) as Hk. rewrite <- Hk in Hi.
    rewrite (find_quote_is (authorized_as a) d q).
    + cbn -[find_local interacting]. unfold in_state. rewrite (bool_decide_eq_true_2 _ Hs), Ht.
      cbn -[find_local interacting]. rewrite Hl. cbn -[find_local interacting]. rewrite Hc. cbn -[find_local interacting].
      by rewrite Ho.
    + done.
    + unfold authorized_as. by apply bool_decide_eq_true_2.
    + intros j x Hx Hp. unfold authorized_as in Hp. boolp. by eapply authorization_unique.
Qed.

(** ** The first authorization *)

Definition both (d : Db) := (view d, noted d).

Lemma both_split {A} (m : Op Db A) : keeps view m -> keeps noted m -> keeps both m.
Proof using Type. intros Hv Hn w d. unfold both. by rewrite (Hv w d), (Hn w d). Qed.

Lemma noted_inbox {A} (m : Op Inbox.Db A) :
  keeps (fun i => (Inbox.status_activitypub_id i, Inbox.interactions i)) m -> keeps noted (on_inbox m).
Proof using Type.
  intros Hm. unfold on_inbox, on_timelines.
  apply (keeps_zoom_part noted (fun t => (Inbox.status_activitypub_id (Timelines.inbox t),
                                          Inbox.interactions (Timelines.inbox t)))).
  - intros s t [= Hi Hs]. unfold noted, inbox_of, statuses_of, Timelines.statuses_of, Inbox.statuses_of. cbn.
    cbn in Hi, Hs. by rewrite Hi, Hs.
  - by apply (keeps_zoom_part _ (fun i => (Inbox.status_activitypub_id i, Inbox.interactions i))).
Qed.

Lemma both_ignored activity signer : keeps both (finish_ignored uuid_text digest activity signer).
Proof using Type.
  apply both_split; [apply view_ignored|]. apply noted_inbox, InboxInvariant.keeps_answered.
  unfold Inbox.register_inbox_replay, Inbox.register_inbox_activity, Inbox.classify_inbox_activity. solve_keeps.
Qed.

Lemma both_new activity signer : keeps both (on_inbox (Inbox.is_new_inbox_activity uuid_text digest activity signer)).
Proof using Type.
  apply both_split; [apply view_inbox, requests_new|]. apply noted_inbox.
  unfold Inbox.is_new_inbox_activity, Inbox.register_inbox_replay, Inbox.register_inbox_activity,
    Inbox.classify_inbox_activity. solve_keeps.
Qed.

Lemma both_local_status url : keeps both (on_inbox (Inbox.local_status_id_from_url parse_uuid base_url url)).
Proof using Type.
  apply both_split; [apply view_local_status|].
  apply noted_inbox, InboxInvariant.reads_keeps, InboxInvariant.reads_local_status.
Qed.

Lemma both_relations {A} (m : Op Relations.Db A) : keeps both (on_relations m).
Proof using Type. apply both_split; [apply view_relations|apply noted_relations]. Qed.

(** ** Requests for the notes of others *)

Definition ledger (d : Db) := Inbox.processed (inbox_of d).

Lemma ledger_relations {A} (m : Op Relations.Db A) : keeps ledger (on_relations m).
Proof using Type.
  unfold on_relations, on_timelines.
  apply (keeps_zoom_part ledger (fun t => Inbox.processed (Timelines.inbox t))); [done|].
  unfold Timelines.on_relations, Timelines.on_interactions.
  apply (keeps_zoom_part _ Inbox.processed); [done|]. by apply keeps_zoom.
Qed.

Lemma accepts_keeps {B} (f : Db -> B) signer target s :
  (forall A (m : Op Relations.Db A), keeps f (on_relations m)) -> keeps f (accepts signer target s).
Proof using Type.
  intros Hf. unfold accepts, remote_actor_may_quote. repeat first [apply Hf | apply keeps_bind | done | intro].
  by destruct (policy_of _ _); first [apply Hf|done].
Qed.

Lemma new_is_recorded activity signer i w d b w' d' :
  Inbox.string_member uuid_text "id" activity = Some i -> ledger d !! i = None ->
  on_inbox (Inbox.is_new_inbox_activity uuid_text digest activity signer) w d = (Ok b, w', d') -> b = true.
Proof using Type.
  intros Hi Hnew H. unfold on_inbox, on_timelines, zoom in H.
  change (get_part (get_part d)) with (inbox_of d) in H.
  destruct (Inbox.is_new_inbox_activity _ _ _ _ w (inbox_of d)) as [[[b'|e] w1] x] eqn:E; [|done].
  injection H as <- _ _. unfold Inbox.is_new_inbox_activity in E. apply bind_Ok in E as (r & w2 & x2 & Hr & E).
  apply (InboxInvariant.replay_run _ _ _ _ _ i) in Hr as (_ & _ & [_ Hr] & _); [|done].
  rewrite (Hr Hnew) in E. by injection E as <- _ _.
Qed.

(** The inbox hands a new request on as it came, or refuses it. *)
Lemma inbox_hands_on activity signer i w x :
  Inbox.inbound_activity_type uuid_text activity = Some Inbox.QuoteRequest ->
  Inbox.string_member uuid_text "id" activity = Some i -> Inbox.processed x !! i = None ->
  Inbox.process_inbox uuid_text parse_uuid public_url base_url url_origin digest prove activity signer w x
    = (Ok None, w, x) \/
  Inbox.process_inbox uuid_text parse_uuid public_url base_url url_origin digest prove activity signer w x
    = (Ok (Some Inbox.BAD_REQUEST), w, x).
Proof using Type.
  intros Hk Hi Hnew. unfold Inbox.process_inbox. rewrite Hk, Hi. cbn [mbind option_bind Inbox.persisted].
  destruct (Inbox.same_url_origin _ _ _); cbn [negb]; [|by right].
  destruct (Inbox.canonical_activity_digest digest activity) as [dg|]; [|by right]. left.
  unfold Inbox.classify_inbox_activity, mbind, M_bind. cbn [gets Inbox.md_activity_id]. rewrite Hnew. cbn.
  unfold Inbox.dispatch. by destruct (Inbox.is_remote_actor_lifecycle_activity _ _ _).
Qed.

Lemma request_decides activity i signer r target s quoting row q w d w' d' :
  quotes_ok d -> quote_request_of uuid_text activity = Some r ->
  Inbox.string_member uuid_text "id" activity = Some i -> ledger d !! i = None ->
  value_of (on_inbox (Inbox.local_status_id_from_url parse_uuid base_url (request_object r))) w d
    = Ok (Some (mkStatusId target)) ->
  find_local d target = Some s ->
  Inbox.remote_status_of_url (request_instrument r) (inbox_of d) = Some (quoting, row) ->
  find_quote (quotes_by (Remote quoting)) d = Some q ->
  process_quote_request uuid_text parse_uuid public_url base_url digest activity i signer w d
    = (Ok Inbox.ACCEPTED, w', d') ->
  quoted_activitypub_id q = request_object r /\
  ((exists a, decided d' q Accepted (Some a)) \/ decided d' q Rejected None).
Proof using Type.
  intros Hok Hr Hi Hnew Htarget Hs Hnote Hq H. unfold process_quote_request in H. rewrite Hr in H.
  destruct (_ || _); [done|]. apply bind_Ok in H as (found & w1 & d1 & Hf & H).
  unfold value_of in Htarget. rewrite Hf in Htarget. injection Htarget as ->.
  assert (d1 = d) as ->.
  { unfold on_inbox, on_timelines in Hf. eapply (keeps_run (fun d => d)); [|exact Hf].
    apply InboxInvariant.reads_keeps. do 2 apply InboxInvariant.reads_zoom. apply InboxInvariant.reads_local_status. }
  apply bind_Ok in H as (d0 & w2 & d2 & Hd & H). injection Hd as <- <- <-. rewrite Hs in H.
  apply bind_Ok in H as (accepted & w2 & d2 & Ha & H).
  pose proof (keeps_run both _ _ _ _ _ _ (accepts_keeps both _ _ _ (fun A => both_relations)) Ha) as Hb.
  pose proof (keeps_run ledger _ _ _ _ _ _ (accepts_keeps ledger _ _ _ (fun A => ledger_relations)) Ha) as Hl.
  destruct (negb _); [done|]. apply bind_Ok in H as (a & w3 & d3 & Hauth & H).
  assert (d3 = d2 /\ (if accepted then is_Some a else a = None)) as [-> Ha'].
  { destruct accepted; [|by injection Hauth as <- _ <-].
    apply bind_Ok in Hauth as (x & w4 & d4 & Hx & Hauth). injection Hx as _ _ <-.
    injection Hauth as <- _ <-. split; [done|by eexists]. }
  apply bind_Ok in H as (j & w4 & d4 & Hj & H). injection Hj as _ _ <-.
  unfold recorded in H. apply InboxInvariant.answered_inv in H as (c & d5 & H & Hc); [|done].
  apply bind_Ok in H as (is_new & w5 & d6 & Hisnew & H).
  pose proof (new_is_recorded _ _ i _ _ _ _ _ Hi ltac:(by rewrite Hl) Hisnew) as ->. cbn [when] in H.
  pose proof (keeps_run both _ _ _ _ _ _ (both_new _ _) Hisnew) as Hb2. rewrite Hb in Hb2.
  injection Hb2 as Hv1 Hv2 Hn1 Hn2.
  apply bind_Ok in H as ([] & w6 & d7 & Hans & H). injection H as <- <- <-.
  assert (d' = d7) as -> by (destruct Hc as [[_ ->]|[[=] _]]; done).
  eapply answer_decides in Hans as [Hdec Hurl].
  - split; [done|]. destruct accepted; [left|right].
    + destruct Ha' as [x ->]. by eexists.
    + by rewrite Ha' in Hdec.
  - apply (view_ok d); [|done]. unfold view. by rewrite Hv1, Hv2.
  - rewrite (noted_url d); [exact Hnote|]. unfold noted. by rewrite Hn1, Hn2.
  - unfold find_quote. by rewrite Hv1.
Qed.

(** C40. A request to quote decides on the quote of whatever note it names, also of a note
    by somebody else.  When the inbox answers 202 to a new request for a stored local
    status, and a quote is stored for the note that the request names - a note that the
    signer did not write - then that quote, which must be of the requested status, has
    the decision of this request from then on: accepted with a new authorization or
    rejected without one, even if it was accepted before for its own author. *)
Theorem requests_decide_on_any_note activity signer r target s quoting row q w d w' d' :
  quotes_ok d ->
  Inbox.inbound_activity_type uuid_text activity = Some Inbox.QuoteRequest ->
  quote_request_of uuid_text activity = Some r -> Inbox.processed (inbox_of d) !! request_id r = None ->
  value_of (on_inbox (Inbox.local_status_id_from_url parse_uuid base_url (request_object r))) w d
    = Ok (Some (mkStatusId target)) ->
  find_local d target = Some s ->
  Inbox.remote_status_of_url (request_instrument r) (inbox_of d) = Some (quoting, row) ->
  Statuses.rs_actor row <> account_uuid (Inbox.signer_id signer) ->
  find_quote (quotes_by (Remote quoting)) d = Some q ->
  process_inbox uuid_text parse_uuid public_url base_url url_origin digest prove federation_enabled
    status_document activity signer w d = (Ok (Some Inbox.ACCEPTED), w', d') ->
  quoted_activitypub_id q = request_object r /\
  ((exists a, decided d' q Accepted (Some a)) \/ decided d' q Rejected None).
Proof using Type.
  intros Hok Hk Hr Hnew Htarget Hs Hnote _ Hq H.
  assert (Hi : Inbox.string_member uuid_text "id" activity = Some (request_id r)).
  { unfold quote_request_of in Hr. destruct (Inbox.string_member uuid_text "id" activity); [|done]. cbn in Hr.
    destruct (Inbox.string_member uuid_text "actor" activity); [|done]. cbn in Hr.
    destruct (Inbox.string_member uuid_text "object" activity); [|done]. cbn in Hr.
    destruct (Inbox.string_member uuid_text "instrument" activity); [|done]. by injection Hr as <-. }
  unfold process_inbox in H. apply bind_Ok in H as (z & w1 & d1 & Hin & H).
  unfold on_inbox, on_timelines, zoom in Hin. change (get_part (get_part d)) with (inbox_of d) in Hin.
  destruct (inbox_hands_on activity signer (request_id r) w (inbox_of d) Hk Hi Hnew) as [E|E]; rewrite E in Hin;
    injection Hin as <- <- Hd1; [|done].
  assert (d1 = d) as -> by (rewrite <- Hd1; by destruct d as [[] ? ? ? ? ? ? ? ? ?]). clear Hd1.
  destruct (Inbox.is_remote_actor_lifecycle_activity _ _ _); [done|]. rewrite Hk, Hi in H.
  apply bind_Ok in H as (z & w2 & d2 & Hreq & H). injection H as -> <- <-.
  by eapply request_decides.
Qed.

(** A run that changes no quote as long as no stored note has the identifier [u]. *)
Definition silent (u : string) {A} (m : Op Db A) : Prop := forall w d,
  Inbox.remote_status_of_url u (inbox_of d) = None -> view (store_of m w d) = view d.

Lemma silent_keeps u {A} (m : Op Db A) : keeps view m -> silent u m.
Proof using Type. intros Hm w d _. apply Hm. Qed.

Lemma silent_bind u {A B} (m : Op Db A) (k : A -> Op Db B) :
  keeps both m -> (forall a, silent u (k a)) -> silent u (m ≫= k).
Proof using Type.
  intros Hm Hk w d Hu. specialize (Hm w d). unfold store_of, mbind, M_bind in *.
  destruct (m w d) as [[[a|e] w1] d1]; cbn in *; injection Hm as Hq Hr Hi Hs; unfold view; [|congruence].
  transitivity (view d1); [|unfold view; congruence]. apply (Hk a w1 d1).
  rewrite (noted_url d); [done|]. unfold noted. congruence.
Qed.

Lemma silent_before u {A B} (m : Op Db A) (k : A -> Op Db B) :
  silent u m -> (forall a, keeps view (k a)) -> silent u (m ≫= k).
Proof using Type.
  intros Hm Hk w d Hu. specialize (Hm w d Hu). unfold store_of, mbind, M_bind in *.
  destruct (m w d) as [[[a|e] w1] d1]; cbn in *; [|done]. rewrite <- Hm. apply (Hk a w1 d1).
Qed.

Lemma silent_answered u (m : Op Db (txn Z)) : silent u m -> silent u (Inbox.answered m).
Proof using Type.
  intros Hm w d Hu. specialize (Hm w d Hu). unfold store_of, Inbox.answered, transaction in *.
  by destruct (m w d) as [[[[z|z]|e] w1] d1].
Qed.

Lemma silent_request activity i signer r :
  quote_request_of uuid_text activity = Some r ->
  silent (request_instrument r)
    (process_quote_request uuid_text parse_uuid public_url base_url digest activity i signer).
Proof using Type.
  intros Hr. unfold process_quote_request. rewrite Hr. destruct (_ || _); [by apply silent_keeps|].
  apply silent_bind; [apply both_local_status|]. intros found. apply silent_bind; [done|]. intros d.
  destruct found as [[target]|]; [|apply silent_keeps, view_ignored].
  destruct (find_local d target) as [s|]; [|apply silent_keeps, view_ignored].
  apply silent_bind.
  { unfold accepts, remote_actor_may_quote. repeat first [apply both_relations | apply keeps_bind | done | intro].
    by destruct (policy_of _ _); first [apply both_relations|done]. }
  intros accepted. destruct (negb _); [by apply silent_keeps|].
  apply silent_bind; [by destruct accepted|]. intros a. apply silent_bind; [done|]. intros j.
  apply silent_answered, silent_bind; [apply both_new|]. intros [|]; cbn [when]; [|by apply silent_keeps].
  apply silent_before; [|done]. unfold answer_request. apply silent_bind; [apply both_split; [apply view_job|apply noted_job]|].
  intros _ w d1 Hu. unfold store_of, mbind, M_bind, gets. cbv beta iota. by rewrite Hu.
Qed.

(** The authorization that a request is answered with is worth nothing when the
    quoting note is not stored yet, as when the request precedes the note: the answer
    names it, no quote keeps it, and its document is not found, whatever world reads it. *)
Theorem first_authorizations_are_lost activity i signer r authorization w d w1 :
  quotes_ok d -> quote_request_of uuid_text activity = Some r ->
  Inbox.remote_status_of_url (request_instrument r) (inbox_of d) = None ->
  (forall j q, quotes d !! j = Some q ->
     authorization_id q <> Some (authorization_url uuid_text public_url authorization)) ->
  let d' := store_of (process_quote_request uuid_text parse_uuid public_url base_url digest activity i signer) w d in
  quotes d' = quotes d /\
  value_of (quote_authorization uuid_text public_url federation_enabled authorization) w1 d' = Err Timelines.NotFound.
Proof using Type.
  intros Hok Hr Hu Hfresh d'. assert (Hv : view d' = view d) by by apply (silent_request activity i signer r Hr).
  injection Hv as Hq _. split; [done|].
  unfold quote_authorization, value_of. destruct federation_enabled; cbn [negb]; [|done].
  lazy beta iota zeta delta [api map_err mbind M_bind quote_by_authorization_id gets].
  destruct (find_quote _ d') as [q|] eqn:Hf; [|done]. exfalso.
  unfold find_quote in Hf. apply (head_row_keyed _ _ quote_id) in Hf as [Hl Ha]; [|rewrite Hq; apply Hok].
  unfold authorized_as in Ha. boolp. rewrite Hq in Hl. by eapply Hfresh.
Qed.

(** * The list of quotes *)

(** The entry of a quote: its quoting status, if that is stored. *)
Definition entry (d : Db) (q : StatusQuote) : option Timelines.StatusResponse :=
  match quoting_status q with
  | Local i => (fun s => Timelines.mkResponse i (Threads.LocalItem i s) None) <$> find_local d i
  | Remote i => (fun s => Timelines.mkResponse i (Threads.RemoteItem i s) None) <$> find_remote d i
  end.

Lemma zoomed {A} (m : Op Timelines.Db A) w d a w' d' :
  on_timelines m w d = (Ok a, w', d') -> exists t, m w (timelines d) = (Ok a, w', t) /\ d' = put_part t d.
Proof using Type.
  unfold on_timelines, zoom. change (get_part d) with (timelines d).
  destruct (m w (timelines d)) as [[r w1] t]. intros [= -> -> <-]. by exists t.
Qed.

Lemma put_timelines d : (put_part (timelines d) d : Db) = d.
Proof using Type. by destruct d. Qed.

Lemma quoting_response_run q w d x w' d' :
  quoting_response q w d = (Ok x, w', d') -> x = entry d q /\ d' = d.
Proof using Type.
  unfold quoting_response, entry. intros H. apply bind_Ok in H as (d0 & w1 & d1 & Hd & H). injection Hd as <- <- <-.
  destruct (quoting_status q) as [i|i].
  - destruct (find_local d i) as [s|]; [|by injection H as <- <- <-].
    apply bind_Ok in H as (r & w1 & d1 & Hr & H). injection H as <- <- <-.
    apply zoomed in Hr as (t & Hr & ->). apply TimelinesInvariant.status_with_author_ok in Hr as [-> ->].
    by rewrite put_timelines.
  - destruct (find_remote d i) as [s|]; [|by injection H as <- <- <-].
    apply bind_Ok in H as (r & w1 & d1 & Hr & H). injection H as <- <- <-.
    apply zoomed in Hr as (t & Hr & ->). apply TimelinesInvariant.remote_response_ok in Hr as [-> ->].
    by rewrite put_timelines.
Qed.

Lemma entries_run qs w d rs w' d' :
  collect qs quoting_response w d = (Ok rs, w', d') -> rs = entry d <$> qs /\ d' = d.
Proof using Type.
  revert w rs w' d'. induction qs as [|q qs IH]; intros w rs w' d' H; [by injection H as <- <- <-|].
  cbn [collect] in H. apply bind_Ok in H as (x & w1 & d1 & Hx & H). apply quoting_response_run in Hx as [-> ->].
  apply bind_Ok in H as (xs & w2 & d2 & Hxs & H). apply IH in Hxs as [-> ->]. by injection H as <- <- <-.
Qed.

Lemma omap_entries {A B} (f : A -> option B) (l : list A) : omap id (f <$> l) = omap f l.
Proof using Type. induction l as [|x l IH]; [done|]. cbn. destruct (f x); cbn; by rewrite IH. Qed.

(** C30. The list of the quotes of a status shows every accepted quote of the page whose
    quoting status is stored, to everybody who can see the quoted status: the quoting
    statuses are not checked, so that a followers-only or a direct status that quotes is
    shown to strangers. *)
Theorem quotes_listing_ignores_visibility me status params w d shown links w' d' :
  status_quotes parse_text me status params w d = (Ok (shown, links), w', d') ->
  d' = d /\
  exists target max since,
    listed_target d status me = Some target /\
    parse_cursor parse_text (Timelines.max_id params) = Ok max /\
    parse_cursor parse_text (Timelines.since_id params) = Ok since /\
    let limit := Timelines.timeline_limit (Timelines.limit params) in
    let page := Pagination.page_of quote_id limit (fun rows => rows) (take (Z.to_nat (limit + 1))
      (Pagination.newest_first quote_id (Pagination.apply_collection_cursor quote_id (Pagination.mkCursor max since None)
         (rows_where (fun q => in_state Accepted q && targets target q) (quotes d))))) in
    shown = omap (entry d) (Pagination.items page) /\ links = Pagination.header_links page.
Proof using Type.
  unfold status_quotes. intros H. apply bind_Ok in H as (d0 & w1 & d1 & Hd & H). injection Hd as <- <- <-.
  apply bind_Ok in H as (target & w1 & d1 & Ht & H). apply lift_option_Ok in Ht as (Ht & -> & ->).
  apply bind_Ok in H as (max & w1 & d1 & Hmax & H). apply lift_result_Ok in Hmax as (Hmax & -> & ->).
  apply bind_Ok in H as (since & w1 & d1 & Hsince & H). apply lift_result_Ok in Hsince as (Hsince & -> & ->).
  apply bind_Ok in H as (page & w1 & d1 & Hpage & H). injection Hpage as <- <- <-.
  apply bind_Ok in H as (rs & w1 & d1 & Hrs & H). injection H as <- <- <- <-.
  unfold api, map_err in Hrs. destruct (collect _ _ w d) as [[[x|e] w2] d2] eqn:Hc; [|done].
  injection Hrs as -> -> ->. apply entries_run in Hc as [-> ->]. split; [done|].
  exists target, max, since. cbv zeta.
  split; [exact Ht|]. split; [exact Hmax|]. split; [exact Hsince|]. split; [apply omap_entries|done].
Qed.
End Outcomes.

(** * Witnesses *)



Definition sample_response : QuoteResponse :=
  mkQuoteResponse (Stored Accepted)
    (Some (Threads.LocalItem 10 (TimelinesInvariant.sample_local 1 Statuses.Public))).

Lemma quotes_show_what_may_be_read_witness :
  readable (sample_store Accepted) (Some (mkAccountId 2))
    (Threads.LocalItem 10 (TimelinesInvariant.sample_local 1 Statuses.Public)) /\
  exists i q, quotes (sample_store Accepted) !! i = Some q /\ quoting_status q = Remote 22 /\ state q = Accepted.
Proof.
  destruct (quotes_show_what_may_be_read Some (Remote 22) (Some (mkAccountId 2)) sample_world (sample_store Accepted)
    sample_response (Threads.LocalItem 10 (TimelinesInvariant.sample_local 1 Statuses.Public)))
    as (Hr & i & q & Hq & Hquoting & _ & Hs).
  - apply sample_ok.
  - vm_compute. reflexivity.
  - reflexivity.
  - split; [exact Hr|]. exists i, q. auto.
Defined.

(** Nobody may quote status 10 any more; actor 51 asks for the note of actor 50, whose
    quote, which had been accepted, is rejected. *)
Definition other_request : JsonValue :=
  JObject [("id"%string, JString "https://far.test/requests/1"); ("type"%string, JString QUOTE_REQUEST);
           ("actor"%string, JString "https://far.test/eve"); ("object"%string, JString here_note);
           ("instrument"%string, JString far_note)].

Definition closed_store : Db := set_policies ∅ (sample_store Accepted).

Definition other_run : Op Db (option Z) :=
  process_inbox sample_text sample_parse InboxInvariant.sample_public "https://here.test"
    InboxInvariant.sample_origin InboxInvariant.sample_digest InboxInvariant.sample_proof true sample_document
    other_request InboxInvariant.other_signer.

Lemma requests_decide_on_any_note_witness :
  (exists a, decided (store_of other_run sample_world closed_store) (remote_quote Accepted) Accepted (Some a)) \/
  decided (store_of other_run sample_world closed_store) (remote_quote Accepted) Rejected None.
Proof.
  apply (requests_decide_on_any_note sample_text sample_parse InboxInvariant.sample_public "https://here.test"
    InboxInvariant.sample_origin InboxInvariant.sample_digest InboxInvariant.sample_proof true sample_document
    other_request InboxInvariant.other_signer
    (mkRequest "https://far.test/requests/1" "https://far.test/eve" here_note far_note) 10
    (TimelinesInvariant.sample_local 1 Statuses.Public) 22 (TimelinesInvariant.sample_remote Statuses.Public)
    (remote_quote Accepted) sample_world closed_store
    (world_of other_run sample_world closed_store)).
  - apply (view_ok (sample_store Accepted)); [reflexivity|apply sample_ok].
  - vm_compute. reflexivity.
  - vm_compute. reflexivity.
  - vm_compute. reflexivity.
  - vm_compute. reflexivity.
  - vm_compute. reflexivity.
  - vm_compute. reflexivity.
  - discriminate.
  - vm_compute. reflexivity.
  - vm_compute. reflexivity.
Defined.

Definition edited_note : InboundNote := mkNote far_note (Some here_note) None.
Definition sample_resolution : Op Db (option ResolvedInboundQuote) :=
  resolve_inbound_quote sample_text sample_parse InboxInvariant.sample_public "https://here.test"
    InboxInvariant.sample_origin (fun _ => None) edited_note (mkAccountId 50).
Definition sample_edit : Op Db (list Notifications.LocalNotification) :=
  process_inbound_quote sample_text sample_parse InboxInvariant.sample_public "https://here.test"
    InboxInvariant.sample_origin (fun _ => None) edited_note 22 true (mkAccountId 50).
Definition renewed : ResolvedInboundQuote :=
  mkResolvedInbound (Local 10) here_note (Some (authorization_url sample_text InboxInvariant.sample_public 100))
    (Some (mkAccountId 1)).

Lemma edits_take_revocations_back_witness :
  decided (store_of sample_edit sample_world (sample_store Revoked)) (remote_quote Revoked) Accepted
    (Some (authorization_url sample_text InboxInvariant.sample_public 100)).
Proof.
  destruct (run_ok sample_edit sample_world (sample_store Revoked)) as (ns & _ & Hrun); [vm_compute; reflexivity|].
  destruct (run_ok sample_resolution sample_world (sample_store Revoked)) as (r & Hr & Hresolved);
    [vm_compute; reflexivity|].
  assert (r = Some renewed) as ->.
  { assert (H : value_of sample_resolution sample_world (sample_store Revoked) = Ok (Some renewed))
      by (vm_compute; reflexivity). rewrite H in Hr. injection Hr as <-. reflexivity. }
  apply (edits_take_revocations_back sample_text sample_parse InboxInvariant.sample_public "https://here.test"
    InboxInvariant.sample_origin (fun _ => None) edited_note 22 (mkAccountId 50) renewed (remote_quote Revoked)
    sample_world (sample_store Revoked) (world_of sample_resolution sample_world (sample_store Revoked))
    (store_of sample_resolution sample_world (sample_store Revoked)) ns
    (world_of sample_edit sample_world (sample_store Revoked))).
  - apply sample_ok.
  - vm_compute. reflexivity.
  - exact Hresolved.
  - exact Hrun.
Defined.

Lemma authorization_document_is_the_accepted_quote_witness :
  value_of (quote_authorization sample_text InboxInvariant.sample_public true 7) sample_world (sample_store Accepted)
  = Ok (mkAuthorization sample_authorization (InboxInvariant.sample_public "users/alice") far_note here_note).
Proof.
  apply (authorization_document_is_the_accepted_quote sample_text InboxInvariant.sample_public true).
  - apply sample_ok.
  - split; [reflexivity|]. exists 41%N, (remote_quote Accepted), 10%N, (TimelinesInvariant.sample_local 1 Statuses.Public), far_note.
    split_and!; vm_compute; reflexivity.
Defined.

Definition early_request : JsonValue :=
  JObject [("id"%string, JString "https://far.test/requests/2"); ("type"%string, JString QUOTE_REQUEST);
           ("actor"%string, JString "https://far.test/ann"); ("object"%string, JString here_note);
           ("instrument"%string, JString "https://far.test/notes/23")].

Lemma first_authorizations_are_lost_witness :
  value_of (quote_authorization sample_text InboxInvariant.sample_public true 100) sample_world
    (store_of (process_quote_request sample_text sample_parse InboxInvariant.sample_public "https://here.test"
       InboxInvariant.sample_digest early_request "https://far.test/requests/2" InboxInvariant.sample_signer)
       sample_world (sample_store Accepted)) = Err Timelines.NotFound.
Proof.
  refine (proj2 (first_authorizations_are_lost sample_text sample_parse InboxInvariant.sample_public
    "https://here.test" InboxInvariant.sample_digest true early_request "https://far.test/requests/2"
    InboxInvariant.sample_signer (mkRequest "https://far.test/requests/2" "https://far.test/ann" here_note
      "https://far.test/notes/23") 100 sample_world (sample_store Accepted) sample_world _ _ _ _)).
  - apply sample_ok.
  - vm_compute. reflexivity.
  - vm_compute. reflexivity.
  - change (map_Forall (fun _ q => authorization_id q <> Some (authorization_url sample_text InboxInvariant.sample_public 100))
      (sample_quotes Accepted)).
    unfold sample_quotes. repeat (apply map_Forall_insert_2; [discriminate|]). apply map_Forall_empty.
Defined.

(** Account 3 sees the message of account 1 to account 2 in the list of the quotes of
    status 10. *)
Definition sample_listing := status_quotes (fun _ => None) (mkAccountId 3) 10 TimelinesInvariant.no_params.

Lemma quotes_listing_ignores_visibility_witness :
  Threads.status_visible_to_viewer (threads_db (sample_store Accepted)) 11
    (TimelinesInvariant.sample_local 1 Statuses.Direct) (Some (mkAccountId 3)) = false /\
  exists shown links, value_of sample_listing sample_world (sample_store Accepted) = Ok (shown, links) /\
    shown = omap (entry (sample_store Accepted)) [own_quote; remote_quote Accepted].
Proof.
  split; [vm_compute; reflexivity|].
  destruct (run_ok sample_listing sample_world (sample_store Accepted)) as ([shown links] & Hv & Hrun);
    [vm_compute; reflexivity|].
  destruct (quotes_listing_ignores_visibility (fun _ => None) (mkAccountId 3) 10 TimelinesInvariant.no_params sample_world
    (sample_store Accepted) shown links (world_of sample_listing sample_world (sample_store Accepted)) _ Hrun)
    as (_ & target & max & since & Ht & Hmax & Hsince & Hshown & _).
  injection Hmax as <-. injection Hsince as <-.
  assert (target = Local 10) as -> by (vm_compute in Ht; injection Ht as <-; reflexivity).
  exists shown, links. split; [exact Hv|]. rewrite Hshown. vm_compute. reflexivity.
Defined.
